(* ===== verification/_CoqProject ===== *)
-Q . S2P
Prelude.v
GpuApi.v
VattnState.v
VattnPages.v
VattnInit.v
VattnAlloc.v
VattnInv.v
VattnMap.v
VattnGrow.v
VattnReclaim.v
VattnStep.v
VattnManage.v
VattnIds.v
VattnDemo.v
VattnBoot.v
VattnCorrect.v
VattnProg.v
VattnRely.v
VattnAsync.v
UvmBits.v
UvmCommon.v
UvmMmuHal.v
UvmMmuHalCorrect.v
UvmFaultIds.v
UvmRangeTree.v
UvmRangeTreeCorrect.v
UvmRangeAllocator.v
UvmRangeAllocatorCorrect.v
UvmPush.v
UvmHostTlb.v
UvmTlbBatch.v
UvmPteBatch.v
UvmCopyEngine.v
UvmSemaphore.v
UvmTracker.v
UvmPmm.v
UvmPmmTree.v
UvmPmmInv.v
UvmPmmOps.v
UvmPmmLeaf.v
UvmPmmMerge.v
UvmPmmFree.v
UvmPmmSplit.v
UvmPmmAlloc.v
UvmPmmRoot.v
UvmPmmCorrect.v
UvmPmmHandle.v
UvmPmmKeep.v
UvmPmmIoctl.v
UvmPmmHandleCorrect.v
UvmVaBlock.v
UvmVaBlockCorrect.v
UvmPageTree.v
UvmPageTreeWalk.v
UvmPageTreeGet.v
UvmPageTreePush.v
UvmPageTreeTurns.v
UvmPageTreeInv.v
UvmPageTreeMemory.v
UvmPageTreeCorrect.v
UvmPageTreeAtomic.v
UvmPageTreePut.v
UvmMapHandle.v
UvmMapPush.v
UvmMapHandleCorrect.v
UvmMapTree.v
