(* ===== verification/Prelude.v ===== *)
(** * vAttention: a verification library

    vAttention serves large language models with a KV cache that is contiguous
    in virtual memory and backed by physical pages on demand.  The repository
    has two layers that this library models.

    - A user-space allocator (src/vattention/), a C++ extension that reserves
      virtual tensors for the K and V caches of every layer and maps physical
      page pairs behind them as requests grow.  It runs on one of two backends:
      2MB pages through the CUDA virtual memory calls, or smaller pages through
      four ioctls of a modified kernel module.
    - The modified UVM driver (src/nvidia-vattn-uvm-driver/kernel-open/nvidia-uvm/),
      whose physical memory manager hands out the smaller pages, and which
      writes page tables and invalidates TLBs to map them.

    ** The user-space allocator

    - GpuApi.v: the CUDA driver and ioctl(2) as a class of operations with
      their documented laws, and a concrete instance.  The laws say that a
      valid call succeeds: that the driver finds memory for its own page tables
      is assumed, since the allocator exits where it does not.
    - VattnState.v (utils.h): the globals as one record, page and token
      arithmetic on 64-bit words.
    - VattnPages.v (cudaInternal.h, uvmInternal.h, mux.h): the two backends.
    - VattnInit.v (vtensor.h, init_* of vattention.cu): configuration and
      virtual tensors.
    - VattnAlloc.v (vattention.cu, apis.h): growth, release, reclamation,
      the step functions, request ids, the background manager.
    - VattnInv.v, VattnMap.v, VattnGrow.v, VattnReclaim.v, VattnStep.v,
      VattnManage.v, VattnIds.v: the invariant (the free pool and the mapped
      pages partition the reserved ones; a request's mapped pages are the first
      mapped_pages[r] of its tensors in every layer; the GPU's page table shows
      them) and one specification per operation.
    - VattnDemo.v, VattnBoot.v: start-up establishes the invariant, on a
      concrete GPU and in general, on both backends; an example of what happens
      when the kernel module has no memory.
    - VattnCorrect.v: the theorems: after step_sync every request has the pages
      its length needs; a prefill runs out of memory only if the pages do not
      exist; contiguity and isolation of the cache; bounds of the free count;
      termination of the release loop.
    - VattnProg.v: the code that runs in two threads as trees of atomic
      actions, one per access to shared lengths, counters or pool and one per
      block; run alone, each is the definition of VattnAlloc.
    - VattnRely.v: these programs are safe when another thread writes sequence
      lengths between any two of their actions.
    - VattnAsync.v: step_async and the detached manager threads as a step
      relation over the actions: mutual exclusion of the prefill and the
      manager when a spawned thread sets its flag in time, no fault of a thread,
      every run ends the wait, and a schedule in which the two bodies race.

    The code runs in a state monad with faults (Prelude: exceptions, exit,
    failed assertions, undefined behaviour, lack of fuel); the specifications are
    weakest preconditions that rule the faults out.

    ** The UVM driver

    - UvmBits.v, UvmCommon.v: the DRF and HW field macros, powers of two,
      alignment, status codes.
    - UvmMmuHal.v, UvmMmuHalCorrect.v: the PTE and PDE encoders and the page
      tree geometry of six GPU architectures; decoding an encoded entry gives
      the request back, and no address bit is lost in its range.
    - UvmFaultIds.v: the tables from fault client ids to uTLBs.
    - UvmRangeTree.v, UvmRangeTreeCorrect.v (uvm_range_tree.c): every operation
      over a red-black tree and its list; the kernel's rebalancing is a
      parameter that keeps the in-order sequence.
    - UvmRangeAllocator.v, UvmRangeAllocatorCorrect.v (uvm_range_allocator.c).
    - UvmPush.v, UvmHostTlb.v, UvmTlbBatch.v (uvm_push*.h, uvm_*_host.c,
      uvm_tlb_batch.c): the words pushed for TLB invalidates, read back by a
      model of the host engine: every translation of every queued range goes.
    - UvmPteBatch.v (uvm_pte_batch.c): the copy engine commands of a batch have
      the effect of the writes, in order.
    - UvmCopyEngine.v: a copy engine that writes the words of its commands in
      any order between two waits with a membar, as pipelined commands allow.
    - UvmSemaphore.v (uvm_gpu_semaphore.c): pools, canaries, and the 64-bit
      value tracked through a 32-bit semaphore.
    - UvmTracker.v (uvm_tracker.c): trackers as sets of channel positions; a
      merge covers both, a wait returns when the channels progress.
    - UvmPmm.v (uvm_pmm_gpu.c): the physical memory manager, as operations on a
      heap of chunk objects: allocation with splits, freeing with merges, free
      lists, pinning, root chunks exchanged with PMA.
    - UvmPmmTree.v: the sizes of a mask and the forest of chunks; chunks
      without children never overlap.
    - UvmPmmInv.v: the invariant of the chunks, the counters of split chunks
      and the free lists, and what a change of one leaf keeps of it.
    - UvmPmmOps.v, UvmPmmLeaf.v: specifications of pinning, claiming and
      freeing a leaf; UvmPmmMerge.v, UvmPmmFree.v: of merging and freeing;
      UvmPmmSplit.v, UvmPmmAlloc.v: of splitting and going down to a size;
      UvmPmmRoot.v: of root chunks from PMA and of allocation as a whole.  What
      PMA promises is [pma_ok].
    - UvmPmmCorrect.v: the theorems: allocation and freeing from the initial
      state never fail an assertion, chunks in use are disjoint, freed memory
      is merged back to whole root chunks.
    - UvmPmmHandle.v (uvm_pmm_gpu.c): walks over the tree of chunks, splitting
      and merging chunks in use, allocation with trackers, and the handle
      ioctls uvm_api_get_mem_handle and uvm_api_free_mem_handle.
    - UvmPmmKeep.v: allocation and freeing leave the handle tables alone;
      UvmPmmIoctl.v: specification of allocation with trackers;
      UvmPmmHandleCorrect.v: for handles of 64KB the ioctls implement an
      allocator of pages.  For larger handles, whose chunks are split, there
      are evaluated examples only.
    - UvmVaBlock.v, UvmVaBlockCorrect.v (uvm_va_block.h, uvm_va_block.c): the
      geometry of VA blocks: regions, big pages, and the index of the chunk of
      a page, equal to covering the block chunk by chunk.
    - UvmPageTree.v (uvm_mmu.c): the page tree of a GPU VA space: getting and
      putting ranges of PTEs with the directories they need, the tables below
      2MB entries, and the commands that write directory entries.
    - UvmPageTreeWalk.v: linking and unlinking a chain of new directories, and
      the walk; UvmPageTreeGet.v, UvmPageTreeTurns.v: the turns of the retry
      loop; UvmPageTreePush.v: the push that writes the entries;
      UvmPageTreeInv.v: the invariant of the tree; UvmPageTreeMemory.v: the
      tables in memory and the walk of the MMU.
    - UvmPageTreeCorrect.v: getting the 2MB entry of an address finds or makes
      it, keeps the tree and its invariant, and undoes everything when memory
      runs out; UvmPageTreeAtomic.v: at every moment of the push, whatever the
      order of the writes between two waits, the MMU finds the tables it found
      before, and new tables only when they are cleared.
    - UvmPageTreePut.v: putting the entry back frees the directories that were
      made for it and restores the tree and its tables in memory.
    - UvmMapHandle.v (uvm_va_block.c, uvm_va_range.c): the ioctl
      uvm_api_map_handle with all it calls: the block, its GPU state and its
      page tables are found or made, the chunks entered, the big PTEs and the
      2MB directory entry pushed with their TLB invalidates.
    - UvmMapPush.v: what the push does to memory and to the TLB;
      UvmMapHandleCorrect.v: the ioctl maps what it is asked to, for every
      handle the handle ioctls gave out; its error path; and examples of the
      assertion that a debug build fails and of entries that are never
      initialized.
    - UvmMapTree.v: the first map of a block on top of the page tree: the MMU
      translates from the root directory to the memory of the handle.

    ** Bounds and fuel

    Machine integers keep their width: u64 and u32 wrap where the C types do,
    and int arithmetic that may overflow is a fault.  The while loop of the
    release code has as fuel the number of pages mapped, shown to be enough.
    The spin loops of trackers take the list of their turns as an argument:
    running out of it is a loop that still spins, and the theorems assume a
    turn at which the channels are done.  The loops over chunk sizes have fuel
    64, more than the 22 sizes a mask can hold.  The loops of the page tree have
    fuel for its MAX_OPERATION_DEPTH levels, shown to be enough for 2MB entries.

    ** Not modelled

    The Python serving framework (sarathi-lean), the attention kernels
    (pod_attn), benchmarks and scripts call the allocator and hold no allocation
    logic.  Of the driver, fault servicing, channels, migration, eviction, the
    VA space and HMM are the stock NVIDIA code, not changed by vAttention; the
    cleanup of a VA range is not modelled.  Locks are not modelled, an operation
    of the driver is its critical section.  Log messages and the Python bindings are not
    modelled. *)

From stdpp Require Export base list gmap sets list_numbers.
From stdpp Require Import options.
From Stdlib Require Export ZArith Lia.


Declare Scope cword_scope.
Delimit Scope cword_scope with cw.

Local Open Scope Z_scope.

(** * Machine words *)

(** [wrap w x] is the value of [x] in an unsigned integer of [w] bits. *)
Definition wrap (w x : Z) : Z := x mod 2 ^ w.

(** [NvU64], [u64] and [size_t]: 64-bit unsigned integers. *)
Definition u64 (x : Z) : Z := wrap 64 x.

(** [NvU32], [unsigned int]. *)
Definition u32 (x : Z) : Z := wrap 32 x.

(** Conversion to a signed 32-bit [int] (two's complement, as every supported
    compiler does it), and the range of [int] and [long]. *)
Definition int32 (x : Z) : Z := wrap 32 (x + 2 ^ 31) - 2 ^ 31.
Definition is_int32 (x : Z) : Prop := - 2 ^ 31 <= x < 2 ^ 31.
Definition in_int32 (x : Z) : bool := (- 2 ^ 31 <=? x) && (x <? 2 ^ 31).
Definition in_int64 (x : Z) : bool := (- 2 ^ 63 <=? x) && (x <? 2 ^ 63).

(** Range predicates of the machine types. *)
Definition is_u64 (x : Z) : Prop := 0 <= x < 2 ^ 64.
Definition is_u32 (x : Z) : Prop := 0 <= x < 2 ^ 32.

(** Unsigned 64-bit arithmetic as the C expressions evaluate it. *)
Notation "x +u y" := (u64 (x + y)) (at level 50, left associativity) : cword_scope.
Notation "x -u y" := (u64 (x - y)) (at level 50, left associativity) : cword_scope.
Notation "x *u y" := (u64 (x * y)) (at level 40, left associativity) : cword_scope.

Lemma u64_small x : is_u64 x -> u64 x = x.
Proof. intros H. apply Z.mod_small, H. Qed.

Lemma u64_range x : is_u64 (u64 x).
Proof. apply Z.mod_pos_bound. lia. Qed.

Lemma int32_small x : is_int32 x -> int32 x = x.
Proof. intros H. unfold int32, wrap, is_int32 in *. rewrite Z.mod_small; lia. Qed.

Lemma u32_small x : is_u32 x -> u32 x = x.
Proof. intros H. apply Z.mod_small, H. Qed.

Lemma u32_range x : is_u32 (u32 x).
Proof. apply Z.mod_pos_bound. lia. Qed.

(** Rounding up to a multiple, over the integers: the value every
    "ceiling" expression of the program is compared with. *)
Definition ceil_div (a b : Z) : Z := (a + b - 1) / b.

Lemma ceil_div_0 b : 0 < b -> ceil_div 0 b = 0.
Proof. intros. unfold ceil_div. rewrite Z.div_small; lia. Qed.

Lemma ceil_div_le a b c : 0 < b -> a <= c -> ceil_div a b <= ceil_div c b.
Proof. intros. unfold ceil_div. apply Z.div_le_mono; lia. Qed.

Lemma ceil_div_nonneg a b : 0 < b -> 0 <= a -> 0 <= ceil_div a b.
Proof. intros. unfold ceil_div. apply Z.div_pos; lia. Qed.

(** [ceil_div a b] blocks of [b] cover [a] and one block fewer does not. *)
Lemma ceil_div_spec a b :
  0 < b -> a <= ceil_div a b * b < a + b.
Proof.
  intros. unfold ceil_div.
  pose proof (Z.div_mod (a + b - 1) b ltac:(lia)).
  pose proof (Z.mod_pos_bound (a + b - 1) b ltac:(lia)). nia.
Qed.

Lemma ceil_div_pos a b : 0 < b -> 0 < a -> 0 < ceil_div a b.
Proof. intros Hb Ha. pose proof (ceil_div_spec a b Hb). nia. Qed.

Lemma ceil_div_mul_ge a b k : 0 < b -> a <= k * b -> ceil_div a b <= k.
Proof. intros Hb Ha. pose proof (ceil_div_spec a b Hb). nia. Qed.

(** * A fault-and-state monad *)

(** Ways a piece of the program stops other than by returning.  [Throw] is a
    C++ exception (the state is kept: a Python caller may catch it), [Exit]
    the [exit(1)] of the [CHECK_CUDA]/[CHECK_VATTN] macros, [AssertFail] a
    failed [assert], [UB] an operation the language gives no meaning to (an
    index out of a vector, a division by zero, a signed overflow), and
    [OutOfFuel] a loop cut off by its fuel, which the termination theorems
    show never happens. *)
Inductive fault :=
| Throw (code : Z)
| Exit
| AssertFail
| UB
| OutOfFuel.

#[export] Instance fault_eq_dec : EqDecision fault.
Proof. solve_decision. Defined.

Inductive res (S A : Type) :=
| Ok (a : A) (s : S)
| Fault (f : fault) (s : S).
Arguments Ok {S A} a s.
Arguments Fault {S A} f s.

Definition M (S A : Type) := S -> res S A.

Section monad.
Context {S : Type}.

Definition mret' {A} (a : A) : M S A := fun s => Ok a s.
Definition mbind' {A B} (m : M S A) (k : A -> M S B) : M S B :=
  fun s => match m s with
           | Ok a s' => k a s'
           | Fault f s' => Fault f s'
           end.
Definition fail {A} (f : fault) : M S A := fun s => Fault f s.
Definition get : M S S := fun s => Ok s s.
Definition gets {A} (f : S -> A) : M S A := fun s => Ok (f s) s.
Definition modify (f : S -> S) : M S unit := fun s => Ok tt (f s).

(** A partial lookup whose failure is the fault [f]. *)
Definition of_option {A} (f : fault) (o : option A) : M S A :=
  match o with Some a => mret' a | None => fail f end.

Definition guard_or (f : fault) (b : bool) : M S unit :=
  if b then mret' tt else fail f.

(** [if (b) m] *)
Definition when (b : bool) (m : M S unit) : M S unit :=
  if b then m else mret' tt.
End monad.

Notation "x <- m ;; k" := (mbind' m (fun x => k))
  (at level 100, m at next level, right associativity, only parsing) : cword_scope.
Notation "m ;;; k" := (mbind' m (fun _ => k))
  (at level 100, right associativity) : cword_scope.

Section loops.
Context {S A : Type}.
Open Scope cword_scope.

(** [for (x : l) body(x);] *)
Fixpoint for_each (l : list A) (body : A -> M S unit) : M S unit :=
  match l with
  | [] => mret' tt
  | x :: l' => body x ;;; for_each l' body
  end.

(** A loop whose body may [break] or [return]: [true] stops it, and the
    loop returns whether it was stopped. *)
Fixpoint for_each_brk (l : list A) (body : A -> M S bool) : M S bool :=
  match l with
  | [] => mret' false
  | x :: l' => stop <- body x ;; if stop then mret' true else for_each_brk l' body
  end.

(** [while (cond) body] with a bound on the number of iterations. *)
Fixpoint while (fuel : nat) (cond : M S bool) (body : M S unit) : M S unit :=
  c <- cond ;;
  if c then
    match fuel with
    | O => fail OutOfFuel
    | Datatypes.S n => body ;;; while n cond body
    end
  else mret' tt.
End loops.

(** [for (int i = lo; i < hi; i++)] and [for (int i = hi - 1; i >= lo; i--)]
    as index lists. *)
Definition up (lo hi : Z) : list Z := seqZ lo (hi - lo).
Definition down (hi lo : Z) : list Z := reverse (seqZ lo (hi - lo)).

(** ** Weakest preconditions *)

Section wp.
Context {S : Type}.
Implicit Types (F : fault -> S -> Prop).

(** [wp m Q F s]: run from [s], [m] returns with [Q] or faults with [F]. *)
Definition wp {A} (m : M S A) (Q : A -> S -> Prop) F (s : S) : Prop :=
  match m s with
  | Ok a s' => Q a s'
  | Fault f s' => F f s'
  end.

Lemma wp_ret {A} (a : A) Q F s : Q a s -> wp (mret' a) Q F s.
Proof. done. Qed.
Lemma wp_fail {A} f (Q : A -> S -> Prop) F s : F f s -> wp (fail f) Q F s.
Proof. done. Qed.
Lemma wp_bind {A B} (m : M S A) (k : A -> M S B) Q F s :
  wp m (fun a s' => wp (k a) Q F s') F s -> wp (mbind' m k) Q F s.
Proof. unfold wp, mbind'. destruct (m s); done. Qed.
Lemma wp_get Q F s : Q s s -> wp get Q F s.
Proof. done. Qed.
Lemma wp_gets {A} (f : S -> A) Q F s : Q (f s) s -> wp (gets f) Q F s.
Proof. done. Qed.
Lemma wp_modify f Q F s : Q tt (f s) -> wp (modify f) Q F s.
Proof. done. Qed.
Lemma wp_of_option {A} f (o : option A) a Q F s :
  o = Some a -> Q a s -> wp (of_option f o) Q F s.
Proof. intros -> H. exact H. Qed.
Lemma wp_guard f b Q F s :
  b = true -> Q tt s -> wp (guard_or f b) Q F s.
Proof. intros -> H. exact H. Qed.
Lemma wp_mono {A} (m : M S A) (Q Q' : A -> S -> Prop) F F' s :
  wp m Q F s -> (forall a s', Q a s' -> Q' a s') ->
  (forall f s', F f s' -> F' f s') -> wp m Q' F' s.
Proof. unfold wp. destruct (m s); eauto. Qed.
Lemma wp_if {A} (b : bool) (m n : M S A) Q F s :
  (b = true -> wp m Q F s) -> (b = false -> wp n Q F s) ->
  wp (if b then m else n) Q F s.
Proof. destruct b; eauto. Qed.
Lemma wp_when (b : bool) (m : M S unit) Q F s :
  (b = true -> wp m Q F s) -> (b = false -> Q tt s) -> wp (when b m) Q F s.
Proof. destruct b; unfold when; intros; [eauto | apply wp_ret; eauto]. Qed.

(** The loop invariant is indexed by the elements already processed. *)
Lemma wp_for_each {A} (I : list A -> S -> Prop) (l : list A) body Q F s :
  I [] s ->
  (forall pre x suf s', l = pre ++ x :: suf -> I pre s' ->
     wp (body x) (fun _ s'' => I (pre ++ [x]) s'') F s') ->
  (forall s', I l s' -> Q tt s') ->
  wp (for_each l body) Q F s.
Proof.
  intros H0 Hstep HQ.
  cut (forall suf pre s', l = pre ++ suf -> I pre s' ->
         wp (for_each suf body) (fun _ s'' => I l s'') F s').
  { intros Hc. eapply wp_mono; [apply (Hc l [] s); done | | done].
    intros [] s' ?. eauto. }
  intros suf. induction suf as [|x suf IH]; intros pre s' -> HI; simpl.
  - rewrite app_nil_r. exact HI.
  - apply wp_bind. eapply wp_mono; [eapply Hstep; eauto | | done].
    intros [] s'' HI'. apply (IH (pre ++ [x])); [|done].
    by rewrite <- app_assoc.
Qed.

Lemma wp_for_each_brk {A} (I : list A -> S -> Prop) (l : list A)
    (body : A -> M S bool) (Q : bool -> S -> Prop) F s :
  I [] s ->
  (forall pre x suf s', l = pre ++ x :: suf -> I pre s' ->
     wp (body x) (fun b s'' => if b then Q true s'' else I (pre ++ [x]) s'') F s') ->
  (forall s', I l s' -> Q false s') ->
  wp (for_each_brk l body) Q F s.
Proof.
  intros H0 Hstep HQ.
  cut (forall suf pre s', l = pre ++ suf -> I pre s' ->
         wp (for_each_brk suf body) Q F s').
  { intros Hc. apply (Hc l [] s); done. }
  intros suf. induction suf as [|x suf IH]; intros pre s' -> HI; simpl.
  - rewrite app_nil_r in HQ. apply HQ, HI.
  - apply wp_bind. eapply wp_mono; [eapply Hstep; eauto | | done].
    intros [] s'' HI'; [exact HI'|]. apply (IH (pre ++ [x])); [|done].
    by rewrite <- app_assoc.
Qed.

(** A simpler form for invariants that do not mention the position. *)
Lemma wp_for_each_inv {A} (I : S -> Prop) (l : list A) body Q F s :
  I s ->
  (forall x s', x ∈ l -> I s' -> wp (body x) (fun _ s'' => I s'') F s') ->
  (forall s', I s' -> Q tt s') ->
  wp (for_each l body) Q F s.
Proof.
  intros H0 Hs HQ. apply (wp_for_each (fun _ => I)); [done | | done].
  intros pre x suf s' -> HI. apply Hs; [|done].
  apply elem_of_app. right. apply elem_of_cons. by left.
Qed.

Lemma wp_for_each_brk_inv {A} (I : S -> Prop) (l : list A) body (Q : bool -> S -> Prop) F s :
  I s ->
  (forall x s', x ∈ l -> I s' -> wp (body x) (fun _ s'' => I s'') F s') ->
  (forall b s', I s' -> Q b s') ->
  wp (for_each_brk l body) Q F s.
Proof.
  intros H0 Hs HQ. apply (wp_for_each_brk (fun _ => I)); [done | | eauto].
  intros pre x suf s' -> HI. eapply wp_mono; [apply Hs | |done].
  - apply elem_of_app. right. apply elem_of_cons. by left.
  - done.
  - intros [] s'' ?; eauto.
Qed.

(** Total correctness of a loop: a measure that the body decreases and that
    the fuel bounds rules out [OutOfFuel]. *)
Lemma wp_while (I : S -> Prop) (mu : S -> Z) fuel (cond : M S bool) body Q F s :
  I s -> mu s <= Z.of_nat fuel ->
  (forall s', I s' -> wp cond (fun b s'' => s'' = s' /\
      if b then 0 < mu s' /\
                wp body (fun _ s2 => I s2 /\ mu s2 <= mu s' - 1) F s'
      else Q tt s') F s') ->
  wp (while fuel cond body) Q F s.
Proof.
  intros HI Hmu Hstep. revert s HI Hmu.
  induction fuel as [|fuel IH]; intros s HI Hmu; simpl;
    apply wp_bind; (eapply wp_mono; [by apply Hstep | | done]);
    intros [] s'' [-> H]; try by apply wp_ret.
  - destruct H. lia.
  - destruct H as [H1 H2]. apply wp_bind.
    eapply wp_mono; [apply H2 | | done]. intros [] s2 [HI2 Hm].
    apply IH; [done|lia].
Qed.
End wp.

(** Turns a boolean comparison in the context into the order it decides. *)
Ltac zify_bool :=
  repeat match goal with
  | H : (_ <=? _) = true |- _ => apply Z.leb_le in H
  | H : (_ <=? _) = false |- _ => apply Z.leb_gt in H
  | H : (_ <? _) = true |- _ => apply Z.ltb_lt in H
  | H : (_ <? _) = false |- _ => apply Z.ltb_ge in H
  | H : (_ =? _) = true |- _ => apply Z.eqb_eq in H
  | H : (_ =? _) = false |- _ => apply Z.eqb_neq in H
  | H : negb _ = true |- _ => apply negb_true_iff in H
  | H : negb _ = false |- _ => apply negb_false_iff in H
  | H : (_ && _)%bool = true |- _ => apply andb_true_iff in H as [? ?]
  | H : (_ || _)%bool = false |- _ => apply orb_false_iff in H as [? ?]
  end.

(** One structural step of a [wp] goal. *)
Ltac wp_step :=
  lazymatch goal with
  | |- wp (mbind' _ _) _ _ _ => apply wp_bind
  | |- wp (mret' _) _ _ _ => apply wp_ret
  | |- wp get _ _ _ => apply wp_get
  | |- wp (gets _) _ _ _ => apply wp_gets
  | |- wp (modify _) _ _ _ => apply wp_modify
  | |- wp (fail _) _ _ _ => apply wp_fail
  | |- wp (when _ _) _ _ _ => apply wp_when; intros
  end; cbn beta.
Ltac wp_steps := repeat wp_step.

(** * Lists indexed by machine integers *)

Section zlist.
Context {A : Type}.

(** [l[i]]; [None] is an index outside the vector. *)
Definition nthZ (l : list A) (i : Z) : option A :=
  if 0 <=? i then l !! Z.to_nat i else None.

(** [l[i] = x], for an index of the vector. *)
Definition setZ (l : list A) (i : Z) (x : A) : list A :=
  if 0 <=? i then <[Z.to_nat i := x]> l else l.

Lemma nthZ_lt l i x : nthZ l i = Some x -> 0 <= i < Z.of_nat (length l).
Proof.
  unfold nthZ. destruct (Z.leb_spec 0 i); [|done].
  intros H1%lookup_lt_Some. lia.
Qed.
Lemma nthZ_is_Some l i : 0 <= i < Z.of_nat (length l) -> exists x, nthZ l i = Some x.
Proof.
  intros H. unfold nthZ. rewrite (proj2 (Z.leb_le 0 i)) by lia.
  apply lookup_lt_is_Some. lia.
Qed.
Lemma nthZ_setZ_eq l i x :
  0 <= i < Z.of_nat (length l) -> nthZ (setZ l i x) i = Some x.
Proof.
  intros H. unfold nthZ, setZ. rewrite (proj2 (Z.leb_le 0 i)) by lia.
  apply list_lookup_insert_eq. lia.
Qed.
Lemma nthZ_setZ_ne l i j x : i <> j -> nthZ (setZ l i x) j = nthZ l j.
Proof.
  intros H. unfold nthZ, setZ.
  destruct (Z.leb_spec 0 i); [|done]. destruct (Z.leb_spec 0 j); [|done].
  apply list_lookup_insert_ne. lia.
Qed.
Lemma length_setZ l i x : length (setZ l i x) = length l.
Proof. unfold setZ. destruct (0 <=? i); [apply length_insert|done]. Qed.
Lemma setZ_same l i x : nthZ l i = Some x -> setZ l i x = l.
Proof. unfold nthZ, setZ. destruct (0 <=? i); [apply list_insert_id|done]. Qed.
Lemma nthZ_elem l i x : nthZ l i = Some x -> x ∈ l.
Proof.
  unfold nthZ. destruct (0 <=? i); [|done].
  intros. apply list_elem_of_lookup. eauto.
Qed.
End zlist.

Lemma elem_of_up x lo hi : x ∈ up lo hi <-> lo <= x < hi.
Proof. unfold up. rewrite elem_of_seqZ. lia. Qed.

Lemma elem_of_down x lo hi : x ∈ down hi lo <-> lo <= x < hi.
Proof. unfold down. rewrite elem_of_reverse, elem_of_seqZ. lia. Qed.

(** Position bookkeeping inside an upward loop. *)
Lemma up_split lo hi pre x suf :
  up lo hi = pre ++ x :: suf ->
  lo <= x < hi /\ pre = up lo x /\ suf = up (x + 1) hi.
Proof.
  unfold up. intros H.
  assert (Hx : x = lo + Z.of_nat (length pre) /\ lo <= x < hi).
  { assert (Hl : seqZ lo (hi - lo) !! length pre = Some x).
    { rewrite H, lookup_app_r by done. by rewrite Nat.sub_diag. }
    apply lookup_seqZ in Hl. lia. }
  destruct Hx as [Hx Hr]. split; [done|].
  assert (Hs : seqZ lo (hi - lo) = seqZ lo (x - lo) ++ x :: seqZ (x + 1) (hi - (x + 1))).
  { replace (hi - lo) with ((x - lo) + (hi - x)) by lia.
    rewrite seqZ_app by lia. f_equal.
    rewrite (seqZ_cons (lo + (x - lo)) (hi - x)) by lia.
    f_equal; [lia|]. f_equal; lia. }
  rewrite Hs in H. apply app_inj_1 in H as [-> H]; [by injection H as ->|].
  rewrite length_seqZ. lia.
Qed.

Lemma up_snoc lo x : lo <= x -> up lo x ++ [x] = up lo (x + 1).
Proof.
  intros. unfold up. replace (x + 1 - lo) with ((x - lo) + 1) by lia.
  rewrite seqZ_app by lia. f_equal.
  rewrite (seqZ_cons _ 1), seqZ_nil by lia. f_equal. lia.
Qed.

(** A loop over [up lo hi] with an invariant indexed by the counter. *)
Lemma wp_for_up {S} (I : Z -> S -> Prop) lo hi (body : Z -> M S unit) Q F s :
  lo <= hi -> I lo s ->
  (forall i s', lo <= i < hi -> I i s' -> wp (body i) (fun _ s'' => I (i + 1) s'') F s') ->
  (forall s', I hi s' -> Q tt s') ->
  wp (for_each (up lo hi) body) Q F s.
Proof.
  intros Hle H0 Hstep HQ.
  apply (wp_for_each (fun pre => I (lo + Z.of_nat (length pre)))).
  - simpl. by rewrite Z.add_0_r.
  - intros pre x suf s' Heq HI. apply up_split in Heq as (Hr & Hp & Hs); subst pre.
    unfold up in *. rewrite length_seqZ in HI.
    replace (lo + Z.of_nat (Z.to_nat (x - lo))) with x in HI by lia.
    eapply wp_mono; [by apply Hstep| |done]. intros [] s2 H2.
    rewrite length_app, length_seqZ. simpl.
    by replace (lo + Z.of_nat (Z.to_nat (x - lo) + 1)) with (x + 1) by lia.
  - intros s' H. apply HQ. unfold up in H. rewrite length_seqZ in H.
    by replace (lo + Z.of_nat (Z.to_nat (hi - lo))) with hi in H by lia.
Qed.

Create HintDb vattn.
Create Rewrite HintDb vattn.
#[export] Hint Resolve u64_range u32_range : vattn.
#[export] Hint Rewrite u64_small u32_small using (unfold is_u64, is_u32; lia) : vattn.
#[export] Hint Rewrite @length_setZ : vattn.
