(* ===== verification/GpuApi.v ===== *)
(** The CUDA driver and the ioctl entry of the kernel module, as the user-space
    allocator sees them.

    These calls are not part of the repository (the CUDA driver) or are
    reached through the kernel's system-call layer (ioctl), so they are the
    fields of the class [gpu_api], an argument of every definition that uses
    them.  [GpuLaws] states the documented behaviour the allocator relies on:
    what a successful call does to the address space, and when the mapping
    calls succeed.  [toy_gpu] is a concrete instance, which shows that the laws
    can be met and on which the definitions evaluate. *)

From S2P Require Import Prelude.
Local Open Scope Z_scope.

(** The four requests of vattention/uvmInternal.h, one constructor per
    parameter struct. *)
Inductive ioctl_req :=
| GetMemPage (size : Z) (uuid : list Z)
| MemMap (base_address page : Z) (uuid : list Z) (size : Z)
| ClearAddress (base_address size : Z) (uuid : list Z)
| FreeMemPage (page size : Z) (uuid : list Z).

(** What comes back: the return value of the system call, and the two fields
    the kernel writes into the request ([status] and, for [GetMemPage],
    [page]). *)
Record ioctl_reply := IoctlReply {
  io_ret : Z;
  io_status : Z;
  io_page : Z;
}.

Class gpu_api := {
  gstate : Type;
  (** CUresult-returning calls; 0 is CUDA_SUCCESS. *)
  cuMemCreate : gstate -> Z -> Z * Z * gstate;
  cuMemRelease : gstate -> Z -> Z * gstate;
  cuMemMap : gstate -> Z -> Z -> Z -> Z -> Z -> Z * gstate;
  cuMemSetAccess : gstate -> Z -> Z -> Z * gstate;
  cuMemUnmap : gstate -> Z -> Z -> Z * gstate;
  cuMemAddressReserve : gstate -> Z -> Z -> Z * Z * gstate;
  cuMemAddressFree : gstate -> Z -> Z -> Z * gstate;
  cuMemGetAllocationGranularity : gstate -> Z * Z * gstate;
  cuInit : gstate -> Z * gstate;
  cuCtxGetCurrent : gstate -> Z * Z * gstate;
  cudaMallocManaged : gstate -> Z -> Z * Z * gstate;
  cudaFree : gstate -> Z -> gstate;
  (** UUID bytes of a device, from cudaGetDeviceProperties. *)
  device_uuid : gstate -> Z -> list Z;
  (** Entries of /proc/self/fd: whether the entry is a symbolic link, whether
      its real path exists and is /dev/nvidia-uvm, and its number. *)
  proc_self_fd : gstate -> option (list (bool * option bool * Z));
  ioctl : gstate -> Z -> ioctl_req -> ioctl_reply * gstate;
}.

Definition CUDA_SUCCESS : Z := 0.

(** The two functions of PyTorch that decide the size of a tensor: the bytes
    of an element of a scalar type, and the bytes of a contiguous tensor. *)
Class torch_api := {
  itemsize : Z -> Z;
  computeStorageNbytesContiguous : list Z -> Z -> Z;
}.

Class TorchLaws (t : torch_api) := {
  storage_nbytes_law (shape : list Z) (n : Z) :
    Forall (fun d => 0 <= d) shape -> 0 <= n ->
    fold_right Z.mul n shape < 2 ^ 64 ->
    computeStorageNbytesContiguous shape n = fold_right Z.mul n shape;
}.

(** What the laws talk about: which page backs which address, which address
    ranges are reserved, and which physical pages exist. *)
Record gview := GView {
  va_map : gmap Z Z;
  reserved : list (Z * Z);
  live : gset Z;
}.

Definition view_map (p h : Z) (v : gview) : gview :=
  GView (<[p := h]> (va_map v)) (reserved v) (live v).
Definition view_unmap (p : Z) (v : gview) : gview :=
  GView (delete p (va_map v)) (reserved v) (live v).

(** [p, p + n) lies in one reservation. *)
Definition in_reservation (v : gview) (p n : Z) : Prop :=
  exists b sz, (b, sz) ∈ reserved v /\ b <= p /\ p + n <= b + sz.

(** Nothing is mapped on [p, p + n). *)
Definition range_free (v : gview) (p n : Z) : Prop :=
  forall q, is_Some (va_map v !! q) -> q + n <= p \/ p + n <= q.

(** Documented behaviour of the mapping calls, for mappings of the one
    granularity [gran] the allocator uses: valid calls succeed, given that the
    driver and the kernel module have the memory for their own page tables. *)
Class GpuLaws (api : gpu_api) (gran : Z) := {
  view : gstate -> gview;
  cuMemMap_law g p h :
    p mod gran = 0 -> in_reservation (view g) p gran -> range_free (view g) p gran -> h ∈ live (view g) ->
    exists g', cuMemMap g p gran 0 h 0 = (CUDA_SUCCESS, g') /\
               view g' = view_map p h (view g);
  cuMemSetAccess_law g p :
    is_Some (va_map (view g) !! p) ->
    exists g', cuMemSetAccess g p gran = (CUDA_SUCCESS, g') /\ view g' = view g;
  cuMemUnmap_law g p :
    is_Some (va_map (view g) !! p) ->
    exists g', cuMemUnmap g p gran = (CUDA_SUCCESS, g') /\
               view g' = view_unmap p (view g);
  (** On an open descriptor.  The kernel module maps over an existing mapping (it
      invalidates the old translation), so no freshness is needed. *)
  ioctl_map_law g fd p h uuid :
    0 <= fd -> in_reservation (view g) p gran -> h ∈ live (view g) ->
    exists g' st pg, (ioctl g fd (MemMap p h uuid gran) = (IoctlReply 0 st pg, g')) /\
                  view g' = view_map p h (view g);
  (** A successful creation returns a page that did not exist. *)
  cuMemCreate_law g r h g' :
    cuMemCreate g gran = (r, h, g') -> r = CUDA_SUCCESS ->
    (h ∉ live (view g)) /\
    view g' = GView (va_map (view g)) (reserved (view g)) ({[h]} ∪ live (view g));
}.

(** ** A concrete GPU *)

Module Toy.
Definition fresh_page (v : gview) : Z :=
  1 + set_fold Z.max 0 (live v).
(** The first multiple of [gran] after all reservations. *)
Definition fresh_base (gran : Z) (v : gview) : Z :=
  let n := fold_right (fun r acc => Z.max (fst r + snd r) acc) 4294967296 (reserved v) in
  (n + gran - 1) / gran * gran.

Definition toy_ioctl (v : gview) (fd : Z) (r : ioctl_req) : ioctl_reply * gview :=
  match r with
  | GetMemPage size _ =>
      let h := fresh_page v in
      (IoctlReply 0 0 h, GView (va_map v) (reserved v) ({[h]} ∪ live v))
  | MemMap a pg _ _ => (IoctlReply 0 0 0, view_map a pg v)
  | ClearAddress a n _ =>
      (IoctlReply 0 0 0,
       GView (filter (fun kv => ~ (a <= kv.1 < a + n)) (va_map v)) (reserved v) (live v))
  | FreeMemPage pg _ _ => (IoctlReply 0 0 0, GView (va_map v) (reserved v) (live v ∖ {[pg]}))
  end.

Definition toy_api (gran : Z) : gpu_api := {|
  gstate := gview;
  cuMemCreate := fun v _ =>
    let h := fresh_page v in
    (0, h, GView (va_map v) (reserved v) ({[h]} ∪ live v));
  cuMemRelease := fun v h => (0, GView (va_map v) (reserved v) (live v ∖ {[h]}));
  cuMemMap := fun v p _ _ h _ => (0, view_map p h v);
  cuMemSetAccess := fun v _ _ => (0, v);
  cuMemUnmap := fun v p n =>
    (0, if n =? gran then view_unmap p v
        else GView (filter (fun kv => ~ (p <= kv.1 < p + n)) (va_map v))
                   (reserved v) (live v));
  cuMemAddressReserve := fun v n _ =>
    let b := fresh_base gran v in
    if b + n <? 2 ^ 64 then (0, b, GView (va_map v) ((b, n) :: reserved v) (live v)) else (2, 0, v);
  cuMemAddressFree := fun v _ _ => (0, v);
  cuMemGetAllocationGranularity := fun v => (0, gran, v);
  cuInit := fun v => (0, v);
  cuCtxGetCurrent := fun v => (0, 1, v);
  cudaMallocManaged := fun v n =>
    let b := fresh_base gran v in
    if b + n <? 2 ^ 64 then (0, b, GView (va_map v) ((b, n) :: reserved v) (live v)) else (2, 0, v);
  cudaFree := fun v _ => v;
  device_uuid := fun _ _ => [];
  proc_self_fd := fun _ => Some [(true, Some true, 7)];
  ioctl := toy_ioctl;
|}.

(** Sizes by multiplication; two-byte elements. *)
Definition toy_torch : torch_api := {|
  itemsize := fun _ => 2;
  computeStorageNbytesContiguous := fun shape n => fold_right Z.mul n shape;
|}.
#[export] Instance toy_torch_laws : TorchLaws toy_torch.
Proof. constructor. done. Qed.

Definition toy_init : gview := GView ∅ [] ∅.

Lemma live_le_max (X : gset Z) h : h ∈ X -> h <= set_fold Z.max 0 X.
Proof.
  apply (set_fold_ind_L (fun r Y => h ∈ Y -> h <= r)); [set_solver|].
  intros x Y r _ IH [->%elem_of_singleton|H%IH]%elem_of_union; lia.
Qed.

Lemma fresh_page_fresh v : fresh_page v ∉ live v.
Proof. intros H%live_le_max. unfold fresh_page in H. lia. Qed.

#[export] Program Instance toy_laws gran : GpuLaws (toy_api gran) gran :=
  {| view := fun g => g |}.
Next Obligation. intros. eexists. split; reflexivity. Qed.
Next Obligation. intros. eexists. split; reflexivity. Qed.
Next Obligation.
  intros. eexists. split; [reflexivity|]. simpl. by rewrite Z.eqb_refl.
Qed.
Next Obligation. intros. do 3 eexists. split; reflexivity. Qed.
Next Obligation.
  intros gran g r h g' [= <- <- <-] _. split; [apply fresh_page_fresh|done].
Qed.
End Toy.
