(* ===== verification/VattnState.v ===== *)
(** Global state of the user-space allocator (vattention/utils.h): the
    configuration globals, the page pools and page maps, the per-request
    counters, and the arithmetic helpers over them. *)

From S2P Require Import Prelude GpuApi.
Local Open Scope Z_scope.
Local Open Scope cword_scope.

Definition KB : Z := 1024.
Definition MB : Z := 1024 * KB.

(** A virtual tensor: where its storage begins, the bytes of the storage that
    was reserved for it and the bytes of its logical shape. *)
Record tensor := Tensor {
  data_ptr : Z;
  storage_nbytes : Z;
  nbytes : Z;
}.

(** Configuration: the globals that only initialisation and cleanup write. *)
Record config := Config {
  num_layers : Z;
  num_kv_heads : Z;
  head_size : Z;
  bytes_per_elem : Z;
  device : Z;
  scalar_type : Z;
  component_spec_enabled : bool;
  page_buffer_token_bytes : Z;
  cached_token_bytes_local : Z;
  max_batch_size : Z;
  max_context_length : Z;
  virt_buff_size : Z;
  virt_buff_size_per_req : Z;
  virt_buff_size_per_token : Z;
  virt_buff_num_kv_tokens : Z;
  tokens_per_page : Z;
  max_pages_per_req : Z;
  page_size : Z;
  cache_component_token_dims : list Z;
  megacache_enabled : bool;
  megacache_enabled_global : bool;
  is_configured : bool;
}.

(** Keys of the page maps: request, byte offset in the tensor, layer. *)
Abbreviation page_key := (Z * Z * Z)%type.
Abbreviation page_map := (gmap (Z * Z * Z) (Z * Z)).

Section vattn_state.
Context {api : gpu_api}.

Record vstate := VState {
  conf : config;
  cuda_pages : list Z;
  uvm_pages : list Z;
  cuda_pagemap : page_map;
  uvm_pagemap : page_map;
  k_tensors : list tensor;
  v_tensors : list tensor;
  mapped_pages : list Z;
  curr_seq_lengths : list Z;
  deferred_reclaim : bool;
  verbose : bool;
  mem_manager_running : bool;
  nvidia_uvm_fd : Z;
  cached_uuid : list Z;
  uvm_page_size : Z;
  gpu : gstate;
}.

Definition set_conf c (s : vstate) : vstate :=
  VState c (cuda_pages s) (uvm_pages s) (cuda_pagemap s) (uvm_pagemap s)
    (k_tensors s) (v_tensors s) (mapped_pages s) (curr_seq_lengths s)
    (deferred_reclaim s) (verbose s) (mem_manager_running s)
    (nvidia_uvm_fd s) (cached_uuid s) (uvm_page_size s) (gpu s).
Definition set_cuda_pages x (s : vstate) : vstate :=
  VState (conf s) x (uvm_pages s) (cuda_pagemap s) (uvm_pagemap s)
    (k_tensors s) (v_tensors s) (mapped_pages s) (curr_seq_lengths s)
    (deferred_reclaim s) (verbose s) (mem_manager_running s)
    (nvidia_uvm_fd s) (cached_uuid s) (uvm_page_size s) (gpu s).
Definition set_uvm_pages x (s : vstate) : vstate :=
  VState (conf s) (cuda_pages s) x (cuda_pagemap s) (uvm_pagemap s)
    (k_tensors s) (v_tensors s) (mapped_pages s) (curr_seq_lengths s)
    (deferred_reclaim s) (verbose s) (mem_manager_running s)
    (nvidia_uvm_fd s) (cached_uuid s) (uvm_page_size s) (gpu s).
Definition set_cuda_pagemap x (s : vstate) : vstate :=
  VState (conf s) (cuda_pages s) (uvm_pages s) x (uvm_pagemap s)
    (k_tensors s) (v_tensors s) (mapped_pages s) (curr_seq_lengths s)
    (deferred_reclaim s) (verbose s) (mem_manager_running s)
    (nvidia_uvm_fd s) (cached_uuid s) (uvm_page_size s) (gpu s).
Definition set_uvm_pagemap x (s : vstate) : vstate :=
  VState (conf s) (cuda_pages s) (uvm_pages s) (cuda_pagemap s) x
    (k_tensors s) (v_tensors s) (mapped_pages s) (curr_seq_lengths s)
    (deferred_reclaim s) (verbose s) (mem_manager_running s)
    (nvidia_uvm_fd s) (cached_uuid s) (uvm_page_size s) (gpu s).
Definition set_tensors k v (s : vstate) : vstate :=
  VState (conf s) (cuda_pages s) (uvm_pages s) (cuda_pagemap s) (uvm_pagemap s)
    k v (mapped_pages s) (curr_seq_lengths s)
    (deferred_reclaim s) (verbose s) (mem_manager_running s)
    (nvidia_uvm_fd s) (cached_uuid s) (uvm_page_size s) (gpu s).
Definition set_mapped_pages x (s : vstate) : vstate :=
  VState (conf s) (cuda_pages s) (uvm_pages s) (cuda_pagemap s) (uvm_pagemap s)
    (k_tensors s) (v_tensors s) x (curr_seq_lengths s)
    (deferred_reclaim s) (verbose s) (mem_manager_running s)
    (nvidia_uvm_fd s) (cached_uuid s) (uvm_page_size s) (gpu s).
Definition set_seq_lengths x (s : vstate) : vstate :=
  VState (conf s) (cuda_pages s) (uvm_pages s) (cuda_pagemap s) (uvm_pagemap s)
    (k_tensors s) (v_tensors s) (mapped_pages s) x
    (deferred_reclaim s) (verbose s) (mem_manager_running s)
    (nvidia_uvm_fd s) (cached_uuid s) (uvm_page_size s) (gpu s).
Definition set_deferred_reclaim x (s : vstate) : vstate :=
  VState (conf s) (cuda_pages s) (uvm_pages s) (cuda_pagemap s) (uvm_pagemap s)
    (k_tensors s) (v_tensors s) (mapped_pages s) (curr_seq_lengths s)
    x (verbose s) (mem_manager_running s)
    (nvidia_uvm_fd s) (cached_uuid s) (uvm_page_size s) (gpu s).
Definition set_verbose x (s : vstate) : vstate :=
  VState (conf s) (cuda_pages s) (uvm_pages s) (cuda_pagemap s) (uvm_pagemap s)
    (k_tensors s) (v_tensors s) (mapped_pages s) (curr_seq_lengths s)
    (deferred_reclaim s) x (mem_manager_running s)
    (nvidia_uvm_fd s) (cached_uuid s) (uvm_page_size s) (gpu s).
Definition set_running x (s : vstate) : vstate :=
  VState (conf s) (cuda_pages s) (uvm_pages s) (cuda_pagemap s) (uvm_pagemap s)
    (k_tensors s) (v_tensors s) (mapped_pages s) (curr_seq_lengths s)
    (deferred_reclaim s) (verbose s) x
    (nvidia_uvm_fd s) (cached_uuid s) (uvm_page_size s) (gpu s).
Definition set_uvm_fd fd uuid psz (s : vstate) : vstate :=
  VState (conf s) (cuda_pages s) (uvm_pages s) (cuda_pagemap s) (uvm_pagemap s)
    (k_tensors s) (v_tensors s) (mapped_pages s) (curr_seq_lengths s)
    (deferred_reclaim s) (verbose s) (mem_manager_running s)
    fd uuid psz (gpu s).
Definition set_gpu g (s : vstate) : vstate :=
  VState (conf s) (cuda_pages s) (uvm_pages s) (cuda_pagemap s) (uvm_pagemap s)
    (k_tensors s) (v_tensors s) (mapped_pages s) (curr_seq_lengths s)
    (deferred_reclaim s) (verbose s) (mem_manager_running s)
    (nvidia_uvm_fd s) (cached_uuid s) (uvm_page_size s) g.

Definition VM := M vstate.
Implicit Types (s : vstate).

(** Codes of the exceptions the allocator throws. *)
Definition EXN_OOM : Z := 1.
Definition EXN_POOL_EMPTY : Z := 2.
Definition EXN_UVM_POOL_EMPTY : Z := 3.
Definition EXN_NUM_COMPONENTS : Z := 4.
Definition EXN_VTENSOR : Z := 5.
Definition EXN_DTYPE : Z := 6.
Definition EXN_MANAGED : Z := 7.

(** ** Helpers of utils.h *)

Definition is_uvm_backend (psz : Z) : bool := negb (psz =? 2 * MB).

Definition init_kvcache_batch_metadata : VM unit :=
  modify (fun s =>
    let n := Z.to_nat (max_batch_size (conf s)) in
    set_seq_lengths (replicate n 0) (set_mapped_pages (replicate n 0) s)).

Definition check_kvcache_config s : bool :=
  let c := conf s in
  negb ((num_layers c =? 0) || (max_batch_size c =? 0) ||
        (max_context_length c =? 0) || (page_buffer_token_bytes c =? 0)).

(** A 64-bit unsigned division; a zero divisor is undefined. *)
Definition udiv (a b : Z) : VM Z :=
  guard_or UB (negb (b =? 0)) ;;; mret' (a / b).

Definition tokens_to_pages (num_tokens : Z) : VM Z :=
  tpp <- gets (fun s => tokens_per_page (conf s)) ;;
  udiv (num_tokens +u tpp -u 1) tpp.

Definition pages_to_tokens (num_blocks : Z) : VM Z :=
  gets (fun s => num_blocks *u tokens_per_page (conf s)).

Definition get_req_pages (reqId : Z) : VM Z :=
  s <- get ;; of_option UB (nthZ (mapped_pages s) reqId).

Definition get_req_mapped_tokens (reqId : Z) : VM Z :=
  n <- get_req_pages reqId ;; pages_to_tokens n.

Definition inc_req_page_count (reqId : Z) : VM unit :=
  n <- get_req_pages reqId ;;
  modify (fun s => set_mapped_pages (setZ (mapped_pages s) reqId (n +u 1)) s).

Definition dec_req_page_count (reqId : Z) : VM unit :=
  n <- get_req_pages reqId ;;
  modify (fun s => set_mapped_pages (setZ (mapped_pages s) reqId (n -u 1)) s).

Definition get_req_begin_offset_virt (reqId : Z) : VM Z :=
  gets (fun s => reqId *u virt_buff_size_per_req (conf s)).

Definition get_req_seq_length (reqId : Z) : VM Z :=
  s <- get ;; of_option UB (nthZ (curr_seq_lengths s) reqId).

Definition is_active_req (reqId : Z) : VM bool :=
  n <- get_req_seq_length reqId ;; mret' (negb (n =? 0)).

Definition set_req_seq_length (reqId seq_len : Z) : VM unit :=
  get_req_seq_length reqId ;;;
  modify (fun s => set_seq_lengths (setZ (curr_seq_lengths s) reqId seq_len) s).

Definition set_curr_seq_lengths (seq_lens : list Z) : VM unit :=
  modify (set_seq_lengths seq_lens).

Definition set_seq_lengths_for_next_step (seq_lens : list Z) : VM unit :=
  s <- get ;;
  for_each (up 0 (max_batch_size (conf s))) (fun reqId =>
    a <- is_active_req reqId ;;
    if negb a then mret' tt else
    n <- of_option UB (nthZ seq_lens reqId) ;;
    set_req_seq_length reqId (n +u 1)).

(** The sum is accumulated in a [u64], each difference wrapping. *)
Fixpoint overcommit_sum (ids : list Z) (acc : Z) : VM Z :=
  match ids with
  | [] => mret' acc
  | reqId :: ids' =>
      n <- get_req_pages reqId ;;
      len <- get_req_seq_length reqId ;;
      need <- tokens_to_pages len ;;
      overcommit_sum ids' (acc +u (n -u need))
  end.

Definition get_num_overcommitted_kvblocks : VM Z :=
  s <- get ;; overcommit_sum (up 0 (max_batch_size (conf s))) 0.

Definition get_req_current_map_offset (reqId : Z) : VM Z :=
  n <- get_req_pages reqId ;;
  psz <- gets (fun s => page_size (conf s)) ;;
  b <- get_req_begin_offset_virt reqId ;;
  mret' (b +u (n *u psz)).

Definition get_req_current_unmap_offset (reqId : Z) : VM Z :=
  n <- get_req_pages reqId ;;
  guard_or AssertFail (0 <? n) ;;;
  psz <- gets (fun s => page_size (conf s)) ;;
  b <- get_req_begin_offset_virt reqId ;;
  mret' (b +u ((n -u 1) *u psz)).

Definition get_num_cache_components s : Z :=
  match cache_component_token_dims (conf s) with
  | [] => 2
  | dims => Z.of_nat (length dims)
  end.

Definition get_pages_per_kvblock s : Z :=
  if megacache_enabled_global (conf s) then get_num_cache_components s
  else get_num_cache_components s *u num_layers (conf s).

Definition kvblocks_to_pages (kvblocks : Z) : VM Z :=
  gets (fun s => kvblocks *u get_pages_per_kvblock s).

Definition pages_to_kvblocks (pages : Z) : VM Z :=
  s <- get ;; udiv pages (get_pages_per_kvblock s).

Definition need_new_page_async (reqId eager_step_count : Z) : VM Z :=
  a <- is_active_req reqId ;;
  if negb a then mret' 0 else
  nr_mapped <- get_req_pages reqId ;;
  s <- get ;;
  if nr_mapped =? max_pages_per_req (conf s) then mret' 0 else
  len <- get_req_seq_length reqId ;;
  nr_required <- tokens_to_pages (len +u eager_step_count) ;;
  mret' (if nr_required <=? nr_mapped then 0 else nr_required -u nr_mapped).

Definition get_num_phys_blocks (free_memory psz : Z) : VM Z :=
  n <- udiv free_memory psz ;;
  s <- get ;;
  guard_or UB (negb (get_pages_per_kvblock s =? 0)) ;;;
  mret' (n -u (n mod get_pages_per_kvblock s)).
End vattn_state.
