(* ===== verification/VattnPages.v ===== *)
(** Physical pages of the user-space allocator: initialisation of a backend,
    reservation of the page pool, and the mapping and unmapping of one pair of
    K and V pages (vattention/cudaInternal.h, uvmInternal.h, mux.h).  A page
    size of 2MB selects the CUDA backend, any other one the UVM backend. *)

From S2P Require Import Prelude GpuApi VattnState.
Local Open Scope Z_scope.
Local Open Scope cword_scope.

Section vattn_pages.
Context {api : gpu_api}.
Implicit Types (s : vstate).

(** ** Checked driver calls *)

(** [CHECK_CUDA(f(...))]: run the call on the GPU, [exit(1)] on an error. *)
Definition CHECK_CUDA (f : gstate -> Z * gstate) : VM unit :=
  s <- get ;;
  let '(r, g) := f (gpu s) in
  modify (set_gpu g) ;;; guard_or Exit (r =? CUDA_SUCCESS).

Definition CHECK_CUDA_OUT (f : gstate -> Z * Z * gstate) : VM Z :=
  s <- get ;;
  let '(r, x, g) := f (gpu s) in
  modify (set_gpu g) ;;; guard_or Exit (r =? CUDA_SUCCESS) ;;; mret' x.

Definition VATTN_OK : Z := 0.
Definition VATTN_ERR_PATH : Z := u64 (-1).
Definition VATTN_IOCTL_FREE_MEM_PAGE_ERR : Z := u64 (-3).
Definition VATTN_IOCTL_MEM_PAGE_ERR : Z := u64 (-4).
Definition VATTN_IOCTL_CLEAR_ADDRESS_ERR : Z := u64 (-5).
Definition VATTN_IOCTL_MEM_MAP_ERR : Z := u64 (-6).

Definition CHECK_VATTN (m : VM Z) : VM unit :=
  r <- m ;; guard_or Exit (r =? VATTN_OK).

Definition do_ioctl (r : ioctl_req) : VM ioctl_reply :=
  s <- get ;;
  let '(rep, g) := ioctl (gpu s) (nvidia_uvm_fd s) r in
  modify (set_gpu g) ;;; mret' rep.

(** ** uvmInternal.h *)

(** The scan of /proc/self/fd: a link whose real path is /dev/nvidia-uvm
    sets the descriptor, and a non-negative descriptor ends the scan. *)
Fixpoint scan_proc_fd (entries : list (bool * option bool * Z)) (fd : Z) : Z :=
  match entries with
  | [] => fd
  | (is_link, realpath, name) :: rest =>
      if is_link then
        match realpath with
        | None => scan_proc_fd rest fd
        | Some is_uvm =>
            let fd' := if is_uvm then name else fd in
            if 0 <=? fd' then fd' else scan_proc_fd rest fd'
        end
      else scan_proc_fd rest fd
  end.

Definition vattn_init (in_device in_page_size : Z) : VM Z :=
  (** dummy managed allocation, freed at once; its result is not checked *)
  modify (fun s => let '(_, p, g) := cudaMallocManaged (gpu s) 4 in
                   set_gpu (cudaFree g p) s) ;;;
  s <- get ;;
  let uuid := device_uuid (gpu s) in_device in
  let fd := match proc_self_fd (gpu s) with
            | Some entries => scan_proc_fd entries (nvidia_uvm_fd s)
            | None => nvidia_uvm_fd s
            end in
  modify (set_uvm_fd fd uuid (uvm_page_size s)) ;;;
  if fd <? 0 then mret' VATTN_ERR_PATH else
  modify (set_uvm_fd fd uuid in_page_size) ;;;
  mret' VATTN_OK.

(** The page written back by the kernel is returned whenever the system
    call itself returned 0; the [status] field is not looked at. *)
Definition vattn_get_mem_page : VM (Z * Z) :=
  s <- get ;;
  rep <- do_ioctl (GetMemPage (uvm_page_size s) (cached_uuid s)) ;;
  if negb (io_ret rep =? 0) then mret' (VATTN_IOCTL_MEM_PAGE_ERR, 0)
  else mret' (VATTN_OK, io_page rep).

Definition vattn_mem_map (address page : Z) : VM Z :=
  s <- get ;;
  rep <- do_ioctl (MemMap address page (cached_uuid s) (uvm_page_size s)) ;;
  if negb (io_ret rep =? 0) then mret' VATTN_IOCTL_MEM_MAP_ERR
  else mret' VATTN_OK.

Definition vattn_free_reserved_address (address size : Z) : VM Z :=
  s <- get ;;
  rep <- do_ioctl (ClearAddress address size (cached_uuid s)) ;;
  if negb (io_ret rep =? 0) then mret' VATTN_IOCTL_CLEAR_ADDRESS_ERR
  else
    modify (fun s => set_gpu (cudaFree (gpu s) address) s) ;;;
    mret' VATTN_OK.

Definition vattn_release_mem_page (page : Z) : VM Z :=
  s <- get ;;
  rep <- do_ioctl (FreeMemPage page (uvm_page_size s) (cached_uuid s)) ;;
  if negb (io_ret rep =? 0) then mret' VATTN_IOCTL_FREE_MEM_PAGE_ERR
  else mret' VATTN_OK.

Definition do_cuda_uvm_init (dev psz : Z) : VM Z :=
  guard_or AssertFail ((psz =? 64 * KB) || (psz =? 128 * KB) || (psz =? 256 * KB)) ;;;
  CHECK_VATTN (vattn_init dev psz) ;;;
  mret' psz.

Definition reserve_uvm_pages (free_memory psz : Z) : VM Z :=
  num_phys_blocks <- get_num_phys_blocks free_memory psz ;;
  while (Z.to_nat num_phys_blocks)
    (gets (fun s => Z.of_nat (length (uvm_pages s)) <? num_phys_blocks))
    (rp <- vattn_get_mem_page ;;
     guard_or Exit (fst rp =? VATTN_OK) ;;;
     modify (fun s => set_uvm_pages (uvm_pages s ++ [snd rp]) s)) ;;;
  gets (fun s => Z.of_nat (length (uvm_pages s))).

Definition map_uvm_pages (reqId layer_idx req_offset kcache_ptr vcache_ptr k_page v_page : Z)
  : VM unit :=
  CHECK_VATTN (vattn_mem_map (kcache_ptr +u req_offset) k_page) ;;;
  CHECK_VATTN (vattn_mem_map (vcache_ptr +u req_offset) v_page) ;;;
  modify (fun s => set_uvm_pagemap
    (<[(reqId, req_offset, layer_idx) := (k_page, v_page)]> (uvm_pagemap s)) s).

Definition do_uvm_kvcache_cleanup : VM unit :=
  s <- get ;;
  for_each (up 0 (Z.of_nat (length (k_tensors s)))) (fun j =>
    k <- of_option UB (nthZ (k_tensors s) j) ;;
    CHECK_VATTN (vattn_free_reserved_address (data_ptr k) (nbytes k)) ;;;
    v <- of_option UB (nthZ (v_tensors s) j) ;;
    CHECK_VATTN (vattn_free_reserved_address (data_ptr v) (nbytes v))) ;;;
  for_each (uvm_pages s) (fun p => CHECK_VATTN (vattn_release_mem_page p)).

(** ** cudaInternal.h *)

Definition do_cuda_default_init (dev psz : Z) : VM Z :=
  CHECK_CUDA cuInit ;;;
  ctx <- CHECK_CUDA_OUT cuCtxGetCurrent ;;
  guard_or Exit (negb (ctx =? 0)) ;;;
  phys_granularity <- CHECK_CUDA_OUT cuMemGetAllocationGranularity ;;
  guard_or AssertFail (phys_granularity =? psz) ;;;
  mret' phys_granularity.

Definition do_cuda_init (dev psz : Z) : VM Z :=
  if is_uvm_backend psz then do_cuda_uvm_init dev psz
  else do_cuda_default_init dev psz.

Definition reserve_cuda_pages (free_memory psz : Z) : VM Z :=
  num_phys_blocks <- get_num_phys_blocks free_memory psz ;;
  while (Z.to_nat num_phys_blocks)
    (gets (fun s => Z.of_nat (length (cuda_pages s)) <? num_phys_blocks))
    (p <- CHECK_CUDA_OUT (fun g => cuMemCreate g psz) ;;
     modify (fun s => set_cuda_pages (cuda_pages s ++ [p]) s)) ;;;
  gets (fun s => Z.of_nat (length (cuda_pages s))).

Definition reserve_gpu_pages (free_memory psz : Z) : VM Z :=
  if is_uvm_backend psz then reserve_uvm_pages free_memory psz
  else reserve_cuda_pages free_memory psz.

Definition map_cuda_pages (reqId layer_idx req_offset kcache_ptr vcache_ptr k_page v_page : Z)
  : VM unit :=
  psz <- gets (fun s => page_size (conf s)) ;;
  CHECK_CUDA (fun g => cuMemMap g (kcache_ptr +u req_offset) psz 0 k_page 0) ;;;
  CHECK_CUDA (fun g => cuMemMap g (vcache_ptr +u req_offset) psz 0 v_page 0) ;;;
  CHECK_CUDA (fun g => cuMemSetAccess g (kcache_ptr +u req_offset) psz) ;;;
  CHECK_CUDA (fun g => cuMemSetAccess g (vcache_ptr +u req_offset) psz) ;;;
  modify (fun s => set_cuda_pagemap
    (<[(reqId, req_offset, layer_idx) := (k_page, v_page)]> (cuda_pagemap s)) s).

Definition do_cuda_kvcache_cleanup : VM unit :=
  s <- get ;;
  for_each (up 0 (Z.of_nat (length (k_tensors s)))) (fun i =>
    k <- of_option UB (nthZ (k_tensors s) i) ;;
    v <- of_option UB (nthZ (v_tensors s) i) ;;
    CHECK_CUDA (fun g => cuMemUnmap g (data_ptr k) (storage_nbytes k)) ;;;
    CHECK_CUDA (fun g => cuMemUnmap g (data_ptr v) (storage_nbytes v)) ;;;
    CHECK_CUDA (fun g => cuMemAddressFree g (data_ptr k) (storage_nbytes k)) ;;;
    CHECK_CUDA (fun g => cuMemAddressFree g (data_ptr v) (storage_nbytes v))) ;;;
  for_each (cuda_pages s) (fun p => CHECK_CUDA (fun g => cuMemRelease g p)).

(** ** mux.h *)

(** [v.back()] and [v.pop_back()] of a vector. *)
Definition pop_back (l : list Z) : option (Z * list Z) :=
  match last l with
  | Some p => Some (p, take (pred (length l)) l)
  | None => None
  end.

Definition pop_cuda_page : VM Z :=
  s <- get ;;
  r <- of_option (Throw EXN_POOL_EMPTY) (pop_back (cuda_pages s)) ;;
  modify (set_cuda_pages (snd r)) ;;; mret' (fst r).

Definition pop_uvm_page : VM Z :=
  s <- get ;;
  r <- of_option (Throw EXN_UVM_POOL_EMPTY) (pop_back (uvm_pages s)) ;;
  modify (set_uvm_pages (snd r)) ;;; mret' (fst r).

Definition get_num_free_pages (psz : Z) s : Z :=
  if is_uvm_backend psz then Z.of_nat (length (uvm_pages s))
  else Z.of_nat (length (cuda_pages s)).

Definition MAP_PAGES (reqId layer_idx req_offset kcache_ptr vcache_ptr psz : Z) : VM unit :=
  if negb (is_uvm_backend psz) then
    k_page <- pop_cuda_page ;;
    v_page <- pop_cuda_page ;;
    map_cuda_pages reqId layer_idx req_offset kcache_ptr vcache_ptr k_page v_page
  else
    k_page <- pop_uvm_page ;;
    v_page <- pop_uvm_page ;;
    map_uvm_pages reqId layer_idx req_offset kcache_ptr vcache_ptr k_page v_page.

(** [pagemap[key]] of a std::map creates a default pair for an absent key;
    the following erase removes it again. *)
Definition pagemap_at (m : page_map) (k : page_key) : Z * Z := default (0, 0) (m !! k).

Definition UNMAP_PAGES (reqId layer_idx req_offset kcache_ptr vcache_ptr psz : Z) : VM unit :=
  let key := (reqId, req_offset, layer_idx) in
  if negb (is_uvm_backend psz) then
    CHECK_CUDA (fun g => cuMemUnmap g (kcache_ptr +u req_offset) psz) ;;;
    CHECK_CUDA (fun g => cuMemUnmap g (vcache_ptr +u req_offset) psz) ;;;
    modify (fun s =>
      let pages := pagemap_at (cuda_pagemap s) key in
      set_cuda_pagemap (delete key (cuda_pagemap s))
        (set_cuda_pages (cuda_pages s ++ [fst pages] ++ [snd pages]) s))
  else
    modify (fun s =>
      let pages := pagemap_at (uvm_pagemap s) key in
      set_uvm_pagemap (delete key (uvm_pagemap s))
        (set_uvm_pages (uvm_pages s ++ [fst pages] ++ [snd pages]) s)).

Definition MAP_COMMON_PAGES (layer_idx kcache_ptr vcache_ptr psz : Z) : VM unit :=
  s <- get ;;
  let reqs := up 0 (max_batch_size (conf s)) in
  if negb (is_uvm_backend psz) then
    k_page <- pop_cuda_page ;;
    v_page <- pop_cuda_page ;;
    for_each reqs (fun reqId =>
      req_offset <- get_req_current_map_offset reqId ;;
      map_cuda_pages reqId layer_idx req_offset kcache_ptr vcache_ptr k_page v_page)
  else
    k_page <- pop_uvm_page ;;
    v_page <- pop_uvm_page ;;
    for_each reqs (fun reqId =>
      req_offset <- get_req_current_map_offset reqId ;;
      map_uvm_pages reqId layer_idx req_offset kcache_ptr vcache_ptr k_page v_page).
End vattn_pages.
