(* ===== verification/VattnInit.v ===== *)
(** Configuration of the allocator and allocation of the virtual tensors
    (vattention/vtensor.h and the init_* members of vattention.cu). *)

From stdpp Require Import strings.
From S2P Require Import Prelude GpuApi VattnState VattnPages.
Local Open Scope Z_scope.
Local Open Scope cword_scope.

Section vattn_init.
Context {api : gpu_api} {torch : torch_api}.
Implicit Types (s : vstate).

(** ** vtensor.h *)

Definition ROUND_UP (x y : Z) : Z := ((x +u y -u 1) / y) *u y.

(** VirtualTensorAllocator::allocate: reserve address space, no memory. *)
Definition vtensor_allocate (alloc_page_size size : Z) : VM Z :=
  guard_or (Throw EXN_VTENSOR) (size <? 1152921504606846976) ;;;
  guard_or (Throw EXN_VTENSOR) (negb (size =? 0)) ;;;
  if negb (is_uvm_backend alloc_page_size) then
    CHECK_CUDA_OUT (fun g => cuMemAddressReserve g size alloc_page_size)
  else
    s <- get ;;
    let '(r, p, g) := cudaMallocManaged (gpu s) size in
    modify (set_gpu g) ;;; guard_or (Throw EXN_MANAGED) (r =? 0) ;;; mret' p.

(** Size of the storage of a virtual tensor, from its shape: every request
    (the first dimension) gets a stride that is a whole number of pages and
    at least [min_request_bytes]. *)
Definition vtensor_size_bytes (shape : list Z) (psz min_request_bytes elem : Z) : VM Z :=
  guard_or (Throw EXN_VTENSOR) (forallb (fun d => 0 <=? d) shape) ;;;
  match shape with
  | [] => fail (Throw EXN_VTENSOR)
  | batch_size :: _ =>
      guard_or (Throw EXN_VTENSOR) (negb (batch_size =? 0)) ;;;
      let logical_size_bytes := computeStorageNbytesContiguous shape elem in
      guard_or (Throw EXN_VTENSOR) (logical_size_bytes mod batch_size =? 0) ;;;
      let per_request_bytes := logical_size_bytes / batch_size in
      let per_request_bytes :=
        if per_request_bytes <? min_request_bytes then min_request_bytes
        else per_request_bytes in
      guard_or UB (negb (psz =? 0)) ;;;
      let per_request_bytes := ROUND_UP per_request_bytes psz in
      let size_bytes := per_request_bytes *u batch_size in
      let size_bytes :=
        if size_bytes <? psz *u batch_size then psz *u batch_size else size_bytes in
      guard_or (Throw EXN_VTENSOR) (size_bytes mod batch_size =? 0) ;;;
      let request_alignment := size_bytes / batch_size in
      guard_or (Throw EXN_VTENSOR) (request_alignment mod psz =? 0) ;;;
      mret' size_bytes
  end.

Definition alloc_vtensor (shape : list Z) (psz min_request_bytes dtype alloc_page_size : Z)
  : VM tensor :=
  let elem := itemsize dtype in
  size_bytes <- vtensor_size_bytes shape psz min_request_bytes elem ;;
  p <- vtensor_allocate alloc_page_size size_bytes ;;
  mret' (Tensor p size_bytes (computeStorageNbytesContiguous shape elem)).

(** ** vAttentionCachingAllocator: configuration *)

(** A product of [int]s; a signed overflow is undefined. *)
Definition imul (a b : Z) : VM Z := guard_or UB (in_int32 (a * b)) ;;; mret' (a * b).

Definition set_block_size (psz tpp : Z) (c : config) : config :=
  Config (num_layers c) (num_kv_heads c) (head_size c) (bytes_per_elem c) (device c)
    (scalar_type c) (component_spec_enabled c) (page_buffer_token_bytes c)
    (cached_token_bytes_local c) (max_batch_size c) (max_context_length c)
    (virt_buff_size c) (virt_buff_size_per_req c) (virt_buff_size_per_token c)
    (virt_buff_num_kv_tokens c) tpp (max_pages_per_req c) psz
    (cache_component_token_dims c) (megacache_enabled c)
    (megacache_enabled_global c) (is_configured c).

Definition set_buffer_sizes (per_token pages per_req total toks : Z) (c : config) : config :=
  Config (num_layers c) (num_kv_heads c) (head_size c) (bytes_per_elem c) (device c)
    (scalar_type c) (component_spec_enabled c) (page_buffer_token_bytes c)
    (cached_token_bytes_local c) (max_batch_size c) (max_context_length c)
    total per_req per_token toks (tokens_per_page c) pages (page_size c)
    (cache_component_token_dims c) (megacache_enabled c)
    (megacache_enabled_global c) (is_configured c).

Definition set_is_configured (b : bool) (c : config) : config :=
  Config (num_layers c) (num_kv_heads c) (head_size c) (bytes_per_elem c) (device c)
    (scalar_type c) (component_spec_enabled c) (page_buffer_token_bytes c)
    (cached_token_bytes_local c) (max_batch_size c) (max_context_length c)
    (virt_buff_size c) (virt_buff_size_per_req c) (virt_buff_size_per_token c)
    (virt_buff_num_kv_tokens c) (tokens_per_page c) (max_pages_per_req c) (page_size c)
    (cache_component_token_dims c) (megacache_enabled c)
    (megacache_enabled_global c) b.

(** Bytes of one token in one tensor, computed in [int]. *)
Definition token_bytes_int : VM Z :=
  s <- get ;;
  let c := conf s in
  a <- imul (num_kv_heads c) (head_size c) ;;
  b <- imul a (bytes_per_elem c) ;;
  if megacache_enabled c then imul b (num_layers c) else mret' b.

Definition init_kv_block_size : VM unit :=
  s <- get ;;
  psz <- do_cuda_init (device (conf s)) (page_size (conf s)) ;;
  modify (fun s => set_conf (set_block_size psz (tokens_per_page (conf s)) (conf s)) s) ;;;
  tpp <- (if component_spec_enabled (conf s) then
            if tokens_per_page (conf s) =? 0
            then udiv psz (page_buffer_token_bytes (conf s))
            else mret' (tokens_per_page (conf s))
          else b <- token_bytes_int ;; udiv psz (u64 b)) ;;
  modify (fun s => set_conf (set_block_size psz tpp (conf s)) s).

Definition init_buffer_sizes : VM unit :=
  s <- get ;;
  let c := conf s in
  per_token <- (if component_spec_enabled c then mret' (page_buffer_token_bytes c)
                else b <- token_bytes_int ;; mret' (u64 b)) ;;
  pages <- tokens_to_pages (u64 (max_context_length c)) ;;
  let per_req := pages *u page_size c in
  let total := per_req *u max_batch_size c in
  let toks := u64 (max_batch_size c * max_context_length c) in
  let toks := if megacache_enabled c then toks *u num_layers c else toks in
  modify (fun s => set_conf (set_buffer_sizes per_token pages per_req total toks (conf s)) s).

Definition init_kvcache (num_layers_ num_kv_heads_ head_size_ max_batch_size_
      max_context_length_ device_ dtype_itemsize dtype_scalar page_size_ : Z)
      (megacache : bool) : VM unit :=
  guard_or AssertFail ((0 <? max_batch_size_) && (max_batch_size_ <? 1000)) ;;;
  guard_or AssertFail ((0 <? max_context_length_) && (max_context_length_ <? 1000000)) ;;;
  guard_or AssertFail ((0 <? num_layers_) && (num_layers_ <? 100)) ;;;
  guard_or AssertFail ((0 <? num_kv_heads_) && (num_kv_heads_ <? 256)) ;;;
  let per_layer := num_kv_heads_ *u head_size_ *u dtype_itemsize in
  let page_bytes := if megacache then per_layer *u num_layers_ else per_layer in
  let cached := num_layers_ *u 2 *u num_kv_heads_ *u head_size_ *u dtype_itemsize in
  dim <- imul num_kv_heads_ head_size_ ;;
  modify (fun s => let c := conf s in set_conf
    (Config num_layers_ num_kv_heads_ head_size_ dtype_itemsize device_ dtype_scalar
       false page_bytes cached max_batch_size_ max_context_length_
       (virt_buff_size c) (virt_buff_size_per_req c) (virt_buff_size_per_token c)
       (virt_buff_num_kv_tokens c) (tokens_per_page c) (max_pages_per_req c) page_size_
       [dim; dim] megacache megacache (is_configured c)) s) ;;;
  init_kv_block_size ;;;
  init_buffer_sizes ;;;
  init_kvcache_batch_metadata ;;;
  modify (fun s => set_conf (set_is_configured true (conf s)) s).

Definition Half : Z := 5.
Definition Float : Z := 6.
Definition BFloat16 : Z := 15.

Definition parse_scalar_type (dtype_name : string) : option Z :=
  if String.eqb dtype_name "float16" || String.eqb dtype_name "half" then Some Half
  else if String.eqb dtype_name "bfloat16" then Some BFloat16
  else if String.eqb dtype_name "float32" || String.eqb dtype_name "float" then Some Float
  else None.

(** The fields read out of the Python payload. *)
Record component_payload := ComponentPayload {
  pl_max_batch_size : Z;
  pl_max_context_length : Z;
  pl_device_idx : Z;
  pl_dtype : string;
  pl_page_size : Z;
  pl_megacache : bool;
  pl_num_layers : Z;
  pl_num_kv_heads : Z;
  pl_head_size : Z;
  pl_tokens_per_page : Z;
  pl_page_buffer_token_bytes : Z;
  pl_cached_token_bytes_local : Z;
  pl_dtype_size : Z;
  pl_component_token_dims : list Z;
}.

Definition init_kvcache_component_spec (p : component_payload) : VM unit :=
  (** every global up to the scalar type is written before the type is parsed *)
  modify (fun s => let c := conf s in set_conf
    (Config (pl_num_layers p) (pl_num_kv_heads p) (pl_head_size p) (pl_dtype_size p)
       (pl_device_idx p) (scalar_type c) (component_spec_enabled c)
       (pl_page_buffer_token_bytes p) (pl_cached_token_bytes_local p)
       (pl_max_batch_size p) (pl_max_context_length p)
       (virt_buff_size c) (virt_buff_size_per_req c) (virt_buff_size_per_token c)
       (virt_buff_num_kv_tokens c) (pl_tokens_per_page p) (max_pages_per_req c)
       (pl_page_size p) (cache_component_token_dims c) (pl_megacache p)
       (pl_megacache p) (is_configured c)) s) ;;;
  ty <- of_option (Throw EXN_DTYPE) (parse_scalar_type (pl_dtype p)) ;;
  modify (fun s => let c := conf s in set_conf
    (Config (num_layers c) (num_kv_heads c) (head_size c) (bytes_per_elem c) (device c)
       ty true (page_buffer_token_bytes c) (cached_token_bytes_local c)
       (max_batch_size c) (max_context_length c) (virt_buff_size c)
       (virt_buff_size_per_req c) (virt_buff_size_per_token c)
       (virt_buff_num_kv_tokens c) (tokens_per_page c) (max_pages_per_req c)
       (page_size c) (pl_component_token_dims p) (megacache_enabled c)
       (megacache_enabled_global c) (is_configured c)) s) ;;;
  guard_or (Throw EXN_NUM_COMPONENTS) (Z.of_nat (length (pl_component_token_dims p)) =? 2) ;;;
  init_kv_block_size ;;;
  init_buffer_sizes ;;;
  init_kvcache_batch_metadata ;;;
  modify (fun s => set_conf (set_is_configured true (conf s)) s).

(** ** Virtual tensors *)

Definition alloc_virtual_tensor : VM tensor :=
  s <- get ;;
  let c := conf s in
  let shape :=
    if megacache_enabled c then
      [max_batch_size c; max_context_length c; num_layers c; num_kv_heads c; head_size c]
    else [max_batch_size c; max_context_length c; num_kv_heads c; head_size c] in
  alloc_vtensor shape (page_size c) (virt_buff_size_per_req c) (scalar_type c) (page_size c).

Definition alloc_component_virtual_tensor (component_token_dim : Z) : VM tensor :=
  s <- get ;;
  let c := conf s in
  let shape :=
    if megacache_enabled c then
      [max_batch_size c; max_context_length c; num_layers c; component_token_dim]
    else [max_batch_size c; max_context_length c; component_token_dim] in
  alloc_vtensor shape (page_size c) (virt_buff_size_per_req c) (scalar_type c) (page_size c).

Definition push_k (t : tensor) : VM unit :=
  modify (fun s => set_tensors (k_tensors s ++ [t]) (v_tensors s) s).
Definition push_v (t : tensor) : VM unit :=
  modify (fun s => set_tensors (k_tensors s) (v_tensors s ++ [t]) s).

Definition init_kvcache_virtual : VM (list tensor) :=
  s <- get ;;
  if negb (check_kvcache_config s) then mret' [] else
  (if megacache_enabled (conf s) then
     t0 <- alloc_virtual_tensor ;;
     t1 <- alloc_virtual_tensor ;;
     push_k t0 ;;; push_v t1
   else
     for_each (up 0 (2 * num_layers (conf s))) (fun i =>
       t <- alloc_virtual_tensor ;;
       if i <? num_layers (conf s) then push_k t else push_v t)) ;;;
  gets (fun s => k_tensors s ++ v_tensors s).

Definition init_kvcache_component_spec_virtual : VM (list tensor) :=
  s <- get ;;
  if negb (check_kvcache_config s) then mret' [] else
  d0 <- of_option UB (nthZ (cache_component_token_dims (conf s)) 0) ;;
  d1 <- of_option UB (nthZ (cache_component_token_dims (conf s)) 1) ;;
  (if megacache_enabled (conf s) then
     t0 <- alloc_component_virtual_tensor d0 ;;
     t1 <- alloc_component_virtual_tensor d1 ;;
     push_k t0 ;;; push_v t1
   else
     for_each (up 0 (num_layers (conf s))) (fun _ =>
       t0 <- alloc_component_virtual_tensor d0 ;;
       push_k t0 ;;;
       t1 <- alloc_component_virtual_tensor d1 ;;
       push_v t1)) ;;;
  gets (fun s => k_tensors s ++ v_tensors s).
End vattn_init.
