(* ===== verification/VattnAlloc.v ===== *)
(** The memory manager proper: growing, shrinking and reclaiming the physical
    memory behind the KV cache (class vAttentionCachingAllocator of
    vattention/vattention.cu) and the exported API (vattention/apis.h). *)

From S2P Require Import Prelude GpuApi VattnState VattnPages VattnInit.
Local Open Scope Z_scope.
Local Open Scope cword_scope.

Section vattn_alloc.
Context {api : gpu_api} {torch : torch_api}.
Implicit Types (s : vstate).

Definition num_free_pages s : Z := get_num_free_pages (page_size (conf s)) s.

Definition reserve_physical_pages (free_memory : Z) : VM Z :=
  s <- get ;; reserve_gpu_pages free_memory (page_size (conf s)).

Definition get_num_free_kvblocks : VM Z :=
  s <- get ;;
  free_kvblocks <- pages_to_kvblocks (num_free_pages s) ;;
  over <- get_num_overcommitted_kvblocks ;;
  mret' (free_kvblocks +u over).

Definition kvblocks_available (num_kvblocks : Z) : VM bool :=
  s <- get ;;
  n <- pages_to_kvblocks (num_free_pages s) ;;
  mret' (num_kvblocks <=? n).

(** Number of tensors per K or V side that a kvblock spans: one in
    megacache mode, one per layer otherwise. *)
Definition layers_of (c : config) : list Z :=
  if megacache_enabled c then [0] else up 0 (num_layers c).

Definition tensor_ptrs (layer_idx : Z) : VM (Z * Z) :=
  s <- get ;;
  k <- of_option UB (nthZ (k_tensors s) layer_idx) ;;
  v <- of_option UB (nthZ (v_tensors s) layer_idx) ;;
  mret' (data_ptr k, data_ptr v).

Definition unmap_req_page_one (reqId : Z) : VM unit :=
  req_offset <- get_req_current_unmap_offset reqId ;;
  s <- get ;;
  for_each (layers_of (conf s)) (fun layer_idx =>
    kv <- tensor_ptrs layer_idx ;;
    UNMAP_PAGES reqId layer_idx req_offset (fst kv) (snd kv) (page_size (conf s))) ;;;
  dec_req_page_count reqId.

(** The fuel is the number of pages the request has when the loop starts:
    every iteration unmaps one of them. *)
Definition release_kvcache_pages_some (reqId retain_blocks : Z) : VM unit :=
  n <- get_req_pages reqId ;;
  while (Z.to_nat n)
    (m <- get_req_pages reqId ;; mret' (retain_blocks <? m))
    (unmap_req_page_one reqId).

Definition release_kvcache_pages_all (reqId : Z) : VM unit :=
  release_kvcache_pages_some reqId 0.

(** The std::runtime_error of the synchronous case is constructed but not
    thrown, so both cases return false. *)
Definition is_valid_offset (reqId req_offset : Z) (sync : bool) : VM bool :=
  s <- get ;;
  if req_offset <? (reqId + 1) *u virt_buff_size_per_req (conf s) then mret' true
  else if negb sync then mret' false
  else mret' false.

(** One iteration of the growth loop; [true] leaves the function. *)
Definition grow_one_block (reqId : Z) (sync : bool) : VM bool :=
  req_offset <- get_req_current_map_offset reqId ;;
  valid <- is_valid_offset reqId req_offset sync ;;
  if negb valid then mret' true else
  s <- get ;;
  for_each (layers_of (conf s)) (fun layer_idx =>
    kv <- tensor_ptrs layer_idx ;;
    MAP_PAGES reqId layer_idx req_offset (fst kv) (snd kv) (page_size (conf s))) ;;;
  inc_req_page_count reqId ;;;
  mret' false.

Definition grow_kvcache_phys (reqId num_blocks : Z) (sync : bool) : VM unit :=
  if num_blocks <=? 0 then mret' tt else
  av <- kvblocks_available num_blocks ;;
  if negb av then
    if negb sync then mret' tt
    else modify (set_verbose true) ;;; fail (Throw EXN_OOM)
  else
    for_each_brk (up 0 num_blocks) (fun _ => grow_one_block reqId sync) ;;;
    mret' tt.

(** One physical page pair per layer, mapped at the end of every request. *)
Definition map_common_pages_in_batch (num_tokens : Z) : VM unit :=
  num_blocks <- tokens_to_pages num_tokens ;;
  if num_blocks <=? 0 then mret' tt else
  av <- kvblocks_available num_blocks ;;
  if negb av then fail (Throw EXN_OOM) else
  for_each (up 0 num_blocks) (fun _ =>
    s <- get ;;
    for_each (layers_of (conf s)) (fun layer_idx =>
      kv <- tensor_ptrs layer_idx ;;
      MAP_COMMON_PAGES layer_idx (fst kv) (snd kv) (page_size (conf s))) ;;;
    for_each (up 0 (max_batch_size (conf s))) inc_req_page_count).

(** The integer fields of FragmentationMetrics. *)
Record FragmentationMetrics := Metrics {
  m_seq_len : Z;
  m_mapped_blocks : Z;
  m_pages_per_kvblock : Z;
  m_tokens_per_page : Z;
  m_mapped_token_capacity : Z;
  m_resident_tokens : Z;
  m_slack_tokens : Z;
  m_useful_payload_bytes : Z;
  m_mapped_physical_bytes : Z;
}.

Definition compute_fragmentation_metrics (seq_len nr_mapped : Z) s : FragmentationMetrics :=
  let c := conf s in
  let ppb := get_pages_per_kvblock s in
  let cap := nr_mapped *u tokens_per_page c in
  let resident := if seq_len <? cap then seq_len else cap in
  Metrics seq_len nr_mapped ppb (tokens_per_page c) cap resident
    (cap -u resident)
    (resident *u cached_token_bytes_local c)
    (nr_mapped *u ppb *u page_size c).

Definition reclaim_kvblocks_on_demand (num_kvblocks : Z) : VM unit :=
  s <- get ;;
  for_each_brk (down (max_batch_size (conf s)) 0) (fun reqId =>
    av <- kvblocks_available num_kvblocks ;;
    if av then mret' true else
    nr_mapped <- get_req_pages reqId ;;
    len <- get_req_seq_length reqId ;;
    nr_required <- tokens_to_pages len ;;
    if nr_mapped <=? nr_required then mret' false else
    release_kvcache_pages_some reqId nr_required ;;;
    mret' false) ;;;
  mret' tt.

Definition map_pages_for_curr_step (reqId seq_len : Z) : VM unit :=
  if seq_len =? 0 then mret' tt else
  nr_required <- tokens_to_pages seq_len ;;
  nr_mapped <- get_req_pages reqId ;;
  if nr_required <=? nr_mapped then mret' tt else
  let nr_to_grow := nr_required -u nr_mapped in
  av <- kvblocks_available nr_to_grow ;;
  when (negb av) (reclaim_kvblocks_on_demand nr_to_grow) ;;;
  grow_kvcache_phys reqId nr_to_grow true ;;;
  set_req_seq_length reqId seq_len.

Definition step_sync (seq_lens : list Z) (eager_reclaim : bool) : VM unit :=
  s <- get ;;
  for_each (up 0 (max_batch_size (conf s))) (fun reqId =>
    len <- of_option UB (nthZ seq_lens reqId) ;;
    set_req_seq_length reqId len ;;;
    n <- get_req_pages reqId ;;
    if eager_reclaim && ((len =? 0) && negb (n =? 0))
    then release_kvcache_pages_all reqId
    else map_pages_for_curr_step reqId len).

Definition prepare_prefill_kvcache : VM unit :=
  s <- get ;;
  for_each (up 0 (max_batch_size (conf s))) (fun reqId =>
    len <- get_req_seq_length reqId ;;
    map_pages_for_curr_step reqId len).

(** First inactive request, or -1. *)
Fixpoint first_inactive (ids : list Z) : VM Z :=
  match ids with
  | [] => mret' (-1)
  | reqId :: ids' =>
      a <- is_active_req reqId ;;
      if negb a then mret' reqId else first_inactive ids'
  end.

Definition do_reclaim_pages : VM unit :=
  s <- get ;;
  if deferred_reclaim s then mret' tt else
  next_prefill_reqId <- first_inactive (up 0 (max_batch_size (conf s))) ;;
  for_each_brk (down (max_batch_size (conf s)) 0) (fun reqId =>
    a <- is_active_req reqId ;;
    if a || (reqId =? next_prefill_reqId) then mret' false else
    n <- get_req_pages reqId ;;
    if n =? 0 then mret' false else
    unmap_req_page_one reqId ;;;
    mret' true) ;;;
  mret' tt.

Definition EAGER_NUM_STEPS : Z := 10.
Definition EAGER_NUM_KVBLOCKS : Z := 2.

Fixpoint sum_need_new_pages (ids : list Z) (acc : Z) : VM Z :=
  match ids with
  | [] => mret' acc
  | reqId :: ids' =>
      n <- need_new_page_async reqId 1 ;;
      sum_need_new_pages ids' (acc +u n)
  end.

(** The inner loop of the eager allocation: returns the running count of
    blocks and whether the bound was hit. *)
Fixpoint eager_grow_requests (step : Z) (ids : list Z) (nr_mapped_curr : Z) : VM (Z * bool) :=
  match ids with
  | [] => mret' (nr_mapped_curr, false)
  | reqId :: ids' =>
      n <- need_new_page_async reqId step ;;
      grow_kvcache_phys reqId n false ;;;
      let cnt := nr_mapped_curr +u n in
      if step =? 1 then eager_grow_requests step ids' cnt
      else if EAGER_NUM_KVBLOCKS <=? cnt then mret' (cnt, true)
      else eager_grow_requests step ids' cnt
  end.

Fixpoint eager_grow_steps (steps ids : list Z) (nr_mapped_curr : Z) : VM unit :=
  match steps with
  | [] => mret' tt
  | step :: steps' =>
      r <- eager_grow_requests step ids nr_mapped_curr ;;
      if snd r then mret' tt else eager_grow_steps steps' ids (fst r)
  end.

Definition do_kvcache_memory_management : VM unit :=
  s <- get ;;
  let ids := up 0 (max_batch_size (conf s)) in
  nr_required <- sum_need_new_pages ids 0 ;;
  av <- kvblocks_available nr_required ;;
  when (negb av) (reclaim_kvblocks_on_demand nr_required) ;;;
  av2 <- kvblocks_available nr_required ;;
  if negb av2 then mret' tt else
  eager_grow_steps (up 1 EAGER_NUM_STEPS) ids 0 ;;;
  if negb (nr_required =? 0) then mret' tt else
  do_reclaim_pages.

(** Best fit among the inactive requests; -1 when all are active. *)
Fixpoint choose_batch_idx (ids : list Z) (nr_required new_id : Z) : VM Z :=
  match ids with
  | [] => mret' new_id
  | reqId :: ids' =>
      a <- is_active_req reqId ;;
      if a then choose_batch_idx ids' nr_required new_id else
      if new_id =? -1 then choose_batch_idx ids' nr_required reqId else
      n <- get_req_pages reqId ;;
      b <- get_req_pages new_id ;;
      choose_batch_idx ids' nr_required
        (if (nr_required <=? n) && (n <? b) then reqId else new_id)
  end.

Definition alloc_new_batch_idx (seqlen : Z) : VM Z :=
  nr_required <- tokens_to_pages seqlen ;;
  s <- get ;;
  new_id <- choose_batch_idx (up 0 (max_batch_size (conf s))) nr_required (-1) ;;
  when (negb (new_id =? -1)) (set_req_seq_length new_id seqlen) ;;;
  mret' new_id.

Definition free_batch_idx (reqId : Z) : VM unit := set_req_seq_length reqId 0.

Definition set_deferred_reclamation (val : bool) : VM unit :=
  modify (set_deferred_reclaim val).

(** What cleanup resets in the configuration. *)
Definition clear_config (c : config) : config :=
  Config (num_layers c) (num_kv_heads c) (head_size c) (bytes_per_elem c) (device c)
    (scalar_type c) false 0 0 (max_batch_size c) (max_context_length c)
    (virt_buff_size c) (virt_buff_size_per_req c) (virt_buff_size_per_token c)
    (virt_buff_num_kv_tokens c) 0 (max_pages_per_req c) (page_size c)
    [] (megacache_enabled c) false (is_configured c).

Definition DO_KVCACHE_CLEANUP (psz : Z) : VM unit :=
  s <- get ;;
  for_each (up 0 (max_batch_size (conf s))) release_kvcache_pages_all ;;;
  if is_uvm_backend psz then
    do_uvm_kvcache_cleanup ;;; modify (set_uvm_pages [])
  else
    do_cuda_kvcache_cleanup ;;; modify (set_cuda_pages []).

(** The wait for the background thread is in VattnAsync. *)
Definition cleanup_synced : VM unit :=
  s <- get ;;
  DO_KVCACHE_CLEANUP (page_size (conf s)) ;;;
  modify (fun s => set_conf (clear_config (conf s)) (set_tensors [] [] s)).

(** ** apis.h *)

Definition api_init_kvcache (num_layers num_kv_heads head_size max_batch_size
    max_context_length device dtype_itemsize dtype_scalar page_size : Z)
    (megacache : bool) : VM (list tensor) :=
  init_kvcache (int32 num_layers) (int32 num_kv_heads) (int32 head_size)
    (int32 max_batch_size) max_context_length device dtype_itemsize dtype_scalar
    page_size megacache ;;;
  init_kvcache_virtual.

Definition api_init_kvcache_component_spec (p : component_payload) : VM (list tensor) :=
  init_kvcache_component_spec p ;;;
  init_kvcache_component_spec_virtual.
End vattn_alloc.
