(* ===== verification/VattnInv.v ===== *)
(** The invariant of the memory manager and its preservation by the mapping
    and unmapping of one page pair.

    [page_inv E R s] says that exactly the pages named by [E] are mapped: the
    page maps list them, the address space of the GPU shows them at their
    place, and together with the free pool they are the pages [R] that were
    reserved, each exactly once.  [Inv R s] is the case in which [E] is "the
    first mapped_pages[r] pages of every request r, in every layer", the
    contiguity that the attention kernels rely on. *)

From S2P Require Import Prelude GpuApi VattnState VattnPages VattnInit VattnAlloc.
Local Open Scope Z_scope.
Local Open Scope cword_scope.

Section vattn_inv.
Context {api : gpu_api} {torch : torch_api} {gran : Z} {laws : GpuLaws api gran}.
Implicit Types (s : vstate) (c : config).

(** The pool and the page map of the backend in use. *)
Definition pool s : list Z :=
  if is_uvm_backend (page_size (conf s)) then uvm_pages s else cuda_pages s.
Definition pmap s : page_map :=
  if is_uvm_backend (page_size (conf s)) then uvm_pagemap s else cuda_pagemap s.

(** Number of layers that have tensors of their own. *)
Definition nlay c : Z := if megacache_enabled c then 1 else num_layers c.

(** Byte offset of page [j] of request [r] in every tensor, and the bytes of
    a tensor. *)
Definition off c (r j : Z) : Z := (r * max_pages_per_req c + j) * page_size c.
Definition span c : Z := max_batch_size c * max_pages_per_req c * page_size c.

(** The configurations that initialisation produces. *)
Record config_ok c : Prop := {
  ok_tpp : 0 < tokens_per_page c < 2 ^ 62;
  ok_psz : 0 < page_size c;
  ok_layers : 0 < num_layers c < 2 ^ 31;
  ok_batch : 0 < max_batch_size c < 2 ^ 31;
  ok_maxp : 0 < max_pages_per_req c;
  ok_per_req : virt_buff_size_per_req c = max_pages_per_req c * page_size c;
  ok_span : span c < 2 ^ 64;
  ok_dims : length (cache_component_token_dims c) = 2%nat;
  ok_mega : megacache_enabled_global c = megacache_enabled c;
}.

(** Base address of the K ([false]) or V ([true]) tensor of a layer. *)
Definition base_of s (side : bool) (l : Z) : option Z :=
  data_ptr <$> nthZ (if side then v_tensors s else k_tensors s) l.

(** The tensors: one per side and layer, each in its own reservation. *)
Record tensors_ok s : Prop := {
  ok_base side l : 0 <= l < nlay (conf s) ->
    exists p, base_of s side l = Some p /\ 0 <= p /\ p + span (conf s) < 2 ^ 64 /\
              in_reservation (view (gpu s)) p (span (conf s));
  ok_disjoint side l p side' l' p' :
    0 <= l < nlay (conf s) -> 0 <= l' < nlay (conf s) ->
    base_of s side l = Some p -> base_of s side' l' = Some p' ->
    (side, l) <> (side', l') ->
    p + span (conf s) <= p' \/ p' + span (conf s) <= p;
  ok_aligned side l p : is_uvm_backend (page_size (conf s)) = false ->
    0 <= l < nlay (conf s) -> base_of s side l = Some p -> p mod page_size (conf s) = 0;
}.

(** All pages of a page map, K and V sides. *)
Definition pages_of (m : page_map) : list Z :=
  (map_to_list m).*2 ≫= (fun kv => [fst kv; snd kv]).

Abbreviation pages := (Z -> Z -> Z -> Prop).

Record page_inv (E : pages) (R : list Z) s : Prop := {
  pi_conf : config_ok (conf s);
  pi_gran : page_size (conf s) = gran;
  pi_uvm : (uvm_page_size s = page_size (conf s) /\ 0 <= nvidia_uvm_fd s) \/ is_uvm_backend (page_size (conf s)) = false;
  pi_tensors : tensors_ok s;
  pi_range r j l : E r j l ->
    0 <= r < max_batch_size (conf s) /\ 0 <= j < max_pages_per_req (conf s) /\
    0 <= l < nlay (conf s);
  pi_keys key : is_Some (pmap s !! key) <->
    exists r j l, E r j l /\ key = (r, off (conf s) r j, l);
  pi_nodup : NoDup R;
  pi_account : pool s ++ pages_of (pmap s) ≡ₚ R;
  pi_live x : x ∈ R -> x ∈ live (view (gpu s));
  pi_mapped r j l kp vp :
    E r j l -> pmap s !! (r, off (conf s) r j, l) = Some (kp, vp) ->
    forall side p, base_of s side l = Some p ->
    va_map (view (gpu s)) !! (p + off (conf s) r j) = Some (if side then vp else kp);
  pi_exact : is_uvm_backend (page_size (conf s)) = false ->
    forall side l p a, 0 <= l < nlay (conf s) -> base_of s side l = Some p ->
    p - page_size (conf s) < a < p + span (conf s) ->
    is_Some (va_map (view (gpu s)) !! a) ->
    exists r j, E r j l /\ a = p + off (conf s) r j;
}.

(** Counters: how many pages each request has, and the sequence lengths the
    framework announced. *)
Definition seq_len_ok (n : Z) : Prop := 0 <= n < 2 ^ 32.

Record counters_ok s : Prop := {
  co_mapped_len : Z.of_nat (length (mapped_pages s)) = max_batch_size (conf s);
  co_seq_len : Z.of_nat (length (curr_seq_lengths s)) = max_batch_size (conf s);
  co_mapped r n : nthZ (mapped_pages s) r = Some n -> 0 <= n <= max_pages_per_req (conf s);
  co_seqs : Forall seq_len_ok (curr_seq_lengths s);
}.

(** The contiguous prefix of every request. *)
Definition prefix_pages s : pages := fun r j l =>
  0 <= l < nlay (conf s) /\ exists n, nthZ (mapped_pages s) r = Some n /\ 0 <= j < n.

Record Inv (R : list Z) s : Prop := {
  inv_counters : counters_ok s;
  inv_pages : page_inv (prefix_pages s) R s;
}.

(** ** Consequences of the configuration *)

Lemma off_bound c r j :
  config_ok c -> 0 <= r < max_batch_size c -> 0 <= j < max_pages_per_req c ->
  0 <= off c r j /\ off c r j + page_size c <= span c.
Proof.
  intros [_ Hp _ _ Hm _ _ _ _] Hr Hj. unfold off, span. split; [nia|].
  assert (r * max_pages_per_req c + j + 1 <= max_batch_size c * max_pages_per_req c) by nia.
  nia.
Qed.

Lemma off_close c r j r' j' :
  config_ok c -> 0 <= j < max_pages_per_req c -> 0 <= j' < max_pages_per_req c ->
  Z.abs (off c r j - off c r' j') < page_size c -> r = r' /\ j = j'.
Proof.
  intros [_ Hp _ _ Hm _ _ _ _] Hj Hj' H. unfold off in H.
  assert (Hs : r * max_pages_per_req c + j = r' * max_pages_per_req c + j') by nia.
  assert (r = r') by nia. subst. lia.
Qed.

Lemma off_inj c r j r' j' :
  config_ok c -> 0 <= j < max_pages_per_req c -> 0 <= j' < max_pages_per_req c ->
  off c r j = off c r' j' -> r = r' /\ j = j'.
Proof.
  intros Hc Hj Hj' H. apply (off_close c); [done..|].
  rewrite H, Z.sub_diag. pose proof (ok_psz _ Hc). simpl. lia.
Qed.

Lemma maxp_u64 c : config_ok c -> 0 < max_pages_per_req c < 2 ^ 64.
Proof.
  intros [_ Hp _ Hb Hm _ Hs _ _]. unfold span in Hs. split; [done|].
  assert (1 * max_pages_per_req c <= max_batch_size c * max_pages_per_req c) by nia.
  assert (max_batch_size c * max_pages_per_req c * 1 <=
          max_batch_size c * max_pages_per_req c * page_size c) by nia. lia.
Qed.

Lemma nlay_pos c : config_ok c -> 0 < nlay c.
Proof. intros [_ _ Hl _ _ _ _ _ _]. unfold nlay. destruct (megacache_enabled c); lia. Qed.

Lemma nlay_bound c : config_ok c -> 0 < nlay c < 2 ^ 31.
Proof. intros [_ _ Hl _ _ _ _ _ _]. unfold nlay. destruct (megacache_enabled c); lia. Qed.

Lemma layers_of_nlay c : layers_of c = up 0 (nlay c).
Proof. unfold layers_of, nlay. by destruct (megacache_enabled c). Qed.

Lemma pages_per_kvblock_eq s :
  config_ok (conf s) -> get_pages_per_kvblock s = 2 * nlay (conf s).
Proof.
  intros [? ? Hl ? ? ? ? Hd Hg]. unfold get_pages_per_kvblock, get_num_cache_components, nlay.
  rewrite Hg. destruct (cache_component_token_dims (conf s)); [done|].
  rewrite Hd. destruct (megacache_enabled (conf s)); [done|].
  apply u64_small. unfold is_u64. lia.
Qed.

(** ** Small operations *)

Lemma wp_tokens_to_pages n (Q : Z -> vstate -> Prop) F s :
  config_ok (conf s) -> 0 <= n < 2 ^ 63 ->
  Q (ceil_div n (tokens_per_page (conf s))) s -> wp (tokens_to_pages n) Q F s.
Proof.
  intros Hc Hn HQ. pose proof (ok_tpp _ Hc) as Ht.
  unfold tokens_to_pages, udiv. wp_steps.
  apply wp_guard; [apply negb_true_iff, Z.eqb_neq; lia|]. wp_steps.
  rewrite (u64_small (n + _)) by (unfold is_u64; lia).
  rewrite u64_small by (unfold is_u64; lia). exact HQ.
Qed.

Lemma wp_get_req_pages r n (Q : Z -> vstate -> Prop) F s :
  nthZ (mapped_pages s) r = Some n -> Q n s -> wp (get_req_pages r) Q F s.
Proof. intros H HQ. unfold get_req_pages. wp_steps. by eapply wp_of_option. Qed.

Lemma wp_get_req_seq_length r n (Q : Z -> vstate -> Prop) F s :
  nthZ (curr_seq_lengths s) r = Some n -> Q n s -> wp (get_req_seq_length r) Q F s.
Proof. intros H HQ. unfold get_req_seq_length. wp_steps. by eapply wp_of_option. Qed.

Lemma wp_is_active_req r n (Q : bool -> vstate -> Prop) F s :
  nthZ (curr_seq_lengths s) r = Some n -> Q (negb (n =? 0)) s -> wp (is_active_req r) Q F s.
Proof. intros. unfold is_active_req. wp_steps. eapply wp_get_req_seq_length; eauto. Qed.

Lemma wp_pages_to_kvblocks n (Q : Z -> vstate -> Prop) F s :
  config_ok (conf s) -> Q (n / (2 * nlay (conf s))) s -> wp (pages_to_kvblocks n) Q F s.
Proof.
  intros Hc HQ. unfold pages_to_kvblocks, udiv. wp_steps.
  rewrite pages_per_kvblock_eq by done. pose proof (nlay_pos _ Hc).
  apply wp_guard; [apply negb_true_iff, Z.eqb_neq; lia|]. by wp_steps.
Qed.

Lemma num_free_pages_pool s : num_free_pages s = Z.of_nat (length (pool s)).
Proof. unfold num_free_pages, get_num_free_pages, pool. by case_match. Qed.

Lemma wp_kvblocks_available n (Q : bool -> vstate -> Prop) F s :
  config_ok (conf s) ->
  Q (n <=? Z.of_nat (length (pool s)) / (2 * nlay (conf s))) s ->
  wp (kvblocks_available n) Q F s.
Proof.
  intros Hc HQ. unfold kvblocks_available. wp_steps.
  apply wp_pages_to_kvblocks; [done|]. rewrite num_free_pages_pool. by wp_steps.
Qed.

Lemma wp_tensor_ptrs l kp vp (Q : Z * Z -> vstate -> Prop) F s :
  base_of s false l = Some kp -> base_of s true l = Some vp ->
  Q (kp, vp) s -> wp (tensor_ptrs l) Q F s.
Proof.
  unfold base_of, tensor_ptrs. intros [tk [Hk ->]]%fmap_Some [tv [Hv ->]]%fmap_Some HQ.
  wp_steps. eapply wp_of_option; [done|]. wp_steps. eapply wp_of_option; [done|]. by wp_steps.
Qed.

(** ** Address arithmetic *)

Lemma tensor_addr E R s side l p r j :
  page_inv E R s -> 0 <= l < nlay (conf s) -> base_of s side l = Some p ->
  0 <= r < max_batch_size (conf s) -> 0 <= j < max_pages_per_req (conf s) ->
  u64 (p + off (conf s) r j) = p + off (conf s) r j /\
  in_reservation (view (gpu s)) (p + off (conf s) r j) gran.
Proof.
  intros HI Hl Hp Hr Hj. destruct (ok_base s (pi_tensors _ _ _ HI) side l Hl)
    as (p' & Hp' & Hp0 & Hlt & (b & sz & Hin & Hb & Hbs)).
  rewrite Hp in Hp'. injection Hp' as <-.
  pose proof (off_bound _ r j (pi_conf _ _ _ HI) Hr Hj) as [H0 H1].
  split; [apply u64_small; unfold is_u64; pose proof (ok_psz _ (pi_conf _ _ _ HI)); lia|].
  exists b, sz. pose proof (pi_gran _ _ _ HI). split; [done|]. lia.
Qed.

(** In the CUDA backend, an unmapped page leaves its addresses free. *)
Lemma unmapped_free E R s side l p r j :
  page_inv E R s -> is_uvm_backend (page_size (conf s)) = false ->
  0 <= l < nlay (conf s) -> base_of s side l = Some p ->
  0 <= r < max_batch_size (conf s) -> 0 <= j < max_pages_per_req (conf s) ->
  ~ E r j l -> range_free (view (gpu s)) (p + off (conf s) r j) gran.
Proof.
  intros HI Hb Hl Hp Hr Hj HE q Hq.
  pose proof (off_bound _ r j (pi_conf _ _ _ HI) Hr Hj) as [H0 H1].
  pose proof (pi_gran _ _ _ HI) as Hg.
  destruct (Z_lt_dec (Z.abs (q - (p + off (conf s) r j))) (page_size (conf s)))
    as [Hc|Hc]; [exfalso|lia].
  destruct (pi_exact _ _ _ HI Hb side l p q Hl Hp ltac:(lia) Hq) as (r' & j' & HE' & ->).
  destruct (pi_range _ _ _ HI r' j' l HE') as (_ & Hj' & _).
  destruct (off_close (conf s) r' j' r j (pi_conf _ _ _ HI) Hj' Hj ltac:(lia)) as [-> ->].
  done.
Qed.

(** ** Page lists *)

Lemma pages_of_insert (m : page_map) key kp vp :
  m !! key = None -> pages_of (<[key := (kp, vp)]> m) ≡ₚ kp :: vp :: pages_of m.
Proof.
  intros H. unfold pages_of.
  rewrite (map_to_list_insert m key (kp, vp) H). done.
Qed.

Lemma pages_of_delete (m : page_map) key kp vp :
  m !! key = Some (kp, vp) -> pages_of m ≡ₚ kp :: vp :: pages_of (delete key m).
Proof.
  intros H. rewrite <- (insert_id m key (kp, vp) H) at 1.
  rewrite <- insert_delete_eq. apply pages_of_insert. apply lookup_delete_eq.
Qed.

Lemma pop_back_spec l p l' : pop_back l = Some (p, l') -> l = l' ++ [p].
Proof.
  unfold pop_back. destruct (last l) as [q|] eqn:Hl; [|done]. intros [= -> <-].
  apply last_Some in Hl as [l'' ->]. rewrite length_app. simpl.
  rewrite Nat.add_1_r. simpl. by rewrite take_app_length.
Qed.

Lemma pop_back_some l : (0 < length l)%nat -> exists p l', pop_back l = Some (p, l').
Proof.
  intros H. unfold pop_back. destruct (last l) eqn:Hl; [eauto|].
  apply last_None in Hl. subst. simpl in H. lia.
Qed.

(** ** Map one page pair *)

Definition add_page (E : pages) (r j l : Z) : pages :=
  fun r' j' l' => E r' j' l' \/ (r' = r /\ j' = j /\ l' = l).
Definition del_page (E : pages) (r j l : Z) : pages :=
  fun r' j' l' => E r' j' l' /\ ~ (r' = r /\ j' = j /\ l' = l).

(** What mapping and unmapping leave alone. *)
Record same_control s s' : Prop := {
  sc_conf : conf s' = conf s;
  sc_kt : k_tensors s' = k_tensors s;
  sc_vt : v_tensors s' = v_tensors s;
  sc_mapped : mapped_pages s' = mapped_pages s;
  sc_seq : curr_seq_lengths s' = curr_seq_lengths s;
  sc_def : deferred_reclaim s' = deferred_reclaim s;
  sc_run : mem_manager_running s' = mem_manager_running s;
}.

Lemma same_control_refl s : same_control s s.
Proof. done. Qed.
Lemma same_control_trans s1 s2 s3 :
  same_control s1 s2 -> same_control s2 s3 -> same_control s1 s3.
Proof. intros [] []. split; congruence. Qed.

Lemma base_of_control s s' side l : same_control s s' -> base_of s' side l = base_of s side l.
Proof. intros []. unfold base_of. by destruct side; f_equal; congruence. Qed.

Lemma pmap_key_E E R s r j l :
  page_inv E R s -> 0 <= j < max_pages_per_req (conf s) ->
  is_Some (pmap s !! (r, off (conf s) r j, l)) <-> E r j l.
Proof.
  intros HI Hj. rewrite (pi_keys _ _ _ HI). split; [|by eauto].
  intros (r' & j' & l' & HE & [= -> Ho ->]).
  destruct (pi_range _ _ _ HI _ _ _ HE) as (_ & Hj' & _).
  by destruct (off_inj _ r' j r' j' (pi_conf _ _ _ HI) Hj Hj' Ho) as [_ ->].
Qed.

Lemma tensors_ok_control s s' :
  same_control s s' -> reserved (view (gpu s')) = reserved (view (gpu s)) ->
  tensors_ok s -> tensors_ok s'.
Proof.
  intros Hsc Hr [H1 H2 H3]. pose proof (sc_conf _ _ Hsc) as Hc. split; rewrite Hc.
  - intros side l Hl. destruct (H1 side l Hl) as (p & Hp & ? & ? & Hin).
    exists p. rewrite (base_of_control s s') by done. do 3 (split; [done|]).
    unfold in_reservation in *. by rewrite Hr.
  - intros side l p side' l' p'. rewrite !(base_of_control s s') by done. apply H2.
  - intros side l p. rewrite (base_of_control s s') by done. apply H3.
Qed.

(** Addresses of different pages differ. *)
Lemma page_addr_inj E R s side l p r j side' l' p' r' j' :
  page_inv E R s -> 0 <= l < nlay (conf s) -> 0 <= l' < nlay (conf s) ->
  base_of s side l = Some p -> base_of s side' l' = Some p' ->
  0 <= r < max_batch_size (conf s) -> 0 <= j < max_pages_per_req (conf s) ->
  0 <= r' < max_batch_size (conf s) -> 0 <= j' < max_pages_per_req (conf s) ->
  p + off (conf s) r j = p' + off (conf s) r' j' ->
  side = side' /\ l = l' /\ r = r' /\ j = j'.
Proof.
  intros HI Hl Hl' Hp Hp' Hr Hj Hr' Hj' Heq.
  pose proof (pi_conf _ _ _ HI) as Hc. pose proof (ok_psz _ Hc).
  pose proof (off_bound _ r j Hc Hr Hj). pose proof (off_bound _ r' j' Hc Hr' Hj').
  destruct (decide ((side, l) = (side', l'))) as [[= <- <-]|Hne].
  - rewrite Hp in Hp'. injection Hp' as <-.
    destruct (off_inj _ r j r' j' Hc Hj Hj' ltac:(lia)). done.
  - destruct (ok_disjoint s (pi_tensors _ _ _ HI) side l p side' l' p'); done || lia.
Qed.

(** What a backend does to map one page pair, abstractly. *)
Record mapped_step s s' (r j l kp vp ka va : Z) : Prop := {
  ms_control : same_control s s';
  ms_uvm : uvm_page_size s' = uvm_page_size s;
  ms_fd : nvidia_uvm_fd s' = nvidia_uvm_fd s;
  ms_pool : pool s = pool s' ++ [vp; kp];
  ms_pmap : pmap s' = <[(r, off (conf s) r j, l) := (kp, vp)]> (pmap s);
  ms_view : view (gpu s') =
    view_map (va + off (conf s) r j) vp (view_map (ka + off (conf s) r j) kp (view (gpu s)));
}.

Section map_one.
Context (E : pages) (R : list Z) (s s' : vstate) (r j l kp vp ka va : Z).
Context (HI : page_inv E R s) (Hms : mapped_step s s' r j l kp vp ka va).
Context (Hka : base_of s false l = Some ka) (Hva : base_of s true l = Some va).
Context (Hr : 0 <= r < max_batch_size (conf s)).
Context (Hj : 0 <= j < max_pages_per_req (conf s)).
Context (Hl : 0 <= l < nlay (conf s)) (HE : ~ E r j l).

Lemma map_one_fresh : pmap s !! (r, off (conf s) r j, l) = None.
Proof using HI Hj HE.
  destruct (pmap s !! _) eqn:H; [exfalso|done].
  apply HE, (pmap_key_E E R s r j l HI Hj). rewrite H. by eexists.
Qed.

(** The address-space lookup after the two mappings. *)
Lemma map_one_lookup side' l' p' r' j' :
  0 <= l' < nlay (conf s) -> base_of s side' l' = Some p' ->
  0 <= r' < max_batch_size (conf s) -> 0 <= j' < max_pages_per_req (conf s) ->
  va_map (view (gpu s')) !! (p' + off (conf s) r' j') =
  if decide (r' = r /\ j' = j /\ l' = l) then Some (if side' then vp else kp)
  else va_map (view (gpu s)) !! (p' + off (conf s) r' j').
Proof using HI Hms Hka Hva Hr Hj Hl.
  intros Hl' Hp' Hr' Hj'. rewrite (ms_view _ _ _ _ _ _ _ _ _ Hms). simpl.
  rewrite !lookup_insert.
  destruct (decide (va + off (conf s) r j = p' + off (conf s) r' j')) as [Ha|Ha].
  { destruct (page_addr_inj _ _ _ _ _ _ _ _ _ _ _ _ _ HI Hl Hl' Hva Hp' Hr Hj Hr' Hj' Ha)
      as (<- & <- & <- & <-). by rewrite decide_True. }
  destruct (decide (ka + off (conf s) r j = p' + off (conf s) r' j')) as [Hb|Hb].
  { destruct (page_addr_inj _ _ _ _ _ _ _ _ _ _ _ _ _ HI Hl Hl' Hka Hp' Hr Hj Hr' Hj' Hb)
      as (<- & <- & <- & <-). by rewrite decide_True. }
  rewrite decide_False; [done|]. intros (-> & -> & ->).
  destruct side'; congruence.
Qed.

(** A new address near a tensor belongs to that tensor. *)
Lemma map_one_side side pa side' l' p :
  base_of s side l = Some pa -> 0 <= l' < nlay (conf s) -> base_of s side' l' = Some p ->
  p - page_size (conf s) < pa + off (conf s) r j < p + span (conf s) ->
  l' = l /\ p = pa.
Proof using HI Hr Hj Hl.
  intros Hpa Hl' Hp Ha. pose proof (pi_conf _ _ _ HI) as Hc.
  pose proof (off_bound _ r j Hc Hr Hj). pose proof (ok_psz _ Hc).
  destruct (decide ((side, l) = (side', l'))) as [[= <- <-]|Hne];
    [split; [done|congruence]|].
  destruct (ok_disjoint s (pi_tensors _ _ _ HI) side l pa side' l' p); done || lia.
Qed.

Lemma page_inv_map : page_inv (add_page E r j l) R s'.
Proof using HI Hms Hka Hva Hr Hj Hl HE.
  pose proof map_one_fresh as Hfresh.
  destruct Hms as [Hsc Hu Hfd Hpool Hpm Hv]. pose proof (sc_conf _ _ Hsc) as Hc.
  pose proof HI as [? ? ? Ht Hrg Hk ? Hacc Hlive Hm Hex].
  split; rewrite ?Hc, ?Hu, ?Hfd; try done.
  - eapply tensors_ok_control; [done| |done]. by rewrite Hv.
  - intros r' j' l' [H'|(-> & -> & ->)]; eauto.
  - intros key. rewrite Hpm. rewrite lookup_insert_is_Some, Hk. split.
    + intros [<-|[_ (r' & j' & l' & H' & ->)]]; [exists r, j, l | exists r', j', l'];
        unfold add_page; auto.
    + intros (r' & j' & l' & [H'|(-> & -> & ->)] & ->); [|by left].
      destruct (decide ((r, off (conf s) r j, l) = (r', off (conf s) r' j', l')));
        [by left|right; eauto 10].
  - rewrite Hpm, pages_of_insert by done. rewrite <- Hacc, Hpool.
    rewrite <- app_assoc. f_equiv. simpl. apply Permutation_swap.
  - intros x Hx. rewrite Hv. simpl. eauto.
  - intros r' j' l' kp' vp' HE' Hlk side p Hp.
    rewrite (base_of_control s s') in Hp by done.
    assert (Hrr : 0 <= r' < max_batch_size (conf s) /\
       0 <= j' < max_pages_per_req (conf s) /\ 0 <= l' < nlay (conf s))
      by (destruct HE' as [H'|(-> & -> & ->)]; eauto).
    destruct Hrr as (Hr' & Hj' & Hl').
    rewrite (map_one_lookup side l' p r' j') by done. case_decide as Hd.
    + destruct Hd as (-> & -> & ->). rewrite Hpm, lookup_insert_eq in Hlk.
      by injection Hlk as <- <-.
    + destruct HE' as [H'|]; [|done]. eapply Hm; [done| |done].
      rewrite Hpm, lookup_insert_ne in Hlk; [done|]. intros [= -> Ho ->].
      apply Hd. by destruct (off_inj (conf s) r' j r' j').
  - intros Hb side l' p a Hl' Hp Ha Hs.
    rewrite (base_of_control s s') in Hp by done. rewrite Hv in Hs. simpl in Hs.
    rewrite !lookup_insert_is_Some in Hs.
    destruct Hs as [<-|[_ [<-|[_ Hs]]]].
    + exists r, j. unfold add_page.
      destruct (map_one_side true va side l' p) as [-> ->]; [done..|]. auto.
    + exists r, j. unfold add_page.
      destruct (map_one_side false ka side l' p) as [-> ->]; [done..|]. auto.
    + destruct (Hex Hb side l' p a) as (r' & j' & ? & ->); try done.
      exists r', j'. unfold add_page. auto.
Qed.
End map_one.

(** What a backend does to unmap one page pair: the CUDA backend unmaps the
    two addresses, the UVM backend leaves the translation in place. *)
Record unmapped_step s s' (r j l kp vp ka va : Z) : Prop := {
  us_control : same_control s s';
  us_uvm : uvm_page_size s' = uvm_page_size s;
  us_fd : nvidia_uvm_fd s' = nvidia_uvm_fd s;
  us_was : pmap s !! (r, off (conf s) r j, l) = Some (kp, vp);
  us_pool : pool s' = pool s ++ [kp; vp];
  us_pmap : pmap s' = delete (r, off (conf s) r j, l) (pmap s);
  us_view : view (gpu s') =
    if is_uvm_backend (page_size (conf s)) then view (gpu s)
    else view_unmap (va + off (conf s) r j) (view_unmap (ka + off (conf s) r j) (view (gpu s)));
}.

Section unmap_one.
Context (E : pages) (R : list Z) (s s' : vstate) (r j l kp vp ka va : Z).
Context (HI : page_inv E R s) (Hus : unmapped_step s s' r j l kp vp ka va).
Context (Hka : base_of s false l = Some ka) (Hva : base_of s true l = Some va).
Context (HE : E r j l).

(** Other pages keep their translation. *)
Lemma unmap_one_lookup side' l' p' r' j' :
  E r' j' l' -> ~ (r' = r /\ j' = j /\ l' = l) -> base_of s side' l' = Some p' ->
  va_map (view (gpu s')) !! (p' + off (conf s) r' j') =
  va_map (view (gpu s)) !! (p' + off (conf s) r' j').
Proof using HI Hus Hka Hva HE.
  intros HE' Hne Hp'. rewrite (us_view _ _ _ _ _ _ _ _ _ Hus).
  destruct (is_uvm_backend (page_size (conf s))); [done|]. simpl.
  destruct (pi_range _ _ _ HI _ _ _ HE) as (Hr & Hj & Hl).
  destruct (pi_range _ _ _ HI _ _ _ HE') as (Hr' & Hj' & Hl').
  rewrite !lookup_delete_ne; [done|..]; intros Ha; apply Hne.
  - by destruct (page_addr_inj _ _ _ _ _ _ _ _ _ _ _ _ _ HI Hl Hl' Hka Hp' Hr Hj Hr' Hj' Ha)
      as (_ & <- & <- & <-).
  - by destruct (page_addr_inj _ _ _ _ _ _ _ _ _ _ _ _ _ HI Hl Hl' Hva Hp' Hr Hj Hr' Hj' Ha)
      as (_ & <- & <- & <-).
Qed.

Lemma page_inv_unmap : page_inv (del_page E r j l) R s'.
Proof using HI Hus Hka Hva HE.
  pose proof unmap_one_lookup as Hlook.
  destruct Hus as [Hsc Hu Hfd Hwas Hpool Hpm Hv]. pose proof (sc_conf _ _ Hsc) as Hc.
  pose proof HI as [Hcf ? ? Ht Hrg Hk ? Hacc Hlive Hm Hex].
  destruct (Hrg _ _ _ HE) as (Hr & Hj & Hl).
  assert (Hres : reserved (view (gpu s')) = reserved (view (gpu s)) /\
                 live (view (gpu s')) = live (view (gpu s)))
    by (rewrite Hv; by case_match).
  destruct Hres as [Hres Hlv].
  split; rewrite ?Hc, ?Hu, ?Hfd; try done.
  - by eapply tensors_ok_control.
  - intros r' j' l' [H' _]; eauto.
  - intros key. rewrite Hpm, lookup_delete_is_Some, Hk. split.
    + intros [Hne (r' & j' & l' & H' & ->)]. exists r', j', l'.
      split; [|done]. split; [done|]. intros (-> & -> & ->). done.
    + intros (r' & j' & l' & [H' Hne] & ->). split; [|eauto].
      intros [= <- Ho <-]. destruct (Hrg _ _ _ H') as (_ & Hj' & _).
      apply Hne. by destruct (off_inj (conf s) r j r j' Hcf Hj Hj' Ho) as [_ <-].
  - rewrite Hpm, Hpool, <- Hacc, (pages_of_delete (pmap s) _ kp vp Hwas).
    by rewrite <- app_assoc.
  - intros x Hx. rewrite Hlv. eauto.
  - intros r' j' l' kp' vp' [HE' Hne] Hlk side p Hp.
    rewrite (base_of_control s s') in Hp by done.
    rewrite (Hlook side l' p r' j') by done. eapply Hm; [done| |done].
    rewrite Hpm in Hlk. by apply lookup_delete_Some in Hlk as [_ Hlk].
  - intros Hb side l' p a Hl' Hp Ha Hs.
    rewrite (base_of_control s s') in Hp by done. rewrite Hv, Hb in Hs. simpl in Hs.
    rewrite !lookup_delete_is_Some in Hs. destruct Hs as (Hn1 & Hn2 & Hs).
    destruct (Hex Hb side l' p a) as (r' & j' & HE' & ->); try done.
    exists r', j'. split; [|done]. split; [done|]. intros (-> & -> & ->).
    destruct side; congruence.
Qed.
End unmap_one.
End vattn_inv.
