(* ===== verification/VattnMap.v ===== *)
(** The two backends implement the abstract mapping steps: [MAP_PAGES] and
    [UNMAP_PAGES] of mux.h preserve the page invariant and cannot fault. *)

From S2P Require Import Prelude GpuApi VattnState VattnPages VattnInit VattnAlloc VattnInv.
Local Open Scope Z_scope.
Local Open Scope cword_scope.

Section vattn_map.
Context {api : gpu_api} {torch : torch_api} {gran : Z} {laws : GpuLaws api gran}.
Implicit Types (s : vstate) (c : config).

Lemma wp_CHECK_CUDA f g' (Q : unit -> vstate -> Prop) F s :
  f (gpu s) = (CUDA_SUCCESS, g') -> Q tt (set_gpu g' s) -> wp (CHECK_CUDA f) Q F s.
Proof.
  intros Hf HQ. unfold CHECK_CUDA. wp_steps. rewrite Hf. wp_steps. by apply wp_guard.
Qed.

Lemma wp_vattn_mem_map a p g' st pg (Q : unit -> vstate -> Prop) F s :
  ioctl (gpu s) (nvidia_uvm_fd s) (MemMap a p (cached_uuid s) (uvm_page_size s))
    = (IoctlReply 0 st pg, g') ->
  Q tt (set_gpu g' s) -> wp (CHECK_VATTN (vattn_mem_map a p)) Q F s.
Proof.
  intros Hf HQ. unfold CHECK_VATTN, vattn_mem_map, do_ioctl. wp_steps.
  rewrite Hf. wp_steps. by apply wp_guard.
Qed.

Lemma wp_pop_cuda_page p l (Q : Z -> vstate -> Prop) F s :
  cuda_pages s = l ++ [p] -> Q p (set_cuda_pages l s) -> wp pop_cuda_page Q F s.
Proof.
  intros Hl HQ. unfold pop_cuda_page. wp_steps.
  destruct (pop_back_some (cuda_pages s)) as (p' & l' & Hp);
    [rewrite Hl, length_app; simpl; lia|].
  eapply wp_of_option; [done|]. wp_steps. simpl.
  apply pop_back_spec in Hp. rewrite Hl in Hp. by apply app_inj_tail in Hp as [<- <-].
Qed.

Lemma wp_pop_uvm_page p l (Q : Z -> vstate -> Prop) F s :
  uvm_pages s = l ++ [p] -> Q p (set_uvm_pages l s) -> wp pop_uvm_page Q F s.
Proof.
  intros Hl HQ. unfold pop_uvm_page. wp_steps.
  destruct (pop_back_some (uvm_pages s)) as (p' & l' & Hp);
    [rewrite Hl, length_app; simpl; lia|].
  eapply wp_of_option; [done|]. wp_steps. simpl.
  apply pop_back_spec in Hp. rewrite Hl in Hp. by apply app_inj_tail in Hp as [<- <-].
Qed.

Lemma split_last_two (l : list Z) :
  (2 <= length l)%nat -> exists l' vp kp, l = l' ++ [vp; kp].
Proof.
  intros H. destruct (pop_back_some l) as (k & l1 & H1%pop_back_spec); [lia|].
  subst. rewrite length_app in H. simpl in H.
  destruct (pop_back_some l1) as (v & l2 & H2%pop_back_spec); [lia|].
  subst. exists l2, v, k. by rewrite <- app_assoc.
Qed.

Lemma pool_page_live E R s p :
  page_inv E R s -> p ∈ pool s -> p ∈ live (view (gpu s)).
Proof.
  intros HI Hp. apply (pi_live _ _ _ HI). rewrite <- (pi_account _ _ _ HI).
  apply elem_of_app. by left.
Qed.

(** Pages of the CUDA backend are aligned. *)
Lemma tensor_page_aligned E R s side l p r j :
  page_inv E R s -> is_uvm_backend (page_size (conf s)) = false -> 0 <= l < nlay (conf s) ->
  base_of s side l = Some p -> (p + off (conf s) r j) mod gran = 0.
Proof.
  intros HI Hb Hl Hp. pose proof (ok_aligned s (pi_tensors _ _ _ HI) side l p Hb Hl Hp) as Ha.
  pose proof (ok_psz _ (pi_conf _ _ _ HI)) as Hg. rewrite (pi_gran _ _ _ HI) in Ha, Hg.
  unfold off. rewrite (pi_gran _ _ _ HI). rewrite Z.mod_add by lia. done.
Qed.

(** The two addresses of one page pair do not meet. *)
Lemma kv_addr_apart E R s l ka va r j :
  page_inv E R s -> 0 <= l < nlay (conf s) ->
  base_of s false l = Some ka -> base_of s true l = Some va ->
  0 <= r < max_batch_size (conf s) -> 0 <= j < max_pages_per_req (conf s) ->
  ka + off (conf s) r j + gran <= va + off (conf s) r j \/
  va + off (conf s) r j + gran <= ka + off (conf s) r j.
Proof.
  intros HI Hl Hka Hva Hr Hj. pose proof (pi_conf _ _ _ HI) as Hc.
  pose proof (off_bound _ r j Hc Hr Hj). pose proof (pi_gran _ _ _ HI).
  destruct (ok_disjoint s (pi_tensors _ _ _ HI) false l ka true l va); done || lia.
Qed.

(** ** Mapping *)

Section map_pages.
Context (E : Z -> Z -> Z -> Prop) (R : list Z) (s : vstate) (r j l ka va : Z).
Context (HI : page_inv E R s).
Context (Hka : base_of s false l = Some ka) (Hva : base_of s true l = Some va).
Context (Hr : 0 <= r < max_batch_size (conf s)).
Context (Hj : 0 <= j < max_pages_per_req (conf s)).
Context (Hl : 0 <= l < nlay (conf s)).
Context (rest : list Z) (kp vp : Z) (Hpool : pool s = rest ++ [vp; kp]).
Context (Q : unit -> vstate -> Prop) (F : fault -> vstate -> Prop).
Context (HQ : forall s', mapped_step s s' r j l kp vp ka va -> Q tt s').

Lemma popped_live : kp ∈ live (view (gpu s)) /\ vp ∈ live (view (gpu s)).
Proof using HI Hpool.
  split; (eapply pool_page_live; [done|]); rewrite Hpool;
    apply elem_of_app; right; apply list_elem_of_In; simpl; auto.
Qed.

Lemma wp_MAP_PAGES_uvm :
  is_uvm_backend (page_size (conf s)) = true ->
  wp (MAP_PAGES r l (off (conf s) r j) ka va (page_size (conf s))) Q F s.
Proof using HI Hka Hva Hr Hj Hl Hpool HQ.
  intros Hb. destruct popped_live as [Hkl Hvl]. pose proof (pi_gran _ _ _ HI) as Hg.
  destruct (tensor_addr _ _ _ _ _ _ _ _ HI Hl Hka Hr Hj) as [Hku Hkr].
  destruct (tensor_addr _ _ _ _ _ _ _ _ HI Hl Hva Hr Hj) as [Hvu Hvr].
  destruct (pi_uvm _ _ _ HI) as [[Hpsz Hfd]|]; [|congruence].
  unfold MAP_PAGES. pose proof Hpool as Hp. unfold pool in Hp. rewrite Hb in *. simpl.
  destruct (ioctl_map_law (gpu s) (nvidia_uvm_fd s) (ka + off (conf s) r j) kp
              (cached_uuid s) Hfd Hkr Hkl) as (g1 & st1 & pg1 & Hm1 & Hv1).
  destruct (ioctl_map_law g1 (nvidia_uvm_fd s) (va + off (conf s) r j) vp
              (cached_uuid s) Hfd) as (g2 & st2 & pg2 & Hm2 & Hv2);
    [unfold in_reservation; rewrite Hv1; exact Hvr | by rewrite Hv1 |].
  wp_steps. apply (wp_pop_uvm_page kp (rest ++ [vp])); [by rewrite <- app_assoc|].
  wp_steps. apply (wp_pop_uvm_page vp rest); [done|].
  unfold map_uvm_pages. rewrite Hku, Hvu. wp_steps.
  eapply wp_vattn_mem_map; [simpl; rewrite Hpsz, Hg; exact Hm1|].
  wp_steps. eapply wp_vattn_mem_map; [simpl; rewrite Hpsz, Hg; exact Hm2|].
  wp_steps. apply HQ. split; [done|done|done|..]; unfold pool, pmap; simpl;
    rewrite ?Hb; [done|done|]. by rewrite Hv2, Hv1.
Qed.

Lemma wp_MAP_PAGES_cuda :
  is_uvm_backend (page_size (conf s)) = false -> ~ E r j l ->
  wp (MAP_PAGES r l (off (conf s) r j) ka va (page_size (conf s))) Q F s.
Proof using HI Hka Hva Hr Hj Hl Hpool HQ.
  intros Hb HE. destruct popped_live as [Hkl Hvl]. pose proof (pi_gran _ _ _ HI) as Hg.
  destruct (tensor_addr _ _ _ _ _ _ _ _ HI Hl Hka Hr Hj) as [Hku Hkr].
  destruct (tensor_addr _ _ _ _ _ _ _ _ HI Hl Hva Hr Hj) as [Hvu Hvr].
  pose proof (kv_addr_apart _ _ _ _ _ _ _ _ HI Hl Hka Hva Hr Hj) as Hap.
  unfold MAP_PAGES. pose proof Hpool as Hp. unfold pool in Hp. rewrite Hb in Hp.
  destruct (cuMemMap_law (gpu s) (ka + off (conf s) r j) kp) as (g1 & Hm1 & Hv1);
    [by eapply (tensor_page_aligned E R s false)|done|by eapply unmapped_free|done|].
  destruct (cuMemMap_law g1 (va + off (conf s) r j) vp) as (g2 & Hm2 & Hv2);
    [by eapply (tensor_page_aligned E R s true)|unfold in_reservation; rewrite Hv1; exact Hvr | | by rewrite Hv1 |].
  { intros q. rewrite Hv1. simpl. rewrite lookup_insert_is_Some.
    intros [<-|[_ Hq]]; [lia|]. by eapply (unmapped_free E R s true l va r j). }
  destruct (cuMemSetAccess_law g2 (ka + off (conf s) r j)) as (g3 & Hm3 & Hv3).
  { rewrite Hv2, Hv1. simpl. rewrite lookup_insert. case_decide; [by eexists|].
    rewrite lookup_insert_eq. by eexists. }
  destruct (cuMemSetAccess_law g3 (va + off (conf s) r j)) as (g4 & Hm4 & Hv4).
  { rewrite Hv3, Hv2. simpl. rewrite lookup_insert_eq. by eexists. }
  rewrite Hb. simpl.
  wp_steps. apply (wp_pop_cuda_page kp (rest ++ [vp])); [by rewrite <- app_assoc|].
  wp_steps. apply (wp_pop_cuda_page vp rest); [done|].
  unfold map_cuda_pages. rewrite Hku, Hvu. wp_steps. simpl. rewrite Hg.
  do 4 (eapply wp_CHECK_CUDA; [eassumption|]; wp_steps).
  apply HQ. split; [done|done|done|..]; unfold pool, pmap; simpl;
    rewrite ?Hb; [done|done|]. by rewrite Hv4, Hv3, Hv2, Hv1.
Qed.
End map_pages.

Lemma wp_MAP_PAGES E R s r j l ka va (Q : unit -> vstate -> Prop) F :
  page_inv E R s -> base_of s false l = Some ka -> base_of s true l = Some va ->
  0 <= r < max_batch_size (conf s) -> 0 <= j < max_pages_per_req (conf s) ->
  0 <= l < nlay (conf s) -> ~ E r j l -> (2 <= length (pool s))%nat ->
  (forall s' kp vp, mapped_step s s' r j l kp vp ka va -> Q tt s') ->
  wp (MAP_PAGES r l (off (conf s) r j) ka va (page_size (conf s))) Q F s.
Proof.
  intros HI Hka Hva Hr Hj Hl HE Hlen HQ.
  destruct (split_last_two _ Hlen) as (rest & vp & kp & Hpool).
  destruct (is_uvm_backend (page_size (conf s))) eqn:Hb;
    [eapply wp_MAP_PAGES_uvm | eapply wp_MAP_PAGES_cuda]; eauto.
Qed.

(** ** Unmapping *)

Lemma wp_UNMAP_PAGES E R s r j l ka va (Q : unit -> vstate -> Prop) F :
  page_inv E R s -> base_of s false l = Some ka -> base_of s true l = Some va ->
  E r j l ->
  (forall s' kp vp, unmapped_step s s' r j l kp vp ka va -> Q tt s') ->
  wp (UNMAP_PAGES r l (off (conf s) r j) ka va (page_size (conf s))) Q F s.
Proof.
  intros HI Hka Hva HE HQ. destruct (pi_range _ _ _ HI _ _ _ HE) as (Hr & Hj & Hl).
  destruct (tensor_addr _ _ _ _ _ _ _ _ HI Hl Hka Hr Hj) as [Hku _].
  destruct (tensor_addr _ _ _ _ _ _ _ _ HI Hl Hva Hr Hj) as [Hvu _].
  destruct (proj2 (pmap_key_E _ _ _ r j l HI Hj) HE) as [[kp vp] Hlk].
  pose proof (pi_mapped _ _ _ HI _ _ _ _ _ HE Hlk) as Hm.
  pose proof (Hm false ka Hka) as Hmk. pose proof (Hm true va Hva) as Hmv.
  pose proof (pi_gran _ _ _ HI) as Hg. simpl in Hmk, Hmv.
  unfold UNMAP_PAGES. pose proof Hlk as Hlk'. unfold pmap in Hlk'.
  destruct (is_uvm_backend (page_size (conf s))) eqn:Hb; simpl.
  - wp_steps. apply (HQ _ kp vp). split; unfold pool, pmap; simpl; rewrite ?Hb; try done.
    unfold pagemap_at. by rewrite Hlk'.
  - destruct (cuMemUnmap_law (gpu s) (ka + off (conf s) r j)) as (g1 & Hu1 & Hv1);
      [by eexists|].
    destruct (cuMemUnmap_law g1 (va + off (conf s) r j)) as (g2 & Hu2 & Hv2).
    { rewrite Hv1. simpl. rewrite lookup_delete_ne; [by eexists|].
      pose proof (kv_addr_apart _ _ _ _ _ _ _ _ HI Hl Hka Hva Hr Hj).
      pose proof (ok_psz _ (pi_conf _ _ _ HI)). lia. }
    rewrite Hku, Hvu, Hg. wp_steps.
    do 2 (eapply wp_CHECK_CUDA; [eassumption|]; wp_steps).
    apply (HQ _ kp vp). split; unfold pool, pmap; simpl; rewrite ?Hb; try done.
    + unfold pagemap_at. by rewrite Hlk'.
    + by rewrite Hv2, Hv1.
Qed.
End vattn_map.
