(* ===== verification/VattnGrow.v ===== *)
(** Growing and shrinking one request: the block-level operations preserve
    the invariant and change exactly one counter. *)

From S2P Require Import Prelude GpuApi VattnState VattnPages VattnInit VattnAlloc VattnInv VattnMap.
Local Open Scope Z_scope.
Local Open Scope cword_scope.

Section vattn_grow.
Context {api : gpu_api} {torch : torch_api} {gran : Z} {laws : GpuLaws api gran}.
Implicit Types (s : vstate) (c : config).

(** The invariant depends on the set of mapped pages up to equivalence. *)
Lemma page_inv_equiv E E' R s :
  page_inv E R s -> (forall r j l, E r j l <-> E' r j l) -> page_inv E' R s.
Proof.
  intros [H1 H2 H3 H4 H5 H6 H7 H8 H9 H10 H11] HE. split; try done.
  - intros r j l H. apply H5, HE, H.
  - intros key. rewrite H6.
    split; intros (r & j & l & H & ->); exists r, j, l; (split; [by apply HE|done]).
  - intros r j l kp vp H. by apply H10, HE.
  - intros Hb side l p a Hl Hp Ha Hs.
    destruct (H11 Hb side l p a) as (r & j & H & ->); try done.
    exists r, j. split; [by apply HE|done].
Qed.

#[export] Instance page_inv_proper :
  Proper (pointwise_relation Z (pointwise_relation Z (pointwise_relation Z iff)) ==>
          eq ==> eq ==> iff) (page_inv (api:=api) (laws:=laws)).
Proof.
  intros E E' HE R ? <- s ? <-. split; intros H; eapply page_inv_equiv; try done.
  intros r j l. symmetry. apply HE.
Qed.

(** All of the state but the page counters, the pool, the page map and the
    GPU. *)
Record same_frame s s' : Prop := {
  sf_conf : conf s' = conf s;
  sf_kt : k_tensors s' = k_tensors s;
  sf_vt : v_tensors s' = v_tensors s;
  sf_seq : curr_seq_lengths s' = curr_seq_lengths s;
  sf_def : deferred_reclaim s' = deferred_reclaim s;
  sf_run : mem_manager_running s' = mem_manager_running s;
}.
Lemma same_frame_refl s : same_frame s s.
Proof. done. Qed.
Lemma same_frame_trans s1 s2 s3 : same_frame s1 s2 -> same_frame s2 s3 -> same_frame s1 s3.
Proof. intros [] []. split; congruence. Qed.
Lemma control_frame s s' : same_control s s' -> same_frame s s'.
Proof. intros []. done. Qed.

(** Request [r] goes from [n] to [n'] pages and nothing else changes. *)
Record resized s s' (r n n' : Z) : Prop := {
  rs_frame : same_frame s s';
  rs_mapped : mapped_pages s' = setZ (mapped_pages s) r n';
  rs_pool : Z.of_nat (length (pool s')) =
            Z.of_nat (length (pool s)) + 2 * nlay (conf s) * (n - n');
}.

Lemma Inv_mapped R s r :
  Inv R s -> 0 <= r < max_batch_size (conf s) ->
  exists n, nthZ (mapped_pages s) r = Some n /\ 0 <= n <= max_pages_per_req (conf s).
Proof.
  intros [Hc _] Hr. destruct (nthZ_is_Some (mapped_pages s) r) as [n Hn].
  { by rewrite (co_mapped_len _ Hc). }
  exists n. split; [done|]. by apply (co_mapped _ Hc r).
Qed.

Lemma Inv_seq R s r :
  Inv R s -> 0 <= r < max_batch_size (conf s) ->
  exists n, nthZ (curr_seq_lengths s) r = Some n /\ seq_len_ok n.
Proof.
  intros [Hc _] Hr. destruct (nthZ_is_Some (curr_seq_lengths s) r) as [n Hn].
  { by rewrite (co_seq_len _ Hc). }
  exists n. split; [done|].
  apply nthZ_elem in Hn. by apply (proj1 (Forall_forall _ _) (co_seqs _ Hc)).
Qed.

Lemma setZ_id (l : list Z) i x : nthZ l i = Some x -> setZ l i x = l.
Proof.
  unfold nthZ, setZ. destruct (0 <=? i); [|done]. apply list_insert_id.
Qed.
Lemma setZ_setZ (l : list Z) i x y : setZ (setZ l i x) i y = setZ l i y.
Proof. unfold setZ. destruct (0 <=? i); [|done]. apply list_insert_insert_eq. Qed.
Lemma nthZ_setZ (l : list Z) i j x n :
  nthZ l i = Some n -> nthZ (setZ l i x) j = if decide (i = j) then Some x else nthZ l j.
Proof.
  intros H%nthZ_lt. case_decide; subst; [by apply nthZ_setZ_eq|by apply nthZ_setZ_ne].
Qed.

Lemma resized_refl s r n : nthZ (mapped_pages s) r = Some n -> resized s s r n n.
Proof. intros H. split; [done|by rewrite setZ_id|lia]. Qed.

Lemma resized_trans s1 s2 s3 r n1 n2 n3 :
  resized s1 s2 r n1 n2 -> resized s2 s3 r n2 n3 -> resized s1 s3 r n1 n3.
Proof.
  intros [F1 M1 P1] [F2 M2 P2]. split.
  - by eapply same_frame_trans.
  - by rewrite M2, M1, setZ_setZ.
  - rewrite P2, P1, (sf_conf _ _ F1). lia.
Qed.

Lemma resized_lookup s s' r n n' r' :
  nthZ (mapped_pages s) r = Some n -> resized s s' r n n' ->
  nthZ (mapped_pages s') r' = if decide (r = r') then Some n' else nthZ (mapped_pages s) r'.
Proof. intros H [_ M _]. rewrite M. by eapply nthZ_setZ. Qed.

Lemma counters_resized s s' r n n' :
  counters_ok s -> nthZ (mapped_pages s) r = Some n -> resized s s' r n n' ->
  0 <= n' <= max_pages_per_req (conf s) -> counters_ok s'.
Proof.
  intros Hc Hn Hs Hn'. pose proof (rs_frame _ _ _ _ _ Hs) as Hf.
  split; rewrite ?(sf_conf _ _ Hf), ?(sf_seq _ _ Hf).
  - rewrite (rs_mapped _ _ _ _ _ Hs), length_setZ. apply Hc.
  - apply Hc.
  - intros r' m. rewrite (resized_lookup s s' r n n' r') by done.
    case_decide; [intros [= <-]; done|apply Hc].
  - apply Hc.
Qed.

(** Offsets as the code computes them. *)
Lemma wp_get_req_current_map_offset R s r n (Q : Z -> vstate -> Prop) F :
  Inv R s -> nthZ (mapped_pages s) r = Some n ->
  Q (off (conf s) r n) s -> wp (get_req_current_map_offset r) Q F s.
Proof.
  intros HI Hn HQ. pose proof (pi_conf _ _ _ (inv_pages _ _ HI)) as Hc.
  pose proof (nthZ_lt _ _ _ Hn) as Hr. rewrite (co_mapped_len _ (inv_counters _ _ HI)) in Hr.
  pose proof (co_mapped _ (inv_counters _ _ HI) _ _ Hn) as Hnb.
  pose proof (ok_psz _ Hc). pose proof (ok_maxp _ Hc). pose proof (ok_span _ Hc) as Hsp.
  unfold get_req_current_map_offset, get_req_begin_offset_virt. wp_steps.
  eapply wp_get_req_pages; [done|]. wp_steps. rewrite (ok_per_req _ Hc).
  assert (Hb : (r * max_pages_per_req (conf s) + n) * page_size (conf s) <= span (conf s)).
  { unfold span. apply Z.mul_le_mono_nonneg_r; nia. }
  rewrite (u64_small (r * _)) by (unfold is_u64; nia).
  rewrite (u64_small (n * _)) by (unfold is_u64; nia).
  rewrite u64_small by (unfold is_u64; nia).
  replace (r * _ + n * _) with (off (conf s) r n) by (unfold off; ring). exact HQ.
Qed.

Lemma wp_get_req_current_unmap_offset R s r n (Q : Z -> vstate -> Prop) F :
  Inv R s -> nthZ (mapped_pages s) r = Some n -> 0 < n ->
  Q (off (conf s) r (n - 1)) s -> wp (get_req_current_unmap_offset r) Q F s.
Proof.
  intros HI Hn Hpos HQ. pose proof (pi_conf _ _ _ (inv_pages _ _ HI)) as Hc.
  pose proof (nthZ_lt _ _ _ Hn) as Hr. rewrite (co_mapped_len _ (inv_counters _ _ HI)) in Hr.
  pose proof (co_mapped _ (inv_counters _ _ HI) _ _ Hn) as Hnb.
  pose proof (ok_psz _ Hc). pose proof (ok_maxp _ Hc). pose proof (ok_span _ Hc) as Hsp.
  unfold get_req_current_unmap_offset, get_req_begin_offset_virt. wp_steps.
  eapply wp_get_req_pages; [done|]. wp_steps.
  apply wp_guard; [by apply Z.ltb_lt|]. wp_steps. rewrite (ok_per_req _ Hc).
  assert (Hb : (r * max_pages_per_req (conf s) + n) * page_size (conf s) <= span (conf s)).
  { unfold span. apply Z.mul_le_mono_nonneg_r; nia. }
  rewrite (u64_small (r * _)) by (unfold is_u64; nia).
  rewrite (u64_small (n - 1)) by (unfold is_u64; nia).
  rewrite (u64_small ((n - 1) * _)) by (unfold is_u64; nia).
  rewrite u64_small by (unfold is_u64; nia).
  replace (r * _ + (n - 1) * _) with (off (conf s) r (n - 1)) by (unfold off; ring). exact HQ.
Qed.

Lemma tensor_bases E R s l :
  page_inv E R s -> 0 <= l < nlay (conf s) ->
  exists ka va, base_of s false l = Some ka /\ base_of s true l = Some va.
Proof.
  intros HI Hl. destruct (ok_base s (pi_tensors _ _ _ HI) false l Hl) as (ka & ? & _).
  destruct (ok_base s (pi_tensors _ _ _ HI) true l Hl) as (va & ? & _). eauto.
Qed.

(** The layers of page [j] of request [r] mapped (resp. still mapped) when
    the loop over the layers is at [l]. *)
Definition with_layers (E : Z -> Z -> Z -> Prop) (r j l : Z) : Z -> Z -> Z -> Prop :=
  fun r' j' l' => E r' j' l' \/ (r' = r /\ j' = j /\ 0 <= l' < l).
Definition without_layers (E : Z -> Z -> Z -> Prop) (r j l : Z) : Z -> Z -> Z -> Prop :=
  fun r' j' l' => E r' j' l' /\ ~ (r' = r /\ j' = j /\ 0 <= l' < l).

(** Mapping one block: every layer gets its K and V page. *)
Lemma wp_map_layers E R s r j (Q : unit -> vstate -> Prop) F :
  page_inv E R s -> 0 <= r < max_batch_size (conf s) ->
  0 <= j < max_pages_per_req (conf s) -> (forall l, ~ E r j l) ->
  2 * nlay (conf s) <= Z.of_nat (length (pool s)) ->
  (forall s', page_inv (with_layers E r j (nlay (conf s))) R s' -> same_control s s' ->
     Z.of_nat (length (pool s')) = Z.of_nat (length (pool s)) - 2 * nlay (conf s) -> Q tt s') ->
  wp (for_each (layers_of (conf s)) (fun layer_idx =>
        kv <- tensor_ptrs layer_idx ;;
        MAP_PAGES r layer_idx (off (conf s) r j) (fst kv) (snd kv) (page_size (conf s)))) Q F s.
Proof.
  intros HI Hr Hj HE Hpool HQ. rewrite layers_of_nlay.
  pose proof (nlay_pos _ (pi_conf _ _ _ HI)).
  apply (wp_for_up (fun l s' => page_inv (with_layers E r j l) R s' /\ same_control s s' /\
    Z.of_nat (length (pool s')) = Z.of_nat (length (pool s)) - 2 * l)); [lia|..].
  - split; [|split; [done|lia]]. eapply page_inv_equiv; [exact HI|].
    intros r' j' l'. unfold with_layers. intuition lia.
  - intros l s1 Hl (HI1 & Hsc & Hlen). pose proof (sc_conf _ _ Hsc) as Hc.
    destruct (tensor_bases _ _ _ l HI1) as (ka & va & Hka & Hva); [by rewrite Hc|].
    wp_steps. eapply wp_tensor_ptrs; [done..|]. simpl.
    assert (Hn : ~ with_layers E r j l r j l) by (intros [H'%HE|]; lia || done).
    rewrite <- Hc. eapply (wp_MAP_PAGES _ R); rewrite ?Hc; try done; [lia|].
    intros s2 kp vp Hms. pose proof (ms_control _ _ _ _ _ _ _ _ _ Hms) as Hsc2.
    split; [|split].
    + eapply page_inv_equiv.
      1: { eapply (page_inv_map _ R s1 s2 r j l kp vp ka va); rewrite ?Hc; try done; lia. }
      intros r' j' l'. unfold with_layers, add_page. intuition lia.
    + by eapply same_control_trans.
    + rewrite (ms_pool _ _ _ _ _ _ _ _ _ Hms), length_app in Hlen. simpl in Hlen. lia.
  - intros s' (? & ? & ?). by apply HQ.
Qed.

Lemma wp_unmap_layers E R s r j (Q : unit -> vstate -> Prop) F :
  page_inv E R s -> (forall l, 0 <= l < nlay (conf s) -> E r j l) ->
  (forall s', page_inv (without_layers E r j (nlay (conf s))) R s' -> same_control s s' ->
     Z.of_nat (length (pool s')) = Z.of_nat (length (pool s)) + 2 * nlay (conf s) -> Q tt s') ->
  wp (for_each (layers_of (conf s)) (fun layer_idx =>
        kv <- tensor_ptrs layer_idx ;;
        UNMAP_PAGES r layer_idx (off (conf s) r j) (fst kv) (snd kv) (page_size (conf s)))) Q F s.
Proof.
  intros HI HE HQ. rewrite layers_of_nlay.
  pose proof (nlay_pos _ (pi_conf _ _ _ HI)).
  apply (wp_for_up (fun l s' => page_inv (without_layers E r j l) R s' /\ same_control s s' /\
    Z.of_nat (length (pool s')) = Z.of_nat (length (pool s)) + 2 * l)); [lia|..].
  - split; [|split; [done|lia]]. eapply page_inv_equiv; [exact HI|].
    intros r' j' l'. unfold without_layers. intuition lia.
  - intros l s1 Hl (HI1 & Hsc & Hlen). pose proof (sc_conf _ _ Hsc) as Hc.
    destruct (tensor_bases _ _ _ l HI1) as (ka & va & Hka & Hva); [by rewrite Hc|].
    wp_steps. eapply wp_tensor_ptrs; [done..|]. simpl.
    assert (Hn : without_layers E r j l r j l) by (split; [apply HE|]; lia).
    rewrite <- Hc. eapply (wp_UNMAP_PAGES _ R); rewrite ?Hc; try done.
    intros s2 kp vp Hus. pose proof (us_control _ _ _ _ _ _ _ _ _ Hus) as Hsc2.
    split; [|split].
    + eapply page_inv_equiv.
      1: { by eapply (page_inv_unmap _ R s1 s2 r j l kp vp ka va). }
      intros r' j' l'. unfold without_layers, del_page. intuition lia.
    + by eapply same_control_trans.
    + rewrite (us_pool _ _ _ _ _ _ _ _ _ Hus), length_app. simpl. lia.
  - intros s' (? & ? & ?). by apply HQ.
Qed.

Lemma page_inv_set_mapped E R s x : page_inv E R s -> page_inv E R (set_mapped_pages x s).
Proof. intros [? ? ? [? ?] ? ? ? ? ? ? ?]. split; try done. Qed.

Lemma page_inv_set_seq E R s x : page_inv E R s -> page_inv E R (set_seq_lengths x s).
Proof. intros [? ? ? [? ?] ? ? ? ? ? ? ?]. split; try done. Qed.

(** Changing the counter of [r] turns the invariant for "one block more (or
    less)" back into [Inv]. *)
Lemma Inv_resize R s s1 r n n' :
  Inv R s -> nthZ (mapped_pages s) r = Some n -> 0 <= n' <= max_pages_per_req (conf s) ->
  same_control s s1 ->
  page_inv (fun r' j l => 0 <= l < nlay (conf s) /\
    exists m, nthZ (setZ (mapped_pages s) r n') r' = Some m /\ 0 <= j < m) R s1 ->
  Z.of_nat (length (pool s1)) = Z.of_nat (length (pool s)) + 2 * nlay (conf s) * (n - n') ->
  let s2 := set_mapped_pages (setZ (mapped_pages s1) r n') s1 in
  Inv R s2 /\ resized s s2 r n n'.
Proof.
  intros [Hct HI] Hn Hn' Hsc HI1 Hlen s2.
  assert (Hrs : resized s s2 r n n').
  { split; [destruct Hsc; done| |done]. simpl. by rewrite (sc_mapped _ _ Hsc). }
  split; [|done]. split; [by eapply counters_resized|].
  eapply page_inv_equiv; [by apply page_inv_set_mapped|].
  intros r' j l. unfold prefix_pages. simpl.
  by rewrite (sc_conf _ _ Hsc), (sc_mapped _ _ Hsc).
Qed.

Lemma wp_unmap_req_page_one R s r n (Q : unit -> vstate -> Prop) F :
  Inv R s -> nthZ (mapped_pages s) r = Some n -> 0 < n ->
  (forall s', Inv R s' -> resized s s' r n (n - 1) -> Q tt s') ->
  wp (unmap_req_page_one r) Q F s.
Proof.
  intros HI Hn Hpos HQ. pose proof (co_mapped _ (inv_counters _ _ HI) _ _ Hn) as Hb.
  pose proof (pi_conf _ _ _ (inv_pages _ _ HI)) as Hc.
  unfold unmap_req_page_one. wp_steps.
  eapply wp_get_req_current_unmap_offset; [done..|]. wp_steps.
  eapply wp_unmap_layers; [apply HI|..].
  { intros l Hl. split; [done|]. exists n. split; [done|lia]. }
  intros s1 HI1 Hsc Hlen. unfold dec_req_page_count. wp_steps.
  eapply wp_get_req_pages; [by rewrite (sc_mapped _ _ Hsc)|]. wp_steps.
  pose proof (maxp_u64 _ Hc). rewrite u64_small by (unfold is_u64; lia).
  destruct (Inv_resize R s s1 r n (n - 1)) as [HI2 Hrs]; try done; [lia| |lia|by apply HQ].
  eapply page_inv_equiv; [exact HI1|].
  intros r' j l. unfold without_layers, prefix_pages.
  setoid_rewrite (nthZ_setZ _ r r' (n - 1) n Hn).
  case_decide as Hd; [subst r'|].
  2: { split; [by intros [? _]|]. intros H'; split; [done|]. by intros (-> & _). }
  split; intros [Hl Hx].
  - split; [apply Hl|]. destruct Hl as [Hl (m & Hm & Hj)].
    exists (n - 1). split; [done|]. rewrite Hn in Hm. injection Hm as <-. lia.
  - destruct Hx as (m & [= <-] & ?). split; [split; [done|exists n; split; [done|lia]]|lia].
Qed.

Lemma wp_release_kvcache_pages_some R s r n retain (Q : unit -> vstate -> Prop) F :
  Inv R s -> nthZ (mapped_pages s) r = Some n -> 0 <= retain ->
  (forall s', Inv R s' -> resized s s' r n (Z.min n retain) -> Q tt s') ->
  wp (release_kvcache_pages_some r retain) Q F s.
Proof.
  intros HI Hn Hret HQ. pose proof (co_mapped _ (inv_counters _ _ HI) _ _ Hn) as Hb.
  unfold release_kvcache_pages_some. wp_steps. eapply wp_get_req_pages; [done|].
  set (cnt := fun s' => default 0 (nthZ (mapped_pages s') r)).
  apply (wp_while (fun s' => Inv R s' /\ exists m, Z.min n retain <= m <= n /\
      nthZ (mapped_pages s') r = Some m /\ resized s s' r n m) cnt).
  - split; [done|]. exists n. split; [lia|]. split; [done|]. by apply resized_refl.
  - unfold cnt. rewrite Hn. simpl. lia.
  - intros s' (HI' & m & Hm & Hnm & Hrs). wp_steps. eapply wp_get_req_pages; [done|].
    wp_steps. split; [done|]. destruct (Z.ltb_spec retain m) as [Hlt|Hge].
    + split; [unfold cnt; rewrite Hnm; simpl; lia|].
      eapply wp_unmap_req_page_one; [done..|lia|]. intros s2 HI2 Hrs2.
      assert (H2 : nthZ (mapped_pages s2) r = Some (m - 1)).
      { rewrite (resized_lookup s' s2 r m (m - 1) r) by done. by rewrite decide_True. }
      split; [|unfold cnt; rewrite H2, Hnm; simpl; lia].
      split; [done|]. exists (m - 1). split; [lia|]. split; [done|].
      by eapply resized_trans.
    + apply HQ; [done|]. replace (Z.min n retain) with m by lia. done.
Qed.

Lemma wp_is_valid_offset R s r n sync (Q : bool -> vstate -> Prop) F :
  Inv R s -> nthZ (mapped_pages s) r = Some n ->
  Q (n <? max_pages_per_req (conf s)) s -> wp (is_valid_offset r (off (conf s) r n) sync) Q F s.
Proof.
  intros HI Hn HQ. pose proof (pi_conf _ _ _ (inv_pages _ _ HI)) as Hc.
  pose proof (nthZ_lt _ _ _ Hn) as Hr. rewrite (co_mapped_len _ (inv_counters _ _ HI)) in Hr.
  pose proof (ok_psz _ Hc). pose proof (ok_maxp _ Hc). pose proof (ok_span _ Hc) as Hsp.
  unfold is_valid_offset. wp_steps. rewrite (ok_per_req _ Hc).
  assert (Hle : (r + 1) * (max_pages_per_req (conf s) * page_size (conf s)) <= span (conf s)).
  { unfold span. rewrite Z.mul_assoc. apply Z.mul_le_mono_nonneg_r; nia. }
  rewrite u64_small by (unfold is_u64; nia).
  replace (off (conf s) r n <? _) with (n <? max_pages_per_req (conf s)).
  { destruct (n <? _); [by apply wp_ret|]. by destruct sync; apply wp_ret. }
  unfold off. rewrite Z.mul_assoc.
  destruct (Z.ltb_spec n (max_pages_per_req (conf s))); symmetry;
    [apply Z.ltb_lt|apply Z.ltb_ge]; nia.
Qed.

Lemma wp_grow_one_block R s r n sync (Q : bool -> vstate -> Prop) F :
  Inv R s -> nthZ (mapped_pages s) r = Some n ->
  2 * nlay (conf s) <= Z.of_nat (length (pool s)) ->
  (n = max_pages_per_req (conf s) -> Q true s) ->
  (forall s', n < max_pages_per_req (conf s) -> Inv R s' -> resized s s' r n (n + 1) ->
     Q false s') ->
  wp (grow_one_block r sync) Q F s.
Proof.
  intros HI Hn Hpool HQ1 HQ2. pose proof (co_mapped _ (inv_counters _ _ HI) _ _ Hn) as Hb.
  pose proof (pi_conf _ _ _ (inv_pages _ _ HI)) as Hc.
  unfold grow_one_block. wp_steps. eapply wp_get_req_current_map_offset; [done..|].
  wp_steps. eapply wp_is_valid_offset; [done..|].
  destruct (Z.ltb_spec n (max_pages_per_req (conf s))) as [Hlt|]; simpl;
    [|apply wp_ret, HQ1; lia].
  pose proof (nthZ_lt _ _ _ Hn) as Hr. rewrite (co_mapped_len _ (inv_counters _ _ HI)) in Hr.
  wp_steps. eapply wp_map_layers; [apply HI|done|lia| |done|].
  { intros l [_ (m & Hm & Hj)]. rewrite Hn in Hm. injection Hm as <-. lia. }
  intros s1 HI1 Hsc Hlen. unfold inc_req_page_count. wp_steps.
  eapply wp_get_req_pages; [by rewrite (sc_mapped _ _ Hsc)|]. wp_steps.
  pose proof (maxp_u64 _ Hc). rewrite u64_small by (unfold is_u64; lia).
  destruct (Inv_resize R s s1 r n (n + 1)) as [HI2 Hrs]; try done; [lia| |lia|by apply HQ2].
  eapply page_inv_equiv; [exact HI1|].
  intros r' j l. unfold with_layers, prefix_pages.
  setoid_rewrite (nthZ_setZ _ r r' (n + 1) n Hn).
  case_decide as Hd; [subst r'|].
  2: { split; [by intros [?|(-> & _)]|by left]. }
  split.
  - intros [[Hl (m & Hm & Hj)]|(_ & -> & Hl)]; (split; [done|]); exists (n + 1);
      (split; [done|]); [rewrite Hn in Hm; injection Hm as <-|]; lia.
  - intros [Hl (m & [= <-] & Hj)]. destruct (decide (j = n)) as [->|]; [by right|].
    left. split; [done|]. exists n. split; [done|lia].
Qed.

Lemma kvblocks_available_iff s k :
  config_ok (conf s) ->
  (k <=? Z.of_nat (length (pool s)) / (2 * nlay (conf s))) =
  (2 * nlay (conf s) * k <=? Z.of_nat (length (pool s))).
Proof.
  intros Hc. pose proof (nlay_pos _ Hc).
  apply eq_true_iff_eq. rewrite !Z.leb_le. split; intros Hx.
  - pose proof (Z.mul_div_le (Z.of_nat (length (pool s))) (2 * nlay (conf s)) ltac:(lia)). nia.
  - apply Z.div_le_lower_bound; lia.
Qed.

Lemma Inv_set_verbose R s b : Inv R s -> Inv R (set_verbose b s).
Proof. intros [[] [? ? ? [? ?] ? ? ? ? ? ? ?]]. split; split; done. Qed.

(** The growth loop, when the pool has all the blocks. *)
Lemma wp_grow_loop R s r n k sync (Q : bool -> vstate -> Prop) F :
  Inv R s -> nthZ (mapped_pages s) r = Some n -> 0 <= k ->
  2 * nlay (conf s) * k <= Z.of_nat (length (pool s)) ->
  (forall b s', Inv R s' ->
     resized s s' r n (Z.min (n + k) (max_pages_per_req (conf s))) -> Q b s') ->
  wp (for_each_brk (up 0 k) (fun _ => grow_one_block r sync)) Q F s.
Proof.
  intros HI Hn Hk Hpool HQ. pose proof (pi_conf _ _ _ (inv_pages _ _ HI)) as Hc.
  pose proof (nlay_pos _ Hc). pose proof (co_mapped _ (inv_counters _ _ HI) _ _ Hn) as Hb.
  apply (wp_for_each_brk (fun pre s' => Inv R s' /\ exists m, m = n + Z.of_nat (length pre) /\
     m <= max_pages_per_req (conf s) /\ resized s s' r n m)).
  - split; [done|]. exists n. simpl. split; [lia|]. split; [lia|]. by apply resized_refl.
  - intros pre x suf s' Hsplit (HI' & m & Hm & Hmb & Hrs).
    apply up_split in Hsplit as (Hx & -> & _). unfold up in Hm. rewrite length_seqZ in Hm.
    pose proof (sf_conf _ _ (rs_frame _ _ _ _ _ Hrs)) as Hcf.
    assert (Hnm : nthZ (mapped_pages s') r = Some m).
    { rewrite (resized_lookup s s' r n m r) by done. by rewrite decide_True. }
    eapply wp_grow_one_block; [done|done|..]; rewrite ?Hcf.
    + rewrite (rs_pool _ _ _ _ _ Hrs). nia.
    + intros Hmax. apply HQ; [done|]. by replace (Z.min _ _) with m by lia.
    + intros s2 Hlt HI2 Hrs2. split; [done|]. exists (m + 1).
      rewrite length_app. unfold up. rewrite length_seqZ. simpl.
      split; [lia|]. split; [lia|]. by eapply resized_trans.
  - intros s' (HI' & m & Hm & Hmb & Hrs). apply HQ; [done|].
    unfold up in Hm. rewrite length_seqZ in Hm. by replace (Z.min _ _) with m by lia.
Qed.

(** Growing by [k] blocks: all of them when they fit the request's address
    range, else up to its last page; nothing when the pool is too small and
    the caller is the background thread; an exception when it is too small
    and the caller is synchronous. *)
Lemma wp_grow_kvcache_phys R s r n k (sync : bool) (Q : unit -> vstate -> Prop)
    (F : fault -> vstate -> Prop) :
  Inv R s -> nthZ (mapped_pages s) r = Some n -> 0 <= k ->
  (2 * nlay (conf s) * k <= Z.of_nat (length (pool s)) ->
   forall s', Inv R s' -> resized s s' r n (Z.min (n + k) (max_pages_per_req (conf s))) ->
     Q tt s') ->
  (Z.of_nat (length (pool s)) < 2 * nlay (conf s) * k ->
   if sync then F (Throw EXN_OOM) (set_verbose true s) else Q tt s) ->
  wp (grow_kvcache_phys r k sync) Q F s.
Proof.
  intros HI Hn Hk HQ HF. pose proof (pi_conf _ _ _ (inv_pages _ _ HI)) as Hc.
  pose proof (nlay_pos _ Hc). pose proof (co_mapped _ (inv_counters _ _ HI) _ _ Hn) as Hb.
  unfold grow_kvcache_phys. destruct (Z.leb_spec k 0) as [Hk0|Hk0].
  { apply wp_ret, HQ; [lia|done|]. replace (Z.min _ _) with n by lia. by apply resized_refl. }
  wp_steps. apply wp_kvblocks_available; [done|]. rewrite kvblocks_available_iff by done.
  destruct (Z.leb_spec (2 * nlay (conf s) * k) (Z.of_nat (length (pool s)))) as [Ha|Ha]; simpl.
  - wp_steps. eapply wp_grow_loop; [done..|]. intros _ s' HI' Hrs. wp_steps. by apply HQ.
  - specialize (HF Ha). destruct sync; simpl; [|by apply wp_ret]. by wp_steps.
Qed.
End vattn_grow.
