(* ===== verification/VattnReclaim.v ===== *)
(** Reclaiming and mapping for one step of the framework: what the loops over
    the requests keep, and when the manager runs out of memory. *)

From S2P Require Import Prelude GpuApi VattnState VattnPages VattnInit VattnAlloc VattnInv VattnMap VattnGrow.
Local Open Scope Z_scope.
Local Open Scope cword_scope.

(** Sums over per-request vectors. *)
Definition sumZ (l : list Z) : Z := fold_right Z.add 0 l.

Lemma sumZ_insert (l : list Z) (i : nat) n x :
  l !! i = Some n -> sumZ (<[i := x]> l) = sumZ l + x - n.
Proof.
  revert i. induction l as [|y l IH]; intros [|i]; simpl; try done.
  - intros [= ->]. unfold sumZ. simpl. lia.
  - intros H%IH. unfold sumZ in *. simpl. rewrite H. lia.
Qed.

Lemma sumZ_setZ (l : list Z) i n x :
  nthZ l i = Some n -> sumZ (setZ l i x) = sumZ l + x - n.
Proof. unfold nthZ, setZ. destruct (0 <=? i); [apply sumZ_insert|done]. Qed.

Lemma sumZ_le (l1 l2 : list Z) :
  length l1 = length l2 ->
  (forall i a b, nthZ l1 i = Some a -> nthZ l2 i = Some b -> a <= b) -> sumZ l1 <= sumZ l2.
Proof.
  intros Hl H. assert (HF : Forall2 Z.le l1 l2).
  { apply Forall2_same_length_lookup_2; [done|]. intros i a b Ha Hb.
    apply (H (Z.of_nat i)); unfold nthZ; rewrite (proj2 (Z.leb_le 0 _)) by lia;
      by rewrite Nat2Z.id. }
  clear Hl H. induction HF; unfold sumZ in *; simpl; lia.
Qed.

Lemma nthZ_fmap {A B} (f : A -> B) (l : list A) i : nthZ (f <$> l) i = f <$> nthZ l i.
Proof. unfold nthZ. destruct (0 <=? i); [apply list_lookup_fmap|done]. Qed.

Section vattn_reclaim.
Context {api : gpu_api} {torch : torch_api} {gran : Z} {laws : GpuLaws api gran}.
Implicit Types (s : vstate) (c : config).

(** Blocks that a sequence of [len] tokens needs. *)
Definition need s (len : Z) : Z := ceil_div len (tokens_per_page (conf s)).

(** Pages in the pool plus pages mapped for the requests. *)
Definition total_pages s : Z :=
  Z.of_nat (length (pool s)) + 2 * nlay (conf s) * sumZ (mapped_pages s).

(** Pages that the announced sequence lengths need. *)
Definition needed_pages s : Z :=
  2 * nlay (conf s) * sumZ (need s <$> curr_seq_lengths s).

(** Pages move between the pool and the requests. *)
Record moved s s' : Prop := {
  mv_frame : same_frame s s';
  mv_total : total_pages s' = total_pages s;
}.
Lemma moved_refl s : moved s s.
Proof. done. Qed.
Lemma moved_trans s1 s2 s3 : moved s1 s2 -> moved s2 s3 -> moved s1 s3.
Proof. intros [] []. split; [by eapply same_frame_trans|congruence]. Qed.

Lemma resized_moved s s' r n n' :
  nthZ (mapped_pages s) r = Some n -> resized s s' r n n' -> moved s s'.
Proof.
  intros Hn [Hf Hm Hp]. split; [done|]. unfold total_pages.
  rewrite Hp, Hm, (sf_conf _ _ Hf), (sumZ_setZ _ _ n) by done. lia.
Qed.

Lemma need_frame s s' len : same_frame s s' -> need s' len = need s len.
Proof. intros Hf. unfold need. by rewrite (sf_conf _ _ Hf). Qed.

Lemma needed_pages_frame s s' : same_frame s s' -> needed_pages s' = needed_pages s.
Proof.
  intros Hf. unfold needed_pages. rewrite (sf_conf _ _ Hf), (sf_seq _ _ Hf).
  do 2 f_equal. apply list_fmap_ext. intros ???. by apply need_frame.
Qed.

(** No request loses a page that its announced length needs. *)
Definition keeps_needed s s' : Prop :=
  forall r n len, nthZ (mapped_pages s) r = Some n -> nthZ (curr_seq_lengths s) r = Some len ->
  exists n', nthZ (mapped_pages s') r = Some n' /\ Z.min n (need s len) <= n'.

Lemma keeps_needed_refl s : keeps_needed s s.
Proof. intros r n len Hn _. exists n. split; [done|lia]. Qed.

Lemma keeps_needed_trans s1 s2 s3 :
  same_frame s1 s2 -> keeps_needed s1 s2 -> keeps_needed s2 s3 -> keeps_needed s1 s3.
Proof.
  intros Hf H1 H2 r n len Hn Hl. destruct (H1 r n len Hn Hl) as (n1 & Hn1 & ?).
  destruct (H2 r n1 len Hn1) as (n2 & Hn2 & ?); [by rewrite (sf_seq _ _ Hf)|].
  rewrite (need_frame s1 s2) in * by done. exists n2. split; [done|lia].
Qed.

Lemma resized_keeps s s' r n n' len :
  nthZ (mapped_pages s) r = Some n -> nthZ (curr_seq_lengths s) r = Some len ->
  resized s s' r n n' -> Z.min n (need s len) <= n' -> keeps_needed s s'.
Proof.
  intros Hn Hl Hrs Hge r' m len' Hm Hl'.
  rewrite (resized_lookup s s' r n n' r') by done.
  case_decide; [subst|exists m; split; [done|lia]].
  exists n'. split; [done|]. congruence.
Qed.

(** The requests of [P] have been visited by the reclaiming loop. *)
Record reclaimed R (P : Z -> Prop) s s' : Prop := {
  rc_inv : Inv R s';
  rc_moved : moved s s';
  rc_keeps : keeps_needed s s';
  rc_le r n n' : nthZ (mapped_pages s) r = Some n -> nthZ (mapped_pages s') r = Some n' ->
    n' <= n;
  rc_tight r n' len : P r -> nthZ (mapped_pages s') r = Some n' ->
    nthZ (curr_seq_lengths s) r = Some len -> n' <= need s len;
}.

Lemma reclaimed_init R s : Inv R s -> reclaimed R (fun _ => False) s s.
Proof. intros HI. split; try done; [apply keeps_needed_refl|]. intros; simplify_eq; lia. Qed.

(** Visiting request [r] and leaving it with [n'] pages. *)
Lemma reclaimed_visit R (P P' : Z -> Prop) s s1 s2 r n len :
  reclaimed R P s s1 -> Inv R s2 -> nthZ (mapped_pages s1) r = Some n ->
  nthZ (curr_seq_lengths s) r = Some len ->
  resized s1 s2 r n (Z.min n (need s len)) ->
  (forall r', P' r' -> P r' \/ r' = r) ->
  reclaimed R P' s s2.
Proof.
  intros [HI1 Hmv Hk Hle Ht] HI2 Hn Hlen Hrs HP. pose proof (mv_frame _ _ Hmv) as Hf.
  pose proof (fun r' => resized_lookup _ _ _ _ _ r' Hn Hrs) as Hlk. split; [done|..].
  - eapply moved_trans; [done|by eapply resized_moved].
  - eapply keeps_needed_trans; [done..|]. eapply resized_keeps; try done.
    + by rewrite (sf_seq _ _ Hf).
    + rewrite (need_frame s s1) by done. lia.
  - intros r' m m' Hm Hm'. rewrite Hlk in Hm'.
    case_decide; [subst r'|by eapply Hle]. pose proof (Hle r m n Hm Hn).
    injection Hm' as <-. lia.
  - intros r' m' len' HP' Hm' Hl'. rewrite Hlk in Hm'. case_decide; [simplify_eq; lia|].
    destruct (HP r' HP') as [HPr|]; [by eapply Ht|congruence].
Qed.

Lemma wp_reclaim_kvblocks_on_demand R s k (Q : unit -> vstate -> Prop) F :
  Inv R s ->
  (forall P s', reclaimed R P s s' ->
     2 * nlay (conf s) * k <= Z.of_nat (length (pool s')) \/ (forall r, P r) -> Q tt s') ->
  wp (reclaim_kvblocks_on_demand k) Q F s.
Proof.
  intros HI HQ. unfold reclaim_kvblocks_on_demand. wp_steps.
  apply (wp_for_each_brk (fun pre s' => reclaimed R (fun r => r ∈ pre) s s')).
  - destruct (reclaimed_init R s HI). split; try done.
    intros r n' len H. by apply not_elem_of_nil in H.
  - intros pre r suf s1 Hsplit Hrec. pose proof (rc_inv _ _ _ _ Hrec) as HI1.
    pose proof (mv_frame _ _ (rc_moved _ _ _ _ Hrec)) as Hf.
    pose proof (sf_conf _ _ Hf) as Hcf.
    assert (Hr : 0 <= r < max_batch_size (conf s1)).
    { rewrite Hcf. apply (elem_of_down r). rewrite Hsplit. apply elem_of_app. right. left. }
    pose proof (pi_conf _ _ _ (inv_pages _ _ HI1)) as Hc1.
    wp_steps. apply wp_kvblocks_available; [done|]. rewrite kvblocks_available_iff by done.
    destruct (Z.leb_spec (2 * nlay (conf s1) * k) (Z.of_nat (length (pool s1)))).
    { wp_steps. eapply HQ; [done|]. left. by rewrite <- Hcf. }
    destruct (Inv_mapped _ _ _ HI1 Hr) as (n1 & Hn1 & Hb1).
    destruct (Inv_seq _ _ _ HI1 Hr) as (len & Hlen & Hlb). unfold seq_len_ok in Hlb.
    wp_steps. eapply wp_get_req_pages; [done|]. wp_steps.
    eapply wp_get_req_seq_length; [done|]. wp_steps.
    apply wp_tokens_to_pages; [done|lia|]. fold (need s1 len).
    rewrite (sf_seq _ _ Hf) in Hlen. rewrite (need_frame s s1) by done.
    assert (HP : forall r', r' ∈ pre ++ [r] -> r' ∈ pre \/ r' = r).
    { intros r'. rewrite elem_of_app, list_elem_of_singleton. done. }
    destruct (Z.leb_spec n1 (need s len)) as [Hnl|Hnl]; wp_steps.
    { eapply reclaimed_visit; [done..| |done].
      replace (Z.min _ _) with n1 by lia. by apply resized_refl. }
    eapply wp_release_kvcache_pages_some; [done..| |].
    { apply ceil_div_nonneg; [|lia]. rewrite <- Hcf. apply Hc1. }
    intros s2 HI2 Hrs. wp_steps. by eapply reclaimed_visit.
  - intros s' [HI' Hmv Hk Hle Ht]. wp_steps.
    eapply (HQ (fun _ => True)); [|by right]. split; try done.
    intros r n' len _ Hn' Hl. apply (Ht r); [|done..]. apply elem_of_down.
    pose proof (nthZ_lt _ _ _ Hn') as H.
    rewrite (co_mapped_len _ (inv_counters _ _ HI')), (sf_conf _ _ (mv_frame _ _ Hmv)) in H.
    lia.
Qed.
End vattn_reclaim.
