(* ===== verification/VattnStep.v ===== *)
(** The per-iteration entry points of the memory manager: [step_sync],
    [prepare_prefill_kvcache], the background [do_kvcache_memory_management]
    and the request ids. *)

From S2P Require Import Prelude GpuApi VattnState VattnPages VattnInit VattnAlloc VattnInv VattnMap VattnGrow VattnReclaim.
Local Open Scope Z_scope.
Local Open Scope cword_scope.

Section vattn_step.
Context {api : gpu_api} {torch : torch_api} {gran : Z} {laws : GpuLaws api gran}.
Implicit Types (s : vstate) (c : config).

Lemma wp_set_req_seq_length r n x (Q : unit -> vstate -> Prop) F s :
  nthZ (curr_seq_lengths s) r = Some n ->
  Q tt (set_seq_lengths (setZ (curr_seq_lengths s) r x) s) ->
  wp (set_req_seq_length r x) Q F s.
Proof.
  intros Hn HQ. unfold set_req_seq_length. wp_steps.
  eapply wp_get_req_seq_length; [done|]. by wp_steps.
Qed.

Lemma Forall_setZ (P : Z -> Prop) l i x : Forall P l -> P x -> Forall P (setZ l i x).
Proof. intros Hl Hx. unfold setZ. destruct (0 <=? i); [by apply Forall_insert|done]. Qed.

Lemma Inv_set_seq R s l :
  Inv R s -> Z.of_nat (length l) = max_batch_size (conf s) -> Forall seq_len_ok l ->
  Inv R (set_seq_lengths l s).
Proof.
  intros [[] HI] Hl HF. split; [split; done|].
  eapply page_inv_equiv; [by apply page_inv_set_seq|]. done.
Qed.

Lemma set_seq_id s r len :
  nthZ (curr_seq_lengths s) r = Some len ->
  set_seq_lengths (setZ (curr_seq_lengths s) r len) s = s.
Proof. intros H. rewrite setZ_id by done. by destruct s. Qed.

Lemma sumZ_need_le s s' P R r n len :
  reclaimed R P s s' -> (forall r, P r) -> Inv R s ->
  nthZ (curr_seq_lengths s) r = Some len -> nthZ (mapped_pages s') r = Some n ->
  sumZ (mapped_pages s') <= sumZ (need s <$> curr_seq_lengths s) + n - need s len.
Proof.
  intros Hrec HP HI Hlen Hn.
  rewrite <- (setZ_id (mapped_pages s') r n Hn).
  assert (Hl2 : nthZ (need s <$> curr_seq_lengths s) r = Some (need s len)).
  { by rewrite nthZ_fmap, Hlen. }
  rewrite <- Z.add_sub_assoc.
  replace (_ + (n - need s len)) with (sumZ (need s <$> curr_seq_lengths s) + n - need s len) by lia.
  rewrite <- (sumZ_setZ _ r (need s len) n Hl2).
  apply sumZ_le.
  - rewrite !length_setZ, length_fmap.
    pose proof (co_mapped_len _ (inv_counters _ _ (rc_inv _ _ _ _ Hrec))) as H1.
    pose proof (co_seq_len _ (inv_counters _ _ HI)) as H2.
    rewrite (sf_conf _ _ (mv_frame _ _ (rc_moved _ _ _ _ Hrec))) in H1. lia.
  - intros i a b. rewrite (nthZ_setZ _ r i n n Hn), (nthZ_setZ _ r i n _ Hl2).
    case_decide; [intros; simplify_eq; lia|]. rewrite nthZ_fmap.
    intros Ha [l' [Hl' ->]]%fmap_Some. by eapply (rc_tight _ _ _ _ Hrec).
Qed.

(** Growing after a reclaim that either found enough blocks or visited
    every request. *)
Lemma wp_grow_reclaimed R P s s1 r n len (Q : unit -> vstate -> Prop)
    (F : fault -> vstate -> Prop) :
  Inv R s -> nthZ (curr_seq_lengths s) r = Some len -> nthZ (mapped_pages s) r = Some n ->
  n < need s len -> reclaimed R P s s1 ->
  2 * nlay (conf s) * (need s len - n) <= Z.of_nat (length (pool s1)) \/ (forall r, P r) ->
  (forall s' n', Inv R s' -> moved s s' -> keeps_needed s s' ->
     nthZ (mapped_pages s') r = Some n' ->
     Z.min (need s len) (max_pages_per_req (conf s)) <= n' -> Q tt s') ->
  (forall s', Inv R s' -> moved s s' -> total_pages s < needed_pages s ->
     F (Throw EXN_OOM) s') ->
  wp (grow_kvcache_phys r (need s len - n) true ;;; set_req_seq_length r len) Q F s1.
Proof.
  intros HI Hlen Hn Hgt Hrec Hor HQ HF. pose proof Hrec as [HI1 Hmv Hk Hle _].
  pose proof (pi_conf _ _ _ (inv_pages _ _ HI)) as Hc.
  pose proof (mv_frame _ _ Hmv) as Hf. pose proof (sf_conf _ _ Hf) as Hcf.
  destruct (Hk r n len Hn Hlen) as (n1 & Hn1 & Hge). pose proof (Hle _ _ _ Hn Hn1).
  assert (n1 = n) as -> by lia.
  pose proof (co_mapped _ (inv_counters _ _ HI) _ _ Hn) as Hb.
  wp_steps. eapply (wp_grow_kvcache_phys R); [done..|lia| |].
  - intros _ s2 HI2 Hrs. pose proof (rs_frame _ _ _ _ _ Hrs) as Hf2.
    assert (Hl2 : nthZ (curr_seq_lengths s2) r = Some len)
      by by rewrite (sf_seq _ _ Hf2), (sf_seq _ _ Hf).
    eapply wp_set_req_seq_length; [done|]. rewrite set_seq_id by done. rewrite Hcf in Hrs.
    eapply HQ; [done| | |rewrite (resized_lookup _ _ _ _ _ r Hn1 Hrs);
                           by rewrite decide_True|lia].
    + eapply moved_trans; [done|by eapply resized_moved].
    + eapply keeps_needed_trans; [done..|]. eapply resized_keeps; try done;
        [by rewrite (sf_seq _ _ Hf)|lia].
  - rewrite Hcf. intros Hoom. destruct Hor as [|HP]; [lia|].
    apply HF; [by apply Inv_set_verbose|by destruct Hmv as [[] ?]|].
    rewrite <- (mv_total _ _ Hmv). unfold total_pages, needed_pages. rewrite Hcf.
    pose proof (sumZ_need_le s s1 P R r n len Hrec HP HI Hlen Hn1).
    pose proof (nlay_pos _ Hc). nia.
Qed.

(** Making sure that request [r] has the pages its length needs.  It can
    only fail when the pages that exist cannot cover the announced lengths. *)
Lemma wp_map_pages_for_curr_step R s r len (Q : unit -> vstate -> Prop)
    (F : fault -> vstate -> Prop) :
  Inv R s -> nthZ (curr_seq_lengths s) r = Some len ->
  (forall s' n', Inv R s' -> moved s s' -> keeps_needed s s' ->
     nthZ (mapped_pages s') r = Some n' ->
     Z.min (need s len) (max_pages_per_req (conf s)) <= n' -> Q tt s') ->
  (forall s', Inv R s' -> moved s s' -> total_pages s < needed_pages s ->
     F (Throw EXN_OOM) s') ->
  wp (map_pages_for_curr_step r len) Q F s.
Proof.
  intros HI Hlen HQ HF. pose proof (pi_conf _ _ _ (inv_pages _ _ HI)) as Hc.
  pose proof (nthZ_lt _ _ _ Hlen) as Hr. rewrite (co_seq_len _ (inv_counters _ _ HI)) in Hr.
  destruct (Inv_seq _ _ _ HI Hr) as (len' & Hlen' & Hlb). unfold seq_len_ok in Hlb.
  rewrite Hlen in Hlen'. injection Hlen' as <-.
  destruct (Inv_mapped _ _ _ HI Hr) as (n & Hn & Hb). pose proof (ok_tpp _ Hc) as Htpp.
  unfold map_pages_for_curr_step. destruct (Z.eqb_spec len 0) as [->|Hl0].
  { apply wp_ret. eapply HQ; [done|done|apply keeps_needed_refl|done|].
    unfold need. rewrite ceil_div_0 by lia. lia. }
  wp_steps. apply wp_tokens_to_pages; [done|lia|]. fold (need s len). wp_steps.
  eapply wp_get_req_pages; [done|].
  destruct (Z.leb_spec (need s len) n) as [Hle|Hgt].
  { apply wp_ret. eapply HQ; [done|done|apply keeps_needed_refl|done|lia]. }
  assert (Hnb : need s len <= len).
  { unfold need. apply ceil_div_mul_ge; [lia|]. nia. }
  rewrite u64_small by (unfold is_u64; lia).
  wp_steps. apply wp_kvblocks_available; [done|]. rewrite kvblocks_available_iff by done.
  assert (Hgrow : forall P s1, reclaimed R P s s1 ->
     2 * nlay (conf s) * (need s len - n) <= Z.of_nat (length (pool s1)) \/ (forall r, P r) ->
     wp (grow_kvcache_phys r (need s len - n) true ;;; set_req_seq_length r len) Q F s1).
  { intros P s1 Hrec Hor. by eapply (wp_grow_reclaimed R P s s1 r n len). }
  apply wp_bind, wp_when; intros Hav; zify_bool.
  - eapply wp_reclaim_kvblocks_on_demand; [done|]. intros P s1 Hrec Hor. by eapply Hgrow.
  - eapply Hgrow; [by apply reclaimed_init|]. by left.
Qed.

(** Request [r] has all the pages that [len] tokens need (as many as its
    address range holds). *)
Definition covered s (r len : Z) : Prop :=
  exists n, nthZ (mapped_pages s) r = Some n /\
            Z.min (need s len) (max_pages_per_req (conf s)) <= n.

Lemma covered_keeps s s' r len :
  covered s r len -> nthZ (curr_seq_lengths s) r = Some len ->
  same_frame s s' -> keeps_needed s s' -> covered s' r len.
Proof.
  intros (n & Hn & Hge) Hl Hf Hk. destruct (Hk r n len Hn Hl) as (n' & Hn' & ?).
  exists n'. split; [done|]. rewrite (need_frame s s'), (sf_conf _ _ Hf) by done. lia.
Qed.

Lemma wp_prepare_prefill R s (Q : unit -> vstate -> Prop) (F : fault -> vstate -> Prop) :
  Inv R s ->
  (forall s', Inv R s' -> moved s s' -> keeps_needed s s' ->
     (forall r len, nthZ (curr_seq_lengths s) r = Some len -> covered s' r len) -> Q tt s') ->
  (forall s', Inv R s' -> moved s s' -> total_pages s < needed_pages s ->
     F (Throw EXN_OOM) s') ->
  wp prepare_prefill_kvcache Q F s.
Proof.
  intros HI HQ HF. unfold prepare_prefill_kvcache. wp_steps.
  pose proof (ok_batch _ (pi_conf _ _ _ (inv_pages _ _ HI))) as Hbatch.
  apply (wp_for_up (fun i s' => Inv R s' /\ moved s s' /\ keeps_needed s s' /\
    forall r len, r < i -> nthZ (curr_seq_lengths s) r = Some len -> covered s' r len)); [lia|..].
  - split; [done|]. split; [done|]. split; [apply keeps_needed_refl|].
    intros r len Hr Hl%nthZ_lt. lia.
  - intros r s1 Hr (HI1 & Hmv & Hk & Hcov). pose proof (mv_frame _ _ Hmv) as Hf.
    destruct (Inv_seq _ _ r HI1) as (len & Hlen & _); [by rewrite (sf_conf _ _ Hf)|].
    wp_steps. eapply wp_get_req_seq_length; [done|].
    eapply (wp_map_pages_for_curr_step R); [done..| |].
    + intros s2 n' HI2 Hmv2 Hk2 Hn' Hge. pose proof (mv_frame _ _ Hmv2) as Hf2.
      split; [done|]. split; [by eapply moved_trans|].
      split; [by eapply keeps_needed_trans|].
      intros r' len' Hr' Hl'. destruct (decide (r' = r)) as [->|].
      * rewrite <- (sf_seq _ _ Hf), Hlen in Hl'. injection Hl' as <-.
        exists n'. split; [done|]. by rewrite (need_frame s1 s2), (sf_conf _ _ Hf2).
      * eapply (covered_keeps s1); [|by rewrite (sf_seq _ _ Hf)|done..].
        apply Hcov; [lia|done].
    + intros s2 HI2 Hmv2 Hlt. apply HF; [done|by eapply moved_trans|].
      by rewrite <- (mv_total _ _ Hmv), <- (needed_pages_frame s s1).
  - intros s' (HI' & Hmv & Hk & Hcov). apply HQ; try done.
    intros r len Hl. apply Hcov; [|done]. apply nthZ_lt in Hl as Hr.
    rewrite (co_seq_len _ (inv_counters _ _ HI)) in Hr. lia.
Qed.

(** One iteration of step_sync: announce the length of [r], then release or
    map. *)
Lemma wp_step_sync_one R s r old len (eager : bool) (Q : unit -> vstate -> Prop)
    (F : fault -> vstate -> Prop) :
  Inv R s -> nthZ (curr_seq_lengths s) r = Some old -> seq_len_ok len ->
  let s2 := set_seq_lengths (setZ (curr_seq_lengths s) r len) s in
  (forall s', Inv R s' -> same_frame s2 s' -> keeps_needed s2 s' -> covered s' r len ->
     Q tt s') ->
  (forall s', Inv R s' -> F (Throw EXN_OOM) s') ->
  wp (set_req_seq_length r len ;;;
      n <- get_req_pages r ;;
      if eager && ((len =? 0) && negb (n =? 0))
      then release_kvcache_pages_all r
      else map_pages_for_curr_step r len) Q F s.
Proof.
  intros HI Hold Hlok s2 HQ HOOM. wp_steps. eapply wp_set_req_seq_length; [done|]. fold s2.
  assert (HI2 : Inv R s2).
  { apply Inv_set_seq; [done| |by apply Forall_setZ; [apply HI|]].
    rewrite length_setZ. apply HI. }
  assert (Hs2 : nthZ (curr_seq_lengths s2) r = Some len).
  { simpl. rewrite (nthZ_setZ _ r r len old Hold). by rewrite decide_True. }
  pose proof (nthZ_lt _ _ _ Hs2) as Hr. rewrite (co_seq_len _ (inv_counters _ _ HI2)) in Hr.
  destruct (Inv_mapped _ _ r HI2 Hr) as (n & Hn & Hnb).
  wp_steps. eapply wp_get_req_pages; [done|]. apply wp_if; intros Hb; zify_bool.
  - subst len. eapply wp_release_kvcache_pages_some; [done..|lia|]. intros s3 HI3 Hrs.
    assert (Hneed0 : need s2 0 = 0).
    { apply ceil_div_0, (ok_tpp _ (pi_conf _ _ _ (inv_pages _ _ HI))). }
    apply HQ; [done|by destruct Hrs|eapply resized_keeps; [done..|]; lia|].
    exists (Z.min n 0). rewrite (need_frame s2 s3), Hneed0 by apply Hrs. split; [|lia].
    rewrite (resized_lookup _ _ _ _ _ r Hn Hrs). by rewrite decide_True.
  - eapply (wp_map_pages_for_curr_step R); [done..| |].
    + intros s3 n' HI3 Hmv Hk Hn' Hge. pose proof (mv_frame _ _ Hmv) as Hf.
      apply HQ; [done..|]. exists n'. split; [done|].
      by rewrite (need_frame s2 s3), (sf_conf _ _ Hf).
    + intros s3 HI3 _ _. by apply HOOM.
Qed.

Lemma wp_step_sync R s seq_lens eager (Q : unit -> vstate -> Prop)
    (F : fault -> vstate -> Prop) :
  Inv R s -> Z.of_nat (length seq_lens) = max_batch_size (conf s) ->
  Forall seq_len_ok seq_lens ->
  (forall s', Inv R s' -> conf s' = conf s -> curr_seq_lengths s' = seq_lens ->
     (forall r len, nthZ seq_lens r = Some len -> covered s' r len) -> Q tt s') ->
  (forall s', Inv R s' -> F (Throw EXN_OOM) s') ->
  wp (step_sync seq_lens eager) Q F s.
Proof.
  intros HI Hlen HF HQ HOOM. unfold step_sync. wp_steps.
  pose proof (ok_batch _ (pi_conf _ _ _ (inv_pages _ _ HI))) as Hbatch.
  apply (wp_for_up (fun i s' => Inv R s' /\ conf s' = conf s /\
    (forall r, r < i -> nthZ (curr_seq_lengths s') r = nthZ seq_lens r) /\
    forall r len, r < i -> nthZ seq_lens r = Some len -> covered s' r len)); [lia|..].
  - split; [done|]. split; [done|]. split.
    + intros r Hr. unfold nthZ. by rewrite (proj2 (Z.leb_gt 0 r)).
    + intros r len Hr Hl%nthZ_lt. lia.
  - intros r s1 Hr (HI1 & Hcf & Hseq & Hcov).
    destruct (nthZ_is_Some seq_lens r) as [len Hl]; [lia|].
    assert (Hlok : seq_len_ok len).
    { apply nthZ_elem in Hl. by apply (proj1 (Forall_forall _ _) HF). }
    destruct (Inv_seq _ _ r HI1) as (old & Hold & _); [by rewrite Hcf|].
    apply wp_bind. eapply wp_of_option; [done|]. eapply wp_step_sync_one; [done..| |done].
    intros s3 HI3 Hf3 Hk3 Hc3. pose proof (sf_seq _ _ Hf3) as Hsq. simpl in Hsq.
    assert (Hs2 : forall r', nthZ (setZ (curr_seq_lengths s1) r len) r' =
              if decide (r = r') then Some len else nthZ (curr_seq_lengths s1) r').
    { intros r'. by apply (nthZ_setZ _ r r' len old). }
    split; [done|]. split; [by rewrite (sf_conf _ _ Hf3)|]. split.
    + intros r' Hr'. rewrite Hsq, Hs2. case_decide; [by subst r'|apply Hseq; lia].
    + intros r' len' Hr' Hl'. destruct (decide (r' = r)) as [->|]; [congruence|].
      eapply covered_keeps; [| |done..]; [apply Hcov; [lia|done]|].
      simpl. rewrite Hs2, decide_False by done. rewrite Hseq by lia. done.
  - intros s' (HI' & Hcf & Hseq & Hcov). apply HQ; try done.
    + apply list_eq_same_length with (n := length seq_lens); [done| |].
      { pose proof (co_seq_len _ (inv_counters _ _ HI')) as H. rewrite Hcf in H. lia. }
      intros i x y Hi Hx Hy. specialize (Hseq (Z.of_nat i) ltac:(lia)).
      unfold nthZ in Hseq. rewrite (proj2 (Z.leb_le 0 _)) in Hseq by lia.
      rewrite Nat2Z.id in Hseq. congruence.
    + intros r len Hl. apply Hcov; [|done]. apply nthZ_lt in Hl. lia.
Qed.
End vattn_step.
