(* ===== verification/VattnManage.v ===== *)
(** The background memory manager: eager growth for the next step and slow
    reclamation from inactive requests. *)

From S2P Require Import Prelude GpuApi VattnState VattnPages VattnInit VattnAlloc VattnInv VattnMap VattnGrow VattnReclaim VattnStep.
Local Open Scope Z_scope.
Local Open Scope cword_scope.

Section vattn_manage.
Context {api : gpu_api} {torch : torch_api} {gran : Z} {laws : GpuLaws api gran}.
Implicit Types (s : vstate) (c : config).

Definition pages_at s (r : Z) : Z := default 0 (nthZ (mapped_pages s) r).
Definition len_at s (r : Z) : Z := default 0 (nthZ (curr_seq_lengths s) r).

(** What [need_new_page_async] computes. *)
Definition need_new s (r k : Z) : Z :=
  if len_at s r =? 0 then 0
  else if pages_at s r =? max_pages_per_req (conf s) then 0
  else Z.max 0 (need s (len_at s r + k) - pages_at s r).

Lemma pages_at_some s r n : nthZ (mapped_pages s) r = Some n -> pages_at s r = n.
Proof. unfold pages_at. by intros ->. Qed.
Lemma len_at_some s r n : nthZ (curr_seq_lengths s) r = Some n -> len_at s r = n.
Proof. unfold len_at. by intros ->. Qed.

Lemma need_new_bound R s r k :
  Inv R s -> 0 <= r < max_batch_size (conf s) -> 0 <= k < 2 ^ 8 ->
  0 <= need_new s r k < 2 ^ 33.
Proof.
  intros HI Hr Hk. destruct (Inv_seq _ _ _ HI Hr) as (len & Hlen & Hlb).
  destruct (Inv_mapped _ _ _ HI Hr) as (n & Hn & Hnb). unfold seq_len_ok in Hlb.
  pose proof (ok_tpp _ (pi_conf _ _ _ (inv_pages _ _ HI))) as Ht.
  unfold need_new. rewrite (len_at_some s r len), (pages_at_some s r n) by done.
  do 2 (case_match; [lia|]).
  assert (need s (len + k) <= len + k) by (apply ceil_div_mul_ge; nia). lia.
Qed.

Lemma wp_need_new_page_async R s r k (Q : Z -> vstate -> Prop) F :
  Inv R s -> 0 <= r < max_batch_size (conf s) -> 0 <= k < 2 ^ 8 ->
  Q (need_new s r k) s -> wp (need_new_page_async r k) Q F s.
Proof.
  intros HI Hr Hk HQ. destruct (Inv_seq _ _ _ HI Hr) as (len & Hlen & Hlb).
  destruct (Inv_mapped _ _ _ HI Hr) as (n & Hn & Hnb). unfold seq_len_ok in Hlb.
  pose proof (pi_conf _ _ _ (inv_pages _ _ HI)) as Hc. pose proof (ok_tpp _ Hc) as Ht.
  unfold need_new in HQ. rewrite (len_at_some s r len), (pages_at_some s r n) in HQ by done.
  unfold need_new_page_async. wp_steps. eapply wp_is_active_req; [done|].
  destruct (len =? 0); simpl; [by apply wp_ret|].
  wp_steps. eapply wp_get_req_pages; [done|]. wp_steps.
  destruct (n =? _); [by apply wp_ret|].
  wp_steps. eapply wp_get_req_seq_length; [done|]. wp_steps.
  rewrite (u64_small (len + k)) by (unfold is_u64; lia).
  apply wp_tokens_to_pages; [done|lia|]. fold (need s (len + k)). wp_steps.
  assert (need s (len + k) <= len + k) by (apply ceil_div_mul_ge; nia).
  destruct (Z.leb_spec (need s (len + k)) n).
  - by replace (Z.max 0 _) with 0 in HQ by lia.
  - replace (Z.max 0 _) with (need s (len + k) - n) in HQ by lia.
    by rewrite u64_small by (unfold is_u64; lia).
Qed.

(** Pages needed next step by the requests of a list. *)
Definition need_new_sum s (ids : list Z) : Z := sumZ ((fun r => need_new s r 1) <$> ids).

Lemma need_new_sum_cons s r ids :
  need_new_sum s (r :: ids) = need_new s r 1 + need_new_sum s ids.
Proof. done. Qed.

Definition valid_ids s (ids : list Z) : Prop :=
  Forall (fun r => 0 <= r < max_batch_size (conf s)) ids.

Lemma need_new_sum_bound R s ids :
  Inv R s -> valid_ids s ids ->
  0 <= need_new_sum s ids <= 2 ^ 33 * Z.of_nat (length ids).
Proof.
  intros HI. induction 1 as [|r ids Hr Hids IH]; [done|].
  rewrite need_new_sum_cons. pose proof (need_new_bound R s r 1 HI Hr ltac:(lia)).
  simpl length. lia.
Qed.

Lemma wp_sum_need_new_pages R s ids acc (Q : Z -> vstate -> Prop) F :
  Inv R s -> valid_ids s ids -> 0 <= acc -> acc + need_new_sum s ids < 2 ^ 64 ->
  Q (acc + need_new_sum s ids) s -> wp (sum_need_new_pages ids acc) Q F s.
Proof.
  intros HI Hids. revert acc.
  induction Hids as [|r ids Hr Hids IH]; intros acc Ha Hb HQ.
  { simpl. unfold need_new_sum in HQ. simpl in HQ. by rewrite Z.add_0_r in HQ. }
  rewrite need_new_sum_cons in *. simpl.
  pose proof (need_new_bound R s r 1 HI Hr ltac:(lia)).
  pose proof (need_new_sum_bound R s ids HI Hids) as Hs.
  wp_steps. eapply wp_need_new_page_async; [done..|lia|].
  rewrite u64_small by (unfold is_u64; lia).
  apply IH; [lia..|]. by rewrite <- Z.add_assoc.
Qed.

(** Only growth: every request keeps its pages. *)
Record grown s s' : Prop := {
  gr_moved : moved s s';
  gr_ge r n : nthZ (mapped_pages s) r = Some n ->
    exists n', nthZ (mapped_pages s') r = Some n' /\ n <= n';
}.
Lemma grown_refl s : grown s s.
Proof. split; [done|]. eauto with lia. Qed.
Lemma grown_trans s1 s2 s3 : grown s1 s2 -> grown s2 s3 -> grown s1 s3.
Proof.
  intros [M1 G1] [M2 G2]. split; [by eapply moved_trans|]. intros r n Hn.
  destruct (G1 r n Hn) as (n1 & Hn1 & ?). destruct (G2 r n1 Hn1) as (n2 & Hn2 & ?).
  exists n2. split; [done|lia].
Qed.
Lemma grown_keeps s s' : grown s s' -> keeps_needed s s'.
Proof.
  intros [_ G] r n len Hn _. destruct (G r n Hn) as (n' & Hn' & ?).
  exists n'. split; [done|lia].
Qed.
Lemma resized_grown s s' r n n' :
  nthZ (mapped_pages s) r = Some n -> resized s s' r n n' -> n <= n' -> grown s s'.
Proof.
  intros Hn Hrs Hle. split; [by eapply resized_moved|]. intros r' m Hm.
  rewrite (resized_lookup _ _ _ _ _ r' Hn Hrs). case_decide; [|eauto with lia].
  subst. exists n'. split; [done|]. simplify_eq. lia.
Qed.

(** A background growth never faults. *)
Lemma wp_grow_async R s r n k (Q : unit -> vstate -> Prop) F :
  Inv R s -> nthZ (mapped_pages s) r = Some n -> 0 <= k ->
  (forall s' n', Inv R s' -> resized s s' r n n' -> n <= n' <= n + k ->
     (2 * nlay (conf s) * k <= Z.of_nat (length (pool s)) ->
      n' = Z.min (n + k) (max_pages_per_req (conf s))) -> Q tt s') ->
  wp (grow_kvcache_phys r k false) Q F s.
Proof.
  intros HI Hn Hk HQ. pose proof (co_mapped _ (inv_counters _ _ HI) _ _ Hn) as Hb.
  eapply (wp_grow_kvcache_phys R); [done..| |].
  - intros _ s' HI' Hrs. eapply HQ; [done..|lia|done].
  - intros Hlt. simpl. eapply HQ; [done|by apply resized_refl|lia|lia].
Qed.

Lemma wp_eager_grow_requests R s step ids cnt (Q : Z * bool -> vstate -> Prop) F :
  Inv R s -> 0 <= step < 2 ^ 8 -> valid_ids s ids ->
  (forall p s', Inv R s' -> grown s s' -> Q p s') ->
  wp (eager_grow_requests step ids cnt) Q F s.
Proof.
  intros HI Hst Hids. revert s cnt HI Hids.
  induction ids as [|r ids IH]; intros s cnt HI Hids HQ; simpl.
  { apply wp_ret. apply HQ; [done|apply grown_refl]. }
  apply Forall_cons in Hids as [Hr Hids].
  wp_steps. eapply wp_need_new_page_async; [done..|]. wp_steps.
  destruct (Inv_mapped _ _ _ HI Hr) as (n & Hn & Hnb).
  pose proof (need_new_bound R s r step HI Hr Hst).
  eapply (wp_grow_async R); [done..|lia|]. intros s1 n1 HI1 Hrs Hle _.
  assert (Hg : grown s s1) by (eapply resized_grown; [done..|lia]).
  assert (Hrec : forall x, wp (eager_grow_requests step ids x) Q F s1).
  { intros x0. apply IH; [done| |].
    - eapply Forall_impl; [done|]. intros x. by rewrite (sf_conf _ _ (rs_frame _ _ _ _ _ Hrs)).
    - intros p s' HI' Hg'. apply HQ; [done|by eapply grown_trans]. }
  apply wp_if; intros _; [done|]. apply wp_if; intros _; [|done].
  apply wp_ret. by apply HQ.
Qed.

Lemma wp_eager_grow_steps R s steps ids cnt (Q : unit -> vstate -> Prop) F :
  Inv R s -> Forall (fun k => 0 <= k < 2 ^ 8) steps -> valid_ids s ids ->
  (forall s', Inv R s' -> grown s s' -> Q tt s') ->
  wp (eager_grow_steps steps ids cnt) Q F s.
Proof.
  intros HI Hst. revert s cnt HI. induction Hst as [|k steps Hk Hst IH];
    intros s cnt HI Hids HQ; simpl.
  { apply wp_ret. apply HQ; [done|apply grown_refl]. }
  wp_steps. eapply wp_eager_grow_requests; [done..|]. intros [c b] s1 HI1 Hg.
  apply wp_if; intros _; [apply wp_ret; by apply HQ|].
  apply IH; [done| |intros; apply HQ; [done|by eapply grown_trans]].
  eapply Forall_impl; [done|]. intros x.
  by rewrite (sf_conf _ _ (mv_frame _ _ (gr_moved _ _ Hg))).
Qed.

Lemma need_new_other s s' r n n' r' k :
  nthZ (mapped_pages s) r = Some n -> resized s s' r n n' -> r <> r' ->
  need_new s' r' k = need_new s r' k.
Proof.
  intros Hn Hrs Hne. pose proof (rs_frame _ _ _ _ _ Hrs) as Hf.
  unfold need_new, pages_at, len_at. rewrite (sf_seq _ _ Hf), (sf_conf _ _ Hf).
  rewrite (resized_lookup _ _ _ _ _ r' Hn Hrs), decide_False by done.
  by rewrite (need_frame s s').
Qed.

Lemma need_new_sum_other s s' r n n' ids :
  nthZ (mapped_pages s) r = Some n -> resized s s' r n n' -> r ∉ ids ->
  need_new_sum s' ids = need_new_sum s ids.
Proof.
  intros Hn Hrs Hni. unfold need_new_sum. f_equal. apply list_fmap_ext.
  intros i r' Hi. eapply need_new_other; [done..|].
  intros ->. apply Hni. apply list_elem_of_lookup. eauto.
Qed.

(** Once [need_new] blocks are granted, the next token has its page. *)
Lemma need_new_covers R s s' r n n' len :
  Inv R s -> nthZ (mapped_pages s) r = Some n -> nthZ (curr_seq_lengths s) r = Some len ->
  0 < len -> resized s s' r n n' ->
  n' = Z.min (n + need_new s r 1) (max_pages_per_req (conf s)) -> covered s' r (len + 1).
Proof.
  intros HI Hn Hlen Hpos Hrs ->. pose proof (rs_frame _ _ _ _ _ Hrs) as Hf.
  pose proof (co_mapped _ (inv_counters _ _ HI) _ _ Hn) as Hb.
  eexists. split; [rewrite (resized_lookup _ _ _ _ _ r Hn Hrs); by rewrite decide_True|].
  rewrite (need_frame s s'), (sf_conf _ _ Hf) by done.
  unfold need_new. rewrite (len_at_some s r len), (pages_at_some s r n) by done.
  destruct (Z.eqb_spec len 0); [lia|]. destruct (Z.eqb_spec n (max_pages_per_req (conf s))); lia.
Qed.

(** The first eager step serves every request when the pool has the blocks. *)
Lemma wp_eager_first R s ids cnt (Q : Z * bool -> vstate -> Prop) F :
  Inv R s -> valid_ids s ids -> NoDup ids ->
  2 * nlay (conf s) * need_new_sum s ids <= Z.of_nat (length (pool s)) ->
  (forall n s', Inv R s' -> grown s s' ->
     (forall r len, r ∈ ids -> nthZ (curr_seq_lengths s) r = Some len -> 0 < len ->
        covered s' r (len + 1)) -> Q (n, false) s') ->
  wp (eager_grow_requests 1 ids cnt) Q F s.
Proof.
  intros HI Hids Hnd. revert s cnt HI Hids.
  induction Hnd as [|r ids Hni Hnd IH]; intros s cnt HI Hids Hpool HQ; simpl.
  { apply wp_ret. apply HQ; [done|apply grown_refl|]. intros r len H.
    by apply not_elem_of_nil in H. }
  apply Forall_cons in Hids as [Hr Hids].
  wp_steps. eapply wp_need_new_page_async; [done..|lia|]. wp_steps.
  destruct (Inv_mapped _ _ _ HI Hr) as (n & Hn & Hnb).
  pose proof (need_new_bound R s r 1 HI Hr ltac:(lia)).
  pose proof (need_new_sum_bound R s ids HI Hids). rewrite need_new_sum_cons in Hpool.
  pose proof (nlay_pos _ (pi_conf _ _ _ (inv_pages _ _ HI))).
  eapply (wp_grow_async R); [done..|lia|]. intros s1 n1 HI1 Hrs Hle Heq.
  specialize (Heq ltac:(nia)). pose proof (rs_frame _ _ _ _ _ Hrs) as Hf.
  assert (Hg : grown s s1) by (eapply resized_grown; [done..|lia]).
  apply IH; [done| | |].
  - eapply Forall_impl; [done|]. intros x. by rewrite (sf_conf _ _ Hf).
  - rewrite (need_new_sum_other s s1 r n n1), (rs_pool _ _ _ _ _ Hrs), (sf_conf _ _ Hf) by done.
    nia.
  - intros m s' HI' Hg' Hcov. apply HQ; [done|by eapply grown_trans|].
    intros r' len [->|Hin]%elem_of_cons Hl Hpos.
    + assert (Hc1 : covered s1 r (len + 1)) by exact (need_new_covers R s s1 r n n1 len HI Hn Hl Hpos Hrs Heq).
      destruct Hc1 as (m1 & Hm1 & Hge1). destruct (gr_ge _ _ Hg' r m1 Hm1) as (m2 & Hm2 & ?).
      pose proof (mv_frame _ _ (gr_moved _ _ Hg')) as Hf'.
      exists m2. split; [done|]. rewrite (need_frame s1 s'), (sf_conf _ _ Hf') by done. lia.
    + apply Hcov; [done|by rewrite (sf_seq _ _ Hf)|done].
Qed.

(** Reclaiming one page takes it from an inactive request. *)
Lemma wp_do_reclaim_pages R s (Q : unit -> vstate -> Prop) F :
  Inv R s ->
  (forall s', Inv R s' -> moved s s' -> keeps_needed s s' ->
     (forall r, len_at s r <> 0 -> nthZ (mapped_pages s') r = nthZ (mapped_pages s) r) ->
     Q tt s') ->
  wp do_reclaim_pages Q F s.
Proof.
  intros HI HQ. unfold do_reclaim_pages. wp_steps. apply wp_if; intros _.
  { apply wp_ret, HQ; [done..|apply keeps_needed_refl|done]. }
  assert (Hfi : forall ids (Q' : Z -> vstate -> Prop), valid_ids s ids -> (forall x, Q' x s) ->
                wp (first_inactive ids) Q' F s).
  { intros ids Q' Hids HQ'. induction Hids as [|r ids Hr Hids IH]; simpl; [by apply wp_ret|].
    destruct (Inv_seq _ _ _ HI Hr) as (len & Hlen & _).
    wp_steps. eapply wp_is_active_req; [done|]. apply wp_if; intros _; [by apply wp_ret|done]. }
  wp_steps. apply Hfi.
  { apply Forall_forall. intros r. by rewrite elem_of_up. }
  intros next. wp_steps.
  apply (wp_for_each_brk (fun _ s' => s' = s)); [done| |].
  2: { intros s' ->. wp_steps. apply HQ; [done..|apply keeps_needed_refl|done]. }
  intros pre r suf s' Hsplit ->.
  assert (Hr : 0 <= r < max_batch_size (conf s)).
  { apply (elem_of_down r). rewrite Hsplit. apply elem_of_app. right. left. }
  destruct (Inv_seq _ _ _ HI Hr) as (len & Hlen & Hlb).
  destruct (Inv_mapped _ _ _ HI Hr) as (n & Hn & Hnb).
  wp_steps. eapply wp_is_active_req; [done|]. apply wp_if; intros Ha; [by apply wp_ret|].
  zify_bool. subst len. wp_steps. eapply wp_get_req_pages; [done|].
  apply wp_if; intros Hn0; zify_bool; [by apply wp_ret|].
  wp_steps. eapply wp_unmap_req_page_one; [done..|lia|]. intros s1 HI1 Hrs. wp_steps.
  apply HQ; [done|by eapply resized_moved| |].
  - eapply resized_keeps; [done..|]. unfold need. rewrite ceil_div_0; [lia|].
    apply (ok_tpp _ (pi_conf _ _ _ (inv_pages _ _ HI))).
  - intros r' Hr'. rewrite (resized_lookup _ _ _ _ _ r' Hn Hrs).
    case_decide; [subst r'|done]. exfalso. apply Hr'. by apply len_at_some.
Qed.

Lemma covered_grown s s' r len : covered s r len -> grown s s' -> covered s' r len.
Proof.
  intros (n & Hn & Hge) [Hmv G]. destruct (G r n Hn) as (n' & Hn' & ?).
  pose proof (mv_frame _ _ Hmv) as Hf.
  exists n'. split; [done|]. rewrite (need_frame s s'), (sf_conf _ _ Hf) by done. lia.
Qed.

(** The eager growth and the final reclamation. *)
Lemma wp_manage_tail R s (nr_required : Z) (Q : unit -> vstate -> Prop) F :
  let ids := up 0 (max_batch_size (conf s)) in
  Inv R s ->
  (forall s', Inv R s' -> moved s s' -> keeps_needed s s' ->
     (2 * nlay (conf s) * need_new_sum s ids <= Z.of_nat (length (pool s)) ->
      forall r len, nthZ (curr_seq_lengths s) r = Some len -> 0 < len ->
        covered s' r (len + 1)) -> Q tt s') ->
  wp (eager_grow_steps (up 1 EAGER_NUM_STEPS) ids 0 ;;;
      if negb (nr_required =? 0) then mret' tt else do_reclaim_pages) Q F s.
Proof.
  intros ids HI HQ.
  assert (Hids : valid_ids s ids).
  { apply Forall_forall. unfold ids. intros r. by rewrite elem_of_up. }
  assert (Hin : forall r len, nthZ (curr_seq_lengths s) r = Some len -> r ∈ ids).
  { intros r len Hl%nthZ_lt. rewrite (co_seq_len _ (inv_counters _ _ HI)) in Hl.
    by apply elem_of_up. }
  assert (Htail : forall s1, Inv R s1 -> grown s s1 ->
    (2 * nlay (conf s) * need_new_sum s ids <= Z.of_nat (length (pool s)) ->
      forall r len, nthZ (curr_seq_lengths s) r = Some len -> 0 < len ->
        covered s1 r (len + 1)) ->
    wp (if negb (nr_required =? 0) then mret' tt else do_reclaim_pages) Q F s1).
  { intros s1 HI1 Hg Hcov. pose proof (mv_frame _ _ (gr_moved _ _ Hg)) as Hf.
    apply wp_if; intros _; [apply wp_ret, HQ; [done|apply Hg|by apply grown_keeps|done]|].
    eapply wp_do_reclaim_pages; [done|]. intros s2 HI2 Hmv Hk Hact.
    apply HQ; [done|by eapply moved_trans; [apply Hg|]| |].
    - by eapply keeps_needed_trans; [|by apply grown_keeps|].
    - intros Hp r len Hl Hpos. destruct (Hcov Hp r len Hl Hpos) as (n & Hn & Hge).
      pose proof (mv_frame _ _ Hmv) as Hf2.
      exists n. rewrite (need_frame s1 s2), (sf_conf _ _ Hf2) by done. split; [|done].
      rewrite Hact; [done|]. rewrite <- (sf_seq _ _ Hf) in Hl.
      rewrite (len_at_some s1 r len) by done. lia. }
  assert (Hsteps : Forall (fun k => 0 <= k < 2 ^ 8) (up 1 EAGER_NUM_STEPS)).
  { apply Forall_forall. intros k. rewrite elem_of_up. unfold EAGER_NUM_STEPS. lia. }
  apply wp_bind.
  destruct (Z_le_dec (2 * nlay (conf s) * need_new_sum s ids) (Z.of_nat (length (pool s)))).
  2: { eapply wp_eager_grow_steps; [done..|]. intros s1 HI1 Hg. apply Htail; [done..|lia]. }
  change (up 1 EAGER_NUM_STEPS) with (1 :: up 2 EAGER_NUM_STEPS) in *.
  revert Hsteps. generalize (up 2 EAGER_NUM_STEPS). intros rest Hsteps.
  apply Forall_cons in Hsteps as [_ Hsteps]. cbn [eager_grow_steps]. apply wp_bind.
  eapply wp_eager_first; [done..|apply NoDup_seqZ|done|].
  intros m s1 HI1 Hg1 Hcov1. cbn [fst snd].
  eapply wp_eager_grow_steps; [done..| |].
  { eapply Forall_impl; [done|]. intros x.
    by rewrite (sf_conf _ _ (mv_frame _ _ (gr_moved _ _ Hg1))). }
  intros s2 HI2 Hg2. apply Htail; [done|by eapply grown_trans|].
  intros _ r len Hl Hpos. eapply covered_grown; [|done]. eapply Hcov1; [|done..]. by eapply Hin.
Qed.

Lemma wp_do_kvcache_memory_management R s (Q : unit -> vstate -> Prop) F :
  let ids := up 0 (max_batch_size (conf s)) in
  Inv R s ->
  (forall s', Inv R s' -> moved s s' -> keeps_needed s s' ->
     (2 * nlay (conf s) * need_new_sum s ids <= Z.of_nat (length (pool s)) ->
      forall r len, nthZ (curr_seq_lengths s) r = Some len -> 0 < len ->
        covered s' r (len + 1)) -> Q tt s') ->
  wp do_kvcache_memory_management Q F s.
Proof.
  intros ids HI HQ. pose proof (pi_conf _ _ _ (inv_pages _ _ HI)) as Hc.
  assert (Hids : valid_ids s ids).
  { apply Forall_forall. unfold ids. intros r. by rewrite elem_of_up. }
  pose proof (need_new_sum_bound R s ids HI Hids) as Hb. pose proof (ok_batch _ Hc).
  unfold ids, up in Hb. rewrite length_seqZ in Hb. fold (up 0 (max_batch_size (conf s))) in Hb.
  fold ids in Hb. unfold do_kvcache_memory_management. wp_steps. fold ids.
  eapply wp_sum_need_new_pages; [done..|lia|lia|]. wp_steps.
  apply wp_kvblocks_available; [done|]. rewrite kvblocks_available_iff by done.
  apply wp_bind, wp_when; intros Hav; zify_bool.
  - eapply wp_reclaim_kvblocks_on_demand; [done|]. intros P s1 [HI1 Hmv Hk _ _] _.
    pose proof (mv_frame _ _ Hmv) as Hf. pose proof (sf_conf _ _ Hf) as Hcf.
    assert (Hdone : forall s', Inv R s' -> moved s1 s' -> keeps_needed s1 s' -> Q tt s').
    { intros s' HI' Hmv' Hk'. apply HQ; [done|by eapply moved_trans| |lia].
      by eapply keeps_needed_trans. }
    wp_steps. apply wp_kvblocks_available; [by rewrite Hcf|].
    apply wp_if; intros _; [apply wp_ret, Hdone; [done..|apply keeps_needed_refl]|].
    unfold ids. rewrite <- Hcf. eapply wp_manage_tail; [done|]. eauto.
  - wp_steps. apply wp_kvblocks_available; [done|]. rewrite kvblocks_available_iff by done.
    apply wp_if; intros Hav2; zify_bool; [lia|]. eapply wp_manage_tail; [done|]. eauto.
Qed.
End vattn_manage.
