(* ===== verification/VattnIds.v ===== *)
(** Request ids and the free-block count: [alloc_new_batch_idx],
    [free_batch_idx] and [get_num_free_kvblocks] of vattention.cu. *)

From S2P Require Import Prelude GpuApi VattnState VattnPages VattnInit VattnAlloc VattnInv VattnMap VattnGrow VattnReclaim VattnStep VattnManage.
Local Open Scope Z_scope.
Local Open Scope cword_scope.

Section vattn_ids.
Context {api : gpu_api} {torch : torch_api} {gran : Z} {laws : GpuLaws api gran}.
Implicit Types (s : vstate) (c : config).

(** A request id is free when its announced length is zero. *)
Definition inactive s (r : Z) : Prop := nthZ (curr_seq_lengths s) r = Some 0.

(** The selection the loop computes, over the ids visited so far. *)
Record chosen s (ids : list Z) (nr_required new_id : Z) : Prop := {
  ch_none : new_id = -1 -> forall r, r ∈ ids -> ~ inactive s r;
  ch_some : new_id <> -1 -> new_id ∈ ids /\ inactive s new_id;
  ch_least : new_id <> -1 -> nr_required <= pages_at s new_id ->
    forall r, r ∈ ids -> inactive s r -> nr_required <= pages_at s r ->
    pages_at s new_id <= pages_at s r;
  (** A choice that does not fit was the first free id: the later fitting
      ones have more pages. *)
  ch_short : new_id <> -1 -> pages_at s new_id < nr_required ->
    forall r, r ∈ ids -> inactive s r -> new_id <= r;
}.

(** Visiting an id that is active or not better keeps the choice... *)
Lemma chosen_keep s ids nr id r :
  chosen s ids nr id ->
  (inactive s r -> id <> -1 /\ id < r /\ ~ (nr <= pages_at s r < pages_at s id)) ->
  chosen s (ids ++ [r]) nr id.
Proof.
  intros [Hn Hs Hl Hsh] Hr. split.
  - intros H x [Hx| ->%list_elem_of_singleton]%elem_of_app Hi; [by apply (Hn H x)|].
    by destruct (Hr Hi).
  - intros H. split; [apply elem_of_app; left|]; by apply Hs.
  - intros H Hf x [Hx| ->%list_elem_of_singleton]%elem_of_app Hi Hfx; [by apply Hl|].
    destruct (Hr Hi) as (_ & _ & ?). lia.
  - intros H Hf x [Hx| ->%list_elem_of_singleton]%elem_of_app Hi; [by apply Hsh|].
    destruct (Hr Hi). lia.
Qed.

(** ... and a first or better free id replaces it. *)
Lemma chosen_take s ids nr id r :
  chosen s ids nr id -> inactive s r -> 0 <= r ->
  id = -1 \/ nr <= pages_at s r < pages_at s id ->
  chosen s (ids ++ [r]) nr r.
Proof.
  intros [Hn Hs Hl Hsh] Hi Hr Hor. split; [lia|..].
  - intros _. split; [apply elem_of_app; right; by left|done].
  - intros _ Hf x [Hx| ->%list_elem_of_singleton]%elem_of_app Hx0 Hfx; [|lia].
    destruct (decide (id = -1)) as [->|Hne]; [by destruct (Hn eq_refl x Hx)|].
    pose proof (Hl Hne ltac:(lia) x Hx Hx0 Hfx). lia.
  - intros _ Hf x [Hx| ->%list_elem_of_singleton]%elem_of_app Hx0; [|lia].
    destruct Hor as [->|?]; [by destruct (Hn eq_refl x Hx)|lia].
Qed.

Lemma wp_choose_batch_idx R s pre suf nr new_id (Q : Z -> vstate -> Prop) F :
  Inv R s -> up 0 (max_batch_size (conf s)) = pre ++ suf ->
  chosen s pre nr new_id ->
  (forall id, chosen s (pre ++ suf) nr id -> Q id s) ->
  wp (choose_batch_idx suf nr new_id) Q F s.
Proof.
  intros HI. revert pre new_id. induction suf as [|r suf IH]; intros pre new_id Hup Hch HQ.
  { rewrite app_nil_r in HQ. by apply wp_ret, HQ. }
  destruct (up_split _ _ _ _ _ Hup) as (Hr & Hpre & _).
  destruct (Inv_seq _ _ r HI Hr) as (len & Hlen & Hlb).
  destruct (Inv_mapped _ _ r HI Hr) as (n & Hn & Hnb).
  assert (Hgo : forall id, chosen s (pre ++ [r]) nr id ->
            wp (choose_batch_idx suf nr id) Q F s).
  { intros id Hid. apply (IH (pre ++ [r])); rewrite <- ?app_assoc; done. }
  assert (Hnew : new_id <> -1 -> 0 <= new_id < r).
  { intros H. destruct (ch_some _ _ _ _ Hch H) as [Hin _].
    rewrite Hpre, elem_of_up in Hin. lia. }
  simpl. wp_steps. eapply wp_is_active_req; [done|].
  destruct (Z.eqb_spec len 0) as [->|Hne]; simpl.
  2: { apply Hgo, chosen_keep; [done|]. unfold inactive. congruence. }
  destruct (Z.eqb_spec new_id (-1)) as [->|Hid].
  { apply Hgo. eapply chosen_take; eauto. lia. }
  destruct (Inv_mapped _ _ new_id HI ltac:(lia)) as (m & Hm & _).
  wp_steps. eapply wp_get_req_pages; [done|]. wp_steps.
  eapply wp_get_req_pages; [done|]. apply Hgo.
  rewrite <- (pages_at_some _ _ _ Hn), <- (pages_at_some _ _ _ Hm).
  destruct (_ && _) eqn:Hb; zify_bool.
  - eapply chosen_take; eauto. lia.
  - apply chosen_keep; [done|]. intros _. split; [done|]. split; [lia|].
    apply andb_false_iff in Hb as [Hb|Hb]; zify_bool; lia.
Qed.

Lemma wp_alloc_new_batch_idx R s seqlen (Q : Z -> vstate -> Prop) F :
  Inv R s -> seq_len_ok seqlen ->
  (forall id s', Inv R s' ->
     s' = (if id =? -1 then s
           else set_seq_lengths (setZ (curr_seq_lengths s) id seqlen) s) ->
     chosen s (up 0 (max_batch_size (conf s))) (need s seqlen) id -> Q id s') ->
  wp (alloc_new_batch_idx seqlen) Q F s.
Proof.
  intros HI Hok HQ. pose proof (pi_conf _ _ _ (inv_pages _ _ HI)) as Hc.
  unfold alloc_new_batch_idx. wp_steps.
  apply wp_tokens_to_pages; [done|unfold seq_len_ok in Hok; lia|]. fold (need s seqlen).
  wp_steps. eapply (wp_choose_batch_idx R s []); [done|done| |].
  { split; try done. intros _ x Hx. by apply not_elem_of_nil in Hx. }
  simpl. intros nid Hch. apply wp_bind, wp_when; intros Hid; zify_bool; wp_steps.
  2: { subst nid. by apply HQ. }
  destruct (ch_some _ _ _ _ Hch Hid) as [_ Hi].
  eapply wp_set_req_seq_length; [done|]. wp_steps.
  apply HQ; [|by rewrite (proj2 (Z.eqb_neq _ _) Hid)|done].
  apply Inv_set_seq; [done| |by apply Forall_setZ; [apply HI|]].
  rewrite length_setZ. apply HI.
Qed.

Lemma wp_free_batch_idx R s r n (Q : unit -> vstate -> Prop) F :
  Inv R s -> nthZ (curr_seq_lengths s) r = Some n ->
  (forall s', Inv R s' -> s' = set_seq_lengths (setZ (curr_seq_lengths s) r 0) s -> Q tt s') ->
  wp (free_batch_idx r) Q F s.
Proof.
  intros HI Hn HQ. unfold free_batch_idx. eapply wp_set_req_seq_length; [done|].
  apply HQ; [|done]. apply Inv_set_seq; [done| |].
  - rewrite length_setZ. apply HI.
  - apply Forall_setZ; [apply HI|unfold seq_len_ok; lia].
Qed.

(** ** The number of free blocks *)

Lemma u64_add_l a b : u64 (u64 a + b) = u64 (a + b).
Proof. unfold u64, wrap. by rewrite Zplus_mod_idemp_l. Qed.
Lemma u64_add_r a b : u64 (a + u64 b) = u64 (a + b).
Proof. unfold u64, wrap. by rewrite Zplus_mod_idemp_r. Qed.

(** Blocks mapped beyond what the announced lengths need, over [ids]. *)
Definition excess s (ids : list Z) : Z :=
  sumZ ((fun r => pages_at s r - need s (len_at s r)) <$> ids).

Lemma wp_overcommit_sum R s ids acc (Q : Z -> vstate -> Prop) F :
  Inv R s -> valid_ids s ids ->
  (forall v, u64 v = u64 (acc + excess s ids) -> Q v s) ->
  wp (overcommit_sum ids acc) Q F s.
Proof.
  intros HI Hids. revert acc. induction Hids as [|r ids Hr Hids IH]; intros acc HQ; simpl.
  { apply wp_ret, HQ. unfold excess, sumZ. simpl. by rewrite Z.add_0_r. }
  destruct (Inv_seq _ _ r HI Hr) as (len & Hlen & Hlb). unfold seq_len_ok in Hlb.
  destruct (Inv_mapped _ _ r HI Hr) as (n & Hn & Hnb).
  wp_steps. eapply wp_get_req_pages; [done|]. wp_steps.
  eapply wp_get_req_seq_length; [done|]. wp_steps.
  apply wp_tokens_to_pages; [apply HI|lia|]. fold (need s len). apply IH.
  intros v Hv. apply HQ. rewrite Hv, u64_add_r, u64_add_l.
  unfold excess. rewrite fmap_cons. simpl sumZ.
  rewrite (pages_at_some _ _ _ Hn), (len_at_some _ _ _ Hlen). f_equal. unfold sumZ. lia.
Qed.

Lemma sumZ_up_default (l : list Z) :
  sumZ ((fun r => default 0 (nthZ l r)) <$> up 0 (Z.of_nat (length l))) = sumZ l.
Proof.
  assert (H : (fun r => default 0 (nthZ l r)) <$> up 0 (Z.of_nat (length l)) = l); [|by rewrite H].
  apply list_eq. intros i. rewrite list_lookup_fmap. unfold up. rewrite Z.sub_0_r.
  destruct (decide (i < length l)%nat) as [Hi|Hi].
  - rewrite lookup_seqZ_lt by lia. simpl. unfold nthZ.
    rewrite (proj2 (Z.leb_le 0 _)) by lia. replace (Z.to_nat _) with i by lia.
    by destruct (lookup_lt_is_Some_2 l i Hi) as [x ->].
  - rewrite lookup_seqZ_ge by lia. by rewrite (lookup_ge_None_2 l i) by lia.
Qed.

Lemma sumZ_sub {A} (f g : A -> Z) l :
  sumZ ((fun x => f x - g x) <$> l) = sumZ (f <$> l) - sumZ (g <$> l).
Proof.
  unfold sumZ. induction l as [|x l IH]; [done|]. rewrite !fmap_cons. simpl foldr. lia.
Qed.

Lemma excess_all R s :
  Inv R s ->
  excess s (up 0 (max_batch_size (conf s))) =
    sumZ (mapped_pages s) - sumZ (need s <$> curr_seq_lengths s).
Proof.
  intros HI. unfold excess. rewrite sumZ_sub. f_equal.
  - rewrite <- (co_mapped_len _ (inv_counters _ _ HI)). apply sumZ_up_default.
  - rewrite <- (sumZ_up_default (need s <$> _)), length_fmap,
      (co_seq_len _ (inv_counters _ _ HI)). f_equal. apply list_fmap_ext.
    intros i r Hr. unfold len_at. rewrite nthZ_fmap.
    destruct (Inv_seq _ _ r HI) as (len & -> & _); [|done].
    apply list_elem_of_lookup_2 in Hr. by apply elem_of_up in Hr.
Qed.

Lemma sumZ_zero (l : list Z) : Forall (fun x => x = 0) l -> sumZ l = 0.
Proof. unfold sumZ. induction 1; simpl; lia. Qed.
Lemma sumZ_nonneg (l : list Z) : Forall (fun x => 0 <= x) l -> 0 <= sumZ l.
Proof. unfold sumZ. induction 1; simpl; lia. Qed.

Lemma total_pages_nonneg R s : Inv R s -> 0 <= total_pages s.
Proof.
  intros HI. pose proof (nlay_pos _ (pi_conf _ _ _ (inv_pages _ _ HI))).
  assert (0 <= sumZ (mapped_pages s)); [|unfold total_pages; nia].
  apply sumZ_nonneg, Forall_forall. intros n [i Hi]%list_elem_of_lookup.
  apply (co_mapped _ (inv_counters _ _ HI) (Z.of_nat i)). unfold nthZ.
  by rewrite (proj2 (Z.leb_le 0 _)), Nat2Z.id by lia.
Qed.

(** Whole blocks in the pages that no announced length needs; negative when the lengths
    need more pages than there are. *)
Definition spare_kvblocks s : Z := (total_pages s - needed_pages s) / (2 * nlay (conf s)).

Lemma wp_get_num_free_kvblocks R s (Q : Z -> vstate -> Prop) F :
  Inv R s -> Q (u64 (spare_kvblocks s)) s -> wp get_num_free_kvblocks Q F s.
Proof.
  intros HI HQ. pose proof (pi_conf _ _ _ (inv_pages _ _ HI)) as Hc.
  pose proof (nlay_pos _ Hc) as Hnl.
  unfold get_num_free_kvblocks. wp_steps. apply wp_pages_to_kvblocks; [done|].
  rewrite num_free_pages_pool. unfold get_num_overcommitted_kvblocks. wp_steps.
  eapply (wp_overcommit_sum R); [done| |].
  { apply Forall_forall. intros r. by rewrite elem_of_up. }
  intros v Hv. wp_steps. rewrite <- u64_add_r, Hv, u64_add_r, Z.add_0_l, (excess_all R) by done.
  assert (Heq : spare_kvblocks s = Z.of_nat (length (pool s)) / (2 * nlay (conf s)) +
    (sumZ (mapped_pages s) - sumZ (need s <$> curr_seq_lengths s))).
  { unfold spare_kvblocks. rewrite <- Z.div_add by lia. f_equal. unfold total_pages, needed_pages. lia. }
  by rewrite <- Heq.
Qed.

(** The lengths of a batch need less than 2^63 blocks. *)
Lemma sum_bound (l : list Z) b : 0 <= b -> Forall (fun x => x <= b) l -> sumZ l <= Z.of_nat (length l) * b.
Proof. intros Hb. unfold sumZ. induction 1 as [|x l Hx _ IH]; simpl foldr; simpl length; lia. Qed.

Lemma spare_lower R s : Inv R s -> - 2 ^ 63 <= spare_kvblocks s.
Proof.
  intros HI. pose proof (pi_conf _ _ _ (inv_pages _ _ HI)) as Hc. pose proof (nlay_pos _ Hc) as Hnl. pose proof (ok_batch _ Hc) as Hb. pose proof (ok_tpp _ Hc) as Ht.
  pose proof (total_pages_nonneg R s HI) as Htot. pose proof (co_seq_len _ (inv_counters _ _ HI)) as Hl.
  assert (Hs : sumZ (need s <$> curr_seq_lengths s) <= Z.of_nat (length (need s <$> curr_seq_lengths s)) * 2 ^ 32).
  { apply sum_bound; [lia|]. apply Forall_fmap. eapply Forall_impl; [apply (co_seqs _ (inv_counters _ _ HI))|]. unfold seq_len_ok. intros x Hx. simpl.
    assert (need s x <= x) by (apply ceil_div_mul_ge; nia). lia. }
  rewrite length_fmap, Hl in Hs. unfold spare_kvblocks. apply Z.div_le_lower_bound; [lia|]. unfold needed_pages. nia.
Qed.
End vattn_ids.
