(* ===== verification/VattnDemo.v ===== *)
(** Fresh states satisfy the invariant, and a concrete one: the allocator
    configured and reserved on the toy GPU, used by the witnesses. *)

From S2P Require Import Prelude GpuApi VattnState VattnPages VattnInit VattnAlloc VattnInv.
Local Open Scope Z_scope.
Local Open Scope cword_scope.

Section fresh.
Context {api : gpu_api} {torch : torch_api} {gran : Z} {laws : GpuLaws api gran}.
Implicit Types (s : vstate).

Lemma nthZ_replicate n i (x y : Z) : nthZ (replicate n x) i = Some y -> y = x.
Proof.
  unfold nthZ. destruct (0 <=? i); [|done]. intros H%lookup_replicate_1. by destruct H.
Qed.

(** No page mapped, no sequence announced. *)
Lemma Inv_fresh s :
  config_ok (conf s) -> page_size (conf s) = gran ->
  ((uvm_page_size s = page_size (conf s) /\ 0 <= nvidia_uvm_fd s) \/ is_uvm_backend (page_size (conf s)) = false) ->
  tensors_ok s -> pmap s = ∅ -> NoDup (pool s) ->
  (forall x, x ∈ pool s -> x ∈ live (view (gpu s))) ->
  mapped_pages s = replicate (Z.to_nat (max_batch_size (conf s))) 0 ->
  curr_seq_lengths s = replicate (Z.to_nat (max_batch_size (conf s))) 0 ->
  (forall side l p a, 0 <= l < nlay (conf s) -> base_of s side l = Some p ->
     p - page_size (conf s) < a < p + span (conf s) -> va_map (view (gpu s)) !! a = None) ->
  Inv (pool s) s.
Proof.
  intros Hc Hg Hu Ht Hpm Hnd Hlive Hm Hq Hfree. pose proof (ok_batch _ Hc) as Hb.
  assert (Hno : forall r j l, ~ prefix_pages s r j l).
  { intros r j l [_ (n & Hn & Hj)]. rewrite Hm in Hn. apply nthZ_replicate in Hn. lia. }
  split; split; try done.
  - rewrite Hm, length_replicate. lia.
  - rewrite Hq, length_replicate. lia.
  - rewrite Hm. intros r n ->%nthZ_replicate. pose proof (ok_maxp _ Hc). lia.
  - rewrite Hq. apply Forall_replicate. unfold seq_len_ok. lia.
  - intros r j l H%Hno. done.
  - intros key. rewrite Hpm, lookup_empty. split; [by intros []|].
    intros (r & j & l & H%Hno & _). done.
  - rewrite Hpm. unfold pages_of. rewrite map_to_list_empty. simpl. by rewrite app_nil_r.
  - intros r j l kp vp H%Hno. done.
  - intros _ side l p a Hl Hp Ha Hs. rewrite (Hfree side l p a) in Hs by done. by destruct Hs.
Qed.
End fresh.

(** ** A concrete state *)

Definition demo_gran : Z := 2 * MB.
#[export] Instance demo_api : gpu_api := Toy.toy_api demo_gran.
#[export] Instance demo_torch : torch_api := Toy.toy_torch.
#[export] Instance demo_laws : GpuLaws demo_api demo_gran := Toy.toy_laws demo_gran.

Definition empty_config : config :=
  Config 0 0 0 0 0 0 false 0 0 0 0 0 0 0 0 0 0 (2 * MB) [] false false false.
Definition demo_boot : vstate (api := demo_api) :=
  VState empty_config [] [] ∅ ∅ [] [] [] [] true false false (-1) [] 0 Toy.toy_init.

Definition run {A} (m : VM (api := demo_api) A) (s : vstate (api := demo_api)) :
  vstate (api := demo_api) :=
  match m s with Ok _ s' => s' | Fault _ s' => s' end.

(** Two requests of at most 4096 tokens, one layer, one head of 512 two-byte
    elements: 2048 tokens per page, two pages per request and side; eight
    pages of memory. *)
Definition demo : vstate (api := demo_api) :=
  Eval vm_compute in
    run (api_init_kvcache 1 1 512 2 4096 0 2 5 (2 * MB) false ;;;
         reserve_physical_pages (16 * MB)) demo_boot.

Example demo_config : config_ok (conf demo).
Proof. split; vm_compute; intuition discriminate. Qed.


Lemma demo_base side l p :
  0 <= l < nlay (conf demo) -> base_of demo side l = Some p ->
  l = 0 /\ p = if side then 4303355904 else 4294967296.
Proof.
  change (nlay (conf demo)) with 1. intros Hl. assert (l = 0) as -> by lia.
  destruct side; vm_compute; intros [= <-]; done.
Qed.

Lemma demo_tensors : tensors_ok demo.
Proof.
  split; change (nlay (conf demo)) with 1; change (span (conf demo)) with 8388608.
  - intros side l Hl. assert (l = 0) as -> by lia.
    exists (if side then 4303355904 else 4294967296).
    split; [by destruct side|]. split; [by destruct side|]. split; [by destruct side|].
    exists (if side then 4303355904 else 4294967296), 8388608.
    split; [|by destruct side].
    destruct side; apply list_elem_of_In; vm_compute; auto.
  - intros side l p side' l' p' Hl Hl' Hp Hp' Hne.
    apply (demo_base side l p Hl) in Hp as [-> ->].
    apply (demo_base side' l' p' Hl') in Hp' as [-> ->].
    destruct side, side'; try (by exfalso; apply Hne); lia.
  - intros side l p _ Hl Hp. apply (demo_base side l p Hl) in Hp as [_ ->]. by destruct side.
Qed.

Lemma demo_Inv : Inv (pool demo) demo.
Proof.
  apply Inv_fresh; try done; [by right|apply demo_tensors|..].
  - apply (bool_decide_unpack _). vm_compute. done.
  - intros x Hx. apply (proj1 (Forall_forall (fun x => x ∈ live (gpu demo)) (pool demo)));
      [|done]. apply (bool_decide_unpack _). vm_compute. done.
Qed.
