(* ===== verification/VattnBoot.v ===== *)
(** Start-up of the allocator: after [init_kvcache] and
    [reserve_physical_pages] the state satisfies the invariant.

    The driver calls of the start-up may refuse (no memory, no context, no
    descriptor of the kernel module); [BootLaws] states what a successful one
    does.  The kernel module puts its errors in the status field of a request and
    returns 0 from the system call, and the allocator does not look at the status:
    with the UVM backend start-up is correct when the module has the memory that it
    is asked to reserve ([uvm_pages_left]). *)

From S2P Require Import Prelude GpuApi VattnState VattnPages VattnInit VattnAlloc VattnInv VattnDemo.
Local Open Scope Z_scope.
Local Open Scope cword_scope.

(** Mappings lie inside reservations. *)
Definition view_wf (gran : Z) (v : gview) : Prop :=
  forall q, is_Some (va_map v !! q) -> in_reservation v q gran.

(** [p, p + n) meets no reservation. *)
Definition fresh_range (v : gview) (p n : Z) : Prop :=
  0 <= p /\ p + n < 2 ^ 64 /\ forall b sz, (b, sz) ∈ reserved v -> p + n <= b \/ b + sz <= p.

Definition view_reserve (p n : Z) (v : gview) : gview :=
  GView (va_map v) ((p, n) :: reserved v) (live v).
Definition view_create (h : Z) (v : gview) : gview :=
  GView (va_map v) (reserved v) ({[h]} ∪ live v).

Class BootLaws (api : gpu_api) (gran : Z) {laws : GpuLaws api gran} := {
  (** Pages for which the kernel module has memory. *)
  uvm_pages_left : gstate -> Z;
  cuInit_law g r g' : cuInit g = (r, g') -> view g' = view g;
  cuCtxGetCurrent_law g r c g' : cuCtxGetCurrent g = (r, c, g') -> view g' = view g;
  (** The granularity of the device, when it is the page size in use. *)
  granularity_law g r n g' :
    is_uvm_backend gran = false -> cuMemGetAllocationGranularity g = (r, n, g') ->
    r = CUDA_SUCCESS -> n = gran /\ view g' = view g;
  reserve_law g n a r p g' :
    cuMemAddressReserve g n a = (r, p, g') -> r = CUDA_SUCCESS -> 0 < n ->
    fresh_range (view g) p n /\ p mod gran = 0 /\ view g' = view_reserve p n (view g);
  (** A managed allocation takes no memory before it is used. *)
  managed_law g n r p g' :
    cudaMallocManaged g n = (r, p, g') -> r = 0 -> 0 < n ->
    fresh_range (view g) p n /\ view g' = view_reserve p n (view g) /\
    uvm_pages_left g <= uvm_pages_left g';
  (** A managed allocation that is freed at once leaves mappings, pages and the
      other reservations alone. *)
  managed_probe_law g r p g' :
    cudaMallocManaged g 4 = (r, p, g') ->
    va_map (view (cudaFree g' p)) = va_map (view g) /\
    live (view (cudaFree g' p)) = live (view g) /\
    (forall x, x ∈ reserved (view g) -> x ∈ reserved (view (cudaFree g' p))) /\
    uvm_pages_left g <= uvm_pages_left (cudaFree g' p);
  (** A page request that the system call accepts, while there is memory. *)
  get_page_law g fd uuid rep g' :
    ioctl g fd (GetMemPage gran uuid) = (rep, g') -> io_ret rep = 0 -> 0 < uvm_pages_left g ->
    (io_page rep ∉ live (view g)) /\ view g' = view_create (io_page rep) (view g) /\
    uvm_pages_left g' = uvm_pages_left g - 1;
}.

Section boot.
Context {api : gpu_api} {torch : torch_api} {gran : Z} {laws : GpuLaws api gran}.
Context {blaws : BootLaws api gran} {tlaws : TorchLaws torch}.
Implicit Types (s : vstate).

(** What start-up may change in a state besides the fields it sets: the GPU,
    whose mappings and pages stay, and the descriptor of the kernel module. *)
Record booting s s' : Prop := {
  bo_conf : conf s' = conf s;
  bo_cuda : cuda_pages s' = cuda_pages s;
  bo_uvm : uvm_pages s' = uvm_pages s;
  bo_cmap : cuda_pagemap s' = cuda_pagemap s;
  bo_umap : uvm_pagemap s' = uvm_pagemap s;
  bo_k : k_tensors s' = k_tensors s;
  bo_v : v_tensors s' = v_tensors s;
  bo_map : va_map (view (gpu s')) = va_map (view (gpu s));
  bo_live : live (view (gpu s')) = live (view (gpu s));
  bo_res x : x ∈ reserved (view (gpu s)) -> x ∈ reserved (view (gpu s'));
  bo_left : is_uvm_backend gran = true -> uvm_pages_left (gpu s) <= uvm_pages_left (gpu s');
}.

Lemma booting_refl s : booting s s.
Proof. split; auto with lia. Qed.
Lemma booting_trans s1 s2 s3 : booting s1 s2 -> booting s2 s3 -> booting s1 s3.
Proof.
  intros [] []; split; first [congruence|auto|idtac]. intros Hb.
  etransitivity; eauto.
Qed.

Lemma booting_gpu s g : is_uvm_backend gran = false -> view g = view (gpu s) -> booting s (set_gpu g s).
Proof. intros Hb Hv. split; simpl; auto; [rewrite Hv; auto..|congruence]. Qed.

(** The driver or the kernel module refused. *)
Definition refused (f : fault) (s : vstate) : Prop := f = Exit \/ f = Throw EXN_MANAGED.

Lemma wp_CHECK_CUDA_any f (Q : unit -> vstate -> Prop) (F : fault -> vstate -> Prop) s :
  (forall r g', f (gpu s) = (r, g') -> r = CUDA_SUCCESS -> Q tt (set_gpu g' s)) ->
  (forall g', F Exit (set_gpu g' s)) -> wp (CHECK_CUDA f) Q F s.
Proof.
  intros HQ HF. unfold CHECK_CUDA. wp_steps. destruct (f (gpu s)) as [r g'] eqn:E. wp_steps.
  unfold guard_or. destruct (Z.eqb_spec r CUDA_SUCCESS) as [->|]; [apply wp_ret; by eapply HQ|apply wp_fail, HF].
Qed.

Lemma wp_CHECK_CUDA_OUT_any f (Q : Z -> vstate -> Prop) (F : fault -> vstate -> Prop) s :
  (forall r x g', f (gpu s) = (r, x, g') -> r = CUDA_SUCCESS -> Q x (set_gpu g' s)) ->
  (forall g', F Exit (set_gpu g' s)) -> wp (CHECK_CUDA_OUT f) Q F s.
Proof.
  intros HQ HF. unfold CHECK_CUDA_OUT. wp_steps. destruct (f (gpu s)) as [[r x] g'] eqn:E. wp_steps.
  unfold guard_or. destruct (Z.eqb_spec r CUDA_SUCCESS) as [->|]; [apply wp_ret; wp_steps; by eapply HQ|apply wp_fail, HF].
Qed.

(** ** Backend initialisation *)

Lemma wp_do_cuda_default_init dev (Q : Z -> vstate -> Prop) s :
  is_uvm_backend gran = false ->
  (forall s', booting s s' -> Q gran s') -> wp (do_cuda_default_init dev gran) Q refused s.
Proof.
  intros Hb HQ. unfold do_cuda_default_init. wp_steps.
  apply wp_CHECK_CUDA_any; [|by left]. intros r g Hr _. wp_steps. apply cuInit_law in Hr.
  apply wp_CHECK_CUDA_OUT_any; [|by left]. intros r1 ctx g1 Hr1 _. wp_steps. apply cuCtxGetCurrent_law in Hr1.
  unfold guard_or at 1. destruct (negb (ctx =? 0)); [|by apply wp_fail; left]. wp_steps.
  apply wp_CHECK_CUDA_OUT_any; [|by left]. intros r2 n g2 Hr2 Hs. wp_steps.
  destruct (granularity_law _ _ _ _ Hb Hr2 Hs) as [-> Hv].
  apply wp_guard; [apply Z.eqb_refl|]. wp_steps. apply HQ. simpl in *.
  eapply booting_trans; [by eapply booting_gpu|]. eapply booting_trans; [by eapply (booting_gpu _ g1)|].
  by apply (booting_gpu _ g2).
Qed.

Definition uvm_page_size_ok (psz : Z) : Prop := psz = 64 * KB \/ psz = 128 * KB \/ psz = 256 * KB.

Lemma wp_do_cuda_uvm_init dev (Q : Z -> vstate -> Prop) s :
  uvm_page_size_ok gran ->
  (forall s', booting s s' -> uvm_page_size s' = gran -> 0 <= nvidia_uvm_fd s' -> Q gran s') ->
  wp (do_cuda_uvm_init dev gran) Q refused s.
Proof.
  intros Hp HQ. unfold do_cuda_uvm_init. wp_steps. apply wp_guard.
  { rewrite !orb_true_iff, !Z.eqb_eq. unfold uvm_page_size_ok in Hp. tauto. }
  wp_steps. unfold CHECK_VATTN, vattn_init. wp_steps.
  destruct (cudaMallocManaged (gpu s) 4) as [[r p] g] eqn:E. wp_steps.
  destruct (managed_probe_law _ _ _ _ E) as (Hm & Hl & Hr & Hleft).
  set (fd := match proc_self_fd _ with Some _ => _ | None => _ end).
  assert (Hb : forall u n, booting s (set_uvm_fd fd u n (set_gpu (cudaFree g p) s))) by (intros; split; done).
  destruct (Z.ltb_spec fd 0); wp_steps.
  - by apply wp_fail; left.
  - apply wp_guard; [done|]. wp_steps. apply HQ; [|done|done].
    eapply booting_trans; [apply Hb|]. split; done.
Qed.

(** The page sizes the backends accept. *)
Definition page_size_ok : Prop := gran = 2 * MB \/ uvm_page_size_ok gran.

Lemma page_size_uvm : page_size_ok -> is_uvm_backend gran = true -> uvm_page_size_ok gran.
Proof.
  intros [H|H] Hb; [|done]. unfold is_uvm_backend in Hb. by apply negb_true_iff, Z.eqb_neq in Hb.
Qed.

Lemma page_size_range : page_size_ok -> 64 * KB <= gran <= 2 * MB.
Proof. unfold page_size_ok, uvm_page_size_ok, MB, KB. lia. Qed.

Lemma wp_do_cuda_init dev (Q : Z -> vstate -> Prop) s :
  page_size_ok ->
  (forall s', booting s s' -> (uvm_page_size s' = gran /\ 0 <= nvidia_uvm_fd s') \/ is_uvm_backend gran = false -> Q gran s') ->
  wp (do_cuda_init dev gran) Q refused s.
Proof.
  intros Hp HQ. unfold do_cuda_init. destruct (is_uvm_backend gran) eqn:Hb.
  - apply wp_do_cuda_uvm_init; [by apply page_size_uvm|]. intros. apply HQ; auto.
  - apply wp_do_cuda_default_init; [done|]. intros. apply HQ; auto.
Qed.

(** ** Configuration *)

Context (nl heads hs b ctx dev elem dt : Z) (mega : bool).

(** Bytes of a token in one tensor. *)
Definition token_bytes : Z := heads * hs * elem * (if mega then nl else 1).

(** What the caller must respect: the ranges the asserts of [init_kvcache]
    check, positive sizes, and a token that fits in a page. *)
Record params_ok : Prop := {
  pa_layers : 0 < nl < 100;
  pa_heads : 0 < heads < 256;
  pa_hs : 0 < hs;
  pa_batch : 0 < b < 1000;
  pa_ctx : 0 < ctx < 1000000;
  pa_elem : 0 < elem;
  pa_dtype : itemsize dt = elem;
  pa_token : token_bytes <= gran;
  pa_page : page_size_ok;
}.

(** The pages of a request, as start-up computes them. *)
Definition boot_tpp : Z := gran / token_bytes.
Definition boot_pages : Z := ceil_div ctx boot_tpp.

Record configured s : Prop := {
  cf_ok : config_ok (conf s);
  cf_psz : page_size (conf s) = gran;
  cf_layers : num_layers (conf s) = nl;
  cf_heads : num_kv_heads (conf s) = heads;
  cf_hs : head_size (conf s) = hs;
  cf_batch : max_batch_size (conf s) = b;
  cf_ctx : max_context_length (conf s) = ctx;
  cf_dt : scalar_type (conf s) = dt;
  cf_mega : megacache_enabled (conf s) = mega;
  cf_pages : max_pages_per_req (conf s) = boot_pages;
  cf_tpp : tokens_per_page (conf s) = boot_tpp;
  cf_bytes : page_buffer_token_bytes (conf s) = token_bytes;
  cf_uvm : (uvm_page_size s = gran /\ 0 <= nvidia_uvm_fd s) \/ is_uvm_backend gran = false;
  cf_mapped : mapped_pages s = replicate (Z.to_nat b) 0;
  cf_seqs : curr_seq_lengths s = replicate (Z.to_nat b) 0;
}.

(** The rest of the state, which configuration leaves alone. *)
Record kept s s' : Prop := {
  ke_cuda : cuda_pages s' = cuda_pages s;
  ke_uvm : uvm_pages s' = uvm_pages s;
  ke_cmap : cuda_pagemap s' = cuda_pagemap s;
  ke_umap : uvm_pagemap s' = uvm_pagemap s;
  ke_k : k_tensors s' = k_tensors s;
  ke_v : v_tensors s' = v_tensors s;
  ke_map : va_map (view (gpu s')) = va_map (view (gpu s));
  ke_live : live (view (gpu s')) = live (view (gpu s));
  ke_res x : x ∈ reserved (view (gpu s)) -> x ∈ reserved (view (gpu s'));
  ke_left : is_uvm_backend gran = true -> uvm_pages_left (gpu s) <= uvm_pages_left (gpu s');
}.

Lemma boot_sizes :
  params_ok ->
  0 < token_bytes <= gran /\ 0 < heads * hs <= 2 * MB /\ 0 < heads * hs * elem <= 2 * MB /\
  0 < boot_tpp <= 2 * MB /\ 0 < boot_pages <= ctx.
Proof.
  intros [Hl Hh Hs Hb Hc He _ Ht Hp]. pose proof (page_size_range Hp) as Hg. unfold MB, KB in *.
  assert (H1 : 0 < heads * hs) by nia. assert (H2 : heads * hs <= heads * hs * elem) by nia.
  assert (H3 : heads * hs * elem <= token_bytes) by (unfold token_bytes; destruct mega; nia).
  assert (H4 : 0 < boot_tpp <= gran).
  { unfold boot_tpp. split; [apply Z.div_str_pos; lia|]. apply Z.div_le_upper_bound; nia. }
  split; [lia|]. split; [lia|]. split; [lia|]. split; [lia|].
  unfold boot_pages. split; [apply ceil_div_pos; lia|]. apply ceil_div_mul_ge; nia.
Qed.

Lemma boot_span : params_ok -> b * boot_pages * gran < 2 ^ 51 /\ 0 < boot_pages * gran < 2 ^ 41.
Proof.
  intros Hp. pose proof (boot_sizes Hp) as (_ & _ & _ & _ & Hpg). destruct Hp as [_ _ _ Hb Hc _ _ _ Hg].
  pose proof (page_size_range Hg) as Hr. unfold MB, KB in *.
  assert (boot_pages * gran <= 999999 * 2097152) by (apply Z.mul_le_mono_nonneg; lia).
  assert (b * (boot_pages * gran) <= 999 * (999999 * 2097152)) by (apply Z.mul_le_mono_nonneg; nia).
  rewrite <- Z.mul_assoc. split; [lia|]. nia.
Qed.

Lemma wp_token_bytes_int (Q : Z -> vstate -> Prop) F s :
  params_ok -> num_kv_heads (conf s) = heads -> head_size (conf s) = hs -> bytes_per_elem (conf s) = elem ->
  num_layers (conf s) = nl -> megacache_enabled (conf s) = mega ->
  Q token_bytes s -> wp token_bytes_int Q F s.
Proof.
  intros Hp H1 H2 H3 H4 H5 HQ. pose proof (boot_sizes Hp) as (Ht & Hs1 & Hs2 & _).
  pose proof (page_size_range (pa_page Hp)) as Hg. unfold MB, KB in *.
  unfold token_bytes_int. wp_steps. rewrite H1, H2, H3, H4, H5. unfold imul. wp_steps.
  apply wp_guard; [unfold in_int32; rewrite andb_true_iff, Z.leb_le, Z.ltb_lt; lia|]. wp_steps.
  apply wp_guard; [unfold in_int32; rewrite andb_true_iff, Z.leb_le, Z.ltb_lt; lia|]. wp_steps.
  revert HQ Ht. unfold token_bytes. destruct mega; intros HQ Ht; wp_steps; [|by rewrite Z.mul_1_r in HQ].
  apply wp_guard; [unfold in_int32; rewrite andb_true_iff, Z.leb_le, Z.ltb_lt; lia|]. by wp_steps.
Qed.

Lemma u64_prod_small x y : 0 <= x * y < 2 ^ 64 -> u64 (x * y) = x * y.
Proof. intros. by apply u64_small. Qed.

Lemma wp_init_kvcache (Q : unit -> vstate -> Prop) s :
  params_ok -> (forall s', configured s' -> kept s s' -> Q tt s') ->
  wp (init_kvcache nl heads hs b ctx dev elem dt gran mega) Q refused s.
Proof.
  intros Hp HQ. pose proof (boot_sizes Hp) as (Ht & Hs1 & Hs2 & Htpp & Hpg).
  pose proof (boot_span Hp) as (Hsp1 & Hsp2).
  pose proof Hp as [Hl Hh Hhs Hb Hc He Hdt Htok Hpage]. pose proof (page_size_range Hpage) as Hg. unfold MB, KB in *.
  unfold init_kvcache. wp_steps.
  do 4 (apply wp_guard; [rewrite andb_true_iff, !Z.ltb_lt; lia|]; wp_steps). unfold imul. wp_steps.
  apply wp_guard; [unfold in_int32; rewrite andb_true_iff, Z.leb_le, Z.ltb_lt; lia|]. wp_steps.
  unfold init_kv_block_size. wp_steps.
  match goal with |- wp (do_cuda_init _ _) _ _ ?S => set (s1 := S) end.
  apply (wp_do_cuda_init _ _ s1); [done|]. intros s2 Hb2 Hu. wp_steps.
  pose proof (bo_conf _ _ Hb2) as Hc2. simpl in Hc2. unfold s1 at 1. simpl. wp_steps.
  apply wp_token_bytes_int; simpl; rewrite ?Hc2; try done.
  unfold udiv. wp_steps. rewrite (u64_small token_bytes) by (unfold is_u64; lia).
  apply wp_guard; [apply negb_true_iff, Z.eqb_neq; lia|]. wp_steps. fold boot_tpp.
  unfold init_buffer_sizes. wp_steps. simpl. rewrite ?Hc2. simpl. wp_steps.
  apply wp_token_bytes_int; simpl; rewrite ?Hc2; try done. wp_steps.
  unfold tokens_to_pages, udiv. wp_steps. simpl. rewrite (u64_small ctx) by (unfold is_u64; lia).
  apply wp_guard; [apply negb_true_iff, Z.eqb_neq; lia|]. wp_steps.
  rewrite (u64_small (ctx + boot_tpp)), (u64_small (_ - 1)) by (unfold is_u64; lia).
  fold (ceil_div ctx boot_tpp). fold boot_pages.
  rewrite (u64_small (boot_pages * gran)) by (unfold is_u64; lia).
  unfold init_kvcache_batch_metadata. wp_steps. apply HQ.
  - assert (Hpb : u64 (u64 (u64 (heads * hs) * elem) * nl) = heads * hs * elem * nl \/ mega = false).
    { destruct mega eqn:Em; [left|by right]. unfold token_bytes in Ht. rewrite Em in Ht.
      rewrite (u64_small (heads * hs)), (u64_small (heads * hs * elem)), u64_small by (unfold is_u64; lia). done. }
    split; simpl; rewrite ?Hc2; simpl; try done.
    + split; simpl; rewrite ?Hc2; simpl; try lia; try done. unfold span. simpl. lia.
    + unfold token_bytes. destruct mega; [by destruct Hpb|].
      rewrite (u64_small (heads * hs)), u64_small by (unfold is_u64; lia). lia.
  - destruct Hb2. split; done.
Qed.

(** ** Virtual tensors *)

Lemma round_up_word x y :
  0 < y -> 0 <= x -> x + y < 2 ^ 64 -> x <= ROUND_UP x y < x + y /\ ROUND_UP x y mod y = 0.
Proof.
  intros Hy Hx Hb. unfold ROUND_UP. rewrite (u64_small (x + y)), (u64_small (_ - 1)) by (unfold is_u64; lia).
  pose proof (Z.div_mod (x + y - 1) y) as Hd. pose proof (Z.mod_pos_bound (x + y - 1) y) as Hm.
  rewrite u64_small by (unfold is_u64; nia). rewrite Z.mod_mul by lia. split; [nia|done].
Qed.

(** The size of a tensor: whole pages for every request, no less than the
    pages of its longest sequence. *)
Lemma wp_vtensor_size (Q : Z -> vstate -> Prop) F s (rest : list Z) :
  params_ok -> Forall (fun d => 0 <= d) rest -> fold_right Z.mul elem rest = ctx * token_bytes ->
  (forall size, b * (boot_pages * gran) <= size < 2 ^ 60 -> Q size s) ->
  wp (vtensor_size_bytes (b :: rest) gran (boot_pages * gran) elem) Q F s.
Proof.
  intros Hp Hpos Hprod HQ. pose proof (boot_sizes Hp) as (Ht & _ & _ & _ & Hpg). pose proof (boot_span Hp) as (_ & Hsp2).
  pose proof Hp as [_ _ _ Hb Hc He _ Htok Hpage]. pose proof (page_size_range Hpage) as Hg. unfold MB, KB in *.
  assert (Hct : 0 < ctx * token_bytes < 2 ^ 41).
  { split; [nia|]. apply Z.le_lt_trans with (999999 * 2097152); [|lia]. apply Z.mul_le_mono_nonneg; lia. }
  unfold vtensor_size_bytes. wp_steps. apply wp_guard.
  { apply forallb_forall. intros d Hd. apply Z.leb_le. destruct Hd as [<-|Hd]; [lia|].
    rewrite Forall_forall in Hpos. apply Hpos. by apply list_elem_of_In. }
  wp_steps. apply wp_guard; [apply negb_true_iff, Z.eqb_neq; lia|]. wp_steps.
  assert (Hlog : computeStorageNbytesContiguous (b :: rest) elem = b * (ctx * token_bytes)).
  { rewrite storage_nbytes_law; simpl; rewrite ?Hprod; [done|constructor; [lia|done]|lia|].
    apply Z.lt_trans with (1000 * 2 ^ 41); [|lia]. apply Z.mul_lt_mono_nonneg; lia. }
  rewrite Hlog. apply wp_guard; [apply Z.eqb_eq; rewrite Z.mul_comm; apply Z.mod_mul; lia|]. wp_steps.
  rewrite (Z.mul_comm b), Z.div_mul by lia.
  apply wp_guard; [apply negb_true_iff, Z.eqb_neq; lia|]. wp_steps.
  set (pr := if _ <? _ then _ else ctx * token_bytes).
  assert (Hpr : boot_pages * gran <= pr < 2 ^ 41).
  { unfold pr. destruct (Z.ltb_spec (ctx * token_bytes) (boot_pages * gran)); lia. }
  clearbody pr. destruct (round_up_word pr gran) as [Hru Hmod]; [lia|lia|lia|].
  generalize dependent (ROUND_UP pr gran). intros ru Hru Hmod.
  assert (Hbig : 0 <= ru * b < 2 ^ 60).
  { split; [apply Z.mul_nonneg_nonneg; lia|]. apply Z.lt_trans with (2 ^ 42 * 1000); [|lia].
    apply Z.mul_lt_mono_nonneg; lia. }
  assert (Hge : 1 * gran <= boot_pages * gran) by (apply Z.mul_le_mono_nonneg_r; lia).
  assert (Hsmall : 0 <= gran * b <= ru * b)
    by (split; [apply Z.mul_nonneg_nonneg; lia|apply Z.mul_le_mono_nonneg_r; lia]).
  rewrite (u64_small (ru * b)), (u64_small (gran * b)) by (unfold is_u64; lia).
  destruct (Z.ltb_spec (ru * b) (gran * b)); [lia|].
  apply wp_guard; [apply Z.eqb_eq, Z.mod_mul; lia|]. wp_steps.
  rewrite Z.div_mul by lia. apply wp_guard; [by apply Z.eqb_eq|]. wp_steps. apply HQ.
  split; [|lia]. rewrite (Z.mul_comm b). apply Z.mul_le_mono_nonneg_r; lia.
Qed.

Lemma wp_vtensor_allocate size (Q : Z -> vstate -> Prop) s :
  0 < size < 2 ^ 60 ->
  (forall p g, fresh_range (view (gpu s)) p size -> (is_uvm_backend gran = false -> p mod gran = 0) -> view g = view_reserve p size (view (gpu s)) ->
     (is_uvm_backend gran = true -> uvm_pages_left (gpu s) <= uvm_pages_left g) -> Q p (set_gpu g s)) ->
  wp (vtensor_allocate gran size) Q refused s.
Proof.
  intros Hs HQ. unfold vtensor_allocate. wp_steps. apply wp_guard; [apply Z.ltb_lt; lia|]. wp_steps.
  apply wp_guard; [apply negb_true_iff, Z.eqb_neq; lia|]. wp_steps.
  destruct (negb (is_uvm_backend gran)) eqn:Hb.
  - apply wp_CHECK_CUDA_OUT_any; [|by left]. intros r p g E Hr. apply negb_true_iff in Hb.
    destruct (reserve_law _ _ _ _ _ _ E Hr) as (? & ? & ?); [lia|]. apply HQ; [done|done|done|congruence].
  - wp_steps. destruct (cudaMallocManaged (gpu s) size) as [[r p] g] eqn:E. wp_steps.
    unfold guard_or. destruct (Z.eqb_spec r 0) as [Hr|]; [apply wp_ret|by apply wp_fail; right]. wp_steps.
    destruct (managed_law _ _ _ _ _ E Hr) as (? & ? & ?); [lia|]. apply negb_false_iff in Hb. apply HQ; congruence || done.
Qed.

Lemma wp_alloc_virtual_tensor (Q : tensor -> vstate -> Prop) s :
  params_ok -> configured s ->
  (forall t g size, fresh_range (view (gpu s)) (data_ptr t) size -> span (conf s) <= size ->
     (is_uvm_backend gran = false -> data_ptr t mod gran = 0) ->
     view g = view_reserve (data_ptr t) size (view (gpu s)) ->
     (is_uvm_backend gran = true -> uvm_pages_left (gpu s) <= uvm_pages_left g) -> Q t (set_gpu g s)) ->
  wp alloc_virtual_tensor Q refused s.
Proof.
  intros Hp Hcf HQ. pose proof (boot_span Hp) as (_ & Hsp).
  destruct Hcf as [Hok Hpsz Hl Hh Hhs Hb Hc Hdt Hm Hpg _ _ _ _ _].
  unfold alloc_virtual_tensor, alloc_vtensor. wp_steps.
  rewrite Hb, Hc, Hl, Hh, Hhs, Hdt, Hm, Hpsz, (ok_per_req _ Hok), Hpg, Hpsz, (pa_dtype Hp).
  replace (if mega then [b; ctx; nl; heads; hs] else [b; ctx; heads; hs])
    with (b :: (if mega then [ctx; nl; heads; hs] else [ctx; heads; hs])) by by destruct mega.
  pose proof Hp as [Hl' Hh' Hhs' Hb' Hc' _ _ _ _].
  apply wp_vtensor_size; [done|destruct mega; repeat constructor; lia| |].
  { unfold token_bytes. destruct mega; simpl; ring. }
  intros size Hsz. wp_steps. apply wp_vtensor_allocate; [nia|]. intros p g Hf Ha Hv Hleft. wp_steps.
  apply (HQ _ g size); [done| |done|done|done]. unfold span. rewrite Hb, Hpg, Hpsz. lia.
Qed.

(** ** Placement of the tensors *)

Definition disjoint_tensors (n : Z) (t t' : tensor) : Prop :=
  data_ptr t + n <= data_ptr t' \/ data_ptr t' + n <= data_ptr t.

Record placed s (ts : list tensor) : Prop := {
  pl_wf : view_wf gran (view (gpu s));
  pl_in t : t ∈ ts -> 0 <= data_ptr t /\ data_ptr t + span (conf s) < 2 ^ 64 /\
    in_reservation (view (gpu s)) (data_ptr t) (span (conf s));
  pl_disjoint i j t t' : ts !! i = Some t -> ts !! j = Some t' -> i <> j ->
    disjoint_tensors (span (conf s)) t t';
  pl_aligned t : t ∈ ts -> is_uvm_backend gran = false -> data_ptr t mod gran = 0;
  pl_free t a : t ∈ ts -> data_ptr t - gran < a < data_ptr t + span (conf s) ->
    va_map (view (gpu s)) !! a = None;
}.

Lemma in_reservation_grow v v' p n :
  (forall x, x ∈ reserved v -> x ∈ reserved v') -> in_reservation v p n -> in_reservation v' p n.
Proof. intros Hr (a & z & Hin & H1 & H2). exists a, z. auto. Qed.

Lemma placed_nil s : view_wf gran (view (gpu s)) -> placed s [].
Proof. intros Hw. split; try done; by intros ? []%elem_of_nil + intros ? ? []%elem_of_nil. Qed.

(** One more tensor, in a fresh reservation. *)
Lemma placed_snoc s ts t g size :
  params_ok -> configured s -> placed s ts ->
  fresh_range (view (gpu s)) (data_ptr t) size -> span (conf s) <= size ->
  (is_uvm_backend gran = false -> data_ptr t mod gran = 0) ->
  view g = view_reserve (data_ptr t) size (view (gpu s)) -> placed (set_gpu g s) (ts ++ [t]).
Proof.
  intros Hp Hcf [Hw Hin Hdis Hal Hfree] (Hf1 & Hf2 & Hf3) Hsz Ha Hv.
  assert (Hsp : 0 <= span (conf s)).
  { unfold span. pose proof (ok_batch _ (cf_ok _ Hcf)). pose proof (ok_maxp _ (cf_ok _ Hcf)).
    pose proof (ok_psz _ (cf_ok _ Hcf)). nia. }
  assert (Hres : forall x, x ∈ reserved (view (gpu s)) -> x ∈ reserved (view g)) by (rewrite Hv; by right).
  assert (Hnew : forall t', t' ∈ ts -> disjoint_tensors (span (conf s)) t' t).
  { intros t' Ht'. destruct (Hin t' Ht') as (_ & _ & (a & z & Haz & H1 & H2)).
    unfold disjoint_tensors. destruct (Hf3 a z Haz); lia. }
  split; simpl.
  - rewrite Hv. intros q Hq. eapply in_reservation_grow; [|by apply Hw]. by right.
  - intros t' [Ht'| ->%list_elem_of_singleton]%elem_of_app.
    + destruct (Hin t' Ht') as (? & ? & ?). split; [done|]. split; [done|]. by eapply in_reservation_grow.
    + split; [done|]. split; [lia|]. exists (data_ptr t), size. rewrite Hv. split; [left|lia].
  - intros i j t1 t2 H1 H2 Hne. apply lookup_app_Some in H1, H2.
    destruct H1 as [H1|[Hi H1]], H2 as [H2|[Hj H2]].
    + by apply (Hdis i j).
    + apply list_lookup_singleton_Some in H2 as [_ <-]. apply Hnew. by eapply list_elem_of_lookup_2.
    + apply list_lookup_singleton_Some in H1 as [_ <-].
      destruct (Hnew t2); [by eapply list_elem_of_lookup_2|by right|by left].
    + apply list_lookup_singleton_Some in H1 as [? _], H2 as [? _]. lia.
  - intros t' [Ht'| ->%list_elem_of_singleton]%elem_of_app; [by apply Hal|done].
  - rewrite Hv. simpl. intros t' a [Ht'| ->%list_elem_of_singleton]%elem_of_app Hq; [by apply (Hfree t')|].
    destruct (va_map (view (gpu s)) !! a) as [h|] eqn:E; [exfalso|done].
    destruct (Hw a) as (a' & z & Haz & H1 & H2); [by eexists|].
    destruct (Hf3 a' z Haz); lia.
Qed.

(** What stays the same while tensors are made. *)
Record same_pages s s' : Prop := {
  sp_cuda : cuda_pages s' = cuda_pages s;
  sp_uvm : uvm_pages s' = uvm_pages s;
  sp_cmap : cuda_pagemap s' = cuda_pagemap s;
  sp_umap : uvm_pagemap s' = uvm_pagemap s;
  sp_live : live (view (gpu s')) = live (view (gpu s));
  sp_left : is_uvm_backend gran = true -> uvm_pages_left (gpu s) <= uvm_pages_left (gpu s');
}.
Lemma same_pages_trans s1 s2 s3 : same_pages s1 s2 -> same_pages s2 s3 -> same_pages s1 s3.
Proof. intros [] []; split; try congruence. intros Hb. etransitivity; eauto. Qed.

Lemma configured_gpu s g : configured s -> configured (set_gpu g s).
Proof. intros []; split; done. Qed.
Lemma configured_tensors s k v : configured s -> configured (set_tensors k v s).
Proof. intros []; split; done. Qed.

(** The tensors [ts] have been made. *)
Record making s0 s (ts : list tensor) : Prop := {
  ma_cf : configured s;
  ma_placed : placed s ts;
  ma_same : same_pages s0 s;
}.

Lemma wp_make_tensor (Q : tensor -> vstate -> Prop) s0 s ts :
  params_ok -> making s0 s ts ->
  (forall t g, making s0 (set_gpu g s) (ts ++ [t]) -> Q t (set_gpu g s)) ->
  wp alloc_virtual_tensor Q refused s.
Proof.
  intros Hp [Hcf Hpl Hsm] HQ. apply wp_alloc_virtual_tensor; [done..|].
  intros t g size Hf Hsz Ha Hvw Hleft. apply HQ. split; [by apply configured_gpu|by eapply placed_snoc|].
  eapply same_pages_trans; [done|]. split; simpl; try done. by rewrite Hvw.
Qed.

Lemma making_set_tensors s0 s ts k v : making s0 s ts -> making s0 (set_tensors k v s) ts.
Proof. intros [[] [] []]; split; split; done. Qed.

(** Made with one K and one V tensor per layer. *)
Definition complete s0 s : Prop :=
  exists K V, k_tensors s = K /\ v_tensors s = V /\ making s0 s (K ++ V) /\
    Z.of_nat (length K) = nlay (conf s) /\ Z.of_nat (length V) = nlay (conf s).

Lemma wp_layer_tensors (Q : unit -> vstate -> Prop) s0 s :
  params_ok -> mega = false -> making s0 s [] -> k_tensors s = [] -> v_tensors s = [] ->
  (forall s', complete s0 s' -> Q tt s') ->
  wp (for_each (up 0 (2 * nl)) (fun i =>
        t <- alloc_virtual_tensor ;; if i <? nl then push_k t else push_v t)) Q refused s.
Proof.
  intros Hp Hmega Hm Hk Hv HQ. pose proof (pa_layers Hp) as Hl.
  apply (wp_for_up (fun i s' => exists K V, k_tensors s' = K /\ v_tensors s' = V /\ making s0 s' (K ++ V) /\
           Z.of_nat (length K) = Z.min i nl /\ Z.of_nat (length V) = Z.max 0 (i - nl))); [lia|..].
  - exists [], []. rewrite Hk, Hv. simpl. split; [done|]. split; [done|]. split; [done|]. lia.
  - intros i s' Hi (K & V & HK & HV & Hmk & HlK & HlV). wp_steps.
    eapply wp_make_tensor; [done|exact Hmk|]. intros t g Hmk'.
    destruct (Z.ltb_spec i nl).
    + assert (V = []) as -> by (destruct V; [done|simpl in HlV; lia]). unfold push_k. wp_steps.
      exists (K ++ [t]), []. simpl. rewrite HK, HV, app_nil_r in *. split; [done|]. split; [done|].
      split; [by apply making_set_tensors|]. rewrite length_app. simpl. lia.
    + unfold push_v. wp_steps. exists K, (V ++ [t]). simpl. rewrite HK, HV. split; [done|]. split; [done|].
      rewrite app_assoc. split; [by apply making_set_tensors|]. rewrite length_app. simpl. lia.
  - intros s' (K & V & HK & HV & Hmk & HlK & HlV). apply HQ. exists K, V.
    pose proof (ma_cf _ _ _ Hmk) as Hcf. unfold nlay. rewrite (cf_mega _ Hcf), (cf_layers _ Hcf), Hmega.
    split; [done|]. split; [done|]. split; [done|]. lia.
Qed.

Lemma wp_init_kvcache_virtual (Q : list tensor -> vstate -> Prop) s0 s :
  params_ok -> making s0 s [] -> k_tensors s = [] -> v_tensors s = [] ->
  (forall s', complete s0 s' -> Q (k_tensors s' ++ v_tensors s') s') ->
  wp init_kvcache_virtual Q refused s.
Proof.
  intros Hp Hm Hk Hv HQ. pose proof (ma_cf _ _ _ Hm) as Hcf. pose proof Hp as [Hl _ _ Hb Hc _ _ _ _].
  pose proof (boot_sizes Hp) as (Ht & _).
  unfold init_kvcache_virtual. wp_steps. unfold check_kvcache_config.
  rewrite (cf_layers _ Hcf), (cf_batch _ Hcf), (cf_ctx _ Hcf), (cf_bytes _ Hcf), (cf_mega _ Hcf).
  replace (negb (negb _)) with false
    by (repeat (match goal with |- context [?x =? 0] => destruct (Z.eqb_spec x 0); [lia|] end); done).
  wp_steps. assert (Hm2 : mega = true \/ mega = false) by (destruct mega; auto).
  destruct Hm2 as [Hmega|Hmega]; rewrite Hmega at 1; wp_steps.
  - eapply wp_make_tensor; [done|exact Hm|]. intros t0 g0 Hm0. wp_steps.
    eapply wp_make_tensor; [done|exact Hm0|]. intros t1 g1 Hm1. unfold push_k, push_v. wp_steps.
    apply HQ. exists [t0], [t1]. simpl. rewrite Hk, Hv. split; [done|]. split; [done|].
    split; [by do 2 apply making_set_tensors|]. unfold nlay. by rewrite (cf_mega _ Hcf), Hmega.
  - by apply (wp_layer_tensors _ s0).
Qed.

(** ** Reserving the pages *)

Record reserving s s' : Prop := {
  re_conf : conf s' = conf s;
  re_k : k_tensors s' = k_tensors s;
  re_v : v_tensors s' = v_tensors s;
  re_map : pmap s' = pmap s;
  re_mapped : mapped_pages s' = mapped_pages s;
  re_seqs : curr_seq_lengths s' = curr_seq_lengths s;
  re_psz : uvm_page_size s' = uvm_page_size s;
  re_fd : nvidia_uvm_fd s' = nvidia_uvm_fd s;
  re_va : va_map (view (gpu s')) = va_map (view (gpu s));
  re_res : reserved (view (gpu s')) = reserved (view (gpu s));
  re_nodup : NoDup (pool s');
  re_live x : x ∈ pool s' -> x ∈ live (view (gpu s'));
}.

(** One page more. *)
Lemma reserving_page s s' h g l :
  reserving s s' -> h ∉ live (view (gpu s')) -> view g = view_create h (view (gpu s')) ->
  conf l = conf s' -> k_tensors l = k_tensors s' -> v_tensors l = v_tensors s' -> pmap l = pmap s' ->
  mapped_pages l = mapped_pages s' -> curr_seq_lengths l = curr_seq_lengths s' ->
  uvm_page_size l = uvm_page_size s' -> nvidia_uvm_fd l = nvidia_uvm_fd s' -> gpu l = g -> pool l = pool s' ++ [h] -> reserving s l.
Proof.
  intros [? ? ? ? ? ? ? ? Hva Hre Hnd Hlv] Hh Hv Hc Hk Hvt Hm Hmp Hq Hps Hfd Hg Hpo. split; try congruence.
  - by rewrite Hg, Hv.
  - by rewrite Hg, Hv.
  - rewrite Hpo. apply NoDup_app. split; [done|]. split; [|apply NoDup_singleton].
    intros x Hx ->%list_elem_of_singleton. by apply Hh, Hlv.
  - intros x. rewrite Hpo, Hg, Hv. simpl.
    intros [Hx| ->%list_elem_of_singleton]%elem_of_app; apply elem_of_union; [right; by apply Hlv|left].
    by apply elem_of_singleton.
Qed.

Definition phys_blocks (free_memory : Z) s : Z :=
  let n := free_memory / gran in n - n mod (2 * nlay (conf s)).

Lemma wp_get_num_phys_blocks free_memory (Q : Z -> vstate -> Prop) F s :
  params_ok -> configured s -> 0 <= free_memory < 2 ^ 64 ->
  (0 <= phys_blocks free_memory s -> Q (phys_blocks free_memory s) s) ->
  wp (get_num_phys_blocks free_memory gran) Q F s.
Proof.
  intros Hp Hcf Hm HQ. pose proof (page_size_range (pa_page Hp)) as Hg. unfold MB, KB in Hg.
  unfold get_num_phys_blocks, udiv. wp_steps. apply wp_guard; [apply negb_true_iff, Z.eqb_neq; lia|]. wp_steps.
  rewrite (pages_per_kvblock_eq _ (cf_ok _ Hcf)). pose proof (nlay_pos _ (cf_ok _ Hcf)) as Hn.
  apply wp_guard; [apply negb_true_iff, Z.eqb_neq; lia|]. wp_steps.
  assert (Hd : 0 <= free_memory / gran < 2 ^ 64).
  { split; [apply Z.div_pos; lia|]. apply Z.div_lt_upper_bound; nia. }
  pose proof (Z.mod_pos_bound (free_memory / gran) (2 * nlay (conf s)) ltac:(lia)) as Hmod.
  pose proof (Z.mod_le (free_memory / gran) (2 * nlay (conf s)) ltac:(lia) ltac:(lia)) as Hle.
  rewrite u64_small by (unfold is_u64; lia). apply HQ. unfold phys_blocks. lia.
Qed.

Lemma wp_reserve_cuda free_memory (Q : Z -> vstate -> Prop) s :
  params_ok -> is_uvm_backend gran = false -> configured s -> reserving s s -> pool s = [] ->
  0 <= free_memory < 2 ^ 64 ->
  (forall s', reserving s s' -> Z.of_nat (length (pool s')) = phys_blocks free_memory s ->
     Q (phys_blocks free_memory s) s') ->
  wp (reserve_cuda_pages free_memory gran) Q refused s.
Proof.
  intros Hp Hb Hcf Hr Hempty Hm HQ. unfold reserve_cuda_pages. wp_steps.
  apply wp_get_num_phys_blocks; [done..|]. intros Hn. wp_steps. set (n := phys_blocks free_memory s) in *.
  assert (Hpool : forall s', conf s' = conf s -> pool s' = cuda_pages s' /\ pmap s' = cuda_pagemap s').
  { intros s' Hc. unfold pool, pmap. by rewrite Hc, (cf_psz _ Hcf), Hb. }
  apply (wp_while (fun s' => reserving s s' /\ Z.of_nat (length (pool s')) <= n)
           (fun s' => n - Z.of_nat (length (pool s')))).
  - rewrite Hempty. split; [done|]. simpl. lia.
  - rewrite Hempty. simpl. lia.
  - intros s' [Hs' Hlen]. destruct (Hpool s' (re_conf _ _ Hs')) as [Hpo Hpm]. wp_steps.
    rewrite <- Hpo. destruct (Z.ltb_spec (Z.of_nat (length (pool s'))) n) as [Hlt|Hge]; (split; [done|]).
    + split; [lia|]. wp_steps. apply wp_CHECK_CUDA_OUT_any; [|by left]. intros r h g E Hr'. wp_steps.
      destruct (cuMemCreate_law _ _ _ _ E Hr') as [Hh Hv].
      set (s2 := set_cuda_pages _ _). destruct (Hpool s2 (re_conf _ _ Hs')) as [Hpo2 Hpm2].
      assert (Hnew : pool s2 = pool s' ++ [h]) by (rewrite Hpo2, Hpo; done).
      split; [split|].
      * by eapply (reserving_page s s' h g s2); try done; rewrite Hpm2, Hpm.
      * rewrite Hnew, length_app. simpl. lia.
      * rewrite Hnew, length_app. simpl. lia.
    + wp_steps. rewrite <- Hpo. replace (Z.of_nat (length (pool s'))) with n by lia. apply HQ; [done|lia].
Qed.

Lemma wp_reserve_uvm free_memory (Q : Z -> vstate -> Prop) s :
  params_ok -> phys_blocks free_memory s <= uvm_pages_left (gpu s) -> is_uvm_backend gran = true -> configured s -> reserving s s -> pool s = [] ->
  0 <= free_memory < 2 ^ 64 ->
  (forall s', reserving s s' -> Z.of_nat (length (pool s')) = phys_blocks free_memory s ->
     Q (phys_blocks free_memory s) s') ->
  wp (reserve_uvm_pages free_memory gran) Q refused s.
Proof.
  intros Hp Hio Hb Hcf Hr Hempty Hm HQ. unfold reserve_uvm_pages. wp_steps.
  apply wp_get_num_phys_blocks; [done..|]. intros Hn. wp_steps. set (n := phys_blocks free_memory s) in *.
  assert (Hpool : forall s', conf s' = conf s -> pool s' = uvm_pages s' /\ pmap s' = uvm_pagemap s').
  { intros s' Hc. unfold pool, pmap. by rewrite Hc, (cf_psz _ Hcf), Hb. }
  assert (Hups : uvm_page_size s = gran) by (destruct (cf_uvm _ Hcf) as [[]|]; [done|congruence]).
  apply (wp_while (fun s' => reserving s s' /\ Z.of_nat (length (pool s')) <= n /\ n - Z.of_nat (length (pool s')) <= uvm_pages_left (gpu s'))
           (fun s' => n - Z.of_nat (length (pool s')))).
  - rewrite Hempty. split; [done|]. simpl. lia.
  - rewrite Hempty. simpl. lia.
  - intros s' (Hs' & Hlen & Hleft). destruct (Hpool s' (re_conf _ _ Hs')) as [Hpo Hpm]. wp_steps.
    rewrite <- Hpo. destruct (Z.ltb_spec (Z.of_nat (length (pool s'))) n) as [Hlt|Hge]; (split; [done|]).
    + split; [lia|]. unfold vattn_get_mem_page, do_ioctl. wp_steps. rewrite (re_psz _ _ Hs'), Hups.
      destruct (ioctl _ _ _) as [rep g] eqn:E. wp_steps.
      destruct (Z.eqb_spec (io_ret rep) 0) as [Hret|]; wp_steps; simpl.
      2: by left.
      destruct (get_page_law _ _ _ _ _ E Hret) as (Hh & Hv & Hl'); [lia|].
      simpl. wp_steps. apply wp_guard; [done|]. wp_steps. set (s2 := set_uvm_pages _ _). destruct (Hpool s2 (re_conf _ _ Hs')) as [Hpo2 Hpm2].
      assert (Hnew : pool s2 = pool s' ++ [io_page rep]) by (rewrite Hpo2, Hpo; done).
      split; [split; [|split]|].
      * by eapply (reserving_page s s' (io_page rep) g s2); try done; rewrite Hpm2, Hpm.
      * rewrite Hnew, length_app. simpl. lia.
      * rewrite Hnew, length_app. simpl. lia.
      * rewrite Hnew, length_app. simpl. lia.
    + wp_steps. rewrite <- Hpo. replace (Z.of_nat (length (pool s'))) with n by lia. apply HQ; [done|lia].
Qed.

(** ** The invariant holds after start-up *)

(** A state before configuration: nothing allocated. *)
Record unconfigured s : Prop := {
  un_k : k_tensors s = [];
  un_v : v_tensors s = [];
  un_cuda : cuda_pages s = [];
  un_uvm : uvm_pages s = [];
  un_cmap : cuda_pagemap s = ∅;
  un_umap : uvm_pagemap s = ∅;
  un_wf : view_wf gran (view (gpu s));
}.

Lemma placed_base s K V side l p :
  k_tensors s = K -> v_tensors s = V -> Z.of_nat (length K) = nlay (conf s) ->
  0 <= l < nlay (conf s) -> base_of s side l = Some p ->
  exists t, (K ++ V) !! Z.to_nat (if side then nlay (conf s) + l else l) = Some t /\ data_ptr t = p.
Proof.
  intros HK HV Hlen Hl. unfold base_of. rewrite HK, HV. intros [t [Ht ->]]%fmap_Some.
  exists t. split; [|done]. unfold nthZ in Ht. rewrite (proj2 (Z.leb_le 0 l)) in Ht by lia. destruct side.
  - rewrite lookup_app_r by lia. by replace (Z.to_nat (nlay (conf s) + l) - length K)%nat with (Z.to_nat l) by lia.
  - rewrite lookup_app_l by lia. done.
Qed.

Lemma complete_tensors s0 s : complete s0 s -> tensors_ok s.
Proof.
  intros (K & V & HK & HV & Hm & HlK & HlV). destruct Hm as [Hcf [Hw Hin Hdis Hal _] _]. split.
  - intros side l Hl.
    assert (exists t, nthZ (if side then v_tensors s else k_tensors s) l = Some t) as [t Ht].
    { apply nthZ_is_Some. rewrite HK, HV. destruct side; lia. }
    exists (data_ptr t). split; [unfold base_of; by rewrite Ht|]. apply Hin, elem_of_app.
    apply nthZ_elem in Ht. rewrite HK, HV in Ht. destruct side; auto.
  - intros side l p side' l' p' Hl Hl' Hp Hp' Hne.
    destruct (placed_base s K V side l p) as (t & Ht & <-); [done..|].
    destruct (placed_base s K V side' l' p') as (t' & Ht' & <-); [done..|].
    apply (Hdis _ _ _ _ Ht Ht'). intros E. apply Hne.
    destruct side, side'; f_equal; lia.
  - intros side l p. rewrite (cf_psz _ Hcf). intros Hb Hl Hp.
    destruct (placed_base s K V side l p) as (t & Ht & <-); [done..|].
    apply Hal; [by eapply list_elem_of_lookup_2|done].
Qed.

Lemma complete_inv s0 s s' :
  params_ok -> unconfigured s0 -> complete s0 s -> reserving s s' -> Inv (pool s') s'.
Proof.
  intros Hp [_ _ Hc Hu Hcm Hum _] Hcomp Hr. pose proof (complete_tensors _ _ Hcomp) as Ht.
  destruct Hcomp as (K & V & HK & HV & [Hcf [_ _ _ _ Hfree] Hsm] & HlK & _).
  destruct Hr as [Hrc Hrk Hrv Hrm Hmp Hsq Hups Hfd Hva Hres Hnd Hlv].
  assert (Hbase : forall side l, base_of s' side l = base_of s side l).
  { intros. unfold base_of. by rewrite Hrk, Hrv. }
  apply Inv_fresh; rewrite ?Hrc, ?Hups, ?Hfd, ?Hmp, ?Hsq; try done.
  - apply Hcf.
  - apply Hcf.
  - rewrite (cf_psz _ Hcf). apply (cf_uvm _ Hcf).
  - destruct Ht as [H1 H2 H3]. split; rewrite Hrc.
    + intros side l Hl. rewrite Hbase. destruct (H1 side l Hl) as (p & ? & ? & ? & (a & z & ? & ?)).
      exists p. repeat split; auto. exists a, z. by rewrite Hres.
    + intros side l p side' l' p'. rewrite !Hbase. apply H2.
    + intros side l p. rewrite Hbase. apply H3.
  - rewrite Hrm. unfold pmap. destruct Hsm as [_ _ H1 H2 _ _]. rewrite H1, H2, Hcm, Hum. by destruct (is_uvm_backend _).
  - rewrite (cf_batch _ Hcf). apply Hcf.
  - rewrite (cf_batch _ Hcf). apply Hcf.
  - intros side l p a Hl Hb. rewrite Hbase in Hb. rewrite (cf_psz _ Hcf), Hva.
    destruct (placed_base s K V side l p) as (t & Htt & <-); [done..|].
    apply Hfree. by eapply list_elem_of_lookup_2.
Qed.

Lemma wp_boot free_memory (Q : Z -> vstate -> Prop) s :
  params_ok -> (is_uvm_backend gran = true -> free_memory / gran <= uvm_pages_left (gpu s)) -> unconfigured s -> 0 <= free_memory < 2 ^ 64 ->
  (forall s' n, Inv (pool s') s' -> configured s' -> n = phys_blocks free_memory s' ->
     Z.of_nat (length (pool s')) = n -> Q n s') ->
  wp (api_init_kvcache nl heads hs b ctx dev elem dt gran mega ;;; reserve_physical_pages free_memory) Q refused s.
Proof.
  intros Hp Hio Hun Hm HQ. pose proof (boot_sizes Hp) as (_ & Hhs & _). pose proof Hp as [Hl Hh Hs0 Hb _ _ _ _ _].
  unfold MB, KB in Hhs. unfold api_init_kvcache. apply wp_bind. apply wp_bind.
  rewrite !int32_small by (unfold is_int32; nia).
  apply wp_init_kvcache; [done|]. intros s1 Hcf Hk. wp_steps.
  apply (wp_init_kvcache_virtual _ s).
  - done.
  - split; [done| |].
    + apply placed_nil. intros q Hq. rewrite (ke_map _ _ Hk) in Hq.
      eapply in_reservation_grow; [apply Hk|]. by apply (un_wf _ Hun).
    + destruct Hk. by split.
  - by rewrite (ke_k _ _ Hk), (un_k _ Hun).
  - by rewrite (ke_v _ _ Hk), (un_v _ Hun).
  - intros s2 Hcomp. pose proof Hcomp as (K & V & _ & _ & [Hcf2 _ Hsm] & _).
    assert (Hpool : pool s2 = []).
    { unfold pool. destruct Hsm as [H1 H2 _ _ _ _]. rewrite H1, H2, (un_cuda _ Hun), (un_uvm _ Hun).
      by destruct (is_uvm_backend (page_size (conf s2))). }
    assert (Hr2 : reserving s2 s2).
    { split; try done; rewrite Hpool; [constructor|by intros x []%elem_of_nil]. }
    assert (Hfin : forall s', reserving s2 s' -> Z.of_nat (length (pool s')) = phys_blocks free_memory s2 ->
                     Q (phys_blocks free_memory s2) s').
    { intros s' Hr Hlen. apply HQ; [by eapply complete_inv| | |done].
      - destruct Hr as [Hrc _ _ _ Hmp Hsq Hps Hfd _ _ _ _]. destruct Hcf2. split; rewrite ?Hrc, ?Hmp, ?Hsq, ?Hps, ?Hfd; done.
      - unfold phys_blocks. by rewrite (re_conf _ _ Hr). }
    unfold reserve_physical_pages, reserve_gpu_pages. wp_steps. rewrite (cf_psz _ Hcf2).
    destruct (is_uvm_backend gran) eqn:Eb.
    + apply wp_reserve_uvm; auto. specialize (Hio eq_refl). pose proof (sp_left _ _ Hsm Eb). pose proof (ke_left _ _ Hk Eb).
      pose proof (nlay_pos _ (cf_ok _ Hcf2)). pose proof (Z.mod_pos_bound (free_memory / gran) (2 * nlay (conf s2)) ltac:(lia)). unfold phys_blocks. lia.
    + apply wp_reserve_cuda; auto.
Qed.
End boot.

(** The toy GPU meets the laws of start-up; it has memory for 2^40 pages. *)
Lemma toy_fresh_base gran v :
  0 < gran -> 0 <= Toy.fresh_base gran v /\ Toy.fresh_base gran v mod gran = 0 /\
    forall a z, (a, z) ∈ reserved v -> a + z <= Toy.fresh_base gran v.
Proof.
  intros Hg. unfold Toy.fresh_base.
  assert (Hge : 0 <= fold_right (fun r acc => Z.max (fst r + snd r) acc) 4294967296 (reserved v) /\
    forall a z, (a, z) ∈ reserved v ->
      a + z <= fold_right (fun r acc => Z.max (fst r + snd r) acc) 4294967296 (reserved v)).
  { induction (reserved v) as [|[a z] l [IH1 IH2]]; simpl.
    - split; [lia|]. by intros ? ? []%elem_of_nil.
    - split; [lia|]. intros a' z' [[= -> ->]|Hin]%elem_of_cons; [lia|]. specialize (IH2 a' z' Hin). lia. }
  destruct Hge as [H1 H2]. set (n := fold_right _ _ _) in *.
  pose proof (Z.div_mod (n + gran - 1) gran ltac:(lia)). pose proof (Z.mod_pos_bound (n + gran - 1) gran Hg).
  split; [nia|]. split; [apply Z.mod_mul; lia|]. intros a z Haz. specialize (H2 a z Haz). lia.
Qed.

Lemma toy_reserve gran v n r p v' :
  0 < gran ->
  (let b := Toy.fresh_base gran v in
   if b + n <? 2 ^ 64 then (0, b, GView (va_map v) ((b, n) :: reserved v) (live v)) else (2, 0, v)) = (r, p, v') ->
  r = 0 -> fresh_range v p n /\ p mod gran = 0 /\ v' = view_reserve p n v.
Proof.
  intros Hg. destruct (toy_fresh_base gran v Hg) as (H1 & H2 & H3). simpl.
  destruct (Z.ltb_spec (Toy.fresh_base gran v + n) (2 ^ 64)); [|by intros [= <- _ _]].
  intros [= <- <- <-] _. split; [|done]. split; [done|]. split; [done|].
  intros a z Haz. right. by apply H3.
Qed.

Lemma toy_boot_laws gran : 0 < gran -> @BootLaws (Toy.toy_api gran) gran (Toy.toy_laws gran).
Proof.
  intros Hg. exists (fun v : @gstate (Toy.toy_api gran) => 2 ^ 40 - Z.of_nat (size (live v))); simpl.
  - by intros g r g' [= _ <-].
  - by intros g r c g' [= _ _ <-].
  - by intros g r n g' _ [= _ <- <-] _.
  - intros g n a r p g' E Hr _. by apply (toy_reserve gran g n r).
  - intros g n r p g' E Hr _. destruct (toy_reserve gran g n r p g' Hg E Hr) as (? & _ & ->). done.
  - intros g r p g' E. destruct (_ <? _); injection E as _ _ <-; simpl; auto with lia. split; [done|]. split; [done|].
    split; [|lia]. intros x Hx. by right.
  - intros g fd uuid rep g' [= <- <-] _ _. simpl. pose proof (Toy.fresh_page_fresh g) as Hf.
    split; [done|]. split; [done|]. rewrite size_union by set_solver. rewrite size_singleton. lia.
Defined.

(** C6. Start-up establishes the invariant.  With parameters in their documented
    range, on a process that has nothing allocated, and, for the UVM backend,
    on a kernel module that has memory for the pages that are asked of it,
    [init_kvcache] followed by [reserve_physical_pages] either is refused by the
    driver or the kernel module (the process exits or the managed allocation
    throws), or leaves the allocator in a state that satisfies the invariant that
    every later operation keeps, with the pool holding every page of the memory
    given that makes up whole kvblocks; no assertion fails, and no signed overflow,
    division by zero or unbounded loop occurs.  The hypothesis on the memory of the
    kernel module is needed: the module reports a lack of memory only in the
    status field, which the allocator does not read
    ([boot_without_memory]). *)
Theorem boot_establishes_invariant {api : gpu_api} {torch : torch_api} {gran : Z}
    {laws : GpuLaws api gran} {blaws : BootLaws api gran} {tlaws : TorchLaws torch}
    nl heads hs b ctx dev elem dt mega free_memory s :
  params_ok (gran := gran) nl heads hs b ctx elem dt mega ->
  (is_uvm_backend gran = true -> free_memory / gran <= uvm_pages_left (gpu s)) ->
  unconfigured s -> 0 <= free_memory < 2 ^ 64 ->
  wp (api_init_kvcache nl heads hs b ctx dev elem dt gran mega ;;; reserve_physical_pages free_memory)
    (fun n s' => Inv (pool s') s' /\ Z.of_nat (length (pool s')) = n /\
       n = free_memory / gran - (free_memory / gran) mod (2 * if mega then 1 else nl) /\
       max_batch_size (conf s') = b /\ max_pages_per_req (conf s') = ceil_div ctx (tokens_per_page (conf s')))
    (fun f _ => f = Exit \/ f = Throw EXN_MANAGED) s.
Proof.
  intros Hp Hio Hun Hm. apply (wp_boot nl heads hs b ctx dev elem dt mega); [done..|].
  intros s' n HI Hcf -> Hlen. split; [done|]. split; [done|]. split.
  - unfold phys_blocks, nlay. by rewrite (cf_mega _ _ _ _ _ _ _ _ _ Hcf), (cf_layers _ _ _ _ _ _ _ _ _ Hcf).
  - split; [apply Hcf|]. by rewrite (cf_pages _ _ _ _ _ _ _ _ _ Hcf), (cf_tpp _ _ _ _ _ _ _ _ _ Hcf).
Qed.

Lemma demo_params : @params_ok demo_torch demo_gran 1 1 512 2 4096 2 5 false.
Proof. split; vm_compute; intuition congruence. Qed.

(** The UVM backend with pages of 64KB. *)
Definition uvm_gran : Z := 64 * KB.
Definition boot_state (api : gpu_api) (g : gstate (gpu_api := api)) : vstate (api := api) :=
  VState empty_config [] [] ∅ ∅ [] [] [] [] true false false (-1) [] 0 g.

Lemma uvm_params : @params_ok demo_torch uvm_gran 1 1 512 2 4096 2 5 false.
Proof. split; vm_compute; intuition congruence. Qed.

Lemma boot_establishes_invariant_witness :
  wp (api_init_kvcache 1 1 512 2 4096 0 2 5 (2 * MB) false ;;; reserve_physical_pages (16 * MB))
    (fun n s' => Inv (laws := demo_laws) (pool s') s' /\ Z.of_nat (length (pool s')) = 8)
    (fun f _ => f = Exit \/ f = Throw EXN_MANAGED) demo_boot /\
  wp (api_init_kvcache 1 1 512 2 4096 0 2 5 (64 * KB) false ;;; reserve_physical_pages (16 * MB))
    (fun n s' => Inv (laws := Toy.toy_laws uvm_gran) (pool s') s' /\ Z.of_nat (length (pool s')) = 256)
    (fun f _ => f = Exit \/ f = Throw EXN_MANAGED) (boot_state (Toy.toy_api uvm_gran) Toy.toy_init).
Proof.
  assert (Hm : 0 <= 16 * MB < 2 ^ 64) by (vm_compute; split; congruence).
  assert (H1 : 0 < demo_gran) by reflexivity. assert (H2 : 0 < uvm_gran) by reflexivity. split.
  - assert (Hu : unconfigured (gran := demo_gran) demo_boot) by (split; try done; by intros q [h Hq]).
    eapply wp_mono; [exact (@boot_establishes_invariant demo_api demo_torch demo_gran demo_laws
      (toy_boot_laws demo_gran H1) Toy.toy_torch_laws 1 1 512 2 4096 0 2 5 false (16 * MB) demo_boot
      demo_params (fun H => False_ind _ (diff_false_true H)) Hu Hm)| |done].
    intros n s' (HI & Hl & Hn & _). split; [exact HI|]. rewrite Hl, Hn. reflexivity.
  - set (s := boot_state (Toy.toy_api uvm_gran) Toy.toy_init).
    assert (Hu : @unconfigured _ uvm_gran (Toy.toy_laws uvm_gran) s) by (split; try done; by intros q [h Hq]).
    assert (Hleft : is_uvm_backend uvm_gran = true ->
      16 * MB / uvm_gran <= @uvm_pages_left _ _ _ (toy_boot_laws uvm_gran H2) (gpu s)) by (intros _; vm_compute; discriminate).
    eapply wp_mono; [exact (@boot_establishes_invariant (Toy.toy_api uvm_gran) demo_torch uvm_gran
      (Toy.toy_laws uvm_gran) (toy_boot_laws uvm_gran H2) Toy.toy_torch_laws 1 1 512 2 4096 0 2 5 false
      (16 * MB) s uvm_params Hleft Hu Hm)| |done].
    intros n s' (HI & Hl & Hn & _). split; [exact HI|]. rewrite Hl, Hn. reflexivity.
Defined.

(** A kernel module without memory: [uvm_ioctl_get_mem_page] fails, the system
    call returns 0 with the error in the status field, and the page field is left as
    it was. *)
Definition no_memory_api : gpu_api := {|
  gstate := gview;
  cuMemCreate := cuMemCreate (gpu_api := Toy.toy_api uvm_gran);
  cuMemRelease := cuMemRelease (gpu_api := Toy.toy_api uvm_gran);
  cuMemMap := cuMemMap (gpu_api := Toy.toy_api uvm_gran);
  cuMemSetAccess := cuMemSetAccess (gpu_api := Toy.toy_api uvm_gran);
  cuMemUnmap := cuMemUnmap (gpu_api := Toy.toy_api uvm_gran);
  cuMemAddressReserve := cuMemAddressReserve (gpu_api := Toy.toy_api uvm_gran);
  cuMemAddressFree := cuMemAddressFree (gpu_api := Toy.toy_api uvm_gran);
  cuMemGetAllocationGranularity := cuMemGetAllocationGranularity (gpu_api := Toy.toy_api uvm_gran);
  cuInit := cuInit (gpu_api := Toy.toy_api uvm_gran);
  cuCtxGetCurrent := cuCtxGetCurrent (gpu_api := Toy.toy_api uvm_gran);
  cudaMallocManaged := cudaMallocManaged (gpu_api := Toy.toy_api uvm_gran);
  cudaFree := cudaFree (gpu_api := Toy.toy_api uvm_gran);
  device_uuid := device_uuid (gpu_api := Toy.toy_api uvm_gran);
  proc_self_fd := proc_self_fd (gpu_api := Toy.toy_api uvm_gran);
  ioctl := fun v fd r =>
    match r with GetMemPage _ _ => (IoctlReply 0 81 0, v) | _ => Toy.toy_ioctl v fd r end;
|}.

(** Start-up then succeeds and reports four pages, all of them the same
    handle, of which no page exists. *)
Example boot_without_memory :
  match (api_init_kvcache (api := no_memory_api) 1 1 512 2 4096 0 2 5 (64 * KB) false ;;;
         reserve_physical_pages (256 * KB)) (boot_state no_memory_api Toy.toy_init) with
  | Ok n s' => n = 4 /\ pool s' = [0; 0; 0; 0] /\ live (gpu s') = ∅
  | Fault _ _ => False
  end.
Proof. vm_compute. done. Qed.
