(* ===== verification/VattnCorrect.v ===== *)
(** Correctness of the user-space memory manager. *)

From S2P Require Import Prelude GpuApi VattnState VattnPages VattnInit VattnAlloc VattnInv VattnMap VattnGrow VattnReclaim VattnStep VattnManage VattnIds VattnDemo.
Local Open Scope Z_scope.
Local Open Scope cword_scope.

Section vattn_facts.
Context {api : gpu_api} {torch : torch_api} {gran : Z} {laws : GpuLaws api gran}.
Implicit Types (s : vstate) (c : config).

(** Physical pages of two different keys of a duplicate-free page map. *)
Lemma pages_of_two (m : page_map) k1 k2 a1 b1 a2 b2 :
  m !! k1 = Some (a1, b1) -> m !! k2 = Some (a2, b2) -> k1 <> k2 ->
  exists rest, pages_of m ≡ₚ a1 :: b1 :: a2 :: b2 :: rest.
Proof.
  intros H1 H2 Hne. exists (pages_of (delete k2 (delete k1 m))).
  rewrite (pages_of_delete m k1 a1 b1 H1).
  rewrite (pages_of_delete (delete k1 m) k2 a2 b2); [done|].
  by rewrite lookup_delete_ne.
Qed.

Lemma Inv_NoDup R s : Inv R s -> NoDup (pool s ++ pages_of (pmap s)).
Proof. intros [_ HI]. rewrite (pi_account _ _ _ HI). apply HI. Qed.

(** The page that backs side [side] of page [j] of request [r], layer [l]. *)
Definition backing s (side : bool) (r j l : Z) : option Z :=
  (fun kv => if side then snd kv else fst kv) <$> pmap s !! (r, off (conf s) r j, l).

Lemma backing_inj R s side r j l side' r' j' l' p :
  Inv R s -> 0 <= j < max_pages_per_req (conf s) -> 0 <= j' < max_pages_per_req (conf s) ->
  backing s side r j l = Some p -> backing s side' r' j' l' = Some p ->
  side = side' /\ r = r' /\ j = j' /\ l = l'.
Proof.
  intros HI Hj Hj' [[k1 v1] [H1 ->]]%fmap_Some [[k2 v2] [H2 Hp]]%fmap_Some.
  pose proof (Inv_NoDup R s HI) as Hnd. apply NoDup_app in Hnd as (_ & _ & Hnd).
  pose proof (pi_conf _ _ _ (inv_pages _ _ HI)) as Hc.
  destruct (decide ((r, off (conf s) r j, l) = (r', off (conf s) r' j', l'))) as [He|Hne].
  - rewrite He, H2 in H1. injection H1 as -> ->. injection He as -> Ho ->.
    rewrite (pages_of_delete _ _ _ _ H2) in Hnd.
    apply NoDup_cons in Hnd as [Hn _]. destruct (off_inj _ r' j r' j' Hc Hj Hj' Ho) as [_ ->].
    destruct side, side'; try done; exfalso; apply Hn; simpl in Hp; subst; left.
  - exfalso. destruct (pages_of_two _ _ _ _ _ _ _ H1 H2 Hne) as [rest Hr].
    rewrite Hr in Hnd. rewrite !NoDup_cons, !not_elem_of_cons in Hnd.
    destruct side, side'; simpl in Hp; subst; tauto.
Qed.

Lemma backing_mapped R s side r j l p n base :
  Inv R s -> 0 <= l < nlay (conf s) -> nthZ (mapped_pages s) r = Some n -> 0 <= j < n ->
  base_of s side l = Some base ->
  va_map (view (gpu s)) !! (base + off (conf s) r j) = Some p <-> backing s side r j l = Some p.
Proof.
  intros HI Hl Hn Hj Hb. pose proof (co_mapped _ (inv_counters _ _ HI) _ _ Hn) as Hnb.
  assert (HE : prefix_pages s r j l) by (split; [done|]; exists n; split; [done|lia]).
  pose proof (inv_pages _ _ HI) as HP.
  destruct (proj2 (pmap_key_E _ _ _ r j l HP ltac:(lia)) HE) as [[kp vp] Hlk].
  rewrite (pi_mapped _ _ _ HP _ _ _ _ _ HE Hlk side base Hb).
  unfold backing. rewrite Hlk. by destruct side.
Qed.
End vattn_facts.

Section vattn_correct.
Context {api : gpu_api} {torch : torch_api} {gran : Z} {laws : GpuLaws api gran}.
Implicit Types (s : vstate) (c : config).

(** C1. A synchronous step over announced sequence lengths either leaves the
    allocator in a state that satisfies its invariant and in which every
    request has all the pages its length needs (as many as its address range
    holds), or throws the out-of-memory exception with the invariant intact;
    it has no other fault: no driver error, no failed assertion, no index out
    of range, no unbounded loop. *)
Theorem step_sync_correct R s seq_lens eager :
  Inv R s -> Z.of_nat (length seq_lens) = max_batch_size (conf s) ->
  Forall seq_len_ok seq_lens ->
  wp (step_sync seq_lens eager)
    (fun _ s' => Inv R s' /\ curr_seq_lengths s' = seq_lens /\
       forall r len, nthZ seq_lens r = Some len -> covered s' r len)
    (fun f s' => f = Throw EXN_OOM /\ Inv R s') s.
Proof. intros. eapply (wp_step_sync R); eauto. Qed.

(** C2. The synchronous part of an asynchronous step never runs out of memory
    when the pages that exist (free or mapped) cover the announced lengths:
    reclaiming takes back every page that no announced length needs. *)
Theorem prepare_prefill_no_spurious_oom R s :
  Inv R s -> needed_pages s <= total_pages s ->
  wp prepare_prefill_kvcache
    (fun _ s' => Inv R s' /\ curr_seq_lengths s' = curr_seq_lengths s /\
       forall r len, nthZ (curr_seq_lengths s) r = Some len -> covered s' r len)
    (fun _ _ => False) s.
Proof.
  intros HI Hn. eapply (wp_prepare_prefill R); [done| |lia].
  intros s' HI' Hmv _ Hcov. split; [done|]. split; [apply Hmv|done].
Qed.

(** C3. The background manager never faults, keeps the invariant and every
    page that an announced length needs, and, when the pool covers the growth
    it computed, provides the page of the next token of every active
    request. *)
Theorem memory_management_correct R s :
  Inv R s ->
  wp do_kvcache_memory_management
    (fun _ s' => Inv R s' /\ total_pages s' = total_pages s /\ keeps_needed s s' /\
       (2 * nlay (conf s) * need_new_sum s (up 0 (max_batch_size (conf s)))
          <= Z.of_nat (length (pool s)) ->
        forall r len, nthZ (curr_seq_lengths s) r = Some len -> 0 < len ->
          covered s' r (len + 1)))
    (fun _ _ => False) s.
Proof.
  intros HI. eapply (wp_do_kvcache_memory_management R); [done|].
  intros s' HI' Hmv Hk Hc. split; [done|]. split; [apply Hmv|]. done.
Qed.

(** C4. In a state that satisfies the invariant the KV cache of every request
    is contiguous in virtual memory: in each tensor, each of its first
    mapped_pages[r] pages is mapped, at consecutive page-sized offsets from
    the start of the request; with the CUDA backend the rest of its address
    range is not mapped. *)
Theorem kvcache_contiguous R s side l r n base :
  Inv R s -> 0 <= l < nlay (conf s) -> nthZ (mapped_pages s) r = Some n ->
  base_of s side l = Some base ->
  (forall j, 0 <= j < n ->
     is_Some (va_map (view (gpu s)) !!
       (base + r * virt_buff_size_per_req (conf s) + j * page_size (conf s)))) /\
  (is_uvm_backend (page_size (conf s)) = false ->
   forall j, n <= j < max_pages_per_req (conf s) ->
     va_map (view (gpu s)) !!
       (base + r * virt_buff_size_per_req (conf s) + j * page_size (conf s)) = None).
Proof.
  intros HI Hl Hn Hb. pose proof (inv_pages _ _ HI) as HP. pose proof (pi_conf _ _ _ HP) as Hc.
  pose proof (co_mapped _ (inv_counters _ _ HI) _ _ Hn) as Hnb.
  pose proof (nthZ_lt _ _ _ Hn) as Hr. rewrite (co_mapped_len _ (inv_counters _ _ HI)) in Hr.
  assert (Haddr : forall j, base + r * virt_buff_size_per_req (conf s) + j * page_size (conf s)
                      = base + off (conf s) r j).
  { intros j. rewrite (ok_per_req _ Hc). unfold off. ring. }
  split.
  - intros j Hj. rewrite Haddr.
    assert (HE : prefix_pages s r j l) by (split; [done|]; exists n; split; [done|lia]).
    destruct (proj2 (pmap_key_E _ _ _ r j l HP ltac:(lia)) HE) as [[kp vp] Hlk].
    rewrite (pi_mapped _ _ _ HP _ _ _ _ _ HE Hlk side base Hb). by eexists.
  - intros Hbk j Hj. rewrite Haddr. destruct (va_map _ !! _) eqn:Hm; [exfalso|done].
    pose proof (off_bound _ r j Hc Hr ltac:(lia)). pose proof (ok_psz _ Hc).
    destruct (pi_exact _ _ _ HP Hbk side l base (base + off (conf s) r j) Hl Hb)
      as (r' & j' & HE & Heq); [lia|by eexists|].
    destruct (pi_range _ _ _ HP _ _ _ HE) as (_ & Hj' & _).
    destruct (off_inj (conf s) r j r' j' Hc ltac:(lia) Hj' ltac:(lia)) as [<- <-].
    destruct HE as [_ (m & Hm' & Hjm)]. simplify_eq. lia.
Qed.

(** C5. Requests are isolated: no physical page backs two different places of
    the KV cache (another request, page, layer or side), and no mapped page is
    in the free pool. *)
Theorem kvcache_isolated R s side l r j n base side' l' r' j' n' base' p :
  Inv R s -> 0 <= l < nlay (conf s) -> 0 <= l' < nlay (conf s) ->
  nthZ (mapped_pages s) r = Some n -> 0 <= j < n -> base_of s side l = Some base ->
  nthZ (mapped_pages s) r' = Some n' -> 0 <= j' < n' -> base_of s side' l' = Some base' ->
  va_map (view (gpu s)) !! (base + off (conf s) r j) = Some p ->
  (va_map (view (gpu s)) !! (base' + off (conf s) r' j') = Some p ->
     side = side' /\ l = l' /\ r = r' /\ j = j') /\
  (p ∉ pool s).
Proof.
  intros HI Hl Hl' Hn Hj Hb Hn' Hj' Hb' Hp.
  pose proof (co_mapped _ (inv_counters _ _ HI) _ _ Hn) as Hnb.
  pose proof (co_mapped _ (inv_counters _ _ HI) _ _ Hn') as Hnb'.
  apply (backing_mapped R s side r j l p n base) in Hp as Hbk; [|done..]. split.
  - intros Hp'. apply (backing_mapped R s side' r' j' l' p n' base') in Hp'; [|done..].
    destruct (backing_inj R s side r j l side' r' j' l' p) as (? & ? & ? & ?); try done; lia.
  - intros Hin. pose proof (Inv_NoDup R s HI) as Hnd. apply NoDup_app in Hnd as (_ & Hnd & _).
    apply (Hnd p Hin). apply fmap_Some in Hbk as [[kp vp] [Hlk ->]].
    rewrite (pages_of_delete _ _ _ _ Hlk). destruct side; simpl; [right; left|left].
Qed.

(** C7. Growing a request by [k] blocks maps exactly [k] blocks, or as many
    as its address range still holds, and takes two pages per layer from the
    pool for each; when the pool is too small a background caller gets no
    change and a synchronous caller the out-of-memory exception. *)
Theorem grow_kvcache_phys_correct R s r n k (sync : bool) :
  Inv R s -> nthZ (mapped_pages s) r = Some n -> 0 <= k ->
  wp (grow_kvcache_phys r k sync)
    (fun _ s' => Inv R s' /\
       if 2 * nlay (conf s) * k <=? Z.of_nat (length (pool s))
       then resized s s' r n (Z.min (n + k) (max_pages_per_req (conf s)))
       else sync = false /\ s' = s)
    (fun f s' => f = Throw EXN_OOM /\ sync = true /\
       Z.of_nat (length (pool s)) < 2 * nlay (conf s) * k /\ s' = set_verbose true s) s.
Proof.
  intros HI Hn Hk. eapply (wp_grow_kvcache_phys R); [done..| |].
  - intros Hp s' HI' Hrs. split; [done|]. by rewrite (proj2 (Z.leb_le _ _) Hp).
  - intros Hp. destruct sync; [done|]. split; [done|]. by rewrite (proj2 (Z.leb_gt _ _) Hp).
Qed.

(** C8. Releasing a request down to [retain] blocks terminates within the
    number of blocks it has, returns every released page to the pool and
    touches no other request. *)
Theorem release_kvcache_pages_some_correct R s r n retain :
  Inv R s -> nthZ (mapped_pages s) r = Some n -> 0 <= retain ->
  wp (release_kvcache_pages_some r retain)
    (fun _ s' => Inv R s' /\ resized s s' r n (Z.min n retain))
    (fun _ _ => False) s.
Proof. intros. eapply wp_release_kvcache_pages_some; eauto. Qed.
(** C9. A new request id is one whose announced length is zero, or -1 exactly
    when every id is active; its length is announced and nothing else
    changes.  The chosen id has the fewest pages among the free ids that
    already have enough of them, when it has enough itself; when it has not,
    it is the lowest free id, whatever the others have. *)
Theorem alloc_new_batch_idx_correct R s seqlen :
  Inv R s -> seq_len_ok seqlen ->
  wp (alloc_new_batch_idx seqlen)
    (fun id s' =>
       (id = -1 -> s' = s /\
          forall r, 0 <= r < max_batch_size (conf s) -> ~ inactive s r) /\
       (id <> -1 -> 0 <= id < max_batch_size (conf s) /\ inactive s id /\ Inv R s' /\
          s' = set_seq_lengths (setZ (curr_seq_lengths s) id seqlen) s /\
          forall r, 0 <= r < max_batch_size (conf s) -> inactive s r ->
            if need s seqlen <=? pages_at s id
            then need s seqlen <= pages_at s r -> pages_at s id <= pages_at s r
            else id <= r))
    (fun _ _ => False) s.
Proof.
  intros HI Hok. eapply (wp_alloc_new_batch_idx R); [done..|].
  intros id s' HI' Hs' [Hn Hs Hl Hsh]. split.
  - intros ->. split; [done|]. intros r Hr. apply Hn; [done|]. by apply elem_of_up.
  - intros Hid. destruct (Hs Hid) as [Hin Hi]. apply elem_of_up in Hin.
    rewrite (proj2 (Z.eqb_neq _ _) Hid) in Hs'. do 4 (split; [done|]). intros r Hr Hir.
    destruct (Z.leb_spec (need s seqlen) (pages_at s id)); [intros Hf; apply Hl|apply Hsh];
      try done; by apply elem_of_up.
Qed.

(** C10. What [get_num_free_kvblocks] reports, in every state.  When the pages suffice for the
    announced lengths (and the count fits in 64 bits) it is the number of whole blocks in the pages that no
    announced length needs: those in the pool and those mapped beyond need, which reclaiming
    can take back.  When the announced lengths need more pages than there are, the unsigned
    sum wraps: the report is 2^64 less the blocks that are short, at least 2^63, where none
    are free. *)
Theorem num_free_kvblocks_correct R s :
  Inv R s ->
  wp get_num_free_kvblocks
    (fun v s' => s' = s /\
       (needed_pages s <= total_pages s -> spare_kvblocks s < 2 ^ 64 -> v = spare_kvblocks s) /\
       (total_pages s < needed_pages s -> v = 2 ^ 64 + spare_kvblocks s /\ 2 ^ 63 <= v < 2 ^ 64))
    (fun _ _ => False) s.
Proof.
  intros HI. eapply (wp_get_num_free_kvblocks R); [done|]. pose proof (spare_lower R s HI) as Hlow.
  pose proof (nlay_pos _ (pi_conf _ _ _ (inv_pages _ _ HI))) as Hnl. split; [done|]. split.
  - intros Hle Hlt. apply u64_small. split; [|done]. apply Z.div_pos; lia.
  - intros Hlt. assert (Hneg : spare_kvblocks s < 0) by (apply Z.div_lt_upper_bound; lia).
    assert (E : u64 (spare_kvblocks s) = 2 ^ 64 + spare_kvblocks s); [|rewrite E; lia].
    unfold u64, wrap. symmetry. apply (Z.mod_unique _ _ (-1)); lia.
Qed.
End vattn_correct.

(** ** Witnesses on the concrete state *)

Lemma step_sync_correct_witness :
  wp (step_sync [2049; 100] true)
    (fun _ s' => Inv (pool demo) s' /\ curr_seq_lengths s' = [2049; 100] /\
       forall r len, nthZ [2049; 100] r = Some len -> covered s' r len)
    (fun f s' => f = Throw EXN_OOM /\ Inv (pool demo) s') demo.
Proof.
  apply step_sync_correct; [apply demo_Inv|reflexivity|].
  repeat constructor; unfold seq_len_ok; lia.
Defined.

(** The same step computed: two blocks for the first request, one for the
    second, three blocks (six pages) gone from the pool of eight. *)
Example step_sync_demo :
  let s := run (step_sync [2049; 100] true) demo in
  mapped_pages s = [2; 1] /\ cuda_pages s = [1; 2].
Proof. vm_compute. done. Qed.

Lemma grow_kvcache_phys_correct_witness :
  wp (grow_kvcache_phys 0 2 true)
    (fun _ s' => Inv (pool demo) s' /\
       if 2 * nlay (conf demo) * 2 <=? Z.of_nat (length (pool demo))
       then resized demo s' 0 0 (Z.min (0 + 2) (max_pages_per_req (conf demo)))
       else true = false /\ s' = demo)
    (fun f s' => f = Throw EXN_OOM /\ true = true /\
       Z.of_nat (length (pool demo)) < 2 * nlay (conf demo) * 2 /\ s' = set_verbose true demo) demo.
Proof. apply grow_kvcache_phys_correct; [apply demo_Inv|reflexivity|lia]. Defined.

(** A state with mapped pages. *)
Definition demo_busy : vstate (api := demo_api) :=
  Eval vm_compute in run (step_sync [2049; 100] true) demo.

Lemma wp_run {S A} (m : M S A) (P : A -> S -> Prop) F s a s' :
  wp m P F s -> m s = Ok a s' -> P a s'.
Proof. unfold wp. intros H E. by rewrite E in H. Qed.

Lemma demo_busy_Inv : Inv (pool demo) demo_busy.
Proof.
  eapply (wp_run (step_sync [2049; 100] true) (fun _ s' => Inv (pool demo) s')
            (fun _ _ => True) demo tt);
    [|vm_cast_no_check (eq_refl (step_sync [2049; 100] true demo))].
  eapply (wp_step_sync (pool demo)); [apply demo_Inv|reflexivity| |done|done].
  repeat constructor; unfold seq_len_ok; lia.
Qed.

Lemma demo_busy_lengths lens :
  length lens = 2%nat -> Forall seq_len_ok lens -> Inv (pool demo) (set_seq_lengths lens demo_busy).
Proof. intros Hl HF. apply Inv_set_seq; [apply demo_busy_Inv|by rewrite Hl|done]. Qed.

(** The second request is announced to need its last page. *)
Lemma prepare_prefill_no_spurious_oom_witness :
  wp prepare_prefill_kvcache
    (fun _ s' => Inv (pool demo) s' /\ covered s' 0 2049 /\ covered s' 1 4000)
    (fun _ _ => False) (set_seq_lengths [2049; 4000] demo_busy).
Proof.
  eapply wp_mono; [apply (prepare_prefill_no_spurious_oom (pool demo))| |done].
  - apply demo_busy_lengths; [done|]. repeat constructor; unfold seq_len_ok; lia.
  - vm_compute. discriminate.
  - intros _ s' (HI & _ & Hc). split; [done|]. split; by apply Hc.
Defined.

(** The next token of the second request is the first of a page. *)
Lemma memory_management_correct_witness :
  wp do_kvcache_memory_management
    (fun _ s' => Inv (pool demo) s' /\ total_pages s' = 8 /\ covered s' 1 (2048 + 1))
    (fun _ _ => False) (set_seq_lengths [2049; 2048] demo_busy).
Proof.
  eapply wp_mono; [apply (memory_management_correct (pool demo))| |done].
  - apply demo_busy_lengths; [done|]. repeat constructor; unfold seq_len_ok; lia.
  - intros _ s' (HI & Ht & _ & Hc). split; [done|]. split; [by rewrite Ht|].
    apply Hc; [vm_compute; discriminate|done|lia].
Defined.

Lemma kvcache_contiguous_witness :
  (forall j, 0 <= j < 2 ->
     is_Some (va_map (view (gpu demo_busy)) !!
       (4303355904 + 0 * virt_buff_size_per_req (conf demo_busy) +
        j * page_size (conf demo_busy)))) /\
  (is_uvm_backend (page_size (conf demo_busy)) = false ->
   forall j, 2 <= j < max_pages_per_req (conf demo_busy) ->
     va_map (view (gpu demo_busy)) !!
       (4303355904 + 0 * virt_buff_size_per_req (conf demo_busy) +
        j * page_size (conf demo_busy)) = None).
Proof.
  apply (kvcache_contiguous (pool demo) demo_busy true 0 0 2 4303355904);
    [apply demo_busy_Inv|vm_compute; intuition discriminate|reflexivity|reflexivity].
Defined.

Lemma kvcache_isolated_witness :
  (va_map (view (gpu demo_busy)) !! (4294967296 + off (conf demo_busy) 1 0) = Some 5 ->
     true = false /\ 0 = 0 /\ 0 = 1 /\ 1 = 0) /\
  (5 ∉ pool demo_busy).
Proof.
  apply (kvcache_isolated (pool demo) demo_busy true 0 0 1 2 4303355904 false 0 1 0 1 4294967296 5);
    [apply demo_busy_Inv|vm_compute; intuition discriminate|vm_compute; intuition discriminate
    |reflexivity|lia|reflexivity|reflexivity|lia|reflexivity|vm_compute; reflexivity].
Defined.

Lemma release_kvcache_pages_some_correct_witness :
  wp (release_kvcache_pages_some 0 1)
    (fun _ s' => Inv (pool demo) s' /\ resized demo_busy s' 0 2 (Z.min 2 1))
    (fun _ _ => False) demo_busy.
Proof. apply release_kvcache_pages_some_correct; [apply demo_busy_Inv|reflexivity|lia]. Defined.

Lemma alloc_new_batch_idx_correct_witness :
  wp (alloc_new_batch_idx 100)
    (fun id s' =>
       (id = -1 -> s' = demo /\
          forall r, 0 <= r < max_batch_size (conf demo) -> ~ inactive demo r) /\
       (id <> -1 -> 0 <= id < max_batch_size (conf demo) /\ inactive demo id /\
          Inv (pool demo) s' /\
          s' = set_seq_lengths (setZ (curr_seq_lengths demo) id 100) demo /\
          forall r, 0 <= r < max_batch_size (conf demo) -> inactive demo r ->
            if need demo 100 <=? pages_at demo id
            then need demo 100 <= pages_at demo r -> pages_at demo id <= pages_at demo r
            else id <= r))
    (fun _ _ => False) demo.
Proof. apply alloc_new_batch_idx_correct; [apply demo_Inv|unfold seq_len_ok; lia]. Defined.

Lemma num_free_kvblocks_correct_witness :
  wp get_num_free_kvblocks (fun v s' => s' = demo_busy /\ v = 1) (fun _ _ => False) demo_busy /\
  wp get_num_free_kvblocks (fun v _ => v = 2 ^ 64 - 4) (fun _ _ => False) (set_seq_lengths [10000; 6000] demo_busy).
Proof.
  split.
  - eapply wp_mono; [apply (num_free_kvblocks_correct (pool demo)), demo_busy_Inv| |done].
    intros v s' (-> & H & _). split; [done|]. rewrite H by (vm_compute; congruence). reflexivity.
  - eapply wp_mono; [apply (num_free_kvblocks_correct (pool demo)); apply Inv_set_seq; [apply demo_busy_Inv|reflexivity|repeat constructor; vm_compute; congruence]| |done].
    intros v s' (_ & _ & H). destruct H as [-> _]; [reflexivity|]. reflexivity.
Defined.
