(* ===== verification/VattnProg.v ===== *)
(** The code that runs in two threads, at the granularity at which the threads
    see each other.

    The framework's thread writes [curr_seq_lengths] (in [step_async] before the
    wait, in [alloc_new_batch_idx] and [free_batch_idx]) while the detached thread of
    [spawn_kvcache_manager] reads it, without a lock.  A [prog] is a piece of code as
    a tree of atomic actions: between two actions other threads may run.  Every
    access to [curr_seq_lengths], to [mapped_pages] and to the size of the pool
    is an action of its own, and so is the mapping or unmapping of one block: it
    neither reads nor writes [curr_seq_lengths] ([grow_one_block_commutes],
    [unmap_req_page_one_commutes]), so no write of a length can be observed in
    the middle of it.  Each program, run alone, is the definition of
    VattnAlloc ([run_...]). *)

From S2P Require Import Prelude GpuApi VattnState VattnPages VattnInit VattnAlloc.
Local Open Scope Z_scope.
Local Open Scope cword_scope.

Section prog.
Context {api : gpu_api}.

Inductive prog (A : Type) : Type :=
| Done (a : A)
| Act {B : Type} (m : VM B) (k : B -> prog A).
Arguments Done {A} a.
Arguments Act {A B} m k.

Fixpoint pbind {A B} (p : prog A) (k : A -> prog B) : prog B :=
  match p with
  | Done a => k a
  | Act m k' => Act m (fun b => pbind (k' b) k)
  end.

Definition act {B} (m : VM B) : prog B := Act m Done.

(** The program run without interruption. *)
Fixpoint run_prog {A} (p : prog A) : VM A :=
  match p with
  | Done a => mret' a
  | Act m k => b <- m ;; run_prog (k b)
  end.

(** The next action of a program. *)
Definition prog_step {A} (p : prog A) (s : vstate) : option (res vstate (prog A)) :=
  match p with
  | Done _ => None
  | Act m k => Some (match m s with Ok b s' => Ok (k b) s' | Fault f s' => Fault f s' end)
  end.

Lemma run_pbind {A B} (p : prog A) (k : A -> prog B) s :
  run_prog (pbind p k) s = match run_prog p s with Ok a s' => run_prog (k a) s' | Fault f s' => Fault f s' end.
Proof.
  revert s. induction p as [a|C m k' IH]; intros s; simpl; [done|].
  unfold mbind'. destruct (m s); [apply IH|done].
Qed.

Lemma run_gets {A B} (f : vstate -> A) (k : A -> prog B) s :
  run_prog (pbind (act (gets f)) k) s = run_prog (k (f s)) s.
Proof. done. Qed.

Lemma run_act {B} (m : VM B) s : run_prog (act m) s = m s.
Proof. simpl. unfold mbind', mret'. by destruct (m s). Qed.
End prog.
Arguments Done {api A} a.
Arguments Act {api A B} m k.

Notation "x <~ p ;; q" := (pbind p (fun x => q))
  (at level 100, p at next level, right associativity, only parsing) : cword_scope.
Notation "p ;~ q" := (pbind p (fun _ => q)) (at level 100, right associativity) : cword_scope.

Section progs.
Context {api : gpu_api} {torch : torch_api}.
Implicit Types (s : vstate).

(** ** Loops *)

Fixpoint pfor {A} (l : list A) (body : A -> prog unit) : prog unit :=
  match l with
  | [] => Done tt
  | x :: l' => body x ;~ pfor l' body
  end.

Fixpoint pfor_brk {A} (l : list A) (body : A -> prog bool) : prog bool :=
  match l with
  | [] => Done false
  | x :: l' => stop <~ body x ;; if stop then Done true else pfor_brk l' body
  end.

Fixpoint pwhile (fuel : nat) (cond : prog bool) (body : prog unit) : prog unit :=
  c <~ cond ;;
  if c then
    match fuel with
    | O => act (fail OutOfFuel)
    | S n => body ;~ pwhile n cond body
    end
  else Done tt.

(** ** The memory manager *)

Definition max_batch : prog Z := act (gets (fun s => max_batch_size (conf s))).

Definition need_new_page_async_p (reqId eager_step_count : Z) : prog Z :=
  a <~ act (is_active_req reqId) ;;
  if negb a then Done 0 else
  nr_mapped <~ act (get_req_pages reqId) ;;
  maxp <~ act (gets (fun s => max_pages_per_req (conf s))) ;;
  if nr_mapped =? maxp then Done 0 else
  len <~ act (get_req_seq_length reqId) ;;
  nr_required <~ act (tokens_to_pages (len +u eager_step_count)) ;;
  Done (if nr_required <=? nr_mapped then 0 else nr_required -u nr_mapped).

Definition release_kvcache_pages_some_p (reqId retain_blocks : Z) : prog unit :=
  n <~ act (get_req_pages reqId) ;;
  pwhile (Z.to_nat n)
    (m <~ act (get_req_pages reqId) ;; Done (retain_blocks <? m))
    (act (unmap_req_page_one reqId)).

Definition grow_kvcache_phys_p (reqId num_blocks : Z) (sync : bool) : prog unit :=
  if num_blocks <=? 0 then Done tt else
  av <~ act (kvblocks_available num_blocks) ;;
  if negb av then
    if negb sync then Done tt
    else act (modify (set_verbose true)) ;~ act (fail (Throw EXN_OOM))
  else
    pfor_brk (up 0 num_blocks) (fun _ => act (grow_one_block reqId sync)) ;~
    Done tt.

Definition reclaim_kvblocks_on_demand_p (num_kvblocks : Z) : prog unit :=
  b <~ max_batch ;;
  pfor_brk (down b 0) (fun reqId =>
    av <~ act (kvblocks_available num_kvblocks) ;;
    if av then Done true else
    nr_mapped <~ act (get_req_pages reqId) ;;
    len <~ act (get_req_seq_length reqId) ;;
    nr_required <~ act (tokens_to_pages len) ;;
    if nr_mapped <=? nr_required then Done false else
    release_kvcache_pages_some_p reqId nr_required ;~
    Done false) ;~
  Done tt.

Fixpoint first_inactive_p (ids : list Z) : prog Z :=
  match ids with
  | [] => Done (-1)
  | reqId :: ids' =>
      a <~ act (is_active_req reqId) ;;
      if negb a then Done reqId else first_inactive_p ids'
  end.

Definition do_reclaim_pages_p : prog unit :=
  d <~ act (gets deferred_reclaim) ;;
  if d then Done tt else
  b <~ max_batch ;;
  next_prefill_reqId <~ first_inactive_p (up 0 b) ;;
  pfor_brk (down b 0) (fun reqId =>
    a <~ act (is_active_req reqId) ;;
    if a || (reqId =? next_prefill_reqId) then Done false else
    n <~ act (get_req_pages reqId) ;;
    if n =? 0 then Done false else
    act (unmap_req_page_one reqId) ;~
    Done true) ;~
  Done tt.

Fixpoint sum_need_new_pages_p (ids : list Z) (acc : Z) : prog Z :=
  match ids with
  | [] => Done acc
  | reqId :: ids' =>
      n <~ need_new_page_async_p reqId 1 ;;
      sum_need_new_pages_p ids' (acc +u n)
  end.

Fixpoint eager_grow_requests_p (step : Z) (ids : list Z) (nr_mapped_curr : Z) : prog (Z * bool) :=
  match ids with
  | [] => Done (nr_mapped_curr, false)
  | reqId :: ids' =>
      n <~ need_new_page_async_p reqId step ;;
      grow_kvcache_phys_p reqId n false ;~
      let cnt := nr_mapped_curr +u n in
      if step =? 1 then eager_grow_requests_p step ids' cnt
      else if EAGER_NUM_KVBLOCKS <=? cnt then Done (cnt, true)
      else eager_grow_requests_p step ids' cnt
  end.

Fixpoint eager_grow_steps_p (steps ids : list Z) (nr_mapped_curr : Z) : prog unit :=
  match steps with
  | [] => Done tt
  | step :: steps' =>
      r <~ eager_grow_requests_p step ids nr_mapped_curr ;;
      if snd r then Done tt else eager_grow_steps_p steps' ids (fst r)
  end.

Definition do_kvcache_memory_management_p : prog unit :=
  b <~ max_batch ;;
  nr_required <~ sum_need_new_pages_p (up 0 b) 0 ;;
  av <~ act (kvblocks_available nr_required) ;;
  (if negb av then reclaim_kvblocks_on_demand_p nr_required else Done tt) ;~
  av2 <~ act (kvblocks_available nr_required) ;;
  if negb av2 then Done tt else
  eager_grow_steps_p (up 1 EAGER_NUM_STEPS) (up 0 b) 0 ;~
  if negb (nr_required =? 0) then Done tt else
  do_reclaim_pages_p.

(** ** The framework's thread *)

Definition map_pages_for_curr_step_p (reqId seq_len : Z) : prog unit :=
  if seq_len =? 0 then Done tt else
  nr_required <~ act (tokens_to_pages seq_len) ;;
  nr_mapped <~ act (get_req_pages reqId) ;;
  if nr_required <=? nr_mapped then Done tt else
  let nr_to_grow := nr_required -u nr_mapped in
  av <~ act (kvblocks_available nr_to_grow) ;;
  (if negb av then reclaim_kvblocks_on_demand_p nr_to_grow else Done tt) ;~
  grow_kvcache_phys_p reqId nr_to_grow true ;~
  act (set_req_seq_length reqId seq_len).

Definition prepare_prefill_kvcache_p : prog unit :=
  b <~ max_batch ;;
  pfor (up 0 b) (fun reqId =>
    len <~ act (get_req_seq_length reqId) ;;
    map_pages_for_curr_step_p reqId len).

(** The assignment of a vector of the same size copies the elements one by
    one. *)
Fixpoint copy_lengths (i : Z) (lens : list Z) : prog unit :=
  match lens with
  | [] => Done tt
  | n :: lens' => act (set_req_seq_length i n) ;~ copy_lengths (i + 1) lens'
  end.
Definition set_curr_seq_lengths_p (seq_lens : list Z) : prog unit := copy_lengths 0 seq_lens.

Fixpoint choose_batch_idx_p (ids : list Z) (nr_required new_id : Z) : prog Z :=
  match ids with
  | [] => Done new_id
  | reqId :: ids' =>
      a <~ act (is_active_req reqId) ;;
      if a then choose_batch_idx_p ids' nr_required new_id else
      if new_id =? -1 then choose_batch_idx_p ids' nr_required reqId else
      n <~ act (get_req_pages reqId) ;;
      if negb (nr_required <=? n) then choose_batch_idx_p ids' nr_required new_id else
      n' <~ act (get_req_pages reqId) ;;
      b <~ act (get_req_pages new_id) ;;
      choose_batch_idx_p ids' nr_required (if n' <? b then reqId else new_id)
  end.

Definition alloc_new_batch_idx_p (seqlen : Z) : prog Z :=
  nr_required <~ act (tokens_to_pages seqlen) ;;
  b <~ max_batch ;;
  new_id <~ choose_batch_idx_p (up 0 b) nr_required (-1) ;;
  (if negb (new_id =? -1) then act (set_req_seq_length new_id seqlen) else Done tt) ;~
  Done new_id.

Definition free_batch_idx_p (reqId : Z) : prog unit := act (set_req_seq_length reqId 0).
End progs.

(** ** Run alone, the programs are the definitions *)

Section implements.
Context {api : gpu_api} {torch : torch_api}.
Implicit Types (s : vstate).

Definition implements {A} (p : prog A) (m : VM A) : Prop := forall s, run_prog p s = m s.

Lemma implements_ret {A} (a : A) : implements (Done a) (mret' a).
Proof. done. Qed.
Lemma implements_act {A} (m : VM A) : implements (act m) m.
Proof. intros s. apply run_act. Qed.
Lemma implements_bind {A B} (p : prog A) (m : VM A) (k : A -> prog B) k' :
  implements p m -> (forall a, implements (k a) (k' a)) -> implements (pbind p k) (mbind' m k').
Proof. intros Hp Hk s. rewrite run_pbind, Hp. unfold mbind'. destruct (m s); [apply Hk|done]. Qed.
Lemma implements_gets {A B} (f : vstate -> A) (k : A -> prog B) k' :
  (forall s, implements (k (f s)) (k' s)) -> implements (pbind (act (gets f)) k) (mbind' get k').
Proof. intros Hk s. apply Hk. Qed.
Lemma implements_if {A} (b : bool) (p q : prog A) m n :
  implements p m -> implements q n -> implements (if b then p else q) (if b then m else n).
Proof. by destruct b. Qed.

Lemma implements_for {A} (l : list A) p m :
  (forall x, implements (p x) (m x)) -> implements (pfor l p) (for_each l m).
Proof.
  intros H. induction l as [|x l IH]; simpl; [apply implements_ret|].
  apply implements_bind; [apply H|by intros _].
Qed.
Lemma implements_for_brk {A} (l : list A) p m :
  (forall x, implements (p x) (m x)) -> implements (pfor_brk l p) (for_each_brk l m).
Proof.
  intros H. induction l as [|x l IH]; simpl; [apply implements_ret|].
  apply implements_bind; [apply H|]. intros []; [apply implements_ret|done].
Qed.
Lemma implements_while fuel p m q n :
  implements p m -> implements q n -> implements (pwhile fuel p q) (while fuel m n).
Proof.
  intros H1 H2. induction fuel as [|fuel IH]; simpl; (apply implements_bind; [done|]);
    (intros []; [|apply implements_ret]); [apply implements_act|].
  apply implements_bind; [done|by intros _].
Qed.
End implements.

Create HintDb vattn_impl discriminated.
(** Follows the structure of a program and of the definition beside it. *)
Ltac implement := repeat
  match goal with
  | |- forall _, _ => intros ?
  | |- implements (pbind (act (gets _)) _) (mbind' get _) => apply implements_gets
  | |- implements (pbind _ _) (mbind' _ _) => apply implements_bind
  | |- implements (if _ then _ else _) (if _ then _ else _) => apply implements_if
  | |- implements (if _ then _ else Done tt) (when _ _) => unfold when; apply implements_if
  | |- implements (pfor _ _) (for_each _ _) => apply implements_for
  | |- implements (pfor_brk _ _) (for_each_brk _ _) => apply implements_for_brk
  | |- implements (pwhile _ _ _) (while _ _ _) => apply implements_while
  | |- implements (Done _) (mret' _) => apply implements_ret
  | |- implements (act _) _ => apply implements_act
  | |- implements (let x := ?e in _) _ => cbv zeta
  | |- implements _ _ => solve [eauto with vattn_impl]
  end.

Section runs.
Context {api : gpu_api} {torch : torch_api}.
Implicit Types (s : vstate).

Lemma run_need_new_page_async r k : implements (need_new_page_async_p r k) (need_new_page_async r k).
Proof. unfold need_new_page_async_p, need_new_page_async. implement. Qed.
#[local] Hint Resolve run_need_new_page_async : vattn_impl.

Lemma run_release r k : implements (release_kvcache_pages_some_p r k) (release_kvcache_pages_some r k).
Proof. unfold release_kvcache_pages_some_p, release_kvcache_pages_some. implement. Qed.
#[local] Hint Resolve run_release : vattn_impl.

Lemma run_grow r k b : implements (grow_kvcache_phys_p r k b) (grow_kvcache_phys r k b).
Proof. unfold grow_kvcache_phys_p, grow_kvcache_phys. implement. Qed.
#[local] Hint Resolve run_grow : vattn_impl.

Lemma run_reclaim k : implements (reclaim_kvblocks_on_demand_p k) (reclaim_kvblocks_on_demand k).
Proof. unfold reclaim_kvblocks_on_demand_p, reclaim_kvblocks_on_demand, max_batch. implement. Qed.
#[local] Hint Resolve run_reclaim : vattn_impl.

Lemma run_first_inactive ids : implements (first_inactive_p ids) (first_inactive ids).
Proof. induction ids; cbn [first_inactive_p first_inactive]; implement. Qed.
#[local] Hint Resolve run_first_inactive : vattn_impl.

Lemma run_do_reclaim_pages : implements do_reclaim_pages_p do_reclaim_pages.
Proof.
  intros s. unfold do_reclaim_pages_p, do_reclaim_pages, max_batch. rewrite run_gets.
  change (mbind' get ?k s) with (k s s). cbv beta. destruct (deferred_reclaim s); [done|].
  rewrite run_gets. match goal with |- run_prog ?p s = ?m s => enough (implements p m) by done end.
  implement.
Qed.
#[local] Hint Resolve run_do_reclaim_pages : vattn_impl.

Lemma run_sum_need_new_pages ids acc : implements (sum_need_new_pages_p ids acc) (sum_need_new_pages ids acc).
Proof. revert acc. induction ids; intros; cbn [sum_need_new_pages_p sum_need_new_pages]; implement. Qed.
#[local] Hint Resolve run_sum_need_new_pages : vattn_impl.

Lemma run_eager_grow_requests k ids n :
  implements (eager_grow_requests_p k ids n) (eager_grow_requests k ids n).
Proof. revert n. induction ids; intros; cbn [eager_grow_requests_p eager_grow_requests]; implement. Qed.
#[local] Hint Resolve run_eager_grow_requests : vattn_impl.

Lemma run_eager_grow_steps ks ids n : implements (eager_grow_steps_p ks ids n) (eager_grow_steps ks ids n).
Proof. revert n. induction ks; intros; cbn [eager_grow_steps_p eager_grow_steps]; implement. Qed.
#[local] Hint Resolve run_eager_grow_steps : vattn_impl.

Lemma run_memory_management : implements do_kvcache_memory_management_p do_kvcache_memory_management.
Proof. unfold do_kvcache_memory_management_p, do_kvcache_memory_management, max_batch. implement. Qed.

Lemma run_map_pages_for_curr_step r n :
  implements (map_pages_for_curr_step_p r n) (map_pages_for_curr_step r n).
Proof. unfold map_pages_for_curr_step_p, map_pages_for_curr_step. implement. Qed.
#[local] Hint Resolve run_map_pages_for_curr_step : vattn_impl.

Lemma run_prepare_prefill : implements prepare_prefill_kvcache_p prepare_prefill_kvcache.
Proof. unfold prepare_prefill_kvcache_p, prepare_prefill_kvcache, max_batch. implement. Qed.

Lemma run_free_batch_idx r : implements (free_batch_idx_p r) (free_batch_idx r).
Proof. apply implements_act. Qed.
End runs.

Section runs_lengths.
Context {api : gpu_api} {torch : torch_api}.
Implicit Types (s : vstate).

Lemma is_active_req_eq r s :
  is_active_req r s = match nthZ (curr_seq_lengths s) r with
                      | Some n => Ok (negb (n =? 0)) s | None => Fault UB s end.
Proof. unfold is_active_req, get_req_seq_length, mbind', get, of_option. by destruct (nthZ _ _). Qed.

Lemma get_req_pages_eq r s :
  get_req_pages r s = match nthZ (mapped_pages s) r with Some n => Ok n s | None => Fault UB s end.
Proof. unfold get_req_pages, mbind', get, of_option. by destruct (nthZ _ _). Qed.

(** The reads of [choose_batch_idx], with the second comparison evaluated only
    when the first holds. *)
Lemma run_choose_batch_idx ids nr id s :
  Forall (fun r => is_Some (nthZ (mapped_pages s) r)) ids ->
  id = -1 \/ is_Some (nthZ (mapped_pages s) id) ->
  run_prog (choose_batch_idx_p ids nr id) s = choose_batch_idx ids nr id s.
Proof.
  intros Hids. revert id. induction Hids as [|r ids [n Hr] Hids IH]; intros id Hid; [done|].
  cbn [choose_batch_idx_p choose_batch_idx]. rewrite run_pbind, run_act. unfold mbind'.
  rewrite is_active_req_eq. destruct (nthZ (curr_seq_lengths s) r) as [len|]; [|done].
  destruct (negb (len =? 0)); [by apply IH|].
  destruct (Z.eqb_spec id (-1)) as [->|Hne]; [apply IH; right; by rewrite Hr|].
  destruct Hid as [|[b Hb]]; [done|]. rewrite run_pbind, run_act, !get_req_pages_eq, Hr.
  cbv beta iota. rewrite !(get_req_pages_eq id), Hb.
  destruct (nr <=? n); cbn [negb andb]; [|apply IH; right; by rewrite Hb].
  rewrite run_pbind, run_act, get_req_pages_eq, Hr, run_pbind, run_act, get_req_pages_eq, Hb.
  apply IH. right. destruct (n <? b); [by rewrite Hr|by rewrite Hb].
Qed.

Lemma run_alloc_new_batch_idx seqlen s :
  Z.of_nat (length (mapped_pages s)) = max_batch_size (conf s) ->
  run_prog (alloc_new_batch_idx_p seqlen) s = alloc_new_batch_idx seqlen s.
Proof.
  intros Hlen. unfold alloc_new_batch_idx_p, alloc_new_batch_idx, max_batch. rewrite run_pbind, run_act.
  unfold mbind' at 1. destruct (tokens_to_pages seqlen s) as [nr s'|] eqn:E; [|done].
  assert (s' = s) as ->.
  { unfold tokens_to_pages, udiv, mbind', gets, guard_or, mret' in E. by destruct (negb _); simplify_eq/=. }
  rewrite run_gets. change (mbind' get ?k s) with (k s s). cbv beta. unfold mbind' at 1.
  rewrite run_pbind, run_choose_batch_idx; [|apply Forall_forall; intros r Hr%elem_of_up|by left].
  - destruct (choose_batch_idx _ _ _ s) as [id s'|]; [|done].
    match goal with |- run_prog ?p s' = ?m s' => enough (implements p m) by done end. implement.
  - destruct (nthZ_is_Some (mapped_pages s) r) as [n ->]; [lia|by eexists].
Qed.

Lemma set_req_seq_length_eq pre old rest n s :
  curr_seq_lengths s = pre ++ old :: rest ->
  set_req_seq_length (Z.of_nat (length pre)) n s = Ok tt (set_seq_lengths (pre ++ n :: rest) s).
Proof.
  intros Hc. unfold set_req_seq_length, get_req_seq_length, mbind', get, of_option, modify, nthZ, setZ.
  rewrite Hc, (proj2 (Z.leb_le 0 _)), Nat2Z.id by lia. rewrite list_lookup_middle by done.
  unfold mret'. by rewrite Hc, (insert_app_r_alt pre), Nat.sub_diag by done.
Qed.

(** Element by element, the assignment of a vector of the same size. *)
Lemma run_copy_lengths lens old pre s :
  curr_seq_lengths s = pre ++ old -> length old = length lens ->
  run_prog (copy_lengths (Z.of_nat (length pre)) lens) s = Ok tt (set_seq_lengths (pre ++ lens) s).
Proof.
  revert old pre s. induction lens as [|n lens IH]; intros old pre s Hc Hl.
  - destruct old; [|done]. simpl. unfold mret'. rewrite <- Hc. by destruct s.
  - destruct old as [|o old]; [done|]. cbn [copy_lengths]. rewrite run_pbind, run_act.
    rewrite (set_req_seq_length_eq pre o old) by done.
    replace (Z.of_nat (length pre) + 1) with (Z.of_nat (length (pre ++ [n]))) by (rewrite length_app; simpl; lia).
    rewrite (IH old); simpl in *; [by rewrite <- app_assoc..|lia].
Qed.

Lemma run_set_curr_seq_lengths lens s :
  length lens = length (curr_seq_lengths s) ->
  run_prog (set_curr_seq_lengths_p lens) s = set_curr_seq_lengths lens s.
Proof. intros Hl. by apply (run_copy_lengths lens (curr_seq_lengths s) [] s). Qed.
End runs_lengths.

(** ** Blocks are mapped without looking at the lengths *)

Section commutes.
Context {api : gpu_api} {torch : torch_api}.
Implicit Types (s : vstate).

Definition res_map {S A} (f : S -> S) (r : res S A) : res S A :=
  match r with Ok a s => Ok a (f s) | Fault e s => Fault e (f s) end.

(** The action gives the same result and makes the same changes whether the
    lengths are written before or after it. *)
Definition commutes {A} (m : VM A) : Prop :=
  forall s l, m (set_seq_lengths l s) = res_map (set_seq_lengths l) (m s).

Lemma commutes_bind {A B} (m : VM A) (k : A -> VM B) :
  commutes m -> (forall a, commutes (k a)) -> commutes (mbind' m k).
Proof. intros Hm Hk s l. unfold mbind'. rewrite Hm. destruct (m s); simpl; [apply Hk|done]. Qed.
Lemma commutes_ret {A} (a : A) : commutes (mret' a).
Proof. done. Qed.
Lemma commutes_fail {A} f : commutes (fail (A := A) f).
Proof. done. Qed.
(** A reading of the state that does not look at the lengths. *)
Lemma commutes_get {B} (k : vstate -> VM B) :
  (forall s l, k (set_seq_lengths l s) = k s) -> (forall s, commutes (k s)) -> commutes (mbind' get k).
Proof. intros H1 H2 s l. change (k (set_seq_lengths l s) (set_seq_lengths l s) = res_map (set_seq_lengths l) (k s s)). rewrite H1. apply H2. Qed.
Lemma commutes_gets {A} (f : vstate -> A) :
  (forall s l, f (set_seq_lengths l s) = f s) -> commutes (gets f).
Proof. intros H s l. unfold gets. by rewrite H. Qed.
Lemma commutes_modify (f : vstate -> vstate) :
  (forall s l, f (set_seq_lengths l s) = set_seq_lengths l (f s)) -> commutes (modify f).
Proof. intros H s l. unfold modify. simpl. by rewrite H. Qed.
Lemma commutes_of_option {A} f (o : option A) : commutes (of_option f o).
Proof. by destruct o. Qed.
Lemma commutes_guard f b : commutes (guard_or f b).
Proof. by destruct b. Qed.
Lemma commutes_if {A} (b : bool) (m n : VM A) : commutes m -> commutes n -> commutes (if b then m else n).
Proof. by destruct b. Qed.
Lemma commutes_for {A} (l : list A) m : (forall x, commutes (m x)) -> commutes (for_each l m).
Proof. intros H. induction l; simpl; [done|]. by apply commutes_bind. Qed.
End commutes.

Ltac commute := repeat
  match goal with
  | |- forall _, _ => intros ?
  | |- commutes (mbind' get _) => apply commutes_get; [done|]
  | |- commutes (mbind' _ _) => apply commutes_bind
  | |- commutes (mret' _) => apply commutes_ret
  | |- commutes (gets _) => apply commutes_gets; done
  | |- commutes (modify _) => apply commutes_modify; done
  | |- commutes (of_option _ _) => apply commutes_of_option
  | |- commutes (guard_or _ _) => apply commutes_guard
  | |- commutes (if _ then _ else _) => apply commutes_if
  | |- commutes (for_each _ _) => apply commutes_for
  | |- commutes (let '(_, _) := ?e in _) => destruct e
  end.

Section blocks_commute.
Context {api : gpu_api} {torch : torch_api}.

Lemma MAP_PAGES_commutes r l o k v psz : commutes (MAP_PAGES r l o k v psz).
Proof.
  unfold MAP_PAGES, pop_cuda_page, pop_uvm_page, map_cuda_pages, map_uvm_pages, CHECK_CUDA, CHECK_VATTN,
    vattn_mem_map, do_ioctl. commute.
Qed.

Lemma UNMAP_PAGES_commutes r l o k v psz : commutes (UNMAP_PAGES r l o k v psz).
Proof. unfold UNMAP_PAGES, CHECK_CUDA. commute. Qed.

Lemma grow_one_block_commutes r b : commutes (grow_one_block r b).
Proof.
  unfold grow_one_block, get_req_current_map_offset, get_req_pages, get_req_begin_offset_virt,
    is_valid_offset, tensor_ptrs, inc_req_page_count, get_req_pages. commute. apply MAP_PAGES_commutes.
Qed.

Lemma unmap_req_page_one_commutes r : commutes (unmap_req_page_one r).
Proof.
  unfold unmap_req_page_one, get_req_current_unmap_offset, get_req_pages, get_req_begin_offset_virt,
    tensor_ptrs, dec_req_page_count, get_req_pages. commute. apply UNMAP_PAGES_commutes.
Qed.
End blocks_commute.
