(* ===== verification/VattnRely.v ===== *)
(** Safety of the programs of VattnProg when other threads write the sequence
    lengths between any two of their actions.

    [safe p Q s] is a weakest precondition of rely-guarantee kind.  Before every
    action of [p] the environment may replace [curr_seq_lengths] by any vector of
    valid lengths; after every action the invariant holds again and the
    configuration and the flag are as before.  [lengths_only] is the
    counterpart for the framework's thread: an action may run in any state that
    satisfies the invariant and only writes lengths. *)

From S2P Require Import Prelude GpuApi VattnState VattnPages VattnInit VattnAlloc VattnInv VattnMap VattnGrow VattnReclaim VattnStep VattnManage VattnProg.
Local Open Scope Z_scope.
Local Open Scope cword_scope.

Section rely.
Context {api : gpu_api} {torch : torch_api} {gran : Z} {laws : GpuLaws api gran}.
Context (R : list Z).
Implicit Types (s : vstate) (c : config).

(** Vectors of lengths the framework writes. *)
Definition lengths_ok c (l : list Z) : Prop :=
  Z.of_nat (length l) = max_batch_size c /\ Forall seq_len_ok l.

Record keeps s s' : Prop := {
  ke_inv : Inv R s';
  ke_conf : conf s' = conf s;
  ke_run : mem_manager_running s' = mem_manager_running s;
}.

Fixpoint safe {A} (F : fault -> Prop) (p : prog A) (Q : A -> vstate -> Prop) s : Prop :=
  match p with
  | Done a => Q a s
  | Act m k => forall l, lengths_ok (conf s) l ->
      wp m (fun b s' => keeps s s' /\ safe F (k b) Q s') (fun f s' => keeps s s' /\ F f)
        (set_seq_lengths l s)
  end.

Lemma safe_bind {A B} F (p : prog A) (k : A -> prog B) Q s :
  safe F p (fun a s' => safe F (k a) Q s') s -> safe F (pbind p k) Q s.
Proof.
  revert s. induction p as [a|C m k' IH]; intros s; simpl; [done|].
  intros H l Hl. eapply wp_mono; [by apply H| |done]. intros b s' [Hk Hs]. split; [done|]. by apply IH.
Qed.

Lemma safe_mono {A} F (p : prog A) (Q Q' : A -> vstate -> Prop) s :
  safe F p Q s -> (forall a s', Q a s' -> Q' a s') -> safe F p Q' s.
Proof.
  intros H HQ. revert s H. induction p as [a|C m k IH]; intros s; simpl; [apply HQ|].
  intros H l Hl. eapply wp_mono; [by apply H| |done]. intros b s' [Hk Hs]. split; [done|]. by apply IH.
Qed.

(** A write of the lengths by another thread. *)
Lemma safe_lengths {A} F (p : prog A) (Q : A -> vstate -> Prop) s l :
  (forall a l', Q a s -> Q a (set_seq_lengths l' s)) -> safe F p Q s -> safe F p Q (set_seq_lengths l s).
Proof.
  intros HQ. destruct p as [a|B m k]; simpl; [apply HQ|]. intros H l' Hl'.
  eapply wp_mono; [exact (H l' Hl')| |]; intros ? s' [[] ?]; (split; [by split|done]).
Qed.

Lemma safe_Done {A} F (a : A) (Q : A -> vstate -> Prop) s : Q a s -> safe F (Done a) Q s.
Proof. done. Qed.

Lemma safe_act {B} F (m : VM B) (Q : B -> vstate -> Prop) s :
  Inv R s ->
  (forall l, lengths_ok (conf s) l -> Inv R (set_seq_lengths l s) ->
     wp m (fun b s' => keeps s s' /\ Q b s') (fun f s' => keeps s s' /\ F f) (set_seq_lengths l s)) ->
  safe F (act m) Q s.
Proof. intros HI H l Hl. apply H; [done|]. destruct Hl. by apply Inv_set_seq. Qed.

(** An action that only reads. *)
Lemma safe_read {B} F (m : VM B) (Q : B -> vstate -> Prop) s :
  Inv R s ->
  (forall l, lengths_ok (conf s) l -> Inv R (set_seq_lengths l s) ->
     wp m (fun b s' => s' = set_seq_lengths l s /\ Q b s') (fun _ _ => False) (set_seq_lengths l s)) ->
  safe F (act m) Q s.
Proof.
  intros HI H. apply safe_act; [done|]. intros l Hl HI'.
  eapply wp_mono; [by apply H| |done]. intros b s' [-> HQ]. split; [by split|done].
Qed.

(** ** Reads *)

Lemma safe_gets {B} F (f : vstate -> B) (Q : B -> vstate -> Prop) s :
  Inv R s -> (forall l, f (set_seq_lengths l s) = f s) ->
  (forall s', Inv R s' -> conf s' = conf s -> mapped_pages s' = mapped_pages s -> pool s' = pool s -> Q (f s) s') ->
  safe F (act (gets f)) Q s.
Proof. intros HI Hf HQ. apply safe_read; [done|]. intros l _ HI'. wp_steps. rewrite Hf. split; [done|]. by apply HQ. Qed.

Lemma safe_max_batch F (Q : Z -> vstate -> Prop) s :
  Inv R s -> (forall s', Inv R s' -> conf s' = conf s -> Q (max_batch_size (conf s)) s') -> safe F max_batch Q s.
Proof. intros HI HQ. apply safe_gets; [done..|]. intros. by apply HQ. Qed.

Lemma safe_tokens_to_pages F n (Q : Z -> vstate -> Prop) s :
  Inv R s -> 0 <= n < 2 ^ 63 ->
  (forall x s', Inv R s' -> conf s' = conf s -> mapped_pages s' = mapped_pages s -> 0 <= x -> Q x s') ->
  safe F (act (tokens_to_pages n)) Q s.
Proof.
  intros HI Hn HQ. apply safe_read; [done|]. intros l _ HI'. pose proof (pi_conf _ _ _ (inv_pages _ _ HI')) as Hc.
  apply wp_tokens_to_pages; [done..|]. split; [done|]. apply HQ; [done..|].
  apply ceil_div_nonneg; [apply Hc|lia].
Qed.

Lemma safe_get_req_pages F r (Q : Z -> vstate -> Prop) s :
  Inv R s -> 0 <= r < max_batch_size (conf s) ->
  (forall n s', Inv R s' -> conf s' = conf s -> mapped_pages s' = mapped_pages s -> pool s' = pool s ->
     nthZ (mapped_pages s) r = Some n -> 0 <= n -> Q n s') ->
  safe F (act (get_req_pages r)) Q s.
Proof.
  intros HI Hr HQ. apply safe_read; [done|]. intros l _ HI'.
  destruct (Inv_mapped _ _ _ HI Hr) as (n & Hn & Hb). eapply wp_get_req_pages; [exact Hn|].
  split; [done|]. apply HQ; try done; lia.
Qed.

Lemma safe_get_req_seq_length F r (Q : Z -> vstate -> Prop) s :
  Inv R s -> 0 <= r < max_batch_size (conf s) ->
  (forall n s', Inv R s' -> conf s' = conf s -> mapped_pages s' = mapped_pages s -> seq_len_ok n -> Q n s') ->
  safe F (act (get_req_seq_length r)) Q s.
Proof.
  intros HI Hr HQ. apply safe_read; [done|]. intros l _ HI'.
  destruct (Inv_seq _ _ _ HI' Hr) as (n & Hn & Hb). eapply wp_get_req_seq_length; [exact Hn|].
  split; [done|]. by apply HQ.
Qed.

Lemma safe_is_active_req F r (Q : bool -> vstate -> Prop) s :
  Inv R s -> 0 <= r < max_batch_size (conf s) ->
  (forall b s', Inv R s' -> conf s' = conf s -> Q b s') ->
  safe F (act (is_active_req r)) Q s.
Proof.
  intros HI Hr HQ. apply safe_read; [done|]. intros l _ HI'.
  destruct (Inv_seq _ _ _ HI' Hr) as (n & Hn & Hb). eapply wp_is_active_req; [exact Hn|].
  split; [done|]. by apply HQ.
Qed.

Lemma safe_kvblocks_available F n (Q : bool -> vstate -> Prop) s :
  Inv R s ->
  (forall b s', Inv R s' -> conf s' = conf s -> mapped_pages s' = mapped_pages s -> pool s' = pool s ->
     (b = true -> 2 * nlay (conf s) * n <= Z.of_nat (length (pool s))) -> Q b s') ->
  safe F (act (kvblocks_available n)) Q s.
Proof.
  intros HI HQ. apply safe_read; [done|]. intros l _ HI'. pose proof (pi_conf _ _ _ (inv_pages _ _ HI')) as Hc.
  apply wp_kvblocks_available; [done|]. rewrite kvblocks_available_iff by done.
  split; [done|]. apply HQ; try done. intros H. by apply Z.leb_le in H.
Qed.

(** ** Blocks *)

Lemma keeps_resized s l s' r n n' : Inv R s' -> resized (set_seq_lengths l s) s' r n n' -> keeps s s'.
Proof. intros HI [[] _ _]. by split. Qed.

Lemma safe_unmap_req_page_one F r n (Q : unit -> vstate -> Prop) s :
  Inv R s -> nthZ (mapped_pages s) r = Some n -> 0 < n ->
  (forall s', Inv R s' -> conf s' = conf s -> nthZ (mapped_pages s') r = Some (n - 1) -> Q tt s') ->
  safe F (act (unmap_req_page_one r)) Q s.
Proof.
  intros HI Hn Hpos HQ. apply safe_act; [done|]. intros l _ HI'.
  eapply wp_unmap_req_page_one; [done|exact Hn|done|]. intros s' HI2 Hrs.
  pose proof (keeps_resized _ _ _ _ _ _ HI2 Hrs) as Hk. split; [done|]. apply HQ; [done|apply Hk|].
  rewrite (resized_lookup (set_seq_lengths l s) s' r n (n - 1) r) by done. by rewrite decide_True.
Qed.

Lemma safe_grow_one_block F r b (Q : bool -> vstate -> Prop) s :
  Inv R s -> 0 <= r < max_batch_size (conf s) -> 2 * nlay (conf s) <= Z.of_nat (length (pool s)) ->
  (forall b' s', Inv R s' -> conf s' = conf s ->
     Z.of_nat (length (pool s)) - 2 * nlay (conf s) <= Z.of_nat (length (pool s')) -> Q b' s') ->
  safe F (act (grow_one_block r b)) Q s.
Proof.
  intros HI Hr Hp HQ. pose proof (nlay_pos _ (pi_conf _ _ _ (inv_pages _ _ HI))).
  apply safe_act; [done|]. intros l _ HI'. destruct (Inv_mapped _ _ _ HI Hr) as (n & Hn & Hb).
  eapply wp_grow_one_block; [done|exact Hn|done| |].
  - intros _. split; [by split|]. apply HQ; [done..|]. change (pool (set_seq_lengths l s)) with (pool s). lia.
  - intros s' _ HI2 Hrs. pose proof (keeps_resized _ _ _ _ _ _ HI2 Hrs) as Hk. split; [done|].
    apply HQ; [done|apply Hk|]. pose proof (rs_pool _ _ _ _ _ Hrs) as Hl.
    change (pool (set_seq_lengths l s)) with (pool s) in Hl. simpl in Hl. lia.
Qed.

(** ** Loops *)

Lemma safe_for {A} F (I : vstate -> Prop) (l : list A) body (Q : unit -> vstate -> Prop) s :
  I s -> (forall x s', x ∈ l -> I s' -> safe F (body x) (fun _ => I) s') -> (forall s', I s' -> Q tt s') ->
  safe F (pfor l body) Q s.
Proof.
  intros HI Hb HQ. revert s HI. induction l as [|x l IH]; intros s HI; simpl; [by apply HQ|].
  apply safe_bind. eapply safe_mono; [apply Hb; [left|done]|]. intros [] s' HI'.
  apply IH; [|done]. intros y s2 Hy. apply Hb. by right.
Qed.

Lemma safe_for_brk {A} F (I : vstate -> Prop) (l : list A) body (Q : bool -> vstate -> Prop) s :
  I s -> (forall x s', x ∈ l -> I s' -> safe F (body x) (fun _ => I) s') -> (forall b s', I s' -> Q b s') ->
  safe F (pfor_brk l body) Q s.
Proof.
  intros HI Hb HQ. revert s HI. induction l as [|x l IH]; intros s HI; simpl; [by apply HQ|].
  apply safe_bind. eapply safe_mono; [apply Hb; [left|done]|]. intros [] s' HI'; [by apply HQ|].
  apply IH; [|done]. intros y s2 Hy. apply Hb. by right.
Qed.

(** The invariant and the configuration, what most of the code needs. *)
Definition ready c s : Prop := Inv R s /\ conf s = c.

(** The release loop terminates: nobody else maps pages. *)
Lemma safe_release_loop F r k fuel m (Q : unit -> vstate -> Prop) s :
  Inv R s -> nthZ (mapped_pages s) r = Some m -> 0 <= r < max_batch_size (conf s) -> 0 <= k ->
  m <= Z.of_nat fuel -> (forall s', Inv R s' -> conf s' = conf s -> Q tt s') ->
  safe F (pwhile fuel (m <~ act (get_req_pages r) ;; Done (k <? m)) (act (unmap_req_page_one r))) Q s.
Proof.
  revert s m. induction fuel as [|fuel IH]; intros s m HI Hm Hr Hk Hf HQ; cbn [pwhile];
    apply safe_bind, safe_bind, safe_get_req_pages; try done; intros m' s' HI' Hc Hmp _ Hm' Hpos; simplify_eq;
    apply safe_Done; (destruct (Z.ltb_spec k m); [|by apply HQ]); [lia|].
  apply safe_bind. eapply (safe_unmap_req_page_one _ r m); [done|by rewrite Hmp|lia|].
  intros s2 HI2 Hc2 Hm2. eapply IH; [done..|by rewrite Hc2, Hc|done|lia|].
  intros s3 HI3 Hc3. apply HQ; [done|congruence].
Qed.

Lemma safe_release F r k c (Q : unit -> vstate -> Prop) s :
  ready c s -> 0 <= r < max_batch_size c -> 0 <= k -> (forall s', ready c s' -> Q tt s') ->
  safe F (release_kvcache_pages_some_p r k) Q s.
Proof.
  intros [HI <-] Hr Hk HQ. apply safe_bind, safe_get_req_pages; [done..|].
  intros n s' HI' Hc Hmp _ Hn Hpos. eapply safe_release_loop; [done|by rewrite Hmp|by rewrite Hc|done|lia|].
  intros s2 HI2 Hc2. apply HQ. split; [done|congruence].
Qed.

(** The growth loop: the pool has the blocks, and nobody else takes pages. *)
Lemma safe_grow_loop F r b (ids : list Z) (Q : bool -> vstate -> Prop) s :
  Inv R s -> 0 <= r < max_batch_size (conf s) ->
  2 * nlay (conf s) * Z.of_nat (length ids) <= Z.of_nat (length (pool s)) ->
  (forall b' s', Inv R s' -> conf s' = conf s -> Q b' s') ->
  safe F (pfor_brk ids (fun _ => act (grow_one_block r b))) Q s.
Proof.
  revert s. induction ids as [|i ids IH]; intros s HI Hr Hp HQ; cbn [pfor_brk]; [by apply HQ|].
  pose proof (nlay_pos _ (pi_conf _ _ _ (inv_pages _ _ HI))). simpl in Hp.
  apply safe_bind, safe_grow_one_block; [done|done|nia|]. intros [] s' HI' Hc Hl; [by apply HQ|].
  apply IH; rewrite ?Hc; [done|done|nia|]. intros b' s2 HI2 Hc2. apply HQ; [done|congruence].
Qed.

Lemma safe_grow F r k (sync : bool) c (Q : unit -> vstate -> Prop) s :
  ready c s -> 0 <= r < max_batch_size c -> (sync = true -> F (Throw EXN_OOM)) ->
  (forall s', ready c s' -> Q tt s') -> safe F (grow_kvcache_phys_p r k sync) Q s.
Proof.
  intros [HI <-] Hr HF HQ. unfold grow_kvcache_phys_p. destruct (Z.leb_spec k 0); [by apply HQ|].
  apply safe_bind, safe_kvblocks_available; [done|]. intros av s' HI' Hc _ Hp Hav.
  destruct av; cbn [negb].
  - apply safe_bind, safe_grow_loop; rewrite ?Hc, ?Hp; [done|done| |].
    + unfold up. rewrite length_seqZ. specialize (Hav eq_refl). lia.
    + intros b' s2 HI2 Hc2. apply HQ. split; [done|congruence].
  - destruct sync; cbn [negb]; [|by apply HQ]. apply safe_bind, safe_act; [done|]. intros l _ HI2. wp_steps.
    split; [split; [by apply Inv_set_verbose|done..]|].
    intros l2 [? ?]. wp_steps. split; [|by apply HF]. split; [|done..]. by apply Inv_set_seq; [apply Inv_set_verbose|..].
Qed.

(** ** The manager *)

Lemma safe_need_new F r k c (Q : Z -> vstate -> Prop) s :
  ready c s -> 0 <= r < max_batch_size c -> 0 <= k < 2 ^ 8 -> (forall n s', ready c s' -> Q n s') ->
  safe F (need_new_page_async_p r k) Q s.
Proof.
  intros [HI <-] Hr Hk HQ. apply safe_bind, safe_is_active_req; [done..|]. intros a s1 H1 Hc1.
  destruct a; cbn [negb]; [|by apply HQ].
  apply safe_bind, safe_get_req_pages; [done|by rewrite Hc1|]. intros n s2 H2 Hc2 _ _ _ _.
  apply safe_bind, safe_gets; [done..|]. intros s3 H3 Hc3 _ _.
  destruct (_ =? _); [apply HQ; split; [done|congruence]|].
  apply safe_bind, safe_get_req_seq_length; [done|by rewrite Hc3, Hc2, Hc1|]. intros len s4 H4 Hc4 _ Hlen.
  unfold seq_len_ok in Hlen. rewrite u64_small by (unfold is_u64; lia).
  apply safe_bind, safe_tokens_to_pages; [done|lia|]. intros x s5 H5 Hc5 _ _.
  apply HQ. split; [done|congruence].
Qed.

Lemma safe_reclaim F k c (Q : unit -> vstate -> Prop) s :
  ready c s -> (forall s', ready c s' -> Q tt s') -> safe F (reclaim_kvblocks_on_demand_p k) Q s.
Proof.
  intros [HI <-] HQ. apply safe_bind, safe_max_batch; [done|]. intros s1 H1 Hc1.
  apply safe_bind, (safe_for_brk _ (ready (conf s))); [done| |done].
  intros r s2 Hr%elem_of_down [H2 Hc2].
  apply safe_bind, safe_kvblocks_available; [done|]. intros [] s3 H3 Hc3 _ _ _; [split; [done|congruence]|].
  apply safe_bind, safe_get_req_pages; [done|by rewrite Hc3, Hc2|]. intros n s4 H4 Hc4 _ _ _ _.
  apply safe_bind, safe_get_req_seq_length; [done|by rewrite Hc4, Hc3, Hc2|]. intros len s5 H5 Hc5 _ Hlen.
  unfold seq_len_ok in Hlen. apply safe_bind, safe_tokens_to_pages; [done|lia|]. intros x s6 H6 Hc6 _ Hx.
  destruct (_ <=? _); [split; [done|congruence]|].
  apply safe_bind, (safe_release _ _ _ (conf s)); [split; [done|congruence]|done|done|done].
Qed.

Lemma safe_first_inactive F ids c (Q : Z -> vstate -> Prop) s :
  ready c s -> Forall (fun r => 0 <= r < max_batch_size c) ids -> (forall n s', ready c s' -> Q n s') ->
  safe F (first_inactive_p ids) Q s.
Proof.
  intros Hs Hids HQ. revert s Hs. induction Hids as [|r ids Hr _ IH]; intros s [HI <-]; [by apply HQ|].
  apply safe_bind, safe_is_active_req; [done..|]. intros [] s1 H1 Hc1; cbn [negb]; [|by apply HQ]. by apply IH.
Qed.

Lemma valid_up c : Forall (fun r => 0 <= r < max_batch_size c) (up 0 (max_batch_size c)).
Proof. apply Forall_forall. intros r. by rewrite elem_of_up. Qed.

Lemma safe_do_reclaim F c (Q : unit -> vstate -> Prop) s :
  ready c s -> (forall s', ready c s' -> Q tt s') -> safe F do_reclaim_pages_p Q s.
Proof.
  intros [HI <-] HQ. apply safe_bind, safe_gets; [done..|]. intros s1 H1 Hc1 _ _.
  destruct (deferred_reclaim s); [by apply HQ|].
  apply safe_bind, safe_max_batch; [done|]. intros s2 H2 Hc2. rewrite Hc1 in *.
  apply safe_bind, (safe_first_inactive _ _ (conf s)); [done|apply valid_up|]. intros next s3 H3.
  apply safe_bind, (safe_for_brk _ (ready (conf s))); [done| |done].
  intros r s4 Hr%elem_of_down [H4 Hc4].
  apply safe_bind, safe_is_active_req; [done|by rewrite Hc4|]. intros a s5 H5 Hc5.
  destruct (a || _); [split; [done|congruence]|].
  apply safe_bind, safe_get_req_pages; [done|by rewrite Hc5, Hc4|]. intros n s6 H6 Hc6 Hm6 _ Hn Hpos.
  destruct (Z.eqb_spec n 0); [split; [done|congruence]|].
  apply safe_bind, (safe_unmap_req_page_one _ _ n); [done|by rewrite Hm6|lia|]. intros s7 H7 Hc7 _.
  split; [done|congruence].
Qed.

Lemma safe_sum_need F ids acc c (Q : Z -> vstate -> Prop) s :
  ready c s -> Forall (fun r => 0 <= r < max_batch_size c) ids -> (forall n s', ready c s' -> Q n s') ->
  safe F (sum_need_new_pages_p ids acc) Q s.
Proof.
  intros Hs Hids HQ. revert s acc Hs. induction Hids as [|r ids Hr _ IH]; intros s acc Hs; [by apply HQ|].
  apply safe_bind, (safe_need_new _ _ _ c); [done|done|lia|]. intros n s1 H1. by apply IH.
Qed.

Lemma safe_eager_requests F k ids cnt c (Q : Z * bool -> vstate -> Prop) s :
  ready c s -> 0 <= k < 2 ^ 8 -> Forall (fun r => 0 <= r < max_batch_size c) ids ->
  (forall x s', ready c s' -> Q x s') -> safe F (eager_grow_requests_p k ids cnt) Q s.
Proof.
  intros Hs Hk Hids HQ. revert s cnt Hs. induction Hids as [|r ids Hr _ IH]; intros s cnt Hs; [by apply HQ|].
  apply safe_bind, (safe_need_new _ _ _ c); [done..|]. intros n s1 H1.
  apply safe_bind, (safe_grow _ _ _ _ c); [done..|]. intros s2 H2. cbv zeta.
  destruct (k =? 1); [by apply IH|]. destruct (_ <=? _); [by apply HQ|by apply IH].
Qed.

Lemma safe_eager_steps F ks ids cnt c (Q : unit -> vstate -> Prop) s :
  ready c s -> Forall (fun k => 0 <= k < 2 ^ 8) ks -> Forall (fun r => 0 <= r < max_batch_size c) ids ->
  (forall s', ready c s' -> Q tt s') -> safe F (eager_grow_steps_p ks ids cnt) Q s.
Proof.
  intros Hs Hks Hids HQ. revert s cnt Hs. induction Hks as [|k ks Hk _ IH]; intros s cnt Hs; [by apply HQ|].
  apply safe_bind, (safe_eager_requests _ _ _ _ c); [done..|]. intros [x []] s1 H1; [by apply HQ|by apply IH].
Qed.

(** The manager is safe whatever lengths the framework's thread writes, and
    has no fault of any kind. *)
Lemma safe_memory_management F c (Q : unit -> vstate -> Prop) s :
  ready c s -> (forall s', ready c s' -> Q tt s') -> safe F do_kvcache_memory_management_p Q s.
Proof.
  intros [HI <-] HQ. apply safe_bind, safe_max_batch; [done|]. intros s1 H1 Hc1.
  apply safe_bind, (safe_sum_need _ _ _ (conf s)); [done|apply valid_up|]. intros n s2 [H2 Hc2].
  apply safe_bind, safe_kvblocks_available; [done|]. intros av s3 H3 Hc3 _ _ _. apply safe_bind.
  assert (Hrest : forall s4, ready (conf s) s4 -> safe F
    (av2 <~ act (kvblocks_available n) ;;
     if negb av2 then Done tt else
     eager_grow_steps_p (up 1 EAGER_NUM_STEPS) (up 0 (max_batch_size (conf s))) 0 ;~
     if negb (n =? 0) then Done tt else do_reclaim_pages_p) Q s4).
  { intros s4 [H4 Hc4]. apply safe_bind, safe_kvblocks_available; [done|]. intros [] s5 H5 Hc5 _ _ _; cbn [negb];
      [|apply HQ; split; [done|congruence]].
    apply safe_bind, (safe_eager_steps _ _ _ _ (conf s)); [split; [done|congruence]| |apply valid_up|].
    { apply Forall_forall. intros k. rewrite elem_of_up. unfold EAGER_NUM_STEPS. lia. }
    intros s6 H6. destruct (negb _); [by apply HQ|]. by apply (safe_do_reclaim _ (conf s)). }
  destruct av; cbn [negb]; [apply Hrest; split; [done|congruence]|].
  apply (safe_reclaim _ _ (conf s)); [split; [done|congruence]|done].
Qed.

(** ** The prefill allocation *)

Lemma safe_map_pages F r len c (Q : unit -> vstate -> Prop) s :
  ready c s -> 0 <= r < max_batch_size c -> seq_len_ok len -> F (Throw EXN_OOM) ->
  (forall s', ready c s' -> Q tt s') -> safe F (map_pages_for_curr_step_p r len) Q s.
Proof.
  intros [HI <-] Hr Hlen HF HQ. unfold seq_len_ok in Hlen. unfold map_pages_for_curr_step_p.
  destruct (len =? 0); [by apply HQ|].
  apply safe_bind, safe_tokens_to_pages; [done|lia|]. intros x s1 H1 Hc1 _ _.
  apply safe_bind, safe_get_req_pages; [done|by rewrite Hc1|]. intros n s2 H2 Hc2 _ _ _ _.
  destruct (_ <=? _); [apply HQ; split; [done|congruence]|]. cbv zeta.
  apply safe_bind, safe_kvblocks_available; [done|]. intros av s3 H3 Hc3 _ _ _. apply safe_bind.
  assert (Hrest : forall s4, ready (conf s) s4 -> safe F
    (grow_kvcache_phys_p r (x -u n) true ;~ act (set_req_seq_length r len)) Q s4).
  { intros s4 H4. apply safe_bind, (safe_grow _ _ _ _ (conf s)); [done..|]. intros s5 [H5 Hc5].
    apply safe_act; [done|]. intros l Hl H6. destruct (Inv_seq _ _ r H6) as (old & Hold & _); [by simpl; rewrite Hc5|].
    eapply wp_set_req_seq_length; [exact Hold|]. destruct Hl as [Hl HF'].
    assert (H7 : Inv R (set_seq_lengths (setZ l r len) s5)).
    { apply Inv_set_seq; [done|by rewrite length_setZ|]. by apply Forall_setZ. }
    split; [by split|]. by apply HQ. }
  destruct av; cbn [negb]; [apply Hrest; split; [done|congruence]|].
  apply (safe_reclaim _ _ (conf s)); [split; [done|congruence]|done].
Qed.

Lemma safe_prepare_prefill F c (Q : unit -> vstate -> Prop) s :
  ready c s -> F (Throw EXN_OOM) -> (forall s', ready c s' -> Q tt s') ->
  safe F prepare_prefill_kvcache_p Q s.
Proof.
  intros [HI <-] HF HQ. apply safe_bind, safe_max_batch; [done|]. intros s1 H1 Hc1.
  apply (safe_for _ (ready (conf s))); [done| |done]. intros r s2 Hr%elem_of_up [H2 Hc2].
  apply safe_bind, safe_get_req_seq_length; [done|by rewrite Hc2|]. intros len s3 H3 Hc3 _ Hlen.
  apply (safe_map_pages _ _ _ (conf s)); [split; [done|congruence]|done..].
Qed.

(** ** Writers of the lengths *)

(** Every action may run in any state that satisfies the invariant; it changes
    nothing but the lengths, and has no fault. *)
Fixpoint lengths_only {A} c (p : prog A) (Q : A -> Prop) : Prop :=
  match p with
  | Done a => Q a
  | Act m k => forall s, Inv R s -> conf s = c ->
      wp m (fun b s' => (exists l, lengths_ok c l /\ s' = set_seq_lengths l s) /\ lengths_only c (k b) Q)
        (fun _ _ => False) s
  end.

Lemma lengths_only_bind {A B} c (p : prog A) (k : A -> prog B) Q :
  lengths_only c p (fun a => lengths_only c (k a) Q) -> lengths_only c (pbind p k) Q.
Proof.
  induction p as [a|C m k' IH]; simpl; [done|].
  intros H s HI Hc. eapply wp_mono; [by apply H| |done]. intros b s' [Hl Hs]. split; [done|]. by apply IH.
Qed.

(** A read. *)
Lemma same_lengths s : Inv R s -> exists l, lengths_ok (conf s) l /\ s = set_seq_lengths l s.
Proof.
  intros [[] _]. exists (curr_seq_lengths s). split; [by split|]. by destruct s.
Qed.

Lemma lengths_only_set c r n (Q : unit -> Prop) :
  0 <= r < max_batch_size c -> seq_len_ok n -> Q tt -> lengths_only c (act (set_req_seq_length r n)) Q.
Proof.
  intros Hr Hn HQ s HI <-. destruct (Inv_seq _ _ _ HI Hr) as (old & Hold & _).
  eapply wp_set_req_seq_length; [done|]. split; [|done]. eexists. split; [|done].
  pose proof (inv_counters _ _ HI) as [? ? ? ?]. split; [by rewrite length_setZ|]. by apply Forall_setZ.
Qed.

Lemma lengths_only_is_active c r (Q : bool -> Prop) :
  0 <= r < max_batch_size c -> (forall b, Q b) -> lengths_only c (act (is_active_req r)) Q.
Proof.
  intros Hr HQ s HI <-. destruct (Inv_seq _ _ _ HI Hr) as (n & Hn & _).
  eapply wp_is_active_req; [done|]. split; [by apply same_lengths|apply HQ].
Qed.

Lemma lengths_only_pages c r (Q : Z -> Prop) :
  0 <= r < max_batch_size c -> (forall b, Q b) -> lengths_only c (act (get_req_pages r)) Q.
Proof.
  intros Hr HQ s HI <-. destruct (Inv_mapped _ _ _ HI Hr) as (n & Hn & _).
  eapply wp_get_req_pages; [done|]. split; [by apply same_lengths|apply HQ].
Qed.

Lemma lengths_only_choose c ids nr id (Q : Z -> Prop) :
  Forall (fun r => 0 <= r < max_batch_size c) ids -> id = -1 \/ 0 <= id < max_batch_size c ->
  (forall id', id' = -1 \/ 0 <= id' < max_batch_size c -> Q id') ->
  lengths_only c (choose_batch_idx_p ids nr id) Q.
Proof.
  intros Hids Hid HQ. revert id Hid. induction Hids as [|r ids Hr _ IH]; intros id Hid; [by apply HQ|].
  apply lengths_only_bind, lengths_only_is_active; [done|]. intros []; [by apply IH|].
  destruct (Z.eqb_spec id (-1)) as [->|Hne]; [by apply IH; right|].
  apply lengths_only_bind, lengths_only_pages; [done|]. intros n. destruct (negb _); [by apply IH|].
  apply lengths_only_bind, lengths_only_pages; [done|]. intros n'.
  apply lengths_only_bind, lengths_only_pages; [lia|]. intros b. apply IH. destruct (n' <? b); auto.
Qed.

Lemma lengths_only_alloc c seqlen :
  seq_len_ok seqlen -> lengths_only c (alloc_new_batch_idx_p seqlen) (fun _ => True).
Proof.
  intros Hn. apply lengths_only_bind. intros s HI <-. pose proof (pi_conf _ _ _ (inv_pages _ _ HI)) as Hc.
  unfold seq_len_ok in Hn. apply wp_tokens_to_pages; [done|lia|]. split; [by apply same_lengths|].
  apply lengths_only_bind. intros s1 HI1 Hc1. wp_steps. rewrite Hc1. split; [rewrite <- Hc1; by apply same_lengths|].
  apply lengths_only_bind, lengths_only_choose; [apply valid_up|by left|]. intros id Hid.
  apply lengths_only_bind. destruct (Z.eqb_spec id (-1)); [done|].
  apply lengths_only_set; [lia|done|done].
Qed.

Lemma lengths_only_copy c i lens :
  0 <= i -> i + Z.of_nat (length lens) <= max_batch_size c -> Forall seq_len_ok lens ->
  lengths_only c (copy_lengths i lens) (fun _ => True).
Proof.
  intros Hi Hl HF. revert i Hi Hl. induction HF as [|n lens Hn _ IH]; intros i Hi Hl; [done|].
  simpl in Hl. apply lengths_only_bind, lengths_only_set; [lia|done|]. apply IH; lia.
Qed.

Lemma lengths_only_free c r :
  0 <= r < max_batch_size c -> lengths_only c (free_batch_idx_p r) (fun _ => True).
Proof. intros Hr. apply lengths_only_set; [done|unfold seq_len_ok; lia|done]. Qed.
End rely.
