(* ===== verification/VattnAsync.v ===== *)
(** The asynchronous step: the framework's thread and the background memory
    manager threads of [spawn_kvcache_manager] as a step relation.

    A configuration is the shared state, the position of the framework's
    thread, and the detached manager threads.  Both kinds of thread run the
    programs of VattnProg action by action, so the framework's thread may write
    sequence lengths (one element at a time) and allocate or free request ids
    between any two actions of the manager, as in the source, where these calls take
    no lock.  Only the prefill allocation waits for the flag of the manager.

    Actions interleave sequentially: the flag is a std::atomic, and a length is
    one machine word.  [set_deferred_reclamation], the debugging calls and cleanup
    are not called by the threads here. *)

From S2P Require Import Prelude GpuApi VattnState VattnPages VattnInit VattnAlloc VattnInv VattnMap VattnGrow VattnReclaim VattnStep VattnManage VattnIds VattnDemo VattnProg VattnRely.
Local Open Scope Z_scope.
Local Open Scope cword_scope.

Section vattn_async.
Context {api : gpu_api} {torch : torch_api}.
Implicit Types (s : vstate).

(** Where the framework's thread is. *)
Inductive main_pc :=
| Idle                      (** outside the allocator *)
| Setting (p : prog unit)   (** in step_async, writing the lengths *)
| Waiting                   (** in wait_kvcache_manager_sync *)
| Prefill (p : prog unit)   (** in prepare_prefill_kvcache *)
| Spawning                  (** about to spawn the manager *)
| Calling (p : prog unit).  (** in alloc_new_batch_idx or free_batch_idx *)

(** Where a manager thread is. *)
Inductive thread_pc :=
| T_start                   (** spawned, flag not set yet *)
| T_run (p : prog unit).    (** flag set, in do_kvcache_memory_management *)

Record async := Async {
  shared : vstate;
  main : main_pc;
  threads : list thread_pc;
}.

(** [wait_kvcache_manager_sync] returns when it reads a cleared flag; until then
    it spins, which changes nothing. *)
Definition wait_kvcache_manager_sync s : bool := negb (mem_manager_running s).

(** The actions of the framework's thread. *)
Inductive main_step : async -> async -> Prop :=
| M_step s ts lens :
    Z.of_nat (length lens) = max_batch_size (conf s) -> Forall (fun n => 0 <= n < 2 ^ 32) lens ->
    main_step (Async s Idle ts) (Async s (Setting (set_curr_seq_lengths_p lens)) ts)
| M_set s ts p p' s' :
    prog_step p s = Some (Ok p' s') ->
    main_step (Async s (Setting p) ts) (Async s' (Setting p') ts)
| M_set_done s ts :
    main_step (Async s (Setting (Done tt)) ts) (Async s Waiting ts)
| M_wait s ts :
    wait_kvcache_manager_sync s = true ->
    main_step (Async s Waiting ts) (Async s (Prefill prepare_prefill_kvcache_p) ts)
| M_prefill s ts p p' s' :
    prog_step p s = Some (Ok p' s') ->
    main_step (Async s (Prefill p) ts) (Async s' (Prefill p') ts)
| M_prefill_exn s ts p f s' :
    prog_step p s = Some (Fault f s') ->
    main_step (Async s (Prefill p) ts) (Async s' Idle ts)
| M_prefill_done s ts :
    main_step (Async s (Prefill (Done tt)) ts) (Async s Spawning ts)
| M_spawn s ts :
    main_step (Async s Spawning ts) (Async s Idle (T_start :: ts))
| M_alloc s ts seqlen :
    0 <= seqlen < 2 ^ 32 ->
    main_step (Async s Idle ts) (Async s (Calling (alloc_new_batch_idx_p seqlen ;~ Done tt)) ts)
| M_free s ts id :
    0 <= id < max_batch_size (conf s) ->
    main_step (Async s Idle ts) (Async s (Calling (free_batch_idx_p id)) ts)
| M_call s ts p p' s' :
    prog_step p s = Some (Ok p' s') ->
    main_step (Async s (Calling p) ts) (Async s' (Calling p') ts)
| M_return s ts :
    main_step (Async s (Calling (Done tt)) ts) (Async s Idle ts).

(** The actions of a manager thread. *)
Inductive thread_step : vstate -> thread_pc -> vstate -> option thread_pc -> Prop :=
| T_set_flag s :
    thread_step s T_start (set_running true s) (Some (T_run do_kvcache_memory_management_p))
| T_manage s p p' s' :
    prog_step p s = Some (Ok p' s') ->
    thread_step s (T_run p) s' (Some (T_run p'))
| T_clear_flag s :
    thread_step s (T_run (Done tt)) (set_running false s) None.

Inductive astep : async -> async -> Prop :=
| A_main c c' : main_step c c' -> astep c c'
| A_thread s s' m pre t t' post :
    thread_step s t s' t' ->
    astep (Async s m (pre ++ t :: post)) (Async s' m (pre ++ option_list t' ++ post)).

Definition starting (c : async) : Prop := T_start ∈ threads c.

(** Schedules in which a spawned thread sets the flag before the framework's
    thread takes another step. *)
Inductive prompt_step : async -> async -> Prop :=
| P_main c c' : ~ starting c -> main_step c c' -> prompt_step c c'
| P_thread s s' m pre t t' post :
    thread_step s t s' t' ->
    prompt_step (Async s m (pre ++ t :: post)) (Async s' m (pre ++ option_list t' ++ post)).

Definition initial (s : vstate) : async := Async s Idle [].

(** The two bodies run at the same time. *)
Definition overlap (c : async) : Prop :=
  (exists p, main c = Prefill p) /\ (exists p, T_run p ∈ threads c).

(** The next action of a thread is a fault. *)
Inductive faulting (c : async) (f : fault) : Prop :=
| F_thread p s' : T_run p ∈ threads c -> prog_step p (shared c) = Some (Fault f s') -> faulting c f
| F_main p s' :
    (main c = Setting p \/ main c = Prefill p \/ main c = Calling p) ->
    prog_step p (shared c) = Some (Fault f s') -> faulting c f.

(** Every run that goes on as long as some thread can take a step comes to [P]. *)
Inductive inevitably (P : async -> Prop) : async -> Prop :=
| I_now c : P c -> inevitably P c
| I_later c :
    (exists c', prompt_step c c') -> (forall c', prompt_step c c' -> inevitably P c') -> inevitably P c.
End vattn_async.
Arguments async {api}.
Arguments Async {api} _ _ _.

Section vattn_async_facts.
Context {api : gpu_api} {torch : torch_api} {gran : Z} {laws : GpuLaws api gran}.
Implicit Types (s : vstate) (c : async).

Lemma Inv_set_running R s b : Inv R s -> Inv R (set_running b s).
Proof. intros [[] [? ? ? [] ? ? ? ? ? ? ?]]. split; split; done. Qed.

Lemma wp_inv {A} (m : VM A) (Q : A -> vstate -> Prop) F s a s' :
  wp m Q F s -> m s = Ok a s' -> Q a s'.
Proof. unfold wp. intros H E. by rewrite E in H. Qed.

Definition only_oom (f : fault) : Prop := f = Throw EXN_OOM.
Definition no_fault (f : fault) : Prop := False.

(** What is left to do for the framework's thread is safe. *)
Definition main_safe R s (m : main_pc) : Prop :=
  match m with
  | Setting p | Calling p => lengths_only R (conf s) p (fun _ => True)
  | Prefill p => safe R only_oom p (fun _ _ => True) s
  | _ => True
  end.

Definition in_prefill (m : main_pc) : Prop :=
  match m with Prefill _ | Spawning => True | _ => False end.

(** The allocator invariant, and what a well-scheduled configuration looks
    like: at most one manager thread, and the flag set while it works. *)
Record async_inv (R : list Z) c : Prop := {
  ai_inv : Inv R (shared c);
  ai_main : main_safe R (shared c) (main c);
  ai_sched :
    (threads c = [] /\ mem_manager_running (shared c) = false) \/
    (threads c = [T_start] /\ mem_manager_running (shared c) = false /\ main c = Idle) \/
    (exists p, threads c = [T_run p] /\ mem_manager_running (shared c) = true /\
       safe R no_fault p (fun _ _ => True) (shared c) /\ ~ in_prefill (main c));
}.

(** One action of a program that is safe. *)
Lemma safe_step {A} R F (p : prog A) s r :
  Inv R s -> safe R F p (fun _ _ => True) s -> prog_step p s = Some r ->
  match r with
  | Ok p' s' => keeps R s s' /\ safe R F p' (fun _ _ => True) s'
  | Fault f s' => keeps R s s' /\ F f
  end.
Proof.
  intros HI Hp Hst. destruct p as [a|B m k]; [done|]. injection Hst as <-.
  assert (Hs : s = set_seq_lengths (curr_seq_lengths s) s) by by destruct s.
  specialize (Hp (curr_seq_lengths s)). rewrite <- Hs in Hp. unfold wp in Hp.
  destruct (inv_counters _ _ HI). destruct (m s); by apply Hp.
Qed.

Lemma lengths_only_step {A} R (p : prog A) (Q : A -> Prop) s r :
  Inv R s -> lengths_only R (conf s) p Q -> prog_step p s = Some r ->
  match r with
  | Ok p' s' => (exists l, lengths_ok (conf s) l /\ s' = set_seq_lengths l s) /\ lengths_only R (conf s) p' Q
  | Fault f s' => False
  end.
Proof.
  intros HI Hp Hst. destruct p as [a|B m k]; [done|]. injection Hst as <-.
  specialize (Hp s HI eq_refl). unfold wp in Hp. by destruct (m s).
Qed.

(** A write of lengths by the framework's thread, while the manager may run. *)
Lemma async_inv_lengths R s m m' ts l :
  async_inv R (Async s m ts) -> ~ starting (Async s m ts) -> lengths_ok (conf s) l ->
  main_safe R (set_seq_lengths l s) m' -> ~ in_prefill m' ->
  async_inv R (Async (set_seq_lengths l s) m' ts).
Proof.
  unfold starting. intros [HI _ Hsch] Hns [Hl HF] Hm Hp. simpl in *. split; simpl; [by apply Inv_set_seq|done|].
  destruct Hsch as [?|[(-> & _)|(p & -> & ? & Hs & _)]]; [by left|by destruct Hns; left|].
  right; right. exists p. split; [done|]. split; [done|]. split; [by apply safe_lengths|done].
Qed.

(** The framework's thread moves on without touching the state. *)
Lemma async_inv_main R s m m' ts :
  async_inv R (Async s m ts) -> ~ starting (Async s m ts) ->
  main_safe R s m' -> (in_prefill m' -> in_prefill m) -> async_inv R (Async s m' ts).
Proof.
  unfold starting. intros [HI _ Hsch] Hns Hm Hp. simpl in *. split; simpl; [done|done|].
  destruct Hsch as [?|[(-> & _)|(p & -> & ? & Hs & ?)]]; [by left|by destruct Hns; left|].
  right; right. exists p. tauto.
Qed.

(** In the prefill phase there is no manager thread. *)
Lemma prefill_alone R s m ts :
  async_inv R (Async s m ts) -> in_prefill m -> ts = [] /\ mem_manager_running s = false.
Proof.
  intros [_ _ Hsch] Hp. simpl in *. destruct Hsch as [?|[(_ & _ & ->)|(p & _ & _ & _ & Hn)]]; [done|done|].
  by destruct Hn.
Qed.

Lemma main_step_inv R c c' :
  async_inv R c -> ~ starting c -> main_step c c' -> async_inv R c'.
Proof.
  intros HA Hns Hst. pose proof (ai_inv _ _ HA) as HI. pose proof (ai_main _ _ HA) as Hm.
  destruct Hst as [s ts lens Hl HF|s ts p p' s' Hp|s ts|s ts Hw|s ts p p' s' Hp|s ts p f s' Hp|s ts|s ts
                  |s ts n Hn|s ts r Hr|s ts p p' s' Hp|s ts]; simpl in *.
  - eapply async_inv_main; [done..| |done]. apply lengths_only_copy; [lia|lia|done].
  - destruct (lengths_only_step _ _ _ _ _ HI Hm Hp) as [(l & Hl & ->) Hm']. eapply async_inv_lengths; simpl; by eauto.
  - by eapply async_inv_main.
  - unfold wait_kvcache_manager_sync in Hw. apply negb_true_iff in Hw. split; simpl; [done| |].
    + by apply (safe_prepare_prefill R _ (conf s)).
    + destruct (ai_sched _ _ HA) as [?|[(_ & _ & ?)|(p & _ & Ht & _)]]; simpl in *; [by left|done|congruence].
  - destruct (prefill_alone _ _ _ _ HA I) as [-> Hrun].
    destruct (safe_step _ _ _ _ _ HI Hm Hp) as [[HI' _ Hr'] Hs']. split; simpl; [done..|]. left. by rewrite Hr'.
  - destruct (prefill_alone _ _ _ _ HA I) as [-> Hrun].
    destruct (safe_step _ _ _ _ _ HI Hm Hp) as [[HI' _ Hr'] _]. split; simpl; [done..|]. left. by rewrite Hr'.
  - by eapply async_inv_main.
  - destruct (prefill_alone _ _ _ _ HA I) as [-> Hrun]. split; simpl; [done..|]. by right; left.
  - eapply async_inv_main; [done..| |done].
    change (lengths_only R (conf s) (alloc_new_batch_idx_p n ;~ Done tt) (fun _ => True)).
    by apply lengths_only_bind, lengths_only_alloc.
  - eapply async_inv_main; [done..| |done]. by apply lengths_only_free.
  - destruct (lengths_only_step _ _ _ _ _ HI Hm Hp) as [(l & Hl & ->) Hm']. eapply async_inv_lengths; simpl; by eauto.
  - by eapply async_inv_main.
Qed.

Lemma main_safe_keeps R s s' m : keeps R s s' -> ~ in_prefill m -> main_safe R s m -> main_safe R s' m.
Proof. intros [_ Hc _]. destruct m; simpl; try done; by rewrite Hc. Qed.

Lemma main_safe_running R s b m : ~ in_prefill m -> main_safe R s m -> main_safe R (set_running b s) m.
Proof. by destruct m. Qed.

Lemma thread_step_inv R s s' m pre t t' post :
  async_inv R (Async s m (pre ++ t :: post)) -> thread_step s t s' t' ->
  async_inv R (Async s' m (pre ++ option_list t' ++ post)).
Proof.
  intros [HI Hm Hsch] Hst. simpl in *.
  assert (Hnil : pre = [] /\ post = []).
  { destruct Hsch as [[Hl _]|[[Hl _]|(t0 & Hl & _)]]; destruct pre as [|? [|]], post; done. }
  destruct Hnil as [-> ->]. simpl in *. destruct Hst as [s|s p p' s' Hp|s]; simpl in *.
  - destruct Hsch as [[? _]|[(_ & _ & ->)|(p & [=] & _)]]; [done|].
    split; simpl; [by apply Inv_set_running|done|]. right; right. eexists. split; [done|].
    split; [done|]. split; [|tauto]. apply (safe_memory_management R _ (conf s)); [|done].
    split; [by apply Inv_set_running|done].
  - destruct Hsch as [[? _]|[([=] & _)|(p0 & [= <-] & Hrun & Hs & Hn)]]; [done|].
    destruct (safe_step _ _ _ _ _ HI Hs Hp) as [Hk Hs'].
    split; simpl; [apply Hk|by eapply main_safe_keeps|]. right; right. exists p'.
    by rewrite (ke_run _ _ _ Hk).
  - destruct Hsch as [[? _]|[([=] & _)|(p0 & [= <-] & Hrun & Hs & Hn)]]; [done|].
    split; simpl; [by apply Inv_set_running|by apply main_safe_running|]. by left.
Qed.

Lemma prompt_step_inv R c c' : async_inv R c -> prompt_step c c' -> async_inv R c'.
Proof.
  intros HI Hst. inversion Hst; subst; [by eapply main_step_inv|by eapply thread_step_inv].
Qed.

Lemma prompt_reachable_inv R s c :
  Inv R s -> mem_manager_running s = false ->
  rtc prompt_step (initial s) c -> async_inv R c.
Proof.
  intros HI Hrun Hr. assert (H0 : async_inv R (initial s)) by (split; [done|done|by left]).
  revert H0. induction Hr as [|c1 c2 c3 Hst _ IH]; [done|].
  intros H1. by eapply IH, prompt_step_inv.
Qed.
End vattn_async_facts.

Section vattn_async_runs.
Context {api : gpu_api} {torch : torch_api} {gran : Z} {laws : GpuLaws api gran}.
Implicit Types (s : vstate) (c : async).

(** Steps of the framework's thread, under a scheduling [St] that lets it run
    beside the threads [ts]. *)
Section main_runs.
Context (St : async -> async -> Prop) (ts : list thread_pc).
Context (HSt : forall s m s' m', main_step (Async s m ts) (Async s' m' ts) -> St (Async s m ts) (Async s' m' ts)).

(** A program that runs without interruption. *)
Lemma main_runs (C : prog unit -> main_pc) (p : prog unit) s s' :
  (forall s p p' s', prog_step p s = Some (Ok p' s') -> main_step (Async s (C p) ts) (Async s' (C p') ts)) ->
  run_prog p s = Ok tt s' -> rtc St (Async s (C p) ts) (Async s' (C (Done tt)) ts).
Proof using HSt.
  intros HC. revert s. induction p as [[]|B m k IH]; intros s Hr; simpl in Hr.
  - injection Hr as <-. done.
  - unfold mbind' in Hr. destruct (m s) as [b s1|] eqn:Hm; [|done].
    eapply rtc_l; [|by apply IH]. apply HSt, HC. simpl. by rewrite Hm.
Qed.

Lemma set_lengths_runs R s lens :
  Inv R s -> lengths_ok (conf s) lens ->
  rtc St (Async s Idle ts) (Async (set_seq_lengths lens s) Waiting ts).
Proof using HSt.
  intros HI [Hl HF]. eapply rtc_l; [by apply HSt, M_step|].
  eapply rtc_r; [|apply HSt, M_set_done]. apply main_runs; [intros; by apply M_set|].
  apply run_set_curr_seq_lengths. pose proof (co_seq_len _ (inv_counters _ _ HI)). lia.
Qed.

Lemma prefill_runs s s' :
  prepare_prefill_kvcache s = Ok tt s' -> wait_kvcache_manager_sync s = true ->
  rtc St (Async s Waiting ts) (Async s' Spawning ts).
Proof using HSt.
  intros Hp Hw. eapply rtc_l; [by apply HSt, M_wait|]. eapply rtc_r; [|apply HSt, M_prefill_done].
  apply main_runs; [intros; by apply M_prefill|]. by rewrite run_prepare_prefill.
Qed.
End main_runs.

(** Lengths announcing that no request is active. *)
Definition no_lengths s : list Z := replicate (Z.to_nat (max_batch_size (conf s))) 0.

Lemma no_lengths_ok R s : Inv R s -> lengths_ok (conf s) (no_lengths s).
Proof.
  intros HI. pose proof (ok_batch _ (pi_conf _ _ _ (inv_pages _ _ HI))).
  unfold no_lengths. split; [rewrite length_replicate; lia|]. apply Forall_replicate. unfold seq_len_ok. lia.
Qed.

Lemma main_astep ts s m s' m' :
  main_step (Async s m ts) (Async s' m' ts) -> astep (Async s m ts) (Async s' m' ts).
Proof. apply A_main. Qed.

Lemma main_prompt ts s m s' m' :
  T_start ∉ ts -> main_step (Async s m ts) (Async s' m' ts) -> prompt_step (Async s m ts) (Async s' m' ts).
Proof. intros Hn. by apply P_main. Qed.

(** With nothing announced, a whole call up to the spawn goes through. *)
Lemma idle_call R s ts :
  Inv R s -> mem_manager_running s = false ->
  exists s', Inv R s' /\ mem_manager_running s' = false /\
    rtc astep (Async s Idle ts) (Async s' Spawning ts).
Proof.
  intros HI Hrun. pose proof (no_lengths_ok R s HI) as Hl.
  set (s1 := set_seq_lengths (no_lengths s) s).
  assert (HI1 : Inv R s1) by (destruct Hl; by apply Inv_set_seq).
  assert (Hw : wp prepare_prefill_kvcache (fun _ s' => Inv R s' /\ moved s1 s') (fun _ _ => False) s1).
  { eapply (wp_prepare_prefill R); [done|eauto|]. intros s' _ _ Hlt.
    pose proof (total_pages_nonneg R s1 HI1) as Ht.
    assert (Hz : needed_pages s1 = 0); [|lia]. unfold needed_pages. rewrite sumZ_zero; [lia|].
    apply Forall_fmap, Forall_replicate. simpl. unfold need.
    apply ceil_div_0, (ok_tpp _ (pi_conf _ _ _ (inv_pages _ _ HI1))). }
  unfold wp in Hw. destruct (prepare_prefill_kvcache s1) as [[] s2|] eqn:Hp; [|done].
  destruct Hw as [HI2 Hmv]. exists s2. split; [done|].
  split; [by rewrite (sf_run _ _ (mv_frame _ _ Hmv))|].
  etransitivity; [apply (set_lengths_runs astep ts (main_astep ts) R); done|].
  apply prefill_runs; [apply main_astep|done|].
  unfold wait_kvcache_manager_sync. simpl. by rewrite Hrun.
Qed.

(** ** The wait *)

Definition prefilling c : Prop := exists p, main c = Prefill p.

Lemma wait_alone s : mem_manager_running s = false -> inevitably prefilling (Async s Waiting []).
Proof.
  intros Hrun. assert (Hns : ~ starting (Async s Waiting [])) by by intros ?%not_elem_of_nil.
  assert (Hw : wait_kvcache_manager_sync s = true) by (unfold wait_kvcache_manager_sync; by rewrite Hrun).
  apply I_later; [eexists; by apply P_main, M_wait|]. intros c' Hst. apply I_now.
  inversion Hst as [? ? _ Hm|? ? ? pre ? ? post Ht Heq]; subst; [|by destruct pre].
  inversion Hm; subst. by eexists.
Qed.

(** While the flag is set only the manager can move. *)
Lemma waiting_step s t c' :
  mem_manager_running s = true -> prompt_step (Async s Waiting [t]) c' ->
  exists s' t', thread_step s t s' t' /\ c' = Async s' Waiting (option_list t').
Proof.
  intros Hrun Hst. inversion Hst as [? ? _ Hm|? s' ? pre t1 t' post Ht Hc]; subst.
  - inversion Hm; subst. unfold wait_kvcache_manager_sync in *. by rewrite Hrun in *.
  - assert (pre = [] /\ t1 = t /\ post = []) as (-> & -> & ->) by (destruct pre as [|? [|]], post; naive_solver).
    exists s', t'. split; [done|]. by rewrite app_nil_r.
Qed.

(** The program of the manager gets shorter with every action. *)
Lemma wait_managing R (p : prog unit) s :
  Inv R s -> mem_manager_running s = true -> safe R no_fault p (fun _ _ => True) s ->
  inevitably prefilling (Async s Waiting [T_run p]).
Proof.
  assert (Hgo : forall s t s' t', thread_step s t s' t' ->
    exists c', prompt_step (Async s Waiting [t]) c').
  { intros s1 t s' t' Ht. eexists. by apply (P_thread s1 s' Waiting [] t t' []). }
  revert s. induction p as [[]|B m k IH]; intros s HI Hrun Hs.
  - apply I_later; [by eapply Hgo, T_clear_flag|]. intros c' Hst.
    destruct (waiting_step _ _ _ Hrun Hst) as (s' & t' & Ht & ->). inversion Ht; subst; [done|]. by apply wait_alone.
  - destruct (m s) as [b s1|f s1] eqn:Hm.
    + assert (Hr : prog_step (Act m k) s = Some (Ok (k b) s1)) by (simpl; by rewrite Hm).
      destruct (safe_step _ _ _ _ _ HI Hs Hr) as [[HI1 _ Hrun1] Hs1].
      apply I_later; [by eapply Hgo, T_manage|]. intros c' Hst.
      destruct (waiting_step _ _ _ Hrun Hst) as (s' & t' & Ht & ->).
      inversion Ht as [|? ? p' ? Hp|]; subst. rewrite Hr in Hp. injection Hp as <- <-.
      apply IH; [done|by rewrite Hrun1|done].
    + assert (Hr : prog_step (Act m k) s = Some (Fault f s1)) by (simpl; by rewrite Hm).
      by destruct (safe_step _ _ _ _ _ HI Hs Hr) as [_ []].
Qed.
End vattn_async_runs.

Section vattn_async_correct.
Context {api : gpu_api} {torch : torch_api} {gran : Z} {laws : GpuLaws api gran}.
Implicit Types (s : vstate) (c : async).

(** C26. When every spawned manager thread sets its flag before the framework's
    thread goes on, then in every reachable configuration of the asynchronous
    allocator the invariant holds, the synchronous prefill allocation does not
    overlap the background manager, and no thread is about to fault, except that
    the prefill allocation may run out of memory.  The framework's thread may
    write sequence lengths and allocate and free request ids between any two
    actions of the manager. *)
Theorem async_mutual_exclusion R s c :
  Inv R s -> mem_manager_running s = false ->
  rtc prompt_step (initial s) c ->
  Inv R (shared c) /\ ~ overlap c /\
  (forall f, faulting c f -> f = Throw EXN_OOM /\ exists p, main c = Prefill p).
Proof.
  intros HI Hrun Hr. destruct (prompt_reachable_inv R s c HI Hrun Hr) as [HI' Hm Hsch].
  split; [done|]. split.
  - intros [[p Hp] [q Hq]]. rewrite Hp in *.
    destruct Hsch as [[Ht _]|[(_ & _ & ?)|(p' & _ & _ & _ & [])]]; [|done|done].
    rewrite Ht in Hq. by apply not_elem_of_nil in Hq.
  - intros f [p s' Hp Hf|p s' Hp Hf].
    + destruct Hsch as [[Ht _]|[(Ht & _)|(q & Ht & _ & Hs & _)]]; rewrite Ht in Hp.
      * by apply not_elem_of_nil in Hp.
      * by apply list_elem_of_singleton in Hp.
      * apply list_elem_of_singleton in Hp as [= ->]. by destruct (safe_step _ _ _ _ _ HI' Hs Hf) as [_ []].
    + destruct Hp as [Hp|[Hp|Hp]]; rewrite Hp in *; simpl in Hm.
      * by destruct (lengths_only_step _ _ _ _ _ HI' Hm Hf).
      * destruct (safe_step _ _ _ _ _ HI' Hm Hf) as [_ ->]. split; [done|by eexists].
      * by destruct (lengths_only_step _ _ _ _ _ HI' Hm Hf).
Qed.

(** C27. Under the same schedules the wait of [step_async] ends: from every
    reachable configuration in which the framework's thread waits, every run
    comes to its prefill phase, whatever the manager still has to do.  (A turn of
    the spinning wait changes nothing and is not a step, so a run that lets
    only the waiting thread spin for ever is not considered.) *)
Theorem wait_kvcache_manager_terminates R s c :
  Inv R s -> mem_manager_running s = false ->
  rtc prompt_step (initial s) c -> main c = Waiting ->
  inevitably (fun c' => exists p, main c' = Prefill p) c.
Proof.
  intros HI Hrun Hr Hm. destruct (prompt_reachable_inv R s c HI Hrun Hr) as [HI' _ Hsch].
  destruct c as [s0 m ts]. simpl in *. subst m.
  destruct Hsch as [[-> H0]|[(_ & _ & ?)|(p & -> & Ht & Hs & _)]]; [by apply wait_alone|done|].
  by apply (wait_managing R).
Qed.

(** C28. Without that restriction the wait does not protect the prefill
    allocation: the flag is set inside the new thread, so a second call can
    find it clear, pass the wait, and be in its prefill allocation while the
    manager of the first call runs on the same page pool. *)
Theorem step_async_race R s :
  Inv R s -> mem_manager_running s = false ->
  exists c, rtc astep (initial s) c /\ overlap c.
Proof.
  intros HI Hrun. destruct (idle_call R s [] HI Hrun) as (s1 & HI1 & Hrun1 & Hst1).
  pose proof (no_lengths_ok R s1 HI1) as Hl.
  set (s2 := set_seq_lengths (no_lengths s1) s1).
  exists (Async (set_running true s2) (Prefill prepare_prefill_kvcache_p) [T_run do_kvcache_memory_management_p]).
  split; [|split; [by eexists|eexists; left]].
  etransitivity; [exact Hst1|]. eapply rtc_l; [apply A_main, M_spawn|].
  etransitivity; [apply (set_lengths_runs astep [T_start] (main_astep _) R); done|].
  eapply rtc_l; [apply A_main, M_wait; unfold wait_kvcache_manager_sync; simpl; by rewrite Hrun1|].
  apply rtc_once.
  apply (A_thread s2 (set_running true s2) (Prefill prepare_prefill_kvcache_p) [] T_start
           (Some (T_run do_kvcache_memory_management_p)) []), T_set_flag.
Qed.
End vattn_async_correct.

(** ** Witnesses *)

(** A prefill of 2500 tokens on the concrete state, whose manager thread has
    started and taken its first three actions when the framework's thread has
    announced the lengths of the next step. *)
Definition demo_prefilled : vstate (api := demo_api) :=
  Eval vm_compute in run prepare_prefill_kvcache (set_seq_lengths [2500; 0] demo).

Fixpoint prog_after {A} (n : nat) (p : prog (api := demo_api) A) (s : vstate) : prog A :=
  match n with
  | O => p
  | S n' => match prog_step p s with Some (Ok p' s') => prog_after n' p' s' | _ => p end
  end.

Definition demo_managing : async (api := demo_api) :=
  Async (set_running true demo_prefilled) Idle [T_run do_kvcache_memory_management_p].
Definition demo_waiting : async (api := demo_api) :=
  Async (set_seq_lengths [2501; 70] (set_running true demo_prefilled)) Waiting
    [T_run (prog_after 3 do_kvcache_memory_management_p (set_running true demo_prefilled))].

Lemma demo_prefilled_eq : prepare_prefill_kvcache (set_seq_lengths [2500; 0] demo) = Ok tt demo_prefilled.
Proof. vm_cast_no_check (eq_refl (prepare_prefill_kvcache (set_seq_lengths [2500; 0] demo))). Qed.

Lemma demo_prefilled_Inv : Inv (pool demo) (set_running true demo_prefilled).
Proof.
  apply Inv_set_running.
  eapply (wp_inv prepare_prefill_kvcache (fun _ s' => Inv (pool demo) s') (fun _ _ => True)
            (set_seq_lengths [2500; 0] demo) tt); [|exact demo_prefilled_eq].
  eapply (wp_prepare_prefill (pool demo)); [|done|done].
  apply Inv_set_seq; [apply demo_Inv|done|]. repeat constructor; unfold seq_len_ok; lia.
Qed.

Lemma demo_managing_reachable : rtc prompt_step (initial demo) demo_managing.
Proof.
  assert (Hm : forall s m s' m', main_step (Async s m []) (Async s' m' []) ->
                 prompt_step (Async s m []) (Async s' m' [])).
  { intros. apply main_prompt; [by intros ?%not_elem_of_nil|done]. }
  etransitivity; [apply (set_lengths_runs prompt_step [] Hm (pool demo) demo [2500; 0]); [apply demo_Inv|]|].
  { split; [done|]. repeat constructor; unfold seq_len_ok; lia. }
  etransitivity; [apply (prefill_runs prompt_step [] Hm _ demo_prefilled); [apply demo_prefilled_eq|done]|].
  eapply rtc_l; [apply P_main; [unfold starting; simpl; by intros ?%not_elem_of_nil|apply M_spawn]|].
  apply rtc_once, (P_thread demo_prefilled _ Idle [] T_start
                     (Some (T_run do_kvcache_memory_management_p)) []), T_set_flag.
Qed.

Lemma demo_waiting_reachable : rtc prompt_step (initial demo) demo_waiting.
Proof.
  etransitivity; [apply demo_managing_reachable|].
  set (s := set_running true demo_prefilled).
  set (p := fun n => prog_after n do_kvcache_memory_management_p s).
  assert (Ht : forall n, (n < 3)%nat -> prompt_step (Async s Idle [T_run (p n)]) (Async s Idle [T_run (p (S n))])).
  { intros n Hn. apply (P_thread s s Idle [] (T_run (p n)) (Some (T_run (p (S n)))) []), T_manage.
    destruct n as [|[|[|]]]; [reflexivity..|lia]. }
  change demo_managing with (Async s Idle [T_run (p 0%nat)]).
  eapply rtc_l; [apply Ht; lia|]. eapply rtc_l; [apply Ht; lia|]. eapply rtc_l; [apply Ht; lia|].
  apply (set_lengths_runs prompt_step _) with (R := pool demo) (lens := [2501; 70]).
  - intros. apply main_prompt; [|done]. by intros ?%list_elem_of_singleton.
  - apply demo_prefilled_Inv.
  - split; [done|]. repeat constructor; unfold seq_len_ok; lia.
Qed.

Lemma async_mutual_exclusion_witness :
  Inv (pool demo) (shared demo_waiting) /\ ~ overlap demo_waiting /\
  (forall f, faulting demo_waiting f -> f = Throw EXN_OOM /\ exists p, main demo_waiting = Prefill p).
Proof.
  apply (async_mutual_exclusion (pool demo) demo);
    [apply demo_Inv|reflexivity|apply demo_waiting_reachable].
Defined.

Lemma wait_kvcache_manager_terminates_witness :
  mem_manager_running (shared demo_waiting) = true /\
  inevitably (fun c' => exists p, main c' = Prefill p) demo_waiting.
Proof.
  split; [reflexivity|].
  apply (wait_kvcache_manager_terminates (pool demo) demo);
    [apply demo_Inv|reflexivity|apply demo_waiting_reachable|reflexivity].
Defined.

Lemma step_async_race_witness :
  exists c, rtc astep (initial demo) c /\ overlap c.
Proof. apply (step_async_race (pool demo)); [apply demo_Inv|reflexivity]. Defined.
