(* ===== verification/UvmBits.v ===== *)
(** Hardware bit fields of the UVM driver: the DRF macros of nvmisc.h and the
    HWCONST64/HWVALUE64 layer of uvm_push_macros.h, with the algebra of
    disjoint fields that the MMU encoders rely on.

    An assertion of the driver ([UVM_ASSERT]) is a [None] of the option monad:
    a result [Some v] says that no assertion failed on the way. *)

From S2P Require Import Prelude.
Local Open Scope Z_scope.

Definition UVM_ASSERT (b : bool) : option unit := if b then Some tt else None.

(** Status codes; the ones only passed through are [NV_ERR_OTHER]. *)
Inductive NV_STATUS :=
| NV_OK
| NV_WARN_MORE_PROCESSING_REQUIRED
| NV_WARN_NOTHING_TO_DO
| NV_ERR_OUT_OF_RANGE
| NV_ERR_UVM_ADDRESS_IN_USE
| NV_ERR_NO_MEMORY
| NV_ERR_INVALID_ADDRESS
| NV_ERR_INVALID_ARGUMENT
| NV_ERR_INVALID_STATE
| NV_ERR_MORE_PROCESSING_REQUIRED
| NV_ERR_GENERIC
| NV_ERR_OTHER (code : Z).

#[export] Instance NV_STATUS_eq_dec : EqDecision NV_STATUS.
Proof. solve_decision. Defined.

(** A field [hi:lo] of a hardware structure; fields of the upper word of a
    128-bit entry have positions from 64 on. *)
Record field := Field { f_hi : Z; f_lo : Z }.

Definition NV_U64_MAX : Z := Z.ones 64.

Definition DRF_SHIFT64 (f : field) : Z := f_lo f mod 64.
Definition DRF_MASK64 (f : field) : Z :=
  Z.shiftr NV_U64_MAX (63 - f_hi f mod 64 + f_lo f mod 64).
Definition DRF_SHIFTMASK64 (f : field) : Z := u64 (Z.shiftl (DRF_MASK64 f) (DRF_SHIFT64 f)).
Definition DRF_SIZE (f : field) : Z := f_hi f - f_lo f + 1.
Definition DRF_DEF64 (f : field) (c : Z) : Z := u64 (Z.shiftl c (DRF_SHIFT64 f)).
Definition DRF_NUM64 (f : field) (n : Z) : Z :=
  u64 (Z.shiftl (Z.land n (DRF_MASK64 f)) (DRF_SHIFT64 f)).
Definition DRF_VAL64 (f : field) (v : Z) : Z :=
  Z.land (Z.shiftr v (DRF_SHIFT64 f)) (DRF_MASK64 f).

Definition HWMASK64 (f : field) : Z := DRF_MASK64 f.
Definition HWSIZE (f : field) : Z := DRF_SIZE f.
Definition HWCONST64 (f : field) (c : Z) : Z := DRF_DEF64 f c.

(** The value must fit in the field. *)
Definition HWVALUE64 (f : field) (v : Z) : option Z :=
  let val := DRF_NUM64 f v in
  UVM_ASSERT (v =? DRF_VAL64 f val) ;; Some val.

(** [v & ~mask | const]; the complement is taken in 64 bits. *)
Definition UVM_FLD_SET_DRF64 (f : field) (c v : Z) : Z :=
  Z.lor (Z.land v (NV_U64_MAX - DRF_SHIFTMASK64 f)) (DRF_DEF64 f c).
Definition WRITE_HWCONST64 (v : Z) (f : field) (c : Z) : Z := UVM_FLD_SET_DRF64 f c v.

(** [bits |= e] for an expression [e] that asserts. *)
Definition or_bits (bits : Z) (e : option Z) : option Z :=
  v ← e; Some (Z.lor bits v).

(** ** Algebra of fields *)

(** A field that does not straddle a 64-bit word. *)
Definition field_ok (f : field) : bool :=
  (0 <=? f_lo f) && (f_lo f mod 64 <=? f_hi f mod 64) &&
  (f_hi f / 64 =? f_lo f / 64).

(** Width, for a field of one word. *)
Definition width (f : field) : Z := f_hi f mod 64 - f_lo f mod 64 + 1.

(** Disjoint positions in the word. *)
Definition disjoint_fields (f g : field) : bool :=
  (f_hi f mod 64 <? f_lo g mod 64) || (f_hi g mod 64 <? f_lo f mod 64).

Lemma field_range f :
  field_ok f = true -> 0 <= DRF_SHIFT64 f /\ 0 < width f /\ DRF_SHIFT64 f + width f <= 64.
Proof.
  unfold field_ok, width, DRF_SHIFT64. intros H. zify_bool.
  pose proof (Z.mod_pos_bound (f_hi f) 64). pose proof (Z.mod_pos_bound (f_lo f) 64). lia.
Qed.

Lemma mask_ones f : field_ok f = true -> DRF_MASK64 f = Z.ones (width f).
Proof.
  intros Hf. destruct (field_range f Hf) as (H1 & H2 & H3).
  unfold DRF_MASK64, NV_U64_MAX, DRF_SHIFT64, width in *.
  apply Z.bits_inj'. intros i Hi.
  rewrite Z.shiftr_spec by done. rewrite !Z.testbit_ones_nonneg by lia.
  destruct (Z.ltb_spec (i + (63 - f_hi f mod 64 + f_lo f mod 64)) 64),
           (Z.ltb_spec i (f_hi f mod 64 - f_lo f mod 64 + 1)); lia || done.
Qed.

Lemma testbit_u64 x i : 0 <= i -> Z.testbit (u64 x) i = (i <? 64) && Z.testbit x i.
Proof.
  intros Hi. unfold u64, wrap. rewrite <- Z.land_ones, Z.land_spec, Z.testbit_ones_nonneg by lia.
  apply andb_comm.
Qed.

Lemma testbit_num f v i :
  field_ok f = true -> 0 <= i ->
  Z.testbit (DRF_NUM64 f v) i =
    (DRF_SHIFT64 f <=? i) && (i <? DRF_SHIFT64 f + width f) && Z.testbit v (i - DRF_SHIFT64 f).
Proof.
  intros Hf Hi. destruct (field_range f Hf) as (H1 & H2 & H3). unfold DRF_NUM64.
  rewrite testbit_u64, Z.shiftl_spec, Z.land_spec, mask_ones by done.
  destruct (Z.leb_spec (DRF_SHIFT64 f) i); simpl.
  - rewrite Z.testbit_ones_nonneg by lia.
    destruct (Z.ltb_spec (i - DRF_SHIFT64 f) (width f)), (Z.ltb_spec i 64),
      (Z.ltb_spec i (DRF_SHIFT64 f + width f)); try lia; simpl;
      by rewrite ?andb_true_r, ?andb_false_r.
  - rewrite (Z.testbit_neg_r v) by lia. simpl. by rewrite andb_false_r.
Qed.

Lemma testbit_val f v i :
  field_ok f = true -> 0 <= i ->
  Z.testbit (DRF_VAL64 f v) i = (i <? width f) && Z.testbit v (i + DRF_SHIFT64 f).
Proof.
  intros Hf Hi. destruct (field_range f Hf) as (H1 & H2 & H3). unfold DRF_VAL64.
  rewrite Z.land_spec, Z.shiftr_spec, mask_ones, Z.testbit_ones_nonneg by (done || lia).
  apply andb_comm.
Qed.

(** Reading a field back. *)
Lemma val_num_same f v :
  field_ok f = true -> 0 <= v < 2 ^ width f -> DRF_VAL64 f (DRF_NUM64 f v) = v.
Proof.
  intros Hf Hv. destruct (field_range f Hf) as (H1 & H2 & H3).
  apply Z.bits_inj'. intros i Hi. rewrite testbit_val, testbit_num by (done || lia).
  replace (i + DRF_SHIFT64 f - DRF_SHIFT64 f) with i by lia.
  destruct (Z.ltb_spec i (width f)); simpl.
  - destruct (Z.leb_spec (DRF_SHIFT64 f) (i + DRF_SHIFT64 f)); [|lia].
    destruct (Z.ltb_spec (i + DRF_SHIFT64 f) (DRF_SHIFT64 f + width f)); [done|lia].
  - symmetry. destruct (decide (v = 0)) as [->|]; [apply Z.bits_0|].
    apply Z.bits_above_log2; [lia|]. apply Z.log2_lt_pow2; [lia|].
    apply Z.lt_le_trans with (2 ^ width f); [lia|]. apply Z.pow_le_mono_r; lia.
Qed.

(** A field reads 0 where another field was written. *)
Lemma val_num_other f g v :
  field_ok f = true -> field_ok g = true -> disjoint_fields f g = true ->
  DRF_VAL64 f (DRF_NUM64 g v) = 0.
Proof.
  intros Hf Hg Hd. destruct (field_range f Hf) as (H1 & H2 & H3).
  apply Z.bits_inj'. intros i Hi. rewrite testbit_val, testbit_num, Z.bits_0 by (done || lia).
  unfold disjoint_fields in Hd. apply orb_true_iff in Hd.
  destruct (Z.ltb_spec i (width f)); [simpl|done].
  destruct (Z.leb_spec (DRF_SHIFT64 g) (i + DRF_SHIFT64 f)); [simpl|done].
  destruct (Z.ltb_spec (i + DRF_SHIFT64 f) (DRF_SHIFT64 g + width g)); [simpl|done].
  unfold width, DRF_SHIFT64 in *. destruct Hd; zify_bool; lia.
Qed.

Lemma val_lor f a b : DRF_VAL64 f (Z.lor a b) = Z.lor (DRF_VAL64 f a) (DRF_VAL64 f b).
Proof. unfold DRF_VAL64. by rewrite Z.shiftr_lor, Z.land_lor_distr_l. Qed.

Lemma val_0 f : DRF_VAL64 f 0 = 0.
Proof. unfold DRF_VAL64. by rewrite Z.shiftr_0_l, Z.land_0_l. Qed.

(** A constant of a field is a number that fits. *)
Lemma const_num f c :
  field_ok f = true -> 0 <= c < 2 ^ width f -> HWCONST64 f c = DRF_NUM64 f c.
Proof.
  intros Hf Hc. unfold HWCONST64, DRF_DEF64, DRF_NUM64. rewrite mask_ones by done.
  destruct (field_range f Hf) as (_ & H2 & _).
  by rewrite Z.land_ones, Z.mod_small by lia.
Qed.

Lemma hwvalue_fits f v :
  field_ok f = true -> 0 <= v < 2 ^ width f -> HWVALUE64 f v = Some (DRF_NUM64 f v).
Proof. intros Hf Hv. unfold HWVALUE64. by rewrite val_num_same, Z.eqb_refl. Qed.

Lemma val_range f v : field_ok f = true -> 0 <= DRF_VAL64 f v < 2 ^ width f.
Proof.
  intros Hf. destruct (field_range f Hf) as (_ & H2 & _). unfold DRF_VAL64.
  rewrite mask_ones, Z.land_ones by (done || lia). apply Z.mod_pos_bound. lia.
Qed.

(** The assertion of HWVALUE64 is exactly that the value fits. *)
Lemma hwvalue_inv f v w :
  field_ok f = true -> HWVALUE64 f v = Some w -> 0 <= v < 2 ^ width f /\ w = DRF_NUM64 f v.
Proof.
  intros Hf. unfold HWVALUE64, UVM_ASSERT. case_match eqn:E; [|done].
  intros [= <-]. zify_bool. split; [|done]. rewrite E. by apply val_range.
Qed.

(** The combination used to place a value and compose it with the rest. *)
Lemma num_u64 f v : is_u64 (DRF_NUM64 f v).
Proof. apply u64_range. Qed.

Lemma lor_u64 a b : is_u64 a -> is_u64 b -> is_u64 (Z.lor a b).
Proof.
  intros [Ha1 Ha2] [Hb1 Hb2]. split; [by apply Z.lor_nonneg|].
  destruct (decide (Z.lor a b = 0)) as [->|]; [lia|].
  assert (0 <= Z.lor a b) by by apply Z.lor_nonneg.
  apply Z.log2_lt_pow2; [lia|]. rewrite Z.log2_lor by done.
  apply Z.max_lub_lt.
  - destruct (decide (a = 0)) as [->|]; [simpl; lia|]. apply Z.log2_lt_pow2; lia.
  - destruct (decide (b = 0)) as [->|]; [simpl; lia|]. apply Z.log2_lt_pow2; lia.
Qed.

(** Overwriting a field: the field reads the constant, the others are kept. *)
Lemma val_write_same f c v :
  field_ok f = true -> 0 <= c < 2 ^ width f -> DRF_VAL64 f (WRITE_HWCONST64 v f c) = c.
Proof.
  intros Hf Hc. destruct (field_range f Hf) as (H1 & H2 & H3).
  unfold WRITE_HWCONST64, UVM_FLD_SET_DRF64. fold (HWCONST64 f c).
  rewrite const_num, val_lor, val_num_same by done.
  replace (DRF_VAL64 f (Z.land _ _)) with 0; [done|].
  symmetry. apply Z.bits_inj'. intros i Hi. rewrite testbit_val, Z.bits_0, Z.land_spec by done.
  destruct (Z.ltb_spec i (width f)); [simpl|done].
  assert (Hle : 0 <= DRF_SHIFTMASK64 f) by apply u64_range.
  replace (NV_U64_MAX - DRF_SHIFTMASK64 f) with (Z.ldiff NV_U64_MAX (DRF_SHIFTMASK64 f)).
  - rewrite Z.ldiff_spec. unfold DRF_SHIFTMASK64.
    rewrite testbit_u64, Z.shiftl_spec, mask_ones, Z.testbit_ones_nonneg by (done || lia).
    destruct (Z.ltb_spec (i + DRF_SHIFT64 f) 64), (Z.ltb_spec (i + DRF_SHIFT64 f - DRF_SHIFT64 f) (width f));
      lia.
  - symmetry. apply Z.sub_nocarry_ldiff. unfold NV_U64_MAX. apply Z.bits_inj'. intros j Hj.
    rewrite Z.ldiff_spec, Z.bits_0, Z.testbit_ones_nonneg by lia. unfold DRF_SHIFTMASK64.
    rewrite testbit_u64 by done. destruct (j <? 64); simpl; by rewrite ?andb_false_r.
Qed.
