(* ===== verification/UvmCommon.v ===== *)
(** Integer helpers of the driver (uvm_common.h): powers of two and alignment
    on 64-bit words. *)

From S2P Require Import Prelude UvmBits.
Local Open Scope Z_scope.

Definition is_power_of_2 (n : Z) : bool := negb (n =? 0) && (Z.land n (n - 1) =? 0).

(** Complement of a 64-bit word. *)
Definition lnot64 (x : Z) : Z := NV_U64_MAX - x.

Definition UVM_ALIGN_DOWN (x a : Z) : option Z :=
  UVM_ASSERT (is_power_of_2 a) ;; Some (Z.land x (lnot64 (a - 1))).
Definition UVM_ALIGN_UP (x a : Z) : option Z :=
  UVM_ASSERT (is_power_of_2 a) ;; Some (Z.land (u64 (u64 (x + a) - 1)) (lnot64 (a - 1))).
Definition IS_ALIGNED (x a : Z) : bool := Z.land x (a - 1) =? 0.

Lemma is_power_of_2_spec n :
  0 <= n -> is_power_of_2 n = true <-> exists k, 0 <= k /\ n = 2 ^ k.
Proof.
  intros Hn. unfold is_power_of_2. rewrite andb_true_iff, negb_true_iff, Z.eqb_neq, Z.eqb_eq. split.
  - intros [H0 Hl]. exists (Z.log2 n). split; [apply Z.log2_nonneg|].
    pose proof (Z.log2_spec n ltac:(lia)) as [H1 H2].
    destruct (decide (n = 2 ^ Z.log2 n)) as [|Hne]; [done|exfalso].
    assert (Hb : Z.testbit (Z.land n (n - 1)) (Z.log2 n) = true).
    { rewrite Z.land_spec, Z.bit_log2 by lia. simpl.
      replace (Z.log2 n) with (Z.log2 (n - 1)); [apply Z.bit_log2; pose proof (Z.log2_nonneg n); lia|].
      apply Z.log2_unique; [apply Z.log2_nonneg|]. lia. }
    by rewrite Hl, Z.bits_0 in Hb.
  - intros (k & Hk & ->). split; [lia|]. rewrite Z.sub_1_r, <- Z.ones_equiv, Z.land_ones by done.
    apply Z.mod_same. lia.
Qed.

Lemma land_mask x k :
  is_u64 x -> 0 <= k <= 64 -> Z.land x (lnot64 (2 ^ k - 1)) = x / 2 ^ k * 2 ^ k.
Proof.
  intros [Hx1 Hx2] Hk. replace (2 ^ k - 1) with (Z.ones k) by (rewrite Z.ones_equiv; lia).
  unfold lnot64. rewrite Z.sub_nocarry_ldiff.
  - rewrite <- Z.shiftr_div_pow2, <- Z.shiftl_mul_pow2, <- Z.ldiff_ones_r by lia.
    apply Z.bits_inj'. intros i Hi. rewrite Z.land_spec, !Z.ldiff_spec. unfold NV_U64_MAX.
    rewrite Z.testbit_ones_nonneg by lia. destruct (Z.ltb_spec i 64); simpl; [done|].
    replace (Z.testbit x i) with false; [done|]. symmetry.
    destruct (decide (x = 0)) as [->|]; [apply Z.bits_0|]. apply Z.bits_above_log2; [done|].
    apply Z.lt_le_trans with 64; [|done]. apply Z.log2_lt_pow2; lia.
  - apply Z.bits_inj'. intros i Hi. rewrite Z.ldiff_spec, Z.bits_0. unfold NV_U64_MAX.
    rewrite !Z.testbit_ones_nonneg by lia.
    destruct (Z.ltb_spec i k), (Z.ltb_spec i 64); simpl; lia || done.
Qed.

(** Rounding up is the wrapped sum rounded down to a multiple. *)
Lemma UVM_ALIGN_UP_spec x k :
  0 <= k < 64 -> UVM_ALIGN_UP x (2 ^ k) = Some (u64 (x + 2 ^ k - 1) / 2 ^ k * 2 ^ k).
Proof.
  intros Hk. unfold UVM_ALIGN_UP, UVM_ASSERT.
  rewrite (proj2 (is_power_of_2_spec (2 ^ k) ltac:(lia))) by (exists k; split; [lia|done]). simpl.
  rewrite land_mask by (apply u64_range || lia). do 3 f_equal. unfold u64, wrap.
  by rewrite Zminus_mod_idemp_l.
Qed.

Lemma UVM_ALIGN_DOWN_spec x k :
  is_u64 x -> 0 <= k < 64 -> UVM_ALIGN_DOWN x (2 ^ k) = Some (x / 2 ^ k * 2 ^ k).
Proof.
  intros Hx Hk. unfold UVM_ALIGN_DOWN, UVM_ASSERT.
  rewrite (proj2 (is_power_of_2_spec (2 ^ k) ltac:(lia))) by (exists k; split; [lia|done]). simpl.
  rewrite land_mask by (done || lia). done.
Qed.

Lemma IS_ALIGNED_spec x k : 0 <= k -> IS_ALIGNED x (2 ^ k) = true <-> x mod 2 ^ k = 0.
Proof.
  intros Hk. unfold IS_ALIGNED. rewrite Z.eqb_eq.
  replace (2 ^ k - 1) with (Z.ones k) by (rewrite Z.ones_equiv; lia). by rewrite Z.land_ones.
Qed.

(** The least multiple at or above a number. *)
Definition round_up (x a : Z) : Z := (x + a - 1) / a * a.

Lemma round_up_spec x a : 0 < a -> x <= round_up x a < x + a /\ round_up x a mod a = 0.
Proof.
  intros Ha. unfold round_up. rewrite Z.mod_mul by lia. split; [|done].
  pose proof (Z.div_mod (x + a - 1) a). pose proof (Z.mod_pos_bound (x + a - 1) a). nia.
Qed.

Lemma round_up_least x a y : 0 < a -> x <= y -> y mod a = 0 -> round_up x a <= y.
Proof.
  intros Ha Hxy Hy. apply Z.mod_divide in Hy as [q ->]; [|lia]. unfold round_up.
  apply Z.mul_le_mono_nonneg_r; [lia|].
  assert ((x + a - 1) / a < q + 1); [|lia]. apply Z.div_lt_upper_bound; lia.
Qed.

(** When the 64-bit rounding wraps, it wraps to 0, below any nonzero start;
    otherwise it is the mathematical rounding. *)
Lemma align_up_wraps x k :
  is_u64 x -> 0 <= k < 64 ->
  exists y, UVM_ALIGN_UP x (2 ^ k) = Some y /\
    ((round_up x (2 ^ k) < 2 ^ 64 /\ y = round_up x (2 ^ k)) \/
     (2 ^ 64 <= round_up x (2 ^ k) /\ y = 0 /\ 0 < x)).
Proof.
  intros [Hx1 Hx2] Hk. eexists. split; [by apply UVM_ALIGN_UP_spec|]. unfold round_up.
  assert (0 < 2 ^ k) by lia. assert (Hd : 2 ^ 64 = 2 ^ (64 - k) * 2 ^ k).
  { rewrite <- Z.pow_add_r by lia. f_equal. lia. }
  assert (Hle : 2 ^ k <= 2 ^ 63) by (apply Z.pow_le_mono_r; lia).
  destruct (Z.ltb_spec (x + 2 ^ k - 1) (2 ^ 64)) as [Hs|Hb].
  - left. rewrite u64_small by (unfold is_u64; lia). split; [|done].
    pose proof (Z.div_mod (x + 2 ^ k - 1) (2 ^ k)). pose proof (Z.mod_pos_bound (x + 2 ^ k - 1) (2 ^ k)). nia.
  - right. assert (Hw : u64 (x + 2 ^ k - 1) = x + 2 ^ k - 1 - 2 ^ 64).
    { unfold u64, wrap. symmetry. apply (Z.mod_unique_pos _ _ 1); lia. }
    split; [|split; [rewrite Hw, Z.div_small by lia; done|lia]].
    assert (2 ^ (64 - k) <= (x + 2 ^ k - 1) / 2 ^ k) by (apply Z.div_le_lower_bound; lia). nia.
Qed.

(** Division by a power of two. *)
Definition uvm_div_pow2_64 (numerator denominator_pow2 : Z) : option Z :=
  UVM_ASSERT (is_power_of_2 denominator_pow2) ;;
  UVM_ASSERT (negb (denominator_pow2 =? 0)) ;;
  Some (Z.shiftr numerator (Z.log2 denominator_pow2)).

Lemma uvm_div_pow2_64_spec n k :
  0 <= k -> uvm_div_pow2_64 n (2 ^ k) = Some (n / 2 ^ k).
Proof.
  intros Hk. unfold uvm_div_pow2_64. assert (0 < 2 ^ k) by (apply Z.pow_pos_nonneg; lia).
  rewrite (proj2 (is_power_of_2_spec (2 ^ k) ltac:(lia))) by (exists k; split; [lia|done]).
  rewrite (proj2 (Z.eqb_neq _ _)) by lia. cbn. by rewrite Z.log2_pow2, Z.shiftr_div_pow2.
Qed.
