(* ===== verification/UvmMmuHal.v ===== *)
(** The MMU mode HALs of the UVM driver: for every GPU architecture the
    encoding of page table and page directory entries and the geometry of the
    page tree (kernel-open/nvidia-uvm/uvm_maxwell_mmu.c, uvm_pascal_mmu.c,
    uvm_volta_mmu.c, uvm_turing_mmu.c, uvm_ampere_mmu.c, uvm_hopper_mmu.c).

    A HAL is the record [uvm_mmu_mode_hal_t]; as in the code, a later
    architecture takes the record of the one before and replaces fields.  The
    functions that assert return an option, [None] being a failed assertion. *)

From S2P Require Import Prelude UvmBits.
Local Open Scope Z_scope.

(** ** Types of uvm_hal_types.h and uvm_mmu.h *)

Inductive uvm_aperture_t :=
| UVM_APERTURE_PEER_0 | UVM_APERTURE_PEER_1 | UVM_APERTURE_PEER_2 | UVM_APERTURE_PEER_3
| UVM_APERTURE_PEER_4 | UVM_APERTURE_PEER_5 | UVM_APERTURE_PEER_6 | UVM_APERTURE_PEER_7
| UVM_APERTURE_PEER_MAX | UVM_APERTURE_SYS | UVM_APERTURE_VID
| UVM_APERTURE_DEFAULT | UVM_APERTURE_MAX.

#[export] Instance uvm_aperture_eq_dec : EqDecision uvm_aperture_t.
Proof. solve_decision. Defined.

(** The value of the enumerator. *)
Definition aperture_val (a : uvm_aperture_t) : Z :=
  match a with
  | UVM_APERTURE_PEER_0 => 0 | UVM_APERTURE_PEER_1 => 1 | UVM_APERTURE_PEER_2 => 2
  | UVM_APERTURE_PEER_3 => 3 | UVM_APERTURE_PEER_4 => 4 | UVM_APERTURE_PEER_5 => 5
  | UVM_APERTURE_PEER_6 => 6 | UVM_APERTURE_PEER_7 => 7 | UVM_APERTURE_PEER_MAX => 8
  | UVM_APERTURE_SYS => 9 | UVM_APERTURE_VID => 10 | UVM_APERTURE_DEFAULT => 11
  | UVM_APERTURE_MAX => 12
  end.

Definition aperture_eqb (a b : uvm_aperture_t) : bool := aperture_val a =? aperture_val b.

(** [aperture >= UVM_APERTURE_PEER_0 && aperture <= UVM_APERTURE_PEER_7] *)
Definition aperture_peer_0_7 (a : uvm_aperture_t) : bool :=
  (aperture_val UVM_APERTURE_PEER_0 <=? aperture_val a) &&
  (aperture_val a <=? aperture_val UVM_APERTURE_PEER_7).

Definition uvm_aperture_is_peer (a : uvm_aperture_t) : bool :=
  (aperture_val UVM_APERTURE_PEER_0 <=? aperture_val a) &&
  (aperture_val a <? aperture_val UVM_APERTURE_PEER_MAX).

Definition UVM_APERTURE_PEER_ID (a : uvm_aperture_t) : option Z :=
  UVM_ASSERT (uvm_aperture_is_peer a) ;; Some (aperture_val a).

(** The protections; UVM_PROT_MAX only counts them. *)
Inductive uvm_prot_t :=
| UVM_PROT_NONE | UVM_PROT_READ_ONLY | UVM_PROT_READ_WRITE | UVM_PROT_READ_WRITE_ATOMIC.

#[export] Instance uvm_prot_eq_dec : EqDecision uvm_prot_t.
Proof. solve_decision. Defined.

Definition prot_eqb (p q : uvm_prot_t) : bool := bool_decide (p = q).

(** A page table allocation: where the table is. *)
Record uvm_mmu_page_table_alloc_t := PtAlloc {
  pa_aperture : uvm_aperture_t;
  pa_address : Z;
}.

Definition UVM_PAGE_SIZE_AGNOSTIC : Z := 0.
Definition UVM_PAGE_SIZE_4K : Z := 4096.
Definition UVM_PAGE_SIZE_64K : Z := 65536.
Definition UVM_PAGE_SIZE_128K : Z := 131072.
Definition UVM_PAGE_SIZE_2M : Z := 2097152.
Definition UVM_PAGE_SIZE_512M : Z := 536870912.

Definition UVM_MMU_PTE_FLAGS_NONE : Z := 0.
Definition UVM_MMU_PTE_FLAGS_CACHED : Z := 1.
Definition UVM_MMU_PTE_FLAGS_ACCESS_COUNTERS_DISABLED : Z := 2.
Definition UVM_MMU_PTE_FLAGS_MASK : Z := 3.

(** [flags & bit] as a condition, and [(flags & ~mask) == 0] in 64 bits. *)
Definition flag_set (flags bit : Z) : bool := negb (Z.land flags bit =? 0).
Definition flags_within (flags mask : Z) : bool :=
  Z.land flags (NV_U64_MAX - mask) =? 0.

(** The operations of an MMU mode.  [make_pde] takes the one or two child
    tables of an index and yields the 64-bit words of the entry. *)
Record uvm_mmu_mode_hal_t := MmuHal {
  make_pte : uvm_aperture_t -> Z -> uvm_prot_t -> Z -> option Z;
  make_sked_reflected_pte : option Z;
  make_sparse_pte : option Z;
  unmapped_pte : Z -> Z;
  poisoned_pte : option Z;
  make_pde : list (option uvm_mmu_page_table_alloc_t) -> Z -> option (list Z);
  entry_size : Z -> option Z;
  entries_per_index : Z -> option Z;
  entry_offset : Z -> Z -> option Z;
  index_bits : Z -> Z -> option Z;
  num_va_bits : Z;
  allocation_size : Z -> Z -> option Z;
  page_table_depth : Z -> Z;
  page_sizes : Z;
}.

Definition MMU_BIG : Z := 0.
Definition MMU_SMALL : Z := 1.

(** Element [i] of the array of child tables; reading past it is undefined. *)
Definition alloc_at (l : list (option uvm_mmu_page_table_alloc_t)) (i : Z)
  : option (option uvm_mmu_page_table_alloc_t) := nthZ l i.

(** The aperture of a child table in a directory entry: system or video
    memory, nothing else. *)
Definition pde_switch {A} (a : uvm_aperture_t) (sys vid : option A) : option A :=
  match a with
  | UVM_APERTURE_SYS => sys
  | UVM_APERTURE_VID => vid
  | _ => None
  end.

(** ** Maxwell: dev_mmu.h of GM107 *)

Module VER1.
Definition PDE_APERTURE_BIG := Field 1 0.
Definition PDE_SIZE := Field 3 2.
Definition PDE_ADDRESS_BIG_SYS := Field 31 4.
Definition PDE_ADDRESS_BIG_VID := Field (31 - 3) 4.
Definition PDE_APERTURE_SMALL := Field 33 32.
Definition PDE_VOL_SMALL := Field 34 34.
Definition PDE_VOL_BIG := Field 35 35.
Definition PDE_ADDRESS_SMALL_SYS := Field 63 36.
Definition PDE_ADDRESS_SMALL_VID := Field (63 - 3) 36.
Definition PDE_SIZE_FULL : Z := 0.
Definition PDE_APERTURE_VIDEO_MEMORY : Z := 1.
Definition PDE_APERTURE_SYSTEM_COHERENT_MEMORY : Z := 2.
Definition PDE_ADDRESS_SHIFT : Z := 12.
Definition PTE_VALID := Field 0 0.
Definition PTE_PRIVILEGE := Field 1 1.
Definition PTE_READ_ONLY := Field 2 2.
Definition PTE_ENCRYPTED := Field 3 3.
Definition PTE_ADDRESS_SYS := Field 31 4.
Definition PTE_ADDRESS_VID := Field (31 - 3) 4.
Definition PTE_ADDRESS_VID_PEER := Field 31 (32 - 3).
Definition PTE_VOL := Field 32 32.
Definition PTE_APERTURE := Field 34 33.
Definition PTE_LOCK := Field 35 35.
Definition PTE_KIND := Field 43 36.
Definition PTE_COMPTAGLINE := Field (32 + 28) 44.
Definition PTE_READ_DISABLE := Field 62 62.
Definition PTE_WRITE_DISABLE := Field 63 63.
Definition PTE_APERTURE_VIDEO_MEMORY : Z := 0.
Definition PTE_APERTURE_PEER_MEMORY : Z := 1.
Definition PTE_APERTURE_SYSTEM_COHERENT_MEMORY : Z := 2.
Definition PTE_KIND_PITCH : Z := 0.
Definition PTE_KIND_SMSKED_MESSAGE : Z := 202.
Definition PTE_ADDRESS_SHIFT : Z := 12.
End VER1.

(** The enumerators TRUE and FALSE of one-bit fields (IS_PDE apart). *)
Definition F_TRUE : Z := 1.
Definition F_FALSE : Z := 0.

Module Maxwell.
Import VER1.

Definition entries_per_index_maxwell (depth : Z) : option Z :=
  UVM_ASSERT (depth <? 2) ;; Some (if depth =? 0 then 2 else 1).

Definition entry_offset_maxwell (depth page_size : Z) : option Z :=
  UVM_ASSERT (depth <? 2) ;;
  Some (if (page_size =? UVM_PAGE_SIZE_4K) && (depth =? 0) then MMU_SMALL else MMU_BIG).

Definition big_half_pde_maxwell (phys_alloc : option uvm_mmu_page_table_alloc_t) : option Z :=
  match phys_alloc with
  | None => Some 0
  | Some pa =>
      let address := Z.shiftr (pa_address pa) PDE_ADDRESS_SHIFT in
      let pde_bits := HWCONST64 PDE_VOL_BIG F_TRUE in
      pde_switch (pa_aperture pa)
        (or_bits (Z.lor pde_bits (HWCONST64 PDE_APERTURE_BIG PDE_APERTURE_SYSTEM_COHERENT_MEMORY))
           (HWVALUE64 PDE_ADDRESS_BIG_SYS address))
        (or_bits (Z.lor pde_bits (HWCONST64 PDE_APERTURE_BIG PDE_APERTURE_VIDEO_MEMORY))
           (HWVALUE64 PDE_ADDRESS_BIG_VID (Z.shiftr (pa_address pa) PDE_ADDRESS_SHIFT)))
  end.

Definition small_half_pde_maxwell (phys_alloc : option uvm_mmu_page_table_alloc_t) : option Z :=
  match phys_alloc with
  | None => Some 0
  | Some pa =>
      let address := Z.shiftr (pa_address pa) PDE_ADDRESS_SHIFT in
      let pde_bits := HWCONST64 PDE_VOL_SMALL F_TRUE in
      pde_switch (pa_aperture pa)
        (or_bits (Z.lor pde_bits (HWCONST64 PDE_APERTURE_SMALL PDE_APERTURE_SYSTEM_COHERENT_MEMORY))
           (HWVALUE64 PDE_ADDRESS_SMALL_SYS address))
        (or_bits (Z.lor pde_bits (HWCONST64 PDE_APERTURE_SMALL PDE_APERTURE_VIDEO_MEMORY))
           (HWVALUE64 PDE_ADDRESS_SMALL_VID address))
  end.

Definition make_pde_maxwell (phys_allocs : list (option uvm_mmu_page_table_alloc_t)) (depth : Z)
  : option (list Z) :=
  UVM_ASSERT (depth =? 0) ;;
  let pde_bits := HWCONST64 PDE_SIZE PDE_SIZE_FULL in
  big ← alloc_at phys_allocs MMU_BIG;
  small ← alloc_at phys_allocs MMU_SMALL;
  b ← big_half_pde_maxwell big;
  s ← small_half_pde_maxwell small;
  Some [Z.lor pde_bits (Z.lor b s)].

Definition entry_size_maxwell (depth : Z) : option Z :=
  UVM_ASSERT (depth <? 2) ;; Some 8.

Definition index_bits_maxwell_64 (depth page_size : Z) : option Z :=
  UVM_ASSERT (depth <? 2) ;;
  UVM_ASSERT ((page_size =? UVM_PAGE_SIZE_4K) || (page_size =? UVM_PAGE_SIZE_64K) ||
              ((depth =? 0) && (page_size =? UVM_PAGE_SIZE_AGNOSTIC))) ;;
  Some (if depth =? 0 then 14 else if page_size =? UVM_PAGE_SIZE_4K then 14 else 10).

Definition index_bits_maxwell_128 (depth page_size : Z) : option Z :=
  UVM_ASSERT (depth <? 2) ;;
  UVM_ASSERT ((page_size =? UVM_PAGE_SIZE_4K) || (page_size =? UVM_PAGE_SIZE_128K) ||
              ((depth =? 0) && (page_size =? UVM_PAGE_SIZE_AGNOSTIC))) ;;
  Some (if depth =? 0 then 13 else if page_size =? UVM_PAGE_SIZE_4K then 15 else 10).

Definition num_va_bits_maxwell : Z := 40.

Definition allocation_size_maxwell_64 (depth page_size : Z) : option Z :=
  e ← entry_size_maxwell depth; i ← index_bits_maxwell_64 depth page_size;
  Some (u64 (Z.shiftl e i)).

Definition allocation_size_maxwell_128 (depth page_size : Z) : option Z :=
  e ← entry_size_maxwell depth; i ← index_bits_maxwell_128 depth page_size;
  Some (u64 (Z.shiftl e i)).

Definition page_table_depth_maxwell (page_size : Z) : Z := 1.

Definition page_sizes_maxwell_128 : Z := Z.lor UVM_PAGE_SIZE_128K UVM_PAGE_SIZE_4K.
Definition page_sizes_maxwell_64 : Z := Z.lor UVM_PAGE_SIZE_64K UVM_PAGE_SIZE_4K.

Definition unmapped_pte_maxwell (page_size : Z) : Z :=
  if page_size =? UVM_PAGE_SIZE_4K then 0
  else Z.lor (Z.lor (HWCONST64 PTE_VALID F_FALSE) (HWCONST64 PTE_PRIVILEGE F_TRUE))
             (HWCONST64 PTE_VOL F_FALSE).

Definition make_pte_maxwell (aperture : uvm_aperture_t) (address : Z) (prot : uvm_prot_t)
    (flags : Z) : option Z :=
  UVM_ASSERT (negb (prot_eqb prot UVM_PROT_NONE)) ;;
  UVM_ASSERT (flags_within flags UVM_MMU_PTE_FLAGS_MASK) ;;
  let pte_bits := HWCONST64 PTE_VALID F_TRUE in
  let pte_bits := Z.lor pte_bits (HWCONST64 PTE_PRIVILEGE F_FALSE) in
  let pte_bits := Z.lor pte_bits (HWCONST64 PTE_READ_ONLY
    (if prot_eqb prot UVM_PROT_READ_ONLY then F_TRUE else F_FALSE)) in
  let pte_bits := Z.lor pte_bits (HWCONST64 PTE_ENCRYPTED F_FALSE) in
  let address := Z.shiftr address PTE_ADDRESS_SHIFT in
  pte_bits ← (if aperture_eqb aperture UVM_APERTURE_SYS then
                or_bits pte_bits (HWVALUE64 PTE_ADDRESS_SYS address)
              else
                pte_bits ← or_bits pte_bits (HWVALUE64 PTE_ADDRESS_VID address);
                if negb (aperture_eqb aperture UVM_APERTURE_VID) then
                  id ← UVM_APERTURE_PEER_ID aperture;
                  or_bits pte_bits (HWVALUE64 PTE_ADDRESS_VID_PEER id)
                else Some pte_bits);
  let pte_bits := Z.lor pte_bits (HWCONST64 PTE_VOL
    (if flag_set flags UVM_MMU_PTE_FLAGS_CACHED then F_FALSE else F_TRUE)) in
  aperture_bits ← (if aperture_eqb aperture UVM_APERTURE_SYS then
                     Some PTE_APERTURE_SYSTEM_COHERENT_MEMORY
                   else if aperture_eqb aperture UVM_APERTURE_VID then
                     Some PTE_APERTURE_VIDEO_MEMORY
                   else if aperture_peer_0_7 aperture then Some PTE_APERTURE_PEER_MEMORY
                   else None);
  pte_bits ← or_bits pte_bits (HWVALUE64 PTE_APERTURE aperture_bits);
  let pte_bits := Z.lor pte_bits (HWCONST64 PTE_LOCK F_FALSE) in
  let pte_bits := Z.lor pte_bits (HWCONST64 PTE_KIND PTE_KIND_PITCH) in
  pte_bits ← or_bits pte_bits (HWVALUE64 PTE_COMPTAGLINE 0);
  let pte_bits := Z.lor pte_bits (HWCONST64 PTE_READ_DISABLE F_FALSE) in
  Some (Z.lor pte_bits (HWCONST64 PTE_WRITE_DISABLE
    (if prot_eqb prot UVM_PROT_READ_ONLY then F_TRUE else F_FALSE))).

Definition make_sked_reflected_pte_maxwell : option Z :=
  Some (Z.lor (HWCONST64 PTE_VALID F_TRUE) (HWCONST64 PTE_KIND PTE_KIND_SMSKED_MESSAGE)).

Definition poisoned_pte_maxwell : option Z :=
  let phys_addr := 118866575360 (* 0x1bad000000 *) in
  pte_bits ← make_pte_maxwell UVM_APERTURE_VID phys_addr UVM_PROT_READ_ONLY
               UVM_MMU_PTE_FLAGS_NONE;
  Some (WRITE_HWCONST64 pte_bits PTE_PRIVILEGE F_TRUE).

Definition make_sparse_pte_maxwell_unsupported : option Z :=
  UVM_ASSERT false ;; poisoned_pte_maxwell.

Definition maxwell_64_mmu_mode_hal : uvm_mmu_mode_hal_t :=
  MmuHal make_pte_maxwell make_sked_reflected_pte_maxwell make_sparse_pte_maxwell_unsupported
    unmapped_pte_maxwell poisoned_pte_maxwell make_pde_maxwell entry_size_maxwell
    entries_per_index_maxwell entry_offset_maxwell index_bits_maxwell_64 num_va_bits_maxwell
    allocation_size_maxwell_64 page_table_depth_maxwell page_sizes_maxwell_64.

Definition maxwell_128_mmu_mode_hal : uvm_mmu_mode_hal_t :=
  MmuHal make_pte_maxwell make_sked_reflected_pte_maxwell make_sparse_pte_maxwell_unsupported
    unmapped_pte_maxwell poisoned_pte_maxwell make_pde_maxwell entry_size_maxwell
    entries_per_index_maxwell entry_offset_maxwell index_bits_maxwell_128 num_va_bits_maxwell
    allocation_size_maxwell_128 page_table_depth_maxwell page_sizes_maxwell_128.

Definition uvm_hal_mmu_mode_maxwell (big_page_size : Z) : option uvm_mmu_mode_hal_t :=
  UVM_ASSERT ((big_page_size =? UVM_PAGE_SIZE_64K) || (big_page_size =? UVM_PAGE_SIZE_128K)) ;;
  Some (if big_page_size =? UVM_PAGE_SIZE_64K then maxwell_64_mmu_mode_hal
        else maxwell_128_mmu_mode_hal).
End Maxwell.

(** ** Pascal: the VER2 entries of dev_mmu.h *)

Module VER2.
Definition PDE_IS_PDE := Field 0 0.
Definition PDE_APERTURE := Field 2 1.
Definition PDE_VOL := Field 3 3.
Definition PDE_NO_ATS := Field 5 5.
Definition PDE_ADDRESS_SYS := Field 53 8.
Definition PDE_ADDRESS_VID := Field (35 - 3) 8.
Definition PDE_ADDRESS_SHIFT : Z := 12.
(** IS_PDE is the inverse of a valid bit: TRUE is 0. *)
Definition IS_PDE_TRUE : Z := 0.
Definition PDE_APERTURE_VIDEO_MEMORY : Z := 1.
Definition PDE_APERTURE_SYSTEM_COHERENT_MEMORY : Z := 2.
Definition DUAL_PDE_IS_PDE := Field 0 0.
Definition DUAL_PDE_APERTURE_BIG := Field 2 1.
Definition DUAL_PDE_VOL_BIG := Field 3 3.
Definition DUAL_PDE_ADDRESS_BIG_SYS := Field 53 (8 - 4).
Definition DUAL_PDE_ADDRESS_BIG_VID := Field (35 - 3) (8 - 4).
Definition DUAL_PDE_APERTURE_SMALL := Field 66 65.
Definition DUAL_PDE_VOL_SMALL := Field 67 67.
Definition DUAL_PDE_ADDRESS_SMALL_SYS := Field 117 72.
Definition DUAL_PDE_ADDRESS_SMALL_VID := Field (99 - 3) 72.
Definition DUAL_PDE_ADDRESS_SHIFT : Z := 12.
Definition DUAL_PDE_ADDRESS_BIG_SHIFT : Z := 8.
Definition PTE_VALID := Field 0 0.
Definition PTE_APERTURE := Field 2 1.
Definition PTE_VOL := Field 3 3.
Definition PTE_ENCRYPTED := Field 4 4.
Definition PTE_PRIVILEGE := Field 5 5.
Definition PTE_READ_ONLY := Field 6 6.
Definition PTE_ATOMIC_DISABLE := Field 7 7.
Definition PTE_ADDRESS_SYS := Field 53 8.
Definition PTE_ADDRESS_VID := Field (35 - 3) 8.
Definition PTE_ADDRESS_VID_PEER := Field 35 (36 - 3).
(** GP100 and GV100; TU102 has two more bits. *)
Definition PTE_COMPTAGLINE := Field (18 + 35) 36.
Definition PTE_COMPTAGLINE_TU102 := Field (20 + 35) 36.
Definition PTE_KIND := Field 63 56.
Definition PTE_APERTURE_VIDEO_MEMORY : Z := 0.
Definition PTE_APERTURE_PEER_MEMORY : Z := 1.
Definition PTE_APERTURE_SYSTEM_COHERENT_MEMORY : Z := 2.
Definition PTE_ADDRESS_SHIFT : Z := 12.
Definition KIND_PITCH : Z := 0.
Definition KIND_SMSKED_MESSAGE : Z := 202.
Definition KIND_GENERIC_MEMORY_TU102 : Z := 6.
Definition KIND_SMSKED_MESSAGE_TU102 : Z := 15.

(** The if-chain that picks the aperture bits of a PTE. *)
Definition pte_aperture_bits (aperture : uvm_aperture_t) : option Z :=
  if aperture_eqb aperture UVM_APERTURE_SYS then Some PTE_APERTURE_SYSTEM_COHERENT_MEMORY
  else if aperture_eqb aperture UVM_APERTURE_VID then Some PTE_APERTURE_VIDEO_MEMORY
  else if aperture_peer_0_7 aperture then Some PTE_APERTURE_PEER_MEMORY
  else None.

(** The part of a PTE up to the address, which the Pascal, Volta and Turing
    encoders share line by line. *)
Definition pte_control_bits (aperture : uvm_aperture_t) (prot : uvm_prot_t) (flags : Z)
  : option Z :=
  UVM_ASSERT (negb (prot_eqb prot UVM_PROT_NONE)) ;;
  UVM_ASSERT (flags_within flags UVM_MMU_PTE_FLAGS_MASK) ;;
  let pte_bits := HWCONST64 PTE_VALID F_TRUE in
  aperture_bits ← pte_aperture_bits aperture;
  pte_bits ← or_bits pte_bits (HWVALUE64 PTE_APERTURE aperture_bits);
  let pte_bits := Z.lor pte_bits (HWCONST64 PTE_VOL
    (if flag_set flags UVM_MMU_PTE_FLAGS_CACHED then F_FALSE else F_TRUE)) in
  let pte_bits := Z.lor pte_bits (HWCONST64 PTE_ENCRYPTED F_FALSE) in
  let pte_bits := Z.lor pte_bits (HWCONST64 PTE_PRIVILEGE F_FALSE) in
  let pte_bits := Z.lor pte_bits (HWCONST64 PTE_READ_ONLY
    (if prot_eqb prot UVM_PROT_READ_ONLY then F_TRUE else F_FALSE)) in
  Some (Z.lor pte_bits (HWCONST64 PTE_ATOMIC_DISABLE
    (if prot_eqb prot UVM_PROT_READ_WRITE_ATOMIC then F_FALSE else F_TRUE))).
End VER2.

Module Pascal.
Import VER2.

Definition entries_per_index_pascal (depth : Z) : option Z :=
  UVM_ASSERT (depth <? 5) ;; Some (if depth =? 3 then 2 else 1).

Definition entry_offset_pascal (depth page_size : Z) : option Z :=
  UVM_ASSERT (depth <? 5) ;;
  Some (if (page_size =? UVM_PAGE_SIZE_4K) && (depth =? 3) then MMU_SMALL else MMU_BIG).

Definition single_pde_pascal (phys_alloc : option uvm_mmu_page_table_alloc_t) : option Z :=
  match phys_alloc with
  | None => Some 0
  | Some pa =>
      let address := Z.shiftr (pa_address pa) PDE_ADDRESS_SHIFT in
      let pde_bits := Z.lor (HWCONST64 PDE_IS_PDE IS_PDE_TRUE) (HWCONST64 PDE_VOL F_TRUE) in
      pde_switch (pa_aperture pa)
        (or_bits (Z.lor pde_bits (HWCONST64 PDE_APERTURE PDE_APERTURE_SYSTEM_COHERENT_MEMORY))
           (HWVALUE64 PDE_ADDRESS_SYS address))
        (or_bits (Z.lor pde_bits (HWCONST64 PDE_APERTURE PDE_APERTURE_VIDEO_MEMORY))
           (HWVALUE64 PDE_ADDRESS_VID address))
  end.

Definition big_half_pde_pascal (phys_alloc : option uvm_mmu_page_table_alloc_t) : option Z :=
  match phys_alloc with
  | None => Some 0
  | Some pa =>
      let address := Z.shiftr (pa_address pa) DUAL_PDE_ADDRESS_BIG_SHIFT in
      let pde_bits := HWCONST64 DUAL_PDE_VOL_BIG F_TRUE in
      pde_switch (pa_aperture pa)
        (or_bits (Z.lor pde_bits
             (HWCONST64 DUAL_PDE_APERTURE_BIG PDE_APERTURE_SYSTEM_COHERENT_MEMORY))
           (HWVALUE64 DUAL_PDE_ADDRESS_BIG_SYS address))
        (or_bits (Z.lor pde_bits (HWCONST64 DUAL_PDE_APERTURE_BIG PDE_APERTURE_VIDEO_MEMORY))
           (HWVALUE64 DUAL_PDE_ADDRESS_BIG_VID address))
  end.

Definition small_half_pde_pascal (phys_alloc : option uvm_mmu_page_table_alloc_t) : option Z :=
  match phys_alloc with
  | None => Some 0
  | Some pa =>
      let address := Z.shiftr (pa_address pa) DUAL_PDE_ADDRESS_SHIFT in
      let pde_bits := HWCONST64 DUAL_PDE_VOL_SMALL F_TRUE in
      pde_switch (pa_aperture pa)
        (or_bits (Z.lor pde_bits
             (HWCONST64 DUAL_PDE_APERTURE_SMALL PDE_APERTURE_SYSTEM_COHERENT_MEMORY))
           (HWVALUE64 DUAL_PDE_ADDRESS_SMALL_SYS address))
        (or_bits (Z.lor pde_bits (HWCONST64 DUAL_PDE_APERTURE_SMALL PDE_APERTURE_VIDEO_MEMORY))
           (HWVALUE64 DUAL_PDE_ADDRESS_SMALL_VID address))
  end.

Definition make_pde_pascal (phys_allocs : list (option uvm_mmu_page_table_alloc_t)) (depth : Z)
  : option (list Z) :=
  entry_count ← entries_per_index_pascal depth;
  if entry_count =? 1 then
    a ← alloc_at phys_allocs 0; e ← single_pde_pascal a; Some [e]
  else if entry_count =? 2 then
    big ← alloc_at phys_allocs MMU_BIG;
    b ← big_half_pde_pascal big;
    small ← alloc_at phys_allocs MMU_SMALL;
    s ← small_half_pde_pascal small;
    Some [Z.lor b (HWCONST64 DUAL_PDE_IS_PDE IS_PDE_TRUE); s]
  else None.

Definition entry_size_pascal (depth : Z) : option Z :=
  UVM_ASSERT (depth <? 5) ;; Some (if depth =? 3 then 16 else 8).

Definition bit_widths : list Z := [2; 9; 9; 8].

Definition index_bits_pascal (depth page_size : Z) : option Z :=
  UVM_ASSERT (depth <? 5) ;;
  if depth <? 4 then nthZ bit_widths depth
  else if depth =? 4 then
    if page_size =? UVM_PAGE_SIZE_4K then Some 9
    else if page_size =? UVM_PAGE_SIZE_64K then Some 5 else Some 0
  else Some 0.

Definition num_va_bits_pascal : Z := 49.

Definition allocation_size_pascal (depth page_size : Z) : option Z :=
  UVM_ASSERT (depth <? 5) ;;
  Some (if (depth =? 4) && (page_size =? UVM_PAGE_SIZE_64K) then 256 else 4096).

Definition page_table_depth_pascal (page_size : Z) : Z :=
  if page_size =? UVM_PAGE_SIZE_2M then 3 else 4.

Definition page_sizes_pascal : Z :=
  Z.lor (Z.lor UVM_PAGE_SIZE_2M UVM_PAGE_SIZE_64K) UVM_PAGE_SIZE_4K.

Definition unmapped_pte_pascal (page_size : Z) : Z :=
  if negb (page_size =? UVM_PAGE_SIZE_64K) then 0
  else Z.lor (Z.lor (HWCONST64 PTE_VALID F_FALSE) (HWCONST64 PTE_VOL F_FALSE))
             (HWCONST64 PTE_PRIVILEGE F_TRUE).

Definition make_pte_pascal (aperture : uvm_aperture_t) (address : Z) (prot : uvm_prot_t)
    (flags : Z) : option Z :=
  pte_bits ← pte_control_bits aperture prot flags;
  let address := Z.shiftr address PTE_ADDRESS_SHIFT in
  pte_bits ← (if aperture_eqb aperture UVM_APERTURE_SYS then
                or_bits pte_bits (HWVALUE64 PTE_ADDRESS_SYS address)
              else
                pte_bits ← or_bits pte_bits (HWVALUE64 PTE_ADDRESS_VID address);
                pte_bits ← (if negb (aperture_eqb aperture UVM_APERTURE_VID) then
                              id ← UVM_APERTURE_PEER_ID aperture;
                              or_bits pte_bits (HWVALUE64 PTE_ADDRESS_VID_PEER id)
                            else Some pte_bits);
                or_bits pte_bits (HWVALUE64 PTE_COMPTAGLINE 0));
  or_bits pte_bits (HWVALUE64 PTE_KIND KIND_PITCH).

Definition make_sked_reflected_pte_pascal : option Z :=
  or_bits (HWCONST64 PTE_VALID F_TRUE) (HWVALUE64 PTE_KIND KIND_SMSKED_MESSAGE).

Definition make_sparse_pte_pascal : option Z :=
  Some (Z.lor (HWCONST64 PTE_VALID F_FALSE) (HWCONST64 PTE_VOL F_TRUE)).

Definition poisoned_pte_pascal : option Z :=
  let phys_addr := 118866575360 (* 0x1bad000000 *) in
  pte_bits ← make_pte_pascal UVM_APERTURE_VID phys_addr UVM_PROT_READ_ONLY
               UVM_MMU_PTE_FLAGS_NONE;
  Some (WRITE_HWCONST64 pte_bits PTE_PRIVILEGE F_TRUE).

Definition pascal_mmu_mode_hal : uvm_mmu_mode_hal_t :=
  MmuHal make_pte_pascal make_sked_reflected_pte_pascal make_sparse_pte_pascal
    unmapped_pte_pascal poisoned_pte_pascal make_pde_pascal entry_size_pascal
    entries_per_index_pascal entry_offset_pascal index_bits_pascal num_va_bits_pascal
    allocation_size_pascal page_table_depth_pascal page_sizes_pascal.

(** The inner [None] is the NULL returned for 128K big pages. *)
Definition uvm_hal_mmu_mode_pascal (big_page_size : Z) : option (option uvm_mmu_mode_hal_t) :=
  UVM_ASSERT ((big_page_size =? UVM_PAGE_SIZE_64K) || (big_page_size =? UVM_PAGE_SIZE_128K)) ;;
  if big_page_size =? UVM_PAGE_SIZE_128K then Some None else Some (Some pascal_mmu_mode_hal).
End Pascal.

(** ** Volta: a larger physical address, and NO_ATS in PDE1 *)

Module Volta.
Import VER2.

Definition entries_per_index_volta (depth : Z) : option Z :=
  UVM_ASSERT (depth <? 5) ;; Some (if depth =? 3 then 2 else 1).

Definition entry_offset_volta (depth page_size : Z) : option Z :=
  UVM_ASSERT (depth <? 5) ;;
  Some (if (page_size =? UVM_PAGE_SIZE_4K) && (depth =? 3) then MMU_SMALL else MMU_BIG).

(** [ats_enabled] is [g_uvm_global.ats.enabled]. *)
Definition single_pde_volta (ats_enabled : bool)
    (phys_alloc : option uvm_mmu_page_table_alloc_t) (depth : Z) : option Z :=
  match phys_alloc with
  | None => Some 0
  | Some pa =>
      let address := Z.shiftr (pa_address pa) PDE_ADDRESS_SHIFT in
      let pde_bits := Z.lor (HWCONST64 PDE_IS_PDE IS_PDE_TRUE) (HWCONST64 PDE_VOL F_TRUE) in
      pde_bits ← pde_switch (pa_aperture pa)
        (or_bits (Z.lor pde_bits (HWCONST64 PDE_APERTURE PDE_APERTURE_SYSTEM_COHERENT_MEMORY))
           (HWVALUE64 PDE_ADDRESS_SYS address))
        (or_bits (Z.lor pde_bits (HWCONST64 PDE_APERTURE PDE_APERTURE_VIDEO_MEMORY))
           (HWVALUE64 PDE_ADDRESS_VID address));
      Some (if (depth =? 2) && ats_enabled
            then Z.lor pde_bits (HWCONST64 PDE_NO_ATS F_TRUE) else pde_bits)
  end.

Definition big_half_pde_volta (phys_alloc : option uvm_mmu_page_table_alloc_t) : option Z :=
  match phys_alloc with
  | None => Some 0
  | Some pa =>
      let address := Z.shiftr (pa_address pa) DUAL_PDE_ADDRESS_BIG_SHIFT in
      let pde_bits := HWCONST64 DUAL_PDE_VOL_BIG F_TRUE in
      pde_switch (pa_aperture pa)
        (or_bits (Z.lor pde_bits
             (HWCONST64 DUAL_PDE_APERTURE_BIG PDE_APERTURE_SYSTEM_COHERENT_MEMORY))
           (HWVALUE64 DUAL_PDE_ADDRESS_BIG_SYS address))
        (or_bits (Z.lor pde_bits (HWCONST64 DUAL_PDE_APERTURE_BIG PDE_APERTURE_VIDEO_MEMORY))
           (HWVALUE64 DUAL_PDE_ADDRESS_BIG_VID address))
  end.

Definition small_half_pde_volta (phys_alloc : option uvm_mmu_page_table_alloc_t) : option Z :=
  match phys_alloc with
  | None => Some 0
  | Some pa =>
      let address := Z.shiftr (pa_address pa) DUAL_PDE_ADDRESS_SHIFT in
      let pde_bits := HWCONST64 DUAL_PDE_VOL_SMALL F_TRUE in
      pde_switch (pa_aperture pa)
        (or_bits (Z.lor pde_bits
             (HWCONST64 DUAL_PDE_APERTURE_SMALL PDE_APERTURE_SYSTEM_COHERENT_MEMORY))
           (HWVALUE64 DUAL_PDE_ADDRESS_SMALL_SYS address))
        (or_bits (Z.lor pde_bits (HWCONST64 DUAL_PDE_APERTURE_SMALL PDE_APERTURE_VIDEO_MEMORY))
           (HWVALUE64 DUAL_PDE_ADDRESS_SMALL_VID address))
  end.

Definition make_pde_volta (ats_enabled : bool)
    (phys_allocs : list (option uvm_mmu_page_table_alloc_t)) (depth : Z) : option (list Z) :=
  entry_count ← entries_per_index_volta depth;
  if entry_count =? 1 then
    a ← alloc_at phys_allocs 0; e ← single_pde_volta ats_enabled a depth; Some [e]
  else if entry_count =? 2 then
    big ← alloc_at phys_allocs MMU_BIG;
    b ← big_half_pde_volta big;
    small ← alloc_at phys_allocs MMU_SMALL;
    s ← small_half_pde_volta small;
    Some [Z.lor b (HWCONST64 DUAL_PDE_IS_PDE IS_PDE_TRUE); s]
  else None.

Definition make_pte_volta (aperture : uvm_aperture_t) (address : Z) (prot : uvm_prot_t)
    (flags : Z) : option Z :=
  pte_bits ← pte_control_bits aperture prot flags;
  let address := Z.shiftr address PTE_ADDRESS_SHIFT in
  pte_bits ← (if aperture_eqb aperture UVM_APERTURE_SYS then
                or_bits pte_bits (HWVALUE64 PTE_ADDRESS_SYS address)
              else
                let addr_lo := Z.land address (HWMASK64 PTE_ADDRESS_VID) in
                let addr_hi := Z.shiftr address (HWSIZE PTE_ADDRESS_VID) in
                pte_bits ← or_bits pte_bits (HWVALUE64 PTE_ADDRESS_VID addr_lo);
                pte_bits ← or_bits pte_bits (HWVALUE64 PTE_COMPTAGLINE addr_hi);
                if negb (aperture_eqb aperture UVM_APERTURE_VID) then
                  id ← UVM_APERTURE_PEER_ID aperture;
                  or_bits pte_bits (HWVALUE64 PTE_ADDRESS_VID_PEER id)
                else Some pte_bits);
  or_bits pte_bits (HWVALUE64 PTE_KIND KIND_PITCH).

Definition volta_mmu_mode_hal (ats_enabled : bool) : uvm_mmu_mode_hal_t :=
  let h := Pascal.pascal_mmu_mode_hal in
  MmuHal make_pte_volta (make_sked_reflected_pte h) (make_sparse_pte h) (unmapped_pte h)
    (poisoned_pte h) (make_pde_volta ats_enabled) (entry_size h) (entries_per_index h)
    (entry_offset h) (index_bits h) (num_va_bits h) (allocation_size h) (page_table_depth h)
    (page_sizes h).

Definition uvm_hal_mmu_mode_volta (ats_enabled : bool) (big_page_size : Z)
  : option (option uvm_mmu_mode_hal_t) :=
  UVM_ASSERT ((big_page_size =? UVM_PAGE_SIZE_64K) || (big_page_size =? UVM_PAGE_SIZE_128K)) ;;
  if big_page_size =? UVM_PAGE_SIZE_128K then Some None
  else Some (Some (volta_mmu_mode_hal ats_enabled)).
End Volta.

(** ** Turing: generic memory kind *)

Module Turing.
Import VER2.

Definition make_pte_turing (aperture : uvm_aperture_t) (address : Z) (prot : uvm_prot_t)
    (flags : Z) : option Z :=
  pte_bits ← pte_control_bits aperture prot flags;
  let address := Z.shiftr address PTE_ADDRESS_SHIFT in
  pte_bits ← (if aperture_eqb aperture UVM_APERTURE_SYS then
                or_bits pte_bits (HWVALUE64 PTE_ADDRESS_SYS address)
              else
                let addr_lo := Z.land address (HWMASK64 PTE_ADDRESS_VID) in
                let addr_hi := Z.shiftr address (HWSIZE PTE_ADDRESS_VID) in
                pte_bits ← or_bits pte_bits (HWVALUE64 PTE_ADDRESS_VID addr_lo);
                pte_bits ← or_bits pte_bits (HWVALUE64 PTE_COMPTAGLINE_TU102 addr_hi);
                if negb (aperture_eqb aperture UVM_APERTURE_VID) then
                  id ← UVM_APERTURE_PEER_ID aperture;
                  or_bits pte_bits (HWVALUE64 PTE_ADDRESS_VID_PEER id)
                else Some pte_bits);
  or_bits pte_bits (HWVALUE64 PTE_KIND KIND_GENERIC_MEMORY_TU102).

Definition make_sked_reflected_pte_turing : option Z :=
  or_bits (HWCONST64 PTE_VALID F_TRUE) (HWVALUE64 PTE_KIND KIND_SMSKED_MESSAGE_TU102).

Definition poisoned_pte_turing : option Z :=
  let phys_addr := 118866575360 (* 0x1bad000000 *) in
  pte_bits ← make_pte_turing UVM_APERTURE_VID phys_addr UVM_PROT_READ_ONLY
               UVM_MMU_PTE_FLAGS_NONE;
  Some (WRITE_HWCONST64 pte_bits PTE_PRIVILEGE F_TRUE).

Definition turing_mmu_mode_hal (ats_enabled : bool) : uvm_mmu_mode_hal_t :=
  let h := Volta.volta_mmu_mode_hal ats_enabled in
  MmuHal make_pte_turing make_sked_reflected_pte_turing (make_sparse_pte h) (unmapped_pte h)
    poisoned_pte_turing (make_pde h) (entry_size h) (entries_per_index h)
    (entry_offset h) (index_bits h) (num_va_bits h) (allocation_size h) (page_table_depth h)
    (page_sizes h).

Definition uvm_hal_mmu_mode_turing (ats_enabled : bool) (big_page_size : Z)
  : option (option uvm_mmu_mode_hal_t) :=
  UVM_ASSERT ((big_page_size =? UVM_PAGE_SIZE_64K) || (big_page_size =? UVM_PAGE_SIZE_128K)) ;;
  if big_page_size =? UVM_PAGE_SIZE_128K then Some None
  else Some (Some (turing_mmu_mode_hal ats_enabled)).
End Turing.

(** ** Ampere: 512M pages *)

Module Ampere.
Definition page_table_depth_ampere (page_size : Z) : Z :=
  if page_size =? UVM_PAGE_SIZE_2M then 3
  else if page_size =? UVM_PAGE_SIZE_512M then 2 else 4.

Definition page_sizes_ampere : Z :=
  Z.lor (Z.lor (Z.lor UVM_PAGE_SIZE_512M UVM_PAGE_SIZE_2M) UVM_PAGE_SIZE_64K) UVM_PAGE_SIZE_4K.

Definition ampere_mmu_mode_hal (ats_enabled : bool) : uvm_mmu_mode_hal_t :=
  let h := Turing.turing_mmu_mode_hal ats_enabled in
  MmuHal (make_pte h) (make_sked_reflected_pte h) (make_sparse_pte h) (unmapped_pte h)
    (poisoned_pte h) (make_pde h) (entry_size h) (entries_per_index h)
    (entry_offset h) (index_bits h) (num_va_bits h) (allocation_size h)
    page_table_depth_ampere page_sizes_ampere.

Definition uvm_hal_mmu_mode_ampere (ats_enabled : bool) (big_page_size : Z)
  : option (option uvm_mmu_mode_hal_t) :=
  UVM_ASSERT ((big_page_size =? UVM_PAGE_SIZE_64K) || (big_page_size =? UVM_PAGE_SIZE_128K)) ;;
  if big_page_size =? UVM_PAGE_SIZE_128K then Some None
  else Some (Some (ampere_mmu_mode_hal ats_enabled)).
End Ampere.

(** ** Hopper: the VER3 entries, one more level *)

Module VER3.
Definition PDE_IS_PTE := Field 0 0.
Definition PDE_APERTURE := Field 2 1.
Definition PDE_PCF := Field 5 3.
Definition PDE_ADDRESS := Field 51 12.
Definition PDE_ADDRESS_SHIFT : Z := 12.
Definition PDE_APERTURE_VIDEO_MEMORY : Z := 1.
Definition PDE_APERTURE_SYSTEM_COHERENT_MEMORY : Z := 2.
Definition PCF_VALID_UNCACHED_ATS_ALLOWED : Z := 1.
Definition PCF_VALID_UNCACHED_ATS_NOT_ALLOWED : Z := 3.
Definition DUAL_PDE_IS_PTE := Field 0 0.
Definition DUAL_PDE_APERTURE_BIG := Field 2 1.
Definition DUAL_PDE_PCF_BIG := Field 5 3.
Definition DUAL_PDE_ADDRESS_BIG := Field 51 8.
Definition DUAL_PDE_APERTURE_SMALL := Field 66 65.
Definition DUAL_PDE_PCF_SMALL := Field 69 67.
Definition DUAL_PDE_ADDRESS_SMALL := Field 115 76.
Definition DUAL_PDE_ADDRESS_SHIFT : Z := 12.
Definition DUAL_PDE_ADDRESS_BIG_SHIFT : Z := 8.
Definition PTE_VALID := Field 0 0.
Definition PTE_APERTURE := Field 2 1.
Definition PTE_PCF := Field 7 3.
Definition PTE_KIND := Field 11 8.
Definition PTE_ADDRESS := Field 51 12.
Definition PTE_ADDRESS_VID := Field 39 12.
Definition PTE_PEER_ID := Field 63 (64 - 3).
Definition PTE_ADDRESS_SHIFT : Z := 12.
Definition PTE_APERTURE_VIDEO_MEMORY : Z := 0.
Definition PTE_APERTURE_PEER_MEMORY : Z := 1.
Definition PTE_APERTURE_SYSTEM_COHERENT_MEMORY : Z := 2.
Definition PCF_SPARSE : Z := 1.
Definition PCF_NO_VALID_4KB_PAGE : Z := 3.
Definition PCF_REGULAR_RW_ATOMIC_CACHED_ACE : Z := 0.
Definition PCF_REGULAR_RW_ATOMIC_UNCACHED_ACE : Z := 1.
Definition PCF_REGULAR_RW_NO_ATOMIC_CACHED_ACE : Z := 8.
Definition PCF_REGULAR_RW_NO_ATOMIC_UNCACHED_ACE : Z := 9.
Definition PCF_REGULAR_RO_NO_ATOMIC_CACHED_ACE : Z := 12.
Definition PCF_REGULAR_RO_NO_ATOMIC_UNCACHED_ACE : Z := 13.
Definition PCF_REGULAR_RW_ATOMIC_CACHED_ACD : Z := 16.
Definition PCF_REGULAR_RW_ATOMIC_UNCACHED_ACD : Z := 17.
Definition PCF_REGULAR_RW_NO_ATOMIC_CACHED_ACD : Z := 24.
Definition PCF_REGULAR_RW_NO_ATOMIC_UNCACHED_ACD : Z := 25.
Definition PCF_REGULAR_RO_NO_ATOMIC_CACHED_ACD : Z := 28.
Definition PCF_REGULAR_RO_NO_ATOMIC_UNCACHED_ACD : Z := 29.
Definition PCF_PRIVILEGE_RO_NO_ATOMIC_UNCACHED_ACD : Z := 31.
Definition KIND_GENERIC_MEMORY : Z := 6.
Definition KIND_SMSKED_MESSAGE : Z := 15.
End VER3.

Module Hopper.
Import VER3.

Definition page_table_depth_hopper (page_size : Z) : Z :=
  if page_size =? UVM_PAGE_SIZE_2M then 4
  else if page_size =? UVM_PAGE_SIZE_512M then 3 else 5.

Definition entries_per_index_hopper (depth : Z) : option Z :=
  UVM_ASSERT (depth <? 6) ;; Some (if depth =? 4 then 2 else 1).

Definition entry_offset_hopper (depth page_size : Z) : option Z :=
  UVM_ASSERT (depth <? 6) ;;
  Some (if (page_size =? UVM_PAGE_SIZE_4K) && (depth =? 4) then MMU_SMALL else MMU_BIG).

Definition entry_size_hopper (depth : Z) : option Z :=
  n ← entries_per_index_hopper depth; Some (n * 8).

Definition bit_widths : list Z := [1; 9; 9; 9; 8].

Definition index_bits_hopper (depth page_size : Z) : option Z :=
  UVM_ASSERT (depth <? 6) ;;
  if depth <? 5 then nthZ bit_widths depth
  else if depth =? 5 then
    if page_size =? UVM_PAGE_SIZE_4K then Some 9
    else if page_size =? UVM_PAGE_SIZE_64K then Some 5 else Some 0
  else Some 0.

Definition num_va_bits_hopper : Z := 57.

Definition allocation_size_hopper (depth page_size : Z) : option Z :=
  UVM_ASSERT (depth <? 6) ;;
  Some (if (depth =? 5) && (page_size =? UVM_PAGE_SIZE_64K) then 256 else 4096).

Definition pte_pcf (prot : uvm_prot_t) (flags : Z) : option Z :=
  let ac := negb (flag_set flags UVM_MMU_PTE_FLAGS_ACCESS_COUNTERS_DISABLED) in
  let cached := flag_set flags UVM_MMU_PTE_FLAGS_CACHED in
  UVM_ASSERT (negb (prot_eqb prot UVM_PROT_NONE)) ;;
  UVM_ASSERT (flags_within flags UVM_MMU_PTE_FLAGS_MASK) ;;
  if ac then
    match prot with
    | UVM_PROT_READ_ONLY => Some (if cached then PCF_REGULAR_RO_NO_ATOMIC_CACHED_ACE
                                  else PCF_REGULAR_RO_NO_ATOMIC_UNCACHED_ACE)
    | UVM_PROT_READ_WRITE => Some (if cached then PCF_REGULAR_RW_NO_ATOMIC_CACHED_ACE
                                   else PCF_REGULAR_RW_NO_ATOMIC_UNCACHED_ACE)
    | UVM_PROT_READ_WRITE_ATOMIC => Some (if cached then PCF_REGULAR_RW_ATOMIC_CACHED_ACE
                                          else PCF_REGULAR_RW_ATOMIC_UNCACHED_ACE)
    | UVM_PROT_NONE => None
    end
  else
    match prot with
    | UVM_PROT_READ_ONLY => Some (if cached then PCF_REGULAR_RO_NO_ATOMIC_CACHED_ACD
                                  else PCF_REGULAR_RO_NO_ATOMIC_UNCACHED_ACD)
    | UVM_PROT_READ_WRITE => Some (if cached then PCF_REGULAR_RW_NO_ATOMIC_CACHED_ACD
                                   else PCF_REGULAR_RW_NO_ATOMIC_UNCACHED_ACD)
    | UVM_PROT_READ_WRITE_ATOMIC => Some (if cached then PCF_REGULAR_RW_ATOMIC_CACHED_ACD
                                          else PCF_REGULAR_RW_ATOMIC_UNCACHED_ACD)
    | UVM_PROT_NONE => None
    end.

Definition pte_aperture_bits (aperture : uvm_aperture_t) : option Z :=
  if aperture_eqb aperture UVM_APERTURE_SYS then Some PTE_APERTURE_SYSTEM_COHERENT_MEMORY
  else if aperture_eqb aperture UVM_APERTURE_VID then Some PTE_APERTURE_VIDEO_MEMORY
  else if aperture_peer_0_7 aperture then Some PTE_APERTURE_PEER_MEMORY
  else None.

Definition make_pte_hopper (aperture : uvm_aperture_t) (address : Z) (prot : uvm_prot_t)
    (flags : Z) : option Z :=
  let pte_bits := HWCONST64 PTE_VALID F_TRUE in
  aperture_bits ← pte_aperture_bits aperture;
  pte_bits ← or_bits pte_bits (HWVALUE64 PTE_APERTURE aperture_bits);
  pcf ← pte_pcf prot flags;
  pte_bits ← or_bits pte_bits (HWVALUE64 PTE_PCF pcf);
  pte_bits ← or_bits pte_bits (HWVALUE64 PTE_KIND KIND_GENERIC_MEMORY);
  let address := Z.shiftr address PTE_ADDRESS_SHIFT in
  if aperture_eqb aperture UVM_APERTURE_VID then
    or_bits pte_bits (HWVALUE64 PTE_ADDRESS_VID address)
  else
    pte_bits ← or_bits pte_bits (HWVALUE64 PTE_ADDRESS address);
    if aperture_peer_0_7 aperture then
      id ← UVM_APERTURE_PEER_ID aperture;
      or_bits pte_bits (HWVALUE64 PTE_PEER_ID id)
    else Some pte_bits.

Definition make_sked_reflected_pte_hopper : option Z :=
  pcf ← pte_pcf UVM_PROT_READ_WRITE_ATOMIC UVM_MMU_PTE_FLAGS_NONE;
  pte_bits ← or_bits (HWCONST64 PTE_VALID F_TRUE) (HWVALUE64 PTE_PCF pcf);
  or_bits pte_bits (HWVALUE64 PTE_KIND KIND_SMSKED_MESSAGE).

Definition make_sparse_pte_hopper : option Z :=
  Some (Z.lor (HWCONST64 PTE_VALID F_FALSE) (HWCONST64 PTE_PCF PCF_SPARSE)).

Definition unmapped_pte_hopper (page_size : Z) : Z :=
  if negb (page_size =? UVM_PAGE_SIZE_64K) then 0
  else Z.lor (HWCONST64 PTE_VALID F_FALSE) (HWCONST64 PTE_PCF PCF_NO_VALID_4KB_PAGE).

Definition poisoned_pte_hopper : option Z :=
  let phys_addr := 187586052096 (* 0x2bad000000 *) in
  pte_bits ← make_pte_hopper UVM_APERTURE_VID phys_addr UVM_PROT_READ_ONLY
               UVM_MMU_PTE_FLAGS_NONE;
  Some (WRITE_HWCONST64 pte_bits PTE_PCF PCF_PRIVILEGE_RO_NO_ATOMIC_UNCACHED_ACD).

Definition single_pde_hopper (ats_enabled : bool)
    (phys_alloc : option uvm_mmu_page_table_alloc_t) (depth : Z) : option Z :=
  match phys_alloc with
  | None => Some 0
  | Some pa =>
      let address := Z.shiftr (pa_address pa) PDE_ADDRESS_SHIFT in
      let pde_bits := HWCONST64 PDE_IS_PTE F_FALSE in
      pde_bits ← pde_switch (pa_aperture pa)
        (Some (Z.lor pde_bits (HWCONST64 PDE_APERTURE PDE_APERTURE_SYSTEM_COHERENT_MEMORY)))
        (Some (Z.lor pde_bits (HWCONST64 PDE_APERTURE PDE_APERTURE_VIDEO_MEMORY)));
      let pde_bits := Z.lor pde_bits (HWCONST64 PDE_PCF
        (if (depth =? 3) && ats_enabled then PCF_VALID_UNCACHED_ATS_NOT_ALLOWED
         else PCF_VALID_UNCACHED_ATS_ALLOWED)) in
      or_bits pde_bits (HWVALUE64 PDE_ADDRESS address)
  end.

Definition big_half_pde_hopper (phys_alloc : option uvm_mmu_page_table_alloc_t) : option Z :=
  match phys_alloc with
  | None => Some 0
  | Some pa =>
      let address := Z.shiftr (pa_address pa) DUAL_PDE_ADDRESS_BIG_SHIFT in
      pde_bits ← pde_switch (pa_aperture pa)
        (Some (HWCONST64 DUAL_PDE_APERTURE_BIG PDE_APERTURE_SYSTEM_COHERENT_MEMORY))
        (Some (HWCONST64 DUAL_PDE_APERTURE_BIG PDE_APERTURE_VIDEO_MEMORY));
      let pde_bits := Z.lor pde_bits
        (HWCONST64 DUAL_PDE_PCF_BIG PCF_VALID_UNCACHED_ATS_NOT_ALLOWED) in
      or_bits pde_bits (HWVALUE64 DUAL_PDE_ADDRESS_BIG address)
  end.

Definition small_half_pde_hopper (phys_alloc : option uvm_mmu_page_table_alloc_t) : option Z :=
  match phys_alloc with
  | None => Some 0
  | Some pa =>
      let address := Z.shiftr (pa_address pa) DUAL_PDE_ADDRESS_SHIFT in
      pde_bits ← pde_switch (pa_aperture pa)
        (Some (HWCONST64 DUAL_PDE_APERTURE_SMALL PDE_APERTURE_SYSTEM_COHERENT_MEMORY))
        (Some (HWCONST64 DUAL_PDE_APERTURE_SMALL PDE_APERTURE_VIDEO_MEMORY));
      let pde_bits := Z.lor pde_bits
        (HWCONST64 DUAL_PDE_PCF_SMALL PCF_VALID_UNCACHED_ATS_NOT_ALLOWED) in
      or_bits pde_bits (HWVALUE64 DUAL_PDE_ADDRESS_SMALL address)
  end.

Definition make_pde_hopper (ats_enabled : bool)
    (phys_allocs : list (option uvm_mmu_page_table_alloc_t)) (depth : Z) : option (list Z) :=
  entry_count ← entries_per_index_hopper depth;
  if entry_count =? 1 then
    a ← alloc_at phys_allocs 0; e ← single_pde_hopper ats_enabled a depth; Some [e]
  else if entry_count =? 2 then
    big ← alloc_at phys_allocs MMU_BIG;
    b ← big_half_pde_hopper big;
    small ← alloc_at phys_allocs MMU_SMALL;
    s ← small_half_pde_hopper small;
    Some [Z.lor b (HWCONST64 DUAL_PDE_IS_PTE F_FALSE); s]
  else None.

Definition hopper_mmu_mode_hal (ats_enabled : bool) : uvm_mmu_mode_hal_t :=
  let h := Ampere.ampere_mmu_mode_hal ats_enabled in
  MmuHal make_pte_hopper make_sked_reflected_pte_hopper make_sparse_pte_hopper
    unmapped_pte_hopper poisoned_pte_hopper (make_pde_hopper ats_enabled) entry_size_hopper
    entries_per_index_hopper entry_offset_hopper index_bits_hopper num_va_bits_hopper
    allocation_size_hopper page_table_depth_hopper (page_sizes h).

Definition uvm_hal_mmu_mode_hopper (ats_enabled : bool) (big_page_size : Z)
  : option (option uvm_mmu_mode_hal_t) :=
  UVM_ASSERT ((big_page_size =? UVM_PAGE_SIZE_64K) || (big_page_size =? UVM_PAGE_SIZE_128K)) ;;
  if big_page_size =? UVM_PAGE_SIZE_128K then Some None
  else Some (Some (hopper_mmu_mode_hal ats_enabled)).
End Hopper.
