(* ===== verification/UvmMmuHalCorrect.v ===== *)
(** Correctness of the MMU mode HALs.

    [decode] reads an entry back the way the GPU MMU of an architecture does
    (the field layout of hwref/*/dev_mmu.h) and yields a [translation], a
    description that is the same for all architectures.  The encoders are
    correct when decoding what they produce gives the request, and the geometry
    functions when the levels of the page tree cover the virtual address. *)

From S2P Require Import Prelude UvmBits UvmMmuHal.
Local Open Scope Z_scope.

(** What a page table entry says. *)
Record translation := Translation {
  t_aperture : uvm_aperture_t;
  t_address : Z;
  t_read_only : bool;
  t_atomics : bool;
  t_cached : bool;
  t_privileged : bool;
  t_no_access_counters : bool;
}.

Definition peer_aperture (id : Z) : uvm_aperture_t :=
  match id with
  | 0 => UVM_APERTURE_PEER_0 | 1 => UVM_APERTURE_PEER_1 | 2 => UVM_APERTURE_PEER_2
  | 3 => UVM_APERTURE_PEER_3 | 4 => UVM_APERTURE_PEER_4 | 5 => UVM_APERTURE_PEER_5
  | 6 => UVM_APERTURE_PEER_6 | _ => UVM_APERTURE_PEER_7
  end.

(** Aperture and address of an entry, from its aperture code: video memory,
    peer memory or system memory (code 3 is not used by the driver). *)
Definition decode_target (code peer vid_address peer_address sys_address : Z)
  : option (uvm_aperture_t * Z) :=
  match code with
  | 0 => Some (UVM_APERTURE_VID, Z.shiftl vid_address 12)
  | 1 => Some (peer_aperture peer, Z.shiftl peer_address 12)
  | 2 => Some (UVM_APERTURE_SYS, Z.shiftl sys_address 12)
  | _ => None
  end.

(** GM107: no control over atomics or access counters. *)
Definition decode_ver1 (pte : Z) : option translation :=
  if DRF_VAL64 VER1.PTE_VALID pte =? 0 then None else
  let vid := DRF_VAL64 VER1.PTE_ADDRESS_VID pte in
  t ← decode_target (DRF_VAL64 VER1.PTE_APERTURE pte) (DRF_VAL64 VER1.PTE_ADDRESS_VID_PEER pte)
        vid vid (DRF_VAL64 VER1.PTE_ADDRESS_SYS pte);
  let ro := DRF_VAL64 VER1.PTE_READ_ONLY pte =? 1 in
  Some (Translation (fst t) (snd t) ro (negb ro)
          (DRF_VAL64 VER1.PTE_VOL pte =? 0) (DRF_VAL64 VER1.PTE_PRIVILEGE pte =? 1) false).

(** GP100 on; [hi] is the field that extends video and peer addresses. *)
Definition decode_ver2 (hi : field) (pte : Z) : option translation :=
  if DRF_VAL64 VER2.PTE_VALID pte =? 0 then None else
  let vid := Z.lor (DRF_VAL64 VER2.PTE_ADDRESS_VID pte) (Z.shiftl (DRF_VAL64 hi pte) 25) in
  t ← decode_target (DRF_VAL64 VER2.PTE_APERTURE pte) (DRF_VAL64 VER2.PTE_ADDRESS_VID_PEER pte)
        vid vid (DRF_VAL64 VER2.PTE_ADDRESS_SYS pte);
  Some (Translation (fst t) (snd t) (DRF_VAL64 VER2.PTE_READ_ONLY pte =? 1)
          (DRF_VAL64 VER2.PTE_ATOMIC_DISABLE pte =? 0) (DRF_VAL64 VER2.PTE_VOL pte =? 0)
          (DRF_VAL64 VER2.PTE_PRIVILEGE pte =? 1) false).

(** GH100: the permission control flags are one bit each: uncached, privilege,
    read-only, no atomics, access counters disabled. *)
Definition decode_ver3 (pte : Z) : option translation :=
  if DRF_VAL64 VER3.PTE_VALID pte =? 0 then None else
  let sys := DRF_VAL64 VER3.PTE_ADDRESS pte in
  t ← decode_target (DRF_VAL64 VER3.PTE_APERTURE pte) (DRF_VAL64 VER3.PTE_PEER_ID pte)
        (DRF_VAL64 VER3.PTE_ADDRESS_VID pte) sys sys;
  let pcf := DRF_VAL64 VER3.PTE_PCF pte in
  Some (Translation (fst t) (snd t) (Z.testbit pcf 2) (negb (Z.testbit pcf 3))
          (negb (Z.testbit pcf 0)) (Z.testbit pcf 1) (Z.testbit pcf 4)).

Inductive arch := AMaxwell64 | AMaxwell128 | APascal | AVolta | ATuring | AAmpere | AHopper.

Definition hal_of (ats : bool) (a : arch) : uvm_mmu_mode_hal_t :=
  match a with
  | AMaxwell64 => Maxwell.maxwell_64_mmu_mode_hal
  | AMaxwell128 => Maxwell.maxwell_128_mmu_mode_hal
  | APascal => Pascal.pascal_mmu_mode_hal
  | AVolta => Volta.volta_mmu_mode_hal ats
  | ATuring => Turing.turing_mmu_mode_hal ats
  | AAmpere => Ampere.ampere_mmu_mode_hal ats
  | AHopper => Hopper.hopper_mmu_mode_hal ats
  end.

Definition decode (a : arch) : Z -> option translation :=
  match a with
  | AMaxwell64 | AMaxwell128 => decode_ver1
  | APascal | AVolta => decode_ver2 VER2.PTE_COMPTAGLINE
  | ATuring | AAmpere => decode_ver2 VER2.PTE_COMPTAGLINE_TU102
  | AHopper => decode_ver3
  end.

(** Bits of a physical address that an entry can hold. *)
Definition address_bits (a : arch) (ap : uvm_aperture_t) : Z :=
  match a, ap with
  | AMaxwell64, UVM_APERTURE_SYS | AMaxwell128, UVM_APERTURE_SYS => 40
  | AMaxwell64, _ | AMaxwell128, _ | APascal, UVM_APERTURE_VID => 37
  | APascal, UVM_APERTURE_SYS | AVolta, UVM_APERTURE_SYS
  | ATuring, UVM_APERTURE_SYS | AAmpere, UVM_APERTURE_SYS => 58
  | APascal, _ => 37
  | AVolta, _ => 55
  | ATuring, _ | AAmpere, _ => 57
  | AHopper, UVM_APERTURE_VID => 40
  | AHopper, _ => 52
  end.

(** The apertures that have memory behind them. *)
Definition mappable (ap : uvm_aperture_t) : bool :=
  aperture_eqb ap UVM_APERTURE_SYS || aperture_eqb ap UVM_APERTURE_VID || uvm_aperture_is_peer ap.

(** What a request to map asks for.  Maxwell cannot forbid atomics on writable
    pages, and only Hopper controls access counters per page. *)
Definition requested (a : arch) (ap : uvm_aperture_t) (address : Z) (prot : uvm_prot_t)
    (flags : Z) : translation :=
  Translation ap address (prot_eqb prot UVM_PROT_READ_ONLY)
    (match a with
     | AMaxwell64 | AMaxwell128 => negb (prot_eqb prot UVM_PROT_READ_ONLY)
     | _ => prot_eqb prot UVM_PROT_READ_WRITE_ATOMIC
     end)
    (flag_set flags UVM_MMU_PTE_FLAGS_CACHED) false
    (match a with AHopper => flag_set flags UVM_MMU_PTE_FLAGS_ACCESS_COUNTERS_DISABLED | _ => false end).

(** ** Field automation *)

Lemma flag_bit_range (b : bool) : 0 <= (if b then F_TRUE else F_FALSE) < 2.
Proof. by destruct b. Qed.
Lemma flag_bit_range' (b : bool) : 0 <= (if b then F_FALSE else F_TRUE) < 2.
Proof. by destruct b. Qed.

(** Discharges [0 <= v < 2 ^ width f]. *)
Ltac fits :=
  match goal with |- 0 <= ?v < 2 ^ width ?f =>
    let w := eval vm_compute in (2 ^ width f) in
    change (0 <= v < w);
    first [apply flag_bit_range|apply flag_bit_range'|lia|by vm_compute]
  end.

(** Encoders: constants and asserted values become [DRF_NUM64]. *)
Ltac encode :=
  unfold or_bits;
  repeat (rewrite const_num by (first [reflexivity|fits]));
  repeat (rewrite hwvalue_fits by (first [reflexivity|fits]); cbn [mbind option_bind]).

(** Decoders: reading a field of a union of disjoint fields. *)
Ltac read_fields :=
  repeat rewrite val_lor; rewrite ?val_0;
  repeat match goal with
  | |- context [DRF_VAL64 ?f (DRF_NUM64 ?g ?v)] =>
      first [ rewrite (val_num_same f v) by (first [reflexivity|fits])
            | rewrite (val_num_other f g v) by reflexivity ]
  end;
  rewrite ?Z.lor_0_l, ?Z.lor_0_r.

(** Aligned addresses below a power of two, shifted. *)
Lemma aligned_number address k n :
  0 <= k <= n -> 0 <= address < 2 ^ n -> address mod 2 ^ k = 0 ->
  0 <= Z.shiftr address k < 2 ^ (n - k) /\ Z.shiftl (Z.shiftr address k) k = address.
Proof.
  intros Hn Ha Hm. rewrite Z.shiftr_div_pow2, Z.shiftl_mul_pow2 by lia.
  assert (Hk : 0 < 2 ^ k) by (apply Z.pow_pos_nonneg; lia).
  pose proof (Z.div_mod address (2 ^ k) ltac:(lia)).
  split; [|lia]. split; [apply Z.div_pos; lia|].
  apply Z.div_lt_upper_bound; [lia|].
  rewrite <- Z.pow_add_r by lia. replace (k + (n - k)) with n by lia. lia.
Qed.

Lemma page_number address n :
  12 <= n -> 0 <= address < 2 ^ n -> address mod 4096 = 0 ->
  0 <= Z.shiftr address 12 < 2 ^ (n - 12) /\ Z.shiftl (Z.shiftr address 12) 12 = address.
Proof. intros. apply aligned_number; [lia|done|done]. Qed.

(** The two halves of a split page number. *)
Lemma split_page_number p k :
  0 <= p < 2 ^ (25 + k) -> 0 <= k ->
  0 <= Z.land p (Z.ones 25) < 2 ^ 25 /\ 0 <= Z.shiftr p 25 < 2 ^ k /\
  Z.lor (Z.land p (Z.ones 25)) (Z.shiftl (Z.shiftr p 25) 25) = p.
Proof.
  intros Hp Hk. split; [rewrite Z.land_ones by lia; apply Z.mod_pos_bound; lia|]. split.
  - rewrite Z.shiftr_div_pow2 by lia. split; [apply Z.div_pos; lia|].
    apply Z.div_lt_upper_bound; [lia|]. rewrite <- Z.pow_add_r by lia. lia.
  - apply Z.bits_inj'. intros i Hi. rewrite Z.lor_spec, Z.land_spec, Z.shiftl_spec by done.
    rewrite Z.testbit_ones_nonneg by lia. destruct (Z.ltb_spec i 25).
    + rewrite (Z.testbit_neg_r _ (i - 25)) by lia. by rewrite andb_true_r, orb_false_r.
    + rewrite Z.shiftr_spec by lia. rewrite andb_false_r. simpl. f_equal. lia.
Qed.

Lemma flags_ok flags : 0 <= flags < 4 -> flags_within flags UVM_MMU_PTE_FLAGS_MASK = true.
Proof.
  intros H. assert (flags = 0 \/ flags = 1 \/ flags = 2 \/ flags = 3)
    as [->|[->|[->| ->]]] by lia; reflexivity.
Qed.

Lemma prot_ok prot : prot <> UVM_PROT_NONE -> prot_eqb prot UVM_PROT_NONE = false.
Proof. intros. by apply bool_decide_eq_false. Qed.

Lemma flag_true_eqb (b : bool) : ((if b then F_TRUE else F_FALSE) =? 1) = b.
Proof. by destruct b. Qed.
Lemma flag_false_eqb (b : bool) : ((if b then F_FALSE else F_TRUE) =? 0) = b.
Proof. by destruct b. Qed.

(** [r] is an entry that the architecture's MMU reads as [t]. *)
Definition encodes (dec : Z -> option translation) (r : option Z) (t : translation) : Prop :=
  exists pte, r = Some pte /\ is_u64 pte /\ dec pte = Some t.

(** Evaluates the bound of a range hypothesis. *)
Ltac eval_bound H :=
  match type of H with
  | 0 <= _ < ?e => let w := eval vm_compute in e in change e with w in H
  end.

Ltac u64_tree := repeat first [apply num_u64 | apply lor_u64].

Ltac finish_encode dec :=
  eexists; split; [reflexivity|]; split; [u64_tree|];
  unfold dec; read_fields.

(** The three kinds of mappable apertures; peers are told apart by their id. *)
Record peer_facts (ap : uvm_aperture_t) (id : Z) : Prop := {
  pf_sys : aperture_eqb ap UVM_APERTURE_SYS = false;
  pf_vid : aperture_eqb ap UVM_APERTURE_VID = false;
  pf_peer : aperture_peer_0_7 ap = true;
  pf_id : UVM_APERTURE_PEER_ID ap = Some id;
  pf_range : 0 <= id < 8;
  pf_back : peer_aperture id = ap;
}.

Lemma mappable_cases ap :
  mappable ap = true ->
  ap = UVM_APERTURE_SYS \/ ap = UVM_APERTURE_VID \/ exists id, peer_facts ap id.
Proof.
  destruct ap; try done; intros _; try (by left); try (by right; left);
    right; right; eexists; by split.
Qed.

Lemma peer_address_bits a ap id :
  peer_facts ap id -> address_bits a ap = address_bits a UVM_APERTURE_PEER_0.
Proof. intros [H1 H2 H3 _ _ _]. by destruct a, ap. Qed.

(** One encoder: case analysis on the aperture, then fields. *)
Ltac peer_rewrites Hpf :=
  rewrite ?(pf_sys _ _ Hpf), ?(pf_vid _ _ Hpf), ?(pf_peer _ _ Hpf), ?(pf_id _ _ Hpf).

Lemma make_pte_maxwell_encodes ap address prot flags :
  mappable ap = true -> prot <> UVM_PROT_NONE -> 0 <= flags < 4 ->
  0 <= address < 2 ^ address_bits AMaxwell64 ap -> address mod 4096 = 0 ->
  encodes decode_ver1 (Maxwell.make_pte_maxwell ap address prot flags)
    (requested AMaxwell64 ap address prot flags).
Proof.
  intros Hap Hp Hfl Hbits Hal.
  unfold Maxwell.make_pte_maxwell. rewrite prot_ok, flags_ok by done.
  assert (Hn : 12 <= address_bits AMaxwell64 ap) by by destruct ap.
  destruct (page_number address _ Hn Hbits Hal) as [Hpn Hback].
  change VER1.PTE_ADDRESS_SHIFT with 12. generalize dependent (Z.shiftr address 12).
  intros p Hpn Hback. clear Hbits Hal Hn.
  apply mappable_cases in Hap as [->|[->|[id Hpf]]]; [..|peer_rewrites Hpf;
    rewrite (peer_address_bits _ _ _ Hpf) in Hpn; pose proof (pf_range _ _ Hpf)];
    eval_bound Hpn; cbn -[HWCONST64 HWVALUE64 Z.lor];
    encode; finish_encode decode_ver1;
    cbn; rewrite flag_true_eqb, flag_false_eqb, Hback; [done..|].
  by rewrite (pf_back _ _ Hpf).
Qed.

(** The control part of a VER2 entry, as fields. *)
Lemma pte_control_bits_fields ap code prot flags :
  prot <> UVM_PROT_NONE -> 0 <= flags < 4 ->
  VER2.pte_aperture_bits ap = Some code -> 0 <= code < 4 ->
  VER2.pte_control_bits ap prot flags =
    Some (Z.lor (Z.lor (Z.lor (Z.lor (Z.lor (Z.lor
      (DRF_NUM64 VER2.PTE_VALID F_TRUE) (DRF_NUM64 VER2.PTE_APERTURE code))
      (DRF_NUM64 VER2.PTE_VOL
         (if flag_set flags UVM_MMU_PTE_FLAGS_CACHED then F_FALSE else F_TRUE)))
      (DRF_NUM64 VER2.PTE_ENCRYPTED F_FALSE)) (DRF_NUM64 VER2.PTE_PRIVILEGE F_FALSE))
      (DRF_NUM64 VER2.PTE_READ_ONLY
         (if prot_eqb prot UVM_PROT_READ_ONLY then F_TRUE else F_FALSE)))
      (DRF_NUM64 VER2.PTE_ATOMIC_DISABLE
         (if prot_eqb prot UVM_PROT_READ_WRITE_ATOMIC then F_FALSE else F_TRUE))).
Proof.
  intros Hp Hfl Hap Hc. unfold VER2.pte_control_bits. rewrite prot_ok, flags_ok, Hap by done.
  cbn [UVM_ASSERT negb mbind option_bind]. by encode.
Qed.

Lemma pte_aperture_bits_peer ap id :
  peer_facts ap id -> VER2.pte_aperture_bits ap = Some VER2.PTE_APERTURE_PEER_MEMORY.
Proof. intros Hpf. unfold VER2.pte_aperture_bits. by peer_rewrites Hpf. Qed.

Lemma make_pte_pascal_encodes ap address prot flags :
  mappable ap = true -> prot <> UVM_PROT_NONE -> 0 <= flags < 4 ->
  0 <= address < 2 ^ address_bits APascal ap -> address mod 4096 = 0 ->
  encodes (decode_ver2 VER2.PTE_COMPTAGLINE) (Pascal.make_pte_pascal ap address prot flags)
    (requested APascal ap address prot flags).
Proof.
  intros Hap Hp Hfl Hbits Hal. unfold Pascal.make_pte_pascal.
  assert (Hn : 12 <= address_bits APascal ap) by by destruct ap.
  destruct (page_number address _ Hn Hbits Hal) as [Hpn Hback].
  change VER2.PTE_ADDRESS_SHIFT with 12. generalize dependent (Z.shiftr address 12).
  intros p Hpn Hback. clear Hbits Hal Hn.
  apply mappable_cases in Hap as [->|[->|[id Hpf]]];
    [..|rewrite (peer_address_bits _ _ _ Hpf) in Hpn; pose proof (pf_range _ _ Hpf)];
    (erewrite pte_control_bits_fields;
      [|done|done|first [reflexivity|by apply (pte_aperture_bits_peer _ id)]|by vm_compute]);
    try peer_rewrites Hpf; eval_bound Hpn; cbn -[HWCONST64 HWVALUE64 Z.lor];
    encode; finish_encode decode_ver2;
    cbn; rewrite flag_true_eqb, !flag_false_eqb, ?Z.lor_0_r, Hback; [done..|].
  by rewrite (pf_back _ _ Hpf).
Qed.

(** The shape of the Volta and Turing encoders after the control part. *)
Definition make_pte_split (hi : field) (kind : Z) (aperture : uvm_aperture_t) (p : Z)
    (prot : uvm_prot_t) (flags : Z) : option Z :=
  pte_bits ← VER2.pte_control_bits aperture prot flags;
  pte_bits ← (if aperture_eqb aperture UVM_APERTURE_SYS then
                or_bits pte_bits (HWVALUE64 VER2.PTE_ADDRESS_SYS p)
              else
                pte_bits ← or_bits pte_bits
                  (HWVALUE64 VER2.PTE_ADDRESS_VID (Z.land p (Z.ones 25)));
                pte_bits ← or_bits pte_bits (HWVALUE64 hi (Z.shiftr p 25));
                if negb (aperture_eqb aperture UVM_APERTURE_VID) then
                  id ← UVM_APERTURE_PEER_ID aperture;
                  or_bits pte_bits (HWVALUE64 VER2.PTE_ADDRESS_VID_PEER id)
                else Some pte_bits);
  or_bits pte_bits (HWVALUE64 VER2.PTE_KIND kind).

Lemma make_pte_split_encodes a hi kind ap address prot flags :
  (a = AVolta /\ hi = VER2.PTE_COMPTAGLINE /\ kind = 0) \/
  (a = ATuring /\ hi = VER2.PTE_COMPTAGLINE_TU102 /\ kind = 6) ->
  mappable ap = true -> prot <> UVM_PROT_NONE -> 0 <= flags < 4 ->
  0 <= address < 2 ^ address_bits a ap -> address mod 4096 = 0 ->
  encodes (decode_ver2 hi) (make_pte_split hi kind ap (Z.shiftr address 12) prot flags)
    (requested a ap address prot flags).
Proof.
  intros Ha Hap Hp Hfl Hbits Hal. unfold make_pte_split.
  assert (Hn : 12 <= address_bits a ap) by by destruct Ha as [(-> & _)|(-> & _)]; destruct ap.
  destruct (page_number address _ Hn Hbits Hal) as [Hpn Hback].
  generalize dependent (Z.shiftr address 12). intros p Hpn Hback. clear Hbits Hal Hn.
  assert (Hsplit : aperture_eqb ap UVM_APERTURE_SYS = false ->
    0 <= Z.land p (Z.ones 25) < 2 ^ 25 /\ 0 <= Z.shiftr p 25 < 2 ^ width hi /\
    Z.lor (Z.land p (Z.ones 25)) (Z.shiftl (Z.shiftr p 25) 25) = p).
  { intros Hs. apply split_page_number; [|by destruct Ha as [(_ & -> & _)|(_ & -> & _)]].
    replace (25 + width hi) with (address_bits a ap - 12); [done|].
    by destruct Ha as [(-> & -> & _)|(-> & -> & _)]; destruct ap. }
  apply mappable_cases in Hap as [->|[->|[id Hpf]]];
    [clear Hsplit| |pose proof (pf_range _ _ Hpf);
      specialize (Hsplit (pf_sys _ _ Hpf))];
    try (specialize (Hsplit eq_refl));
    try (destruct Hsplit as (Hlo & Hhi & Hsplit); clear Hpn;
         generalize dependent (Z.land p (Z.ones 25)); intros lo Hlo Hsplit;
         generalize dependent (Z.shiftr p 25); intros h Hhi Hsplit);
    (erewrite pte_control_bits_fields;
      [|done|done|first [reflexivity|by apply (pte_aperture_bits_peer _ id)]|by vm_compute]);
    try peer_rewrites Hpf;
    destruct Ha as [(-> & -> & ->)|(-> & -> & ->)];
    try eval_bound Hpn; try eval_bound Hlo; try eval_bound Hhi;
    cbn -[HWCONST64 HWVALUE64 Z.lor];
    encode; finish_encode decode_ver2;
    cbn; rewrite flag_true_eqb, !flag_false_eqb, ?Hsplit, Hback; try done.
  all: by rewrite (pf_back _ _ Hpf).
Qed.

Lemma pte_pcf_spec prot flags :
  prot <> UVM_PROT_NONE -> 0 <= flags < 4 ->
  exists pcf, Hopper.pte_pcf prot flags = Some pcf /\ 0 <= pcf < 32 /\
    Z.testbit pcf 0 = negb (flag_set flags UVM_MMU_PTE_FLAGS_CACHED) /\
    Z.testbit pcf 1 = false /\
    Z.testbit pcf 2 = prot_eqb prot UVM_PROT_READ_ONLY /\
    Z.testbit pcf 3 = negb (prot_eqb prot UVM_PROT_READ_WRITE_ATOMIC) /\
    Z.testbit pcf 4 = flag_set flags UVM_MMU_PTE_FLAGS_ACCESS_COUNTERS_DISABLED.
Proof.
  intros Hp Hfl. assert (flags = 0 \/ flags = 1 \/ flags = 2 \/ flags = 3) as Hc by lia.
  destruct prot; [done|..]; destruct Hc as [->|[->|[->| ->]]];
    (eexists; split; [reflexivity|]; by vm_compute).
Qed.

Lemma make_pte_hopper_encodes ap address prot flags :
  mappable ap = true -> prot <> UVM_PROT_NONE -> 0 <= flags < 4 ->
  0 <= address < 2 ^ address_bits AHopper ap -> address mod 4096 = 0 ->
  encodes decode_ver3 (Hopper.make_pte_hopper ap address prot flags)
    (requested AHopper ap address prot flags).
Proof.
  intros Hap Hp Hfl Hbits Hal. unfold Hopper.make_pte_hopper, Hopper.pte_aperture_bits.
  assert (Hn : 12 <= address_bits AHopper ap) by by destruct ap.
  destruct (page_number address _ Hn Hbits Hal) as [Hpn Hback].
  destruct (pte_pcf_spec prot flags Hp Hfl) as (pcf & -> & Hr & H0 & H1 & H2 & H3 & H4).
  change VER3.PTE_ADDRESS_SHIFT with 12. generalize dependent (Z.shiftr address 12).
  intros p Hpn Hback. clear Hbits Hal Hn.
  apply mappable_cases in Hap as [->|[->|[id Hpf]]]; [..|peer_rewrites Hpf;
    rewrite (peer_address_bits _ _ _ Hpf) in Hpn; pose proof (pf_range _ _ Hpf)];
    eval_bound Hpn; cbn -[HWCONST64 HWVALUE64 Z.lor];
    encode; finish_encode decode_ver3;
    cbn -[Z.testbit]; rewrite H0, H1, H2, H3, H4, !negb_involutive, Hback; [done..|].
  by rewrite (pf_back _ _ Hpf).
Qed.

(** Page tables are encoded where the MMU looks for them. *)

(** The location of a child table in one word of a directory entry, read from
    its aperture field, address fields and shift; [None] is an empty half. *)
Definition decode_child (f_aperture f_sys f_vid : field) (shift w : Z)
  : option (option uvm_mmu_page_table_alloc_t) :=
  match DRF_VAL64 f_aperture w with
  | 0 => Some None
  | 1 => Some (Some (PtAlloc UVM_APERTURE_VID (Z.shiftl (DRF_VAL64 f_vid w) shift)))
  | 2 => Some (Some (PtAlloc UVM_APERTURE_SYS (Z.shiftl (DRF_VAL64 f_sys w) shift)))
  | _ => None
  end.

(** The children that an entry points to, per architecture and depth. *)
Definition decode_pde (a : arch) (depth : Z) (entry : list Z)
  : option (list (option uvm_mmu_page_table_alloc_t)) :=
  match a, entry with
  | (AMaxwell64 | AMaxwell128), [w] =>
      b ← decode_child VER1.PDE_APERTURE_BIG VER1.PDE_ADDRESS_BIG_SYS VER1.PDE_ADDRESS_BIG_VID 12 w;
      s ← decode_child VER1.PDE_APERTURE_SMALL VER1.PDE_ADDRESS_SMALL_SYS VER1.PDE_ADDRESS_SMALL_VID 12 w;
      Some [b; s]
  | (APascal | AVolta | ATuring | AAmpere), [w] =>
      c ← decode_child VER2.PDE_APERTURE VER2.PDE_ADDRESS_SYS VER2.PDE_ADDRESS_VID 12 w; Some [c]
  | (APascal | AVolta | ATuring | AAmpere), [w; w'] =>
      b ← decode_child VER2.DUAL_PDE_APERTURE_BIG VER2.DUAL_PDE_ADDRESS_BIG_SYS
            VER2.DUAL_PDE_ADDRESS_BIG_VID 8 w;
      s ← decode_child VER2.DUAL_PDE_APERTURE_SMALL VER2.DUAL_PDE_ADDRESS_SMALL_SYS
            VER2.DUAL_PDE_ADDRESS_SMALL_VID 12 w';
      Some [b; s]
  | AHopper, [w] =>
      c ← decode_child VER3.PDE_APERTURE VER3.PDE_ADDRESS VER3.PDE_ADDRESS 12 w; Some [c]
  | AHopper, [w; w'] =>
      b ← decode_child VER3.DUAL_PDE_APERTURE_BIG VER3.DUAL_PDE_ADDRESS_BIG VER3.DUAL_PDE_ADDRESS_BIG 8 w;
      s ← decode_child VER3.DUAL_PDE_APERTURE_SMALL VER3.DUAL_PDE_ADDRESS_SMALL
            VER3.DUAL_PDE_ADDRESS_SMALL 12 w';
      Some [b; s]
  | _, _ => None
  end.

(** Bits of the address of a child table, and its alignment: 256 bytes for
    the table of big pages below a dual entry of Pascal and later. *)
Definition child_bits (a : arch) (ap : uvm_aperture_t) : Z :=
  match a, ap with
  | AHopper, _ => 52
  | AMaxwell64, UVM_APERTURE_SYS | AMaxwell128, UVM_APERTURE_SYS => 40
  | _, UVM_APERTURE_SYS => 58
  | _, _ => 37
  end.

Definition child_ok (a : arch) (shift : Z) (c : option uvm_mmu_page_table_alloc_t) : Prop :=
  match c with
  | None => True
  | Some pa =>
      (pa_aperture pa = UVM_APERTURE_SYS \/ pa_aperture pa = UVM_APERTURE_VID) /\
      0 <= pa_address pa < 2 ^ child_bits a (pa_aperture pa) /\ pa_address pa mod 2 ^ shift = 0
  end.

(** Children of an index, one or two. *)
Definition children_ok (a : arch) (l : list (option uvm_mmu_page_table_alloc_t)) : Prop :=
  match l with
  | [c] => child_ok a 12 c
  | [b; s] => child_ok a (match a with AMaxwell64 | AMaxwell128 => 12 | _ => 8 end) b /\
              child_ok a 12 s
  | _ => False
  end.

(** An encoder of one child inverts its decoder. *)
Definition child_roundtrip (a : arch) (shift : Z)
    (enc : option uvm_mmu_page_table_alloc_t -> option Z)
    (dec : Z -> option (option uvm_mmu_page_table_alloc_t)) : Prop :=
  forall c, child_ok a shift c -> exists w, enc c = Some w /\ dec w = Some c.

(** It is enough to look at the shifted address. *)
Lemma child_ok_number a shift pa :
  0 <= shift <= 12 -> child_ok a shift (Some pa) ->
  exists n, Z.shiftr (pa_address pa) shift = n /\
    pa = PtAlloc (pa_aperture pa) (Z.shiftl n shift) /\
    ((pa_aperture pa = UVM_APERTURE_SYS /\ 0 <= n < 2 ^ (child_bits a UVM_APERTURE_SYS - shift)) \/
     (pa_aperture pa = UVM_APERTURE_VID /\ 0 <= n < 2 ^ (child_bits a UVM_APERTURE_VID - shift))).
Proof.
  intros Hs (Hap & Hr & Hm). destruct pa as [ap ad]. cbn [pa_aperture pa_address] in *.
  exists (Z.shiftr ad shift). split; [done|].
  apply (aligned_number _ shift) in Hr as [Hn Hb]; [|by destruct Hap as [-> | ->]; destruct a; simpl; lia|done].
  split; [by rewrite Hb|]. destruct Hap as [-> | ->]; [left|right]; done.
Qed.

Ltac unfold_shifts :=
  unfold VER1.PDE_ADDRESS_SHIFT, VER2.PDE_ADDRESS_SHIFT, VER2.DUAL_PDE_ADDRESS_SHIFT,
    VER2.DUAL_PDE_ADDRESS_BIG_SHIFT, VER3.PDE_ADDRESS_SHIFT, VER3.DUAL_PDE_ADDRESS_SHIFT,
    VER3.DUAL_PDE_ADDRESS_BIG_SHIFT in *.

(** Opens a child: its aperture and a number for its shifted address. *)
Ltac open_child Hc :=
  let n := fresh "n" in let Hn := fresh "Hn" in let Hpa := fresh "Hpa" in
  let Hap := fresh "Hap" in let Hr := fresh "Hr" in
  apply child_ok_number in Hc as (n & Hn & Hpa & [[Hap Hr]|[Hap Hr]]); [..|by vm_compute];
  rewrite ?Hap; rewrite Hap in Hpa; eval_bound Hr; unfold_shifts; rewrite ?Hn.

Ltac child_case :=
  cbn -[HWCONST64 HWVALUE64 Z.lor Z.shiftr Z.shiftl]; encode;
  eexists; split; [reflexivity|];
  unfold decode_child; read_fields; cbn -[Z.shiftl Z.shiftr]; congruence.

Ltac child_tac enc :=
  let pa := fresh "pa" in
  intros [pa|] Hc; [unfold enc; open_child Hc; child_case|by exists 0].

Lemma single_pde_pascal_roundtrip :
  child_roundtrip APascal 12 Pascal.single_pde_pascal
    (decode_child VER2.PDE_APERTURE VER2.PDE_ADDRESS_SYS VER2.PDE_ADDRESS_VID 12).
Proof. child_tac Pascal.single_pde_pascal. Qed.

Lemma big_half_pde_pascal_roundtrip :
  child_roundtrip APascal 8 Pascal.big_half_pde_pascal
    (decode_child VER2.DUAL_PDE_APERTURE_BIG VER2.DUAL_PDE_ADDRESS_BIG_SYS
       VER2.DUAL_PDE_ADDRESS_BIG_VID 8).
Proof. child_tac Pascal.big_half_pde_pascal. Qed.

Lemma small_half_pde_pascal_roundtrip :
  child_roundtrip APascal 12 Pascal.small_half_pde_pascal
    (decode_child VER2.DUAL_PDE_APERTURE_SMALL VER2.DUAL_PDE_ADDRESS_SMALL_SYS
       VER2.DUAL_PDE_ADDRESS_SMALL_VID 12).
Proof. child_tac Pascal.small_half_pde_pascal. Qed.

Lemma single_pde_volta_roundtrip ats depth :
  child_roundtrip AVolta 12 (fun c => Volta.single_pde_volta ats c depth)
    (decode_child VER2.PDE_APERTURE VER2.PDE_ADDRESS_SYS VER2.PDE_ADDRESS_VID 12).
Proof.
  unfold Volta.single_pde_volta. generalize ((depth =? 2) && ats). intros b.
  destruct b; child_tac Volta.single_pde_volta.
Qed.

Lemma big_half_pde_volta_roundtrip :
  child_roundtrip AVolta 8 Volta.big_half_pde_volta
    (decode_child VER2.DUAL_PDE_APERTURE_BIG VER2.DUAL_PDE_ADDRESS_BIG_SYS
       VER2.DUAL_PDE_ADDRESS_BIG_VID 8).
Proof. child_tac Volta.big_half_pde_volta. Qed.

Lemma small_half_pde_volta_roundtrip :
  child_roundtrip AVolta 12 Volta.small_half_pde_volta
    (decode_child VER2.DUAL_PDE_APERTURE_SMALL VER2.DUAL_PDE_ADDRESS_SMALL_SYS
       VER2.DUAL_PDE_ADDRESS_SMALL_VID 12).
Proof. child_tac Volta.small_half_pde_volta. Qed.

Lemma single_pde_hopper_roundtrip ats depth :
  child_roundtrip AHopper 12 (fun c => Hopper.single_pde_hopper ats c depth)
    (decode_child VER3.PDE_APERTURE VER3.PDE_ADDRESS VER3.PDE_ADDRESS 12).
Proof.
  unfold Hopper.single_pde_hopper. generalize ((depth =? 3) && ats). intros b.
  destruct b; child_tac Hopper.single_pde_hopper.
Qed.

Lemma big_half_pde_hopper_roundtrip :
  child_roundtrip AHopper 8 Hopper.big_half_pde_hopper
    (decode_child VER3.DUAL_PDE_APERTURE_BIG VER3.DUAL_PDE_ADDRESS_BIG
       VER3.DUAL_PDE_ADDRESS_BIG 8).
Proof. child_tac Hopper.big_half_pde_hopper. Qed.

Lemma small_half_pde_hopper_roundtrip :
  child_roundtrip AHopper 12 Hopper.small_half_pde_hopper
    (decode_child VER3.DUAL_PDE_APERTURE_SMALL VER3.DUAL_PDE_ADDRESS_SMALL
       VER3.DUAL_PDE_ADDRESS_SMALL 12).
Proof. child_tac Hopper.small_half_pde_hopper. Qed.

(** Maxwell keeps both children in one word. *)
Lemma make_pde_maxwell_roundtrip b s :
  child_ok AMaxwell64 12 b -> child_ok AMaxwell64 12 s ->
  exists w, Maxwell.make_pde_maxwell [b; s] 0 = Some [w] /\
    decode_pde AMaxwell64 0 [w] = Some [b; s].
Proof.
  unfold Maxwell.make_pde_maxwell, Maxwell.big_half_pde_maxwell, Maxwell.small_half_pde_maxwell.
  change (alloc_at [b; s] MMU_BIG) with (Some b). change (alloc_at [b; s] MMU_SMALL) with (Some s).
  cbn [mbind option_bind]. intros Hb Hs. destruct b as [pb|], s as [ps|];
    [open_child Hb; open_child Hs|open_child Hb|open_child Hs|by exists 0];
    cbn -[HWCONST64 HWVALUE64 Z.lor Z.shiftr Z.shiftl]; encode;
    (eexists; split; [reflexivity|]; cbn [decode_pde]; unfold decode_child; read_fields;
     cbn -[Z.shiftl Z.shiftr]; congruence).
Qed.

(** Tables are laid out so that a virtual address is consumed exactly. *)
Fixpoint total_index_bits (h : uvm_mmu_mode_hal_t) (depths : list Z) (page_size : Z) : option Z :=
  match depths with
  | [] => Some 0
  | d :: ds => b ← index_bits h d page_size; r ← total_index_bits h ds page_size; Some (b + r)
  end.

(** The page sizes of a mode, from the bits of its mask. *)
Definition supported (h : uvm_mmu_mode_hal_t) (page_size : Z) : Prop :=
  exists n, 0 <= n < 32 /\ page_size = 2 ^ n /\ Z.testbit (page_sizes h) n = true.

Definition supported_sizes (h : uvm_mmu_mode_hal_t) : list Z :=
  (fun n => 2 ^ n) <$> filter (fun n => Z.testbit (page_sizes h) n = true) (up 0 32).

Lemma supported_elem h ps : supported h ps <-> ps ∈ supported_sizes h.
Proof.
  unfold supported, supported_sizes. rewrite list_elem_of_fmap. split.
  - intros (n & Hn & -> & Ht). exists n. split; [done|]. apply list_elem_of_filter.
    split; [done|]. by apply elem_of_up.
  - intros (n & -> & [Ht Hn]%list_elem_of_filter). apply elem_of_up in Hn. eauto.
Qed.

(** One page size of one mode. *)
Definition geometry_at (h : uvm_mmu_mode_hal_t) (ps : Z) : bool :=
  let leaf := page_table_depth h ps in
  bool_decide (total_index_bits h (up 0 (leaf + 1)) ps = Some (num_va_bits h - Z.log2 ps)) &&
  forallb (fun d =>
    match index_bits h d ps, entry_size h d, allocation_size h d ps,
          entries_per_index h d, entry_offset h d ps with
    | Some ib, Some es, Some sz, Some n, Some o =>
        (Z.shiftl es ib <=? sz) && (0 <=? o) && (o <? n)
    | _, _, _, _, _ => false
    end) (up 0 (leaf + 1)).

Lemma geometry_all (ats : bool) (a : arch) :
  forallb (geometry_at (hal_of ats a)) (supported_sizes (hal_of ats a)) = true.
Proof. destruct a, ats; vm_compute; reflexivity. Qed.

(** An address that does not fit is caught by an assertion. *)
Lemma page_number_big address n :
  12 <= n -> 2 ^ n <= address -> 2 ^ (n - 12) <= Z.shiftr address 12.
Proof.
  intros Hn Ha. rewrite Z.shiftr_div_pow2 by lia.
  apply Z.div_le_lower_bound; [lia|]. rewrite <- Z.pow_add_r by lia.
  by replace (12 + (n - 12)) with n by lia.
Qed.

Lemma shiftr_25_big p k : 0 <= k -> 2 ^ (25 + k) <= p -> 2 ^ k <= Z.shiftr p 25.
Proof.
  intros Hk Hp. rewrite (Z.shiftr_div_pow2 _ 25) by lia.
  apply Z.div_le_lower_bound; [lia|]. by rewrite <- Z.pow_add_r by lia.
Qed.

(** Opens a successful chain of binds and collects what was asserted to fit. *)
Ltac open_binds :=
  repeat match goal with
  | H : mbind _ _ = Some _ |- _ => apply bind_Some in H as (? & ? & ?)
  end.

Lemma make_pte_fits ats a ap address prot flags pte :
  mappable ap = true -> make_pte (hal_of ats a) ap address prot flags = Some pte ->
  address < 2 ^ address_bits a ap.
Proof.
  intros Hap Hpte. apply Z.nle_gt. intros Hbig.
  assert (Hn : 12 <= address_bits a ap) by by destruct a, ap.
  pose proof (page_number_big _ _ Hn Hbig) as Hp. clear Hbig Hn.
  destruct a; cbn [hal_of make_pte Maxwell.maxwell_64_mmu_mode_hal Maxwell.maxwell_128_mmu_mode_hal
    Pascal.pascal_mmu_mode_hal Volta.volta_mmu_mode_hal Turing.turing_mmu_mode_hal
    Ampere.ampere_mmu_mode_hal Hopper.hopper_mmu_mode_hal] in Hpte.
  all: unfold Maxwell.make_pte_maxwell, Pascal.make_pte_pascal, Volta.make_pte_volta,
    Turing.make_pte_turing, Hopper.make_pte_hopper, or_bits,
    VER1.PTE_ADDRESS_SHIFT, VER2.PTE_ADDRESS_SHIFT, VER3.PTE_ADDRESS_SHIFT in Hpte.
  all: change (HWSIZE VER2.PTE_ADDRESS_VID) with 25 in Hpte.
  all: apply mappable_cases in Hap as [->|[->|[id Hpf]]];
    [..|rewrite (peer_address_bits _ _ _ Hpf) in Hp;
        rewrite ?(pf_sys _ _ Hpf), ?(pf_vid _ _ Hpf) in Hpte].
  all: cbn [aperture_eqb aperture_val Z.eqb Pos.eqb] in Hpte.
  all: open_binds.
  all: first [pose proof (shiftr_25_big _ 18 ltac:(lia) Hp) as Hhi
             |pose proof (shiftr_25_big _ 20 ltac:(lia) Hp) as Hhi|idtac].
  all: repeat match goal with
    | H : HWVALUE64 _ (Z.shiftr _ _) = Some _ |- _ =>
        apply hwvalue_inv in H as [? _]; [|reflexivity]
    end.
  all: repeat match goal with
    | H : 0 <= _ < ?e |- _ => progress eval_bound H
    | H : ?e <= _ |- _ => let w := eval vm_compute in e in progress change e with w in H
    end.
  all: lia.
Qed.

(** ** The properties *)

Lemma make_pte_reads ats a ap address prot flags :
  mappable ap = true -> prot <> UVM_PROT_NONE -> 0 <= flags < 4 ->
  0 <= address < 2 ^ address_bits a ap -> address mod 4096 = 0 ->
  exists pte, make_pte (hal_of ats a) ap address prot flags = Some pte /\ is_u64 pte /\
              decode a pte = Some (requested a ap address prot flags).
Proof.
  intros Hap Hp Hfl Hb Hal. destruct a.
  - by apply make_pte_maxwell_encodes.
  - by apply make_pte_maxwell_encodes.
  - by apply make_pte_pascal_encodes.
  - by apply (make_pte_split_encodes AVolta VER2.PTE_COMPTAGLINE 0); auto.
  - by apply (make_pte_split_encodes ATuring VER2.PTE_COMPTAGLINE_TU102 6); auto.
  - by apply (make_pte_split_encodes ATuring VER2.PTE_COMPTAGLINE_TU102 6); auto.
  - by apply make_pte_hopper_encodes.
Qed.

(** C29. On every architecture, mapping a page-aligned address that fits makes
    an entry that fits in 64 bits and that the MMU reads as exactly the
    requested translation: the aperture (peer id included), the address, the
    protection, the cacheability, not privileged. *)
Theorem make_pte_roundtrip ats a ap address prot flags :
  mappable ap = true -> prot <> UVM_PROT_NONE -> 0 <= flags < 4 ->
  0 <= address < 2 ^ address_bits a ap -> address mod 4096 = 0 ->
  exists pte, make_pte (hal_of ats a) ap address prot flags = Some pte /\ is_u64 pte /\
              decode a pte = Some (requested a ap address prot flags).
Proof. apply make_pte_reads. Qed.

(** No encoder truncates an address: one that has more bits than the
    entry is stopped by an assertion. *)
Theorem make_pte_no_truncation ats a ap address prot flags :
  mappable ap = true -> 2 ^ address_bits a ap <= address ->
  make_pte (hal_of ats a) ap address prot flags = None.
Proof.
  intros Hap Hbig. destruct (make_pte _ _ _ _ _) eqn:E; [|done].
  apply make_pte_fits in E; [lia|done].
Qed.


(** Composition of one or two children into an entry. *)
Lemma pde_single (enc : option uvm_mmu_page_table_alloc_t -> option Z) dec a c :
  child_roundtrip a 12 enc dec -> child_ok a 12 c ->
  exists w, (e ← enc c; Some [e]) = Some [w] /\ (x ← dec w; Some [x]) = Some [c].
Proof. intros H Hc. destruct (H c Hc) as (w & -> & Hw). exists w. by rewrite Hw. Qed.

Lemma pde_dual encb decb encs decs a b s k :
  child_roundtrip a 8 encb decb -> child_roundtrip a 12 encs decs ->
  child_ok a 8 b -> child_ok a 12 s -> k = 0 ->
  exists w w', (x ← encb b; y ← encs s; Some [Z.lor x k; y]) = Some [w; w'] /\
               (x ← decb w; y ← decs w'; Some [x; y]) = Some [b; s].
Proof.
  intros Hb Hs Hbok Hsok ->. destruct (Hb b Hbok) as (w & -> & Hw).
  destruct (Hs s Hsok) as (w' & -> & Hw'). exists w, w'. cbn [mbind option_bind].
  by rewrite Z.lor_0_r, Hw, Hw'.
Qed.

Ltac single_entry Hc R :=
  let w := fresh "w" in let Hw := fresh in let Hdec := fresh in
  destruct (pde_single _ _ _ _ R Hc) as (w & Hw & Hdec);
  exists [w]; split; [exact Hw|split; [exact Hdec|reflexivity]].
Ltac dual_entry Hb Hs Rb Rs :=
  let w := fresh "w" in let w' := fresh "w'" in let Hw := fresh in let Hdec := fresh in
  destruct (pde_dual _ _ _ _ _ _ _ 0 Rb Rs Hb Hs eq_refl) as (w & w' & Hw & Hdec);
  exists [w; w']; split; [exact Hw|split; [exact Hdec|reflexivity]].

Lemma make_pde_reads ats a depth children :
  0 <= depth < page_table_depth (hal_of ats a) UVM_PAGE_SIZE_4K ->
  entries_per_index (hal_of ats a) depth = Some (Z.of_nat (length children)) ->
  children_ok a children ->
  exists entry, make_pde (hal_of ats a) children depth = Some entry /\
    decode_pde a depth entry = Some children /\
    entry_size (hal_of ats a) depth = Some (8 * Z.of_nat (length entry)).
Proof.
  intros Hd Hn Hch.
  assert (Hcases : depth = 0 \/ depth = 1 \/ depth = 2 \/ depth = 3 \/ depth = 4).
  { destruct a; eval_bound Hd; lia. }
  destruct children as [|c [|s [|]]]; [done|..|done]; simpl in Hch; destruct a;
    destruct Hcases as [->|[->|[->|[->| ->]]]]; try (by vm_compute in Hn);
    try (exfalso; eval_bound Hd; lia).
  all: try (destruct Hch as [Hb Hs]).
  all: try single_entry Hch (single_pde_pascal_roundtrip).
  all: try match goal with |- context [make_pde _ _ ?d] =>
      first [single_entry Hch (single_pde_volta_roundtrip ats d)
            |single_entry Hch (single_pde_hopper_roundtrip ats d)] end.
  all: try dual_entry Hb Hs big_half_pde_pascal_roundtrip small_half_pde_pascal_roundtrip.
  all: try dual_entry Hb Hs big_half_pde_volta_roundtrip small_half_pde_volta_roundtrip.
  all: try dual_entry Hb Hs big_half_pde_hopper_roundtrip small_half_pde_hopper_roundtrip.
  all: destruct (make_pde_maxwell_roundtrip c s Hb Hs) as (w & Hw & Hdec);
    exists [w]; split; [exact Hw|split; [exact Hdec|reflexivity]].
Qed.

(** C30. A page directory entry points to the tables it was made from: reading
    it back gives the location of every child, for single entries and for the
    two halves of dual entries, and the entry has the size the HAL reports. *)
Theorem make_pde_roundtrip ats a depth children :
  0 <= depth < page_table_depth (hal_of ats a) UVM_PAGE_SIZE_4K ->
  entries_per_index (hal_of ats a) depth = Some (Z.of_nat (length children)) ->
  children_ok a children ->
  exists entry, make_pde (hal_of ats a) children depth = Some entry /\
    decode_pde a depth entry = Some children /\
    entry_size (hal_of ats a) depth = Some (8 * Z.of_nat (length entry)).
Proof. apply make_pde_reads. Qed.

(** Page tree geometry: on every architecture and for every supported page
    size, the index bits of the levels down to the page table and the bits of
    the page offset add up to the width of the virtual address; at each level
    the table's allocation holds all its entries and the offset of an entry
    lies within its index. *)
Theorem page_tree_geometry ats a ps :
  supported (hal_of ats a) ps ->
  let h := hal_of ats a in
  total_index_bits h (up 0 (page_table_depth h ps + 1)) ps = Some (num_va_bits h - Z.log2 ps) /\
  forall d, 0 <= d <= page_table_depth h ps ->
    exists ib es sz n o,
      index_bits h d ps = Some ib /\ entry_size h d = Some es /\
      allocation_size h d ps = Some sz /\ entries_per_index h d = Some n /\
      entry_offset h d ps = Some o /\ Z.shiftl es ib <= sz /\ 0 <= o < n.
Proof.
  intros Hps%supported_elem h. pose proof (geometry_all ats a) as Hg. fold h in Hg, Hps.
  apply list_elem_of_In, (proj1 (forallb_forall _ _) Hg ps), andb_true_iff in Hps as [Hb Hl].
  apply bool_decide_eq_true in Hb. split; [done|]. intros d Hd.
  assert (Hin : In d (up 0 (page_table_depth h ps + 1))).
  { apply list_elem_of_In, elem_of_up. lia. }
  apply (proj1 (forallb_forall _ _) Hl) in Hin. repeat case_match; try done.
  zify_bool. do 5 eexists. repeat split; try done; lia.
Qed.

(** The page size whose unmapped entries must hide the 4K tables below. *)
Definition big_page_size (a : arch) : Z :=
  match a with AMaxwell128 => UVM_PAGE_SIZE_128K | _ => UVM_PAGE_SIZE_64K end.

(** Sparse mappings exist from Pascal on. *)
Definition sparse_supported (a : arch) : bool :=
  match a with AMaxwell64 | AMaxwell128 => false | _ => true end.

Definition special_at (h : uvm_mmu_mode_hal_t) (a : arch) (ps : Z) : bool :=
  (if decode a (unmapped_pte h ps) is Some _ then false else true) &&
  Bool.eqb (negb (unmapped_pte h ps =? 0)) (ps =? big_page_size a) &&
  match poisoned_pte h with
  | Some p => match decode a p with
              | Some t => t_privileged t && t_read_only t &&
                          bool_decide (t_aperture t = UVM_APERTURE_VID)
              | None => false
              end
  | None => false
  end &&
  (if sparse_supported a then
     match make_sparse_pte h with
     | Some p => (if decode a p is Some _ then false else true) &&
                 negb (p =? 0) && negb (p =? unmapped_pte h ps)
     | None => false
     end
   else true).

Lemma special_all ats a :
  forallb (special_at (hal_of ats a) a) (supported_sizes (hal_of ats a)) = true.
Proof. destruct a, ats; vm_compute; reflexivity. Qed.

(** The entries that map nothing: an unmapped entry is invalid for the MMU
    and is different from the all-zero entry exactly for big pages; a sparse
    entry (Pascal on) is invalid and neither zero nor unmapped; a poisoned
    entry is valid, privileged and read-only. *)
Theorem special_ptes ats a ps :
  supported (hal_of ats a) ps ->
  let h := hal_of ats a in
  decode a (unmapped_pte h ps) = None /\
  (unmapped_pte h ps <> 0 <-> ps = big_page_size a) /\
  (exists p t, poisoned_pte h = Some p /\ decode a p = Some t /\
     t_privileged t = true /\ t_read_only t = true /\ t_aperture t = UVM_APERTURE_VID) /\
  (a <> AMaxwell64 -> a <> AMaxwell128 ->
   exists p, make_sparse_pte h = Some p /\ decode a p = None /\ p <> 0 /\ p <> unmapped_pte h ps).
Proof.
  intros Hps%supported_elem h.
  apply list_elem_of_In, (proj1 (forallb_forall _ _) (special_all ats a) ps) in Hps.
  unfold special_at in Hps. fold h in Hps. zify_bool.
  split; [by destruct (decode a _)|]. split; [|split].
  - match goal with H : Bool.eqb _ _ = true |- _ => apply eqb_prop in H; rename H into He end.
    destruct (Z.eqb_spec (unmapped_pte h ps) 0), (Z.eqb_spec ps (big_page_size a)); try done;
      intuition congruence.
  - destruct (poisoned_pte h) as [p|]; [|done]. destruct (decode a p) as [t|] eqn:Hd; [|done].
    exists p, t. zify_bool. repeat split; try done. by apply (proj1 (bool_decide_eq_true _)).
  - intros H64 H128. destruct (sparse_supported a) eqn:Hs; [|by destruct a].
    destruct (make_sparse_pte h) as [p|]; [|done]. destruct (decode a p) eqn:Hd; [done|].
    exists p. zify_bool. done.
Qed.

(** ** Witnesses *)

Lemma make_pte_roundtrip_witness :
  exists pte, make_pte (hal_of false AAmpere) UVM_APERTURE_VID 1073741824
                UVM_PROT_READ_WRITE_ATOMIC 1 = Some pte /\ is_u64 pte /\
    decode AAmpere pte = Some (requested AAmpere UVM_APERTURE_VID 1073741824
                                 UVM_PROT_READ_WRITE_ATOMIC 1).
Proof. apply make_pte_roundtrip; [reflexivity|discriminate|lia|vm_compute; intuition discriminate|reflexivity]. Defined.

Lemma make_pte_no_truncation_witness :
  make_pte (hal_of false APascal) UVM_APERTURE_VID (2 ^ 37) UVM_PROT_READ_WRITE 0 = None.
Proof. apply make_pte_no_truncation; [reflexivity|vm_compute; discriminate]. Defined.

Lemma make_pde_roundtrip_witness :
  exists entry, make_pde (hal_of true AHopper)
      [Some (PtAlloc UVM_APERTURE_VID 256); Some (PtAlloc UVM_APERTURE_SYS 8192)] 4 = Some entry /\
    decode_pde AHopper 4 entry =
      Some [Some (PtAlloc UVM_APERTURE_VID 256); Some (PtAlloc UVM_APERTURE_SYS 8192)] /\
    entry_size (hal_of true AHopper) 4 = Some (8 * Z.of_nat (length entry)).
Proof.
  apply make_pde_roundtrip; [vm_compute; intuition discriminate|reflexivity|].
  split; (split; [auto|vm_compute; intuition discriminate]).
Defined.

Lemma page_tree_geometry_witness :
  let h := hal_of false AAmpere in
  total_index_bits h (up 0 (page_table_depth h 65536 + 1)) 65536 =
    Some (num_va_bits h - Z.log2 65536) /\
  forall d, 0 <= d <= page_table_depth h 65536 ->
    exists ib es sz n o,
      index_bits h d 65536 = Some ib /\ entry_size h d = Some es /\
      allocation_size h d 65536 = Some sz /\ entries_per_index h d = Some n /\
      entry_offset h d 65536 = Some o /\ Z.shiftl es ib <= sz /\ 0 <= o < n.
Proof. apply page_tree_geometry. exists 16. vm_compute. intuition discriminate. Defined.

Lemma special_ptes_witness :
  let h := hal_of false AVolta in
  decode AVolta (unmapped_pte h 65536) = None /\
  (unmapped_pte h 65536 <> 0 <-> 65536 = big_page_size AVolta) /\
  (exists p t, poisoned_pte h = Some p /\ decode AVolta p = Some t /\
     t_privileged t = true /\ t_read_only t = true /\ t_aperture t = UVM_APERTURE_VID) /\
  (AVolta <> AMaxwell64 -> AVolta <> AMaxwell128 ->
   exists p, make_sparse_pte h = Some p /\ decode AVolta p = None /\ p <> 0 /\
             p <> unmapped_pte h 65536).
Proof. apply special_ptes. exists 16. vm_compute. intuition discriminate. Defined.
