(* ===== verification/UvmFaultIds.v ===== *)
(** Decoding of fault packets: from the client and engine ids that the MMU
    reports to the uTLB and the engine type that the fault handler services
    (the *_client_id_to_utlb_id and *_engine_id_to_type functions of the
    per-architecture MMU HALs).  The ids are those of hwref/*/dev_fault.h. *)

From S2P Require Import Prelude UvmBits.
Local Open Scope Z_scope.

(** A [case] list of a switch. *)
Definition client_in (client_id : Z) (l : list Z) : bool := existsb (Z.eqb client_id) l.

(** The enumerators of uvm_*_fault_buffer.h have the same values on every
    architecture; each has its own number of uTLBs per GPC. *)
Module Utlb.
Definition UTLB_RGG : Z := 0.
Definition UTLB_LTP0 : Z := 1.
Definition UTLB_LTP1 : Z := 2.
Definition UTLB_LTP2 : Z := 3.
Definition UTLB_LTP3 : Z := 4.
Definition UTLB_LTP4 : Z := 5.
Definition UTLB_LTP5 : Z := 6.
Definition UTLB_LTP6 : Z := 7.
Definition UTLB_LTP7 : Z := 8.
Definition UTLB_LTP8 : Z := 9.
Definition UTLB_LTP9 : Z := 10.
Definition UTLB_LTP10 : Z := 11.
Definition UTLB_LTP11 : Z := 12.
Definition UTLB_LTP12 : Z := 13.
Definition UTLB_LTP13 : Z := 14.
Definition UTLB_LTP14 : Z := 15.
Definition UTLB_LTP15 : Z := 16.
Definition UTLB_LTP16 : Z := 17.
Definition UTLB_LTP17 : Z := 18.
Definition PASCAL_COUNT : Z := 6.
Definition VOLTA_COUNT : Z := 9.
Definition AMPERE_COUNT : Z := 17.
Definition HOPPER_COUNT : Z := 19.
End Utlb.

Module PascalClient.
Import Utlb.
Definition RAST : Z := 12.
Definition GCC : Z := 13.
Definition GPCCS : Z := 14.
Definition PE_0 : Z := 2.
Definition TPCCS_0 : Z := 48.
Definition L1_0 : Z := 0.
Definition T1_0 : Z := 1.
Definition L1_1 : Z := 3.
Definition T1_1 : Z := 4.
Definition PE_1 : Z := 5.
Definition TPCCS_1 : Z := 49.
Definition L1_2 : Z := 6.
Definition T1_2 : Z := 7.
Definition L1_3 : Z := 9.
Definition T1_3 : Z := 10.
Definition PE_2 : Z := 8.
Definition TPCCS_2 : Z := 50.
Definition L1_4 : Z := 20.
Definition T1_4 : Z := 21.
Definition L1_5 : Z := 23.
Definition T1_5 : Z := 24.
Definition PE_3 : Z := 11.
Definition TPCCS_3 : Z := 51.
Definition L1_6 : Z := 26.
Definition T1_6 : Z := 27.
Definition L1_7 : Z := 29.
Definition T1_7 : Z := 30.
Definition PE_4 : Z := 22.
Definition TPCCS_4 : Z := 52.
Definition L1_8 : Z := 32.
Definition T1_8 : Z := 33.
Definition L1_9 : Z := 35.
Definition T1_9 : Z := 36.

(** [None] is the failed assertion of the default case. *)
Definition uvm_hal_pascal_mmu_client_id_to_utlb_id (client_id : Z) : option Z :=
  if client_in client_id [RAST; GCC; GPCCS] then Some UTLB_RGG else
  if client_in client_id [PE_0; TPCCS_0; L1_0; T1_0; L1_1; T1_1] then Some UTLB_LTP0 else
  if client_in client_id [PE_1; TPCCS_1; L1_2; T1_2; L1_3; T1_3] then Some UTLB_LTP1 else
  if client_in client_id [PE_2; TPCCS_2; L1_4; T1_4; L1_5; T1_5] then Some UTLB_LTP2 else
  if client_in client_id [PE_3; TPCCS_3; L1_6; T1_6; L1_7; T1_7] then Some UTLB_LTP3 else
  if client_in client_id [PE_4; TPCCS_4; L1_8; T1_8; L1_9; T1_9] then Some UTLB_LTP4 else
  None.
End PascalClient.

(** GV100, GA100 and GH100 number their clients alike. *)
Module VoltaClient.
Import Utlb.
Definition RAST : Z := 16.
Definition GCC : Z := 17.
Definition GPCCS : Z := 18.
Definition PE_0 : Z := 8.
Definition TPCCS_0 : Z := 41.
Definition T1_0 : Z := 0.
Definition T1_1 : Z := 1.
Definition PE_1 : Z := 9.
Definition TPCCS_1 : Z := 42.
Definition T1_2 : Z := 2.
Definition T1_3 : Z := 3.
Definition PE_2 : Z := 10.
Definition TPCCS_2 : Z := 43.
Definition T1_4 : Z := 4.
Definition T1_5 : Z := 5.
Definition PE_3 : Z := 11.
Definition TPCCS_3 : Z := 44.
Definition T1_6 : Z := 6.
Definition T1_7 : Z := 7.
Definition PE_4 : Z := 12.
Definition TPCCS_4 : Z := 45.
Definition T1_8 : Z := 33.
Definition T1_9 : Z := 34.
Definition PE_5 : Z := 13.
Definition TPCCS_5 : Z := 46.
Definition T1_10 : Z := 35.
Definition T1_11 : Z := 36.
Definition PE_6 : Z := 14.
Definition TPCCS_6 : Z := 47.
Definition T1_12 : Z := 37.
Definition T1_13 : Z := 38.
Definition PE_7 : Z := 15.
Definition TPCCS_7 : Z := 48.
Definition T1_14 : Z := 39.
Definition T1_15 : Z := 40.
Definition T1_16 : Z := 53.
Definition T1_17 : Z := 54.
Definition PE_8 : Z := 49.
Definition TPCCS_8 : Z := 51.

Definition uvm_hal_volta_mmu_client_id_to_utlb_id (client_id : Z) : option Z :=
  if client_in client_id [RAST; GCC; GPCCS] then Some UTLB_RGG else
  if client_in client_id [PE_0; TPCCS_0; T1_0; T1_1] then Some UTLB_LTP0 else
  if client_in client_id [PE_1; TPCCS_1; T1_2; T1_3] then Some UTLB_LTP1 else
  if client_in client_id [PE_2; TPCCS_2; T1_4; T1_5] then Some UTLB_LTP2 else
  if client_in client_id [PE_3; TPCCS_3; T1_6; T1_7] then Some UTLB_LTP3 else
  if client_in client_id [PE_4; TPCCS_4; T1_8; T1_9] then Some UTLB_LTP4 else
  if client_in client_id [PE_5; TPCCS_5; T1_10; T1_11] then Some UTLB_LTP5 else
  if client_in client_id [PE_6; TPCCS_6; T1_12; T1_13] then Some UTLB_LTP6 else
  if client_in client_id [PE_7; TPCCS_7; T1_14; T1_15] then Some UTLB_LTP7 else
  None.

Definition uvm_hal_ampere_mmu_client_id_to_utlb_id (client_id : Z) : option Z :=
  if client_in client_id [RAST; GCC; GPCCS] then Some UTLB_RGG else
  if client_in client_id [T1_0] then Some UTLB_LTP0 else
  if client_in client_id [T1_1; PE_0; TPCCS_0] then Some UTLB_LTP1 else
  if client_in client_id [T1_2] then Some UTLB_LTP2 else
  if client_in client_id [T1_3; PE_1; TPCCS_1] then Some UTLB_LTP3 else
  if client_in client_id [T1_4] then Some UTLB_LTP4 else
  if client_in client_id [T1_5; PE_2; TPCCS_2] then Some UTLB_LTP5 else
  if client_in client_id [T1_6] then Some UTLB_LTP6 else
  if client_in client_id [T1_7; PE_3; TPCCS_3] then Some UTLB_LTP7 else
  if client_in client_id [T1_8] then Some UTLB_LTP8 else
  if client_in client_id [T1_9; PE_4; TPCCS_4] then Some UTLB_LTP9 else
  if client_in client_id [T1_10] then Some UTLB_LTP10 else
  if client_in client_id [T1_11; PE_5; TPCCS_5] then Some UTLB_LTP11 else
  if client_in client_id [T1_12] then Some UTLB_LTP12 else
  if client_in client_id [T1_13; PE_6; TPCCS_6] then Some UTLB_LTP13 else
  if client_in client_id [T1_14] then Some UTLB_LTP14 else
  if client_in client_id [T1_15; PE_7; TPCCS_7] then Some UTLB_LTP15 else
  None.

Definition uvm_hal_hopper_mmu_client_id_to_utlb_id (client_id : Z) : option Z :=
  if client_in client_id [RAST; GCC; GPCCS] then Some UTLB_RGG else
  if client_in client_id [T1_0] then Some UTLB_LTP0 else
  if client_in client_id [T1_1; PE_0; TPCCS_0] then Some UTLB_LTP1 else
  if client_in client_id [T1_2] then Some UTLB_LTP2 else
  if client_in client_id [T1_3; PE_1; TPCCS_1] then Some UTLB_LTP3 else
  if client_in client_id [T1_4] then Some UTLB_LTP4 else
  if client_in client_id [T1_5; PE_2; TPCCS_2] then Some UTLB_LTP5 else
  if client_in client_id [T1_6] then Some UTLB_LTP6 else
  if client_in client_id [T1_7; PE_3; TPCCS_3] then Some UTLB_LTP7 else
  if client_in client_id [T1_8] then Some UTLB_LTP8 else
  if client_in client_id [T1_9; PE_4; TPCCS_4] then Some UTLB_LTP9 else
  if client_in client_id [T1_10] then Some UTLB_LTP10 else
  if client_in client_id [T1_11; PE_5; TPCCS_5] then Some UTLB_LTP11 else
  if client_in client_id [T1_12] then Some UTLB_LTP12 else
  if client_in client_id [T1_13; PE_6; TPCCS_6] then Some UTLB_LTP13 else
  if client_in client_id [T1_14] then Some UTLB_LTP14 else
  if client_in client_id [T1_15; PE_7; TPCCS_7] then Some UTLB_LTP15 else
  if client_in client_id [T1_16] then Some UTLB_LTP16 else
  if client_in client_id [T1_17; PE_8; TPCCS_8] then Some UTLB_LTP17 else
  None.
End VoltaClient.

Inductive uvm_mmu_engine_type_t :=
| UVM_MMU_ENGINE_TYPE_GRAPHICS | UVM_MMU_ENGINE_TYPE_HOST | UVM_MMU_ENGINE_TYPE_CE.

(** Ranges of engine ids, as the HAL of one architecture compares them. *)
Record engine_ids := EngineIds {
  ENG_ID_HOST0 : Z; ENG_ID_HOST_LAST : Z;
  ENG_ID_CE0 : Z; ENG_ID_CE_LAST : Z;
  ENG_ID_GRAPHICS : Z; ENG_ID_END : Z;
}.

(** GV100 and GH100 do not bound the graphics engines: the end is that of the
    16-bit id. *)
Definition volta_engine_ids : engine_ids := EngineIds 32 45 15 23 64 65536.
Definition turing_engine_ids : engine_ids := EngineIds 32 46 15 23 64 128.
Definition ampere_engine_ids : engine_ids := EngineIds 32 63 15 24 64 128.
Definition hopper_engine_ids : engine_ids := EngineIds 64 108 43 52 384 65536.

Definition mmu_engine_id_to_type (ids : engine_ids) (mmu_engine_id : Z)
  : option uvm_mmu_engine_type_t :=
  if (ENG_ID_HOST0 ids <=? mmu_engine_id) && (mmu_engine_id <=? ENG_ID_HOST_LAST ids)
  then Some UVM_MMU_ENGINE_TYPE_HOST
  else if (ENG_ID_CE0 ids <=? mmu_engine_id) && (mmu_engine_id <=? ENG_ID_CE_LAST ids)
  then Some UVM_MMU_ENGINE_TYPE_CE
  else UVM_ASSERT ((ENG_ID_GRAPHICS ids <=? mmu_engine_id) && (mmu_engine_id <? ENG_ID_END ids)) ;;
       Some UVM_MMU_ENGINE_TYPE_GRAPHICS.

Definition uvm_hal_volta_mmu_engine_id_to_type := mmu_engine_id_to_type volta_engine_ids.
Definition uvm_hal_turing_mmu_engine_id_to_type := mmu_engine_id_to_type turing_engine_ids.
Definition uvm_hal_ampere_mmu_engine_id_to_type := mmu_engine_id_to_type ampere_engine_ids.
Definition uvm_hal_hopper_mmu_engine_id_to_type := mmu_engine_id_to_type hopper_engine_ids.

(** ** What the decoding guarantees *)

(** A decoder that uses exactly the uTLBs of a GPC: what it returns indexes an
    array of [count] uTLBs, and every uTLB has a client. *)
Definition utlb_decoder (f : Z -> option Z) (count : Z) : Prop :=
  (forall c u, f c = Some u -> 0 <= u < count) /\
  (forall u, 0 <= u < count -> exists c, 0 <= c < 128 /\ f c = Some u).

(** Surjectivity is a finite check. *)
Lemma utlb_onto f count :
  forallb (fun u => existsb (fun c => bool_decide (f c = Some u)) (up 0 128)) (up 0 count) = true ->
  forall u, 0 <= u < count -> exists c, 0 <= c < 128 /\ f c = Some u.
Proof.
  intros H u Hu. assert (Hin : In u (up 0 count)) by by apply list_elem_of_In, elem_of_up.
  apply (proj1 (forallb_forall _ _) H) in Hin.
  apply existsb_exists in Hin as (c & Hc & Hf%bool_decide_eq_true).
  apply list_elem_of_In, elem_of_up in Hc. eauto.
Qed.

Ltac utlb_range :=
  let c := fresh in let u := fresh in
  intros c u; repeat (case_match; [intros [= <-]; vm_compute; intuition discriminate|]); done.

(** Every architecture's decoder of fault clients returns only ids of
    uTLBs that the GPC has, so the per-uTLB arrays of the fault handler are
    indexed in range, and no uTLB is without a client. *)
Theorem client_id_to_utlb_id_correct :
  utlb_decoder PascalClient.uvm_hal_pascal_mmu_client_id_to_utlb_id Utlb.PASCAL_COUNT /\
  utlb_decoder VoltaClient.uvm_hal_volta_mmu_client_id_to_utlb_id Utlb.VOLTA_COUNT /\
  utlb_decoder VoltaClient.uvm_hal_ampere_mmu_client_id_to_utlb_id Utlb.AMPERE_COUNT /\
  utlb_decoder VoltaClient.uvm_hal_hopper_mmu_client_id_to_utlb_id Utlb.HOPPER_COUNT.
Proof.
  split; [|split; [|split]]; (split; [|apply utlb_onto; vm_compute; reflexivity]).
  - unfold PascalClient.uvm_hal_pascal_mmu_client_id_to_utlb_id. utlb_range.
  - unfold VoltaClient.uvm_hal_volta_mmu_client_id_to_utlb_id. utlb_range.
  - unfold VoltaClient.uvm_hal_ampere_mmu_client_id_to_utlb_id. utlb_range.
  - unfold VoltaClient.uvm_hal_hopper_mmu_client_id_to_utlb_id. utlb_range.
Qed.
