(* ===== verification/UvmRangeTree.v ===== *)
(** Trees of disjoint address ranges (kernel-open/nvidia-uvm/uvm_range_tree.c
    and .h): the structure behind the VA ranges of a VA space and behind the
    free ranges of a range allocator.

    A tree is a red-black tree of node pointers together with a list of the
    same nodes in address order; the nodes live in a store, so that operations
    which move a node's bounds mutate the shared node.  The rebalancing of the
    red-black tree is the kernel's ([rb_insert_color], [rb_erase]) and a
    parameter of the model, with the law that it keeps the in-order sequence.

    The abstract value of a tree is its list of nodes; the invariant says that
    the tree's in-order sequence is that list, and that its ranges are disjoint
    and ascending. *)

From stdpp Require Import sorting.
From S2P Require Import Prelude UvmBits.
Local Open Scope Z_scope.

Definition ULLONG_MAX : Z := 2 ^ 64 - 1.

(** Bounds of a node; the end is inclusive. *)
Record range := Range { r_start : Z; r_end : Z }.

#[export] Instance range_eq_dec : EqDecision range.
Proof. solve_decision. Defined.

Definition uvm_ranges_overlap (a_start a_end b_start b_end : Z) : bool :=
  (a_start <=? b_end) && (b_start <=? a_end).

(** A binary tree of node pointers. *)
Inductive rbtree :=
| Leaf
| Node (l : rbtree) (x : Z) (r : rbtree).

Fixpoint inorder (t : rbtree) : list Z :=
  match t with
  | Leaf => []
  | Node l x r => inorder l ++ x :: inorder r
  end.

(** The kernel's red-black tree: what happens after a node has been linked as
    a leaf, and the removal of a node. *)
Class rb_ops := {
  rb_insert_color : Z -> rbtree -> rbtree;
  rb_erase : Z -> rbtree -> rbtree;
}.
Class RbLaws (ops : rb_ops) := {
  rb_insert_color_law x t : inorder (rb_insert_color x t) = inorder t;
  rb_erase_law x t : NoDup (inorder t) ->
    inorder (rb_erase x t) = filter (fun y => y <> x) (inorder t);
}.

Record uvm_range_tree_t := RangeTree {
  rt_nodes : gmap Z range;
  rb_root : rbtree;
  rt_head : list Z;
}.

Section range_tree.
Context {ops : rb_ops}.
Implicit Types (t : uvm_range_tree_t) (x p addr : Z).

(** The node a pointer points to. *)
Definition node_at (m : gmap Z range) x : range := default (Range 0 0) (m !! x).
Definition n_start t x : Z := r_start (node_at (rt_nodes t) x).
Definition n_end t x : Z := r_end (node_at (rt_nodes t) x).
Definition set_node x r t : uvm_range_tree_t :=
  RangeTree (<[x := r]> (rt_nodes t)) (rb_root t) (rt_head t).

Definition range_nodes_overlap t a b : bool :=
  uvm_ranges_overlap (n_start t a) (n_end t a) (n_start t b) (n_end t b).

(** ** List heads of the kernel: neighbours and insertion *)

Fixpoint list_next (l : list Z) x : option Z :=
  match l with
  | [] => None
  | y :: l' => if decide (y = x) then hd_error l' else list_next l' x
  end.
Definition list_prev (l : list Z) x : option Z := list_next (reverse l) x.

Definition uvm_range_tree_next t x : option Z := list_next (rt_head t) x.
Definition uvm_range_tree_prev t x : option Z := list_prev (rt_head t) x.
Definition uvm_range_tree_last t : option Z := last (rt_head t).

(** [list_add_tail(new, &pos->list)] and [list_add(new, &pos->list)]. *)
Fixpoint insert_before (l : list Z) p x : list Z :=
  match l with
  | [] => []
  | y :: l' => if decide (y = p) then x :: y :: l' else y :: insert_before l' p x
  end.
Fixpoint insert_after (l : list Z) p x : list Z :=
  match l with
  | [] => []
  | y :: l' => if decide (y = p) then y :: x :: l' else y :: insert_after l' p x
  end.

(** [rb_link_node] with the left or right link of [p]: the link is
    overwritten. *)
Fixpoint rb_link_left p x (t : rbtree) : rbtree :=
  match t with
  | Leaf => Leaf
  | Node l y r => if decide (y = p) then Node (Node Leaf x Leaf) y r
                  else Node (rb_link_left p x l) y (rb_link_left p x r)
  end.
Fixpoint rb_link_right p x (t : rbtree) : rbtree :=
  match t with
  | Leaf => Leaf
  | Node l y r => if decide (y = p) then Node l y (Node Leaf x Leaf)
                  else Node (rb_link_right p x l) y (rb_link_right p x r)
  end.

(** ** range_node_find *)

(** The walk: the node that contains [addr], and the last node before. *)
Fixpoint rb_walk (m : gmap Z range) (rb : rbtree) (parent : option Z) addr
  : option Z * option Z :=
  match rb with
  | Leaf => (None, parent)
  | Node l x r =>
      if addr <? r_start (node_at m x) then rb_walk m l (Some x) addr
      else if r_end (node_at m x) <? addr then rb_walk m r (Some x) addr
      else (Some x, parent)
  end.

Record find_result := FindResult {
  fr_node : option Z; fr_parent : option Z; fr_next : option Z }.

Definition range_node_find t addr : find_result :=
  let '(node, parent) := rb_walk (rt_nodes t) (rb_root t) None addr in
  let next :=
    match node, parent with
    | Some x, _ => uvm_range_tree_next t x
    | None, Some p => if addr <? n_start t p then Some p else uvm_range_tree_next t p
    | None, None => None
    end in
  FindResult node parent next.

(** ** Operations *)

Definition uvm_range_tree_init (m : gmap Z range) : uvm_range_tree_t := RangeTree m Leaf [].

Definition uvm_range_tree_remove t x : uvm_range_tree_t :=
  RangeTree (rt_nodes t) (rb_erase x (rb_root t)) (filter (fun y => y <> x) (rt_head t)).

Definition uvm_range_tree_add t x : option (NV_STATUS * uvm_range_tree_t) :=
  UVM_ASSERT (n_start t x <=? n_end t x) ;;
  let r := range_node_find t (n_start t x) in
  match fr_node r with
  | Some _ => Some (NV_ERR_UVM_ADDRESS_IN_USE, t)
  | None =>
    match fr_parent r with
    | None =>
        Some (NV_OK, RangeTree (rt_nodes t) (rb_insert_color x (Node Leaf x Leaf))
                       (x :: rt_head t))
    | Some p =>
        if range_nodes_overlap t x p then Some (NV_ERR_UVM_ADDRESS_IN_USE, t)
        else if n_start t x <? n_start t p then
          UVM_ASSERT (match uvm_range_tree_prev t p with
                      | Some prev => negb (range_nodes_overlap t x prev)
                      | None => true
                      end) ;;
          Some (NV_OK, RangeTree (rt_nodes t)
                         (rb_insert_color x (rb_link_left p x (rb_root t)))
                         (insert_before (rt_head t) p x))
        else
          if match uvm_range_tree_next t p with
             | Some next => range_nodes_overlap t x next
             | None => false
             end
          then Some (NV_ERR_UVM_ADDRESS_IN_USE, t)
          else Some (NV_OK, RangeTree (rt_nodes t)
                              (rb_insert_color x (rb_link_right p x (rb_root t)))
                              (insert_after (rt_head t) p x))
    end
  end.

Definition uvm_range_tree_shrink_node t x new_start new_end : option uvm_range_tree_t :=
  UVM_ASSERT (new_start <=? new_end) ;;
  UVM_ASSERT (n_start t x <=? new_start) ;;
  UVM_ASSERT (new_end <=? n_end t x) ;;
  Some (set_node x (Range new_start new_end) t).

Definition uvm_range_tree_split t existing new : option uvm_range_tree_t :=
  UVM_ASSERT (n_start t existing <? n_start t new) ;;
  UVM_ASSERT (n_start t new <=? n_end t existing) ;;
  let t1 := set_node new (Range (n_start t new) (n_end t existing)) t in
  let t2 := set_node existing (Range (n_start t existing) (u64 (n_start t new - 1))) t1 in
  r ← uvm_range_tree_add t2 new;
  UVM_ASSERT (bool_decide (fst r = NV_OK)) ;; Some (snd r).

Definition uvm_range_tree_merge_prev t x : option Z * uvm_range_tree_t :=
  match uvm_range_tree_prev t x with
  | Some prev =>
      if negb (n_end t prev =? u64 (n_start t x - 1)) then (None, t)
      else let t1 := uvm_range_tree_remove t prev in
           (Some prev, set_node x (Range (n_start t prev) (n_end t x)) t1)
  | None => (None, t)
  end.

Definition uvm_range_tree_merge_next t x : option Z * uvm_range_tree_t :=
  match uvm_range_tree_next t x with
  | Some next =>
      if negb (n_start t next =? u64 (n_end t x + 1)) then (None, t)
      else let t1 := uvm_range_tree_remove t next in
           (Some next, set_node x (Range (n_start t x) (n_end t next)) t1)
  | None => (None, t)
  end.

Definition uvm_range_tree_find t addr : option Z := fr_node (range_node_find t addr).

(** The outer [None] is a failed assertion. *)
Definition uvm_range_tree_iter_first t start end_ : option (option Z) :=
  UVM_ASSERT (start <=? end_) ;;
  let r := range_node_find t start in
  match fr_node r with
  | Some x => Some (Some x)
  | None =>
      match fr_next r with
      | Some next =>
          UVM_ASSERT (start <? n_start t next) ;;
          UVM_ASSERT (match uvm_range_tree_prev t next with
                      | Some prev => n_end t prev <? start
                      | None => true
                      end) ;;
          Some (if n_start t next <=? end_ then Some next else None)
      | None => Some None
      end
  end.

Definition uvm_range_tree_iter_next t x end_ : option Z :=
  match uvm_range_tree_next t x with
  | Some next => if n_start t next <=? end_ then Some next else None
  | None => None
  end.

(** [uvm_range_tree_for_each_in]: the nodes the loop visits. *)
Fixpoint iter_from (fuel : nat) t (node : option Z) end_ : list Z :=
  match fuel, node with
  | S fuel, Some x => x :: iter_from fuel t (uvm_range_tree_iter_next t x end_) end_
  | _, _ => []
  end.
Definition uvm_range_tree_for_each_in t start end_ : option (list Z) :=
  first ← uvm_range_tree_iter_first t start end_;
  Some (iter_from (length (rt_head t)) t first end_).

(** Both output pointers given; the hole is returned with NV_OK only. *)
Definition uvm_range_tree_find_hole t addr : option (NV_STATUS * option (Z * Z)) :=
  first ← uvm_range_tree_iter_first t addr ULLONG_MAX;
  let start_of (node : option Z) :=
    match node with Some n => u64 (n_end t n + 1) | None => 0 end in
  match first with
  | Some n =>
      if n_start t n <=? addr then Some (NV_ERR_UVM_ADDRESS_IN_USE, None)
      else Some (NV_OK, Some (start_of (uvm_range_tree_prev t n), u64 (n_start t n - 1)))
  | None => Some (NV_OK, Some (start_of (uvm_range_tree_last t), ULLONG_MAX))
  end.

Definition uvm_range_tree_find_hole_in t addr start end_ : option (NV_STATUS * (Z * Z)) :=
  UVM_ASSERT (start <=? addr) ;;
  UVM_ASSERT (addr <=? end_) ;;
  r ← uvm_range_tree_find_hole t addr;
  match r with
  | (NV_OK, Some (ts, te)) => Some (NV_OK, (Z.max ts start, Z.min te end_))
  | (status, _) => Some (status, (start, end_))
  end.
End range_tree.

(** ** Invariant and lemmas *)

Section range_tree_facts.
Context {ops : rb_ops} {laws : RbLaws ops}.
Implicit Types (t : uvm_range_tree_t) (x p addr : Z) (m : gmap Z range).

Definition before m a b : Prop := r_end (node_at m a) < r_start (node_at m b).
Definition node_ok m x : Prop :=
  0 <= r_start (node_at m x) /\ r_start (node_at m x) <= r_end (node_at m x) /\
  r_end (node_at m x) < 2 ^ 64.

(** Disjoint ascending ranges. *)
Record ordered m (l : list Z) : Prop := {
  or_sorted : StronglySorted (before m) l;
  or_nodes : Forall (node_ok m) l;
}.

Record range_tree_inv t : Prop := {
  ri_tree : inorder (rb_root t) = rt_head t;
  ri_nodup : NoDup (rt_head t);
  ri_ordered : ordered (rt_nodes t) (rt_head t);
}.

Lemma ordered_app m l1 l2 :
  ordered m (l1 ++ l2) <->
  ordered m l1 /\ ordered m l2 /\ (forall a b, a ∈ l1 -> b ∈ l2 -> before m a b).
Proof.
  split.
  - intros [Hs Hn]. apply Forall_app in Hn as [Hn1 Hn2].
    apply StronglySorted_app in Hs as (Hc & H1 & H2). split; [done|]. split; [done|exact Hc].
  - intros ([Hs1 Hn1] & [Hs2 Hn2] & Hc). split; [|by apply Forall_app].
    apply StronglySorted_app. split; [|done]. intros a b Ha Hb. by apply Hc.
Qed.

Lemma ordered_cons m x l :
  ordered m (x :: l) <-> node_ok m x /\ ordered m l /\ (forall b, b ∈ l -> before m x b).
Proof.
  split.
  - intros [Hs Hn]. apply Forall_cons in Hn as [? ?].
    apply StronglySorted_cons in Hs as [Hf Hs]. split; [done|]. split; [done|]. by apply Forall_forall.
  - intros (Hx & [Hs Hn] & Hb). split; [|by apply Forall_cons].
    apply StronglySorted_cons. split; [by apply Forall_forall|done].
Qed.

(** Everything to the left of a link position ends before the address, and
    everything to the right starts after it. *)
Record cut m (l : list Z) addr (a b : list Z) : Prop := {
  cut_list : l = a ++ b;
  cut_left : Forall (fun y => r_end (node_at m y) < addr) a;
  cut_right : Forall (fun y => addr < r_start (node_at m y)) b;
}.

Lemma rb_walk_some m rb par addr x q :
  rb_walk m rb par addr = (Some x, q) ->
  x ∈ inorder rb /\ r_start (node_at m x) <= addr <= r_end (node_at m x).
Proof.
  revert par. induction rb as [|l IHl y r IHr]; intros par; simpl; [done|].
  destruct (Z.ltb_spec addr (r_start (node_at m y))).
  { intros [Hin ?]%IHl. split; [|done]. apply elem_of_app. by left. }
  destruct (Z.ltb_spec (r_end (node_at m y)) addr).
  { intros [Hin ?]%IHr. split; [|done]. apply elem_of_app. right. by right. }
  intros [= <- <-]. split; [apply elem_of_app; right; left|lia].
Qed.

Lemma rb_link_left_notin p x rb : p ∉ inorder rb -> rb_link_left p x rb = rb.
Proof.
  induction rb as [|l IHl y r IHr]; simpl; [done|]. intros Hn.
  rewrite not_elem_of_app, not_elem_of_cons in Hn. destruct Hn as (H1 & H2 & H3).
  rewrite decide_False by done. by rewrite IHl, IHr.
Qed.
Lemma rb_link_right_notin p x rb : p ∉ inorder rb -> rb_link_right p x rb = rb.
Proof.
  induction rb as [|l IHl y r IHr]; simpl; [done|]. intros Hn.
  rewrite not_elem_of_app, not_elem_of_cons in Hn. destruct Hn as (H1 & H2 & H3).
  rewrite decide_False by done. by rewrite IHl, IHr.
Qed.

(** Where the walk stops when no node contains the address: the new node can
    be linked next to the last node visited. *)
Definition stops m rb addr q : Prop :=
  exists p a b, q = Some p /\ cut m (inorder rb) addr a b /\
    ((addr < r_start (node_at m p) /\ (exists b', b = p :: b') /\
      forall x, inorder (rb_link_left p x rb) = a ++ x :: b) \/
     (r_end (node_at m p) < addr /\ (exists a', a = a' ++ [p]) /\
      forall x, inorder (rb_link_right p x rb) = a ++ x :: b)).

Lemma stops_left m l y r addr q :
  NoDup (inorder (Node l y r)) -> ordered m (inorder (Node l y r)) ->
  addr < r_start (node_at m y) -> stops m l addr q -> stops m (Node l y r) addr q.
Proof.
  simpl. intros Hnd Ho Hlt (p & a & b & -> & [Hl Ha Hb] & Hor).
  apply NoDup_app in Hnd as (_ & Hnd & Hnd2). apply NoDup_cons in Hnd2 as [Hy _].
  apply ordered_app in Ho as (_ & Ho & _). apply ordered_cons in Ho as (Hok & _ & Hr).
  unfold node_ok in Hok. assert (Hp : p ∈ inorder l).
  { rewrite Hl. destruct Hor as [(_ & [? ->] & _)|(_ & [? ->] & _)];
    rewrite !elem_of_app, ?elem_of_cons; tauto. }
  assert (Hpy : y <> p) by (intros ->; apply (Hnd p Hp); left).
  assert (Hpr : p ∉ inorder r) by (intros H; apply (Hnd p Hp); by right).
  exists p, a, (b ++ y :: inorder r). split; [done|]. split.
  { split; simpl; [by rewrite Hl, <- app_assoc|done|]. apply Forall_app. split; [done|].
    apply Forall_cons. split; [done|]. apply Forall_forall. intros z Hz%Hr. unfold before in Hz. lia. }
  destruct Hor as [(Hlt' & [b' ->] & Hlk)|(Hgt & [a' ->] & Hlk)]; [left|right].
  - split; [done|]. split; [by eexists|]. intros x. simpl.
    rewrite decide_False by done. simpl. rewrite Hlk, rb_link_left_notin by done.
    by rewrite <- app_assoc.
  - split; [done|]. split; [by eexists|]. intros x. simpl.
    rewrite decide_False by done. simpl. rewrite Hlk, rb_link_right_notin by done.
    by rewrite <- ?app_assoc; simpl; rewrite <- ?app_assoc.
Qed.

Lemma stops_right m l y r addr q :
  NoDup (inorder (Node l y r)) -> ordered m (inorder (Node l y r)) ->
  r_end (node_at m y) < addr -> stops m r addr q -> stops m (Node l y r) addr q.
Proof.
  simpl. intros Hnd Ho Hgt (p & a & b & -> & [Hl Ha Hb] & Hor).
  apply NoDup_app in Hnd as (_ & Hnd & Hnd2). apply NoDup_cons in Hnd2 as [Hy _].
  apply ordered_app in Ho as (_ & Ho & Hc). apply ordered_cons in Ho as (Hok & _ & _).
  unfold node_ok in Hok. assert (Hp : p ∈ inorder r).
  { rewrite Hl. destruct Hor as [(_ & [? ->] & _)|(_ & [? ->] & _)];
    rewrite !elem_of_app, ?elem_of_cons; tauto. }
  assert (Hpy : y <> p) by by intros ->.
  assert (Hpl : p ∉ inorder l) by (intros H; apply (Hnd p H); by right).
  exists p, (inorder l ++ y :: a), b. split; [done|]. split.
  { split; simpl; [by rewrite Hl, <- app_assoc| |done]. apply Forall_app. split.
    - apply Forall_forall. intros z Hz. specialize (Hc z y Hz ltac:(left)). unfold before in Hc. lia.
    - by apply Forall_cons. }
  destruct Hor as [(Hlt & [b' ->] & Hlk)|(Hgt' & [a' ->] & Hlk)]; [left|right].
  - split; [done|]. split; [by eexists|]. intros x. simpl.
    rewrite decide_False by done. simpl. rewrite Hlk, rb_link_left_notin by done.
    by rewrite <- app_assoc.
  - split; [done|]. split; [by exists (inorder l ++ y :: a'); rewrite <- app_assoc|]. intros x. simpl.
    rewrite decide_False by done. simpl. rewrite Hlk, rb_link_right_notin by done.
    by rewrite <- ?app_assoc; simpl; rewrite <- ?app_assoc.
Qed.

Lemma rb_walk_none m rb par addr q :
  NoDup (inorder rb) -> ordered m (inorder rb) ->
  rb_walk m rb par addr = (None, q) ->
  (rb = Leaf /\ q = par) \/ stops m rb addr q.
Proof.
  revert par. induction rb as [|l IHl y r IHr]; intros par Hnd Ho Hw; simpl in Hw.
  { left. by injection Hw as ->. }
  right. pose proof Hnd as Hnd0. pose proof Ho as Ho0. simpl in Hnd0, Ho0.
  apply NoDup_app in Hnd0 as (Hnl & _ & Hnr). apply NoDup_cons in Hnr as [_ Hnr].
  apply ordered_app in Ho0 as (Hol & Hor & Hc). apply ordered_cons in Hor as (Hok & Hor & Hr).
  unfold node_ok, before in *.
  destruct (Z.ltb_spec addr (r_start (node_at m y))) as [Hlt|Hge].
  { destruct (IHl _ Hnl Hol Hw) as [[-> ->]|Hs]; [|by eapply stops_left].
    exists y, [], (y :: inorder r). split; [done|]. split.
    - split; [done|done|]. apply Forall_cons. split; [done|]. apply Forall_forall.
      intros z Hz%Hr. lia.
    - left. split; [done|]. split; [by eexists|]. intros x. simpl. by rewrite decide_True. }
  destruct (Z.ltb_spec (r_end (node_at m y)) addr) as [Hgt|]; [|done].
  destruct (IHr _ Hnr Hor Hw) as [[-> ->]|Hs]; [|by eapply stops_right].
  exists y, (inorder l ++ [y]), []. split; [done|]. split.
  - split; [by rewrite app_nil_r| |done]. apply Forall_app. split; [|by apply Forall_cons].
    apply Forall_forall. intros z Hz. specialize (Hc z y Hz ltac:(left)). lia.
  - right. split; [done|]. split; [by eexists|]. intros x. simpl.
    rewrite decide_True by done. simpl. by rewrite <- app_assoc.
Qed.

(** ** Neighbours in the list *)

Lemma list_next_app A x B : x ∉ A -> list_next (A ++ x :: B) x = hd_error B.
Proof.
  induction A as [|y A IH]; simpl; [by rewrite decide_True|].
  rewrite not_elem_of_cons. intros [? ?]. rewrite decide_False by done. by apply IH.
Qed.

Lemma hd_error_reverse (l : list Z) : hd_error (reverse l) = last l.
Proof.
  destruct l as [|y l] using rev_ind; [done|]. by rewrite reverse_snoc, last_snoc.
Qed.

Lemma list_prev_app A x B : x ∉ B -> list_prev (A ++ x :: B) x = last A.
Proof.
  intros Hx. unfold list_prev. rewrite reverse_app, reverse_cons, <- app_assoc. simpl.
  rewrite list_next_app by by rewrite elem_of_reverse. apply hd_error_reverse.
Qed.

Lemma insert_before_app A p B x : p ∉ A -> insert_before (A ++ p :: B) p x = A ++ x :: p :: B.
Proof.
  induction A as [|y A IH]; simpl; [by rewrite decide_True|].
  rewrite not_elem_of_cons. intros [? ?]. rewrite decide_False by done. by rewrite IH.
Qed.

Lemma insert_after_app A p B x : p ∉ A -> insert_after (A ++ p :: B) p x = A ++ p :: x :: B.
Proof.
  induction A as [|y A IH]; simpl; [by rewrite decide_True|].
  rewrite not_elem_of_cons. intros [? ?]. rewrite decide_False by done. by rewrite IH.
Qed.

Lemma filter_ne_all (l : list Z) (x : Z) : x ∉ l -> filter (fun y => y <> x) l = l.
Proof.
  induction l as [|y l IH]; [done|]. rewrite not_elem_of_cons. intros [? ?].
  rewrite filter_cons_True by done. by rewrite IH.
Qed.

Lemma filter_ne_app A (x : Z) B :
  x ∉ A -> x ∉ B -> filter (fun y => y <> x) (A ++ x :: B) = A ++ B.
Proof.
  intros HA HB. rewrite filter_app, filter_cons_False by auto.
  by rewrite !filter_ne_all.
Qed.

Lemma NoDup_middle A (x : Z) B : NoDup (A ++ x :: B) <-> (x ∉ A) /\ (x ∉ B) /\ NoDup (A ++ B).
Proof.
  rewrite <- Permutation_middle, NoDup_cons, not_elem_of_app. tauto.
Qed.

Definition contains t x addr : Prop := n_start t x <= addr <= n_end t x.

(** The link position found for an address that no node contains. *)
Definition link_at t addr (A B : list Z) (par : option Z) : Prop :=
  match par with
  | None => rb_root t = Leaf /\ A = [] /\ B = []
  | Some p =>
      (addr < n_start t p /\ (exists B', B = p :: B') /\
       forall x, inorder (rb_link_left p x (rb_root t)) = A ++ x :: B) \/
      (n_end t p < addr /\ (exists A', A = A' ++ [p]) /\
       forall x, inorder (rb_link_right p x (rb_root t)) = A ++ x :: B)
  end.

Inductive find_spec t addr : find_result -> Prop :=
| find_hit A x B par :
    rt_head t = A ++ x :: B -> contains t x addr ->
    find_spec t addr (FindResult (Some x) par (hd_error B))
| find_miss A B par :
    cut (rt_nodes t) (rt_head t) addr A B -> link_at t addr A B par ->
    find_spec t addr (FindResult None par (hd_error B)).

Lemma range_node_find_spec t addr : range_tree_inv t -> find_spec t addr (range_node_find t addr).
Proof.
  intros [Ht Hnd Ho]. unfold range_node_find.
  destruct (rb_walk _ _ _ _) as [[x|] par] eqn:Hw.
  - apply rb_walk_some in Hw as [Hin Hc]. rewrite Ht in Hin.
    apply list_elem_of_split in Hin as (A & B & Hl).
    unfold uvm_range_tree_next. rewrite Hl in Hnd |- *. apply NoDup_middle in Hnd as (? & _).
    rewrite list_next_app by done. by eapply find_hit.
  - pose proof Hnd as Hnd'. pose proof Ho as Ho'. rewrite <- Ht in Hnd', Ho'.
    apply rb_walk_none in Hw; [|done..]. destruct Hw as [[Hlf ->]|(p & A & B & -> & Hcut & Hor)].
    { rewrite Hlf in Ht. simpl in Ht. apply (find_miss _ _ [] [] None); [|done].
      by split; [rewrite <- Ht| |]. }
    rewrite Ht in Hcut. pose proof (cut_list _ _ _ _ _ Hcut) as Hl.
    destruct Hor as [(Hlt & [B' ->] & Hlk)|(Hgt & [A' ->] & Hlk)].
    + unfold n_start. replace (addr <? _) with true by (symmetry; by apply Z.ltb_lt).
      apply (find_miss _ _ A (p :: B') (Some p)); [done|]. left. by eauto.
    + assert (n_start t p <= n_end t p).
      { destruct Ho as [_ Hn]. rewrite Hl, !Forall_app, Forall_cons in Hn.
        unfold node_ok in Hn. unfold n_start, n_end. tauto. }
      replace (addr <? n_start t p) with false by (symmetry; apply Z.ltb_ge; unfold n_end in *; lia).
      rewrite Hl, <- app_assoc in Hnd. apply NoDup_middle in Hnd as (? & _).
      replace (uvm_range_tree_next t p) with (hd_error B).
      * apply (find_miss _ _ (A' ++ [p]) B (Some p)); [done|]. right. by eauto.
      * unfold uvm_range_tree_next. rewrite Hl, <- app_assoc. simpl. by rewrite list_next_app.
Qed.

(** ** Operations keep the invariant *)

Lemma ordered_insert m A x B :
  ordered m (A ++ B) -> node_ok m x ->
  Forall (fun y => r_end (node_at m y) < r_start (node_at m x)) A ->
  Forall (fun y => r_end (node_at m x) < r_start (node_at m y)) B ->
  ordered m (A ++ x :: B).
Proof.
  rewrite !ordered_app, ordered_cons, !Forall_forall. unfold before.
  intros (HA & HB & Hc) Hx HAx HBx. split; [done|]. split; [done|].
  intros a b Ha [->|Hb]%elem_of_cons; auto.
Qed.

Lemma ordered_delete m A x B : ordered m (A ++ x :: B) -> ordered m (A ++ B).
Proof.
  rewrite !ordered_app, ordered_cons. intros (HA & (Hx & HB & Hxb) & Hc).
  split; [done|]. split; [done|]. intros a b Ha Hb. apply Hc; [done|by right].
Qed.

Lemma overlap_false t x y :
  node_ok (rt_nodes t) x -> node_ok (rt_nodes t) y ->
  range_nodes_overlap t x y = false <-> n_end t x < n_start t y \/ n_end t y < n_start t x.
Proof.
  unfold node_ok, range_nodes_overlap, uvm_ranges_overlap. fold (n_start t x) (n_start t y) (n_end t x) (n_end t y).
  intros ? ?. rewrite andb_false_iff, !Z.leb_gt. lia.
Qed.

Lemma tail_clear t x B :
  ordered (rt_nodes t) B -> node_ok (rt_nodes t) x ->
  Forall (fun y => n_start t x < n_start t y) B ->
  match hd_error B with Some b => range_nodes_overlap t x b = false | None => True end ->
  Forall (fun y => n_end t x < n_start t y) B.
Proof.
  destruct B as [|b B]; [done|]. simpl. intros (Hb & _ & Hc)%ordered_cons Hx [Hs _]%Forall_cons Hv.
  apply overlap_false in Hv; [|done..]. unfold before, node_ok in *.
  fold (n_start t b) (n_end t b) in *.
  apply Forall_cons. split; [lia|]. apply Forall_forall. intros y Hy%Hc.
  fold (n_start t y) in Hy. lia.
Qed.

Lemma inv_node_ok t y : range_tree_inv t -> y ∈ rt_head t -> node_ok (rt_nodes t) y.
Proof. intros [_ _ [_ Hn]] Hy. by rewrite Forall_forall in Hn; apply Hn. Qed.

(** What [uvm_range_tree_add] does: it fails exactly on an overlap, and
    otherwise links the node at its place in the order. *)
Inductive add_outcome t x : option (NV_STATUS * uvm_range_tree_t) -> Prop :=
| add_in_use y :
    y ∈ rt_head t -> range_nodes_overlap t x y = true ->
    add_outcome t x (Some (NV_ERR_UVM_ADDRESS_IN_USE, t))
| add_ok A B rb :
    rt_head t = A ++ B ->
    (forall y, y ∈ rt_head t -> range_nodes_overlap t x y = false) ->
    range_tree_inv (RangeTree (rt_nodes t) rb (A ++ x :: B)) ->
    add_outcome t x (Some (NV_OK, RangeTree (rt_nodes t) rb (A ++ x :: B))).

Lemma add_links t x A B rb :
  range_tree_inv t -> x ∉ rt_head t -> node_ok (rt_nodes t) x ->
  cut (rt_nodes t) (rt_head t) (n_start t x) A B -> inorder rb = A ++ x :: B ->
  match hd_error B with Some b => range_nodes_overlap t x b = false | None => True end ->
  add_outcome t x (Some (NV_OK, RangeTree (rt_nodes t) (rb_insert_color x rb) (A ++ x :: B))).
Proof.
  intros Hinv Hx Hok [Hl HA HB] Hrb Hhd. pose proof Hinv as [Ht Hnd Ho].
  rewrite Hl in Hnd, Ho, Hx. pose proof Ho as (HoA & HoB & _)%ordered_app.
  pose proof (tail_clear t x B HoB Hok HB Hhd) as Hcl.
  apply add_ok; [done| |].
  - intros y Hy. apply overlap_false; [done|by apply inv_node_ok|].
    rewrite Hl in Hy. rewrite !Forall_forall in *. unfold n_end.
    apply elem_of_app in Hy as [Hy|Hy]; [right; by apply HA|left; by apply Hcl].
  - split; simpl.
    + by rewrite rb_insert_color_law.
    + apply NoDup_middle. apply not_elem_of_app in Hx. tauto.
    + by apply ordered_insert.
Qed.

Lemma add_spec t x :
  range_tree_inv t -> x ∉ rt_head t -> node_ok (rt_nodes t) x ->
  add_outcome t x (uvm_range_tree_add t x).
Proof.
  intros Hinv Hx Hok. unfold uvm_range_tree_add, UVM_ASSERT.
  replace (n_start t x <=? n_end t x) with true
    by (symmetry; apply Z.leb_le; unfold node_ok, n_start, n_end in *; lia). simpl.
  pose proof Hok as Hok'. unfold node_ok in Hok'. fold (n_start t x) (n_end t x) in Hok'.
  destruct (range_node_find_spec t (n_start t x) Hinv) as [A y B par Hl Hc|A B [p|] Hcut Hlk]; simpl.
  - apply (add_in_use _ _ y); [rewrite Hl, elem_of_app, elem_of_cons; tauto|].
    unfold contains, range_nodes_overlap, uvm_ranges_overlap in *.
    apply andb_true_iff. rewrite !Z.leb_le. lia.
  - pose proof Hcut as [Hl HA HB]. pose proof (ri_nodup t Hinv) as Hnd. rewrite Hl in Hnd.
    assert (Hp : p ∈ rt_head t).
    { rewrite Hl. destruct Hlk as [(_ & [? ->] & _)|(_ & [? ->] & _)];
        rewrite !elem_of_app, ?elem_of_cons; tauto. }
    pose proof (inv_node_ok t p Hinv Hp) as Hokp.
    destruct (range_nodes_overlap t x p) eqn:Hov; [by apply (add_in_use _ _ p)|].
    pose proof Hov as Hov'. apply overlap_false in Hov'; [|done..].
    unfold node_ok in Hokp. fold (n_start t p) (n_end t p) in Hokp.
    destruct Hlk as [(Hlt & [B' ->] & Hlk)|(Hgt & [A' ->] & Hlk)].
    + replace (n_start t x <? n_start t p) with true by (symmetry; by apply Z.ltb_lt).
      apply NoDup_middle in Hnd as (HpA & HpB & _).
      unfold uvm_range_tree_prev. rewrite Hl, list_prev_app, insert_before_app by done.
      replace (match last A with Some prev => _ | None => true end) with true.
      * simpl. apply add_links; simpl; auto.
      * destruct (last A) as [q|] eqn:Hq; [|done]. symmetry. apply negb_true_iff.
        apply last_Some_elem_of in Hq. apply overlap_false; [done| |].
        { apply inv_node_ok; [done|]. rewrite Hl. apply elem_of_app. by left. }
        rewrite Forall_forall in HA. right. by apply HA.
    + replace (n_start t x <? n_start t p) with false by (symmetry; apply Z.ltb_ge; lia).
      rewrite <- app_assoc in Hnd. apply NoDup_middle in Hnd as (HpA & _).
      unfold uvm_range_tree_next. rewrite Hl, <- app_assoc. simpl.
      rewrite list_next_app, insert_after_app by done.
      replace (A' ++ p :: x :: B) with ((A' ++ [p]) ++ x :: B) by by rewrite <- app_assoc.
      destruct (hd_error B) as [q|] eqn:Hq.
      * destruct (range_nodes_overlap t x q) eqn:Hxq.
        -- apply (add_in_use _ _ q); [|done]. rewrite Hl. apply elem_of_app. right.
           destruct B; [done|]. injection Hq as ->. left.
        -- apply add_links; [done..|by rewrite Hq].
      * apply add_links; [done..|by rewrite Hq].
  - destruct Hlk as (Hlf & -> & ->). pose proof Hcut as [Hl _ _]. rewrite Hl.
    apply (add_links t x [] []); auto. by simpl.
Qed.

Lemma node_at_insert m x r y : node_at (<[x := r]> m) y = if decide (y = x) then r else node_at m y.
Proof.
  unfold node_at. destruct (decide (y = x)) as [->|]; [by rewrite lookup_insert_eq|].
  by rewrite lookup_insert_ne.
Qed.

Lemma ordered_ext m m' l :
  (forall y, y ∈ l -> node_at m' y = node_at m y) -> ordered m l -> ordered m' l.
Proof.
  induction l as [|x l IH]; [by split; constructor|]. intros Heq.
  rewrite !ordered_cons. unfold node_ok, before. intros (Hx & Hl & Hb).
  rewrite (Heq x) by left. split; [done|]. split; [apply IH; [|done]; intros; apply Heq; by right|].
  intros b Hin. rewrite (Heq b) by by right. by apply Hb.
Qed.

(** Changing the bounds of a node between its neighbours. *)
Lemma inv_resize t A x B rb r :
  inorder rb = A ++ x :: B -> NoDup (A ++ x :: B) -> ordered (rt_nodes t) (A ++ B) ->
  0 <= r_start r -> r_start r <= r_end r -> r_end r < 2 ^ 64 ->
  Forall (fun y => n_end t y < r_start r) A -> Forall (fun y => r_end r < n_start t y) B ->
  range_tree_inv (RangeTree (<[x := r]> (rt_nodes t)) rb (A ++ x :: B)).
Proof.
  intros Ht Hnd Ho H1 H2 H3 HA HB. split; simpl; [done..|].
  pose proof Hnd as (HxA & HxB & _)%NoDup_middle.
  assert (Hne : forall y, y ∈ A ++ B -> node_at (<[x := r]> (rt_nodes t)) y = node_at (rt_nodes t) y).
  { intros y Hy. rewrite node_at_insert, decide_False; [done|]. intros ->.
    apply elem_of_app in Hy as [?|?]; auto. }
  rewrite Forall_forall in HA, HB.
  apply ordered_insert; [by apply (ordered_ext (rt_nodes t))|..];
    unfold node_ok; rewrite node_at_insert, decide_True by done; [done|..].
  - apply Forall_forall. intros y Hy. rewrite Hne by (apply elem_of_app; by left). by apply HA.
  - apply Forall_forall. intros y Hy. rewrite Hne by (apply elem_of_app; by right). by apply HB.
Qed.

Lemma remove_spec t A x B :
  range_tree_inv t -> rt_head t = A ++ x :: B ->
  rt_head (uvm_range_tree_remove t x) = A ++ B /\ range_tree_inv (uvm_range_tree_remove t x).
Proof.
  intros [Ht Hnd Ho] Hl. rewrite Hl in Hnd, Ho. pose proof Hnd as (HA & HB & Hnd')%NoDup_middle.
  unfold uvm_range_tree_remove. simpl. rewrite Hl, filter_ne_app by done. split; [done|].
  split; simpl; [|done|by eapply ordered_delete].
  rewrite rb_erase_law by by rewrite Ht, Hl. by rewrite Ht, Hl, filter_ne_app.
Qed.

(** The neighbours of a node of the list. *)
Lemma inv_split t A x B :
  range_tree_inv t -> rt_head t = A ++ x :: B ->
  node_ok (rt_nodes t) x /\ ordered (rt_nodes t) (A ++ B) /\ NoDup (A ++ x :: B) /\
  Forall (fun y => n_end t y < n_start t x) A /\ Forall (fun y => n_end t x < n_start t y) B.
Proof.
  intros Hinv Hl. pose proof Hinv as [Ht Hnd Ho]. rewrite Hl in Hnd, Ho.
  pose proof Ho as Ho'%ordered_delete.
  apply ordered_app in Ho as (HA & (Hx & HB & Hxb)%ordered_cons & Hc).
  do 3 (split; [done|]). split; apply Forall_forall; intros y Hy; [apply Hc; [done|left]|by apply Hxb].
Qed.

Lemma resize_spec t A x B r :
  range_tree_inv t -> rt_head t = A ++ x :: B ->
  n_start t x <= r_start r -> r_start r <= r_end r -> r_end r <= n_end t x ->
  range_tree_inv (set_node x r t).
Proof.
  intros Hinv Hl H1 H2 H3. destruct (inv_split t A x B Hinv Hl) as ((Hx & _ & Hx') & Ho & Hnd & HA & HB).
  unfold set_node. fold (n_start t x) (n_end t x) in Hx, Hx'. rewrite Hl.
  apply inv_resize; auto; try lia.
  - by rewrite (ri_tree t Hinv), Hl.
  - eapply Forall_impl; [exact HA|]. simpl. lia.
  - eapply Forall_impl; [exact HB|]. simpl. lia.
Qed.

Lemma shrink_spec t A x B s e :
  range_tree_inv t -> rt_head t = A ++ x :: B ->
  n_start t x <= s -> s <= e -> e <= n_end t x ->
  uvm_range_tree_shrink_node t x s e = Some (set_node x (Range s e) t) /\
  range_tree_inv (set_node x (Range s e) t).
Proof.
  intros Hinv Hl H1 H2 H3. split; [|by eapply resize_spec].
  unfold uvm_range_tree_shrink_node, UVM_ASSERT.
  apply Z.leb_le in H1, H2, H3. by rewrite H1, H2, H3.
Qed.

Definition merge_prev_of t A x B p : uvm_range_tree_t :=
  RangeTree (<[x := Range (n_start t p) (n_end t x)]> (rt_nodes t)) (rb_erase p (rb_root t)) (A ++ x :: B).

Lemma merge_prev_spec t A x B :
  range_tree_inv t -> rt_head t = A ++ x :: B ->
  (exists A' p, A = A' ++ [p] /\ n_end t p + 1 = n_start t x /\
     uvm_range_tree_merge_prev t x = (Some p, merge_prev_of t A' x B p) /\
     range_tree_inv (merge_prev_of t A' x B p)) \/
  ((forall p, last A = Some p -> n_end t p + 1 < n_start t x) /\
   uvm_range_tree_merge_prev t x = (None, t)).
Proof.
  intros Hinv Hl. destruct (inv_split t A x B Hinv Hl) as (Hx & Ho & Hnd & HA & HB).
  unfold uvm_range_tree_merge_prev, uvm_range_tree_prev.
  rewrite Hl, list_prev_app by (apply NoDup_middle in Hnd; tauto).
  destruct A as [|p A' _] using rev_ind; simpl; [right; split; done|].
  rewrite last_snoc. apply Forall_app in HA as [HA' [Hp _]%Forall_cons].
  assert (Hl' : rt_head t = A' ++ p :: (x :: B)) by (rewrite Hl; by rewrite <- app_assoc).
  destruct (inv_split t A' p (x :: B) Hinv Hl') as (Hp' & Ho' & Hnd' & HA2 & _).
  unfold node_ok in Hx, Hp'. fold (n_start t p) (n_start t x) (n_end t p) (n_end t x) in *.
  rewrite (u64_small (n_start t x - 1)) by (unfold is_u64; lia).
  destruct (Z.eqb_spec (n_end t p) (n_start t x - 1)); simpl.
  - left. exists A', p. split; [done|]. split; [lia|].
    assert (Heq : filter (fun y => y <> p) (rt_head t) = A' ++ x :: B).
    { rewrite Hl'. apply NoDup_middle in Hnd' as (? & ? & _). by rewrite filter_ne_app. }
    split; [unfold merge_prev_of, set_node; simpl; by rewrite Heq|].
    apply inv_resize; simpl; try lia; auto.
    + rewrite rb_erase_law by (rewrite (ri_tree t Hinv); apply Hinv). by rewrite (ri_tree t Hinv).
    + by apply NoDup_middle in Hnd' as (_ & _ & ?).
    + by apply ordered_delete in Ho'.
  - right. split; [|done]. intros q [= <-]. lia.
Qed.

Definition merge_next_of t A x B n : uvm_range_tree_t :=
  RangeTree (<[x := Range (n_start t x) (n_end t n)]> (rt_nodes t)) (rb_erase n (rb_root t)) (A ++ x :: B).

Lemma merge_next_spec t A x B :
  range_tree_inv t -> rt_head t = A ++ x :: B ->
  (exists B' n, B = n :: B' /\ n_end t x + 1 = n_start t n /\
     uvm_range_tree_merge_next t x = (Some n, merge_next_of t A x B' n) /\
     range_tree_inv (merge_next_of t A x B' n)) \/
  ((forall n, hd_error B = Some n -> n_end t x + 1 < n_start t n) /\
   uvm_range_tree_merge_next t x = (None, t)).
Proof.
  intros Hinv Hl. destruct (inv_split t A x B Hinv Hl) as (Hx & Ho & Hnd & HA & HB).
  unfold uvm_range_tree_merge_next, uvm_range_tree_next.
  rewrite Hl, list_next_app by (apply NoDup_middle in Hnd; tauto).
  destruct B as [|n B']; simpl; [right; split; done|].
  apply Forall_cons in HB as [Hn HB'].
  assert (Hl' : rt_head t = (A ++ [x]) ++ n :: B') by (rewrite Hl; by rewrite <- app_assoc).
  destruct (inv_split t (A ++ [x]) n B' Hinv Hl') as (Hn' & Ho' & Hnd' & _ & HB2).
  unfold node_ok in Hx, Hn'. fold (n_start t n) (n_start t x) (n_end t n) (n_end t x) in *.
  rewrite (u64_small (n_end t x + 1)) by (unfold is_u64; lia).
  destruct (Z.eqb_spec (n_start t n) (n_end t x + 1)); simpl.
  - left. exists B', n. split; [done|]. split; [lia|].
    pose proof Hnd' as (? & ? & Hnd2)%NoDup_middle.
    assert (Heq : filter (fun y => y <> n) (rt_head t) = A ++ x :: B').
    { rewrite Hl', filter_ne_app by done. by rewrite <- app_assoc. }
    split; [unfold merge_next_of, set_node; simpl; by rewrite Heq|].
    apply inv_resize; simpl; try lia; auto.
    + rewrite rb_erase_law by (rewrite (ri_tree t Hinv); apply Hinv). by rewrite (ri_tree t Hinv).
    + by rewrite <- app_assoc in Hnd2.
    + rewrite <- app_assoc in Ho'. by apply ordered_delete in Ho'.
  - right. split; [|done]. intros q [= <-]. lia.
Qed.

(** A node outside the list can be written freely. *)
Lemma inv_set_outside t x r : range_tree_inv t -> x ∉ rt_head t -> range_tree_inv (set_node x r t).
Proof.
  intros [Ht Hnd Ho] Hx. split; simpl; [done..|]. apply (ordered_ext (rt_nodes t)); [|done].
  intros y Hy. rewrite node_at_insert, decide_False; [done|]. by intros ->.
Qed.

(** A node has one position in the order. *)
Lemma position_unique m x A B A' B' :
  A ++ B = A' ++ B' -> ordered m (A ++ x :: B) -> ordered m (A' ++ x :: B') -> A = A' /\ B = B'.
Proof.
  revert A'. induction A as [|a A IH]; intros [|a' A'] Heq Ho Ho'; simpl in *; [done|..].
  - apply ordered_cons in Ho as (Hx & _ & Hb), Ho' as (Ha & _ & Ha').
    specialize (Ha' x ltac:(apply elem_of_app; right; left)).
    specialize (Hb a' ltac:(rewrite Heq; left)). unfold before, node_ok in *. lia.
  - apply ordered_cons in Ho as (Ha & _ & Ha'), Ho' as (Hx & _ & Hb).
    specialize (Ha' x ltac:(apply elem_of_app; right; left)).
    specialize (Hb a ltac:(rewrite <- Heq; left)). unfold before, node_ok in *. lia.
  - injection Heq as -> Heq. apply ordered_cons in Ho as (_ & Ho & _), Ho' as (_ & Ho' & _).
    by destruct (IH A' Heq Ho Ho') as [-> ->].
Qed.

(** Adding a node that fits between its neighbours. *)
Lemma add_at t x A B :
  range_tree_inv t -> x ∉ rt_head t -> rt_head t = A ++ B -> ordered (rt_nodes t) (A ++ x :: B) ->
  exists rb, uvm_range_tree_add t x = Some (NV_OK, RangeTree (rt_nodes t) rb (A ++ x :: B)) /\
             range_tree_inv (RangeTree (rt_nodes t) rb (A ++ x :: B)).
Proof.
  intros Hinv Hx Hl Ho. pose proof Ho as (_ & (Hok & _ & Hb)%ordered_cons & Hc)%ordered_app.
  destruct (add_spec t x Hinv Hx Hok) as [y Hy Hov|A' B' rb Hl' _ Hinv'].
  - exfalso. pose proof (inv_node_ok t y Hinv Hy) as Hoky.
    rewrite (proj2 (overlap_false t x y Hok Hoky)) in Hov; [done|].
    rewrite Hl in Hy. apply elem_of_app in Hy as [Hy|Hy]; [right; apply Hc; [done|left]|left; by apply Hb].
  - rewrite Hl in Hl'. pose proof (ri_ordered _ Hinv') as Ho'. simpl in Ho'.
    destruct (position_unique _ x _ _ _ _ Hl' Ho Ho') as [<- <-]. by exists rb.
Qed.

Lemma split_spec t A x B new :
  range_tree_inv t -> rt_head t = A ++ x :: B -> new ∉ rt_head t ->
  n_start t x < n_start t new -> n_start t new <= n_end t x ->
  exists rb, let t' := RangeTree (<[x := Range (n_start t x) (n_start t new - 1)]>
                                   (<[new := Range (n_start t new) (n_end t x)]> (rt_nodes t)))
                         rb (A ++ x :: new :: B) in
    uvm_range_tree_split t x new = Some t' /\ range_tree_inv t'.
Proof.
  intros Hinv Hl Hnew H1 H2. unfold uvm_range_tree_split, UVM_ASSERT.
  destruct (inv_split t A x B Hinv Hl) as (Hx & _ & Hnd & HA & HB).
  unfold node_ok in Hx. fold (n_start t x) (n_end t x) in Hx.
  replace (n_start t x <? n_start t new) with true by (symmetry; by apply Z.ltb_lt).
  replace (n_start t new <=? n_end t x) with true by (symmetry; by apply Z.leb_le). simpl.
  rewrite u64_small by (unfold is_u64; lia).
  set (t1 := set_node new _ t). set (r := Range (n_start t x) _).
  assert (Hxn : x <> new) by (intros ->; apply Hnew; rewrite Hl; apply elem_of_app; right; left).
  assert (Hinv1 : range_tree_inv t1) by by apply inv_set_outside.
  assert (Hinv2 : range_tree_inv (set_node x r t1)).
  { assert (Hsame : node_at (rt_nodes t1) x = node_at (rt_nodes t) x)
      by (simpl; by rewrite node_at_insert, decide_False).
    apply (resize_spec t1 A x B); auto; unfold n_start, n_end; rewrite ?Hsame; simpl;
      fold (n_start t x) (n_end t x) (n_start t new); lia. }
  assert (Hat : node_at (rt_nodes (set_node x r t1)) new = Range (n_start t new) (n_end t x)).
  { simpl. rewrite node_at_insert, decide_False, node_at_insert, decide_True by done. done. }
  assert (Hatx : node_at (rt_nodes (set_node x r t1)) x = r).
  { simpl. by rewrite node_at_insert, decide_True. }
  assert (Hok : node_ok (rt_nodes (set_node x r t1)) new) by (unfold node_ok; rewrite Hat; simpl; lia).
  assert (Hfar : forall y, y ∈ A ++ B -> node_at (rt_nodes (set_node x r t1)) y = node_at (rt_nodes t) y).
  { intros y Hy. simpl. rewrite !node_at_insert, !decide_False; [done|..]; intros ->.
    - apply Hnew. rewrite Hl, elem_of_app, elem_of_cons. rewrite elem_of_app in Hy. tauto.
    - apply NoDup_middle in Hnd as (? & ? & _). apply elem_of_app in Hy. tauto. }
  assert (Ho : ordered (rt_nodes (set_node x r t1)) (A ++ x :: new :: B)).
  { replace (A ++ x :: new :: B) with ((A ++ [x]) ++ new :: B) by by rewrite <- app_assoc.
    pose proof (ri_ordered _ Hinv2) as Ho2. simpl in Ho2. rewrite Hl in Ho2.
    replace (A ++ x :: B) with ((A ++ [x]) ++ B) in Ho2 by by rewrite <- app_assoc.
    apply ordered_insert; [done..| |].
    - apply Forall_app. rewrite Forall_singleton, Hat, Hatx. simpl. split; [|lia].
      rewrite Forall_forall in HA |- *. intros y Hy. rewrite Hfar by (apply elem_of_app; by left).
      specialize (HA y Hy). unfold n_end in HA. simpl in *. lia.
    - rewrite Hat. rewrite Forall_forall in HB |- *. intros y Hy.
      rewrite Hfar by (apply elem_of_app; by right). by apply HB. }
  replace (A ++ x :: new :: B) with ((A ++ [x]) ++ new :: B) in * by by rewrite <- app_assoc.
  destruct (add_at (set_node x r t1) new (A ++ [x]) B) as (rb & -> & Hinv3); simpl; auto.
  { by rewrite Hl, <- app_assoc. }
  by exists rb.
Qed.

(** ** Iteration *)

Definition touches t s e y : Prop := uvm_ranges_overlap (n_start t y) (n_end t y) s e = true.
#[export] Instance touches_dec t s e y : Decision (touches t s e y).
Proof. unfold touches. apply _. Defined.

Lemma touches_iff t s e y : touches t s e y <-> n_start t y <= e /\ s <= n_end t y.
Proof. unfold touches, uvm_ranges_overlap. by rewrite andb_true_iff, !Z.leb_le. Qed.

Lemma filter_none (P : Z -> Prop) `{!forall x, Decision (P x)} (l : list Z) :
  (forall y, y ∈ l -> ~ P y) -> filter P l = [].
Proof.
  induction l as [|y l IH]; [done|]. intros Hn. rewrite filter_cons_False by (apply Hn; left).
  apply IH. intros z Hz. apply Hn. by right.
Qed.

(** From a node in the range, the loop visits the rest of the range. *)
Lemma iter_from_spec t s e fuel A x B :
  range_tree_inv t -> rt_head t = A ++ x :: B -> (length B < fuel)%nat ->
  s <= n_end t x -> n_start t x <= e ->
  iter_from fuel t (Some x) e = filter (touches t s e) (x :: B).
Proof.
  intros Hinv. revert fuel A x. induction B as [|y B IH]; intros fuel A x Hl Hf Hs He.
  all: pose proof (inv_split t A x _ Hinv Hl) as (Hx & _ & Hnd & _ & HB).
  all: rewrite filter_cons_True by by apply touches_iff.
  all: destruct fuel as [|fuel]; simpl in *; [lia|]; f_equal.
  all: unfold uvm_range_tree_iter_next, uvm_range_tree_next;
    rewrite Hl, list_next_app by (apply NoDup_middle in Hnd; tauto).
  - by destruct fuel.
  - simpl. apply Forall_cons in HB as [Hy HB].
    assert (Hl' : rt_head t = (A ++ [x]) ++ y :: B) by (rewrite Hl; by rewrite <- app_assoc).
    assert (Hoky : node_ok (rt_nodes t) y).
    { apply inv_node_ok; [done|]. rewrite Hl'. apply elem_of_app. right. left. }
    unfold node_ok in *. fold (n_start t x) (n_end t x) (n_start t y) (n_end t y) in *.
    destruct (Z.leb_spec (n_start t y) e) as [Hle|Hgt].
    + apply (IH fuel (A ++ [x]) y); auto; lia.
    + rewrite filter_none; [by destruct fuel|]. intros z Hz. rewrite touches_iff.
      destruct (inv_split t (A ++ [x]) y B Hinv Hl') as (_ & _ & _ & _ & HB').
      rewrite Forall_forall in HB'. apply elem_of_cons in Hz as [->|Hz]; [lia|].
      specialize (HB' z Hz). simpl in HB'. lia.
Qed.

(** Where the iteration starts. *)
Inductive first_spec t s e : option Z -> Prop :=
| first_some A x B :
    rt_head t = A ++ x :: B -> Forall (fun y => n_end t y < s) A ->
    s <= n_end t x -> n_start t x <= e -> first_spec t s e (Some x)
| first_none A B :
    rt_head t = A ++ B -> Forall (fun y => n_end t y < s) A ->
    Forall (fun y => e < n_start t y) B -> first_spec t s e None.

Lemma iter_first_spec t s e :
  range_tree_inv t -> s <= e ->
  exists o, uvm_range_tree_iter_first t s e = Some o /\ first_spec t s e o.
Proof.
  intros Hinv Hse. unfold uvm_range_tree_iter_first, UVM_ASSERT.
  replace (s <=? e) with true by (symmetry; by apply Z.leb_le). simpl.
  destruct (range_node_find_spec t s Hinv) as [A x B par Hl Hc|A B par [Hl HA HB] Hlk]; simpl.
  - exists (Some x). split; [done|]. unfold contains in Hc.
    destruct (inv_split t A x B Hinv Hl) as (_ & _ & _ & HA & _).
    apply (first_some _ _ _ A x B); [done| |lia..].
    eapply Forall_impl; [exact HA|]. simpl. lia.
  - destruct B as [|x B]; simpl.
    { exists None. split; [done|]. by apply (first_none _ _ _ A []). }
    apply Forall_cons in HB as [Hx HB]. fold (n_start t x) in Hx.
    destruct (inv_split t A x B Hinv Hl) as (Hok & _ & Hnd & _ & HB').
    unfold node_ok in Hok. fold (n_start t x) (n_end t x) in Hok.
    replace (s <? n_start t x) with true by (symmetry; by apply Z.ltb_lt).
    unfold uvm_range_tree_prev. rewrite Hl, list_prev_app by (apply NoDup_middle in Hnd; tauto).
    replace (match last A with Some prev => _ | None => true end) with true.
    2: { destruct (last A) as [q|] eqn:Hq; [|done]. apply last_Some_elem_of in Hq.
         rewrite Forall_forall in HA. symmetry. apply Z.ltb_lt. by apply HA. }
    simpl. eexists. split; [done|]. destruct (Z.leb_spec (n_start t x) e).
    + by apply (first_some _ _ _ A x B); [..|lia|].
    + apply (first_none _ _ _ A (x :: B)); [done..|]. apply Forall_cons. split; [done|].
      eapply Forall_impl; [exact HB'|]. simpl. lia.
Qed.

Lemma for_each_in_spec t s e :
  range_tree_inv t -> s <= e ->
  uvm_range_tree_for_each_in t s e = Some (filter (touches t s e) (rt_head t)).
Proof.
  intros Hinv Hse. unfold uvm_range_tree_for_each_in.
  destruct (iter_first_spec t s e Hinv Hse) as (o & -> & Hf). simpl. f_equal.
  destruct Hf as [A x B Hl HA H1 H2|A B Hl HA HB].
  - rewrite (iter_from_spec t s e _ A x B) by
      (auto; rewrite Hl, length_app; simpl; lia).
    rewrite Hl, filter_app, (filter_none _ A); [done|].
    intros y Hy. rewrite touches_iff. rewrite Forall_forall in HA. specialize (HA y Hy). simpl in HA. lia.
  - rewrite filter_none; [by destruct (length _)|].
    intros y Hy. rewrite touches_iff. rewrite Forall_forall in HA, HB. rewrite Hl in Hy.
    apply elem_of_app in Hy as [Hy|Hy]; [specialize (HA y Hy)|specialize (HB y Hy)]; simpl in *; lia.
Qed.
End range_tree_facts.

(** ** A concrete tree

    No rebalancing after an insertion, and removal of a node by joining its
    subtrees: the laws hold. *)

Definition rb_join (l r : rbtree) : rbtree :=
  (fix go l := match l with
               | Leaf => r
               | Node a x b => Node a x (go b)
               end) l.

Fixpoint naive_erase (x : Z) (t : rbtree) : rbtree :=
  match t with
  | Leaf => Leaf
  | Node l y r => if decide (y = x) then rb_join (naive_erase x l) (naive_erase x r)
                  else Node (naive_erase x l) y (naive_erase x r)
  end.

Definition naive_rb : rb_ops := {| rb_insert_color _ t := t; rb_erase := naive_erase |}.

Lemma inorder_join l r : inorder (rb_join l r) = inorder l ++ inorder r.
Proof. induction l as [|a _ x b IH]; simpl; [done|]. by rewrite IH, <- app_assoc. Qed.

#[export] Instance naive_rb_laws : RbLaws naive_rb.
Proof.
  split; simpl; [done|]. intros x t _. induction t as [|l IHl y r IHr]; simpl; [done|].
  rewrite filter_app, <- IHl. destruct (decide (y = x)) as [->|].
  - rewrite inorder_join, filter_cons_False by auto. by rewrite IHr.
  - rewrite filter_cons_True by done. simpl. by rewrite IHr.
Qed.
