(* ===== verification/UvmRangeTreeCorrect.v ===== *)
(** Correctness of the range tree of uvm_range_tree.c: insertion, lookup,
    iteration, holes and splitting, for every balancing of the red-black tree
    that keeps its in-order sequence. *)

From S2P Require Import Prelude UvmBits UvmRangeTree.
Local Open Scope Z_scope.

(** ** Sequences of operations

    One call of a client, with the duties the header comments of
    uvm_range_tree.h give it: a node is added once, with its bounds set; the
    other operations are given nodes of the tree, and new bounds inside the old
    ones. *)
Inductive tree_call {ops : rb_ops} (t : uvm_range_tree_t) : option uvm_range_tree_t -> Prop :=
| call_add x s e : x ∉ rt_head t -> 0 <= s <= e -> e < 2 ^ 64 ->
    tree_call t (r ← uvm_range_tree_add (set_node x (Range s e) t) x; Some (snd r))
| call_remove x : x ∈ rt_head t -> tree_call t (Some (uvm_range_tree_remove t x))
| call_shrink x s e : x ∈ rt_head t -> n_start t x <= s <= e -> e <= n_end t x ->
    tree_call t (uvm_range_tree_shrink_node t x s e)
| call_split x new s : x ∈ rt_head t -> new ∉ rt_head t -> n_start t x < s <= n_end t x ->
    tree_call t (uvm_range_tree_split (set_node new (Range s s) t) x new)
| call_merge_prev x : x ∈ rt_head t -> tree_call t (Some (snd (uvm_range_tree_merge_prev t x)))
| call_merge_next x : x ∈ rt_head t -> tree_call t (Some (snd (uvm_range_tree_merge_next t x))).

Inductive tree_reachable {ops : rb_ops} : uvm_range_tree_t -> Prop :=
| reach_init m : tree_reachable (uvm_range_tree_init m)
| reach_call t t' : tree_reachable t -> tree_call t (Some t') -> tree_reachable t'.

Section facts.
Context {ops : rb_ops} {laws : RbLaws ops}.

Lemma n_start_set_ne t x y r : y <> x -> n_start (set_node x r t) y = n_start t y.
Proof. intros. unfold n_start. simpl. by rewrite node_at_insert, decide_False. Qed.
Lemma n_end_set_ne t x y r : y <> x -> n_end (set_node x r t) y = n_end t y.
Proof. intros. unfold n_end. simpl. by rewrite node_at_insert, decide_False. Qed.
Lemma n_start_set t x r : n_start (set_node x r t) x = r_start r.
Proof. unfold n_start. simpl. by rewrite node_at_insert, decide_True. Qed.
Lemma n_end_set t x r : n_end (set_node x r t) x = r_end r.
Proof. unfold n_end. simpl. by rewrite node_at_insert, decide_True. Qed.

(** Every call returns (no assertion fails) and keeps the invariant. *)
Lemma tree_call_inv t o :
  range_tree_inv t -> tree_call t o -> exists t', o = Some t' /\ range_tree_inv t'.
Proof.
  intros Hinv Hc. destruct Hc as [x s e Hx Hs He|x Hx|x s e Hx Hs He|x new s Hx Hnew Hs|x Hx|x Hx].
  1: { destruct (add_spec (set_node x (Range s e) t) x) as [y ? ?|A B rb ? ? ?]; simpl; eauto.
       - by apply inv_set_outside.
       - unfold node_ok. simpl. rewrite node_at_insert, decide_True by done. simpl. lia.
       - eexists. split; [done|]. by apply inv_set_outside. }
  all: apply list_elem_of_split in Hx as (A & B & Hl).
  - eexists. split; [done|]. by eapply remove_spec.
  - destruct (shrink_spec t A x B s e) as [-> ?]; auto; try lia. by eexists.
  - assert (x <> new) by (intros ->; apply Hnew; rewrite Hl; apply elem_of_app; right; left).
    destruct (split_spec (set_node new (Range s s) t) A x B new) as (rb & -> & Hi); eauto.
    + by apply inv_set_outside.
    + rewrite n_start_set_ne, n_start_set by done. simpl. lia.
    + rewrite n_end_set_ne, n_start_set by done. simpl. lia.
  - destruct (merge_prev_spec t A x B Hinv Hl) as [(A' & p & _ & _ & -> & ?)|[_ ->]]; eauto.
  - destruct (merge_next_spec t A x B Hinv Hl) as [(B' & n & _ & _ & -> & ?)|[_ ->]]; eauto.
Qed.

Lemma init_inv m : range_tree_inv (uvm_range_tree_init m).
Proof. split; simpl; [done|constructor|]. split; constructor. Qed.

Lemma reachable_inv t : tree_reachable t -> range_tree_inv t.
Proof.
  induction 1 as [m|t t' _ IH Hc]; [apply init_inv|].
  destruct (tree_call_inv t _ IH Hc) as (t2 & [= <-] & ?). done.
Qed.

(** The start of a hole: just after the last node below the address. *)
Lemma hole_start t A B addr :
  range_tree_inv t -> rt_head t = A ++ B -> 0 <= addr < 2 ^ 64 -> Forall (fun y => n_end t y < addr) A ->
  let s := match last A with Some n => u64 (n_end t n + 1) | None => 0 end in
  0 <= s <= addr /\ (s = 0 \/ exists x, x ∈ rt_head t /\ n_end t x + 1 = s) /\
  (forall x, x ∈ A -> n_end t x < s).
Proof.
  intros Hinv Hl Ha HA. destruct A as [|n A' _] using rev_ind; simpl.
  { split; [lia|]. split; [by left|]. by intros x []%elem_of_nil. }
  rewrite last_snoc. rewrite <- app_assoc in Hl. apply Forall_app in HA as [_ [HA _]%Forall_cons].
  destruct (inv_split t A' n B Hinv Hl) as (Hok & _ & _ & HA' & _). unfold node_ok in Hok.
  fold (n_start t n) (n_end t n) in Hok. rewrite u64_small by (unfold is_u64; simpl in *; lia).
  split; [lia|]. split.
  - right. exists n. split; [|done]. rewrite Hl. apply elem_of_app. right. left.
  - intros x [Hx|[->|[]%elem_of_nil]%elem_of_cons]%elem_of_app; [|lia].
    rewrite Forall_forall in HA'. specialize (HA' x Hx). simpl in HA'. lia.
Qed.
End facts.

(** ** Theorems *)

(** Insertion into any tree built by the operations of the module returns
    (none of its assertions fails); it answers NV_ERR_UVM_ADDRESS_IN_USE, and
    leaves the tree alone, exactly when the new range overlaps a range already
    there; otherwise it answers NV_OK and the node list is the old one with the
    new node at its place in address order, the tree keeping its invariant
    (search tree and list agree, ranges disjoint and ascending). *)
Theorem uvm_range_tree_add_correct {ops : rb_ops} {laws : RbLaws ops} t x s e :
  tree_reachable t -> x ∉ rt_head t -> 0 <= s <= e -> e < 2 ^ 64 ->
  let t0 := set_node x (Range s e) t in
  exists status t', uvm_range_tree_add t0 x = Some (status, t') /\ range_tree_inv t' /\
    (status = NV_ERR_UVM_ADDRESS_IN_USE <-> exists y, y ∈ rt_head t /\ touches t s e y) /\
    (status <> NV_OK -> t' = t0) /\
    (status = NV_OK -> rt_nodes t' = rt_nodes t0 /\
       exists A B, rt_head t = A ++ B /\ rt_head t' = A ++ x :: B).
Proof.
  intros Hr Hx Hs He t0. assert (Hinv0 : range_tree_inv t0).
  { apply inv_set_outside; [|done]. by apply reachable_inv. }
  assert (Hok : node_ok (rt_nodes t0) x).
  { unfold node_ok. simpl. rewrite node_at_insert, decide_True by done. simpl. lia. }
  assert (Heq : forall y, y ∈ rt_head t -> range_nodes_overlap t0 x y = true <-> touches t s e y).
  { intros y Hy. unfold range_nodes_overlap, touches, uvm_ranges_overlap, t0.
    rewrite n_start_set, n_end_set, n_start_set_ne, n_end_set_ne by by intros ->.
    simpl. rewrite !andb_true_iff. tauto. }
  destruct (add_spec t0 x Hinv0 Hx Hok) as [y Hy Hov|A B rb Hl Hno Hinv].
  - do 2 eexists. split; [done|]. split; [done|]. split; [|done]. split; [|done].
    intros _. exists y. split; [done|]. by apply Heq.
  - do 2 eexists. split; [done|]. split; [done|]. split; [|split; [done|]].
    + split; [done|]. intros (y & Hy & Ht). apply Heq in Ht; [|done].
      by rewrite Hno in Ht.
    + intros _. split; [done|]. by exists A, B.
Qed.

(** C39. Search and iteration: [uvm_range_tree_find] returns a node exactly if
    some node contains the address, and that node contains it; the loop
    [uvm_range_tree_for_each_in] over an address range visits exactly the nodes
    that intersect it, each once and in address order, whatever the shape of
    the search tree. *)
Theorem uvm_range_tree_search_correct {ops : rb_ops} {laws : RbLaws ops} t :
  tree_reachable t ->
  (forall addr x, uvm_range_tree_find t addr = Some x <-> x ∈ rt_head t /\ contains t x addr) /\
  (forall s e, s <= e ->
     uvm_range_tree_for_each_in t s e = Some (filter (touches t s e) (rt_head t))).
Proof.
  intros Hr. pose proof (reachable_inv t Hr) as Hinv. split; [|intros s e; by apply for_each_in_spec].
  intros addr x. unfold uvm_range_tree_find.
  destruct (range_node_find_spec t addr Hinv) as [A y B par Hl Hc|A B par [Hl HA HB] _]; simpl.
  - split.
    + intros [= ->]. split; [|done]. rewrite Hl. apply elem_of_app. right. left.
    + intros [Hx Hcx]. f_equal. destruct (inv_split t A y B Hinv Hl) as (Hok & _ & _ & HA & HB).
      rewrite Forall_forall in HA, HB. unfold contains in *. rewrite Hl in Hx.
      apply elem_of_app in Hx as [Hx|[->|Hx]%elem_of_cons]; [specialize (HA x Hx)|done|specialize (HB x Hx)];
        simpl in *; lia.
  - split; [done|]. intros [Hx Hcx]. rewrite Forall_forall in HA, HB. unfold contains in Hcx.
    rewrite Hl in Hx. apply elem_of_app in Hx as [Hx|Hx]; [specialize (HA x Hx)|specialize (HB x Hx)];
      unfold n_start, n_end in *; simpl in *; lia.
Qed.

(** Holes: for an address inside some range the answer is
    NV_ERR_UVM_ADDRESS_IN_USE; otherwise it is NV_OK with the largest hole
    around the address: no range of the tree touches it, and on either side it
    ends at a range of the tree or at the end of the 64-bit space. *)
Theorem uvm_range_tree_find_hole_correct {ops : rb_ops} {laws : RbLaws ops} t addr :
  tree_reachable t -> is_u64 addr ->
  ((exists x, x ∈ rt_head t /\ contains t x addr) /\
   uvm_range_tree_find_hole t addr = Some (NV_ERR_UVM_ADDRESS_IN_USE, None)) \/
  exists s e, uvm_range_tree_find_hole t addr = Some (NV_OK, Some (s, e)) /\
    0 <= s <= addr /\ addr <= e <= ULLONG_MAX /\
    (forall x, x ∈ rt_head t -> ~ touches t s e x) /\
    (s = 0 \/ exists x, x ∈ rt_head t /\ n_end t x + 1 = s) /\
    (e = ULLONG_MAX \/ exists x, x ∈ rt_head t /\ n_start t x = e + 1).
Proof.
  intros Hr [Ha1 Ha2]. pose proof (reachable_inv t Hr) as Hinv. unfold uvm_range_tree_find_hole.
  destruct (iter_first_spec t addr ULLONG_MAX Hinv) as (o & -> & Hf); [unfold ULLONG_MAX; lia|]. simpl.
  destruct Hf as [A x B Hl HA H1 H2|A B Hl HA HB].
  - destruct (inv_split t A x B Hinv Hl) as (Hok & _ & Hnd & HAx & HB).
    unfold node_ok in Hok. fold (n_start t x) (n_end t x) in Hok.
    assert (Hin : x ∈ rt_head t) by (rewrite Hl; apply elem_of_app; right; left).
    destruct (Z.leb_spec (n_start t x) addr) as [Hle|Hgt].
    { left. split; [|done]. exists x. split; [done|]. unfold contains. lia. }
    right. unfold uvm_range_tree_prev. rewrite Hl, list_prev_app by (apply NoDup_middle in Hnd; tauto).
    destruct (hole_start t A (x :: B) addr Hinv Hl) as (Hs & Hs' & Hbelow); [done..|].
    do 2 eexists. split; [done|]. rewrite (u64_small (n_start t x - 1)) by (unfold is_u64; lia).
    split; [done|]. split; [unfold ULLONG_MAX; lia|]. split; [|split].
    + intros y Hy. rewrite touches_iff. apply elem_of_app in Hy as [Hy|[->|Hy]%elem_of_cons].
      * specialize (Hbelow y Hy). lia.
      * lia.
      * rewrite Forall_forall in HB. specialize (HB y Hy). simpl in HB. lia.
    + by rewrite <- Hl.
    + right. exists x. split; [by rewrite <- Hl|lia].
  - right. assert (B = []) as ->.
    { destruct B as [|b B]; [done|]. apply Forall_cons in HB as [Hb _].
      assert (Hin : b ∈ rt_head t) by (rewrite Hl; apply elem_of_app; right; left).
      pose proof (inv_node_ok t b Hinv Hin) as Hok. unfold node_ok in Hok.
      fold (n_start t b) (n_end t b) in Hok. unfold ULLONG_MAX in Hb. lia. }
    destruct (hole_start t A [] addr Hinv Hl) as (Hs & Hs' & Hbelow); [done..|].
    rewrite app_nil_r in Hl. unfold uvm_range_tree_last. rewrite Hl in Hs' |- *.
    do 2 eexists. split; [done|]. split; [done|]. split; [unfold ULLONG_MAX; lia|]. split; [|split].
    + intros y Hy. rewrite touches_iff. specialize (Hbelow y Hy). lia.
    + done.
    + by left.
Qed.

(** C40. Whatever sequence of insertions, removals, shrinks, splits and merges
    a client makes within its duties, no assertion of the module fails and the
    search tree and the address-ordered list keep agreeing on disjoint,
    ascending ranges. *)
Theorem range_tree_calls_safe {ops : rb_ops} {laws : RbLaws ops} t o :
  tree_reachable t -> tree_call t o -> exists t', o = Some t' /\ range_tree_inv t'.
Proof. intros Hr. apply tree_call_inv. by apply reachable_inv. Qed.

(** Splitting a range and merging it back is the identity: the split
    leaves [start, s-1] and [s, end] in the list one after the other, and the
    merge returns the second node and restores the list and every bound. *)
Theorem uvm_range_tree_split_merge {ops : rb_ops} {laws : RbLaws ops} t x new s :
  tree_reachable t -> x ∈ rt_head t -> new ∉ rt_head t -> n_start t x < s <= n_end t x ->
  exists t1 t2,
    uvm_range_tree_split (set_node new (Range s s) t) x new = Some t1 /\
    n_start t1 x = n_start t x /\ n_end t1 x = s - 1 /\
    n_start t1 new = s /\ n_end t1 new = n_end t x /\
    uvm_range_tree_merge_next t1 x = (Some new, t2) /\ range_tree_inv t2 /\
    rt_head t2 = rt_head t /\
    (forall y, y ∈ rt_head t -> n_start t2 y = n_start t y /\ n_end t2 y = n_end t y).
Proof.
  intros Hr Hx Hnew Hs. pose proof (reachable_inv t Hr) as Hinv. pose proof Hx as Hx0.
  apply list_elem_of_split in Hx as (A & B & Hl).
  assert (Hne : x <> new) by by intros ->.
  destruct (split_spec (set_node new (Range s s) t) A x B new) as (rb & Hsp & Hi); auto.
  { by apply inv_set_outside. }
  { rewrite n_start_set_ne, n_start_set by done. simpl. lia. }
  { rewrite n_end_set_ne, n_start_set by done. simpl. lia. }
  rewrite n_start_set, n_start_set_ne, n_end_set_ne in Hsp, Hi by done. simpl in Hsp, Hi.
  set (t1 := RangeTree _ rb _) in *.
  assert (Hat : forall y, node_at (rt_nodes t1) y =
    if decide (y = x) then Range (n_start t x) (s - 1)
    else if decide (y = new) then Range s (n_end t x) else node_at (rt_nodes t) y).
  { intros y. unfold t1. simpl. rewrite !node_at_insert. by repeat case_decide. }
  assert (Hx1 : n_start t1 x = n_start t x /\ n_end t1 x = s - 1).
  { unfold n_start, n_end. rewrite Hat, decide_True by done. done. }
  assert (Hn1 : n_start t1 new = s /\ n_end t1 new = n_end t x).
  { unfold n_start, n_end. rewrite Hat, decide_False, decide_True by done. done. }
  destruct (merge_next_spec t1 A x (new :: B) Hi eq_refl) as [(B' & n & [= <- <-] & _ & Hm & Hi2)|[Hno _]].
  2: { specialize (Hno new eq_refl). lia. }
  exists t1, (merge_next_of t1 A x B new).
  split; [done|]. split; [tauto|]. split; [tauto|]. split; [tauto|]. split; [tauto|].
  split; [done|]. split; [done|]. split; [done|].
  intros y Hy. unfold n_start at 1, n_end at 1, merge_next_of. simpl. rewrite node_at_insert.
  destruct (decide (y = x)) as [->|Hyx]; simpl; [tauto|].
  assert (y <> new) by (intros ->; by apply Hnew).
  fold (rt_nodes t1). unfold t1. simpl. by rewrite !node_at_insert, !decide_False.
Qed.

(** ** Witnesses: a tree of two ranges, [0,9] and [20,29] *)

Definition demo_tree : uvm_range_tree_t :=
  RangeTree {[ 1 := Range 0 9; 2 := Range 20 29 ]} (Node Leaf 1 (Node Leaf 2 Leaf)) [1; 2].

Lemma demo_tree_reachable : @tree_reachable naive_rb demo_tree.
Proof.
  apply (reach_call (RangeTree {[1 := Range 0 9]} (Node Leaf 1 Leaf) [1])).
  - apply (reach_call (uvm_range_tree_init ∅)); [constructor|].
    exact (@call_add naive_rb (uvm_range_tree_init ∅) 1 0 9 ltac:(by intros []%elem_of_nil) ltac:(lia) ltac:(lia)).
  - assert (Hx : 2 ∉ [1]) by (rewrite list_elem_of_singleton; lia).
    exact (@call_add naive_rb (RangeTree {[1 := Range 0 9]} (Node Leaf 1 Leaf) [1]) 2 20 29 Hx ltac:(lia) ltac:(lia)).
Qed.

Lemma uvm_range_tree_add_correct_witness :
  exists status t', uvm_range_tree_add (ops := naive_rb) (set_node 3 (Range 10 19) demo_tree) 3 = Some (status, t') /\
    range_tree_inv t'.
Proof.
  destruct (@uvm_range_tree_add_correct naive_rb naive_rb_laws demo_tree 3 10 19 demo_tree_reachable
              ltac:(by apply (bool_decide_unpack _)) ltac:(lia) ltac:(lia)) as (st & t' & H1 & H2 & _).
  exists st, t'. split; [exact H1|exact H2].
Defined.

Lemma uvm_range_tree_search_correct_witness :
  uvm_range_tree_for_each_in demo_tree 5 25 = Some [1; 2].
Proof.
  exact (proj2 (@uvm_range_tree_search_correct naive_rb naive_rb_laws demo_tree demo_tree_reachable) 5 25
           ltac:(lia)).
Defined.

Lemma uvm_range_tree_find_hole_correct_witness :
  exists s e, uvm_range_tree_find_hole demo_tree 15 = Some (NV_OK, Some (s, e)).
Proof.
  destruct (@uvm_range_tree_find_hole_correct naive_rb naive_rb_laws demo_tree 15 demo_tree_reachable
              ltac:(unfold is_u64; lia)) as [[_ H]|(s & e & H & _)].
  - vm_compute in H. discriminate H.
  - exists s, e. exact H.
Defined.

Lemma range_tree_calls_safe_witness :
  exists t', Some (uvm_range_tree_remove (ops := naive_rb) demo_tree 1) = Some t' /\ range_tree_inv t'.
Proof.
  exact (@range_tree_calls_safe naive_rb naive_rb_laws demo_tree _ demo_tree_reachable
           (@call_remove naive_rb demo_tree 1 ltac:(left))).
Defined.

Lemma uvm_range_tree_split_merge_witness :
  exists t1, uvm_range_tree_split (ops := naive_rb) (set_node 3 (Range 5 5) demo_tree) 1 3 = Some t1.
Proof.
  destruct (@uvm_range_tree_split_merge naive_rb naive_rb_laws demo_tree 1 3 5 demo_tree_reachable
              ltac:(left) ltac:(by apply (bool_decide_unpack _)) ltac:(vm_compute; split; congruence))
    as (t1 & _ & H & _).
  exists t1. exact H.
Defined.
