(* ===== verification/UvmRangeAllocator.v ===== *)
(** The range allocator (kernel-open/nvidia-uvm/uvm_range_allocator.c): hands
    out aligned ranges of an address space [0, size) from a range tree of the
    free ranges.

    The lock is not modelled: each operation is the critical section.
    [uvm_kvmalloc] is an argument: the fresh node pointer, or [None] when it
    fails.  A node that is freed stays in the store, its pointer may be returned
    again by a later allocation. *)

From stdpp Require Import sorting.
From S2P Require Import Prelude UvmBits UvmCommon UvmRangeTree.
Local Open Scope Z_scope.

Record uvm_range_allocator_t := RangeAllocator {
  ra_size : Z;
  ra_tree : uvm_range_tree_t;
}.
Record uvm_range_allocation_t := RangeAllocation {
  aligned_start : Z;
  ra_node : Z;
}.

Section range_allocator.
Context {ops : rb_ops}.

(** [None] is a failed assertion. *)
Definition uvm_range_allocator_init (m : gmap Z range) (size : Z) (kvmalloc : option Z)
  : option (NV_STATUS * option uvm_range_allocator_t) :=
  let t := uvm_range_tree_init m in
  UVM_ASSERT (0 <? size) ;;
  match kvmalloc with
  | None => Some (NV_ERR_NO_MEMORY, None)
  | Some node =>
      r ← uvm_range_tree_add (set_node node (Range 0 (u64 (size - 1))) t) node;
      UVM_ASSERT (bool_decide (fst r = NV_OK)) ;;
      Some (NV_OK, Some (RangeAllocator size (snd r)))
  end.

Definition uvm_range_allocator_deinit (ra : uvm_range_allocator_t) : option uvm_range_allocator_t :=
  first ← uvm_range_tree_iter_first (ra_tree ra) 0 (u64 (ra_size ra - 1));
  node ← first;
  UVM_ASSERT ((n_start (ra_tree ra) node =? 0) && (n_end (ra_tree ra) node =? u64 (ra_size ra - 1))) ;;
  Some (RangeAllocator (ra_size ra) (uvm_range_tree_remove (ra_tree ra) node)).

(** The checks of one iteration of the search: the aligned start when the
    free range fits. *)
Definition try_node (t : uvm_range_tree_t) (size alignment node : Z) : option (option Z) :=
  astart ← UVM_ALIGN_UP (n_start t node) alignment;
  let aend := u64 (u64 (astart + size) - 1) in
  Some (if (astart <? n_start t node) || (aend <? astart) then None
        else if n_end t node <? aend then None
        else Some astart).

Fixpoint search_free (t : uvm_range_tree_t) (size alignment : Z) (nodes : list Z)
  : option (option (Z * Z)) :=
  match nodes with
  | [] => Some None
  | node :: nodes =>
      r ← try_node t size alignment node;
      match r with
      | Some astart => Some (Some (node, astart))
      | None => search_free t size alignment nodes
      end
  end.

(** Claiming the front of the free range [node]. *)
Definition claim_range (ra : uvm_range_allocator_t) (size node astart new : Z)
  : option uvm_range_allocator_t :=
  let t := ra_tree ra in
  let aend := u64 (u64 (astart + size) - 1) in
  let t1 := set_node new (Range (n_start t node) aend) t in
  t2 ← (if aend <? n_end t1 node
        then uvm_range_tree_shrink_node t1 node (u64 (aend + 1)) (n_end t1 node)
        else UVM_ASSERT (n_end t1 node =? aend) ;; Some (uvm_range_tree_remove t1 node));
  Some (RangeAllocator (ra_size ra) t2).

Definition uvm_range_allocator_alloc (ra : uvm_range_allocator_t) (size alignment : Z)
    (kvmalloc : option Z) : option (NV_STATUS * uvm_range_allocator_t * option uvm_range_allocation_t) :=
  UVM_ASSERT (0 <? size) ;;
  let alignment := if alignment =? 0 then 1 else alignment in
  UVM_ASSERT (is_power_of_2 alignment) ;;
  if ra_size ra <? size then Some (NV_ERR_UVM_ADDRESS_IN_USE, ra, None)
  else match kvmalloc with
  | None => Some (NV_ERR_NO_MEMORY, ra, None)
  | Some new =>
      nodes ← uvm_range_tree_for_each_in (ra_tree ra) 0 (u64 (ra_size ra - size));
      found ← search_free (ra_tree ra) size alignment nodes;
      match found with
      | Some (node, astart) =>
          ra' ← claim_range ra size node astart new;
          Some (NV_OK, ra', Some (RangeAllocation astart new))
      | None => Some (NV_ERR_UVM_ADDRESS_IN_USE, ra, None)
      end
  end.

Definition uvm_range_allocator_free (ra : uvm_range_allocator_t)
    (range_alloc : option uvm_range_allocation_t) : option uvm_range_allocator_t :=
  match range_alloc with
  | None => Some ra
  | Some a =>
      r ← uvm_range_tree_add (ra_tree ra) (ra_node a);
      UVM_ASSERT (bool_decide (fst r = NV_OK)) ;;
      let t1 := snd (uvm_range_tree_merge_prev (snd r) (ra_node a)) in
      let t2 := snd (uvm_range_tree_merge_next t1 (ra_node a)) in
      Some (RangeAllocator (ra_size ra) t2)
  end.
End range_allocator.

(** ** Ownership of the address space

    The nodes in use, free or handed out, partition [0, size). *)
Record owned (m : gmap Z range) (size : Z) (l : list Z) : Prop := {
  ow_nodup : NoDup l;
  ow_ok : forall x, x ∈ l -> node_ok m x /\ r_end (node_at m x) < size;
  ow_disjoint : forall x y, x ∈ l -> y ∈ l -> x <> y -> before m x y \/ before m y x;
  ow_cover : forall addr, 0 <= addr < size ->
    exists x, x ∈ l /\ r_start (node_at m x) <= addr <= r_end (node_at m x);
}.

#[export] Instance owned_perm m size : Proper (Permutation ==> iff) (owned m size).
Proof.
  intros l l' Hp. split; intros [H1 H2 H3 H4]; split.
  1, 5: by rewrite <- Hp + rewrite Hp.
  all: setoid_rewrite <- Hp || setoid_rewrite Hp; done.
Qed.

(** Replacing the owners [x :: _] of a part of the space by others that cover
    exactly the same addresses. *)
Lemma owned_replace m m' size l l' rest :
  owned m size (l ++ rest) -> NoDup (l' ++ rest) ->
  (forall x, x ∈ rest -> node_at m' x = node_at m x) ->
  (forall x, x ∈ l' -> node_ok m' x) ->
  (forall x y, x ∈ l' -> y ∈ l' -> x <> y -> before m' x y \/ before m' y x) ->
  (forall addr, (exists x, x ∈ l /\ r_start (node_at m x) <= addr <= r_end (node_at m x)) <->
                (exists x, x ∈ l' /\ r_start (node_at m' x) <= addr <= r_end (node_at m' x))) ->
  owned m' size (l' ++ rest).
Proof.
  intros [H1 H2 H3 H4] Hnd Hrest Hok Hdis Hcov.
  assert (Hsep : forall x y, x ∈ l' -> y ∈ rest -> before m' x y \/ before m' y x).
  { intros x y Hx Hy. pose proof (Hok x Hx) as Hokx. unfold before, node_ok in *. rewrite (Hrest y Hy).
    destruct (H2 y ltac:(apply elem_of_app; by right)) as [(? & ? & ?) ?].
    destruct (Z.ltb_spec (r_end (node_at m' x)) (r_start (node_at m y))); [by left|].
    destruct (Z.ltb_spec (r_end (node_at m y)) (r_start (node_at m' x))); [by right|exfalso].
    set (a := Z.max (r_start (node_at m' x)) (r_start (node_at m y))).
    destruct (proj2 (Hcov a)) as (z & Hz & Hza); [exists x; split; [done|lia]|].
    apply NoDup_app in H1 as (_ & Hd & _).
    destruct (H3 z y) as [Hb|Hb]; [apply elem_of_app; by left|apply elem_of_app; by right| | |].
    - intros ->. by apply (Hd y).
    - unfold a in *. lia.
    - unfold a in *. lia. }
  split; [done|..].
  - intros x [Hx|Hx]%elem_of_app.
    + split; [by apply Hok|]. pose proof (Hok x Hx) as Hokx. unfold node_ok in Hokx.
      destruct (proj2 (Hcov (r_end (node_at m' x)))) as (z & Hz & Hza); [exists x; split; [done|lia]|].
      destruct (H2 z) as [_ ?]; [apply elem_of_app; by left|]. lia.
    + unfold node_ok. rewrite Hrest by done. apply H2. apply elem_of_app. by right.
  - intros x y [Hx|Hx]%elem_of_app [Hy|Hy]%elem_of_app Hne; [by apply Hdis|by apply Hsep| |].
    + destruct (Hsep y x Hy Hx); tauto.
    + unfold before. rewrite !Hrest by done. apply H3; [apply elem_of_app; by right..|done].
  - intros addr Ha. destruct (H4 addr Ha) as (x & [Hx|Hx]%elem_of_app & Hxa).
    + destruct (proj1 (Hcov addr)) as (z & Hz & Hza); [by exists x|].
      exists z. split; [apply elem_of_app; by left|done].
    + exists x. rewrite Hrest by done. split; [apply elem_of_app; by right|done].
Qed.

Lemma outside_update m (l : list Z) x r :
  x ∉ l -> forall y, y ∈ l -> node_at (<[x := r]> m) y = node_at m y.
Proof. intros Hx y Hy. rewrite node_at_insert, decide_False; [done|]. by intros ->. Qed.

(** A new owner for the front of a range. *)
Lemma owned_carve m size l f new c :
  owned m size (f :: l) -> new ∉ f :: l ->
  r_start (node_at m f) <= c < r_end (node_at m f) ->
  owned (<[f := Range (c + 1) (r_end (node_at m f))]> (<[new := Range (r_start (node_at m f)) c]> m))
    size (f :: new :: l).
Proof.
  intros Ho Hnew Hc. pose proof Ho as [Hnd Hok _ _]. apply not_elem_of_cons in Hnew as [Hne Hnew].
  destruct (Hok f ltac:(left)) as [(? & ? & ?) _]. apply NoDup_cons in Hnd as [Hf Hnd].
  set (m' := <[f := _]> _).
  assert (Hatf : node_at m' f = Range (c + 1) (r_end (node_at m f))).
  { unfold m'. by rewrite node_at_insert, decide_True. }
  assert (Hatn : node_at m' new = Range (r_start (node_at m f)) c).
  { unfold m'. by rewrite node_at_insert, decide_False, node_at_insert, decide_True. }
  apply (owned_replace m m' size [f] [f; new]); [done|..].
  - simpl. rewrite !NoDup_cons, not_elem_of_cons. done.
  - intros x Hx. unfold m'. rewrite (outside_update _ l), (outside_update _ l); done.
  - intros x [->|[->|[]%elem_of_nil]%elem_of_cons]%elem_of_cons; unfold node_ok; rewrite ?Hatf, ?Hatn; simpl; lia.
  - intros x y [->|[->|[]%elem_of_nil]%elem_of_cons]%elem_of_cons [->|[->|[]%elem_of_nil]%elem_of_cons]%elem_of_cons;
      unfold before; rewrite ?Hatf, ?Hatn; simpl; try done; lia.
  - intros addr. split.
    + intros (x & ->%list_elem_of_singleton & Hx).
      destruct (Z.leb_spec addr c); [exists new|exists f]; rewrite ?Hatf, ?Hatn; simpl; (split; [|lia]).
      * right. left.
      * left.
    + intros (x & [->|[->|[]%elem_of_nil]%elem_of_cons]%elem_of_cons & Hx); rewrite ?Hatf, ?Hatn in Hx;
        simpl in Hx; exists f; (split; [left|lia]).
Qed.

(** A new owner for a whole range. *)
Lemma owned_rename m size l f new :
  owned m size (f :: l) -> new ∉ f :: l ->
  owned (<[new := Range (r_start (node_at m f)) (r_end (node_at m f))]> m) size (new :: l).
Proof.
  intros Ho Hnew. pose proof Ho as [Hnd Hok _ _]. apply not_elem_of_cons in Hnew as [Hne Hnew].
  destruct (Hok f ltac:(left)) as [(? & ? & ?) _]. apply NoDup_cons in Hnd as [Hf Hnd].
  set (m' := <[new := _]> m).
  assert (Hatn : node_at m' new = Range (r_start (node_at m f)) (r_end (node_at m f))).
  { unfold m'. by rewrite node_at_insert, decide_True. }
  apply (owned_replace m m' size [f] [new]); [done|by apply NoDup_cons|by apply outside_update|..].
  - intros x ->%list_elem_of_singleton. unfold node_ok. rewrite Hatn. simpl. lia.
  - by intros x y ->%list_elem_of_singleton ->%list_elem_of_singleton.
  - intros addr. split; intros (x & ->%list_elem_of_singleton & Hx); eexists;
      (split; [left|]); rewrite ?Hatn in *; done.
Qed.

(** Two adjacent ranges under one owner. *)
Lemma owned_fuse m size l x y s e :
  owned m size (y :: x :: l) ->
  (r_end (node_at m y) + 1 = r_start (node_at m x) /\ s = r_start (node_at m y) /\ e = r_end (node_at m x) \/
   r_end (node_at m x) + 1 = r_start (node_at m y) /\ s = r_start (node_at m x) /\ e = r_end (node_at m y)) ->
  owned (<[x := Range s e]> m) size (x :: l).
Proof.
  intros Ho Hadj. pose proof Ho as [Hnd Hok _ _]. rewrite !NoDup_cons in Hnd. destruct Hnd as (Hy & Hx & Hnd).
  destruct (Hok x ltac:(right; left)) as [(? & ? & ?) _]. destruct (Hok y ltac:(left)) as [(? & ? & ?) _].
  set (m' := <[x := _]> m).
  assert (Hatx : node_at m' x = Range s e) by (unfold m'; by rewrite node_at_insert, decide_True).
  apply (owned_replace m m' size [y; x] [x]); [done|by apply NoDup_cons|by apply outside_update|..].
  - intros z ->%list_elem_of_singleton. unfold node_ok. rewrite Hatx. simpl. lia.
  - by intros z z' ->%list_elem_of_singleton ->%list_elem_of_singleton.
  - intros addr. split.
    + intros (z & [->|[->|[]%elem_of_nil]%elem_of_cons]%elem_of_cons & Hz);
        exists x; rewrite Hatx; simpl; (split; [left|lia]).
    + intros (z & ->%list_elem_of_singleton & Hz). rewrite Hatx in Hz. simpl in Hz.
      destruct Hadj as [(? & -> & ->)|(? & -> & ->)].
      * destruct (Z.leb_spec addr (r_end (node_at m y))); [exists y|exists x];
          (split; [left || (right; left)|lia]).
      * destruct (Z.leb_spec addr (r_end (node_at m x))); [exists x|exists y];
          (split; [left || (right; left)|lia]).
Qed.

(** ** Free ranges never touch *)

Definition gapped (m : gmap Z range) (l : list Z) : Prop :=
  StronglySorted (fun x y => r_end (node_at m x) + 1 < r_start (node_at m y)) l.

Lemma gapped_middle m A x B :
  gapped m (A ++ x :: B) <->
  gapped m (A ++ B) /\
  (forall a, a ∈ A -> r_end (node_at m a) + 1 < r_start (node_at m x)) /\
  (forall b, b ∈ B -> r_end (node_at m x) + 1 < r_start (node_at m b)).
Proof.
  unfold gapped. rewrite !StronglySorted_app, StronglySorted_cons, Forall_forall. split.
  - intros (Hc & HA & Hx & HB). split; [|split; [|done]].
    + split; [|done]. intros a b Ha Hb. apply Hc; [done|by right].
    + intros a Ha. apply Hc; [done|left].
  - intros ((Hc & HA & HB) & H1 & H2). split; [|done].
    intros a b Ha [->|Hb]%elem_of_cons; auto.
Qed.

Lemma gapped_ext m m' l :
  (forall y, y ∈ l -> node_at m' y = node_at m y) -> gapped m l -> gapped m' l.
Proof.
  unfold gapped. induction l as [|x l IH]; [constructor|]. intros Heq.
  rewrite !StronglySorted_cons, !Forall_forall. intros [Hx Hl]. split.
  - intros y Hy. rewrite (Heq x ltac:(left)), (Heq y ltac:(by right)). by apply Hx.
  - apply IH; [|done]. intros y Hy. apply Heq. by right.
Qed.

Section range_allocator_facts.
Context {ops : rb_ops} {laws : RbLaws ops}.
Implicit Types (ra : uvm_range_allocator_t) (live : list Z).

(** [live]: the nodes of the allocations in use. *)
Record ra_inv ra live : Prop := {
  rv_size : 0 < ra_size ra < 2 ^ 64;
  rv_tree : range_tree_inv (ra_tree ra);
  rv_owned : owned (rt_nodes (ra_tree ra)) (ra_size ra) (rt_head (ra_tree ra) ++ live);
  rv_gapped : gapped (rt_nodes (ra_tree ra)) (rt_head (ra_tree ra));
}.

Definition same_nodes (l : list Z) ra ra' : Prop :=
  forall y, y ∈ l -> node_at (rt_nodes (ra_tree ra')) y = node_at (rt_nodes (ra_tree ra)) y.

(** ** Searching *)

(** Where a request fits into a free range: the first aligned address. *)
Definition fits (t : uvm_range_tree_t) (size alignment node astart : Z) : Prop :=
  astart = round_up (n_start t node) alignment /\ astart + size - 1 <= n_end t node.

Lemma try_node_spec t size k node :
  node_ok (rt_nodes t) node -> 0 < size < 2 ^ 64 -> 0 <= k < 64 ->
  exists o, try_node t size (2 ^ k) node = Some o /\
    forall a, o = Some a <-> fits t size (2 ^ k) node a.
Proof.
  intros (H1 & H2 & H3) Hs Hk. fold (n_start t node) (n_end t node) in *.
  unfold try_node, fits. destruct (align_up_wraps (n_start t node) k) as (y & -> & Hy); [unfold is_u64; lia|done|].
  pose proof (round_up_spec (n_start t node) (2 ^ k) ltac:(lia)) as [Hr _].
  simpl. eexists. split; [done|]. intros a.
  assert (Hm : u64 (u64 (y + size) - 1) = u64 (y + size - 1)).
  { unfold u64, wrap. by rewrite Zminus_mod_idemp_l. }
  rewrite Hm. destruct Hy as [[Hlt ->]|(Hge & -> & Hpos)].
  - set (r := round_up (n_start t node) (2 ^ k)) in *.
    destruct (Z.ltb_spec r (n_start t node)) as [?|_]; [lia|]. simpl.
    destruct (Z.ltb_spec (r + size - 1) (2 ^ 64)) as [Hsm|Hbg].
    + rewrite u64_small by (unfold is_u64; lia).
      destruct (Z.ltb_spec (r + size - 1) r); [lia|].
      destruct (Z.ltb_spec (n_end t node) (r + size - 1)); split; try done; try lia.
      * intros [= <-]. lia.
      * intros [-> _]. done.
    + assert (Hw : u64 (r + size - 1) = r + size - 1 - 2 ^ 64).
      { unfold u64, wrap. symmetry. apply (Z.mod_unique_pos _ _ 1); lia. }
      rewrite Hw. destruct (Z.ltb_spec (r + size - 1 - 2 ^ 64) r); [|lia]. split; [done|]. lia.
  - destruct (Z.ltb_spec 0 (n_start t node)); [|lia]. simpl. split; [done|]. lia.
Qed.

(** First fit. *)
Lemma search_free_spec t size k nodes :
  (forall x, x ∈ nodes -> node_ok (rt_nodes t) x) -> 0 < size < 2 ^ 64 -> 0 <= k < 64 ->
  exists o, search_free t size (2 ^ k) nodes = Some o /\
    match o with
    | Some (node, a) => exists N1 N2, nodes = N1 ++ node :: N2 /\ fits t size (2 ^ k) node a /\
        forall x a', x ∈ N1 -> ~ fits t size (2 ^ k) x a'
    | None => forall x a', x ∈ nodes -> ~ fits t size (2 ^ k) x a'
    end.
Proof.
  intros Hok Hs Hk. induction nodes as [|node nodes IH]; simpl.
  { eexists. split; [done|]. by intros x a []%elem_of_nil. }
  destruct (try_node_spec t size k node) as (o & -> & Ho); [apply Hok; left|done..|]. simpl.
  destruct o as [a|].
  - eexists. split; [done|]. exists [], nodes. split; [done|]. split; [by apply Ho|].
    by intros x a' []%elem_of_nil.
  - destruct IH as (o & -> & Ho'); [intros; apply Hok; by right|]. eexists. split; [done|].
    assert (Hno : forall a, ~ fits t size (2 ^ k) node a) by (intros a Hf; by apply Ho in Hf).
    destruct o as [[x a]|].
    + destruct Ho' as (N1 & N2 & -> & Hf & H1). exists (node :: N1), N2. split; [done|]. split; [done|].
      intros y a' [->|Hy]%elem_of_cons; [apply Hno|by apply H1].
    + intros y a' [->|Hy]%elem_of_cons; [apply Hno|by apply Ho'].
Qed.

(** ** Claiming the front of a free range *)

Lemma live_middle ra live A f B :
  rt_head (ra_tree ra) = A ++ f :: B -> rt_head (ra_tree ra) ++ live ≡ₚ f :: A ++ B ++ live.
Proof. intros ->. rewrite <- app_assoc. simpl. by rewrite <- Permutation_middle. Qed.

Lemma claim_range_spec ra live A f B size a new :
  ra_inv ra live -> rt_head (ra_tree ra) = A ++ f :: B ->
  new ∉ rt_head (ra_tree ra) ++ live -> 0 < size ->
  n_start (ra_tree ra) f <= a -> a + size - 1 <= n_end (ra_tree ra) f ->
  exists ra', claim_range ra size f a new = Some ra' /\ ra_size ra' = ra_size ra /\
    ra_inv ra' (new :: live) /\ same_nodes live ra ra' /\
    node_at (rt_nodes (ra_tree ra')) new = Range (n_start (ra_tree ra) f) (a + size - 1).
Proof.
  intros [Hsz Ht Ho Hg] Hl Hnew Hs H1 H2.
  rewrite (live_middle ra live A f B Hl) in Ho, Hnew. rewrite Hl in Hg.
  apply gapped_middle in Hg as (Hg & HgA & HgB).
  set (t := ra_tree ra) in *. set (aend := a + size - 1) in *.
  destruct (ow_ok _ _ _ Ho f ltac:(left)) as [(Hf1 & Hf2 & Hf3) Hf4].
  fold (n_start t f) (n_end t f) in Hf1, Hf2, Hf3, Hf4.
  pose proof Hnew as [Hfn Hnr]%not_elem_of_cons. pose proof (ow_nodup _ _ _ Ho) as [Hfr _]%NoDup_cons.
  assert (Hnh : new ∉ rt_head t).
  { rewrite Hl. intros Hin. apply Hnr. rewrite !elem_of_app, ?elem_of_cons in *.
    destruct Hin as [?|[?|?]]; [tauto|done|tauto]. }
  unfold claim_range. fold t.
  replace (u64 (u64 (a + size) - 1)) with aend
    by (unfold u64, wrap, aend in *; rewrite Zminus_mod_idemp_l, Z.mod_small; lia).
  set (r := Range (n_start t f) aend). set (t1 := set_node new r t).
  pose proof (inv_set_outside t new r Ht Hnh) as Ht1. fold t1 in Ht1.
  assert (node_at (rt_nodes t1) f = node_at (rt_nodes t) f) as Hf by (simpl; by rewrite node_at_insert, decide_False).
  replace (n_end t1 f) with (n_end t f) by (unfold n_end; by rewrite Hf).
  destruct (Z.ltb_spec aend (n_end t f)) as [Hlt|Hge].
  - rewrite u64_small by (unfold is_u64; lia).
    destruct (shrink_spec t1 A f B (aend + 1) (n_end t f)) as [-> Hi]; [done..|unfold n_start; rewrite Hf; fold (n_start t f); lia|lia|
      unfold n_end at 2; rewrite Hf; fold (n_end t f); lia|].
    pose proof (owned_carve (rt_nodes t) (ra_size ra) (A ++ B ++ live) f new aend Ho Hnew ltac:(fold (n_start t f) (n_end t f); lia)) as Ho'.
    fold (n_start t f) (n_end t f) r in Ho'. set (m' := <[f := _]> _) in Ho'.
    assert (Hsame : forall y, y ∈ A ++ B ++ live -> node_at m' y = node_at (rt_nodes t) y).
    { intros y Hy. unfold m'. by rewrite !(outside_update _ (A ++ B ++ live)). }
    eexists. split; [done|]. split; [done|]. split; [split; simpl; fold m'|split; simpl; fold m']; auto.
    + rewrite Hl, <- app_assoc. simpl. rewrite <- Permutation_middle.
      by rewrite !(app_assoc A B), <- Permutation_middle, <- app_assoc.
    + rewrite Hl. apply gapped_middle.
      assert (Hs' : forall y, y ∈ A ++ B -> node_at m' y = node_at (rt_nodes t) y).
      { intros y Hy. apply Hsame. rewrite !elem_of_app in *. tauto. }
      split; [by apply (gapped_ext (rt_nodes t))|]. unfold m' at 2 3. rewrite !node_at_insert, !decide_True by done. simpl.
      split; intros y Hy; rewrite Hs' by (apply elem_of_app; tauto).
      * specialize (HgA y Hy). fold (n_start t f) in HgA. lia.
      * specialize (HgB y Hy). fold (n_end t f) in HgB. lia.
    + intros y Hy. apply Hsame. rewrite !elem_of_app. tauto.
    + unfold m'. by rewrite node_at_insert, decide_False, node_at_insert, decide_True.
  - assert (Hae : aend = n_end t f) by lia. unfold UVM_ASSERT. rewrite Hae, Z.eqb_refl. simpl.
    destruct (remove_spec t1 A f B Ht1 Hl) as [Hh Hi]. simpl in Hh.
    pose proof (owned_rename (rt_nodes t) (ra_size ra) (A ++ B ++ live) f new Ho Hnew) as Ho'.
    fold (n_start t f) (n_end t f) in Ho'. rewrite <- Hae in Ho'. fold r in Ho'.
    eexists. split; [done|]. split; [done|]. split; [split|split]; auto.
    + simpl. rewrite Hh.  by rewrite <- Permutation_middle, <- app_assoc.
    + simpl. rewrite Hh.  apply (gapped_ext (rt_nodes t)); [|done].
      apply outside_update. rewrite !elem_of_app in *. tauto.
    + intros y Hy. simpl.  apply (outside_update (rt_nodes t) live); [|done]. rewrite !elem_of_app in *. tauto.
    + simpl. rewrite node_at_insert, decide_True by done. unfold r. by rewrite Hae.
Qed.

(** ** Giving a range back *)

(** The state between the steps of a release: [n] is in the tree, between
    [A] and [B]. *)
Record returning (t : uvm_range_tree_t) size live A n B : Prop := {
  rg_tree : range_tree_inv t;
  rg_head : rt_head t = A ++ n :: B;
  rg_owned : owned (rt_nodes t) size (n :: A ++ B ++ live);
  rg_gapped : gapped (rt_nodes t) (A ++ B);
}.

Lemma returning_merge_prev t size live A n B :
  returning t size live A n B ->
  exists A', let t' := snd (uvm_range_tree_merge_prev t n) in
    returning t' size live A' n B /\
    (forall a, a ∈ A' -> n_end t' a + 1 < n_start t' n) /\
    (forall y, y <> n -> node_at (rt_nodes t') y = node_at (rt_nodes t) y).
Proof.
  intros [Ht Hl Ho Hg]. destruct (merge_prev_spec t A n B Ht Hl) as [(A' & p & -> & Hadj & -> & Hi)|[Hno ->]].
  - exists A'. simpl. pose proof (ow_nodup _ _ _ Ho) as Hnd. rewrite <- app_assoc in Ho, Hnd, Hg. simpl in *.
    apply NoDup_cons in Hnd as [Hn Hnd]. apply NoDup_middle in Hnd as (Hp1 & Hp2 & _).
    apply gapped_middle in Hg as (Hg & HgA & HgB).
    assert (Hsame : forall y, y <> n -> node_at (<[n:=Range (n_start t p) (n_end t n)]> (rt_nodes t)) y = node_at (rt_nodes t) y).
    { intros y ?. by rewrite node_at_insert, decide_False. }
    assert (HnA : forall y, y ∈ A' ++ B -> y <> n).
    { intros y Hy ->. apply Hn. rewrite !elem_of_app, elem_of_cons, elem_of_app in *. tauto. }
    split; [split; simpl; [done|done| |]|split; [|done]].
    + apply (owned_fuse _ _ _ n p).
      * by rewrite <- Permutation_middle, perm_swap in Ho.
      * left. fold (n_start t p) (n_end t p) (n_start t n) (n_end t n). done.
    + apply (gapped_ext (rt_nodes t)); [|done]. intros y Hy%HnA. by apply Hsame.
    + intros a Ha. unfold n_end, n_start. simpl. rewrite Hsame by (apply HnA, elem_of_app; by left).
      rewrite node_at_insert, decide_True by done. simpl. by apply HgA.
  - exists A. simpl. split; [done|]. split; [|done]. intros a Ha.
    destruct A as [|q A _] using rev_ind; [by apply elem_of_nil in Ha|].
    rewrite last_snoc in Hno. specialize (Hno q eq_refl).
    apply elem_of_app in Ha as [Ha| ->%list_elem_of_singleton]; [|done].
    rewrite <- app_assoc in Hl. destruct (inv_split t A q _ Ht Hl) as ((_ & ? & _) & _ & _ & HA & _).
    rewrite Forall_forall in HA. specialize (HA a Ha). simpl in HA. unfold n_start, n_end in *. lia.
Qed.

Lemma returning_merge_next t size live A n B :
  returning t size live A n B -> (forall a, a ∈ A -> n_end t a + 1 < n_start t n) ->
  exists B', let t' := snd (uvm_range_tree_merge_next t n) in
    returning t' size live A n B' /\ gapped (rt_nodes t') (A ++ n :: B') /\
    (forall y, y <> n -> node_at (rt_nodes t') y = node_at (rt_nodes t) y).
Proof.
  intros [Ht Hl Ho Hg] HA. destruct (merge_next_spec t A n B Ht Hl) as [(B' & q & -> & Hadj & -> & Hi)|[Hno ->]].
  - exists B'. simpl. pose proof (ow_nodup _ _ _ Ho) as Hnd. simpl in *.
    apply NoDup_cons in Hnd as [Hn Hnd]. apply NoDup_middle in Hnd as (Hp1 & Hp2 & _).
    apply gapped_middle in Hg as (Hg & HgA & HgB).
    set (m' := <[n:=Range (n_start t n) (n_end t q)]> (rt_nodes t)).
    assert (Hsame : forall y, y <> n -> node_at m' y = node_at (rt_nodes t) y).
    { intros y ?. unfold m'. by rewrite node_at_insert, decide_False. }
    assert (HnA : forall y, y ∈ A ++ B' -> y <> n).
    { intros y Hy ->. apply Hn. rewrite !elem_of_app, elem_of_cons, elem_of_app in *. tauto. }
    assert (Hg' : gapped m' (A ++ B')).
    { apply (gapped_ext (rt_nodes t)); [|done]. intros y Hy%HnA. by apply Hsame. }
    split; [split; simpl; [done|done| |done]|split; [|done]].
    + apply (owned_fuse _ _ _ n q).
      * by rewrite <- Permutation_middle, perm_swap in Ho.
      * right. fold (n_start t q) (n_end t q) (n_start t n) (n_end t n). done.
    + apply gapped_middle. split; [done|]. unfold m' at 2 3. rewrite !node_at_insert, !decide_True by done. simpl.
      split; intros y Hy; rewrite Hsame by (apply HnA, elem_of_app; tauto); [by apply HA|by apply HgB].
  - exists B. simpl. split; [done|]. split; [|done]. apply gapped_middle. split; [done|]. split; [done|].
    intros b Hb. destruct B as [|q B]; [by apply elem_of_nil in Hb|]. specialize (Hno q eq_refl).
    apply elem_of_cons in Hb as [->|Hb]; [done|].
    replace (A ++ n :: q :: B) with ((A ++ [n]) ++ q :: B) in Hl by by rewrite <- app_assoc.
    destruct (inv_split t _ q B Ht Hl) as ((_ & ? & _) & _ & _ & _ & HB).
    rewrite Forall_forall in HB. specialize (HB b Hb). simpl in HB. unfold n_start, n_end in *. lia.
Qed.

Lemma free_spec ra live a n :
  ra_inv ra (n :: live) ->
  exists ra', uvm_range_allocator_free ra (Some (RangeAllocation a n)) = Some ra' /\
    ra_size ra' = ra_size ra /\ ra_inv ra' live /\ same_nodes live ra ra'.
Proof.
  intros [Hsz Ht Ho Hg]. rewrite <- Permutation_middle in Ho.
  pose proof (ow_nodup _ _ _ Ho) as [Hn _]%NoDup_cons.
  assert (Hnh : n ∉ rt_head (ra_tree ra)) by (rewrite elem_of_app in Hn; tauto).
  unfold uvm_range_allocator_free. cbn [ra_node].
  destruct (ow_ok _ _ _ Ho n ltac:(left)) as [Hok _].
  destruct (add_spec (ra_tree ra) n Ht Hnh Hok) as [y Hy Hov|A B rb Hl _ Hi].
  { exfalso. assert (y <> n) by by intros ->.
    pose proof (inv_node_ok _ y Ht Hy) as Hoky.
    rewrite (proj2 (overlap_false _ n y Hok Hoky)) in Hov; [done|].
    destruct (ow_disjoint _ _ _ Ho n y) as [?|?]; [left|right; apply elem_of_app; by left|done| |];
      unfold before, n_start, n_end in *; tauto. }
  cbn -[uvm_range_tree_merge_prev uvm_range_tree_merge_next].
  set (t0 := RangeTree _ rb _).
  assert (R0 : returning t0 (ra_size ra) live A n B).
  { split; simpl; [done|done|by rewrite Hl, <- app_assoc in Ho|by rewrite <- Hl]. }
  destruct (returning_merge_prev _ _ _ _ _ _ R0) as (A' & R1 & Hgap & Hs1). simpl in R1, Hgap, Hs1.
  destruct (returning_merge_next _ _ _ _ _ _ R1 Hgap) as (B' & R2 & Hg2 & Hs2). simpl in R2, Hg2, Hs2.
  eexists. split; [done|]. split; [done|]. destruct R2 as [Ht2 Hl2 Ho2 _]. split.
  - split; simpl; [done|done| |by rewrite Hl2]. rewrite Hl2.
    by rewrite <- app_assoc, <- app_comm_cons, <- Permutation_middle.
  - intros y Hy. simpl. assert (y <> n) by (intros ->; apply Hn, elem_of_app; by right).
    rewrite Hs2, Hs1 by done. done.
Qed.
End range_allocator_facts.
