(* ===== verification/UvmRangeAllocatorCorrect.v ===== *)
(** Correctness of the range allocator of uvm_range_allocator.c over any
    sequence of allocations and frees. *)

From stdpp Require Import sorting.
From S2P Require Import Prelude UvmBits UvmCommon UvmRangeTree UvmRangeAllocator.
Local Open Scope Z_scope.

(** An allocation in use, with the request it answers. *)
Record live_alloc := Live { la_alloc : uvm_range_allocation_t; la_size : Z; la_alignment : Z }.

Definition la_node (x : live_alloc) : Z := ra_node (la_alloc x).
Definition la_start (x : live_alloc) : Z := aligned_start (la_alloc x).
Definition la_end (x : live_alloc) : Z := la_start x + la_size x - 1.

(** The documented range of the arguments. *)
Definition valid_alignment (alignment : Z) : Prop :=
  alignment = 0 \/ exists k, 0 <= k < 64 /\ alignment = 2 ^ k.
Definition eff_alignment (alignment : Z) : Z := if alignment =? 0 then 1 else alignment.

Inductive ra_reachable {ops : rb_ops} : uvm_range_allocator_t -> list live_alloc -> Prop :=
| ra_init m size node ra :
    0 < size < 2 ^ 64 ->
    uvm_range_allocator_init m size (Some node) = Some (NV_OK, Some ra) -> ra_reachable ra []
| ra_alloc ra L size alignment new a ra' :
    ra_reachable ra L -> 0 < size < 2 ^ 64 -> valid_alignment alignment ->
    new ∉ rt_head (ra_tree ra) ++ map la_node L ->
    uvm_range_allocator_alloc ra size alignment (Some new) = Some (NV_OK, ra', Some a) ->
    ra_reachable ra' (Live a size alignment :: L)
| ra_free ra L1 x L2 ra' :
    ra_reachable ra (L1 ++ x :: L2) ->
    uvm_range_allocator_free ra (Some (la_alloc x)) = Some ra' -> ra_reachable ra' (L1 ++ L2).

Section facts.
Context {ops : rb_ops} {laws : RbLaws ops}.

(** The node of an allocation ends where the allocation ends. *)
Definition live_ok (ra : uvm_range_allocator_t) (x : live_alloc) : Prop :=
  n_start (ra_tree ra) (la_node x) <= la_start x /\ la_end x = n_end (ra_tree ra) (la_node x) /\
  la_start x mod eff_alignment (la_alignment x) = 0 /\ 0 < la_size x.

Definition client_inv ra L : Prop := ra_inv ra (map la_node L) /\ Forall (live_ok ra) L.

Lemma live_ok_same ra ra' L :
  same_nodes (map la_node L) ra ra' -> Forall (live_ok ra) L -> Forall (live_ok ra') L.
Proof.
  intros Hs. rewrite !Forall_forall. intros HL x Hx. specialize (HL x Hx).
  unfold live_ok, n_start, n_end in *. rewrite Hs; [done|]. apply list_elem_of_fmap. by exists x.
Qed.

Lemma init_spec m size node :
  0 < size < 2 ^ 64 ->
  exists ra, uvm_range_allocator_init m size (Some node) = Some (NV_OK, Some ra) /\
    ra_size ra = size /\ ra_inv ra [].
Proof.
  intros Hs. unfold uvm_range_allocator_init, UVM_ASSERT.
  destruct (Z.ltb_spec 0 size); [|lia]. rewrite u64_small by (unfold is_u64; lia).
  set (t := set_node _ _ _). assert (Hat : node_at (rt_nodes t) node = Range 0 (size - 1)).
  { simpl. by rewrite node_at_insert, decide_True. }
  destruct (add_at t node [] []) as (rb & Hadd & Hi).
  - split; [done|constructor|]. split; constructor.
  - by intros []%elem_of_nil.
  - done.
  - split; [repeat constructor|]. constructor; [|done]. unfold node_ok. rewrite Hat. simpl. lia.
  - cbn -[uvm_range_tree_add t]. rewrite Hadd. cbn -[t]. eexists. split; [done|]. split; [done|].
    split; cbn -[t]; [lia|done| |repeat constructor].
    split; [repeat constructor; by intros []%elem_of_nil|..].
    + intros x ->%list_elem_of_singleton. unfold node_ok. rewrite Hat. simpl. lia.
    + by intros x y ->%list_elem_of_singleton ->%list_elem_of_singleton.
    + intros addr Ha. exists node. rewrite Hat. simpl. split; [left|lia].
Qed.

(** Some aligned block of the requested size lies inside a free range. *)
Definition has_room ra size al : Prop :=
  exists x a, x ∈ rt_head (ra_tree ra) /\ a mod al = 0 /\
    n_start (ra_tree ra) x <= a /\ a + size - 1 <= n_end (ra_tree ra) x.

Inductive alloc_outcome ra live size al new
  : option (NV_STATUS * uvm_range_allocator_t * option uvm_range_allocation_t) -> Prop :=
| alloc_fail : ~ has_room ra size al ->
    alloc_outcome ra live size al new (Some (NV_ERR_UVM_ADDRESS_IN_USE, ra, None))
| alloc_done ra' a : has_room ra size al -> a mod al = 0 ->
    ra_size ra' = ra_size ra -> ra_inv ra' (new :: live) -> same_nodes live ra ra' ->
    n_start (ra_tree ra') new <= a -> n_end (ra_tree ra') new = a + size - 1 ->
    alloc_outcome ra live size al new (Some (NV_OK, ra', Some (RangeAllocation a new))).

Lemma room_fits ra live size k x a :
  ra_inv ra live -> x ∈ rt_head (ra_tree ra) -> 0 <= k -> a mod 2 ^ k = 0 ->
  n_start (ra_tree ra) x <= a -> a + size - 1 <= n_end (ra_tree ra) x ->
  fits (ra_tree ra) size (2 ^ k) x (round_up (n_start (ra_tree ra) x) (2 ^ k)).
Proof.
  intros Hinv Hx Hk Ha H1 H2. split; [done|].
  pose proof (round_up_least (n_start (ra_tree ra) x) (2 ^ k) a). lia.
Qed.

Lemma alloc_spec ra live size alignment new :
  ra_inv ra live -> 0 < size < 2 ^ 64 -> valid_alignment alignment ->
  new ∉ rt_head (ra_tree ra) ++ live ->
  alloc_outcome ra live size (eff_alignment alignment) new
    (uvm_range_allocator_alloc ra size alignment (Some new)).
Proof.
  intros Hinv Hs Hal Hnew. unfold uvm_range_allocator_alloc, UVM_ASSERT.
  destruct (Z.ltb_spec 0 size); [|lia]. fold (eff_alignment alignment).
  assert (exists k, 0 <= k < 64 /\ eff_alignment alignment = 2 ^ k) as (k & Hk & ->).
  { unfold eff_alignment. destruct Hal as [->|(k & Hk & ->)]; [by exists 0|].
    exists k. destruct (Z.eqb_spec (2 ^ k) 0); [lia|done]. }
  rewrite (proj2 (is_power_of_2_spec (2 ^ k) ltac:(lia))) by (exists k; split; [lia|done]). simpl.
  pose proof Hinv as [Hsz Ht Ho Hg].
  assert (Hok : forall x, x ∈ rt_head (ra_tree ra) ->
            node_ok (rt_nodes (ra_tree ra)) x /\ n_end (ra_tree ra) x < ra_size ra).
  { intros x Hx. apply (ow_ok _ _ _ Ho). apply elem_of_app. by left. }
  destruct (Z.ltb_spec (ra_size ra) size) as [Hbig|Hle].
  { apply alloc_fail. intros (x & a & Hx & _ & H1 & H2). destruct (Hok x Hx) as [(? & ? & ?) ?].
    unfold n_start, n_end in *. lia. }
  rewrite u64_small by (unfold is_u64; lia). rewrite for_each_in_spec by (done || lia). simpl.
  set (nodes := filter _ _).
  destruct (search_free_spec (ra_tree ra) size k nodes) as (o & -> & Hout); [|done..|].
  { intros x Hx. unfold nodes in Hx. apply list_elem_of_filter in Hx as [_ Hx]. by apply Hok. }
  assert (Hvis : forall x, x ∈ rt_head (ra_tree ra) -> forall a, n_start (ra_tree ra) x <= a ->
                   a + size - 1 <= n_end (ra_tree ra) x -> x ∈ nodes).
  { intros x Hx a H1 H2. apply list_elem_of_filter. split; [|done]. apply touches_iff.
    destruct (Hok x Hx) as [(? & ? & ?) ?]. unfold n_start, n_end in *. lia. }
  simpl. destruct o as [[f a]|].
  - destruct Hout as (N1 & N2 & Hn & Hf & _). assert (Hin : f ∈ nodes) by (rewrite Hn; apply elem_of_app; right; left).
    unfold nodes in Hin. apply list_elem_of_filter in Hin as [_ Hin].
    pose proof Hin as (A & B & Hl)%list_elem_of_split. destruct Hf as [Ha Hfit].
    pose proof (round_up_spec (n_start (ra_tree ra) f) (2 ^ k) ltac:(lia)) as [Hr Hr'].
    rewrite <- Ha in Hr, Hr'.
    destruct (claim_range_spec ra live A f B size a new) as (ra' & -> & Hsz' & Hi & Hsm & Hat); [done..|lia|lia|done|].
    simpl. apply alloc_done; auto.
    + exists f, a. repeat split; auto. lia.
    + unfold n_start. rewrite Hat. simpl. lia.
    + unfold n_end. by rewrite Hat.
  - apply alloc_fail. intros (x & a & Hx & Ha & H1 & H2).
    apply (Hout x (round_up (n_start (ra_tree ra) x) (2 ^ k))); [by apply (Hvis x Hx a)|].
    eapply room_fits; eauto. lia.
Qed.

Lemma client_alloc ra L size alignment new :
  client_inv ra L -> 0 < size < 2 ^ 64 -> valid_alignment alignment ->
  new ∉ rt_head (ra_tree ra) ++ map la_node L ->
  (~ has_room ra size (eff_alignment alignment) /\
   uvm_range_allocator_alloc ra size alignment (Some new) = Some (NV_ERR_UVM_ADDRESS_IN_USE, ra, None)) \/
  exists ra' a, has_room ra size (eff_alignment alignment) /\
    uvm_range_allocator_alloc ra size alignment (Some new) = Some (NV_OK, ra', Some (RangeAllocation a new)) /\
    ra_size ra' = ra_size ra /\ client_inv ra' (Live (RangeAllocation a new) size alignment :: L).
Proof.
  intros [Hinv HL] Hs Hal Hnew.
  destruct (alloc_spec ra (map la_node L) size alignment new Hinv Hs Hal Hnew) as [Hno|ra' a Hr Ha Hsz Hi Hsm H1 H2];
    [by left|right].
  exists ra', a. do 3 (split; [done|]). split; [done|]. constructor; [|by eapply live_ok_same].
  unfold live_ok, la_end, la_start, la_node. simpl. repeat split; auto; lia.
Qed.

Lemma client_free ra L1 x L2 :
  client_inv ra (L1 ++ x :: L2) ->
  exists ra', uvm_range_allocator_free ra (Some (la_alloc x)) = Some ra' /\
    ra_size ra' = ra_size ra /\ client_inv ra' (L1 ++ L2).
Proof.
  intros [[Hsz Ht Ho Hg] HL]. assert (Hi : ra_inv ra (la_node x :: map la_node (L1 ++ L2))).
  { split; [done|done| |done]. revert Ho. rewrite !map_app. simpl.
    rewrite <- (Permutation_middle (map la_node L1)). done. }
  unfold la_node in Hi. destruct (la_alloc x) as [a n] eqn:Ex. simpl in Hi.
  destruct (free_spec ra _ a n Hi) as (ra' & -> & Hsz' & Hi' & Hsm).
  exists ra'. split; [done|]. split; [done|]. split; [done|].
  eapply live_ok_same; [done|]. rewrite Forall_app, Forall_cons in HL. apply Forall_app. tauto.
Qed.

Lemma reachable_client ra L : ra_reachable ra L -> client_inv ra L.
Proof.
  induction 1 as [m size node ra Hs Hi|ra L size al new a ra' _ IH Hs Hal Hnew Ha|ra L1 x L2 ra' _ IH Hf].
  - destruct (init_spec m size node Hs) as (ra2 & Hi2 & _ & Hinv). rewrite Hi in Hi2.
    injection Hi2 as <-. split; [done|constructor].
  - destruct (client_alloc ra L size al new IH Hs Hal Hnew) as [[_ E]|(ra2 & b & _ & E & _ & Hc)].
    + by rewrite Ha in E.
    + rewrite Ha in E. by injection E as -> ->.
  - destruct (client_free ra L1 x L2 IH) as (ra2 & E & _ & Hc). rewrite Hf in E. by injection E as <-.
Qed.

(** Contiguous addresses that no allocation owns lie in one free range:
    adjacent free ranges are merged. *)
Lemma free_block_room ra L size al a :
  ra_inv ra (map la_node L) -> 0 < size -> 0 <= a -> a + size <= ra_size ra -> a mod al = 0 ->
  (forall addr x, a <= addr < a + size -> x ∈ L -> ~ contains (ra_tree ra) (la_node x) addr) ->
  has_room ra size al.
Proof.
  intros [Hsz Ht Ho Hg] Hs Ha Hasz Hal Hfree.
  assert (Hown : forall addr, a <= addr < a + size ->
            exists x, x ∈ rt_head (ra_tree ra) /\ contains (ra_tree ra) x addr).
  { intros addr Haddr. destruct (ow_cover _ _ _ Ho addr) as (x & Hx & Hxa); [lia|].
    exists x. split; [|done]. apply elem_of_app in Hx as [Hx|Hx]; [done|].
    apply list_elem_of_fmap in Hx as (y & -> & Hy). by destruct (Hfree addr y Haddr Hy). }
  destruct (Hown a) as (x & Hx & Hxa); [lia|]. unfold contains in Hxa.
  exists x, a. split; [done|]. split; [done|]. split; [lia|].
  destruct (Z.leb_spec (a + size - 1) (n_end (ra_tree ra) x)) as [|Hgt]; [done|exfalso].
  destruct (Hown (n_end (ra_tree ra) x + 1)) as (y & Hy & Hya); [lia|]. unfold contains in Hya.
  apply list_elem_of_split in Hx as (A & B & Hl). rewrite Hl in Hg, Hy.
  apply gapped_middle in Hg as (_ & HgA & HgB). unfold n_start, n_end in *.
  apply elem_of_app in Hy as [Hy|[->|Hy]%elem_of_cons];
    [specialize (HgA y Hy)|lia|specialize (HgB y Hy)]; lia.
Qed.

(** With nothing allocated there is one free range. *)
Lemma whole_range ra :
  ra_inv ra [] -> exists node, rt_head (ra_tree ra) = [node] /\
    n_start (ra_tree ra) node = 0 /\ n_end (ra_tree ra) node = ra_size ra - 1.
Proof.
  intros Hinv. pose proof Hinv as [Hsz Ht Ho Hg].
  destruct (free_block_room ra [] (ra_size ra) 1 0 Hinv) as (x & a & Hx & _ & H1 & H2);
    [lia|lia|lia|done|by intros ? ? ? []%elem_of_nil|].
  rewrite app_nil_r in Ho. destruct (ow_ok _ _ _ Ho x Hx) as [(? & ? & ?) ?]. unfold n_start, n_end in *.
  exists x. split; [|lia]. apply list_elem_of_split in Hx as (A & B & Hl). rewrite Hl in Ho |- *.
  assert (Hnone : forall y, y ∈ A ++ B -> False).
  { intros y Hy. pose proof (ow_nodup _ _ _ Ho) as (HxA & HxB & _)%NoDup_middle.
    assert (Hy' : y ∈ A ++ x :: B) by (rewrite elem_of_app, elem_of_cons; rewrite elem_of_app in Hy; tauto).
    destruct (ow_ok _ _ _ Ho y Hy') as [(? & ? & ?) ?].
    destruct (ow_disjoint _ _ _ Ho x y) as [Hb|Hb]; unfold before in *; try lia.
    - apply elem_of_app. right. left.
    - done.
    - intros ->. apply elem_of_app in Hy. tauto. }
  destruct A as [|y A]; [|destruct (Hnone y); left].
  destruct B as [|y B]; [done|destruct (Hnone y); left].
Qed.
End facts.

(** ** Theorems *)

(** C37. At every point of every sequence of allocations and frees, the ranges
    handed out lie inside [0, size), start at their requested alignment, and
    no two of them overlap. *)
Theorem range_allocations_disjoint {ops : rb_ops} {laws : RbLaws ops} ra L :
  ra_reachable ra L ->
  (forall x, x ∈ L -> 0 <= la_start x /\ la_end x < ra_size ra /\
                      la_start x mod eff_alignment (la_alignment x) = 0) /\
  (forall L1 x L2 y L3, L = L1 ++ x :: L2 ++ y :: L3 -> la_end x < la_start y \/ la_end y < la_start x).
Proof.
  intros Hr. destruct (reachable_client ra L Hr) as [[Hsz Ht Ho Hg] HL]. rewrite Forall_forall in HL.
  assert (Hin : forall x, x ∈ L -> la_node x ∈ rt_head (ra_tree ra) ++ map la_node L).
  { intros x Hx. apply elem_of_app. right. apply list_elem_of_fmap. by exists x. }
  split.
  - intros x Hx. destruct (HL x Hx) as (H1 & H2 & H3 & H4).
    destruct (ow_ok _ _ _ Ho _ (Hin x Hx)) as [(? & ? & ?) ?]. unfold n_start, n_end in *.
    repeat split; auto; lia.
  - intros L1 x L2 y L3 ->.
    assert (Hx : x ∈ L1 ++ x :: L2 ++ y :: L3) by (apply elem_of_app; right; left).
    assert (Hy : y ∈ L1 ++ x :: L2 ++ y :: L3) by (apply elem_of_app; right; right; apply elem_of_app; right; left).
    destruct (HL x Hx) as (Hx1 & Hx2 & _), (HL y Hy) as (Hy1 & Hy2 & _). unfold n_start, n_end in *.
    destruct (ow_disjoint _ _ _ Ho _ _ (Hin x Hx) (Hin y Hy)) as [Hb|Hb]; unfold before in *; [|lia..].
    pose proof (ow_nodup _ _ _ Ho) as Hnd. rewrite map_app in Hnd. simpl in Hnd. rewrite map_app in Hnd.
    apply NoDup_app in Hnd as (_ & _ & Hnd). apply NoDup_app in Hnd as (_ & _ & Hnd).
    apply NoDup_cons in Hnd as [Hnx _]. intros E. apply Hnx, elem_of_app. right. rewrite E. left.
Qed.

(** C38. Allocation always returns.  It succeeds exactly when some aligned
    block of the requested size is entirely free, that is, no allocation in use
    owns an address of it (no fragmentation between free ranges can hide a
    block), and it fails with NV_ERR_UVM_ADDRESS_IN_USE, leaving the allocator
    untouched, otherwise. *)
Theorem uvm_range_allocator_alloc_correct {ops : rb_ops} {laws : RbLaws ops} ra L size alignment new :
  ra_reachable ra L -> 0 < size < 2 ^ 64 -> valid_alignment alignment ->
  new ∉ rt_head (ra_tree ra) ++ map la_node L ->
  let al := eff_alignment alignment in
  let free_block := exists a, 0 <= a /\ a + size <= ra_size ra /\ a mod al = 0 /\
    forall addr x, a <= addr < a + size -> x ∈ L -> ~ contains (ra_tree ra) (la_node x) addr in
  (free_block /\ exists ra' a,
     uvm_range_allocator_alloc ra size alignment (Some new) = Some (NV_OK, ra', Some (RangeAllocation a new)) /\
     ra_reachable ra' (Live (RangeAllocation a new) size alignment :: L)) \/
  (~ free_block /\
   uvm_range_allocator_alloc ra size alignment (Some new) = Some (NV_ERR_UVM_ADDRESS_IN_USE, ra, None)).
Proof.
  intros Hr Hs Hal Hnew al free_block. pose proof (reachable_client ra L Hr) as Hc.
  assert (Hiff : has_room ra size al <-> free_block).
  { destruct Hc as [Hinv _]. split.
    - intros (x & a & Hx & Ha & H1 & H2). pose proof Hinv as [_ _ Ho _].
      destruct (ow_ok _ _ _ Ho x) as [(? & ? & ?) ?]; [apply elem_of_app; by left|].
      unfold n_start, n_end in *. exists a. repeat split; auto; try lia.
      intros addr y Ha2 Hy Hcy. unfold contains, n_start, n_end in Hcy.
      assert (Hny : la_node y ∈ map la_node L) by (apply list_elem_of_fmap; by exists y).
      pose proof (ow_nodup _ _ _ Ho) as (_ & Hd & _)%NoDup_app.
      destruct (ow_disjoint _ _ _ Ho x (la_node y)) as [Hb|Hb];
        [apply elem_of_app; by left|apply elem_of_app; by right| |unfold before in Hb; lia..].
      intros ->. by apply (Hd (la_node y)).
    - intros (a & Ha0 & Hasz & Ha & Hfree). apply (free_block_room ra L size al a); auto; lia. }
  destruct (client_alloc ra L size alignment new Hc Hs Hal Hnew) as [[Hno E]|(ra' & a & Hroom & E & _)].
  - right. split; [|done]. intros Hf. by apply Hno, Hiff.
  - left. split; [by apply Hiff|]. exists ra', a. split; [done|]. by eapply ra_alloc.
Qed.

(** Freeing never fails, for any live allocation in any order; and when
    all are freed the free ranges have merged back into the single range
    [0, size-1], so that the assertions of [uvm_range_allocator_deinit] hold
    and the tree is empty after it. *)
Theorem uvm_range_allocator_free_correct {ops : rb_ops} {laws : RbLaws ops} ra L :
  ra_reachable ra L ->
  (forall L1 x L2, L = L1 ++ x :: L2 -> exists ra',
     uvm_range_allocator_free ra (Some (la_alloc x)) = Some ra' /\ ra_reachable ra' (L1 ++ L2)) /\
  (L = [] -> exists node ra', rt_head (ra_tree ra) = [node] /\
     n_start (ra_tree ra) node = 0 /\ n_end (ra_tree ra) node = ra_size ra - 1 /\
     uvm_range_allocator_deinit ra = Some ra' /\ rt_head (ra_tree ra') = []).
Proof.
  intros Hr. pose proof (reachable_client ra L Hr) as Hc. split.
  - intros L1 x L2 ->. destruct (client_free ra L1 x L2 Hc) as (ra' & E & _).
    exists ra'. split; [done|]. by eapply ra_free.
  - intros ->. destruct Hc as [Hinv _]. destruct (whole_range ra Hinv) as (node & Hl & H1 & H2).
    pose proof Hinv as [Hsz Ht _ _]. unfold uvm_range_allocator_deinit.
    rewrite u64_small by (unfold is_u64; lia).
    destruct (iter_first_spec (ra_tree ra) 0 (ra_size ra - 1) Ht) as (o & -> & Hf); [lia|]. simpl.
    assert (o = Some node) as ->.
    { destruct Hf as [A x B Hx _ _ _|A B Hx HA HB].
      - rewrite Hl in Hx. by destruct A as [|z [|]]; simpl in Hx; congruence.
      - assert (Hn : node ∈ A ++ B) by (rewrite <- Hx, Hl; left). rewrite Forall_forall in HA, HB.
        apply elem_of_app in Hn as [Hn|Hn]; [specialize (HA node Hn)|specialize (HB node Hn)]; simpl in *; lia. }
    simpl. unfold UVM_ASSERT. rewrite H1, H2, !Z.eqb_refl. simpl. exists node. eexists.
    split; [done|]. split; [done|]. split; [done|]. split; [done|].
    destruct (remove_spec (ra_tree ra) [] node [] Ht Hl) as [Hh _]. exact Hh.
Qed.

(** ** Witnesses: a space of 1 MiB with one allocation *)

Definition demo_ra : uvm_range_allocator_t :=
  RangeAllocator 0x100000 (RangeTree {[ 1 := Range 0 0xfffff ]} (Node Leaf 1 Leaf) [1]).
Definition demo_ra1 : uvm_range_allocator_t :=
  RangeAllocator 0x100000
    (RangeTree {[ 1 := Range 0x1000 0xfffff; 2 := Range 0 0xfff ]} (Node Leaf 1 Leaf) [1]).
Definition demo_live : live_alloc := Live (RangeAllocation 0 2) 0x1000 0x1000.

Lemma demo_ra_reachable : @ra_reachable naive_rb demo_ra [].
Proof. apply (@ra_init naive_rb ∅ 0x100000 1); [lia|by vm_compute]. Qed.

Lemma demo_ra1_reachable : @ra_reachable naive_rb demo_ra1 [demo_live].
Proof.
  apply (@ra_alloc naive_rb demo_ra [] 0x1000 0x1000 2 (RangeAllocation 0 2)).
  - apply demo_ra_reachable.
  - lia.
  - right. by exists 12.
  - by apply (bool_decide_unpack _).
  - by vm_compute.
Qed.

Lemma range_allocations_disjoint_witness :
  0 <= la_start demo_live /\ la_end demo_live < ra_size demo_ra1.
Proof.
  destruct (proj1 (@range_allocations_disjoint naive_rb naive_rb_laws demo_ra1 [demo_live] demo_ra1_reachable)
              demo_live ltac:(left)) as (H1 & H2 & _).
  split; [exact H1|exact H2].
Defined.

Lemma uvm_range_allocator_alloc_correct_witness :
  exists ra' a, uvm_range_allocator_alloc (ops := naive_rb) demo_ra1 0x2000 0x10000 (Some 3)
    = Some (NV_OK, ra', Some (RangeAllocation a 3)).
Proof.
  destruct (@uvm_range_allocator_alloc_correct naive_rb naive_rb_laws demo_ra1 [demo_live] 0x2000 0x10000 3
              demo_ra1_reachable ltac:(lia) ltac:(right; by exists 16) ltac:(by apply (bool_decide_unpack _)))
    as [[_ (ra' & a & H & _)]|[_ H]].
  - exists ra', a. exact H.
  - vm_compute in H. discriminate H.
Defined.

Lemma uvm_range_allocator_free_correct_witness :
  exists ra', uvm_range_allocator_free (ops := naive_rb) demo_ra1 (Some (RangeAllocation 0 2)) = Some ra'.
Proof.
  destruct (proj1 (@uvm_range_allocator_free_correct naive_rb naive_rb_laws demo_ra1 [demo_live] demo_ra1_reachable)
              [] demo_live [] eq_refl) as (ra' & H & _).
  exists ra'. exact H.
Defined.
