(* ===== verification/UvmPush.v ===== *)
(** Pushes of host methods (uvm_push.h, uvm_push_macros.h): the 32-bit field
    macros, the words that NV_PUSH_nU appends to a push, and the reader of the
    host engine that turns the words back into method writes. *)

From S2P Require Import Prelude UvmBits UvmCommon.
Local Open Scope Z_scope.

(** ** 32-bit fields (nvmisc.h) *)

Definition DRF_SHIFT (f : field) : Z := f_lo f mod 32.
Definition DRF_MASK (f : field) : Z :=
  Z.shiftr (Z.ones 32) (31 - f_hi f mod 32 + f_lo f mod 32).
Definition DRF_DEF (f : field) (c : Z) : Z := u32 (Z.shiftl c (DRF_SHIFT f)).
Definition DRF_NUM (f : field) (n : Z) : Z :=
  u32 (Z.shiftl (Z.land (u32 n) (DRF_MASK f)) (DRF_SHIFT f)).
Definition DRF_VAL (f : field) (v : Z) : Z :=
  Z.land (Z.shiftr v (DRF_SHIFT f)) (DRF_MASK f).

Definition HWMASK (f : field) : Z := DRF_MASK f.
Definition HWCONST (f : field) (c : Z) : Z := DRF_DEF f c.

(** The value, cut to 32 bits, must fit in the field. *)
Definition HWVALUE (f : field) (v : Z) : option Z :=
  let _v := u32 v in
  let val := DRF_NUM f _v in
  UVM_ASSERT (_v =? DRF_VAL f val) ;; Some val.

(** A field of one 32-bit word. *)
Definition field32_ok (f : field) : bool :=
  (0 <=? f_lo f) && (f_lo f <=? f_hi f) && (f_hi f <? 32).

Lemma field32_field f : field32_ok f = true -> field_ok f = true.
Proof.
  unfold field32_ok, field_ok. intros H. zify_bool.
  rewrite !Z.mod_small, !Z.div_small by lia. apply andb_true_iff. split; [|done].
  apply andb_true_iff. split; by apply Z.leb_le.
Qed.

Lemma field32_bounds f :
  field32_ok f = true ->
  DRF_SHIFT f = f_lo f /\ DRF_SHIFT64 f = f_lo f /\ width f = f_hi f - f_lo f + 1 /\
  0 <= f_lo f <= f_hi f /\ f_hi f < 32.
Proof.
  unfold field32_ok, DRF_SHIFT, DRF_SHIFT64, width. intros H. zify_bool.
  rewrite !Z.mod_small by lia. lia.
Qed.

(** On such fields the 32-bit macros agree with the 64-bit ones. *)
Lemma mask_32 f : field32_ok f = true -> DRF_MASK f = DRF_MASK64 f.
Proof.
  intros Hf. rewrite mask_ones by by apply field32_field.
  destruct (field32_bounds f Hf) as (Hs & _ & Hw & Hr). unfold DRF_MASK.
  rewrite Hw. unfold DRF_SHIFT in Hs. rewrite Hs, (Z.mod_small (f_hi f)) by lia.
  apply Z.bits_inj'. intros i Hi. rewrite Z.shiftr_spec, !Z.testbit_ones_nonneg by lia.
  destruct (Z.ltb_spec (i + (31 - f_hi f + f_lo f)) 32), (Z.ltb_spec i (f_hi f - f_lo f + 1)); lia.
Qed.

Lemma DRF_VAL_64 f v : field32_ok f = true -> DRF_VAL f v = DRF_VAL64 f v.
Proof.
  intros Hf. unfold DRF_VAL, DRF_VAL64. rewrite mask_32 by done.
  destruct (field32_bounds f Hf) as (-> & -> & _). done.
Qed.

Lemma fits_word f v :
  field32_ok f = true -> 0 <= v < 2 ^ width f ->
  0 <= v < 2 ^ 32 /\ 0 <= Z.shiftl v (f_lo f) < 2 ^ 32.
Proof.
  intros Hf Hv. destruct (field32_bounds f Hf) as (_ & _ & Hw & Hlo & Hhi). rewrite Hw in Hv.
  assert (H1 : 2 ^ (f_hi f - f_lo f + 1) <= 2 ^ 32) by (apply Z.pow_le_mono_r; lia).
  rewrite Z.shiftl_mul_pow2 by lia.
  assert (H2 : 2 ^ (f_hi f - f_lo f + 1) * 2 ^ f_lo f <= 2 ^ 32).
  { rewrite <- Z.pow_add_r by lia. apply Z.pow_le_mono_r; lia. }
  assert (0 < 2 ^ f_lo f) by (apply Z.pow_pos_nonneg; lia). nia.
Qed.

Lemma num_32 f v :
  field32_ok f = true -> 0 <= v < 2 ^ width f -> DRF_NUM f v = DRF_NUM64 f v.
Proof.
  intros Hf Hv. destruct (fits_word f v Hf Hv) as [H1 H2].
  destruct (field32_bounds f Hf) as (Hs & Hs' & Hw & Hr).
  unfold DRF_NUM, DRF_NUM64. rewrite mask_32, mask_ones by (done || by apply field32_field).
  rewrite (u32_small v), Hs, Hs', Z.land_ones, Z.mod_small by (done || lia).
  rewrite u32_small by done. symmetry. apply u64_small. unfold is_u64. lia.
Qed.

Lemma HWVALUE_fits f v :
  field32_ok f = true -> 0 <= v < 2 ^ width f -> HWVALUE f v = Some (DRF_NUM64 f v).
Proof.
  intros Hf Hv. unfold HWVALUE. destruct (fits_word f v Hf Hv) as [H1 _].
  rewrite (u32_small v), num_32, DRF_VAL_64, val_num_same by (done || by apply field32_field).
  by rewrite Z.eqb_refl.
Qed.

Lemma HWCONST_num f c :
  field32_ok f = true -> 0 <= c < 2 ^ width f -> HWCONST f c = DRF_NUM64 f c.
Proof.
  intros Hf Hc. rewrite <- const_num by (done || by apply field32_field).
  destruct (fits_word f c Hf Hc) as [_ H]. destruct (field32_bounds f Hf) as (Hs & Hs' & _).
  unfold HWCONST, HWCONST64, DRF_DEF, DRF_DEF64. rewrite Hs, Hs', u32_small by done.
  symmetry. apply u64_small. unfold is_u64. lia.
Qed.

(** Side conditions of the field lemmas, for concrete fields. *)
Ltac fits32 :=
  lazymatch goal with
  | |- 0 <= ?v < 2 ^ width ?f =>
      let w := eval vm_compute in (2 ^ width f) in change (0 <= v < w); first [lia|by vm_compute]
  | |- _ => reflexivity
  end.

(** Reads a field of a union of disjoint fields. *)
Ltac read_fields32 :=
  repeat (rewrite DRF_VAL_64 by reflexivity); repeat rewrite val_lor; rewrite ?val_0;
  repeat match goal with
  | |- context [DRF_VAL64 ?f (DRF_NUM64 ?g ?v)] =>
      first [ rewrite (val_num_other f g v) by reflexivity
            | rewrite (val_num_same f v) by fits32 ]
  end;
  rewrite ?Z.lor_0_l, ?Z.lor_0_r.

(** ** Words of a push *)

Definition UVM_METHOD_SIZE : Z := 4.
Definition UVM_MAX_PUSH_SIZE : Z := 128 * 1024.
Definition UVM_SUBCHANNEL_HOST : Z := 0.

Definition DMA_SEC_OP : field := Field 31 29.
Definition DMA_SEC_OP_INC_METHOD : Z := 1.
Definition DMA_INCR_ADDRESS : field := Field 11 0.
Definition DMA_INCR_SUBCHANNEL : field := Field 15 13.
Definition DMA_INCR_COUNT : field := Field 28 16.

Definition UVM_METHOD_COUNT_MAX : Z := HWMASK DMA_INCR_COUNT.
Definition UVM_PUSH_INLINE_DATA_MAX_SIZE : Z := UVM_METHOD_COUNT_MAX * UVM_METHOD_SIZE.

(** [UVM_METHOD_INC]: the header of [count] consecutive methods. *)
Definition UVM_METHOD_INC (subch address count : Z) : option Z :=
  a ← HWVALUE DMA_INCR_ADDRESS (Z.shiftr address 2);
  s ← HWVALUE DMA_INCR_SUBCHANNEL subch;
  c ← HWVALUE DMA_INCR_COUNT count;
  Some (Z.lor (Z.lor (Z.lor (HWCONST DMA_SEC_OP DMA_SEC_OP_INC_METHOD) a) s) c).

(** The words between [begin] and [next]. *)
Definition uvm_push_t : Type := list Z.

Definition uvm_push_get_size (push : uvm_push_t) : Z := Z.of_nat (length push) * UVM_METHOD_SIZE.

(** [NV_PUSH_nU] with [n] the number of data words, at methods [a1],
    [a1 + 4], ...; the methods are contiguous by a build-time check. *)
Definition NV_PUSH (subch a1 : Z) (data : list Z) (push : uvm_push_t) : option uvm_push_t :=
  let count := Z.of_nat (length data) in
  UVM_ASSERT (uvm_push_get_size push + (count + 1) * UVM_METHOD_SIZE <=? UVM_MAX_PUSH_SIZE) ;;
  UVM_ASSERT (IS_ALIGNED a1 UVM_METHOD_SIZE) ;;
  header ← UVM_METHOD_INC subch a1 count;
  Some (push ++ header :: data).

(** ** The host's reader of a push *)

(** Method writes of a push: subchannel-relative address and data.  A word that
    is not the header of an incrementing method, or a truncated group, is not
    readable. *)
Fixpoint data_methods (address : Z) (count : nat) (words : list Z)
  : option (list (Z * Z) * list Z) :=
  match count, words with
  | O, _ => Some ([], words)
  | S n, w :: words' =>
      '(ms, rest) ← data_methods (address + UVM_METHOD_SIZE) n words';
      Some ((address, w) :: ms, rest)
  | S _, [] => None
  end.

Fixpoint host_read (fuel : nat) (words : list Z) : option (list (Z * Z)) :=
  match fuel, words with
  | _, [] => Some []
  | O, _ => None
  | S fuel', h :: words' =>
      if DRF_VAL DMA_SEC_OP h =? DMA_SEC_OP_INC_METHOD then
        '(ms, rest) ← data_methods (Z.shiftl (DRF_VAL DMA_INCR_ADDRESS h) 2)
                        (Z.to_nat (DRF_VAL DMA_INCR_COUNT h)) words';
        more ← host_read fuel' rest;
        Some (ms ++ more)
      else None
  end.

(** Every word but a header is data, so the length bounds the groups. *)
Definition methods (words : list Z) : option (list (Z * Z)) := host_read (length words) words.

Lemma data_methods_app a n w q ms rest :
  data_methods a n w = Some (ms, rest) -> data_methods a n (w ++ q) = Some (ms, rest ++ q).
Proof.
  revert a w ms rest. induction n as [|n IH]; intros a w ms rest.
  - destruct w; intros [= <- <-]; done.
  - destruct w as [|x w]; [done|]. cbn [data_methods app].
    destruct (data_methods (a + UVM_METHOD_SIZE) n w) as [[ms' rest']|] eqn:E; [|done].
    intros [= <- <-]. by rewrite (IH _ _ _ _ E).
Qed.

Lemma host_read_mono f g w ms : host_read f w = Some ms -> (f <= g)%nat -> host_read g w = Some ms.
Proof.
  revert g w ms. induction f as [|f IH]; intros g w ms H Hle.
  { destruct w; cbn [host_read] in H; [by destruct g|discriminate]. }
  destruct w as [|h w]; cbn [host_read] in H; [by destruct g|]. destruct g as [|g]; [lia|]. cbn [host_read]. case_match; [|done].
  destruct (data_methods _ _ w) as [[d rest]|]; [|done]. cbn in *.
  destruct (host_read f rest) as [more|] eqn:E; [|done]. by rewrite (IH g rest more E ltac:(lia)).
Qed.

Lemma host_read_app f g w q ms ms' :
  host_read f w = Some ms -> host_read g q = Some ms' ->
  host_read (f + g) (w ++ q) = Some (ms ++ ms').
Proof.
  revert w ms. induction f as [|f IH]; intros w ms H Hq.
  { destruct w; cbn [host_read] in H; [by injection H as <-|discriminate]. }
  destruct w as [|h w]; cbn [host_read] in H.
  - injection H as <-. apply (host_read_mono _ _ _ _ Hq). lia.
  - cbn [app Nat.add host_read]. case_match; [|done].
    destruct (data_methods _ _ w) as [[d rest]|] eqn:E; [|done]. cbn in *.
    rewrite (data_methods_app _ _ _ q _ _ E). cbn.
    destruct (host_read f rest) as [more|] eqn:E'; [|done]. injection H as <-.
    rewrite (IH rest more E' Hq). cbn. by rewrite app_assoc.
Qed.

Lemma methods_app w q ms ms' :
  methods w = Some ms -> methods q = Some ms' -> methods (w ++ q) = Some (ms ++ ms').
Proof. unfold methods. rewrite length_app. apply host_read_app. Qed.

(** The method writes of one group. *)
Fixpoint group (a1 : Z) (data : list Z) : list (Z * Z) :=
  match data with
  | [] => []
  | d :: data' => (a1, d) :: group (a1 + UVM_METHOD_SIZE) data'
  end.

Lemma data_methods_all a data :
  data_methods a (length data) data = Some (group a data, []).
Proof.
  revert a. induction data as [|d data IH]; intros a; [done|]. cbn [data_methods length group].
  by rewrite IH.
Qed.

(** A push with room for a group takes it, and the host reads the group back. *)
Lemma NV_PUSH_spec subch a1 data push ms :
  0 <= subch < 8 -> 0 <= a1 < 2 ^ 14 -> a1 mod 4 = 0 -> Z.of_nat (length data) < 8192 ->
  uvm_push_get_size push + 4 * (Z.of_nat (length data) + 1) <= UVM_MAX_PUSH_SIZE ->
  methods push = Some ms ->
  exists push', NV_PUSH subch a1 data push = Some push' /\
    length push' = (length push + S (length data))%nat /\
    methods push' = Some (ms ++ group a1 data).
Proof.
  intros Hs Ha Hal Hl Hroom Hms. unfold NV_PUSH, UVM_METHOD_INC.
  rewrite (proj2 (Z.leb_le _ _)) by (unfold UVM_METHOD_SIZE; lia). cbn -[UVM_MAX_PUSH_SIZE IS_ALIGNED HWVALUE HWCONST].
  change UVM_METHOD_SIZE with (2 ^ 2). rewrite (proj2 (IS_ALIGNED_spec a1 2 ltac:(lia)) Hal).
  cbn -[HWVALUE HWCONST].
  assert (Hn : 0 <= Z.shiftr a1 2 < 4096).
  { rewrite Z.shiftr_div_pow2 by lia. split; [apply Z.div_pos; lia|apply Z.div_lt_upper_bound; lia]. }
  assert (Hback : Z.shiftl (Z.shiftr a1 2) 2 = a1).
  { rewrite Z.shiftr_div_pow2, Z.shiftl_mul_pow2 by lia. change (2 ^ 2) with 4.
    pose proof (Z.div_mod a1 4). lia. }
  rewrite !HWVALUE_fits by fits32. cbn -[HWCONST DRF_NUM64].
  rewrite HWCONST_num by fits32.
  eexists. split; [reflexivity|]. split; [by rewrite length_app|].
  apply methods_app; [done|]. unfold methods. cbn [length host_read].
  read_fields32.
  rewrite Z.eqb_refl, Hback, Nat2Z.id, data_methods_all. cbn.
  by destruct (length data); cbn; rewrite app_nil_r.
Qed.
