(* ===== verification/UvmHostTlb.v ===== *)
(** Host methods that invalidate translations (uvm_pascal_host.c,
    uvm_volta_host.c, uvm_ampere_host.c, uvm_hopper_host.c, and the membar
    helpers of uvm_hal.h and uvm_hal.c): the words they push, what the host
    engine reads in them, and that the engine then drops every translation of
    the range asked for. *)

From S2P Require Import Prelude UvmBits UvmCommon UvmMmuHal UvmPush.
Local Open Scope Z_scope.

Record uvm_gpu_phys_address_t := PhysAddr {
  phys_address : Z;
  phys_aperture : uvm_aperture_t;
}.

Inductive uvm_membar_t := UVM_MEMBAR_NONE | UVM_MEMBAR_GPU | UVM_MEMBAR_SYS.

#[export] Instance uvm_membar_eq_dec : EqDecision uvm_membar_t.
Proof. solve_decision. Defined.

Definition membar_val (m : uvm_membar_t) : Z :=
  match m with UVM_MEMBAR_NONE => 0 | UVM_MEMBAR_GPU => 1 | UVM_MEMBAR_SYS => 2 end.

Definition uvm_membar_max (membar_1 membar_2 : uvm_membar_t) : uvm_membar_t :=
  if membar_val membar_2 <? membar_val membar_1 then membar_1 else membar_2.

(** Fields of the MEM_OP methods of a channel class; the methods of C06F have
    no invalidation size and no invalidation scope. *)
Record mem_op_class := MemOpClass {
  MEM_OP_A : Z;
  A_INVALIDATION_SIZE : field;
  A_INVAL_SCOPE : field;
  A_SYSMEMBAR : field;
  A_TARGET_ADDR_LO : field;
  B_TARGET_ADDR_HI : field;
  C_MEMBAR_TYPE : field;
  C_PDB : field;
  C_GPC : field;
  C_REPLAY : field;
  C_ACK_TYPE : field;
  C_PAGE_TABLE_LEVEL : field;
  C_PDB_APERTURE : field;
  C_PDB_ADDR_LO : field;
  D_PDB_ADDR_HI : field;
  D_OPERATION : field;
}.

(** clc06f.h, clc36f.h, clc56f.h, clc86f.h.  The unused fields of C06F are
    given the reserved positions of the later classes. *)
Definition C06F : mem_op_class :=
  MemOpClass 40 (Field 5 0) (Field 7 6) (Field 11 11) (Field 31 12) (Field 31 0) (Field 2 0)
    (Field 0 0) (Field 1 1) (Field 4 2) (Field 6 5) (Field 9 7) (Field 11 10) (Field 31 12)
    (Field 26 0) (Field 31 27).
Definition C36F : mem_op_class :=
  MemOpClass 40 (Field 5 0) (Field 7 6) (Field 11 11) (Field 31 12) (Field 31 0) (Field 2 0)
    (Field 0 0) (Field 1 1) (Field 4 2) (Field 6 5) (Field 9 7) (Field 11 10) (Field 31 12)
    (Field 26 0) (Field 31 27).
Definition C56F : mem_op_class :=
  MemOpClass 40 (Field 5 0) (Field 7 6) (Field 11 11) (Field 31 12) (Field 31 0) (Field 2 0)
    (Field 0 0) (Field 1 1) (Field 4 2) (Field 6 5) (Field 9 7) (Field 11 10) (Field 31 12)
    (Field 26 0) (Field 31 27).
Definition C86F : mem_op_class :=
  MemOpClass 40 (Field 5 0) (Field 7 6) (Field 11 11) (Field 31 12) (Field 31 0) (Field 2 0)
    (Field 0 0) (Field 1 1) (Field 4 2) (Field 6 5) (Field 9 7) (Field 11 10) (Field 31 12)
    (Field 26 0) (Field 31 27).

(** Values of the fields, the same in the four classes. *)
Definition SYSMEMBAR_DIS : Z := 0.
Definition INVAL_SCOPE_NON_LINK_TLBS : Z := 2.
Definition MEMBAR_TYPE_SYS_MEMBAR : Z := 0.
Definition MEMBAR_TYPE_MEMBAR : Z := 1.
Definition PDB_ONE : Z := 0.
Definition GPC_ENABLE : Z := 0.
Definition REPLAY_NONE : Z := 0.
Definition ACK_TYPE_GLOBALLY : Z := 1.
Definition UP_TO_PDE3 : Z := 5.
Definition UP_TO_PDE4 : Z := 6.
Definition PDB_APERTURE_VID_MEM : Z := 0.
Definition PDB_APERTURE_SYS_MEM_COHERENT : Z := 2.
Definition OPERATION_MEMBAR : Z := 5.
Definition OPERATION_MMU_TLB_INVALIDATE : Z := 9.
Definition OPERATION_MMU_TLB_INVALIDATE_TARGETED : Z := 10.

(** ** Membars *)

Definition uvm_hal_pascal_host_membar_sys (push : uvm_push_t) : option uvm_push_t :=
  NV_PUSH UVM_SUBCHANNEL_HOST (MEM_OP_A C06F)
    [0; 0; HWCONST (C_MEMBAR_TYPE C06F) MEMBAR_TYPE_SYS_MEMBAR;
     HWCONST (D_OPERATION C06F) OPERATION_MEMBAR] push.

Definition uvm_hal_pascal_host_membar_gpu (push : uvm_push_t) : option uvm_push_t :=
  NV_PUSH UVM_SUBCHANNEL_HOST (MEM_OP_A C06F)
    [0; 0; HWCONST (C_MEMBAR_TYPE C06F) MEMBAR_TYPE_MEMBAR;
     HWCONST (D_OPERATION C06F) OPERATION_MEMBAR] push.

(** The membar methods of Pascal are those of every later host class. *)
Definition uvm_hal_membar (push : uvm_push_t) (membar : uvm_membar_t) : option uvm_push_t :=
  match membar with
  | UVM_MEMBAR_SYS => uvm_hal_pascal_host_membar_sys push
  | UVM_MEMBAR_GPU => uvm_hal_pascal_host_membar_gpu push
  | UVM_MEMBAR_NONE => Some push
  end.

(** [num] is [gpu->parent->num_hshub_tlb_invalidate_membars]. *)
Fixpoint membar_gpu_times (num : nat) (push : uvm_push_t) : option uvm_push_t :=
  match num with
  | O => Some push
  | S n => push ← uvm_hal_pascal_host_membar_gpu push; membar_gpu_times n push
  end.

Definition uvm_hal_tlb_invalidate_membar (num : Z) (push : uvm_push_t) (membar : uvm_membar_t)
  : option uvm_push_t :=
  if bool_decide (membar = UVM_MEMBAR_NONE) then Some push
  else push ← membar_gpu_times (Z.to_nat num) push; uvm_hal_membar push membar.

(** ** Invalidates *)

Section host.
Context (c : mem_op_class).

Definition is_vid (a : uvm_aperture_t) : bool := aperture_eqb a UVM_APERTURE_VID.
Definition is_sys (a : uvm_aperture_t) : bool := aperture_eqb a UVM_APERTURE_SYS.

Definition pdb_aperture_value (a : uvm_aperture_t) : Z :=
  if is_vid a then HWCONST (C_PDB_APERTURE c) PDB_APERTURE_VID_MEM
  else HWCONST (C_PDB_APERTURE c) PDB_APERTURE_SYS_MEM_COHERENT.

Definition ack_value (membar : uvm_membar_t) : Z :=
  if bool_decide (membar = UVM_MEMBAR_NONE) then 0
  else HWCONST (C_ACK_TYPE c) ACK_TYPE_GLOBALLY.

(** The words MEM_OP_C and MEM_OP_D of an invalidate of the page tables at
    [pdb] from [depth] down, [top] being the level of the root. *)
Definition tlb_words_cd (top : Z) (pdb : uvm_gpu_phys_address_t) (depth : Z)
    (membar : uvm_membar_t) (operation : Z) : option (list Z) :=
  UVM_ASSERT (is_vid (phys_aperture pdb) || is_sys (phys_aperture pdb)) ;;
  let aperture_value := pdb_aperture_value (phys_aperture pdb) in
  UVM_ASSERT (IS_ALIGNED (phys_address pdb) (2 ^ 12)) ;;
  let pdb_address := Z.shiftr (phys_address pdb) 12 in
  let pdb_lo := u32 (Z.land pdb_address (HWMASK (C_PDB_ADDR_LO c))) in
  let pdb_hi := u32 (Z.shiftr pdb_address (HWSIZE (C_PDB_ADDR_LO c))) in
  UVM_ASSERT (depth <? top) ;;
  let page_table_level := top - depth in
  lo ← HWVALUE (C_PDB_ADDR_LO c) pdb_lo;
  level ← HWVALUE (C_PAGE_TABLE_LEVEL c) page_table_level;
  hi ← HWVALUE (D_PDB_ADDR_HI c) pdb_hi;
  Some [Z.lor (Z.lor (Z.lor (Z.lor (Z.lor (Z.lor (HWCONST (C_PDB c) PDB_ONE) lo)
          (HWCONST (C_GPC c) GPC_ENABLE)) (HWCONST (C_REPLAY c) REPLAY_NONE)) level)
          aperture_value) (ack_value membar);
        Z.lor (HWCONST (D_OPERATION c) operation) hi].

Definition tlb_invalidate_all (top scope num : Z) (push : uvm_push_t)
    (pdb : uvm_gpu_phys_address_t) (depth : Z) (membar : uvm_membar_t) : option uvm_push_t :=
  cd ← tlb_words_cd top pdb depth membar OPERATION_MMU_TLB_INVALIDATE;
  push ← NV_PUSH UVM_SUBCHANNEL_HOST (MEM_OP_A c)
           ([Z.lor (HWCONST (A_SYSMEMBAR c) SYSMEMBAR_DIS) scope; 0] ++ cd) push;
  uvm_hal_tlb_invalidate_membar num push membar.

(** The checks on a range common to every class. *)
Definition va_range_asserts (base size page_size : Z) : option unit :=
  UVM_ASSERT (IS_ALIGNED page_size (2 ^ 12)) ;;
  UVM_ASSERT (IS_ALIGNED base page_size) ;;
  UVM_ASSERT (IS_ALIGNED size page_size) ;;
  UVM_ASSERT (0 <? size).

(** The words MEM_OP_A and MEM_OP_B of a targeted invalidate at the 4K page
    [va]; [low] holds the fields of MEM_OP_A below the address. *)
Definition va_words_ab (low va : Z) : option (list Z) :=
  let va_lo := u32 (Z.land va (HWMASK (A_TARGET_ADDR_LO c))) in
  let va_hi := u32 (Z.shiftr va (HWSIZE (A_TARGET_ADDR_LO c))) in
  lo ← HWVALUE (A_TARGET_ADDR_LO c) va_lo;
  hi ← HWVALUE (B_TARGET_ADDR_HI c) va_hi;
  Some [Z.lor low lo; hi].

(** [for (va = base; va < base + size; va += page_size)] *)
Fixpoint pascal_va_loop (fuel : nat) (cd : list Z) (va end_ page_size : Z) (push : uvm_push_t)
  : option uvm_push_t :=
  if va <? end_ then
    match fuel with
    | O => None
    | S n =>
        ab ← va_words_ab (HWCONST (A_SYSMEMBAR c) SYSMEMBAR_DIS) va;
        push ← NV_PUSH UVM_SUBCHANNEL_HOST (MEM_OP_A c) (ab ++ cd) push;
        pascal_va_loop n cd (u64 (va + page_size)) end_ page_size push
    end
  else Some push.

(** One invalidate of the power-of-two block that contains the range. *)
Definition tlb_invalidate_va_range (top scope num : Z)
    (invalidate_all : uvm_push_t -> uvm_gpu_phys_address_t -> Z -> uvm_membar_t -> option uvm_push_t)
    (push : uvm_push_t) (pdb : uvm_gpu_phys_address_t) (depth base size page_size : Z)
    (membar : uvm_membar_t) : option uvm_push_t :=
  va_range_asserts base size page_size ;;
  let end_ := u64 (base + size - 1) in
  let log2_invalidation_size := Z.log2 (Z.lxor end_ base) + 1 in
  if log2_invalidation_size =? 64 then invalidate_all push pdb depth membar
  else
    let actual_size := u64 (Z.shiftl 1 log2_invalidation_size) in
    actual_base ← UVM_ALIGN_DOWN base actual_size;
    let actual_end := u64 (actual_base + actual_size - 1) in
    UVM_ASSERT (end_ <=? actual_end) ;;
    let log2_invalidation_size := log2_invalidation_size - 12 in
    sz ← HWVALUE (A_INVALIDATION_SIZE c) log2_invalidation_size;
    ab ← va_words_ab (Z.lor (Z.lor sz (HWCONST (A_SYSMEMBAR c) SYSMEMBAR_DIS)) scope)
           (Z.shiftr base 12);
    cd ← tlb_words_cd top pdb depth membar OPERATION_MMU_TLB_INVALIDATE_TARGETED;
    push ← NV_PUSH UVM_SUBCHANNEL_HOST (MEM_OP_A c) (ab ++ cd) push;
    uvm_hal_tlb_invalidate_membar num push membar.
End host.

Definition uvm_hal_pascal_host_tlb_invalidate_all := tlb_invalidate_all C06F UP_TO_PDE3 0.

Definition uvm_hal_ampere_host_tlb_invalidate_all :=
  tlb_invalidate_all C56F UP_TO_PDE3 (HWCONST (A_INVAL_SCOPE C56F) INVAL_SCOPE_NON_LINK_TLBS).

Definition uvm_hal_hopper_host_tlb_invalidate_all :=
  tlb_invalidate_all C86F UP_TO_PDE4 (HWCONST (A_INVAL_SCOPE C86F) INVAL_SCOPE_NON_LINK_TLBS).

Definition uvm_hal_pascal_host_tlb_invalidate_va (num : Z) (push : uvm_push_t)
    (pdb : uvm_gpu_phys_address_t) (depth base size page_size : Z) (membar : uvm_membar_t)
  : option uvm_push_t :=
  cd ← tlb_words_cd C06F UP_TO_PDE3 pdb depth membar OPERATION_MMU_TLB_INVALIDATE_TARGETED;
  va_range_asserts base size page_size ;;
  let base := Z.shiftr base 12 in
  let size := Z.shiftr size 12 in
  let page_size := Z.shiftr page_size 12 in
  push ← pascal_va_loop C06F (Z.to_nat size) cd base (u64 (base + size)) page_size push;
  uvm_hal_tlb_invalidate_membar num push membar.

(** On the later classes [host_hal->tlb_invalidate_all] is that of Pascal on
    Volta and Turing, and their own on Ampere and Hopper. *)
Definition uvm_hal_volta_host_tlb_invalidate_va (num : Z) :=
  tlb_invalidate_va_range C36F UP_TO_PDE3 0 num (uvm_hal_pascal_host_tlb_invalidate_all num).

Definition uvm_hal_ampere_host_tlb_invalidate_va (num : Z) :=
  tlb_invalidate_va_range C56F UP_TO_PDE3
    (HWCONST (A_INVAL_SCOPE C56F) INVAL_SCOPE_NON_LINK_TLBS) num
    (uvm_hal_ampere_host_tlb_invalidate_all num).

Definition uvm_hal_hopper_host_tlb_invalidate_va (num : Z) :=
  tlb_invalidate_va_range C86F UP_TO_PDE4
    (HWCONST (A_INVAL_SCOPE C86F) INVAL_SCOPE_NON_LINK_TLBS) num
    (uvm_hal_hopper_host_tlb_invalidate_all num).

(** ** What the host engine does with the methods *)

(** An invalidate of the translations of the page directory [pdb] at and below
    [level] of the page table, for every address or for the block of
    [2 ^ log2_size] bytes that holds an address; a membar. *)
Inductive host_op :=
| TlbInvalidate (target : option (Z * Z)) (pdb : uvm_gpu_phys_address_t) (level : Z) (acked : bool)
| Membar (membar : uvm_membar_t).

Definition read_pdb (c : mem_op_class) (wc wd : Z) : option uvm_gpu_phys_address_t :=
  ap ← match DRF_VAL (C_PDB_APERTURE c) wc with
       | 0 => Some UVM_APERTURE_VID
       | 2 => Some UVM_APERTURE_SYS
       | _ => None
       end;
  Some (PhysAddr (Z.shiftl (Z.lor (Z.shiftl (DRF_VAL (D_PDB_ADDR_HI c) wd) 20)
                                  (DRF_VAL (C_PDB_ADDR_LO c) wc)) 12) ap).

(** [ranged]: the class has an invalidation size. *)
Definition read_mem_op (c : mem_op_class) (ranged : bool) (wa wb wc wd : Z) : option host_op :=
  if DRF_VAL (D_OPERATION c) wd =? OPERATION_MEMBAR then
    match DRF_VAL (C_MEMBAR_TYPE c) wc with
    | 0 => Some (Membar UVM_MEMBAR_SYS)
    | 1 => Some (Membar UVM_MEMBAR_GPU)
    | _ => None
    end
  else
    UVM_ASSERT ((DRF_VAL (C_PDB c) wc =? 0) && (DRF_VAL (C_GPC c) wc =? 0) &&
                (DRF_VAL (C_REPLAY c) wc =? 0)) ;;
    pdb ← read_pdb c wc wd;
    let level := DRF_VAL (C_PAGE_TABLE_LEVEL c) wc in
    let acked := DRF_VAL (C_ACK_TYPE c) wc =? ACK_TYPE_GLOBALLY in
    if DRF_VAL (D_OPERATION c) wd =? OPERATION_MMU_TLB_INVALIDATE then
      Some (TlbInvalidate None pdb level acked)
    else
      UVM_ASSERT (DRF_VAL (D_OPERATION c) wd =? OPERATION_MMU_TLB_INVALIDATE_TARGETED) ;;
      let va := Z.shiftl (Z.lor (Z.shiftl (DRF_VAL (B_TARGET_ADDR_HI c) wb) 20)
                                (DRF_VAL (A_TARGET_ADDR_LO c) wa)) 12 in
      let size := if ranged then 12 + DRF_VAL (A_INVALIDATION_SIZE c) wa else 12 in
      Some (TlbInvalidate (Some (va, size)) pdb level acked).

(** MEM_OP_A, B and C are registers; MEM_OP_D starts the operation. *)
Definition host_step (c : mem_op_class) (ranged : bool) (st : Z * Z * Z * list host_op) (m : Z * Z)
  : option (Z * Z * Z * list host_op) :=
  let '(wa, wb, wc, ops) := st in
  let '(a, d) := m in
  if a =? MEM_OP_A c then Some (d, wb, wc, ops)
  else if a =? MEM_OP_A c + 4 then Some (wa, d, wc, ops)
  else if a =? MEM_OP_A c + 8 then Some (wa, wb, d, ops)
  else if a =? MEM_OP_A c + 12 then
    op ← read_mem_op c ranged wa wb wc d; Some (wa, wb, wc, ops ++ [op])
  else None.

Fixpoint host_exec (c : mem_op_class) (ranged : bool) (st : Z * Z * Z * list host_op)
    (ms : list (Z * Z)) : option (Z * Z * Z * list host_op) :=
  match ms with
  | [] => Some st
  | m :: ms' => st' ← host_step c ranged st m; host_exec c ranged st' ms'
  end.

(** The operations of the words of a push. *)
Definition host_ops (c : mem_op_class) (ranged : bool) (push : uvm_push_t) : option (list host_op) :=
  ms ← methods push;
  '(_, _, _, ops) ← host_exec c ranged (0, 0, 0, []) ms;
  Some ops.

(** ** The words are read as the operation asked for *)

Definition pdb_ok (pdb : uvm_gpu_phys_address_t) : Prop :=
  (phys_aperture pdb = UVM_APERTURE_VID \/ phys_aperture pdb = UVM_APERTURE_SYS) /\
  0 <= phys_address pdb < 2 ^ 59 /\ phys_address pdb mod 4096 = 0.

(** A number cut in a low part of [k] bits and the rest. *)
Lemma split_number p k :
  0 <= k -> 0 <= p -> Z.lor (Z.shiftl (Z.shiftr p k) k) (Z.land p (Z.ones k)) = p.
Proof.
  intros Hk Hp. apply Z.bits_inj'. intros i Hi.
  rewrite Z.lor_spec, Z.shiftl_spec, Z.land_spec, Z.testbit_ones_nonneg by done.
  destruct (Z.ltb_spec i k).
  - rewrite Z.testbit_neg_r by lia. by rewrite andb_true_r.
  - rewrite Z.shiftr_spec, andb_false_r, orb_false_r by lia. f_equal. lia.
Qed.

Lemma number_parts p k n :
  0 <= k -> k <= n -> 0 <= p < 2 ^ n ->
  0 <= Z.land p (Z.ones k) < 2 ^ k /\ 0 <= Z.shiftr p k < 2 ^ (n - k).
Proof.
  intros Hk Hn Hp. rewrite Z.land_ones, Z.shiftr_div_pow2 by done.
  assert (0 < 2 ^ k) by (apply Z.pow_pos_nonneg; lia).
  split; [apply Z.mod_pos_bound; lia|]. split; [apply Z.div_pos; lia|].
  apply Z.div_lt_upper_bound; [done|]. rewrite <- Z.pow_add_r by lia.
  replace (k + (n - k)) with n by lia. lia.
Qed.

Lemma page_shift a n :
  12 <= n -> 0 <= a < 2 ^ n -> a mod 4096 = 0 ->
  0 <= Z.shiftr a 12 < 2 ^ (n - 12) /\ Z.shiftl (Z.shiftr a 12) 12 = a.
Proof.
  intros Hn Ha Hm. split; [by apply (number_parts a 12 n)|].
  rewrite Z.shiftr_div_pow2, Z.shiftl_mul_pow2 by lia. change (2 ^ 12) with 4096.
  pose proof (Z.div_mod a 4096). lia.
Qed.

(** What a reader finds in the words C and D. *)
Record reads_cd (c : mem_op_class) (pdb : uvm_gpu_phys_address_t) (level : Z) (acked : bool)
    (operation wc wd : Z) : Prop := {
  rcd_pdb : DRF_VAL (C_PDB c) wc = 0;
  rcd_gpc : DRF_VAL (C_GPC c) wc = 0;
  rcd_replay : DRF_VAL (C_REPLAY c) wc = 0;
  rcd_level : DRF_VAL (C_PAGE_TABLE_LEVEL c) wc = level;
  rcd_ack : (DRF_VAL (C_ACK_TYPE c) wc =? ACK_TYPE_GLOBALLY) = acked;
  rcd_op : DRF_VAL (D_OPERATION c) wd = operation;
  rcd_where : read_pdb c wc wd = Some pdb;
}.

Definition acked (membar : uvm_membar_t) : bool := negb (bool_decide (membar = UVM_MEMBAR_NONE)).

Lemma ack_value_num membar :
  ack_value C06F membar = DRF_NUM64 (C_ACK_TYPE C06F) (if acked membar then 1 else 0).
Proof. by destruct membar. Qed.

Lemma pdb_aperture_num pdb :
  pdb_ok pdb -> exists v, (v = 0 \/ v = 2) /\
    match v with 0 => Some UVM_APERTURE_VID | 2 => Some UVM_APERTURE_SYS | _ => None end =
      Some (phys_aperture pdb) /\
    is_vid (phys_aperture pdb) || is_sys (phys_aperture pdb) = true /\
    pdb_aperture_value C06F (phys_aperture pdb) = DRF_NUM64 (C_PDB_APERTURE C06F) v.
Proof. intros [[->| ->] _]; [exists 0|exists 2]; auto. Qed.

Ltac fold_nums32 :=
  repeat (rewrite HWVALUE_fits by fits32; cbn [mbind option_bind]);
  repeat (rewrite HWCONST_num by fits32).

Lemma tlb_words_cd_spec top pdb depth membar operation :
  pdb_ok pdb -> 0 <= depth < top -> top < 8 -> 0 <= operation < 32 ->
  exists wc wd, tlb_words_cd C06F top pdb depth membar operation = Some [wc; wd] /\
    reads_cd C06F pdb (top - depth) (acked membar) operation wc wd.
Proof.
  intros Hpdb Hd Ht Hop. destruct (pdb_aperture_num pdb Hpdb) as (v & Hv & Hap & Hassert & Hval).
  destruct Hpdb as (_ & Hrange & Hal). unfold tlb_words_cd.
  rewrite Hassert, Hval, ack_value_num. cbn [UVM_ASSERT mbind option_bind].
  rewrite (proj2 (IS_ALIGNED_spec _ 12 ltac:(lia))) by done.
  destruct (page_shift _ 59 ltac:(lia) Hrange Hal) as [Hn Hback].
  destruct (number_parts _ 20 47 ltac:(lia) ltac:(lia) Hn) as [Hlo Hhi].
  change (HWMASK (C_PDB_ADDR_LO C06F)) with (Z.ones 20). change (HWSIZE (C_PDB_ADDR_LO C06F)) with 20.
  pose proof (split_number (Z.shiftr (phys_address pdb) 12) 20 ltac:(lia) ltac:(lia)) as Hsplit.
  generalize dependent (Z.land (Z.shiftr (phys_address pdb) 12) (Z.ones 20)). intros lo Hlo Hsplit.
  generalize dependent (Z.shiftr (Z.shiftr (phys_address pdb) 12) 20). intros hi Hhi Hsplit.
  rewrite (proj2 (Z.ltb_lt depth top)) by lia. cbn [UVM_ASSERT mbind option_bind].
  change (2 ^ 20) with 1048576 in Hlo. change (2 ^ (47 - 20)) with 134217728 in Hhi.
  rewrite (u32_small lo), (u32_small hi) by (unfold is_u32; lia).
  fold_nums32. do 2 eexists. split; [reflexivity|].
  assert (Hif : 0 <= (if acked membar then 1 else 0) < 4) by (destruct (acked membar); lia).
  assert (Hv' : 0 <= v < 4) by (destruct Hv; lia).
  split; unfold read_pdb; read_fields32; try done.
  - by destruct (acked membar).
  - rewrite Hap. cbn [mbind option_bind]. rewrite Hsplit, Hback. by destruct pdb.
Qed.

Lemma va_words_ab_spec low va :
  0 <= va < 2 ^ 52 -> DRF_VAL64 (A_TARGET_ADDR_LO C06F) low = 0 ->
  exists wa wb, va_words_ab C06F low va = Some [wa; wb] /\
    Z.lor (Z.shiftl (DRF_VAL (B_TARGET_ADDR_HI C06F) wb) 20) (DRF_VAL (A_TARGET_ADDR_LO C06F) wa) = va /\
    DRF_VAL (A_INVALIDATION_SIZE C06F) wa = DRF_VAL (A_INVALIDATION_SIZE C06F) low.
Proof.
  intros Hva Hlow. unfold va_words_ab.
  destruct (number_parts _ 20 52 ltac:(lia) ltac:(lia) Hva) as [Hlo Hhi].
  change (HWMASK (A_TARGET_ADDR_LO C06F)) with (Z.ones 20).
  change (HWSIZE (A_TARGET_ADDR_LO C06F)) with 20.
  pose proof (split_number va 20 ltac:(lia) ltac:(lia)) as Hsplit.
  generalize dependent (Z.land va (Z.ones 20)). intros lo Hlo Hsplit.
  generalize dependent (Z.shiftr va 20). intros hi Hhi Hsplit.
  change (2 ^ 20) with 1048576 in Hlo. change (2 ^ (52 - 20)) with 4294967296 in Hhi.
  rewrite (u32_small lo), (u32_small hi) by (unfold is_u32; lia). fold_nums32.
  do 2 eexists. split; [reflexivity|]. 
  read_fields32. rewrite Hlow, Z.lor_0_l. by rewrite Hsplit.
Qed.

(** ** Appending an operation *)

Lemma host_exec_app c ranged st ms ms' :
  host_exec c ranged st (ms ++ ms') =
  (st' ← host_exec c ranged st ms; host_exec c ranged st' ms').
Proof.
  revert st. induction ms as [|m ms IH]; intros st; [done|]. cbn [app host_exec].
  destruct (host_step c ranged st m); [apply IH|done].
Qed.

Lemma host_group ranged st wa wb wc wd :
  host_exec C06F ranged st (group (MEM_OP_A C06F) [wa; wb; wc; wd]) =
  (op ← read_mem_op C06F ranged wa wb wc wd; Some (wa, wb, wc, st.2 ++ [op])).
Proof.
  destruct st as [[[a b] c] l]. cbn [group host_exec]. unfold host_step.
  generalize (read_mem_op C06F ranged). intros f. lazy -[app]. by destruct (f wa wb wc wd).
Qed.

(** The push fits [n] more groups of four methods. *)
Definition room (push : uvm_push_t) (n : Z) : Prop :=
  uvm_push_get_size push + 20 * n <= UVM_MAX_PUSH_SIZE.

Lemma push_op ranged wa wb wc wd push ops op n :
  host_ops C06F ranged push = Some ops -> room push n -> 1 <= n ->
  read_mem_op C06F ranged wa wb wc wd = Some op ->
  exists push', NV_PUSH UVM_SUBCHANNEL_HOST (MEM_OP_A C06F) [wa; wb; wc; wd] push = Some push' /\
    room push' (n - 1) /\ host_ops C06F ranged push' = Some (ops ++ [op]).
Proof.
  intros Hops Hroom Hn Hop. unfold host_ops in Hops.
  destruct (methods push) as [ms|] eqn:Hms; [|done]. cbn [mbind option_bind] in Hops.
  destruct (host_exec C06F ranged (0, 0, 0, []) ms) as [[[[a b] c] l]|] eqn:He; [|done].
  injection Hops as ->.
  destruct (NV_PUSH_spec UVM_SUBCHANNEL_HOST (MEM_OP_A C06F) [wa; wb; wc; wd] push ms)
    as (push' & Hp & Hlen & Hm); try done.
  { unfold room in Hroom. cbn [length]. lia. }
  exists push'. split; [done|]. unfold room, uvm_push_get_size in *. rewrite Hlen. split; [cbn [length]; unfold UVM_METHOD_SIZE in *; lia|].
  unfold host_ops. rewrite Hm. cbn [mbind option_bind]. rewrite host_exec_app, He.
  cbn [mbind option_bind]. by rewrite host_group, Hop.
Qed.

(** ** What each function pushes *)

(** From any readable push with room for [k] groups, [f] appends operations
    that satisfy [Q] and uses at most that room. *)
Definition pushes (ranged : bool) (f : uvm_push_t -> option uvm_push_t) (k : Z)
    (Q : list host_op -> Prop) : Prop :=
  forall push ops n, host_ops C06F ranged push = Some ops -> room push n -> k <= n ->
  exists push' new, f push = Some push' /\ room push' (n - k) /\
    host_ops C06F ranged push' = Some (ops ++ new) /\ Q new.

Lemma pushes_bind ranged f g k l (P Q R : list host_op -> Prop) :
  0 <= k -> 0 <= l -> pushes ranged f k P -> pushes ranged g l Q ->
  (forall a b, P a -> Q b -> R (a ++ b)) ->
  pushes ranged (fun push => push' ← f push; g push') (k + l) R.
Proof.
  intros Hk Hl Hf Hg HR push ops n Hops Hroom Hn.
  destruct (Hf push ops n Hops Hroom ltac:(lia)) as (p1 & a & -> & Hr1 & Ho1 & Ha).
  destruct (Hg p1 _ (n - k) Ho1 Hr1 ltac:(lia)) as (p2 & b & Eg & Hr2 & Ho2 & Hb).
  exists p2, (a ++ b). cbn. rewrite Eg. split; [done|]. split; [by replace (n - (k + l)) with (n - k - l) by lia|].
  rewrite app_assoc. split; [done|]. by apply HR.
Qed.

Lemma pushes_mono ranged f k l (P Q : list host_op -> Prop) :
  pushes ranged f k P -> k <= l -> (forall a, P a -> Q a) -> pushes ranged f l Q.
Proof.
  intros Hf Hkl HPQ push ops n Hops Hroom Hn.
  destruct (Hf push ops n Hops Hroom ltac:(lia)) as (p & a & E & Hr & Ho & Ha).
  exists p, a. split; [done|]. split; [unfold room in *; lia|]. auto.
Qed.

Lemma pushes_ret ranged (Q : list host_op -> Prop) : Q [] -> pushes ranged Some 0 Q.
Proof.
  intros HQ push ops n Hops Hroom _. exists push, []. rewrite Z.sub_0_r, app_nil_r. auto.
Qed.

Lemma pushes_op ranged wa wb wc wd op :
  read_mem_op C06F ranged wa wb wc wd = Some op ->
  pushes ranged (NV_PUSH UVM_SUBCHANNEL_HOST (MEM_OP_A C06F) [wa; wb; wc; wd]) 1 (fun new => new = [op]).
Proof.
  intros Hop push ops n Hops Hroom Hn.
  destruct (push_op ranged wa wb wc wd push ops op n Hops Hroom Hn Hop) as (p & E & Hr & Ho).
  by exists p, [op].
Qed.

(** The membars after an invalidate. *)
Definition membar_ops (num : Z) (membar : uvm_membar_t) : list host_op :=
  if bool_decide (membar = UVM_MEMBAR_NONE) then []
  else replicate (Z.to_nat num) (Membar UVM_MEMBAR_GPU) ++ [Membar membar].

Lemma membar_gpu_pushes ranged :
  pushes ranged uvm_hal_pascal_host_membar_gpu 1 (fun new => new = [Membar UVM_MEMBAR_GPU]).
Proof. by apply pushes_op. Qed.

Lemma membar_gpu_times_pushes ranged num :
  pushes ranged (membar_gpu_times num) (Z.of_nat num)
    (fun new => new = replicate num (Membar UVM_MEMBAR_GPU)).
Proof.
  induction num as [|num IH]; [by apply pushes_ret|]. rewrite Nat2Z.inj_succ.
  replace (Z.succ (Z.of_nat num)) with (1 + Z.of_nat num) by lia.
  eapply pushes_bind; [lia|lia|apply membar_gpu_pushes|apply IH|]. by intros a b -> ->.
Qed.

Lemma tlb_invalidate_membar_pushes ranged num membar :
  0 <= num ->
  pushes ranged (fun push => uvm_hal_tlb_invalidate_membar num push membar) (num + 1)
    (fun new => new = membar_ops num membar).
Proof.
  intros Hnum. unfold uvm_hal_tlb_invalidate_membar, membar_ops. case_bool_decide as Hm.
  { apply (pushes_mono _ _ 0 _ (fun new => new = [])); [by apply pushes_ret|lia|done]. }
  destruct (Z_of_nat_complete num Hnum) as [k ->]. rewrite Nat2Z.id.
  eapply (pushes_bind _ _ (fun push => uvm_hal_membar push membar) _ _ _
            (fun new => new = [Membar membar]));
    [lia|lia|apply membar_gpu_times_pushes| |by intros a b -> ->].
  destruct membar; [done|by apply pushes_op|by apply pushes_op].
Qed.

(** [op] is an invalidate of the directory [pdb] down from [level]. *)
Definition invalidates (pdb : uvm_gpu_phys_address_t) (level : Z) (ack : bool) (op : host_op) : Prop :=
  exists target, op = TlbInvalidate target pdb level ack.

(** [op] reaches the address [a]: it has no target, or [a] is in the aligned
    block around its target. *)
Definition reaches (a : Z) (op : host_op) : Prop :=
  match op with
  | TlbInvalidate None _ _ _ => True
  | TlbInvalidate (Some (va, k)) _ _ _ => va / 2 ^ k = a / 2 ^ k
  | Membar _ => False
  end.

(** The operations invalidate every page of the range, at least one address of
    each, and then run the membars. *)
Definition sweeps (pdb : uvm_gpu_phys_address_t) (level base size page_size num : Z)
    (membar : uvm_membar_t) (new : list host_op) : Prop :=
  exists invs, new = invs ++ membar_ops num membar /\
    Forall (invalidates pdb level (acked membar)) invs /\
    forall a, base <= a < base + size -> (page_size | a) -> Exists (reaches a) invs.

Lemma read_all ranged wa wb wc wd pdb level ack :
  reads_cd C06F pdb level ack OPERATION_MMU_TLB_INVALIDATE wc wd ->
  read_mem_op C06F ranged wa wb wc wd = Some (TlbInvalidate None pdb level ack).
Proof.
  intros []. unfold read_mem_op. by rewrite rcd_pdb0, rcd_gpc0, rcd_replay0, rcd_op0, rcd_where0, rcd_level0, rcd_ack0.
Qed.

Lemma read_targeted ranged wa wb wc wd pdb level ack va :
  reads_cd C06F pdb level ack OPERATION_MMU_TLB_INVALIDATE_TARGETED wc wd ->
  Z.lor (Z.shiftl (DRF_VAL (B_TARGET_ADDR_HI C06F) wb) 20) (DRF_VAL (A_TARGET_ADDR_LO C06F) wa) = va ->
  read_mem_op C06F ranged wa wb wc wd =
    Some (TlbInvalidate (Some (Z.shiftl va 12,
      if ranged then 12 + DRF_VAL (A_INVALIDATION_SIZE C06F) wa else 12)) pdb level ack).
Proof.
  intros [] Hva. unfold read_mem_op.
  by rewrite rcd_pdb0, rcd_gpc0, rcd_replay0, rcd_op0, rcd_where0, rcd_level0, rcd_ack0, Hva.
Qed.

Lemma tlb_invalidate_all_pushes ranged top scope num pdb depth membar base size page_size :
  pdb_ok pdb -> 0 <= depth < top -> top < 8 -> 0 <= num ->
  pushes ranged (fun push => tlb_invalidate_all C06F top scope num push pdb depth membar) (num + 2)
    (sweeps pdb (top - depth) base size page_size num membar).
Proof.
  intros Hpdb Hd Ht Hnum. unfold tlb_invalidate_all.
  destruct (tlb_words_cd_spec top pdb depth membar OPERATION_MMU_TLB_INVALIDATE) as (wc & wd & -> & Hcd);
    [done..|]. cbn [mbind option_bind app].
  replace (num + 2) with (1 + (num + 1)) by lia.
  eapply pushes_bind; [lia|lia|eapply pushes_op, read_all, Hcd|by apply tlb_invalidate_membar_pushes|].
  intros a b -> ->. eexists. split; [done|]. split; [constructor; [by eexists|done]|].
  intros x _ _. by constructor.
Qed.

(** A range of pages of a supported size. *)
Record range_ok (base size page_size : Z) : Prop := {
  ro_page : exists p, 12 <= p < 32 /\ page_size = 2 ^ p;
  ro_base : 0 <= base /\ base mod page_size = 0;
  ro_size : 0 < size /\ size mod page_size = 0;
  ro_end : base + size <= 2 ^ 64;
}.

Lemma range_4k base size page_size :
  range_ok base size page_size -> base mod 4096 = 0 /\ size mod 4096 = 0 /\ (4096 | page_size).
Proof.
  intros [(p & Hp & ->) [_ Hb] [_ Hs] _].
  assert (Hd : (4096 | 2 ^ p)).
  { exists (2 ^ (p - 12)). change 4096 with (2 ^ 12). rewrite <- Z.pow_add_r by lia. f_equal. lia. }
  assert (2 ^ p <> 0) by lia.
  apply Z.mod_divide in Hb, Hs; [|done..].
  split; [|split; [|done]]; apply Z.mod_divide; try done; by etransitivity.
Qed.

Lemma va_range_asserts_ok base size page_size :
  range_ok base size page_size -> va_range_asserts base size page_size = Some tt.
Proof.
  intros Hr. destruct (range_4k _ _ _ Hr) as (_ & _ & Hd).
  destruct Hr as [(p & Hp & ->) [_ Hb] [Hs0 Hs] _]. unfold va_range_asserts.
  rewrite (proj2 (IS_ALIGNED_spec (2 ^ p) 12 ltac:(lia))) by by apply Z.mod_divide.
  rewrite !(proj2 (IS_ALIGNED_spec _ p ltac:(lia))) by done.
  rewrite (proj2 (Z.ltb_lt 0 size)) by done. done.
Qed.

(** The smallest power-of-two block that contains a range of whole 4K pages. *)
Lemma enclosing_block base size :
  base mod 4096 = 0 -> size mod 4096 = 0 -> 0 <= base -> 0 < size -> base + size <= 2 ^ 64 ->
  let L := Z.log2 (Z.lxor (base + size - 1) base) + 1 in
  12 <= L <= 64 /\ (base + size - 1) / 2 ^ L = base / 2 ^ L.
Proof.
  intros Hb Hs Hb0 Hs0 He. cbv zeta. set (e := base + size - 1). set (x := Z.lxor e base).
  assert (He12 : e mod 2 ^ 12 = 4095).
  { unfold e. symmetry. apply Z.mod_divide in Hb as [q Hq]; [|done]. apply Z.mod_divide in Hs as [r Hr]; [|done].
    change (2 ^ 12) with 4096. apply (Z.mod_unique_pos _ _ (q + r - 1)); lia. }
  assert (Hbit : Z.testbit x 11 = true).
  { unfold x. rewrite Z.lxor_spec.
    rewrite <- (Z.mod_pow2_bits_low e 12 11), <- (Z.mod_pow2_bits_low base 12 11) by lia.
    rewrite He12. change (2 ^ 12) with 4096. by rewrite Hb. }
  assert (Hx0 : 0 <= x) by (apply Z.lxor_nonneg; lia).
  assert (Hx : 0 < x).
  { destruct (decide (x = 0)) as [Hz|]; [by rewrite Hz, Z.bits_0 in Hbit|lia]. }
  assert (H11 : 11 <= Z.log2 x).
  { destruct (Z.le_gt_cases 11 (Z.log2 x)); [done|].
    by rewrite Z.bits_above_log2 in Hbit by lia. }
  assert (H63 : Z.log2 x < 64).
  { assert (Hl : forall y, 0 <= y < 2 ^ 64 -> Z.log2 y < 64).
    { intros y Hy. destruct (decide (y = 0)) as [->|]; [done|]. apply Z.log2_lt_pow2; lia. }
    pose proof (Z.log2_lxor e base ltac:(lia) ltac:(lia)) as Hlx. fold x in Hlx.
    pose proof (Hl e ltac:(lia)). pose proof (Hl base ltac:(lia)). lia. }
  split; [lia|]. rewrite <- !Z.shiftr_div_pow2 by lia.
  apply Z.bits_inj'. intros i Hi. rewrite !Z.shiftr_spec by done.
  assert (Hz : Z.testbit x (i + (Z.log2 x + 1)) = false) by (apply Z.bits_above_log2; lia).
  unfold x at 1 in Hz. rewrite Z.lxor_spec in Hz. by apply xorb_eq.
Qed.

Lemma same_block base e a k :
  0 <= k -> base <= a <= e -> e / 2 ^ k = base / 2 ^ k -> base / 2 ^ k = a / 2 ^ k.
Proof.
  intros Hk Ha He. assert (0 < 2 ^ k) by (apply Z.pow_pos_nonneg; lia).
  pose proof (Z.div_le_mono base a (2 ^ k)). pose proof (Z.div_le_mono a e (2 ^ k)). lia.
Qed.

(** The one target reaches every address of the range: [g] is any granularity. *)
Lemma tlb_invalidate_va_range_pushes g top scope num invalidate_all pdb depth base size page_size membar v :
  pdb_ok pdb -> 0 <= depth < top -> top < 8 -> 0 <= num -> range_ok base size page_size ->
  scope = DRF_NUM64 (A_INVAL_SCOPE C06F) v -> 0 <= v < 4 ->
  pushes true (fun push => invalidate_all push pdb depth membar) (num + 2)
    (sweeps pdb (top - depth) base size g num membar) ->
  pushes true (fun push => tlb_invalidate_va_range C06F top scope num invalidate_all push pdb depth
                 base size page_size membar) (num + 2)
    (sweeps pdb (top - depth) base size g num membar).
Proof.
  intros Hpdb Hd Ht Hnum Hr -> Hv Hall. unfold tlb_invalidate_va_range.
  rewrite va_range_asserts_ok by done. cbn [mbind option_bind].
  destruct (range_4k _ _ _ Hr) as (Hb4 & Hs4 & _). destruct Hr as [_ [Hb0 _] [Hs0 _] Hend].
  rewrite (u64_small (base + size - 1)) by (unfold is_u64; lia).
  destruct (enclosing_block base size) as [HL Hblock]; [done..|].
  set (L := Z.log2 (Z.lxor (base + size - 1) base) + 1) in *. clearbody L.
  destruct (Z.eqb_spec L 64) as [->|HL64]; [done|].
  assert (HLp : 2 ^ L <= 2 ^ 63) by (apply Z.pow_le_mono_r; lia).
  rewrite Z.shiftl_mul_pow2, Z.mul_1_l, (u64_small (2 ^ L)) by (unfold is_u64; lia).
  rewrite UVM_ALIGN_DOWN_spec by (unfold is_u64; lia). cbn [mbind option_bind].
  assert (Hfit : base + size - 1 < base / 2 ^ L * 2 ^ L + 2 ^ L).
  { rewrite <- Hblock. pose proof (Z.div_mod (base + size - 1) (2 ^ L)).
    pose proof (Z.mod_pos_bound (base + size - 1) (2 ^ L)). lia. }
  assert (Htop : base / 2 ^ L * 2 ^ L + 2 ^ L <= 2 ^ 64).
  { assert (Hlt : base / 2 ^ L < 2 ^ (64 - L)).
    { apply Z.div_lt_upper_bound; [lia|]. rewrite <- Z.pow_add_r by lia.
      replace (L + (64 - L)) with 64 by lia. lia. }
    replace (2 ^ 64) with (2 ^ (64 - L) * 2 ^ L) by (rewrite <- Z.pow_add_r by lia; f_equal; lia). nia. }
  assert (0 <= base / 2 ^ L * 2 ^ L) by (apply Z.mul_nonneg_nonneg; [apply Z.div_pos|]; lia).
  rewrite (u64_small (_ + _ - 1)) by (unfold is_u64; lia).
  rewrite (proj2 (Z.leb_le _ _)) by lia. cbn [UVM_ASSERT mbind option_bind].
  rewrite HWVALUE_fits by fits32. cbn [mbind option_bind].
  destruct (page_shift base 64) as [Hn Hback]; [lia|lia|done|].
  destruct (va_words_ab_spec (Z.lor (Z.lor (DRF_NUM64 (A_INVALIDATION_SIZE C06F) (L - 12))
    (HWCONST (A_SYSMEMBAR C06F) SYSMEMBAR_DIS)) (DRF_NUM64 (A_INVAL_SCOPE C06F) v)) (Z.shiftr base 12))
    as (wa & wb & -> & Hva & Hsz); [done| |].
  { rewrite HWCONST_num by fits32. read_fields32. done. }
  cbn [mbind option_bind].
  destruct (tlb_words_cd_spec top pdb depth membar OPERATION_MMU_TLB_INVALIDATE_TARGETED)
    as (wc & wd & -> & Hcd); [done..|]. cbn [mbind option_bind app].
  assert (HszL : DRF_VAL (A_INVALIDATION_SIZE C06F) wa = L - 12).
  { rewrite Hsz, HWCONST_num by fits32. read_fields32. done. }
  replace (num + 2) with (1 + (num + 1)) by lia.
  eapply pushes_bind; [lia|lia|eapply pushes_op, read_targeted; [apply Hcd|apply Hva]
    |by apply tlb_invalidate_membar_pushes|].
  intros a b -> ->. eexists. split; [done|]. split; [constructor; [by eexists|done]|].
  intros x Hx _. constructor. cbn [reaches]. rewrite Hback, HszL.
  replace (12 + (L - 12)) with L by lia. apply (same_block _ (base + size - 1)); lia.
Qed.

(** The loop visits every page of the range, one group of methods each. *)
Lemma pascal_va_loop_pushes pdb level ack wc wd q end_ m fuel va :
  reads_cd C06F pdb level ack OPERATION_MMU_TLB_INVALIDATE_TARGETED wc wd ->
  (m <= fuel)%nat -> 0 < q -> 0 <= va -> end_ - va = Z.of_nat m * q -> end_ <= 2 ^ 52 ->
  pushes false (pascal_va_loop C06F fuel [wc; wd] va end_ q) (Z.of_nat m)
    (fun new => Forall (invalidates pdb level ack) new /\
       forall j, 0 <= j < Z.of_nat m -> Exists (reaches ((va + j * q) * 4096)) new).
Proof.
  intros Hcd. revert fuel va. induction m as [|m IH]; intros fuel va Hf Hq Hva Hm He.
  { assert (Hge : (va <? end_) = false) by (apply Z.ltb_ge; lia).
    destruct fuel; cbn [pascal_va_loop]; rewrite Hge; (apply pushes_ret; split; [done|lia]). }
  destruct fuel as [|fuel]; [lia|]. cbn [pascal_va_loop].
  rewrite (proj2 (Z.ltb_lt va end_)) by nia.
  destruct (va_words_ab_spec (HWCONST (A_SYSMEMBAR C06F) SYSMEMBAR_DIS) va)
    as (wa & wb & -> & Hr & _); [nia|done|]. cbn [mbind option_bind app].
  rewrite u64_small by (unfold is_u64; nia).
  replace (Z.of_nat (S m)) with (1 + Z.of_nat m) by lia.
  eapply pushes_bind; [lia|lia|eapply pushes_op, read_targeted; [apply Hcd|apply Hr]|apply IH; nia|].
  intros a b -> [Hb1 Hb2]. split; [constructor; [by eexists|done]|]. intros j Hj.
  destruct (decide (j = 0)) as [->|Hj0].
  - constructor. cbn [reaches]. rewrite Z.shiftl_mul_pow2 by lia. f_equal. lia.
  - apply Exists_app. right. specialize (Hb2 (j - 1) ltac:(lia)).
    by replace (va + j * q) with (va + q + (j - 1) * q) by lia.
Qed.

Lemma pascal_tlb_invalidate_va_pushes num pdb depth base size page_size membar :
  pdb_ok pdb -> 0 <= depth < UP_TO_PDE3 -> 0 <= num -> range_ok base size page_size ->
  pushes false (fun push => uvm_hal_pascal_host_tlb_invalidate_va num push pdb depth base size
                  page_size membar) (size / page_size + num + 1)
    (sweeps pdb (UP_TO_PDE3 - depth) base size page_size num membar).
Proof.
  intros Hpdb Hd Hnum Hr. unfold uvm_hal_pascal_host_tlb_invalidate_va.
  destruct (tlb_words_cd_spec UP_TO_PDE3 pdb depth membar OPERATION_MMU_TLB_INVALIDATE_TARGETED)
    as (wc & wd & -> & Hcd); [done..|]. rewrite va_range_asserts_ok by done. cbn [mbind option_bind].
  destruct (range_4k _ _ _ Hr) as (Hb4 & Hs4 & Hd4).
  destruct Hr as [(p & Hp & Hps) [Hb0 Hb] [Hs0 Hs] Hend].
  assert (Hpos : 0 < page_size) by (subst; apply Z.pow_pos_nonneg; lia).
  assert (Hn0 : page_size <> 0) by lia.
  apply Z.mod_divide in Hb as [nb ->], Hs as [ns ->]; [|done..].
  destruct Hd4 as [q Hq]. rewrite Hq in *.
  assert (Hsh : forall x, Z.shiftr (x * (q * 4096)) 12 = x * q).
  { intros x. rewrite Z.shiftr_div_pow2 by lia. change (2 ^ 12) with 4096.
    replace (x * (q * 4096)) with (x * q * 4096) by lia. apply Z.div_mul. lia. }
  rewrite !Hsh. replace (Z.shiftr (q * 4096) 12) with q.
  2:{ rewrite Z.shiftr_div_pow2 by lia. symmetry. apply (Z.div_mul q 4096). lia. }
  assert (Hns : 0 < ns) by nia. assert (Hnb : 0 <= nb) by nia. assert (Hqp : 0 < q) by lia.
  assert (Hcap : (nb + ns) * q <= 2 ^ 52) by nia.
  rewrite u64_small by (unfold is_u64; nia). rewrite Z.div_mul by done.
  replace (ns + num + 1) with (Z.of_nat (Z.to_nat ns) + (num + 1)) by lia.
  eapply pushes_bind; [lia|lia|apply (pascal_va_loop_pushes _ _ _ _ _ _ _ _ _ _ Hcd); nia
    |by apply tlb_invalidate_membar_pushes|].
  intros a b [Ha1 Ha2] ->. exists a. split; [done|]. split; [done|].
  intros x Hx [i ->]. specialize (Ha2 (i - nb) ltac:(nia)).
  by replace ((nb * q + (i - nb) * q) * 4096) with (i * (q * 4096)) in Ha2 by lia.
Qed.
