(* ===== verification/UvmTlbBatch.v ===== *)
(** Batches of TLB invalidates (uvm_tlb_batch.c, uvm_tlb_batch.h), on top of
    the host methods: every translation of every queued range is dropped, and
    the widest membar asked for follows the last invalidate. *)

From S2P Require Import Prelude UvmBits UvmCommon UvmMmuHal UvmMmuHalCorrect UvmPush UvmHostTlb.
Local Open Scope Z_scope.

Definition UVM_TLB_BATCH_MAX_ENTRIES : Z := 4.

Record uvm_tlb_batch_range_t := TlbRange {
  tr_start : Z;
  tr_size : Z;
  tr_page_sizes : Z;
}.

(** The [tlb_batch] properties of the parent GPU; [max_pages] and [max_ranges]
    share a union. *)
Record tlb_batch_props := TlbProps {
  va_invalidate_supported : bool;
  va_range_invalidate_supported : bool;
  max_pages_or_ranges : Z;
}.

(** uvm_pascal.c, and uvm_volta.c, uvm_turing.c, uvm_ampere.c, uvm_hopper.c. *)
Definition tlb_props_pascal : tlb_batch_props := TlbProps true false 32.
Definition tlb_props_volta : tlb_batch_props := TlbProps true true 8.
Definition tlb_props_turing : tlb_batch_props := TlbProps true true 8.
Definition tlb_props_ampere : tlb_batch_props := TlbProps true true 8.
Definition tlb_props_hopper : tlb_batch_props := TlbProps true true 8.

(** What the batch uses of the page tree and its GPU: the page directory, the
    depth of the PTEs of a page size, the properties, the host methods. *)
Record tlb_tree := TlbTree {
  tree_pdb : uvm_gpu_phys_address_t;
  tree_page_table_depth : Z -> Z;
  tree_props : tlb_batch_props;
  host_tlb_invalidate_all : uvm_push_t -> uvm_gpu_phys_address_t -> Z -> uvm_membar_t -> option uvm_push_t;
  host_tlb_invalidate_va : uvm_push_t -> uvm_gpu_phys_address_t -> Z -> Z -> Z -> Z -> uvm_membar_t ->
    option uvm_push_t;
}.

(** [total] is the union of [total_pages] and [total_ranges]. *)
Record uvm_tlb_batch_t := TlbBatch {
  tb_tree : tlb_tree;
  tb_total : Z;
  tb_ranges : list uvm_tlb_batch_range_t;
  tb_count : Z;
  tb_biggest_page_size : Z;
  tb_membar : uvm_membar_t;
}.

Definition uvm_tlb_batch_begin (tree : tlb_tree) : uvm_tlb_batch_t :=
  TlbBatch tree 0 (replicate (Z.to_nat UVM_TLB_BATCH_MAX_ENTRIES) (TlbRange 0 0 0)) 0 0 UVM_MEMBAR_NONE.

(** Lowest and highest set bit of a nonzero word. *)
Fixpoint pos_ffs (p : positive) : Z :=
  match p with xO p' => 1 + pos_ffs p' | _ => 0 end.
Definition __ffs (x : Z) : Z := match x with Z.pos p => pos_ffs p | _ => 0 end.
Definition __fls (x : Z) : Z := Z.log2 x.

Definition smallest_page_size (page_sizes : Z) : option Z :=
  UVM_ASSERT (negb (page_sizes =? 0)) ;; Some (u32 (Z.shiftl 1 (__ffs page_sizes))).

Definition biggest_page_size (page_sizes : Z) : option Z :=
  UVM_ASSERT (negb (page_sizes =? 0)) ;; Some (u32 (Z.shiftl 1 (__fls page_sizes))).

(** The body of the loop over the queued ranges. *)
Definition flush_entry (batch : uvm_tlb_batch_t) (i : Z) (push : uvm_push_t) : option uvm_push_t :=
  let tree := tb_tree batch in
  entry ← nthZ (tb_ranges batch) i;
  min_page_size ← smallest_page_size (tr_page_sizes entry);
  max_page_size ← biggest_page_size (tr_page_sizes entry);
  let depth := tree_page_table_depth tree max_page_size in
  let membar := if i =? u32 (tb_count batch - 1) then tb_membar batch else UVM_MEMBAR_NONE in
  host_tlb_invalidate_va tree push (tree_pdb tree) depth (tr_start entry) (tr_size entry)
    min_page_size membar.

Fixpoint flush_entries (batch : uvm_tlb_batch_t) (idxs : list Z) (push : uvm_push_t)
  : option uvm_push_t :=
  match idxs with
  | [] => Some push
  | i :: idxs' => push ← flush_entry batch i push; flush_entries batch idxs' push
  end.

Definition tlb_batch_flush_invalidate_per_va (batch : uvm_tlb_batch_t) (push : uvm_push_t)
  : option uvm_push_t := flush_entries batch (up 0 (tb_count batch)) push.

Definition tlb_batch_flush_invalidate_all (batch : uvm_tlb_batch_t) (push : uvm_push_t)
  : option uvm_push_t :=
  let tree := tb_tree batch in
  let page_table_depth := tree_page_table_depth tree (tb_biggest_page_size batch) in
  host_tlb_invalidate_all tree push (tree_pdb tree) page_table_depth (tb_membar batch).

Definition tlb_batch_should_invalidate_all (batch : uvm_tlb_batch_t) : bool :=
  let props := tree_props (tb_tree batch) in
  if negb (va_invalidate_supported props) then true
  else if UVM_TLB_BATCH_MAX_ENTRIES <? tb_count batch then true
  else max_pages_or_ranges props <? tb_total batch.

Definition uvm_tlb_batch_end (batch : uvm_tlb_batch_t) (tlb_membar : uvm_membar_t)
    (push : uvm_push_t) : option uvm_push_t :=
  if tb_count batch =? 0 then Some push
  else
    let batch := TlbBatch (tb_tree batch) (tb_total batch) (tb_ranges batch) (tb_count batch)
                   (tb_biggest_page_size batch) (uvm_membar_max tlb_membar (tb_membar batch)) in
    if tlb_batch_should_invalidate_all batch then tlb_batch_flush_invalidate_all batch push
    else tlb_batch_flush_invalidate_per_va batch push.

Definition uvm_tlb_batch_invalidate (batch : uvm_tlb_batch_t) (start size page_sizes : Z)
    (tlb_membar : uvm_membar_t) : option uvm_tlb_batch_t :=
  let props := tree_props (tb_tree batch) in
  let membar := uvm_membar_max tlb_membar (tb_membar batch) in
  let count := u32 (tb_count batch + 1) in
  total ← (if va_range_invalidate_supported props then Some (u32 (tb_total batch + 1))
           else smallest ← smallest_page_size page_sizes;
                pages ← uvm_div_pow2_64 size smallest;
                Some (u32 (tb_total batch + pages)));
  biggest ← biggest_page_size page_sizes;
  let biggest_page_size := Z.max (tb_biggest_page_size batch) biggest in
  let batch := TlbBatch (tb_tree batch) total (tb_ranges batch) count biggest_page_size membar in
  if tlb_batch_should_invalidate_all batch then Some batch
  else
    nthZ (tb_ranges batch) (count - 1) ≫= fun _ =>
    Some (TlbBatch (tb_tree batch) total
            (setZ (tb_ranges batch) (count - 1) (TlbRange start size page_sizes))
            count biggest_page_size membar).

Definition uvm_tlb_batch_single_invalidate (tree : tlb_tree) (push : uvm_push_t)
    (start size page_sizes : Z) (tlb_membar : uvm_membar_t) : option uvm_push_t :=
  batch ← uvm_tlb_batch_invalidate (uvm_tlb_batch_begin tree) start size page_sizes UVM_MEMBAR_NONE;
  uvm_tlb_batch_end batch tlb_membar push.

(** ** What the batch needs of the host methods *)

(** The interface: the directory is a valid one, deeper PTEs belong to smaller
    pages, and the two methods sweep the ranges they are given.  [sizes] is the
    mask of supported page sizes. *)
Class TlbHost (tree : tlb_tree) (ranged : bool) (top num sizes : Z) : Prop := {
  th_num : 0 <= num;
  th_max : 0 <= max_pages_or_ranges (tree_props tree) < 2 ^ 32;
  th_sizes : forall k, 0 <= k -> Z.testbit sizes k = true -> 12 <= k < 32;
  th_depth : forall k, 0 <= k -> Z.testbit sizes k = true ->
    0 <= tree_page_table_depth tree (2 ^ k) < top;
  th_antitone : forall j k, 0 <= j <= k -> Z.testbit sizes j = true -> Z.testbit sizes k = true ->
    tree_page_table_depth tree (2 ^ k) <= tree_page_table_depth tree (2 ^ j);
  th_all : forall depth membar base size page_size, 0 <= depth < top ->
    pushes ranged (fun push => host_tlb_invalidate_all tree push (tree_pdb tree) depth membar) (num + 2)
      (sweeps (tree_pdb tree) (top - depth) base size page_size num membar);
  th_va : forall depth membar base size page_size, 0 <= depth < top -> range_ok base size page_size ->
    pushes ranged (fun push => host_tlb_invalidate_va tree push (tree_pdb tree) depth base size
                     page_size membar)
      ((if va_range_invalidate_supported (tree_props tree) then 1 else size / page_size) + num + 1)
      (sweeps (tree_pdb tree) (top - depth) base size page_size num membar);
}.

(** ** Bit masks of page sizes *)

Lemma pos_ffs_spec p :
  0 <= pos_ffs p /\ Z.testbit (Z.pos p) (pos_ffs p) = true /\
  forall j, 0 <= j < pos_ffs p -> Z.testbit (Z.pos p) j = false.
Proof.
  induction p as [p _|p (H0 & H1 & H2)|]; cbn [pos_ffs].
  - split; [lia|]. split; [done|lia].
  - split; [lia|]. change (Z.pos p~0) with (2 * Z.pos p). split.
    + replace (1 + pos_ffs p) with (Z.succ (pos_ffs p)) by lia. by rewrite Z.testbit_even_succ.
    + intros j Hj. destruct (decide (j = 0)) as [->|]; [by rewrite Z.testbit_even_0|].
      replace j with (Z.succ (j - 1)) by lia. rewrite Z.testbit_even_succ by lia. apply H2. lia.
  - split; [lia|]. split; [done|lia].
Qed.

Lemma smallest_spec m :
  0 < m < 2 ^ 32 -> exists k, smallest_page_size m = Some (2 ^ k) /\ 0 <= k < 32 /\
    Z.testbit m k = true /\ forall j, 0 <= j -> Z.testbit m j = true -> k <= j.
Proof.
  intros Hm. destruct m as [|p|p]; [lia| |lia]. destruct (pos_ffs_spec p) as (H0 & H1 & H2).
  assert (Hlt : pos_ffs p < 32).
  { destruct (Z.le_gt_cases 32 (pos_ffs p)) as [Hge|]; [|done].
    rewrite Z.bits_above_log2 in H1; [done|done|]. pose proof (proj1 (Z.log2_lt_pow2 (Z.pos p) 32 ltac:(lia))). lia. }
  exists (pos_ffs p). unfold smallest_page_size. cbn -[u32].
  rewrite Z.shiftl_mul_pow2, Z.mul_1_l, u32_small.
  - split; [done|]. split; [done|]. split; [done|]. intros j Hj Ht.
    destruct (Z.le_gt_cases (pos_ffs p) j); [done|]. by rewrite H2 in Ht by lia.
  - split; [lia|]. apply Z.pow_lt_mono_r; lia.
  - done.
Qed.

Lemma biggest_spec m :
  0 < m < 2 ^ 32 -> exists k, biggest_page_size m = Some (2 ^ k) /\ 0 <= k < 32 /\
    Z.testbit m k = true /\ forall j, 0 <= j -> Z.testbit m j = true -> j <= k.
Proof.
  intros Hm. pose proof (proj1 (Z.log2_lt_pow2 m 32 ltac:(lia))). pose proof (Z.log2_nonneg m).
  exists (Z.log2 m). unfold biggest_page_size, __fls.
  rewrite (proj2 (Z.eqb_neq m 0)) by lia. cbn -[u32 Z.shiftl].
  rewrite Z.shiftl_mul_pow2, Z.mul_1_l, u32_small by (done || (split; [lia|]; apply Z.pow_lt_mono_r; lia)).
  split; [done|]. split; [lia|]. split; [apply Z.bit_log2; lia|]. intros j Hj Ht.
  destruct (Z.le_gt_cases j (Z.log2 m)); [done|]. by rewrite Z.bits_above_log2 in Ht by lia.
Qed.

(** ** Requests *)

Record request := Request {
  rq_start : Z;
  rq_size : Z;
  rq_page_sizes : Z;
  rq_membar : uvm_membar_t;
}.

(** A nonempty set of supported page sizes, and a nonempty range aligned to the
    smallest of them. *)
Definition request_ok (sizes : Z) (r : request) : Prop :=
  0 < rq_page_sizes r < 2 ^ 32 /\
  (forall k, 0 <= k -> Z.testbit (rq_page_sizes r) k = true -> Z.testbit sizes k = true) /\
  exists s, smallest_page_size (rq_page_sizes r) = Some s /\
    range_ok (rq_start r) (rq_size r) s.

(** Pages of the request, counted in its smallest page size. *)
Definition rq_pages (r : request) : Z :=
  rq_size r / default 1 (smallest_page_size (rq_page_sizes r)).

Fixpoint queue (batch : uvm_tlb_batch_t) (rs : list request) : option uvm_tlb_batch_t :=
  match rs with
  | [] => Some batch
  | r :: rs' =>
      batch ← uvm_tlb_batch_invalidate batch (rq_start r) (rq_size r) (rq_page_sizes r) (rq_membar r);
      queue batch rs'
  end.

(** A translation of the page [va, va + 2 ^ k) held at depth [level] of the
    tables of [pdb] is dropped by [op]. *)
Definition drops (pdb : uvm_gpu_phys_address_t) (va k level : Z) (op : host_op) : Prop :=
  exists level' ack, invalidates pdb level' ack op /\ level <= level' /\
    exists a, va <= a < va + 2 ^ k /\ reaches a op.

(** Every cached translation of every page, of any size of the request, that
    meets the range of the request. *)
Definition dropped (tree : tlb_tree) (top : Z) (r : request) (ops : list host_op) : Prop :=
  forall va k, 0 <= k -> Z.testbit (rq_page_sizes r) k = true -> (2 ^ k | va) ->
    va < rq_start r + rq_size r -> rq_start r < va + 2 ^ k ->
    Exists (drops (tree_pdb tree) va k (top - tree_page_table_depth tree (2 ^ k))) ops.

Definition membar_of (rs : list request) (m : uvm_membar_t) : uvm_membar_t :=
  foldl (fun acc r => uvm_membar_max (rq_membar r) acc) m rs.

(** The pushed operations: invalidates that drop every requested translation,
    then the widest membar; nothing when nothing was queued. *)
Definition batch_result (tree : tlb_tree) (top num : Z) (rs : list request) (tlb_membar : uvm_membar_t)
    (ops : list host_op) : Prop :=
  exists invs,
    ops = invs ++ (if decide (rs = []) then []
                   else membar_ops num (uvm_membar_max tlb_membar (membar_of rs UVM_MEMBAR_NONE))) /\
    Forall (fun op => exists level ack, invalidates (tree_pdb tree) level ack op) invs /\
    Forall (fun r => dropped tree top r invs) rs.

Definition pages_sum (rs : list request) : Z := foldr (fun r acc => rq_pages r + acc) 0 rs.

Section batch.
Context (tree : tlb_tree) (ranged : bool) (top num sizes : Z) `{!TlbHost tree ranged top num sizes}.

Lemma rq_pages_pos r : request_ok sizes r -> 1 <= rq_pages r.
Proof.
  intros (_ & _ & s & Hs & [(p & Hp & ->) _ [H0 Hm] _]). unfold rq_pages. rewrite Hs. cbn [default from_option id].
  assert (0 < 2 ^ p) by (apply Z.pow_pos_nonneg; lia).
  apply Z.mod_divide in Hm as [q Hq]; [|lia]. rewrite Hq, Z.div_mul by lia. nia.
Qed.

Lemma pages_sum_app rs rs' : pages_sum (rs ++ rs') = pages_sum rs + pages_sum rs'.
Proof. induction rs as [|r rs IH]; [done|]. cbn. unfold pages_sum in *. lia. Qed.

Lemma pages_sum_length rs : Forall (request_ok sizes) rs -> Z.of_nat (length rs) <= pages_sum rs.
Proof.
  induction 1 as [|r rs Hr _ IH]; [done|]. cbn [length pages_sum foldr].
  pose proof (rq_pages_pos r Hr). unfold pages_sum in IH. lia.
Qed.

(** The depth of a supported page size bounds the depths of smaller ones. *)
Lemma mask_depth m s b :
  0 < m < 2 ^ 32 -> (forall k, 0 <= k -> Z.testbit m k = true -> Z.testbit sizes k = true) ->
  smallest_page_size m = Some s -> biggest_page_size m = Some b ->
  0 <= tree_page_table_depth tree b < top /\ 0 < s /\
  forall k, 0 <= k -> Z.testbit m k = true ->
    tree_page_table_depth tree b <= tree_page_table_depth tree (2 ^ k) /\ (s | 2 ^ k) /\ 2 ^ k <= b.
Proof.
  intros Hm Hsub Es Eb. destruct (smallest_spec m Hm) as (ks & Es' & Hks & Hts & Hmin).
  destruct (biggest_spec m Hm) as (kb & Eb' & Hkb & Htb & Hmax).
  assert (s = 2 ^ ks) as -> by congruence. assert (b = 2 ^ kb) as -> by congruence.
  split; [apply th_depth; [lia|apply Hsub; [lia|done]]|]. split; [apply Z.pow_pos_nonneg; lia|].
  intros k Hk Ht. pose proof (Hmin k Hk Ht). pose proof (Hmax k Hk Ht). split; [|split].
  - apply th_antitone; [lia|apply Hsub; [lia|done]|apply Hsub; [lia|done]].
  - exists (2 ^ (k - ks)). rewrite <- Z.pow_add_r by lia. f_equal. lia.
  - apply Z.pow_le_mono_r; lia.
Qed.

(** A sweep of the range of a request, from the depth of its largest page size,
    drops what the request asks for. *)
Lemma sweep_drops r s b invs level ack :
  request_ok sizes r -> smallest_page_size (rq_page_sizes r) = Some s ->
  biggest_page_size (rq_page_sizes r) = Some b ->
  top - tree_page_table_depth tree b <= level ->
  Forall (invalidates (tree_pdb tree) level ack) invs ->
  (forall a, rq_start r <= a < rq_start r + rq_size r -> (s | a) -> Exists (reaches a) invs) ->
  dropped tree top r invs.
Proof.
  intros (Hm & Hsub & s' & Es & Hr) Es' Eb Hlevel Hinv Hreach va k Hk Hbit Hal Hlt Hgt.
  assert (s' = s) as -> by congruence.
  destruct (mask_depth _ _ _ Hm Hsub Es' Eb) as (_ & Hs0 & Hk'). destruct (Hk' k Hk Hbit) as (Hd & Hdiv & _).
  destruct Hr as [(p & Hp & Hps) [Hb0 Hb] [Hz0 Hz] _].
  assert (Hbd : (s | rq_start r)) by (apply Z.mod_divide; [lia|done]).
  assert (0 < 2 ^ k) by (apply Z.pow_pos_nonneg; lia).
  assert (Hmax : (s | Z.max va (rq_start r))).
  { destruct (Z.max_spec va (rq_start r)) as [[_ ->]|[_ ->]]; [done|by apply (Z.divide_trans _ (2 ^ k))]. }
  specialize (Hreach (Z.max va (rq_start r)) ltac:(lia) Hmax).
  apply Exists_exists in Hreach as (op & Hin & Hrc). apply Exists_exists. exists op. split; [done|].
  rewrite Forall_forall in Hinv. exists level, ack.
  split; [by apply Hinv|]. split; [lia|]. exists (Z.max va (rq_start r)). split; [lia|done].
Qed.

(** The value of the counter of pages or ranges. *)
Definition total_of (rs : list request) : Z :=
  if va_range_invalidate_supported (tree_props tree) then Z.of_nat (length rs) else pages_sum rs.

(** The state after the requests [rs]. *)
Record queued (rs : list request) (b : uvm_tlb_batch_t) : Prop := {
  q_tree : tb_tree b = tree;
  q_len : Z.of_nat (length (tb_ranges b)) = UVM_TLB_BATCH_MAX_ENTRIES;
  q_count : tb_count b = Z.of_nat (length rs);
  q_total : tb_total b = total_of rs;
  q_biggest : 0 <= tb_biggest_page_size b /\
    (rs <> [] -> exists r, r ∈ rs /\
       biggest_page_size (rq_page_sizes r) = Some (tb_biggest_page_size b)) /\
    forall r x, r ∈ rs -> biggest_page_size (rq_page_sizes r) = Some x -> x <= tb_biggest_page_size b;
  q_membar : tb_membar b = membar_of rs UVM_MEMBAR_NONE;
  q_ranges : tlb_batch_should_invalidate_all b = false ->
    forall i r, rs !! i = Some r -> nthZ (tb_ranges b) (Z.of_nat i) =
      Some (TlbRange (rq_start r) (rq_size r) (rq_page_sizes r));
}.

Lemma queued_begin : queued [] (uvm_tlb_batch_begin tree).
Proof.
  split; try done; cbn; [unfold total_of; by destruct (va_range_invalidate_supported _)|].
  split; [lia|]. split; [done|set_solver].
Qed.

(** Adding a request never leaves the "invalidate all" state. *)
Lemma should_all_mono b total count biggest ranges membar :
  tb_total b <= total -> tb_count b <= count ->
  tlb_batch_should_invalidate_all (TlbBatch (tb_tree b) total ranges count biggest membar) = false ->
  tlb_batch_should_invalidate_all b = false /\ count <= UVM_TLB_BATCH_MAX_ENTRIES.
Proof.
  unfold tlb_batch_should_invalidate_all. cbn [tb_tree tb_count tb_total]. intros Ht Hc.
  destruct (negb _); [done|]. destruct (Z.ltb_spec UVM_TLB_BATCH_MAX_ENTRIES count); [done|].
  destruct (Z.ltb_spec UVM_TLB_BATCH_MAX_ENTRIES (tb_count b)); [lia|].
  intros H'. zify_bool. split; [apply Z.ltb_ge|]; lia.
Qed.

Lemma biggest_extend rs r bg big :
  (0 <= bg /\
    (rs <> [] -> exists r, r ∈ rs /\ biggest_page_size (rq_page_sizes r) = Some bg) /\
    forall r x, r ∈ rs -> biggest_page_size (rq_page_sizes r) = Some x -> x <= bg) ->
  (rs = [] -> bg = 0) -> biggest_page_size (rq_page_sizes r) = Some big -> 0 < big ->
  0 <= Z.max bg big /\
    (rs ++ [r] <> [] -> exists r', r' ∈ rs ++ [r] /\
       biggest_page_size (rq_page_sizes r') = Some (Z.max bg big)) /\
    forall r' x, r' ∈ rs ++ [r] -> biggest_page_size (rq_page_sizes r') = Some x -> x <= Z.max bg big.
Proof.
  intros (H0 & Hex & Hall) Hnil Hb Hpos. split; [lia|]. split.
  - intros _. destruct (Z.max_spec bg big) as [[_ ->]|[Hge ->]].
    + exists r. split; [set_solver|done].
    + destruct rs as [|r0 rs]; [specialize (Hnil eq_refl); lia|].
      destruct (Hex ltac:(done)) as (r' & Hin & Hr'). exists r'. split; [set_solver|done].
  - intros r' x [Hin|Hin]%elem_of_app Hx.
    + specialize (Hall r' x Hin Hx). lia.
    + apply list_elem_of_singleton in Hin as ->. assert (x = big) by congruence. lia.
Qed.

(** The counter does not wrap. *)
Lemma queue_total rs b r :
  queued rs b -> Forall (request_ok sizes) rs -> request_ok sizes r -> pages_sum (rs ++ [r]) < 2 ^ 32 ->
  (if va_range_invalidate_supported (tree_props (tb_tree b)) then Some (u32 (tb_total b + 1))
   else smallest ← smallest_page_size (rq_page_sizes r);
        pages ← uvm_div_pow2_64 (rq_size r) smallest; Some (u32 (tb_total b + pages)))
  = Some (total_of (rs ++ [r])) /\ tb_total b <= total_of (rs ++ [r]) /\
  Z.of_nat (length (rs ++ [r])) < 2 ^ 32.
Proof.
  intros Hq Hrs Hr Hsum. pose proof (pages_sum_length rs Hrs). pose proof (rq_pages_pos r Hr).
  rewrite (q_tree _ _ Hq), (q_total _ _ Hq). unfold total_of.
  rewrite pages_sum_app, length_app in *. cbn [pages_sum foldr length] in *.
  destruct Hr as (_ & _ & s & Es & [(p & Hp12 & ->) _ _ _]).
  destruct (va_range_invalidate_supported _).
  - rewrite u32_small by (unfold is_u32; lia). split; [f_equal|]; lia.
  - assert (Hp : rq_pages r = rq_size r / 2 ^ p) by (unfold rq_pages; by rewrite Es).
    rewrite Es. cbn [mbind option_bind]. rewrite uvm_div_pow2_64_spec, <- Hp by lia.
    cbn [mbind option_bind]. rewrite u32_small by (unfold is_u32; lia). split; [f_equal|]; lia.
Qed.

Lemma queue_step rs b r :
  queued rs b -> (rs = [] -> tb_biggest_page_size b = 0) ->
  Forall (request_ok sizes) rs -> request_ok sizes r -> pages_sum (rs ++ [r]) < 2 ^ 32 ->
  exists b', uvm_tlb_batch_invalidate b (rq_start r) (rq_size r) (rq_page_sizes r) (rq_membar r)
      = Some b' /\ queued (rs ++ [r]) b'.
Proof.
  intros Hq Hnil Hrs Hr Hsum. pose proof Hr as (Hm & Hsub & s & Es & Hrange).
  destruct (biggest_spec _ Hm) as (kb & Eb & Hkb & _).
  assert (Hbpos : 0 < 2 ^ kb) by (apply Z.pow_pos_nonneg; lia).
  assert (Hcnt : tb_count b + 1 = Z.of_nat (length (rs ++ [r]))).
  { rewrite (q_count _ _ Hq), length_app. cbn. lia. }
  destruct (queue_total rs b r Hq Hrs Hr Hsum) as (Htotal & Hmono & Hlt).
  assert (Hcount : u32 (tb_count b + 1) = Z.of_nat (length (rs ++ [r]))).
  { rewrite u32_small by (unfold is_u32; lia). done. }
  pose proof (biggest_extend rs r _ _ (q_biggest _ _ Hq) Hnil Eb Hbpos) as Hbig.
  assert (Hmb : uvm_membar_max (rq_membar r) (tb_membar b) = membar_of (rs ++ [r]) UVM_MEMBAR_NONE).
  { unfold membar_of. rewrite foldl_app. cbn. by rewrite (q_membar _ _ Hq). }
  unfold uvm_tlb_batch_invalidate. rewrite Htotal, Eb, Hmb, Hcount. cbn [mbind option_bind].
  match goal with |- context [if ?c then _ else _] => destruct c eqn:Hall end.
  { eexists. split; [done|]. split; cbn; try done; [apply Hq|apply Hq|]. congruence. }
  apply should_all_mono in Hall as Hall'; [|done|lia]. destruct Hall' as [Hprev Hmax].
  cbn [tb_ranges].
  destruct (nthZ_is_Some (tb_ranges b) (Z.of_nat (length (rs ++ [r])) - 1)) as [old ->].
  { rewrite (q_len _ _ Hq). pose proof (q_count _ _ Hq). lia. }
  eexists. split; [done|]. split; cbn [tb_tree tb_ranges tb_count tb_total tb_biggest_page_size tb_membar];
    try done; [apply Hq|rewrite length_setZ; apply Hq|].
  intros _ i r' Hi. destruct (decide (i = length rs)) as [->|Hne].
  - rewrite lookup_app_r, Nat.sub_diag in Hi by lia. injection Hi as <-.
    rewrite length_app. cbn [length]. replace (Z.of_nat (length rs + 1) - 1) with (Z.of_nat (length rs)) by lia.
    apply nthZ_setZ_eq. rewrite (q_len _ _ Hq). rewrite length_app in Hmax. cbn in Hmax. lia.
  - assert (i < length rs)%nat.
    { apply lookup_lt_Some in Hi. rewrite length_app in Hi. cbn in Hi. lia. }
    rewrite nthZ_setZ_ne by (rewrite length_app; cbn; lia). rewrite lookup_app_l in Hi by done.
    by apply (q_ranges _ _ Hq Hprev).
Qed.

Lemma queue_all rs rs' b :
  queued rs b -> (rs = [] -> tb_biggest_page_size b = 0) ->
  Forall (request_ok sizes) (rs ++ rs') -> pages_sum (rs ++ rs') < 2 ^ 32 ->
  exists b', queue b rs' = Some b' /\ queued (rs ++ rs') b'.
Proof.
  revert rs b. induction rs' as [|r rs' IH]; intros rs b Hq Hnil Hok Hsum.
  { exists b. by rewrite app_nil_r. }
  replace (rs ++ r :: rs') with ((rs ++ [r]) ++ rs') in * by by rewrite <- app_assoc.
  pose proof Hok as [[Hrs Hr]%Forall_app Hrs']%Forall_app. apply (proj1 (Forall_singleton _ _)) in Hr.
  rewrite pages_sum_app in Hsum. pose proof (pages_sum_length rs' Hrs').
  destruct (queue_step rs b r Hq Hnil Hrs Hr ltac:(lia)) as (b1 & E & Hq1). cbn [queue]. rewrite E.
  apply IH; [done|by destruct rs|done|rewrite pages_sum_app; lia].
Qed.

(** Room for the groups of the ranges [rs], in invalidates and membars. *)
Definition flush_cost (rs : list request) : Z := total_of rs + Z.of_nat (length rs) * (num + 1).

Lemma total_of_cons r rs :
  total_of (r :: rs) =
  (if va_range_invalidate_supported (tree_props tree) then 1 else rq_pages r) + total_of rs.
Proof. unfold total_of. change (pages_sum (r :: rs)) with (rq_pages r + pages_sum rs). cbn [length]. destruct (va_range_invalidate_supported _); lia. Qed.

Lemma flush_entry_pushes b i r :
  tb_tree b = tree -> request_ok sizes r ->
  nthZ (tb_ranges b) i = Some (TlbRange (rq_start r) (rq_size r) (rq_page_sizes r)) ->
  pushes ranged (flush_entry b i)
    ((if va_range_invalidate_supported (tree_props tree) then 1 else rq_pages r) + num + 1)
    (fun new => exists invs,
       new = invs ++ membar_ops num (if i =? u32 (tb_count b - 1) then tb_membar b else UVM_MEMBAR_NONE) /\
       Forall (fun op => exists level ack, invalidates (tree_pdb tree) level ack op) invs /\
       dropped tree top r invs).
Proof.
  intros Ht Hr Hn. pose proof Hr as (Hm & Hsub & s & Es & Hrange).
  destruct (biggest_spec _ Hm) as (kb & Eb & _). destruct (mask_depth _ _ _ Hm Hsub Es Eb) as (Hd & _).
  unfold flush_entry, rq_pages. rewrite Hn, Ht. cbn [mbind option_bind tr_page_sizes tr_start tr_size].
  rewrite Es, Eb. cbn [mbind option_bind default from_option id].
  eapply pushes_mono; [apply th_va; [exact Hd|exact Hrange]|lia|].
  intros new (invs & -> & Hinv & Hreach). exists invs. split; [done|]. split.
  - eapply Forall_impl; [exact Hinv|]. intros op Hop. eauto.
  - eapply (sweep_drops r s (2 ^ kb)); eauto. lia.
Qed.

Lemma dropped_app r ops ops' :
  dropped tree top r ops \/ dropped tree top r ops' -> dropped tree top r (ops ++ ops').
Proof.
  intros H va k Hk Ht Hal Hlt Hgt. apply Exists_app.
  destruct H as [H|H]; [left|right]; by apply H.
Qed.

(** Operations that flush the ranges [rs] and then run the membar. *)
Definition flushed (m : uvm_membar_t) (rs : list request) (new : list host_op) : Prop :=
  exists invs, new = invs ++ (if decide (rs = []) then [] else membar_ops num m) /\
    (rs = [] -> invs = []) /\
    Forall (fun op => exists level ack, invalidates (tree_pdb tree) level ack op) invs /\
    Forall (fun r => dropped tree top r invs) rs.

Lemma flushed_cons m r rs ia b :
  Forall (fun op => exists level ack, invalidates (tree_pdb tree) level ack op) ia ->
  dropped tree top r ia -> flushed m rs b ->
  flushed m (r :: rs)
    ((ia ++ membar_ops num (if decide (rs = []) then m else UVM_MEMBAR_NONE)) ++ b).
Proof.
  intros Ha Hr (ib & -> & Hnil & Hb & Hrs). destruct (decide (rs = [])) as [->|Hne].
  - rewrite (Hnil eq_refl). cbn [app]. exists ia. rewrite app_nil_r.
    split; [done|]. split; [done|]. split; [done|]. by constructor.
  - change (membar_ops num UVM_MEMBAR_NONE) with (@nil host_op). rewrite app_nil_r.
    exists (ia ++ ib). rewrite <- app_assoc. split; [done|]. split; [done|].
    split; [by apply Forall_app|]. constructor; [apply dropped_app; by left|].
    eapply Forall_impl; [exact Hrs|]. intros r' Hr'. apply dropped_app. by right.
Qed.

Lemma flush_cost_nonneg rs : Forall (request_ok sizes) rs -> 0 <= flush_cost rs.
Proof.
  intros Hrs. pose proof (pages_sum_length rs Hrs). pose proof (th_num (TlbHost := TlbHost0)).
  unfold flush_cost, total_of. destruct (va_range_invalidate_supported _); nia.
Qed.

Lemma flush_entries_pushes b rs pre suf :
  tb_tree b = tree -> tb_count b = Z.of_nat (length rs) -> Z.of_nat (length rs) < 2 ^ 32 ->
  Forall (request_ok sizes) rs ->
  (forall i r, rs !! i = Some r -> nthZ (tb_ranges b) (Z.of_nat i) =
      Some (TlbRange (rq_start r) (rq_size r) (rq_page_sizes r))) ->
  rs = pre ++ suf ->
  pushes ranged (flush_entries b (up (Z.of_nat (length pre)) (Z.of_nat (length rs)))) (flush_cost suf)
    (flushed (tb_membar b) suf).
Proof.
  intros Ht Hc Hlt Hok Hent. revert pre. induction suf as [|r suf IH]; intros pre Hrs.
  { rewrite Hrs, app_nil_r. unfold up. rewrite Z.sub_diag. cbn [seqZ flush_entries].
    apply (pushes_mono _ _ 0 _ (fun new => new = [])); [by apply pushes_ret|by apply flush_cost_nonneg|].
    intros a ->. by exists []. }
  assert (Hin : rs !! length pre = Some r) by (rewrite Hrs, lookup_app_r, Nat.sub_diag by lia; done).
  assert (Hlen : Z.of_nat (length rs) = Z.of_nat (length pre) + 1 + Z.of_nat (length suf)).
  { rewrite Hrs, length_app. cbn [length]. lia. }
  assert (Hpre : Z.of_nat (length (pre ++ [r])) = Z.of_nat (length pre) + 1) by (rewrite length_app; cbn; lia).
  assert (Hup : up (Z.of_nat (length pre)) (Z.of_nat (length rs)) =
    Z.of_nat (length pre) :: up (Z.of_nat (length (pre ++ [r]))) (Z.of_nat (length rs))).
  { unfold up. rewrite seqZ_cons by lia. f_equal. f_equal; lia. }
  rewrite Hup. cbn [flush_entries].
  pose proof (proj1 (Forall_lookup _ _) Hok _ _ Hin) as Hr. pose proof (rq_pages_pos r Hr) as Hpages.
  pose proof (th_num (TlbHost := TlbHost0)) as Hnum.
  assert (Hsuf : Forall (request_ok sizes) suf).
  { rewrite Hrs in Hok. by apply Forall_app in Hok as [_ [_ ?]%Forall_cons]. }
  replace (flush_cost (r :: suf)) with
    ((if va_range_invalidate_supported (tree_props tree) then 1 else rq_pages r) + num + 1 + flush_cost suf).
  2:{ unfold flush_cost. rewrite total_of_cons. cbn [length]. lia. }
  eapply pushes_bind;
    [destruct (va_range_invalidate_supported _); lia|by apply flush_cost_nonneg
    |apply (flush_entry_pushes b _ r Ht Hr (Hent _ _ Hin))|apply (IH (pre ++ [r])); by rewrite <- app_assoc|].
  intros a b0 (ia & -> & Ha1 & Ha2) Hb. rewrite Hc, u32_small by (unfold is_u32; lia).
  replace (Z.of_nat (length pre) =? Z.of_nat (length rs) - 1) with (bool_decide (suf = [])).
  - rewrite <- decide_bool_decide. by apply flushed_cons.
  - case_bool_decide as Hs; symmetry; [apply Z.eqb_eq; subst suf; cbn in Hlen; lia|].
    apply Z.eqb_neq. destruct suf; [done|]. cbn [length] in Hlen. lia.
Qed.

Lemma biggest_depth rs b r :
  queued rs b -> Forall (request_ok sizes) rs -> r ∈ rs ->
  exists x, biggest_page_size (rq_page_sizes r) = Some x /\
    0 <= tree_page_table_depth tree (tb_biggest_page_size b) < top /\
    tree_page_table_depth tree (tb_biggest_page_size b) <= tree_page_table_depth tree x.
Proof.
  intros Hq Hrs Hin. rewrite Forall_forall in Hrs.
  destruct (q_biggest _ _ Hq) as (_ & Hex & Hall).
  destruct Hex as (r0 & Hin0 & E0); [by destruct rs; [inversion Hin|]|].
  pose proof (Hrs r0 Hin0) as (Hm0 & Hsub0 & _). pose proof (Hrs r Hin) as (Hm & Hsub & _).
  destruct (biggest_spec _ Hm0) as (k0 & E0' & Hk0 & Ht0 & _).
  destruct (biggest_spec _ Hm) as (k & E & Hk & Ht & _).
  specialize (Hall r _ Hin E). assert (Hb : tb_biggest_page_size b = 2 ^ k0) by congruence.
  rewrite Hb in *.
  exists (2 ^ k). split; [done|].
  split; [apply th_depth; [lia|apply Hsub0; [lia|done]]|].
  apply th_antitone; [|apply Hsub; [lia|done]|apply Hsub0; [lia|done]].
  split; [lia|]. apply Z.pow_le_mono_r_iff in Hall; lia.
Qed.

(** A batch ends with everything that was queued dropped, in bounded space. *)
Lemma batch_end_pushes rs b tlb_membar :
  queued rs b -> Forall (request_ok sizes) rs -> pages_sum rs < 2 ^ 32 ->
  pushes ranged (uvm_tlb_batch_end b tlb_membar)
    (max_pages_or_ranges (tree_props tree) + 4 * (num + 1))
    (batch_result tree top num rs tlb_membar).
Proof.
  intros Hq Hrs Hsum. pose proof (th_num (TlbHost := TlbHost0)) as Hnum.
  pose proof (th_max (TlbHost := TlbHost0)) as Hmax. pose proof (pages_sum_length rs Hrs).
  unfold uvm_tlb_batch_end. destruct (Z.eqb_spec (tb_count b) 0) as [H0|Hne].
  { rewrite (q_count _ _ Hq) in H0. destruct rs; [|cbn in H0; lia].
    apply (pushes_mono _ _ 0 _ (fun new => new = [])); [by apply pushes_ret|lia|].
    intros a ->. exists []. by split. }
  assert (Hnil : rs <> []) by (intros ->; by rewrite (q_count _ _ Hq) in Hne).
  rewrite (q_membar _ _ Hq). set (m := uvm_membar_max _ _). cbv zeta.
  match goal with |- context [if ?c then _ else _] => destruct c eqn:Hall end.
  - assert (exists r0, r0 ∈ rs) as [r0 Hr0] by (destruct rs; [done|eexists; by left]).
    destruct (biggest_depth rs b r0 Hq Hrs Hr0) as (_ & _ & Hd & _).
    unfold tlb_batch_flush_invalidate_all. cbn [tb_tree tb_biggest_page_size tb_membar].
    rewrite (q_tree _ _ Hq).
    eapply pushes_mono; [apply (th_all _ m 0 (2 ^ 64) 1 Hd)|lia|].
    intros new (invs & -> & Hinv & Hreach). exists invs. rewrite decide_False by done.
    split; [done|]. split; [eapply Forall_impl; [exact Hinv|]; eauto|].
    apply Forall_forall. intros r Hr.
    destruct (biggest_depth rs b r Hq Hrs Hr) as (x & Ex & _ & Hle).
    pose proof (proj1 (Forall_forall _ _) Hrs r Hr) as Hok. pose proof Hok as (_ & _ & s & Es & Hrange).
    eapply (sweep_drops r s x); eauto; [lia|]. intros a Ha _. apply Hreach; [|by exists a; lia].
    destruct Hrange as [_ [? _] _ ?]. lia.
  - apply should_all_mono in Hall as Hall'; [|done..]. destruct Hall' as [Hprev Hcnt].
    unfold tlb_batch_flush_invalidate_per_va. cbn [tb_count]. rewrite (q_count _ _ Hq).
    assert (Htot : total_of rs <= max_pages_or_ranges (tree_props tree)).
    { revert Hall. unfold tlb_batch_should_invalidate_all. cbn [tb_tree tb_count tb_total].
      rewrite (q_tree _ _ Hq), (q_total _ _ Hq). destruct (negb _); [done|]. case_match; [done|].
      intros ?. by zify_bool. }
    rewrite (q_count _ _ Hq) in Hcnt. unfold UVM_TLB_BATCH_MAX_ENTRIES in Hcnt.
    eapply pushes_mono; [eapply (flush_entries_pushes _ rs [] rs)|unfold flush_cost; nia|].
    + apply Hq.
    + done.
    + lia.
    + done.
    + intros i r Hi. apply (q_ranges _ _ Hq Hprev i r Hi).
    + done.
    + intros new (invs & -> & _ & Hinv & Hdrop). by exists invs.
Qed.
End batch.

(** ** The architectures *)

(** The tree of an architecture; Maxwell has no invalidate by address and its
    host methods are not modelled. *)
Definition tlb_tree_of (a : arch) (ats : bool) (num : Z) (pdb : uvm_gpu_phys_address_t)
  : option tlb_tree :=
  let depth := page_table_depth (hal_of ats a) in
  match a with
  | AMaxwell64 | AMaxwell128 => None
  | APascal => Some (TlbTree pdb depth tlb_props_pascal
      (uvm_hal_pascal_host_tlb_invalidate_all num) (uvm_hal_pascal_host_tlb_invalidate_va num))
  | AVolta => Some (TlbTree pdb depth tlb_props_volta
      (uvm_hal_pascal_host_tlb_invalidate_all num) (uvm_hal_volta_host_tlb_invalidate_va num))
  | ATuring => Some (TlbTree pdb depth tlb_props_turing
      (uvm_hal_pascal_host_tlb_invalidate_all num) (uvm_hal_volta_host_tlb_invalidate_va num))
  | AAmpere => Some (TlbTree pdb depth tlb_props_ampere
      (uvm_hal_ampere_host_tlb_invalidate_all num) (uvm_hal_ampere_host_tlb_invalidate_va num))
  | AHopper => Some (TlbTree pdb depth tlb_props_hopper
      (uvm_hal_hopper_host_tlb_invalidate_all num) (uvm_hal_hopper_host_tlb_invalidate_va num))
  end.

(** The class has an invalidation size; the level of the root directory. *)
Definition ranged_arch (a : arch) : bool := match a with APascal => false | _ => true end.
Definition root_level (a : arch) : Z := match a with AHopper => UP_TO_PDE4 | _ => UP_TO_PDE3 end.

(** A decidable property of every bit of a 32-bit constant. *)
Lemma bits_enum m (P : Z -> bool) :
  0 < m < 2 ^ 32 -> forallb (fun k => negb (Z.testbit m k) || P k) (up 0 32) = true ->
  forall k, 0 <= k -> Z.testbit m k = true -> k < 32 /\ P k = true.
Proof.
  intros Hm Hall k Hk Ht. assert (k < 32).
  { destruct (Z.le_gt_cases 32 k); [|done]. rewrite Z.bits_above_log2 in Ht; [done|lia|].
    pose proof (proj1 (Z.log2_lt_pow2 m 32 ltac:(lia))). lia. }
  split; [done|]. rewrite forallb_forall in Hall. specialize (Hall k).
  rewrite Ht in Hall. apply Hall. apply list_elem_of_In, elem_of_up. lia.
Qed.

(** Depths of the supported sizes: in range, and smaller for larger pages. *)
Definition depths_ok (h : uvm_mmu_mode_hal_t) (top : Z) : bool :=
  forallb (fun k => negb (Z.testbit (page_sizes h) k) ||
    ((12 <=? k) && (0 <=? page_table_depth h (2 ^ k)) && (page_table_depth h (2 ^ k) <? top) &&
     forallb (fun j => negb (Z.testbit (page_sizes h) j) || ((k <? j) ||
       (page_table_depth h (2 ^ k) <=? page_table_depth h (2 ^ j)))) (up 0 32))) (up 0 32).

Lemma depths_spec h top :
  0 < page_sizes h < 2 ^ 32 -> depths_ok h top = true ->
  (forall k, 0 <= k -> Z.testbit (page_sizes h) k = true ->
     12 <= k < 32 /\ 0 <= page_table_depth h (2 ^ k) < top) /\
  (forall j k, 0 <= j <= k -> Z.testbit (page_sizes h) j = true -> Z.testbit (page_sizes h) k = true ->
     page_table_depth h (2 ^ k) <= page_table_depth h (2 ^ j)).
Proof.
  intros Hm Hok. unfold depths_ok in Hok. pose proof (bits_enum _ _ Hm Hok) as Hb. cbn beta in Hb. split.
  - intros k Hk Ht. destruct (Hb k Hk Ht) as [Hlt Hp]. zify_bool. lia.
  - intros j k Hjk Hj Ht. destruct (Hb k ltac:(lia) Ht) as [Hlt Hp]. zify_bool.
    destruct (bits_enum _ _ Hm H0 j ltac:(lia) Hj) as [_ Hp]. cbn beta in Hp.
    apply orb_true_iff in Hp as [Hp|Hp]; zify_bool; lia.
Qed.

Lemma depths_all ats a top :
  tlb_tree_of a ats 0 (PhysAddr 0 UVM_APERTURE_VID) <> None -> top = root_level a ->
  (0 < page_sizes (hal_of ats a) < 2 ^ 32) /\ depths_ok (hal_of ats a) top = true.
Proof. intros Ha ->. destruct ats, a; try done; by vm_compute. Qed.

Lemma tlb_host_arch a ats num pdb tree :
  pdb_ok pdb -> 0 <= num -> tlb_tree_of a ats num pdb = Some tree ->
  TlbHost tree (ranged_arch a) (root_level a) num (page_sizes (hal_of ats a)).
Proof.
  intros Hpdb Hnum Ht.
  destruct (depths_all ats a (root_level a)) as [Hm Hd]; [by destruct a|done|].
  destruct (depths_spec _ _ Hm Hd) as [Hrange Hanti].
  destruct a; [done|done|..]; injection Ht as <-;
    (split; cbn [tree_props tree_page_table_depth tree_pdb host_tlb_invalidate_all host_tlb_invalidate_va
                 max_pages_or_ranges va_range_invalidate_supported tlb_props_pascal tlb_props_volta
                 tlb_props_turing tlb_props_ampere tlb_props_hopper];
     [done|done|apply Hrange|apply Hrange|apply Hanti|intros; by apply tlb_invalidate_all_pushes|]);
    intros depth membar base size page_size Hdep Hr.
  - by apply pascal_tlb_invalidate_va_pushes.
  - eapply pushes_mono; [apply (tlb_invalidate_va_range_pushes page_size UP_TO_PDE3 0 num _ pdb depth base size
      page_size membar 0); try done; by apply tlb_invalidate_all_pushes|lia|done].
  - eapply pushes_mono; [apply (tlb_invalidate_va_range_pushes page_size UP_TO_PDE3 0 num _ pdb depth base size
      page_size membar 0); try done; by apply tlb_invalidate_all_pushes|lia|done].
  - eapply pushes_mono; [apply (tlb_invalidate_va_range_pushes page_size UP_TO_PDE3 _ num _ pdb depth base size
      page_size membar 2); try done; by apply tlb_invalidate_all_pushes|lia|done].
  - eapply pushes_mono; [apply (tlb_invalidate_va_range_pushes page_size UP_TO_PDE4 _ num _ pdb depth base size
      page_size membar 2); try done; by apply tlb_invalidate_all_pushes|lia|done].
Qed.

Lemma tlb_batch_spec a ats num pdb tree rs tlb_membar push ops :
  pdb_ok pdb -> 0 <= num -> tlb_tree_of a ats num pdb = Some tree ->
  Forall (request_ok (page_sizes (hal_of ats a))) rs -> pages_sum rs < 2 ^ 32 ->
  host_ops C06F (ranged_arch a) push = Some ops ->
  room push (max_pages_or_ranges (tree_props tree) + 4 * (num + 1)) ->
  exists batch push' new,
    queue (uvm_tlb_batch_begin tree) rs = Some batch /\
    uvm_tlb_batch_end batch tlb_membar push = Some push' /\
    host_ops C06F (ranged_arch a) push' = Some (ops ++ new) /\
    batch_result tree (root_level a) num rs tlb_membar new.
Proof.
  intros Hpdb Hnum Ht Hrs Hsum Hops Hroom.
  pose proof (tlb_host_arch a ats num pdb tree Hpdb Hnum Ht) as Hhost.
  destruct (queue_all tree (ranged_arch a) (root_level a) num _ [] rs (uvm_tlb_batch_begin tree))
    as (batch & Eq & Hq); [apply (queued_begin tree (ranged_arch a) (root_level a) num (page_sizes (hal_of ats a)))|done|done|done|].
  destruct (batch_end_pushes tree (ranged_arch a) (root_level a) num _ rs batch tlb_membar Hq Hrs Hsum
    push ops _ Hops Hroom ltac:(lia)) as (push' & new & E & _ & Ho & Hres).
  by exists batch, push', new.
Qed.

(** A batch of one request of 2MB, where ranges are supported, is that request. *)
Lemma one_block_end tree base tlb_membar :
  tree_props tree = TlbProps true true 8 ->
  exists batch,
    uvm_tlb_batch_invalidate (uvm_tlb_batch_begin tree) base UVM_PAGE_SIZE_2M UVM_PAGE_SIZE_2M UVM_MEMBAR_NONE = Some batch /\
    uvm_tlb_batch_end batch tlb_membar [] =
      host_tlb_invalidate_va tree [] (tree_pdb tree) (tree_page_table_depth tree UVM_PAGE_SIZE_2M) base UVM_PAGE_SIZE_2M
        UVM_PAGE_SIZE_2M tlb_membar.
Proof.
  destruct tree as [pdb depth props all va]. cbn [tree_props]. intros ->. eexists. split; [reflexivity|].
  destruct tlb_membar; cbn -[UVM_PAGE_SIZE_2M]; change (u32 (0 + 1)) with 1; cbn -[UVM_PAGE_SIZE_2M];
    unfold tlb_batch_flush_invalidate_per_va; cbn -[UVM_PAGE_SIZE_2M flush_entries]; change (up 0 1) with [0]; cbn -[UVM_PAGE_SIZE_2M];
    match goal with |- _ = ?r => transitivity (r ≫= fun p => Some p); [reflexivity|by destruct r] end.
Qed.
(** One request of 2MB, from Volta on: every address of the 2MB is reached, with the
    level of the 2MB entries. *)
Lemma tlb_block_spec a ats num pdb tree base tlb_membar :
  pdb_ok pdb -> 0 <= num -> tlb_tree_of a ats num pdb = Some tree -> ranged_arch a = true ->
  0 <= base -> base mod UVM_PAGE_SIZE_2M = 0 -> base + UVM_PAGE_SIZE_2M <= 2 ^ 64 -> room [] (num + 2) ->
  exists batch words invs,
    uvm_tlb_batch_invalidate (uvm_tlb_batch_begin tree) base UVM_PAGE_SIZE_2M UVM_PAGE_SIZE_2M UVM_MEMBAR_NONE = Some batch /\
    uvm_tlb_batch_end batch tlb_membar [] = Some words /\
    host_ops C06F true words = Some (invs ++ membar_ops num tlb_membar) /\
    Forall (invalidates pdb (root_level a - page_table_depth (hal_of ats a) UVM_PAGE_SIZE_2M) (acked tlb_membar)) invs /\
    forall x, base <= x < base + UVM_PAGE_SIZE_2M -> Exists (reaches x) invs.
Proof.
  intros Hpdb Hnum Ht Ha H0 Hal Htop Hroom.
  assert (Hr : range_ok base UVM_PAGE_SIZE_2M UVM_PAGE_SIZE_2M) by (split; [by exists 21|done|done|done]).
  destruct (one_block_end tree base tlb_membar) as (batch & E & Ee); [by destruct a; [..|injection Ht as <-|injection Ht as <-|injection Ht as <-|injection Ht as <-]|].
  exists batch. 
  assert (Hp : pushes true (fun push => host_tlb_invalidate_va tree push pdb (page_table_depth (hal_of ats a) UVM_PAGE_SIZE_2M) base UVM_PAGE_SIZE_2M UVM_PAGE_SIZE_2M tlb_membar) (num + 2)
    (sweeps pdb (root_level a - page_table_depth (hal_of ats a) UVM_PAGE_SIZE_2M) base UVM_PAGE_SIZE_2M 1 num tlb_membar)).
  { destruct a; [done|done|done|..]; injection Ht as <-.
    - apply (tlb_invalidate_va_range_pushes 1 UP_TO_PDE3 0 num _ pdb _ base _ _ tlb_membar 0); try done; by apply tlb_invalidate_all_pushes.
    - apply (tlb_invalidate_va_range_pushes 1 UP_TO_PDE3 0 num _ pdb _ base _ _ tlb_membar 0); try done; by apply tlb_invalidate_all_pushes.
    - apply (tlb_invalidate_va_range_pushes 1 UP_TO_PDE3 _ num _ pdb _ base _ _ tlb_membar 2); try done; by apply tlb_invalidate_all_pushes.
    - apply (tlb_invalidate_va_range_pushes 1 UP_TO_PDE4 _ num _ pdb _ base _ _ tlb_membar 2); try done; by apply tlb_invalidate_all_pushes. }
  destruct (Hp [] [] (num + 2) eq_refl Hroom ltac:(lia)) as (words & new & Ew & _ & Ho & invs & -> & Hi & Hx).
  exists words, invs. split; [done|]. split; [|split; [done|split; [done|]]].
  - rewrite Ee, <- Ew. by destruct a; [..|injection Ht as <-|injection Ht as <-|injection Ht as <-|injection Ht as <-].
  - intros x Hxr. apply Hx; [done|]. by exists x; lia.
Qed.

(** C32. A TLB batch drops every translation it was asked to drop: on every
    architecture from Pascal to Hopper, queueing any requests (a nonempty range
    aligned to the smallest page size of its mask) and ending the batch fails no
    assertion and never indexes past the four recorded ranges; the words it
    pushes are read by the host engine as invalidates that reach, for every
    request, every page of every size in its mask that meets its range, at or
    above the level of the page table where such pages are mapped, followed by
    the widest membar asked for (after the membars of the hub); an empty batch
    pushes nothing.  The number of pages queued must fit the 32-bit counter. *)
Theorem tlb_batch_drops_all a ats num pdb tree rs tlb_membar push ops :
  pdb_ok pdb -> 0 <= num -> tlb_tree_of a ats num pdb = Some tree ->
  Forall (request_ok (page_sizes (hal_of ats a))) rs -> pages_sum rs < 2 ^ 32 ->
  host_ops C06F (ranged_arch a) push = Some ops ->
  room push (max_pages_or_ranges (tree_props tree) + 4 * (num + 1)) ->
  exists batch push' new,
    queue (uvm_tlb_batch_begin tree) rs = Some batch /\
    uvm_tlb_batch_end batch tlb_membar push = Some push' /\
    host_ops C06F (ranged_arch a) push' = Some (ops ++ new) /\
    batch_result tree (root_level a) num rs tlb_membar new.
Proof. apply tlb_batch_spec. Qed.

Definition demo_tlb_requests : list request :=
  [Request (2 ^ 30) (2 ^ 21) (UVM_PAGE_SIZE_64K + UVM_PAGE_SIZE_4K) UVM_MEMBAR_NONE;
   Request (2 ^ 40) (2 ^ 21) UVM_PAGE_SIZE_2M UVM_MEMBAR_GPU].

Lemma demo_tlb_requests_ok :
  Forall (request_ok (page_sizes (hal_of false AAmpere))) demo_tlb_requests.
Proof.
  assert (Hsub : forall m, 0 < m < 2 ^ 32 ->
    forallb (fun k => negb (Z.testbit m k) || Z.testbit (page_sizes (hal_of false AAmpere)) k) (up 0 32)
      = true ->
    forall k, 0 <= k -> Z.testbit m k = true -> Z.testbit (page_sizes (hal_of false AAmpere)) k = true).
  { intros m Hm Hall k Hk Hb. exact (proj2 (bits_enum m _ Hm Hall k Hk Hb)). }
  repeat constructor; cbn [rq_page_sizes rq_start rq_size].
  - by apply Hsub; [vm_compute|vm_compute].
  - eexists. split; [reflexivity|]. split; [exists 12; by vm_compute|by vm_compute..].
  - by apply Hsub; [vm_compute|vm_compute].
  - eexists. split; [reflexivity|]. split; [exists 21; by vm_compute|by vm_compute..].
Qed.

Lemma tlb_batch_drops_all_witness :
  exists batch push' new tree,
    tlb_tree_of AAmpere false 0 (PhysAddr 65536 UVM_APERTURE_VID) = Some tree /\
    queue (uvm_tlb_batch_begin tree) demo_tlb_requests = Some batch /\
    uvm_tlb_batch_end batch UVM_MEMBAR_SYS [] = Some push' /\
    host_ops C06F true push' = Some ([] ++ new) /\
    batch_result tree 5 0 demo_tlb_requests UVM_MEMBAR_SYS new.
Proof.
  destruct (tlb_tree_of AAmpere false 0 (PhysAddr 65536 UVM_APERTURE_VID)) as [tree|] eqn:Et; [|done].
  destruct (tlb_batch_drops_all AAmpere false 0 (PhysAddr 65536 UVM_APERTURE_VID) tree
    demo_tlb_requests UVM_MEMBAR_SYS [] []) as (batch & push' & new & H);
    [split; [by left|by vm_compute]|lia|exact Et|apply demo_tlb_requests_ok|by vm_compute|reflexivity
    |injection Et as <-; by vm_compute|].
  by exists batch, push', new, tree.
Defined.

(** The same batch, run: two targeted invalidates and one membar. *)
Example tlb_batch_demo :
  (tree ← tlb_tree_of AAmpere false 0 (PhysAddr 65536 UVM_APERTURE_VID);
   batch ← queue (uvm_tlb_batch_begin tree) demo_tlb_requests;
   push ← uvm_tlb_batch_end batch UVM_MEMBAR_SYS [];
   host_ops C06F true push) =
  Some [TlbInvalidate (Some (2 ^ 30, 21)) (PhysAddr 65536 UVM_APERTURE_VID) 1 false;
        TlbInvalidate (Some (2 ^ 40, 21)) (PhysAddr 65536 UVM_APERTURE_VID) 2 true;
        Membar UVM_MEMBAR_SYS].
Proof. by vm_compute. Qed.
