(* ===== verification/UvmPteBatch.v ===== *)
(** Batches of page table writes (uvm_pte_batch.c, uvm_pte_batch.h): the copy
    engine commands they push, and that running the commands has the effect of
    the writes in the order they were asked for.

    A push is modelled by its commands: the inline data fragments (a NOOP over
    the data), the copies and fills of the copy engine, waits and membars, and the
    methods that other code pushes to the host engine, which write no memory.
    Data and memory are words of 8 bytes, the size of a PTE word; the entry sizes
    of every architecture are multiples of it.  The limit on the size of a whole
    push, which depends on the copy engine's methods, is not modelled; the limit
    on one inline data fragment is. *)

From S2P Require Import Prelude UvmBits UvmCommon UvmMmuHal UvmPush UvmHostTlb.
Local Open Scope Z_scope.

(** ** Commands *)

Inductive push_cmd :=
| InlineData (words : list Z)
| CeMemcopy (dst : uvm_gpu_phys_address_t) (src : nat) (size : Z)
| CeMemset8 (dst : uvm_gpu_phys_address_t) (value size : Z)
| WaitForIdle
| MembarCmd (membar : uvm_membar_t)
| HostMethods (words : uvm_push_t).

(** Every copy and fill is pushed with the flags PIPELINED and MEMBAR_NONE; the
    source of a copy is the position in the push of an inline data fragment. *)
Definition cmds : Type := list push_cmd.

(** ** The batch *)

Definition UVM_PTE_BATCH_MAX_PTES : Z := 4.
Definition PTE_WORD : Z := 8.

(** [inline_data] is the fragment being written past the end of the push. *)
Record uvm_pte_batch_t := PteBatch {
  pb_push : cmds;
  pb_inline_data : list Z;
  pb_inlining : bool;
  pb_first_address : uvm_gpu_phys_address_t;
  pb_entry_size : Z;
  pb_bits_queue : list Z;
  pb_count : Z;
  pb_membar : uvm_membar_t;
}.

Definition set_push p b :=
  PteBatch p (pb_inline_data b) (pb_inlining b) (pb_first_address b) (pb_entry_size b)
    (pb_bits_queue b) (pb_count b) (pb_membar b).
Definition set_inline d i b :=
  PteBatch (pb_push b) d i (pb_first_address b) (pb_entry_size b)
    (pb_bits_queue b) (pb_count b) (pb_membar b).
Definition set_first a size b :=
  PteBatch (pb_push b) (pb_inline_data b) (pb_inlining b) a size
    (pb_bits_queue b) (pb_count b) (pb_membar b).
Definition set_queue q b :=
  PteBatch (pb_push b) (pb_inline_data b) (pb_inlining b) (pb_first_address b) (pb_entry_size b)
    q (pb_count b) (pb_membar b).
Definition set_count c b :=
  PteBatch (pb_push b) (pb_inline_data b) (pb_inlining b) (pb_first_address b) (pb_entry_size b)
    (pb_bits_queue b) c (pb_membar b).
Definition set_pte_membar m b :=
  PteBatch (pb_push b) (pb_inline_data b) (pb_inlining b) (pb_first_address b) (pb_entry_size b)
    (pb_bits_queue b) (pb_count b) m.

Definition phys_add (a : uvm_gpu_phys_address_t) (n : Z) : uvm_gpu_phys_address_t :=
  PhysAddr (u64 (phys_address a + n)) (phys_aperture a).

Definition uvm_gpu_phys_address_eq (pa1 pa2 : uvm_gpu_phys_address_t) : bool :=
  (phys_address pa1 =? phys_address pa2) && aperture_eqb (phys_aperture pa1) (phys_aperture pa2).

Definition uvm_pte_batch_begin (push : cmds) : uvm_pte_batch_t :=
  PteBatch push [] false (PhysAddr 0 UVM_APERTURE_PEER_0) 0
    (replicate (Z.to_nat UVM_PTE_BATCH_MAX_PTES) 0) 0 UVM_MEMBAR_GPU.

(** uvm_push_inline_data_begin, _size, _get/_add and _end *)
Definition inline_data_size (b : uvm_pte_batch_t) : Z := PTE_WORD * Z.of_nat (length (pb_inline_data b)).

Definition uvm_push_inline_data_add (words : list Z) (b : uvm_pte_batch_t) : option uvm_pte_batch_t :=
  UVM_ASSERT (inline_data_size b + PTE_WORD * Z.of_nat (length words) <=? UVM_PUSH_INLINE_DATA_MAX_SIZE) ;;
  Some (set_inline (pb_inline_data b ++ words) (pb_inlining b) b).

Definition uvm_pte_batch_flush_ptes_inline (b : uvm_pte_batch_t) : option uvm_pte_batch_t :=
  let ptes_size := u32 (pb_count b * pb_entry_size b) in
  UVM_ASSERT (negb (pb_count b =? 0)) ;;
  UVM_ASSERT (pb_inlining b) ;;
  UVM_ASSERT (ptes_size =? inline_data_size b) ;;
  let src := length (pb_push b) in
  let push := pb_push b ++ [InlineData (pb_inline_data b)] in
  Some (set_push (push ++ [CeMemcopy (pb_first_address b) src ptes_size]) (set_inline [] false b)).

(** The loop of memsets: [addr] advances by an entry each time. *)
Fixpoint memset_loop (bits : list Z) (addr : uvm_gpu_phys_address_t) (entry_size : Z) (push : cmds) : cmds :=
  match bits with
  | [] => push
  | v :: bits' => memset_loop bits' (phys_add addr entry_size) entry_size (push ++ [CeMemset8 addr v PTE_WORD])
  end.

Definition uvm_pte_batch_flush_ptes_memset (b : uvm_pte_batch_t) : option uvm_pte_batch_t :=
  UVM_ASSERT (negb (pb_count b =? 0)) ;;
  UVM_ASSERT (negb (pb_inlining b)) ;;
  UVM_ASSERT (pb_count b <=? Z.of_nat (length (pb_bits_queue b))) ;;
  Some (set_push (memset_loop (take (Z.to_nat (pb_count b)) (pb_bits_queue b)) (pb_first_address b)
                    (pb_entry_size b) (pb_push b)) b).

Definition uvm_pte_batch_flush_ptes (b : uvm_pte_batch_t) : option uvm_pte_batch_t :=
  if pb_count b =? 0 then Some b
  else
    b ← (if pb_inlining b then uvm_pte_batch_flush_ptes_inline b else uvm_pte_batch_flush_ptes_memset b);
    Some (set_count 0 b).

(** The PTE bits, and zeroes in the rest of the entry. *)
Definition uvm_pte_batch_write_consecutive_inline (pte_bits : Z) (b : uvm_pte_batch_t)
  : option uvm_pte_batch_t :=
  let extra_size := u64 (pb_entry_size b - PTE_WORD) in
  UVM_ASSERT (extra_size <? pb_entry_size b) ;;
  UVM_ASSERT (pb_inlining b) ;;
  b ← uvm_push_inline_data_add [pte_bits] b;
  if negb (extra_size =? 0)
  then uvm_push_inline_data_add (replicate (Z.to_nat (extra_size / PTE_WORD)) 0) b
  else Some b.

Definition uvm_pte_batch_write_consecutive (pte_bits : Z) (b : uvm_pte_batch_t)
  : option uvm_pte_batch_t :=
  b ← (if pb_inlining b then uvm_pte_batch_write_consecutive_inline pte_bits b
       else UVM_ASSERT (pb_count b <? UVM_PTE_BATCH_MAX_PTES) ;;
            Some (set_queue (setZ (pb_bits_queue b) (pb_count b) pte_bits) b));
  Some (set_count (u32 (pb_count b + 1)) b).

Fixpoint write_inline_all (bits : list Z) (b : uvm_pte_batch_t) : option uvm_pte_batch_t :=
  match bits with
  | [] => Some b
  | v :: bits' => b ← uvm_pte_batch_write_consecutive_inline v b; write_inline_all bits' b
  end.

Definition pte_batch_begin_inline (b : uvm_pte_batch_t) : option uvm_pte_batch_t :=
  UVM_ASSERT (negb (pb_inlining b)) ;;
  UVM_ASSERT (pb_count b <=? Z.of_nat (length (pb_bits_queue b))) ;;
  write_inline_all (take (Z.to_nat (pb_count b)) (pb_bits_queue b)) (set_inline [] true b).

Definition promote_membar (aperture : uvm_aperture_t) (b : uvm_pte_batch_t) : uvm_pte_batch_t :=
  if aperture_eqb aperture UVM_APERTURE_SYS then set_pte_membar UVM_MEMBAR_SYS b else b.

(** [while (entry_count > 0)]: a fragment of at most [max_entries] entries each
    time; reading past the buffer is undefined. *)
Fixpoint write_ptes_loop (fuel : nat) (max_entries : Z) (first_pte : uvm_gpu_phys_address_t)
    (pte_bits : list Z) (entry_size entry_count : Z) (b : uvm_pte_batch_t) : option uvm_pte_batch_t :=
  if 0 <? entry_count then
    match fuel with
    | O => None
    | S n =>
        b ← uvm_pte_batch_flush_ptes b;
        b ← pte_batch_begin_inline b;
        let entries_this_time := Z.min max_entries entry_count in
        let words := Z.to_nat (u32 (entries_this_time * entry_size) / PTE_WORD) in
        UVM_ASSERT (Nat.leb words (length pte_bits)) ;;
        b ← uvm_push_inline_data_add (take words pte_bits) b;
        let b := set_count entries_this_time (set_first first_pte entry_size b) in
        write_ptes_loop n max_entries (phys_add first_pte (u32 (entries_this_time * entry_size)))
          (drop (Z.to_nat (u32 (entries_this_time * (entry_size / PTE_WORD)))) pte_bits)
          entry_size (u32 (entry_count - entries_this_time)) b
    end
  else Some b.

Definition uvm_pte_batch_write_ptes (first_pte : uvm_gpu_phys_address_t) (pte_bits : list Z)
    (entry_size entry_count : Z) (b : uvm_pte_batch_t) : option uvm_pte_batch_t :=
  UVM_ASSERT (negb (entry_size =? 0)) ;;
  let max_entries := UVM_PUSH_INLINE_DATA_MAX_SIZE / entry_size in
  write_ptes_loop (Z.to_nat entry_count) max_entries first_pte pte_bits entry_size entry_count
    (promote_membar (phys_aperture first_pte) b).

Definition uvm_pte_batch_write_pte (pte : uvm_gpu_phys_address_t) (pte_bits pte_size : Z)
    (b : uvm_pte_batch_t) : option uvm_pte_batch_t :=
  let consecutive_pte_address := phys_add (pb_first_address b) (u32 (pb_count b * pte_size)) in
  let b := promote_membar (phys_aperture pte) b in
  let needs_flush :=
    (UVM_PUSH_INLINE_DATA_MAX_SIZE <? u32 ((pb_count b + 1) * pb_entry_size b)) ||
    negb (uvm_gpu_phys_address_eq pte consecutive_pte_address) ||
    negb (pb_entry_size b =? pte_size) in
  b ← (if needs_flush
       then b ← uvm_pte_batch_flush_ptes b; Some (set_first pte pte_size b)
       else Some b);
  b ← (if negb (pb_inlining b) && (pb_count b =? UVM_PTE_BATCH_MAX_PTES)
       then pte_batch_begin_inline b else Some b);
  uvm_pte_batch_write_consecutive pte_bits b.

Definition uvm_pte_batch_clear_ptes (first_pte : uvm_gpu_phys_address_t)
    (empty_pte_bits entry_size entry_count : Z) (b : uvm_pte_batch_t) : option uvm_pte_batch_t :=
  b ← uvm_pte_batch_flush_ptes b;
  let b := set_push (pb_push b ++ [CeMemset8 first_pte empty_pte_bits (u32 (entry_size * entry_count))]) b in
  Some (promote_membar (phys_aperture first_pte) b).

Definition uvm_pte_batch_end (b : uvm_pte_batch_t) : option cmds :=
  b ← uvm_pte_batch_flush_ptes b;
  Some (pb_push b ++ [WaitForIdle; MembarCmd (pb_membar b)]).

Definition uvm_pte_batch_single_write_ptes (push : cmds) (first_pte : uvm_gpu_phys_address_t)
    (pte_bits : list Z) (entry_size entry_count : Z) : option cmds :=
  b ← uvm_pte_batch_write_ptes first_pte pte_bits entry_size entry_count (uvm_pte_batch_begin push);
  uvm_pte_batch_end b.

(** ** Running the commands *)

(** Memory of 8-byte words, by aperture and address. *)
Definition gpu_mem (V : Type) : Type := uvm_aperture_t -> Z -> V.

Definition mem_write {V} (m : gpu_mem V) (ap : uvm_aperture_t) (addr : Z) (v : V) : gpu_mem V :=
  fun ap' addr' => if bool_decide (ap' = ap /\ addr' = addr) then v else m ap' addr'.

Fixpoint mem_block {V} (m : gpu_mem V) (ap : uvm_aperture_t) (addr : Z) (ws : list V) : gpu_mem V :=
  match ws with
  | [] => m
  | w :: ws' => mem_block (mem_write m ap addr w) ap (addr + PTE_WORD) ws'
  end.

(** One command of the push [p]; a copy from anything but a whole inline data
    fragment of [p], or a fill of a partial word, has no result.  Commands take
    effect in order here, so that waits and membars change nothing; the copy
    engine of UvmCopyEngine also has the runs in which pipelined writes overtake
    each other between two waits. *)
Definition run_cmd (p : cmds) (c : push_cmd) (m : gpu_mem Z) : option (gpu_mem Z) :=
  match c with
  | InlineData _ | WaitForIdle | MembarCmd _ | HostMethods _ => Some m
  | CeMemcopy dst src size =>
      match p !! src with
      | Some (InlineData ws) =>
          if size =? PTE_WORD * Z.of_nat (length ws)
          then Some (mem_block m (phys_aperture dst) (phys_address dst) ws) else None
      | _ => None
      end
  | CeMemset8 dst v size =>
      if size mod PTE_WORD =? 0
      then Some (mem_block m (phys_aperture dst) (phys_address dst)
                   (replicate (Z.to_nat (size / PTE_WORD)) v))
      else None
  end.

Fixpoint run_cmds (p q : cmds) (m : gpu_mem Z) : option (gpu_mem Z) :=
  match q with
  | [] => Some m
  | c :: q' => m ← run_cmd p c m; run_cmds p q' m
  end.

Definition run_push (p : cmds) (m : gpu_mem Z) : option (gpu_mem Z) := run_cmds p p m.

(** ** The specification *)

(** A client's requests. *)
Inductive pte_op :=
| WritePte (pte : uvm_gpu_phys_address_t) (pte_bits entry_size : Z)
| WritePtes (first_pte : uvm_gpu_phys_address_t) (pte_bits : list Z) (entry_size entry_count : Z)
| ClearPtes (first_pte : uvm_gpu_phys_address_t) (pte_bits entry_size entry_count : Z).

(** An entry of which only the first word is specified. *)
Definition entry_words (bits entry_size : Z) : list (option Z) :=
  Some bits :: replicate (Z.to_nat (entry_size / PTE_WORD) - 1) None.

(** The words a request stores, at once, from its first address on; [None] is a
    word left unspecified. *)
Definition op_words (op : pte_op) : uvm_gpu_phys_address_t * list (option Z) :=
  match op with
  | WritePte pte bits size => (pte, entry_words bits size)
  | WritePtes pte bits size count =>
      (pte, Some <$> take (Z.to_nat (count * size / PTE_WORD)) bits)
  | ClearPtes pte bits size count =>
      (pte, concat (replicate (Z.to_nat count) (entry_words bits size)))
  end.

Definition spec_op (a : gpu_mem (option Z)) (op : pte_op) : gpu_mem (option Z) :=
  let '(pte, ws) := op_words op in mem_block a (phys_aperture pte) (phys_address pte) ws.

Definition spec_ops (a : gpu_mem (option Z)) (ops : list pte_op) : gpu_mem (option Z) :=
  foldl spec_op a ops.

(** The memory holds what the specification says of it. *)
Definition refines (a : gpu_mem (option Z)) (m : gpu_mem Z) : Prop :=
  forall ap addr v, a ap addr = Some v -> m ap addr = v.

Definition specified (m : gpu_mem Z) : gpu_mem (option Z) := fun ap addr => Some (m ap addr).

Definition do_op (op : pte_op) (b : uvm_pte_batch_t) : option uvm_pte_batch_t :=
  match op with
  | WritePte pte bits size => uvm_pte_batch_write_pte pte bits size b
  | WritePtes pte bits size count => uvm_pte_batch_write_ptes pte bits size count b
  | ClearPtes pte bits size count => uvm_pte_batch_clear_ptes pte bits size count b
  end.

Fixpoint do_ops (ops : list pte_op) (b : uvm_pte_batch_t) : option uvm_pte_batch_t :=
  match ops with
  | [] => Some b
  | op :: ops' => b ← do_op op b; do_ops ops' b
  end.

(** Entries of one or two words, within the address space, and a buffer that
    holds them. *)
Definition size_ok (size : Z) : Prop := size = 8 \/ size = 16.

Definition span_ok (pte : uvm_gpu_phys_address_t) (size count : Z) : Prop :=
  size_ok size /\ 0 <= count /\ count * size < 2 ^ 32 /\
  0 <= phys_address pte /\ phys_address pte + count * size < 2 ^ 64.

Definition op_ok (op : pte_op) : Prop :=
  match op with
  | WritePte pte _ size => span_ok pte size 1
  | WritePtes pte bits size count =>
      span_ok pte size count /\ count * size <= PTE_WORD * Z.of_nat (length bits)
  | ClearPtes pte _ size count => span_ok pte size count
  end.

Definition op_aperture (op : pte_op) : uvm_aperture_t := phys_aperture (fst (op_words op)).

(** ** Blocks of memory *)

Lemma mem_block_app {V} (m : gpu_mem V) ap addr ws ws' :
  mem_block m ap addr (ws ++ ws') =
  mem_block (mem_block m ap addr ws) ap (addr + PTE_WORD * Z.of_nat (length ws)) ws'.
Proof.
  revert m addr. induction ws as [|w ws IH]; intros m addr; cbn [mem_block app].
  - f_equal. cbn. lia.
  - rewrite IH. f_equal. cbn [length]. lia.
Qed.

Lemma refines_write a m ap addr (x : option Z) v :
  refines a m -> (forall y, x = Some y -> v = y) ->
  refines (mem_write a ap addr x) (mem_write m ap addr v).
Proof.
  intros H Hx ap' addr' y. unfold mem_write. case_bool_decide; [apply Hx|apply H].
Qed.

Lemma refines_block a m ap addr aw ws :
  refines a m -> Forall2 (fun x v => forall y, x = Some y -> v = y) aw ws ->
  refines (mem_block a ap addr aw) (mem_block m ap addr ws).
Proof.
  intros H HF. revert a m addr H. induction HF as [|x v aw ws Hx _ IH]; intros a m addr H; [done|].
  cbn. apply IH. by apply refines_write.
Qed.

(** Unspecified words may keep what they held. *)
Lemma refines_unspecified a m ap addr n :
  refines a m -> refines (mem_block a ap addr (replicate n None)) m.
Proof.
  revert a addr. induction n as [|n IH]; intros a addr H; [done|]. cbn. apply IH.
  intros ap' addr' y. unfold mem_write. case_bool_decide; [done|apply H].
Qed.

Lemma entry_words_length bits size :
  size_ok size -> PTE_WORD * Z.of_nat (length (entry_words bits size)) = size.
Proof. intros [-> | ->]; done. Qed.

(** An entry of which only the first word is stored. *)
Lemma refines_entry a m ap addr bits size :
  refines a m ->
  refines (mem_block a ap addr (entry_words bits size)) (mem_write m ap addr bits).
Proof.
  intros H. cbn [entry_words mem_block]. apply refines_unspecified, refines_write; [done|].
  by intros y [= ->].
Qed.

(** ** Running pushes that grow *)

Lemma run_cmds_app p q q' m :
  run_cmds p (q ++ q') m = (m ← run_cmds p q m; run_cmds p q' m).
Proof.
  revert m. induction q as [|c q IH]; intros m; [done|]. cbn.
  destruct (run_cmd p c m); [apply IH|done].
Qed.

Lemma run_cmds_mono p r q m m' : run_cmds p q m = Some m' -> run_cmds (p ++ r) q m = Some m'.
Proof.
  revert m. induction q as [|c q IH]; intros m; [done|]. cbn.
  destruct (run_cmd p c m) as [m1|] eqn:E; [|done]. cbn. intros H.
  replace (run_cmd (p ++ r) c m) with (Some m1); [by apply IH|]. rewrite <- E.
  destruct c; try done. cbn in *. destruct (p !! src) eqn:El; [|done].
  by rewrite (lookup_app_l_Some _ _ _ _ El).
Qed.

Lemma run_push_app p q m m1 m2 :
  run_push p m = Some m1 -> run_cmds (p ++ q) q m1 = Some m2 -> run_push (p ++ q) m = Some m2.
Proof.
  intros H1 H2. unfold run_push. rewrite run_cmds_app, (run_cmds_mono _ q _ _ _ H1). done.
Qed.

(** ** The batch holds the writes still to push *)

Definition stored (x : option Z) (v : Z) : Prop := forall y, x = Some y -> v = y.

(** The words [aw] wait in the batch: in the queue of PTEs, one entry each, or in
    the inline data fragment. *)
Definition pending (b : uvm_pte_batch_t) (aw : list (option Z)) : Prop :=
  (Z.of_nat (length (pb_bits_queue b)) = UVM_PTE_BATCH_MAX_PTES /\
   is_u64 (phys_address (pb_first_address b))) /\
  ((pb_count b = 0 /\ pb_inlining b = false /\ aw = []) \/
   (0 < pb_count b /\ size_ok (pb_entry_size b) /\
    pb_count b * pb_entry_size b <= UVM_PUSH_INLINE_DATA_MAX_SIZE /\
    0 <= phys_address (pb_first_address b) /\
    phys_address (pb_first_address b) + pb_count b * pb_entry_size b < 2 ^ 64 /\
    PTE_WORD * Z.of_nat (length aw) = pb_count b * pb_entry_size b /\
    if pb_inlining b then Forall2 stored aw (pb_inline_data b)
    else pb_count b <= UVM_PTE_BATCH_MAX_PTES /\
         aw = concat ((fun v => entry_words v (pb_entry_size b)) <$>
                take (Z.to_nat (pb_count b)) (pb_bits_queue b)))).

(** From memory [m0], the push and then the pending words give [a]. *)
Definition batch_inv (m0 : gpu_mem Z) (b : uvm_pte_batch_t) (a : gpu_mem (option Z)) : Prop :=
  exists a0 m aw, run_push (pb_push b) m0 = Some m /\ refines a0 m /\ pending b aw /\
    a = mem_block a0 (phys_aperture (pb_first_address b)) (phys_address (pb_first_address b)) aw.

(** Nothing is pending. *)
Definition settled (m0 : gpu_mem Z) (b : uvm_pte_batch_t) (a : gpu_mem (option Z)) : Prop :=
  (Z.of_nat (length (pb_bits_queue b)) = UVM_PTE_BATCH_MAX_PTES /\
   is_u64 (phys_address (pb_first_address b))) /\ pb_count b = 0 /\
  pb_inlining b = false /\ exists m, run_push (pb_push b) m0 = Some m /\ refines a m.

Lemma settled_inv m0 b a : settled m0 b a -> batch_inv m0 b a.
Proof.
  intros (Hq & Hc & Hi & m & Hr & Href). exists a, m, []. split; [done|]. split; [done|].
  split; [|done]. split; [done|]. by left.
Qed.

Fixpoint memsets (bits : list Z) (addr : uvm_gpu_phys_address_t) (entry_size : Z) : cmds :=
  match bits with
  | [] => []
  | v :: bits' => CeMemset8 addr v PTE_WORD :: memsets bits' (phys_add addr entry_size) entry_size
  end.

Lemma memset_loop_app bits addr size push :
  memset_loop bits addr size push = push ++ memsets bits addr size.
Proof.
  revert addr push. induction bits as [|v bits IH]; intros addr push; cbn; [by rewrite app_nil_r|].
  by rewrite IH, <- app_assoc.
Qed.

Lemma phys_add_small pte n :
  0 <= phys_address pte -> 0 <= n -> phys_address pte + n < 2 ^ 64 ->
  phys_add pte n = PhysAddr (phys_address pte + n) (phys_aperture pte).
Proof. intros. unfold phys_add. by rewrite u64_small by (unfold is_u64; lia). Qed.

Lemma run_memsets p bits addr size a m :
  size_ok size -> 0 <= phys_address addr ->
  phys_address addr + Z.of_nat (length bits) * size < 2 ^ 64 -> refines a m ->
  exists m', run_cmds p (memsets bits addr size) m = Some m' /\
    refines (mem_block a (phys_aperture addr) (phys_address addr)
               (concat ((fun v => entry_words v size) <$> bits))) m'.
Proof.
  intros Hs. revert addr a m. induction bits as [|v bits IH]; intros addr a m H0 Hend Href.
  { by exists m. }
  cbn [length] in Hend. assert (0 < size) by (destruct Hs; lia).
  cbn [memsets run_cmds run_cmd]. change (PTE_WORD mod PTE_WORD =? 0) with true.
  change (replicate (Z.to_nat (PTE_WORD / PTE_WORD)) v) with [v]. cbn [mem_block mbind option_bind].
  destruct (IH (phys_add addr size)
    (mem_block a (phys_aperture addr) (phys_address addr) (entry_words v size))
    (mem_write m (phys_aperture addr) (phys_address addr) v)) as (m' & E & Href').
  - rewrite phys_add_small; cbn; nia.
  - rewrite phys_add_small; cbn; nia.
  - by apply refines_entry.
  - exists m'. split; [done|]. rewrite phys_add_small in Href' by nia. cbn [phys_address phys_aperture] in Href'.
    cbn [fmap list_fmap concat]. by rewrite mem_block_app, (entry_words_length v size Hs).
Qed.

Lemma concat_entries_length bits size :
  size_ok size ->
  PTE_WORD * Z.of_nat (length (concat ((fun v => entry_words v size) <$> bits))) =
  Z.of_nat (length bits) * size.
Proof.
  intros Hs. induction bits as [|v bits IH]; [done|]. cbn [fmap list_fmap concat length].
  rewrite length_app. pose proof (entry_words_length v size Hs). unfold PTE_WORD in *. lia.
Qed.

(** Flushing pushes what is pending. *)
Lemma flush_spec m0 b a :
  batch_inv m0 b a ->
  exists b', uvm_pte_batch_flush_ptes b = Some b' /\ settled m0 b' a /\ pb_membar b' = pb_membar b.
Proof.
  intros (a0 & m & aw & Hr & Href & [Hq [(Hc & Hi & ->)|Hp]] & ->);
    unfold uvm_pte_batch_flush_ptes.
  { rewrite Hc, Z.eqb_refl. exists b. split; [done|]. split; [|done].
    split; [done|]. split; [done|]. split; [done|]. by exists m. }
  destruct Hp as (Hc & Hs & Hmax & H0 & Hend & Hlen & Hdata).
  rewrite (proj2 (Z.eqb_neq (pb_count b) 0)) by lia. destruct (pb_inlining b) eqn:Hi.
  - unfold uvm_pte_batch_flush_ptes_inline. rewrite (proj2 (Z.eqb_neq (pb_count b) 0)), Hi by lia.
    assert (Hmax' : UVM_PUSH_INLINE_DATA_MAX_SIZE < 2 ^ 32) by by vm_compute.
    assert (Hpos : 0 < pb_entry_size b) by (destruct Hs; lia).
    rewrite u32_small by (unfold is_u32; nia).
    unfold inline_data_size. rewrite <- (Forall2_length _ _ _ Hdata), Hlen, Z.eqb_refl.
    cbn [negb UVM_ASSERT mbind option_bind]. eexists. split; [done|]. split; [|done].
    split; [done|]. split; [done|]. split; [done|]. cbn [pb_push set_count set_push set_inline].
    eexists. split.
    + rewrite <- app_assoc. eapply run_push_app; [exact Hr|]. cbn [app run_cmds run_cmd mbind option_bind].
      replace (_ !! length (pb_push b)) with (Some (InlineData (pb_inline_data b)))
        by (symmetry; by apply list_lookup_middle).
      rewrite <- (Forall2_length _ _ _ Hdata), Hlen, Z.eqb_refl. done.
    + by apply refines_block.
  - destruct Hdata as [Hc4 ->]. unfold uvm_pte_batch_flush_ptes_memset.
    rewrite (proj2 (Z.eqb_neq (pb_count b) 0)), Hi, (proj2 (Z.leb_le _ _)) by lia.
    cbn [negb UVM_ASSERT mbind option_bind]. rewrite memset_loop_app.
    set (bits := take (Z.to_nat (pb_count b)) (pb_bits_queue b)) in *.
    assert (Hbits : Z.of_nat (length bits) = pb_count b) by (unfold bits; rewrite length_take; lia).
    destruct (run_memsets (pb_push b ++ memsets bits (pb_first_address b) (pb_entry_size b)) bits
      (pb_first_address b) (pb_entry_size b) a0 m) as (m' & E & Href'); [done|done|by rewrite Hbits|done|].
    eexists. split; [done|]. split; [|done]. split; [done|]. split; [done|]. split; [done|].
    exists m'. split; [|done]. by apply (run_push_app _ _ _ m).
Qed.

(** ** Queueing an entry *)

(** The words of an entry in an inline data fragment. *)
Definition inline_words (v entry_size : Z) : list Z :=
  v :: replicate (Z.to_nat (entry_size / PTE_WORD) - 1) 0.

Lemma stored_entry v size : Forall2 stored (entry_words v size) (inline_words v size).
Proof.
  constructor; [by intros y [= ->]|]. induction (Z.to_nat (size / PTE_WORD) - 1)%nat; constructor; done.
Qed.

Lemma stored_entries bits size :
  Forall2 stored (concat ((fun v => entry_words v size) <$> bits))
    (concat ((fun v => inline_words v size) <$> bits)).
Proof.
  induction bits as [|v bits IH]; [constructor|]. cbn [fmap list_fmap concat].
  by apply Forall2_app; [apply stored_entry|].
Qed.

Lemma inline_words_length v size :
  size_ok size -> PTE_WORD * Z.of_nat (length (inline_words v size)) = size.
Proof. intros [-> | ->]; done. Qed.

Lemma inline_add_spec words b :
  inline_data_size b + PTE_WORD * Z.of_nat (length words) <= UVM_PUSH_INLINE_DATA_MAX_SIZE ->
  uvm_push_inline_data_add words b = Some (set_inline (pb_inline_data b ++ words) (pb_inlining b) b).
Proof. intros H. unfold uvm_push_inline_data_add. by rewrite (proj2 (Z.leb_le _ _)) by done. Qed.

Lemma write_inline_spec v b :
  pb_inlining b = true -> size_ok (pb_entry_size b) ->
  inline_data_size b + pb_entry_size b <= UVM_PUSH_INLINE_DATA_MAX_SIZE ->
  uvm_pte_batch_write_consecutive_inline v b =
  Some (set_inline (pb_inline_data b ++ inline_words v (pb_entry_size b)) true b).
Proof.
  intros Hi Hs Hmax. unfold uvm_pte_batch_write_consecutive_inline.
  assert (H8 : 8 <= pb_entry_size b) by (destruct Hs; lia).
  rewrite inline_add_spec by (unfold PTE_WORD; cbn [length]; lia). rewrite Hi.
  destruct Hs as [Hs|Hs]; rewrite Hs in *.
  - change (u64 (8 - PTE_WORD)) with 0. done.
  - change (u64 (16 - PTE_WORD)) with 8. cbn [Z.ltb Z.compare Pos.compare Pos.compare_cont UVM_ASSERT
      mbind option_bind negb Z.eqb]. rewrite inline_add_spec.
    + cbn. by rewrite <- app_assoc.
    + change (Z.to_nat (8 / PTE_WORD)) with 1%nat. unfold inline_data_size in *.
      cbn [pb_inline_data set_inline]. rewrite length_app. cbn [replicate length].
      unfold PTE_WORD in *. lia.
Qed.

Lemma write_inline_all_spec bits b :
  pb_inlining b = true -> size_ok (pb_entry_size b) ->
  inline_data_size b + Z.of_nat (length bits) * pb_entry_size b <= UVM_PUSH_INLINE_DATA_MAX_SIZE ->
  write_inline_all bits b =
  Some (set_inline (pb_inline_data b ++ concat ((fun v => inline_words v (pb_entry_size b)) <$> bits)) true b).
Proof.
  revert b. induction bits as [|v bits IH]; intros b Hi Hs Hmax.
  { cbn. rewrite app_nil_r. destruct b. cbn in *. by subst. }
  cbn [length] in Hmax. assert (0 < pb_entry_size b) by (destruct Hs; lia).
  cbn [write_inline_all]. rewrite write_inline_spec by (done || nia). cbn [mbind option_bind].
  rewrite IH; cbn [pb_inlining pb_entry_size set_inline pb_inline_data]; [|done|done|].
  - cbn [fmap list_fmap concat]. by rewrite app_assoc.
  - unfold inline_data_size in *. cbn [pb_inline_data set_inline]. rewrite length_app.
    pose proof (inline_words_length v _ Hs). unfold PTE_WORD in *. nia.
Qed.

(** The writes [aw] wait and there is room for one more entry after them. *)
Definition ready (b : uvm_pte_batch_t) (aw : list (option Z)) : Prop :=
  (Z.of_nat (length (pb_bits_queue b)) = UVM_PTE_BATCH_MAX_PTES /\
   is_u64 (phys_address (pb_first_address b))) /\
  0 <= pb_count b /\ size_ok (pb_entry_size b) /\
  (pb_count b + 1) * pb_entry_size b <= UVM_PUSH_INLINE_DATA_MAX_SIZE /\
  phys_address (pb_first_address b) + (pb_count b + 1) * pb_entry_size b < 2 ^ 64 /\
  PTE_WORD * Z.of_nat (length aw) = pb_count b * pb_entry_size b /\
  if pb_inlining b then Forall2 stored aw (pb_inline_data b)
  else pb_count b <= UVM_PTE_BATCH_MAX_PTES /\
       aw = concat ((fun v => entry_words v (pb_entry_size b)) <$>
              take (Z.to_nat (pb_count b)) (pb_bits_queue b)).

Lemma begin_inline_spec b aw :
  ready b aw -> pb_inlining b = false ->
  exists b', pte_batch_begin_inline b = Some b' /\ ready b' aw /\ pb_inlining b' = true /\
    pb_push b' = pb_push b /\ pb_first_address b' = pb_first_address b /\
    pb_entry_size b' = pb_entry_size b /\ pb_membar b' = pb_membar b /\ pb_count b' = pb_count b.
Proof.
  intros ((Hq & Hu) & Hc & Hs & Hmax & Hend & Hlen & Hdata) Hi. rewrite Hi in Hdata.
  destruct Hdata as [Hc4 ->]. unfold pte_batch_begin_inline.
  assert (0 < pb_entry_size b) by (destruct Hs; lia).
  rewrite Hi, (proj2 (Z.leb_le _ _)) by lia. cbn [negb UVM_ASSERT mbind option_bind].
  rewrite write_inline_all_spec; cbn [pb_inlining pb_entry_size set_inline pb_inline_data]; [|done|done|].
  - eexists. split; [done|]. split; [|done]. cbn [app].
    split; [done|]. split; [done|]. split; [done|]. split; [done|]. split; [done|]. split; [done|].
    apply stored_entries.
  - unfold inline_data_size. cbn [pb_inline_data set_inline length]. rewrite length_take.
    assert (Hle : Z.of_nat (Z.to_nat (pb_count b) `min` length (pb_bits_queue b)) <= pb_count b) by lia. nia.
Qed.

Lemma take_setZ (q : list Z) n v :
  0 <= n < Z.of_nat (length q) ->
  take (Z.to_nat (n + 1)) (setZ q n v) = take (Z.to_nat n) q ++ [v].
Proof.
  intros Hn. unfold setZ. rewrite (proj2 (Z.leb_le 0 n)) by lia.
  replace (Z.to_nat (n + 1)) with (S (Z.to_nat n)) by lia.
  rewrite (take_S_r _ _ v) by (apply list_lookup_insert_eq; lia).
  by rewrite take_insert_ge by lia.
Qed.

(** Adding an entry to the ones that wait, in either mode. *)
Lemma write_consecutive_spec b aw v :
  ready b aw -> (pb_inlining b = false -> pb_count b < UVM_PTE_BATCH_MAX_PTES) ->
  exists b', uvm_pte_batch_write_consecutive v b = Some b' /\
    pending b' (aw ++ entry_words v (pb_entry_size b)) /\
    pb_push b' = pb_push b /\ pb_first_address b' = pb_first_address b /\ pb_membar b' = pb_membar b.
Proof.
  intros ((Hq & Hu) & Hc & Hs & Hmax & Hend & Hlen & Hdata) Hroom.
  pose proof (entry_words_length v _ Hs) as Hew. assert (0 < pb_entry_size b) by (destruct Hs; lia).
  assert (Hmax' : UVM_PUSH_INLINE_DATA_MAX_SIZE < 2 ^ 32) by by vm_compute.
  unfold uvm_pte_batch_write_consecutive. destruct (pb_inlining b) eqn:Hi.
  - rewrite write_inline_spec; [|done|done|].
    2:{ unfold inline_data_size. rewrite <- (Forall2_length _ _ _ Hdata). lia. }
    cbn [mbind option_bind]. cbn [pb_count set_inline]. rewrite u32_small by (unfold is_u32; nia).
    eexists. split; [done|]. split; [|done]. split; [done|]. right.
    cbn. split; [lia|]. split; [done|]. split; [lia|]. split; [apply Hu|]. split; [lia|].
    split; [rewrite length_app; unfold PTE_WORD in *; lia|].
    apply Forall2_app; [done|apply stored_entry].
  - destruct Hdata as [Hc4 ->]. specialize (Hroom eq_refl).
    rewrite (proj2 (Z.ltb_lt _ _)) by lia. cbn [UVM_ASSERT mbind option_bind pb_count set_queue].
    rewrite u32_small by (unfold is_u32, UVM_PTE_BATCH_MAX_PTES in *; lia).
    eexists. split; [done|]. split; [|done].
    split; [cbn; by rewrite length_setZ|]. right. cbn [pb_count pb_entry_size pb_first_address pb_inlining pb_bits_queue
      set_count set_queue]. rewrite Hi.
    split; [lia|]. split; [done|]. split; [lia|]. split; [apply Hu|]. split; [lia|].
    split; [rewrite length_app; unfold PTE_WORD in *; lia|]. split; [lia|].
    rewrite take_setZ by lia. rewrite fmap_app, concat_app. cbn [fmap list_fmap concat]. by rewrite app_nil_r.
Qed.

(** ** The operations *)

Definition membar_after (ap : uvm_aperture_t) (m : uvm_membar_t) : uvm_membar_t :=
  if aperture_eqb ap UVM_APERTURE_SYS then UVM_MEMBAR_SYS else m.

Lemma promote_spec m0 ap b a :
  batch_inv m0 b a -> batch_inv m0 (promote_membar ap b) a /\
  pb_membar (promote_membar ap b) = membar_after ap (pb_membar b).
Proof. unfold promote_membar, membar_after. destruct (aperture_eqb _ _); done. Qed.

Lemma max_size_facts : 5 * 16 <= UVM_PUSH_INLINE_DATA_MAX_SIZE < 2 ^ 31.
Proof. by vm_compute. Qed.

(** A batch with nothing pending takes an entry at any address. *)
Lemma settled_ready m0 b a pte size :
  settled m0 b a -> span_ok pte size 1 -> is_u64 (phys_address pte) ->
  ready (set_first pte size b) [] /\ pb_inlining (set_first pte size b) = false /\
  pb_count (set_first pte size b) = 0.
Proof.
  intros ((Hq & _) & Hc & Hi & _) (Hs & _ & Hm & H0 & Hend) Hu. pose proof max_size_facts.
  split; [|done]. cbn. split; [done|]. cbn. rewrite Hc, Hi.
  split; [lia|]. split; [done|]. split; [destruct Hs; lia|]. split; [destruct Hs; lia|].
  split; [lia|]. split; [unfold UVM_PTE_BATCH_MAX_PTES; lia|done].
Qed.

Lemma span_u64 pte size count : span_ok pte size count -> is_u64 (phys_address pte).
Proof. intros (Hs & Hc & _ & H0 & Hend). unfold is_u64. destruct Hs; nia. Qed.

(** What follows the choice of where the entry goes. *)
Definition append_pte (pte_bits : Z) (b : uvm_pte_batch_t) : option uvm_pte_batch_t :=
  b ← (if negb (pb_inlining b) && (pb_count b =? UVM_PTE_BATCH_MAX_PTES)
       then pte_batch_begin_inline b else Some b);
  uvm_pte_batch_write_consecutive pte_bits b.

Lemma append_pte_spec m0 b aw a0 m v :
  run_push (pb_push b) m0 = Some m -> refines a0 m -> ready b aw ->
  exists b', append_pte v b = Some b' /\ pb_membar b' = pb_membar b /\
    batch_inv m0 b' (mem_block a0 (phys_aperture (pb_first_address b)) (phys_address (pb_first_address b))
      (aw ++ entry_words v (pb_entry_size b))).
Proof.
  intros Hrun Href Hready. unfold append_pte.
  destruct (negb (pb_inlining b) && (pb_count b =? UVM_PTE_BATCH_MAX_PTES)) eqn:E.
  - apply andb_true_iff in E as [Hi%negb_true_iff _].
    destruct (begin_inline_spec b aw Hready Hi) as (b1 & -> & Hr1 & Hi1 & Hp & Hf & He & Hm & Hc1).
    cbn [mbind option_bind]. destruct (write_consecutive_spec b1 aw v Hr1) as (b2 & E2 & Hpd & Hp2 & Hf2 & Hm2).
    { by rewrite Hi1. }
    exists b2. split; [done|]. split; [congruence|].
    exists a0, m, (aw ++ entry_words v (pb_entry_size b)). rewrite Hp2, Hp, Hf2, Hf, <- He. done.
  - cbn [mbind option_bind]. destruct (write_consecutive_spec b aw v Hready) as (b2 & E2 & Hpd & Hp2 & Hf2 & Hm2).
    { intros Hi. rewrite Hi in E. cbn in E. zify_bool.
      destruct Hready as (_ & _ & _ & _ & _ & _ & Hd). rewrite Hi in Hd. lia. }
    exists b2. split; [done|]. split; [congruence|].
    exists a0, m, (aw ++ entry_words v (pb_entry_size b)). by rewrite Hp2, Hf2.
Qed.

(** An entry that needs no flush comes right after the pending ones. *)
Definition needs_flush (b : uvm_pte_batch_t) (pte : uvm_gpu_phys_address_t) (size : Z) : bool :=
  (UVM_PUSH_INLINE_DATA_MAX_SIZE <? u32 ((pb_count b + 1) * pb_entry_size b)) ||
  negb (uvm_gpu_phys_address_eq pte (phys_add (pb_first_address b) (u32 (pb_count b * size)))) ||
  negb (pb_entry_size b =? size).

Lemma next_ready b aw pte size :
  pending b aw -> needs_flush b pte size = false -> span_ok pte size 1 ->
  ready b aw /\ pb_entry_size b = size /\ phys_aperture pte = phys_aperture (pb_first_address b) /\
  phys_address pte = phys_address (pb_first_address b) + pb_count b * size.
Proof.
  intros [[Hq Hu] Hp] Hnf (Hs & _ & _ & H0 & Hend).
  unfold needs_flush, uvm_gpu_phys_address_eq, aperture_eqb in Hnf.
  apply orb_false_iff in Hnf as [[Hfit%Z.ltb_ge [Hadr%Z.eqb_eq Hap%Z.eqb_eq]%negb_false_iff%andb_true_iff]%orb_false_iff
    <-%negb_false_iff%Z.eqb_eq].
  cbn [phys_address phys_aperture phys_add] in Hadr, Hap.
  assert (Hap' : phys_aperture pte = phys_aperture (pb_first_address b)).
  { destruct (phys_aperture pte), (phys_aperture (pb_first_address b)); done. }
  pose proof max_size_facts as Hmf. assert (Hsz : 8 <= pb_entry_size b <= 16) by (destruct Hs; lia).
  split; [|split; [done|split; [done|]]];
    destruct Hp as [(Hc & Hi & ->)|(Hc & _ & Hmax & Hf0 & Hfe & Hlen & Hd)].
  - rewrite Hc in Hadr. change (u32 (0 * _)) with 0 in Hadr. rewrite Z.add_0_r, u64_small in Hadr by done.
    split; [done|]. rewrite Hc, Hi. split; [lia|]. split; [done|]. split; [lia|].
    split; [lia|]. split; [done|]. split; [by unfold UVM_PTE_BATCH_MAX_PTES|done].
  - rewrite (u32_small (pb_count b * _)), u64_small in Hadr by (unfold is_u64, is_u32; nia).
    rewrite u32_small in Hfit by (unfold is_u32; nia).
    split; [done|]. split; [lia|]. split; [done|]. split; [done|]. split; [lia|]. by split.
  - rewrite Hc in *. change (u32 (0 * _)) with 0 in Hadr. rewrite Z.add_0_r, u64_small in Hadr by done. lia.
  - by rewrite (u32_small (pb_count b * _)), u64_small in Hadr by (unfold is_u64, is_u32; nia).
Qed.

Lemma write_pte_spec m0 b a pte bits size :
  batch_inv m0 b a -> op_ok (WritePte pte bits size) ->
  exists b', uvm_pte_batch_write_pte pte bits size b = Some b' /\
    batch_inv m0 b' (spec_op a (WritePte pte bits size)) /\
    pb_membar b' = membar_after (phys_aperture pte) (pb_membar b).
Proof.
  intros Hinv Hok. pose proof (span_u64 _ _ _ Hok) as Hu.
  destruct (promote_spec m0 (phys_aperture pte) b a Hinv) as [Hinv' Hmb].
  assert (Hsame : pb_first_address (promote_membar (phys_aperture pte) b) = pb_first_address b /\
    pb_count (promote_membar (phys_aperture pte) b) = pb_count b).
  { unfold promote_membar. by destruct (aperture_eqb _ _). }
  unfold uvm_pte_batch_write_pte. destruct Hsame as [<- <-]. revert Hinv' Hmb.
  generalize (promote_membar (phys_aperture pte) b). intros b1 Hinv1 <-.
  fold (needs_flush b1 pte size). destruct (needs_flush b1 pte size) eqn:Hflush.
  - destruct (flush_spec m0 b1 a Hinv1) as (b2 & -> & Hset & Hm). cbn [mbind option_bind].
    destruct (settled_ready _ _ _ _ _ Hset Hok Hu) as (Hready & _).
    destruct Hset as (_ & _ & _ & m & Hrun & Href).
    destruct (append_pte_spec m0 (set_first pte size b2) [] a m bits Hrun Href Hready)
      as (b3 & E & Hm3 & Hinv3).
    exists b3. split; [exact E|]. split; [done|]. rewrite Hm3. done.
  - destruct Hinv1 as (a0 & m & aw & Hrun & Href & Hp & ->).
    destruct (next_ready b1 aw pte size Hp Hflush Hok) as (Hready & Hsz & Hap & Haddr).
    destruct (append_pte_spec m0 b1 aw a0 m bits Hrun Href Hready) as (b3 & E & Hm3 & Hinv3).
    exists b3. split; [exact E|]. split; [|done]. unfold spec_op. cbn [op_words].
    pose proof Hready as (_ & _ & _ & _ & _ & Hlen & _).
    rewrite mem_block_app, Hlen, Hsz in Hinv3. by rewrite Hap, Haddr.
Qed.

(** A fragment of whole entries, written after a flush. *)
Lemma write_fragment_spec m0 b a pte bits size e :
  settled m0 b a -> span_ok pte size e -> 0 < e -> e * size <= UVM_PUSH_INLINE_DATA_MAX_SIZE ->
  e * size = PTE_WORD * Z.of_nat (length bits) ->
  exists b1 b2, pte_batch_begin_inline b = Some b1 /\ uvm_push_inline_data_add bits b1 = Some b2 /\
    batch_inv m0 (set_count e (set_first pte size b2))
      (mem_block a (phys_aperture pte) (phys_address pte) (Some <$> bits)) /\ pb_membar b2 = pb_membar b.
Proof.
  intros ((Hq & _) & Hc & Hi & m & Hrun & Href) Hspan He Hmax Hlen.
  unfold pte_batch_begin_inline. rewrite Hi, Hc, (proj2 (Z.leb_le _ _)) by lia.
  cbn [negb UVM_ASSERT mbind option_bind Z.to_nat take write_inline_all].
  do 2 eexists. split; [done|]. rewrite inline_add_spec.
  2:{ unfold inline_data_size. cbn [set_inline pb_inline_data length]. lia. }
  cbn [set_inline pb_inline_data pb_inlining app]. split; [done|]. split; [|done].
  exists a, m, (Some <$> bits). split; [done|]. split; [done|]. split; [|done].
  pose proof (span_u64 _ _ _ Hspan) as Hu. destruct Hspan as (Hs & _ & _ & H0 & Hend).
  split; [done|]. right. cbn. rewrite length_fmap. split; [done|]. split; [done|]. split; [done|].
  split; [done|]. split; [done|]. split; [done|].
  apply Forall2_fmap_l, Forall_Forall2_diag, Forall_forall. intros x _ y [= ->]. done.
Qed.

Lemma span_rest pte size count e :
  span_ok pte size count -> 0 <= e <= count ->
  span_ok pte size e /\ span_ok (PhysAddr (phys_address pte + e * size) (phys_aperture pte)) size (count - e).
Proof.
  intros (Hs & Hc & Hm & H0 & Hend) He. assert (8 <= size) by (destruct Hs; lia).
  split; (split; [done|]; cbn; nia).
Qed.

Lemma write_ptes_loop_spec m0 size fuel pte bits count b a :
  batch_inv m0 b a -> op_ok (WritePtes pte bits size count) -> count <= Z.of_nat fuel ->
  exists b', write_ptes_loop fuel (UVM_PUSH_INLINE_DATA_MAX_SIZE / size) pte bits size count b = Some b' /\
    batch_inv m0 b' (spec_op a (WritePtes pte bits size count)) /\ pb_membar b' = pb_membar b.
Proof.
  revert pte bits count b a. induction fuel as [|fuel IH]; intros pte bits count b a Hinv Hok Hf.
  all: pose proof Hok as [Hspan Hbits]; pose proof Hspan as (Hs & Hc & Hm & H0 & Hend).
  { cbn [write_ptes_loop]. assert (count = 0) as -> by lia. by exists b. }
  cbn [write_ptes_loop]. destruct (Z.ltb_spec 0 count) as [Hpos|]; [|assert (count = 0) as -> by lia; by exists b].
  destruct (flush_spec m0 b a Hinv) as (b0 & -> & Hset & Hmb). cbn [mbind option_bind].
  set (e := Z.min (UVM_PUSH_INLINE_DATA_MAX_SIZE / size) count).
  pose proof max_size_facts as Hmf. assert (Hsz : 8 <= size <= 16) by (destruct Hs; lia).
  pose proof (Z.div_mod UVM_PUSH_INLINE_DATA_MAX_SIZE size ltac:(lia)) as Hdm.
  pose proof (Z.mod_pos_bound UVM_PUSH_INLINE_DATA_MAX_SIZE size ltac:(lia)) as Hmb'.
  assert (He : 0 < e <= count /\ e * size <= UVM_PUSH_INLINE_DATA_MAX_SIZE) by nia.
  clearbody e. clear Hdm Hmb'. destruct He as [He Hmax].
  assert (H8 : exists w, size = 8 * w /\ 0 < w) by (destruct Hs as [->| ->]; [by exists 1|by exists 2]).
  destruct H8 as (w & Hw & Hw0). unfold op_words, PTE_WORD in *.
  assert (Hdiv : forall x, x * size / 8 = x * w).
  { intros x. rewrite Hw. replace (x * (8 * w)) with (x * w * 8) by lia. apply Z.div_mul. lia. }
  rewrite (u32_small (e * size)), Hdiv by (unfold is_u32; lia).
  replace (size / 8) with w by (rewrite Hw, (Z.mul_comm 8), Z.div_mul; lia).
  rewrite (u32_small (e * w)), (u32_small (count - e)) by (unfold is_u32; nia).
  rewrite (proj2 (Nat.leb_le _ _)) by nia. cbn [UVM_ASSERT].
  destruct (span_rest pte size count e Hspan ltac:(lia)) as [Hspan1 Hspan2].
  destruct (write_fragment_spec m0 b0 a pte (take (Z.to_nat (e * w)) bits) size e)
    as (b1 & b2 & -> & E2 & Hinv2 & Hm2); [done|done|lia|done| |].
  { rewrite length_take. unfold PTE_WORD. nia. }
  cbn [mbind option_bind]. rewrite E2. cbn [mbind option_bind].
  rewrite phys_add_small by nia.
  destruct (IH (PhysAddr (phys_address pte + e * size) (phys_aperture pte)) (drop (Z.to_nat (e * w)) bits) (count - e) _ _ Hinv2) as (b3 & E3 & Hinv3 & Hm3).
  { split; [exact Hspan2|]. rewrite length_drop. unfold PTE_WORD. nia. }
  { lia. }
  exists b3. split; [done|]. split; [|cbn in Hm3; congruence].
  revert Hinv3. unfold spec_op, op_words. unfold PTE_WORD. rewrite !Hdiv. cbn [phys_address phys_aperture].
  replace (Z.to_nat (count * w)) with (Z.to_nat (e * w) + Z.to_nat ((count - e) * w))%nat by nia.
  rewrite <- take_take_drop, fmap_app, mem_block_app, length_fmap, length_take.
  by replace (PTE_WORD * Z.of_nat (Z.to_nat (e * w) `min` length bits)) with (e * size)
    by (unfold PTE_WORD; nia).
Qed.

Lemma stored_replicate n v size :
  size_ok size ->
  Forall2 stored (concat (replicate n (entry_words v size)))
    (replicate (n * Z.to_nat (size / PTE_WORD)) v).
Proof.
  intros Hs. induction n as [|n IH]; [constructor|]. cbn [replicate concat Nat.mul].
  rewrite replicate_add. apply Forall2_app; [|exact IH].
  destruct Hs as [-> | ->]; (repeat constructor; try done; by intros y [= ->]).
Qed.

Lemma clear_ptes_spec m0 b a pte bits size count :
  batch_inv m0 b a -> op_ok (ClearPtes pte bits size count) ->
  exists b', uvm_pte_batch_clear_ptes pte bits size count b = Some b' /\
    batch_inv m0 b' (spec_op a (ClearPtes pte bits size count)) /\
    pb_membar b' = membar_after (phys_aperture pte) (pb_membar b).
Proof.
  intros Hinv (Hs & Hc & Hm & _). unfold uvm_pte_batch_clear_ptes.
  destruct (flush_spec m0 b a Hinv) as (b1 & -> & Hset & Hmb). cbn [mbind option_bind].
  destruct Hset as (Hq & Hc0 & Hi & m & Hrun & Href).
  eexists. split; [done|]. rewrite <- Hmb.
  apply (promote_spec m0 (phys_aperture pte) (set_push _ b1)). apply settled_inv.
  split; [done|]. split; [done|]. split; [done|]. cbn [pb_push set_push].
  assert (H8 : 0 < size) by (destruct Hs; lia).
  rewrite u32_small by (unfold is_u32; nia).
  assert (Hw : size * count mod PTE_WORD = 0 /\
    Z.to_nat (size * count / PTE_WORD) = (Z.to_nat count * Z.to_nat (size / PTE_WORD))%nat).
  { assert (Hd : size = PTE_WORD * (size / PTE_WORD)) by (destruct Hs as [->| ->]; done).
    assert (0 <= size / PTE_WORD) by (destruct Hs as [->| ->]; done).
    rewrite Hd at 1 2. replace (PTE_WORD * (size / PTE_WORD) * count) with (count * (size / PTE_WORD) * PTE_WORD) by lia.
    rewrite Z.mod_mul, Z.div_mul by done. split; [done|]. by rewrite Z2Nat.inj_mul. }
  destruct Hw as [Hmod Hdiv]. eexists. split.
  - eapply run_push_app; [exact Hrun|]. cbn [run_cmds run_cmd]. rewrite Hmod, Hdiv. done.
  - unfold spec_op. cbn [op_words]. apply refines_block; [done|]. by apply stored_replicate.
Qed.

Lemma do_op_spec m0 b a op :
  batch_inv m0 b a -> op_ok op ->
  exists b', do_op op b = Some b' /\ batch_inv m0 b' (spec_op a op) /\
    pb_membar b' = membar_after (op_aperture op) (pb_membar b).
Proof.
  intros Hinv Hok. destruct op as [pte bits size|pte bits size count|pte bits size count]; cbn [do_op].
  - by apply write_pte_spec.
  - pose proof Hok as [(Hs & Hc & _) _]. unfold uvm_pte_batch_write_ptes.
    rewrite (proj2 (Z.eqb_neq size 0)) by (destruct Hs; lia). cbn [negb UVM_ASSERT mbind option_bind].
    destruct (promote_spec m0 (phys_aperture pte) b a Hinv) as [Hinv' Hmb].
    destruct (write_ptes_loop_spec m0 size (Z.to_nat count) pte bits count _ a Hinv' Hok ltac:(lia))
      as (b' & E & Hi & Hm). exists b'. rewrite E, Hm. done.
  - by apply clear_ptes_spec.
Qed.

Definition membar_of_ops (ops : list pte_op) : uvm_membar_t :=
  if existsb (fun op => aperture_eqb (op_aperture op) UVM_APERTURE_SYS) ops
  then UVM_MEMBAR_SYS else UVM_MEMBAR_GPU.

Lemma do_ops_spec m0 b a ops :
  batch_inv m0 b a -> Forall op_ok ops ->
  exists b', do_ops ops b = Some b' /\ batch_inv m0 b' (spec_ops a ops) /\
    pb_membar b' = if existsb (fun op => aperture_eqb (op_aperture op) UVM_APERTURE_SYS) ops
                   then UVM_MEMBAR_SYS else pb_membar b.
Proof.
  intros Hinv Hok. revert b a Hinv. induction Hok as [|op ops Hop _ IH]; intros b a Hinv; [by exists b|].
  destruct (do_op_spec m0 b a op Hinv Hop) as (b1 & E & Hi & Hm). cbn [do_ops]. rewrite E.
  destruct (IH b1 _ Hi) as (b2 & E2 & Hi2 & Hm2). exists b2. split; [done|]. split; [done|].
  rewrite Hm2, Hm. cbn [existsb]. unfold membar_after.
  destruct (aperture_eqb (op_aperture op) _); cbn [orb]; [by destruct (existsb _ ops)|done].
Qed.

(** ** Beginning and ending a batch *)

Lemma begin_inv push m0 m1 :
  run_push push m0 = Some m1 -> batch_inv m0 (uvm_pte_batch_begin push) (specified m1).
Proof.
  intros Hrun. apply settled_inv. split; [by vm_compute|]. split; [done|]. split; [done|].
  exists m1. split; [done|]. by intros ap addr v [= ->].
Qed.

Lemma end_spec m0 b a :
  batch_inv m0 b a ->
  exists body m, uvm_pte_batch_end b = Some (body ++ [WaitForIdle; MembarCmd (pb_membar b)]) /\
    run_push (body ++ [WaitForIdle; MembarCmd (pb_membar b)]) m0 = Some m /\ refines a m.
Proof.
  intros Hinv. destruct (flush_spec m0 b _ Hinv) as (b' & Ef & (_ & _ & _ & m & Hr & Href) & Hm').
  exists (pb_push b'), m. unfold uvm_pte_batch_end. rewrite Ef. cbn [mbind option_bind]. rewrite Hm'.
  split; [done|]. split; [|done]. by eapply run_push_app.
Qed.

(** Methods pushed to the host engine while the batch is open. *)
Lemma host_methods_inv m0 b a words :
  batch_inv m0 b a -> batch_inv m0 (set_push (pb_push b ++ [HostMethods words]) b) a.
Proof.
  intros (a0 & m & aw & Hr & Href & Hp & Ha). exists a0, m, aw. split; [|done].
  cbn [pb_push set_push]. by eapply run_push_app.
Qed.

(** Up to four entries wait in the queue: the batch does not start inline data. *)
Lemma write_pte_queued pte bits size b b' n :
  uvm_pte_batch_write_pte pte bits size b = Some b' -> pb_inlining b = false -> 0 <= pb_count b <= n -> n < UVM_PTE_BATCH_MAX_PTES ->
  pb_inlining b' = false /\ 0 <= pb_count b' <= n + 1.
Proof.
  intros E Hi Hc Hn. unfold UVM_PTE_BATCH_MAX_PTES in *. unfold uvm_pte_batch_write_pte in E.
  set (b0 := promote_membar (phys_aperture pte) b) in *.
  assert (Hb0 : pb_inlining b0 = false /\ pb_count b0 = pb_count b) by (unfold b0, promote_membar; destruct (aperture_eqb _ _); split; (exact Hi || reflexivity)).
  clearbody b0. destruct Hb0 as [Hi0 Hc0]. rewrite <- Hc0 in Hc. clear Hi Hc0. revert E. generalize (pb_count b). intros k.
  match goal with |- context [if ?c then _ else Some b0] => destruct c end.
  - destruct (uvm_pte_batch_flush_ptes b0) as [b1|] eqn:Ef; [|done]. cbn [mbind option_bind].
    assert (Hb1 : pb_inlining b1 = false /\ pb_count b1 = 0).
    { unfold uvm_pte_batch_flush_ptes in Ef. destruct (Z.eqb_spec (pb_count b0) 0) as [H0|H0]; [by injection Ef as <-|].
      rewrite Hi0 in Ef. unfold uvm_pte_batch_flush_ptes_memset, UVM_ASSERT in Ef. rewrite Hi0, (proj2 (Z.eqb_neq _ _) H0) in Ef. cbn [negb mbind option_bind] in Ef.
      destruct (_ <=? _); [|done]. cbn [mbind option_bind] in Ef. by injection Ef as <-. }
    destruct Hb1 as [Hi1 Hc1]. cbn [set_first pb_inlining pb_count]. rewrite Hi1, Hc1. cbn [negb andb Z.eqb mbind option_bind].
    unfold uvm_pte_batch_write_consecutive. cbn [set_first pb_inlining pb_count]. cbn -[u32]. rewrite Hi1, Hc1. cbn -[u32]. rewrite ?Hc1. intros [= <-]. cbn -[u32]. rewrite ?Hi1.
    split; [done|]. change (u32 (0 + 1)) with 1. lia.
  - cbn [mbind option_bind]. unfold UVM_PTE_BATCH_MAX_PTES. rewrite Hi0. rewrite (proj2 (Z.eqb_neq _ _)) by lia. cbn [negb andb mbind option_bind].
    unfold uvm_pte_batch_write_consecutive, UVM_ASSERT. rewrite Hi0. case_match; [|done]. cbn [mbind option_bind]. intros [= <-]. cbn. rewrite Hi0.
    split; [done|]. rewrite u32_small by (unfold is_u32; lia). lia.
Qed.

Lemma do_ops_queued ops b b' n :
  Forall (fun op => match op with WritePte _ _ _ => True | _ => False end) ops ->
  do_ops ops b = Some b' -> pb_inlining b = false -> 0 <= pb_count b <= n -> n + Z.of_nat (length ops) <= UVM_PTE_BATCH_MAX_PTES ->
  pb_inlining b' = false.
Proof.
  intros Hw. revert b n. induction Hw as [|op ops Hop _ IH]; intros b n E Hi Hc Hn; [by injection E as <-|].
  destruct op as [pte bits size|pte bits size count|pte bits size count]; [|done|done]. cbn [do_ops do_op] in E. cbn [length] in Hn.
  destruct (uvm_pte_batch_write_pte pte bits size b) as [b1|] eqn:E1; [|done]. cbn [mbind option_bind] in E.
  destruct (write_pte_queued _ _ _ _ _ n E1 Hi Hc) as [Hi1 Hc1]; [lia|]. apply (IH b1 (n + 1) E Hi1 Hc1). lia.
Qed.

(** C31. A PTE batch implements immediate page table writes: for any sequence
    of single writes, buffer writes and clears of 8- or 16-byte entries, the
    batch fails no assertion (the inline data fragment never passes its
    limit, the queue of four never overflows), and the commands it has pushed
    when it ends, run in order on any memory, leave in memory exactly what
    writing the entries at once, in the order of the calls, would have left,
    up to the upper word of 16-byte entries that were written or cleared one
    by one, which the batch zeroes or keeps.  The push ends with a wait for
    idle and a membar, of system scope iff some entry was in system memory. *)
Theorem pte_batch_refines push m0 m1 ops :
  run_push push m0 = Some m1 -> Forall op_ok ops ->
  exists b body m,
    do_ops ops (uvm_pte_batch_begin push) = Some b /\
    uvm_pte_batch_end b = Some (body ++ [WaitForIdle; MembarCmd (membar_of_ops ops)]) /\
    run_push (body ++ [WaitForIdle; MembarCmd (membar_of_ops ops)]) m0 = Some m /\
    refines (spec_ops (specified m1) ops) m.
Proof.
  intros Hrun Hok. destruct (do_ops_spec m0 _ _ ops (begin_inv push m0 m1 Hrun) Hok) as (b & E & Hinv & Hm).
  destruct (end_spec m0 b _ Hinv) as (body & m & Ee & Hr & Href). rewrite Hm in *. by exists b, body, m.
Qed.

Definition demo_pte_ops : list pte_op :=
  [WritePte (PhysAddr 4096 UVM_APERTURE_VID) 1 8; WritePte (PhysAddr 4104 UVM_APERTURE_VID) 2 8;
   WritePte (PhysAddr 4112 UVM_APERTURE_VID) 3 8; WritePte (PhysAddr 4120 UVM_APERTURE_VID) 4 8;
   WritePte (PhysAddr 4128 UVM_APERTURE_VID) 5 8; WritePtes (PhysAddr 8192 UVM_APERTURE_SYS) [7; 0; 9; 0] 16 2;
   ClearPtes (PhysAddr 4096 UVM_APERTURE_VID) 6 8 2].

Lemma demo_pte_ops_ok : Forall op_ok demo_pte_ops.
Proof.
  repeat constructor; cbn; unfold span_ok, size_ok, PTE_WORD; cbn [phys_address length]; lia.
Qed.

Lemma pte_batch_refines_witness :
  exists b body m,
    do_ops demo_pte_ops (uvm_pte_batch_begin []) = Some b /\
    uvm_pte_batch_end b = Some (body ++ [WaitForIdle; MembarCmd UVM_MEMBAR_SYS]) /\
    run_push (body ++ [WaitForIdle; MembarCmd UVM_MEMBAR_SYS]) (fun _ _ => 0) = Some m /\
    refines (spec_ops (specified (fun _ _ => 0)) demo_pte_ops) m.
Proof. apply (pte_batch_refines [] (fun _ _ => 0) _ demo_pte_ops); [reflexivity|apply demo_pte_ops_ok]. Defined.

(** The same batch, run: five consecutive PTEs become one copy of inline data. *)
Example pte_batch_demo :
  (b ← do_ops demo_pte_ops (uvm_pte_batch_begin []); uvm_pte_batch_end b) =
  Some [InlineData [1; 2; 3; 4; 5]; CeMemcopy (PhysAddr 4096 UVM_APERTURE_VID) 0 40;
        InlineData [7; 0; 9; 0]; CeMemcopy (PhysAddr 8192 UVM_APERTURE_SYS) 2 32;
        CeMemset8 (PhysAddr 4096 UVM_APERTURE_VID) 6 16; WaitForIdle; MembarCmd UVM_MEMBAR_SYS].
Proof. by vm_compute. Qed.
