(* ===== verification/UvmCopyEngine.v ===== *)
(** The order of the writes of a push.  The copies and fills of the modelled code are pushed
    with UVM_PUSH_FLAG_CE_NEXT_PIPELINED (uvm_push.h): the copy engine does not finish one
    before it begins the next, so that their words reach memory in any order.  Only
    uvm_hal_wfi_membar orders them: it waits for the engine to be idle and makes what it
    has written visible, in video memory (UVM_MEMBAR_GPU) or in all memory (UVM_MEMBAR_SYS).

    [gpu_step] is a machine with these rules: words that were issued are pending until they
    are retired, one by one and in any order.  The in-order run of [run_push] is one of its
    runs. *)

From S2P Require Import Prelude UvmBits UvmCommon UvmMmuHal UvmPush UvmHostTlb UvmPteBatch.
Local Open Scope Z_scope.

(** ** The machine *)

Record word_write := WordWrite { ww_aperture : uvm_aperture_t; ww_address : Z; ww_value : Z }.

Fixpoint word_writes (ap : uvm_aperture_t) (addr : Z) (ws : list Z) : list word_write :=
  match ws with
  | [] => []
  | w :: ws' => WordWrite ap addr w :: word_writes ap (addr + PTE_WORD) ws'
  end.

(** The words that a command of the push [p] writes. *)
Definition cmd_writes (p : cmds) (c : push_cmd) : list word_write :=
  match c with
  | InlineData _ | WaitForIdle | MembarCmd _ | HostMethods _ => []
  | CeMemcopy dst src _ =>
      match p !! src with
      | Some (InlineData ws) => word_writes (phys_aperture dst) (phys_address dst) ws
      | _ => []
      end
  | CeMemset8 dst v size => word_writes (phys_aperture dst) (phys_address dst) (replicate (Z.to_nat (size / PTE_WORD)) v)
  end.

Definition writes (p q : cmds) : list word_write := q ≫= cmd_writes p.

(** The memory whose writes a membar makes visible. *)
Definition membar_covers (b : uvm_membar_t) (ap : uvm_aperture_t) : bool :=
  match b with
  | UVM_MEMBAR_NONE => false
  | UVM_MEMBAR_GPU => aperture_eqb ap UVM_APERTURE_VID
  | UVM_MEMBAR_SYS => true
  end.

(** A wait for idle and the membar after it are one command; each on its own does not
    order writes. *)
Definition is_wfi_membar (q : cmds) : bool :=
  match q with WaitForIdle :: MembarCmd _ :: _ => true | _ => false end.

Record gpu := Gpu { g_mem : gpu_mem Z; g_pending : list word_write; g_cmds : cmds }.

Inductive gpu_step (p : cmds) : gpu -> gpu -> Prop :=
| G_retire m pre w post q :
    gpu_step p (Gpu m (pre ++ w :: post) q) (Gpu (mem_write m (ww_aperture w) (ww_address w) (ww_value w)) (pre ++ post) q)
| G_issue m ws c q :
    is_wfi_membar (c :: q) = false ->
    gpu_step p (Gpu m ws (c :: q)) (Gpu m (ws ++ cmd_writes p c) q)
| G_wfi_membar m ws b q :
    Forall (fun w => membar_covers b (ww_aperture w) = false) ws ->
    gpu_step p (Gpu m ws (WaitForIdle :: MembarCmd b :: q)) (Gpu m ws q).

Lemma gpu_step_inv p m ws q g' : gpu_step p (Gpu m ws q) g' ->
  (exists pre w post, ws = pre ++ w :: post /\ g' = Gpu (mem_write m (ww_aperture w) (ww_address w) (ww_value w)) (pre ++ post) q) \/
  (exists c q', q = c :: q' /\ is_wfi_membar q = false /\ g' = Gpu m (ws ++ cmd_writes p c) q') \/
  (exists b q', q = WaitForIdle :: MembarCmd b :: q' /\ Forall (fun w => membar_covers b (ww_aperture w) = false) ws /\ g' = Gpu m ws q').
Proof. inversion 1; subst; [left|right; left|right; right]; eauto 10. Qed.

(** The push [p] runs on the memory [m]. *)
Definition gpu_runs (p : cmds) (m : gpu_mem Z) (g : gpu) : Prop := rtc (gpu_step p) (Gpu m [] p) g.

(** ** The in-order run *)

Lemma retire_all p q ap addr ws m :
  rtc (gpu_step p) (Gpu m (word_writes ap addr ws) q) (Gpu (mem_block m ap addr ws) [] q).
Proof.
  revert m addr. induction ws as [|w ws IH]; intros m addr; [apply rtc_refl|]. cbn [word_writes mem_block].
  eapply rtc_l; [apply (G_retire p m [])|apply IH].
Qed.

Lemma run_cmd_steps p c q m m' : is_wfi_membar (c :: q) = false -> run_cmd p c m = Some m' ->
  rtc (gpu_step p) (Gpu m [] (c :: q)) (Gpu m' [] q).
Proof.
  intros Hc Hr. eapply rtc_l; [by apply G_issue|]. cbn [app].
  destruct c as [ws|dst src size|dst v size| |b|ws]; cbn [run_cmd cmd_writes] in *; try (injection Hr as <-; apply rtc_refl).
  - destruct (p !! src) as [[ws| | | | |]|]; try done. destruct (_ =? _); [|done]. injection Hr as <-. apply retire_all.
  - destruct (_ =? _); [|done]. injection Hr as <-. apply retire_all.
Qed.

Lemma run_cmds_steps p q m m' : run_cmds p q m = Some m' -> rtc (gpu_step p) (Gpu m [] q) (Gpu m' [] []).
Proof.
  remember (length q) as n eqn:Hn. revert q Hn m. induction (lt_wf n) as [n _ IH]; intros q -> m Hr.
  destruct q as [|c q]; [injection Hr as <-; apply rtc_refl|]. destruct (is_wfi_membar (c :: q)) eqn:Ew.
  - destruct c; try done. destruct q as [|[]]; try done. cbn [run_cmds run_cmd mbind option_bind] in Hr.
    eapply rtc_l; [by apply G_wfi_membar|]. eapply IH; [|done|done]. cbn; lia.
  - cbn [run_cmds] in Hr. destruct (run_cmd p c m) as [m1|] eqn:E1; [|done]. cbn [mbind option_bind] in Hr.
    etransitivity; [by eapply run_cmd_steps|]. eapply IH; [|done|done]. cbn; lia.
Qed.

(** Running the commands in order is one run of the machine. *)
Lemma run_push_runs p m m' : run_push p m = Some m' -> gpu_runs p m (Gpu m' [] []).
Proof. apply run_cmds_steps. Qed.

(** ** Between two barriers *)

(** Writes of different values are to different words. *)
Definition unmixed (W : list word_write) : Prop :=
  forall ap y w w', WordWrite ap y w ∈ W -> WordWrite ap y w' ∈ W -> w = w'.

(** From the memory [m0], the writes [W] were issued, and those of [ws] are pending. *)
Record issued (m0 : gpu_mem Z) (W ws : list word_write) (m : gpu_mem Z) : Prop := {
  is_pending : ws ⊆ W;
  is_done : forall ap y w, WordWrite ap y w ∈ W -> WordWrite ap y w ∈ ws \/ m ap y = w;
  is_mem : forall ap y, m ap y = m0 ap y \/ WordWrite ap y (m ap y) ∈ W;
}.

(** All of [W] is in memory, and nothing else was written. *)
Record applied (m0 : gpu_mem Z) (W : list word_write) (m : gpu_mem Z) : Prop := {
  ap_done : forall ap y w, WordWrite ap y w ∈ W -> m ap y = w;
  ap_rest : forall ap y, (forall w, WordWrite ap y w ∉ W) -> m ap y = m0 ap y;
}.

Lemma issued_nil m : issued m [] [] m.
Proof. split; [done|by intros ? ? ? ?%not_elem_of_nil|by left]. Qed.

Lemma issued_more m0 W ws m W' : issued m0 W ws m -> issued m0 (W ++ W') (ws ++ W') m.
Proof.
  intros [I1 I2 I3]. split; [set_solver| |].
  - intros ap y w [H|H]%elem_of_app; [|left; set_solver]. destruct (I2 _ _ _ H); [left; set_solver|by right].
  - intros ap y. destruct (I3 ap y); [by left|right; set_solver].
Qed.

Lemma issued_retire m0 W m pre w post : unmixed W -> issued m0 W (pre ++ w :: post) m ->
  issued m0 W (pre ++ post) (mem_write m (ww_aperture w) (ww_address w) (ww_value w)).
Proof.
  intros Hu [I1 I2 I3]. destruct w as [ap0 y0 w0]. cbn [ww_aperture ww_address ww_value]. assert (Hw : WordWrite ap0 y0 w0 ∈ W) by set_solver. split; [set_solver| |].
  - intros ap y w H. unfold mem_write. case_bool_decide as E; [destruct E as [-> ->]; right; by eapply Hu|].
    destruct (I2 _ _ _ H) as [Hin|]; [left|by right]. apply elem_of_app in Hin as [?|[Heq|?]%elem_of_cons]; [set_solver| |set_solver].
    injection Heq as -> -> ->. tauto.
  - intros ap y. unfold mem_write. case_bool_decide as E; [destruct E as [-> ->]; by right|]. apply I3.
Qed.

Lemma issued_applied m0 W ws m b : issued m0 W ws m -> Forall (fun w => membar_covers b (ww_aperture w) = true) W ->
  Forall (fun w => membar_covers b (ww_aperture w) = false) ws -> ws = [] /\ applied m0 W m.
Proof.
  intros [I1 I2 I3] HW Hws. rewrite Forall_forall in HW. assert (ws = []) as ->.
  { destruct ws as [|w ws]; [done|]. apply Forall_cons in Hws as [Hw _]. rewrite HW in Hw by set_solver. done. }
  split; [done|]. split.
  - intros ap y w H. destruct (I2 _ _ _ H) as [?%not_elem_of_nil|]; done.
  - intros ap y H. destruct (I3 ap y) as [|H']; [done|]. by destruct (H _ H').
Qed.

(** ** Two groups of writes *)

Definition no_wfi (c : push_cmd) : Prop := c <> WaitForIdle.

Lemma no_wfi_first c q : no_wfi c -> is_wfi_membar (c :: q) = false.
Proof. by destruct c. Qed.

Lemma writes_app p q q' : writes p (q ++ q') = writes p q ++ writes p q'.
Proof. apply bind_app. Qed.
Lemma writes_snoc p q c : writes p (q ++ [c]) = writes p q ++ cmd_writes p c.
Proof. rewrite writes_app. unfold writes at 2. cbn. by rewrite app_nil_r. Qed.

Lemma unmixed_app1 W W' : unmixed (W ++ W') -> unmixed W.
Proof. intros H ap y w w' H1 H2. apply (H ap y); apply elem_of_app; by left. Qed.

Section two.
Context (p A B : cmds) (b b' : uvm_membar_t) (words : uvm_push_t) (m0 : gpu_mem Z).
Let WA : list word_write := writes p A.
Let WB : list word_write := writes p B.
Let tail : cmds := [WaitForIdle; MembarCmd b'; HostMethods words].
Context (HnA : Forall no_wfi A) (HnB : Forall no_wfi B) (HuA : unmixed WA) (HuB : unmixed WB).
Context (HcA : Forall (fun w => membar_covers b (ww_aperture w) = true) WA) (HcB : Forall (fun w => membar_covers b' (ww_aperture w) = true) WB).

(** The states of a run of [A], a barrier, [B], a barrier. *)
Inductive two_groups : gpu -> Prop :=
| TG_first A1 A2 ws m : A = A1 ++ A2 -> issued m0 (writes p A1) ws m -> two_groups (Gpu m ws (A2 ++ [WaitForIdle; MembarCmd b] ++ B ++ tail))
| TG_second m1 B1 B2 ws m : B = B1 ++ B2 -> applied m0 WA m1 -> issued m1 (writes p B1) ws m -> two_groups (Gpu m ws (B2 ++ tail))
| TG_end m1 m q : (q = [HostMethods words] \/ q = []) -> applied m0 WA m1 -> applied m1 WB m -> two_groups (Gpu m [] q).

Lemma two_groups_step g g' : two_groups g -> gpu_step p g g' -> two_groups g'.
Proof using All.
  intros Hg Hst. destruct Hg as [A1 A2 ws m E Hi|m1 B1 B2 ws m E Ha Hi|m1 m q Hq Ha1 Ha2];
    apply gpu_step_inv in Hst as [(pre & w & post & Ews & ->)|[(c & q' & Eq & Hw & ->)|(b0 & q' & Eq & Hws & ->)]].
  - eapply TG_first; [exact E|]. apply issued_retire; [|by rewrite <- Ews]. eapply unmixed_app1. rewrite <- writes_app, <- E. exact HuA.
  - destruct A2 as [|c2 A2]; [by rewrite Eq in Hw; injection Eq as <- <-|]. injection Eq as <- <-.
    eapply (TG_first (A1 ++ [c2]) A2); [by rewrite E, <- app_assoc|]. rewrite writes_snoc. by apply issued_more.
  - destruct A2 as [|c2 A2]; [|injection Eq as -> _; rewrite E in HnA; apply Forall_app in HnA as [_ HnA]; by apply Forall_cons in HnA as [? _]].
    injection Eq as <- <-. rewrite app_nil_r in E. rewrite <- E in Hi.
    destruct (issued_applied m0 _ _ _ _ Hi HcA Hws) as [-> Happ]. eapply (TG_second _ [] B); [done|exact Happ|apply issued_nil].
  - eapply TG_second; [exact E|exact Ha|]. apply issued_retire; [|by rewrite <- Ews]. eapply unmixed_app1. rewrite <- writes_app, <- E. exact HuB.
  - destruct B2 as [|c2 B2]; [by rewrite Eq in Hw; injection Eq as <- <-|]. injection Eq as <- <-.
    eapply (TG_second m1 (B1 ++ [c2]) B2); [by rewrite E, <- app_assoc|done|]. rewrite writes_snoc. by apply issued_more.
  - destruct B2 as [|c2 B2]; [|injection Eq as -> _; rewrite E in HnB; apply Forall_app in HnB as [_ HnB]; by apply Forall_cons in HnB as [? _]].
    injection Eq as <- <-. rewrite app_nil_r in E. rewrite <- E in Hi.
    destruct (issued_applied m1 _ _ _ _ Hi HcB Hws) as [-> Happ]. eapply (TG_end m1); [by left|exact Ha|exact Happ].
  - by destruct pre.
  - destruct Hq as [-> | ->]; [|done]. injection Eq as <- <-. eapply (TG_end m1); [by right|done|done].
  - destruct Hq as [-> | ->]; done.
Qed.

Lemma two_groups_runs g : p = A ++ [WaitForIdle; MembarCmd b] ++ B ++ tail -> gpu_runs p m0 g -> two_groups g.
Proof using All.
  intros Ep. unfold gpu_runs. assert (H0 : two_groups (Gpu m0 [] p)).
  { assert (Gpu m0 [] p = Gpu m0 [] (A ++ [WaitForIdle; MembarCmd b] ++ B ++ tail)) as -> by (by f_equal). eapply (TG_first [] A); [done|apply issued_nil]. }
  clear Ep. revert H0. generalize (Gpu m0 [] p). intros g0 H0 Hr. induction Hr as [|g1 g2 g3 Hst _ IH]; [done|]. apply IH. by eapply two_groups_step.
Qed.
End two.
