(* ===== verification/UvmSemaphore.v ===== *)
(** GPU semaphores (uvm_gpu_semaphore.c, uvm_gpu_semaphore.h): the pool that
    hands out 32-bit semaphores from pages, the canaries of freed ones, and the
    64-bit tracking semaphores built on them.

    The CPU mapping of a page is its list of payloads; a semaphore of a pool in
    system memory points into it, a secure one (confidential computing) has an
    index and a cached payload.  [debug] is UVM_IS_DEBUG().  Locks are not
    modelled: every operation runs under the lock of the pool or of the
    semaphore.  The decryption of a secure payload is not modelled: the payload
    an update reads is an argument. *)

From S2P Require Import Prelude UvmBits UvmCommon.
Local Open Scope Z_scope.

Definition UVM_SEMAPHORE_SIZE : Z := 4.
Definition UVM_SEMAPHORE_PAGE_SIZE : Z := 4096.
Definition UVM_SEMAPHORE_COUNT_PER_PAGE : Z := UVM_SEMAPHORE_PAGE_SIZE / UVM_SEMAPHORE_SIZE.
Definition UVM_SEMAPHORE_CANARY_BASE : Z := 0x0badc0de.
Definition UVM_SEMAPHORE_CANARY_MASK : Z := 0xf0000000.

Definition count_per_page : nat := Z.to_nat UVM_SEMAPHORE_COUNT_PER_PAGE.

(** ** Data *)

Record uvm_gpu_semaphore_pool_page_t := PoolPage {
  pg_id : Z;
  pg_cpu_va : Z;
  pg_payloads : list Z;
  pg_free_semaphores : list bool;
}.

Record uvm_gpu_semaphore_pool_t := SemPool {
  pool_conf_computing : bool;
  pool_aperture_vid : bool;
  pool_pages : list uvm_gpu_semaphore_pool_page_t;
  pool_free_semaphores_count : Z;
}.

(** NULL pointers are [None]; the page is named by its address. *)
Record uvm_gpu_semaphore_t := Semaphore {
  sem_page : option Z;
  sem_payload : option Z;
  sem_index : Z;
  sem_cached_payload : Z;
}.

Definition null_semaphore : uvm_gpu_semaphore_t := Semaphore None None 0 0.

Definition set_pages ps n p := SemPool (pool_conf_computing p) (pool_aperture_vid p) ps n.

Definition find_page (p : uvm_gpu_semaphore_pool_t) (id : Z) : option uvm_gpu_semaphore_pool_page_t :=
  List.find (fun pg => pg_id pg =? id) (pool_pages p).

Definition update_page (pg : uvm_gpu_semaphore_pool_page_t) (p : uvm_gpu_semaphore_pool_t)
  : uvm_gpu_semaphore_pool_t :=
  set_pages (map (fun q => if pg_id q =? pg_id pg then pg else q) (pool_pages p))
    (pool_free_semaphores_count p) p.

(** ** Operations *)

Section ops.
Context (debug : bool).
Implicit Types (pool : uvm_gpu_semaphore_pool_t) (semaphore : uvm_gpu_semaphore_t).

Definition gpu_semaphore_pool_is_secure pool : bool := pool_conf_computing pool && pool_aperture_vid pool.

Definition make_canary (payload : Z) : Z :=
  let prev_quadrant := u32 (payload - 2 ^ 30) in
  Z.lor (Z.land prev_quadrant UVM_SEMAPHORE_CANARY_MASK) UVM_SEMAPHORE_CANARY_BASE.

Definition is_canary (val : Z) : bool :=
  Z.land val (2 ^ 32 - 1 - UVM_SEMAPHORE_CANARY_MASK) =? UVM_SEMAPHORE_CANARY_BASE.

Definition semaphore_uses_canary pool : bool := negb (gpu_semaphore_pool_is_secure pool) && debug.

(** The offset of the payload in its page, as an index. *)
Definition get_index pool semaphore : option Z :=
  if gpu_semaphore_pool_is_secure pool then Some (sem_index semaphore)
  else
    payload ← sem_payload semaphore;
    id ← sem_page semaphore;
    pg ← find_page pool id;
    let offset := u32 (payload - pg_cpu_va pg) in
    UVM_ASSERT (offset mod UVM_SEMAPHORE_SIZE =? 0) ;;
    let index := offset / UVM_SEMAPHORE_SIZE in
    UVM_ASSERT (index <? UVM_SEMAPHORE_COUNT_PER_PAGE) ;;
    Some index.

Definition uvm_gpu_semaphore_get_payload pool semaphore : option Z :=
  if gpu_semaphore_pool_is_secure pool then Some (sem_cached_payload semaphore)
  else
    id ← sem_page semaphore;
    pg ← find_page pool id;
    i ← get_index pool semaphore;
    nthZ (pg_payloads pg) i.

Definition uvm_gpu_semaphore_set_payload pool semaphore (payload : Z)
  : option (uvm_gpu_semaphore_pool_t * uvm_gpu_semaphore_t) :=
  if gpu_semaphore_pool_is_secure pool then
    Some (pool, Semaphore (sem_page semaphore) (sem_payload semaphore) (sem_index semaphore) payload)
  else
    id ← sem_page semaphore;
    pg ← find_page pool id;
    i ← get_index pool semaphore;
    Some (update_page (PoolPage (pg_id pg) (pg_cpu_va pg) (setZ (pg_payloads pg) i payload)
                         (pg_free_semaphores pg)) pool, semaphore).

Definition uvm_gpu_semaphore_get_gpu_va pool semaphore (base_va : Z) : option Z :=
  index ← get_index pool semaphore;
  Some (u64 (base_va + u64 (UVM_SEMAPHORE_SIZE * index))).

(** What the kernel and RM answer when a page is allocated: its descriptor, and
    either an error or the address of its mapping, the payloads found in the
    memory, and the last byte of the GPU mapping against the host's limit. *)
Record page_answer := PageAnswer {
  pa_kvmalloc : option Z;
  pa_rm_mem : NV_STATUS + (Z * list Z);
  pa_gpu_va : Z;
  pa_max_host_va : Z;
}.

Definition gpu_can_access_semaphore_pool (a : page_answer) : bool :=
  u64 (pa_gpu_va a + UVM_SEMAPHORE_PAGE_SIZE - 1) <? pa_max_host_va a.

Definition pool_alloc_page (a : page_answer) pool : option (NV_STATUS * uvm_gpu_semaphore_pool_t) :=
  match pa_kvmalloc a with
  | None => Some (NV_ERR_NO_MEMORY, pool)
  | Some id =>
      match pa_rm_mem a with
      | inl status => Some (status, pool)
      | inr (cpu_va, contents) =>
          UVM_ASSERT (gpu_can_access_semaphore_pool a) ;;
          let payloads := if semaphore_uses_canary pool
                          then replicate count_per_page (make_canary 0) else contents in
          let page := PoolPage id cpu_va payloads (replicate count_per_page true) in
          Some (NV_OK, set_pages (page :: pool_pages pool)
                         (u32 (pool_free_semaphores_count pool + UVM_SEMAPHORE_COUNT_PER_PAGE)) pool)
      end
  end.

Definition pool_free_page (page : uvm_gpu_semaphore_pool_page_t) pool : option uvm_gpu_semaphore_pool_t :=
  UVM_ASSERT (forallb (fun b => b) (pg_free_semaphores page)) ;;
  UVM_ASSERT (UVM_SEMAPHORE_COUNT_PER_PAGE <=? pool_free_semaphores_count pool) ;;
  UVM_ASSERT (negb (semaphore_uses_canary pool) || forallb is_canary (pg_payloads page)) ;;
  Some (set_pages (List.filter (fun q => negb (pg_id q =? pg_id page)) (pool_pages pool))
          (u32 (pool_free_semaphores_count pool - UVM_SEMAPHORE_COUNT_PER_PAGE)) pool).

(** [find_first_bit]: the length of the bitmap when no bit is set. *)
Fixpoint find_first_bit (bits : list bool) : Z :=
  match bits with
  | [] => 0
  | true :: _ => 0
  | false :: bits' => 1 + find_first_bit bits'
  end.

(** The loop over the pages: the first page with a free semaphore. *)
Fixpoint first_free (pages : list uvm_gpu_semaphore_pool_page_t)
  : option (uvm_gpu_semaphore_pool_page_t * Z) :=
  match pages with
  | [] => None
  | page :: pages' =>
      let semaphore_index := find_first_bit (pg_free_semaphores page) in
      if semaphore_index =? UVM_SEMAPHORE_COUNT_PER_PAGE then first_free pages'
      else Some (page, semaphore_index)
  end.

Definition clear_bit (page i : Z) pool : option uvm_gpu_semaphore_pool_t :=
  pg ← find_page pool page;
  Some (update_page (PoolPage (pg_id pg) (pg_cpu_va pg) (pg_payloads pg)
                       (setZ (pg_free_semaphores pg) i false)) pool).
Definition set_bit (page i : Z) pool : option uvm_gpu_semaphore_pool_t :=
  pg ← find_page pool page;
  Some (update_page (PoolPage (pg_id pg) (pg_cpu_va pg) (pg_payloads pg)
                       (setZ (pg_free_semaphores pg) i true)) pool).
Definition count_add (n : Z) pool : uvm_gpu_semaphore_pool_t :=
  set_pages (pool_pages pool) (u32 (pool_free_semaphores_count pool + n)) pool.

Definition uvm_gpu_semaphore_alloc (a : page_answer) pool
  : option (NV_STATUS * uvm_gpu_semaphore_pool_t * uvm_gpu_semaphore_t) :=
  '(status, pool) ← (if pool_free_semaphores_count pool =? 0
                     then pool_alloc_page a pool else Some (NV_OK, pool));
  if decide (status = NV_OK) then
    '(page, semaphore_index) ← first_free (pool_pages pool);
    let semaphore :=
      if gpu_semaphore_pool_is_secure pool
      then Semaphore (Some (pg_id page)) None semaphore_index 0
      else Semaphore (Some (pg_id page))
             (Some (u64 (pg_cpu_va page + semaphore_index * UVM_SEMAPHORE_SIZE))) 0 0 in
    (if semaphore_uses_canary pool then
       payload ← uvm_gpu_semaphore_get_payload pool semaphore;
       UVM_ASSERT (is_canary payload)
     else Some tt) ;;
    '(pool, semaphore) ← uvm_gpu_semaphore_set_payload pool semaphore 0;
    pool ← clear_bit (pg_id page) semaphore_index pool;
    Some (NV_OK, count_add (-1) pool, semaphore)
  else Some (status, pool, null_semaphore).

Definition uvm_gpu_semaphore_free pool semaphore
  : option (uvm_gpu_semaphore_pool_t * uvm_gpu_semaphore_t) :=
  match sem_page semaphore with
  | None => Some (pool, semaphore)
  | Some page =>
      index ← get_index pool semaphore;
      '(pool, semaphore) ←
        (if semaphore_uses_canary pool then
           payload ← uvm_gpu_semaphore_get_payload pool semaphore;
           uvm_gpu_semaphore_set_payload pool semaphore (make_canary payload)
         else Some (pool, semaphore));
      pool ← set_bit page index (count_add 1 pool);
      Some (pool, Semaphore None None (sem_index semaphore) (sem_cached_payload semaphore))
  end.

(** [kv]: whether the allocation of the pool succeeds. *)
Definition uvm_gpu_semaphore_pool_create (kv conf_computing : bool)
  : NV_STATUS * option uvm_gpu_semaphore_pool_t :=
  if kv then (NV_OK, Some (SemPool conf_computing false [] 0)) else (NV_ERR_NO_MEMORY, None).

Definition uvm_gpu_semaphore_secure_pool_create (kv conf_computing : bool)
  : option (NV_STATUS * option uvm_gpu_semaphore_pool_t) :=
  UVM_ASSERT conf_computing ;;
  let '(status, pool) := uvm_gpu_semaphore_pool_create kv conf_computing in
  Some (status, (fun p => SemPool (pool_conf_computing p) true (pool_pages p)
                            (pool_free_semaphores_count p)) <$> pool).

Fixpoint free_pages (pages : list uvm_gpu_semaphore_pool_page_t) pool : option uvm_gpu_semaphore_pool_t :=
  match pages with
  | [] => Some pool
  | page :: pages' => pool ← pool_free_page page pool; free_pages pages' pool
  end.

Definition uvm_gpu_semaphore_pool_destroy pool : option uvm_gpu_semaphore_pool_t :=
  pool ← free_pages (pool_pages pool) pool;
  UVM_ASSERT (pool_free_semaphores_count pool =? 0) ;;
  UVM_ASSERT (bool_decide (length (pool_pages pool) = 0%nat)) ;;
  Some pool.
End ops.

(** ** Slots: a page and an index *)

Definition page_bits (pg : uvm_gpu_semaphore_pool_page_t) : nat :=
  length (List.filter (fun b : bool => b) (pg_free_semaphores pg)).
Definition free_total (pages : list uvm_gpu_semaphore_pool_page_t) : nat := sum_list_with page_bits pages.

Definition slot_bit (pool : uvm_gpu_semaphore_pool_t) (sl : Z * Z) : option bool :=
  pg ← find_page pool sl.1; nthZ (pg_free_semaphores pg) sl.2.
Definition slot_payload (pool : uvm_gpu_semaphore_pool_t) (sl : Z * Z) : option Z :=
  pg ← find_page pool sl.1; nthZ (pg_payloads pg) sl.2.

Definition slot_of (pool : uvm_gpu_semaphore_pool_t) (s : uvm_gpu_semaphore_t) : option (Z * Z) :=
  id ← sem_page s; i ← get_index pool s; Some (id, i).

Definition page_ok (pg : uvm_gpu_semaphore_pool_page_t) : Prop :=
  length (pg_payloads pg) = count_per_page /\ length (pg_free_semaphores pg) = count_per_page /\
  0 <= pg_cpu_va pg <= 2 ^ 64 - UVM_SEMAPHORE_PAGE_SIZE.

(** The free count is the number of set bits, the clear bits are the slots of
    the live semaphores, and the free slots hold canaries. *)
Record slots_inv (debug : bool) (pool : uvm_gpu_semaphore_pool_t) (live : list (Z * Z)) : Prop := {
  si_ids : NoDup (pg_id <$> pool_pages pool);
  si_pages : Forall page_ok (pool_pages pool);
  si_bound : Z.of_nat (length (pool_pages pool)) * UVM_SEMAPHORE_COUNT_PER_PAGE < 2 ^ 32;
  si_count : pool_free_semaphores_count pool = Z.of_nat (free_total (pool_pages pool));
  si_live : NoDup live /\ forall sl, sl ∈ live <-> slot_bit pool sl = Some false;
  si_canary : semaphore_uses_canary debug pool = true ->
    forall sl v, slot_bit pool sl = Some true -> slot_payload pool sl = Some v -> is_canary v = true;
}.

(** Writing one slot of a page. *)
Definition write_page (pg : uvm_gpu_semaphore_pool_page_t) (i : Z) (b : bool) (v : Z) :=
  PoolPage (pg_id pg) (pg_cpu_va pg) (setZ (pg_payloads pg) i v) (setZ (pg_free_semaphores pg) i b).

Lemma find_page_In pool id pg : find_page pool id = Some pg -> pg ∈ pool_pages pool /\ pg_id pg = id.
Proof. intros [H E]%List.find_some. apply Z.eqb_eq in E. by split; [apply list_elem_of_In|]. Qed.

Lemma find_page_None pool id : id ∉ (pg_id <$> pool_pages pool) <-> find_page pool id = None.
Proof.
  unfold find_page. induction (pool_pages pool) as [|q l IH]; cbn; [set_solver|].
  destruct (Z.eqb_spec (pg_id q) id); [set_solver|]. rewrite <- IH, not_elem_of_cons. naive_solver.
Qed.

Lemma update_page_split pool pg old :
  NoDup (pg_id <$> pool_pages pool) -> find_page pool (pg_id pg) = Some old ->
  exists l1 l2, pool_pages pool = l1 ++ old :: l2 /\ pool_pages (update_page pg pool) = l1 ++ pg :: l2.
Proof.
  intros Hnd Hf. destruct (find_page_In _ _ _ Hf) as [[l1 [l2 E]]%list_elem_of_split Hid].
  exists l1, l2. split; [done|]. cbn. rewrite E in *.
  rewrite fmap_app, fmap_cons, NoDup_app in Hnd. destruct Hnd as (_ & H1 & [H2 _]%NoDup_cons).
  assert (Hk : forall l, pg_id pg ∉ (pg_id <$> l) ->
    map (fun q => if pg_id q =? pg_id pg then pg else q) l = l).
  { intros l Hl. induction l as [|q l IH]; [done|]. rewrite fmap_cons in Hl.
    apply not_elem_of_cons in Hl as [Hne Hl]. cbn. rewrite IH by done.
    by rewrite (proj2 (Z.eqb_neq _ _)). }
  rewrite map_app. cbn [map]. rewrite Hid, Z.eqb_refl, !Hk; [done|congruence|].
  intros Hin. apply (H1 _ Hin). rewrite <- Hid. by left.
Qed.

Lemma find_page_update pool pg old id :
  find_page pool (pg_id pg) = Some old ->
  find_page (update_page pg pool) id = if decide (id = pg_id pg) then Some pg else find_page pool id.
Proof.
  unfold find_page, update_page. cbn. induction (pool_pages pool) as [|q l IH]; [done|]. cbn.
  destruct (Z.eqb_spec (pg_id q) (pg_id pg)) as [E|Hne].
  - intros _. destruct (decide (id = pg_id pg)) as [->|Hid]; [by rewrite Z.eqb_refl|].
    rewrite (proj2 (Z.eqb_neq (pg_id pg) id)), (proj2 (Z.eqb_neq (pg_id q) id)) by congruence.
    clear IH. induction l as [|r l IH]; [done|]. cbn.
    destruct (Z.eqb_spec (pg_id r) (pg_id pg)) as [E2|].
    + by rewrite (proj2 (Z.eqb_neq (pg_id pg) id)), (proj2 (Z.eqb_neq (pg_id r) id)) by congruence.
    + by destruct (pg_id r =? id).
  - intros Hf. destruct (Z.eqb_spec (pg_id q) id) as [<-|]; [by rewrite decide_False|by apply IH].
Qed.

Lemma update_update pool pg1 pg2 :
  pg_id pg1 = pg_id pg2 -> update_page pg2 (update_page pg1 pool) = update_page pg2 pool.
Proof.
  intros E. unfold update_page, set_pages. cbn. f_equal. rewrite map_map. apply map_ext. intros q.
  destruct (Z.eqb_spec (pg_id q) (pg_id pg1)) as [Eq|Hne].
  - by rewrite E, Z.eqb_refl, (proj2 (Z.eqb_eq _ _)) by congruence.
  - done.
Qed.

Definition b2n (b : bool) : nat := if b then 1%nat else 0%nat.

Lemma filter_setZ (l : list bool) i b0 b :
  nthZ l i = Some b0 ->
  (length (List.filter (fun b : bool => b) (setZ l i b)) + b2n b0 =
   length (List.filter (fun b : bool => b) l) + b2n b)%nat.
Proof.
  unfold nthZ, setZ. destruct (0 <=? i); [|done]. intros H.
  rewrite <- (take_drop_middle l _ _ H) at 2. rewrite (insert_take_drop l) by by eapply lookup_lt_Some.
  rewrite !List.filter_app, !length_app. cbn. destruct b, b0; cbn; lia.
Qed.

Lemma write_page_ok pg i b v : page_ok pg -> page_ok (write_page pg i b v).
Proof. intros (H1 & H2 & H3). split; [|split]; cbn; by rewrite ?length_setZ. Qed.

Section write.
Context (debug : bool) (pool : uvm_gpu_semaphore_pool_t) (pg : uvm_gpu_semaphore_pool_page_t).
Context (i : Z) (b0 b : bool) (v : Z).
Context (Hpg : find_page pool (pg_id pg) = Some pg) (Hb0 : nthZ (pg_free_semaphores pg) i = Some b0).

Local Abbreviation pool' := (update_page (write_page pg i b v) pool).

Lemma write_find id :
  find_page pool' id = if decide (id = pg_id pg) then Some (write_page pg i b v) else find_page pool id.
Proof. by apply (find_page_update pool (write_page pg i b v) pg). Qed.

Lemma write_bit sl :
  slot_bit pool' sl = if decide (sl = (pg_id pg, i)) then Some b else slot_bit pool sl.
Proof.
  unfold slot_bit. rewrite write_find. destruct sl as [id j]; cbn.
  pose proof (nthZ_lt _ _ _ Hb0) as Hr. destruct (decide (id = pg_id pg)) as [->|Hid]; cbn.
  - destruct (decide ((pg_id pg, j) = (pg_id pg, i))) as [[= ->]|Hne].
    + by apply nthZ_setZ_eq.
    + rewrite Hpg. cbn. apply nthZ_setZ_ne. congruence.
  - by rewrite decide_False by congruence.
Qed.

Lemma write_payload sl :
  page_ok pg ->
  slot_payload pool' sl = if decide (sl = (pg_id pg, i)) then Some v else slot_payload pool sl.
Proof.
  intros (Hl1 & Hl2 & _). unfold slot_payload. rewrite write_find. destruct sl as [id j]; cbn.
  pose proof (nthZ_lt _ _ _ Hb0) as Hr. destruct (decide (id = pg_id pg)) as [->|Hid]; cbn.
  - destruct (decide ((pg_id pg, j) = (pg_id pg, i))) as [[= ->]|Hne].
    + apply nthZ_setZ_eq. by rewrite Hl1, <- Hl2.
    + rewrite Hpg. cbn. apply nthZ_setZ_ne. congruence.
  - by rewrite decide_False by congruence.
Qed.

Lemma write_index s : get_index pool' s = get_index pool s.
Proof.
  unfold get_index. destruct (gpu_semaphore_pool_is_secure pool) eqn:E;
    [by replace (gpu_semaphore_pool_is_secure pool') with true|].
  replace (gpu_semaphore_pool_is_secure pool') with false.
  destruct (sem_payload s) as [pl|], (sem_page s) as [id|]; cbn [mbind option_bind]; try done.
  rewrite write_find. by destruct (decide (id = pg_id pg)) as [->|]; [rewrite Hpg|].
Qed.

Lemma write_slot_of s : slot_of pool' s = slot_of pool s.
Proof. unfold slot_of. destruct (sem_page s); cbn [mbind option_bind]; [by rewrite write_index|done]. Qed.

Lemma write_inv live live' n :
  slots_inv debug pool live ->
  n = pool_free_semaphores_count pool + Z.of_nat (b2n b) - Z.of_nat (b2n b0) ->
  NoDup live' ->
  (forall sl, sl ∈ live' <-> if decide (sl = (pg_id pg, i)) then b = false else sl ∈ live) ->
  (b = true -> semaphore_uses_canary debug pool = true -> is_canary v = true) ->
  slots_inv debug (set_pages (pool_pages pool') n pool') live'.
Proof.
  intros [H1 H2 H3 H4 [H5 H6] H7] -> Hnd Hlive Hcan.
  destruct (update_page_split pool (write_page pg i b v) pg H1 Hpg) as (l1 & l2 & E1 & E2).
  assert (Hok : page_ok pg).
  { rewrite Forall_forall in H2. apply H2. apply (find_page_In _ _ _ Hpg). }
  split; cbn [set_pages pool_pages pool_free_semaphores_count].
  - rewrite E2. rewrite E1 in H1. by rewrite fmap_app, fmap_cons in *.
  - rewrite E2. rewrite E1 in H2. apply Forall_app in H2 as [Ha Hb]. apply Forall_app. split; [done|].
    inversion_clear Hb. constructor; [by apply write_page_ok|done].
  - rewrite E2. rewrite E1 in H3. by rewrite !length_app in *.
  - rewrite H4, E1, E2. unfold free_total. rewrite !sum_list_with_app. cbn.
    pose proof (filter_setZ _ _ _ b Hb0). unfold page_bits. cbn. lia.
  - split; [done|]. intros sl. rewrite Hlive.
    change (slot_bit _ sl) with (slot_bit pool' sl). rewrite write_bit. case_decide; [|apply H6].
    split; [by intros ->|by intros [= ->]].
  - change (semaphore_uses_canary debug _) with (semaphore_uses_canary debug pool). intros Hc sl w.
    change (slot_bit _ sl) with (slot_bit pool' sl). change (slot_payload _ sl) with (slot_payload pool' sl).
    rewrite write_bit, write_payload by done. case_decide; [|by apply H7].
    intros [= ->] [= <-]. by apply Hcan.
Qed.
End write.

(** ** Canaries *)

Lemma land_top_nibble x :
  is_u32 x -> Z.land x UVM_SEMAPHORE_CANARY_MASK = x / 2 ^ 28 * 2 ^ 28.
Proof.
  intros [H1 H2]. rewrite <- Z.shiftr_div_pow2, <- Z.shiftl_mul_pow2, <- Z.ldiff_ones_r by lia.
  apply Z.bits_inj'. intros i Hi. rewrite Z.land_spec, Z.ldiff_spec, Z.testbit_ones_nonneg by lia.
  replace UVM_SEMAPHORE_CANARY_MASK with (Z.ldiff (Z.ones 32) (Z.ones 28)) by reflexivity.
  rewrite Z.ldiff_spec, !Z.testbit_ones_nonneg by lia.
  destruct (Z.ltb_spec i 32); cbn; [done|].
  replace (Z.testbit x i) with false; [done|]. symmetry.
  destruct (decide (x = 0)) as [->|]; [apply Z.bits_0|]. apply Z.bits_above_log2; [done|].
  apply Z.lt_le_trans with 32; [|done]. apply Z.log2_lt_pow2; lia.
Qed.

(** A canary keeps the top nibble of the previous quadrant. *)
Lemma make_canary_eq payload :
  make_canary payload = u32 (payload - 2 ^ 30) / 2 ^ 28 * 2 ^ 28 + UVM_SEMAPHORE_CANARY_BASE.
Proof.
  unfold make_canary. rewrite land_top_nibble by apply u32_range.
  symmetry. rewrite Z.add_nocarry_lxor, Z.lxor_lor; [done| |].
  all: rewrite <- Z.shiftl_mul_pow2 by lia; apply Z.bits_inj'; intros i Hi;
    rewrite Z.land_spec, Z.bits_0, Z.shiftl_spec by done; destruct (Z.ltb_spec i 28) as [Hlt|Hge];
    [by rewrite (Z.testbit_neg_r _ (i - 28)) by lia|].
  all: rewrite (Z.bits_above_log2 UVM_SEMAPHORE_CANARY_BASE), andb_false_r; [done|done|].
  all: apply Z.lt_le_trans with 28; [by vm_compute|done].
Qed.

Lemma make_canary_is payload : is_canary (make_canary payload) = true.
Proof.
  unfold is_canary. rewrite make_canary_eq. apply Z.eqb_eq.
  replace (2 ^ 32 - 1 - UVM_SEMAPHORE_CANARY_MASK) with (Z.ones 28) by reflexivity.
  rewrite Z.land_ones by lia. rewrite Z.add_comm, Z.mod_add by lia. by vm_compute.
Qed.

(** The canary is behind the payload on the 32-bit wheel, by less than half. *)
Lemma make_canary_behind payload :
  0 < (payload - make_canary payload) mod 2 ^ 32 < 2 ^ 31.
Proof.
  rewrite make_canary_eq. unfold u32, wrap. set (q := (payload - 2 ^ 30) mod 2 ^ 32).
  pose proof (Z.div_mod q (2 ^ 28) ltac:(lia)). pose proof (Z.mod_pos_bound q (2 ^ 28) ltac:(lia)).
  assert (E : (payload - (q / 2 ^ 28 * 2 ^ 28 + UVM_SEMAPHORE_CANARY_BASE)) mod 2 ^ 32 =
              2 ^ 30 + q mod 2 ^ 28 - UVM_SEMAPHORE_CANARY_BASE).
  { symmetry. apply (Z.mod_unique_pos _ _ ((payload - 2 ^ 30) / 2 ^ 32));
      [unfold UVM_SEMAPHORE_CANARY_BASE; lia|].
    pose proof (Z.div_mod (payload - 2 ^ 30) (2 ^ 32) ltac:(lia)). subst q. lia. }
  rewrite E. unfold UVM_SEMAPHORE_CANARY_BASE. lia.
Qed.

(** ** Allocation *)

Lemma find_first_bit_spec bits :
  (exists i, find_first_bit bits = i /\ nthZ bits i = Some true) \/
  (find_first_bit bits = Z.of_nat (length bits) /\ List.filter (fun b : bool => b) bits = []).
Proof.
  induction bits as [|[] bits IH]; cbn -[Z.add]; [by right|left; by exists 0|].
  destruct IH as [(i & -> & Hi)|[-> Hn]]; [left|right; split; [lia|done]].
  exists (1 + i). split; [done|]. pose proof (nthZ_lt _ _ _ Hi). unfold nthZ in *.
  rewrite (proj2 (Z.leb_le 0 i)) in Hi by lia. rewrite (proj2 (Z.leb_le 0 (1 + i))) by lia.
  by replace (Z.to_nat (1 + i)) with (S (Z.to_nat i)) by lia.
Qed.

Lemma first_free_spec pages :
  Forall page_ok pages -> (0 < free_total pages)%nat ->
  exists page i, first_free pages = Some (page, i) /\ page ∈ pages /\
    nthZ (pg_free_semaphores page) i = Some true.
Proof.
  induction 1 as [|page pages (Hl1 & Hl2 & Hva) Hok IH]; cbn; [lia|]. intros Hpos.
  destruct (find_first_bit_spec (pg_free_semaphores page)) as [(i & -> & Hi)|[-> Hn]].
  - exists page, i. pose proof (nthZ_lt _ _ _ Hi) as Hr. rewrite Hl2 in Hr.
    assert (Hc : Z.of_nat count_per_page = UVM_SEMAPHORE_COUNT_PER_PAGE) by reflexivity.
    rewrite (proj2 (Z.eqb_neq _ _)) by lia. split; [done|]. split; [by left|done].
  - rewrite Hl2. change (Z.of_nat count_per_page =? UVM_SEMAPHORE_COUNT_PER_PAGE) with true. cbn.
    destruct IH as (q & j & H1 & H2 & H3).
    + unfold page_bits in Hpos. by rewrite Hn in Hpos.
    + exists q, j. split; [done|]. split; [by right|done].
Qed.

Lemma free_total_le pages :
  Forall page_ok pages -> Z.of_nat (free_total pages) <= Z.of_nat (length pages) * UVM_SEMAPHORE_COUNT_PER_PAGE.
Proof.
  change UVM_SEMAPHORE_COUNT_PER_PAGE with 1024.
  induction 1 as [|page pages (Hl1 & Hl2 & Hva) Hok IH]; [done|].
  assert (page_bits page <= count_per_page)%nat.
  { unfold page_bits. rewrite <- Hl2. apply List.filter_length_le. }
  change count_per_page with 1024%nat in *. unfold free_total in *. cbn [sum_list_with length]. lia.
Qed.

Lemma find_page_elem pool pg :
  NoDup (pg_id <$> pool_pages pool) -> pg ∈ pool_pages pool -> find_page pool (pg_id pg) = Some pg.
Proof.
  unfold find_page. induction (pool_pages pool) as [|q l IH]; [set_solver|].
  rewrite fmap_cons, NoDup_cons. intros [Hq Hnd] [->|Hin]%elem_of_cons; cbn; [by rewrite Z.eqb_refl|].
  destruct (Z.eqb_spec (pg_id q) (pg_id pg)) as [E|]; [|by apply IH].
  exfalso. apply Hq. rewrite E. apply list_elem_of_fmap. eauto.
Qed.

Definition slot_semaphore pool (pg : uvm_gpu_semaphore_pool_page_t) (i : Z) : uvm_gpu_semaphore_t :=
  if gpu_semaphore_pool_is_secure pool then Semaphore (Some (pg_id pg)) None i 0
  else Semaphore (Some (pg_id pg)) (Some (u64 (pg_cpu_va pg + i * UVM_SEMAPHORE_SIZE))) 0 0.

Lemma slot_semaphore_index pool pg i :
  find_page pool (pg_id pg) = Some pg -> page_ok pg -> 0 <= i < UVM_SEMAPHORE_COUNT_PER_PAGE ->
  get_index pool (slot_semaphore pool pg i) = Some i.
Proof.
  intros Hf (_ & _ & Hva) Hi. change UVM_SEMAPHORE_COUNT_PER_PAGE with 1024 in Hi.
  change UVM_SEMAPHORE_PAGE_SIZE with 4096 in Hva. unfold get_index, slot_semaphore.
  destruct (gpu_semaphore_pool_is_secure pool); [done|]. cbn [sem_payload sem_page mbind option_bind].
  rewrite Hf. cbn [mbind option_bind]. change UVM_SEMAPHORE_SIZE with 4.
  rewrite u64_small by (unfold is_u64; lia). rewrite u32_small by (unfold is_u32; lia).
  replace (pg_cpu_va pg + i * 4 - pg_cpu_va pg) with (i * 4) by lia.
  rewrite Z.mod_mul, Z.div_mul by lia. change UVM_SEMAPHORE_COUNT_PER_PAGE with 1024.
  by rewrite (proj2 (Z.ltb_lt i 1024)) by lia.
Qed.

(** Adding a page. *)
Definition answer_ok (a : page_answer) (pool : uvm_gpu_semaphore_pool_t) : Prop :=
  (Z.of_nat (length (pool_pages pool)) + 1) * UVM_SEMAPHORE_COUNT_PER_PAGE < 2 ^ 32 /\
  gpu_can_access_semaphore_pool a = true /\
  (forall id, pa_kvmalloc a = Some id -> id ∉ (pg_id <$> pool_pages pool)) /\
  match pa_rm_mem a with
  | inl status => status <> NV_OK
  | inr (cpu_va, contents) =>
      length contents = count_per_page /\ 0 <= cpu_va <= 2 ^ 64 - UVM_SEMAPHORE_PAGE_SIZE
  end.

Definition keeps_slots (pool pool' : uvm_gpu_semaphore_pool_t) : Prop :=
  forall s sl, slot_of pool s = Some sl -> slot_of pool' s = Some sl.

Lemma keeps_slots_trans p1 p2 p3 : keeps_slots p1 p2 -> keeps_slots p2 p3 -> keeps_slots p1 p3.
Proof. intros H1 H2 s sl H. by apply H2, H1. Qed.

Lemma add_page_inv debug pool live id cpu_va payloads :
  slots_inv debug pool live -> id ∉ (pg_id <$> pool_pages pool) ->
  (Z.of_nat (length (pool_pages pool)) + 1) * UVM_SEMAPHORE_COUNT_PER_PAGE < 2 ^ 32 ->
  length payloads = count_per_page -> 0 <= cpu_va <= 2 ^ 64 - UVM_SEMAPHORE_PAGE_SIZE ->
  (semaphore_uses_canary debug pool = true -> payloads = replicate count_per_page (make_canary 0)) ->
  let pool' := set_pages (PoolPage id cpu_va payloads (replicate count_per_page true) :: pool_pages pool)
                 (u32 (pool_free_semaphores_count pool + UVM_SEMAPHORE_COUNT_PER_PAGE)) pool in
  slots_inv debug pool' live /\ keeps_slots pool pool' /\ (0 < free_total (pool_pages pool'))%nat /\
  (forall sl, is_Some (slot_bit pool sl) -> slot_payload pool' sl = slot_payload pool sl).
Proof.
  intros [H1 H2 H3 H4 [H5 H6] H7] Hid Hb Hl Hva Hcan pool'.
  set (page := PoolPage id cpu_va payloads (replicate count_per_page true)) in *.
  assert (Hfind : forall j, find_page pool' j = if id =? j then Some page else find_page pool j) by done.
  assert (Hnone : find_page pool id = None) by by apply find_page_None.
  assert (Hpb : page_bits page = count_per_page) by by vm_compute.
  assert (Hc : Z.of_nat count_per_page = UVM_SEMAPHORE_COUNT_PER_PAGE) by reflexivity.
  pose proof (free_total_le _ H2) as Hle.
  assert (Hkeep : forall j, is_Some (find_page pool j) -> find_page pool' j = find_page pool j).
  { intros j [pg Hj]. rewrite Hfind. destruct (Z.eqb_spec id j) as [<-|]; congruence. }
  split_and!.
  - split; cbn [pool' set_pages pool_pages pool_free_semaphores_count].
    + rewrite fmap_cons. by apply NoDup_cons.
    + constructor; [|done]. split_and!; [done|by apply length_replicate|apply Hva|apply Hva].
    + cbn [length]. lia.
    + change (free_total (page :: pool_pages pool)) with (page_bits page + free_total (pool_pages pool))%nat.
      rewrite H4, Hpb, u32_small by (unfold is_u32; lia). lia.
    + split; [done|]. intros sl. rewrite H6. unfold slot_bit. rewrite Hfind.
      destruct (Z.eqb_spec id sl.1) as [E|]; [|done]. rewrite <- E, Hnone. cbn [mbind option_bind].
      split; [done|]. unfold nthZ. case_match; [|done].
      change (pg_free_semaphores page) with (replicate count_per_page true).
      intros [[=] _]%lookup_replicate_1.
    + change (semaphore_uses_canary debug pool') with (semaphore_uses_canary debug pool).
      intros Hc' sl v. unfold slot_bit, slot_payload. rewrite Hfind.
      destruct (Z.eqb_spec id sl.1) as [E|]; [|by apply H7].
      cbn [mbind option_bind]. change (pg_payloads page) with payloads. rewrite (Hcan Hc').
      intros _. unfold nthZ. case_match; [|done]. intros [-> _]%lookup_replicate_1. apply make_canary_is.
  - intros s sl. unfold slot_of, get_index. destruct (sem_page s) as [j|]; cbn [mbind option_bind]; [|done].
    change (gpu_semaphore_pool_is_secure pool') with (gpu_semaphore_pool_is_secure pool).
    destruct (gpu_semaphore_pool_is_secure pool); [done|].
    destruct (sem_payload s); cbn [mbind option_bind]; [|done].
    destruct (find_page pool j) eqn:Ej; cbn [mbind option_bind]; [|done].
    by rewrite Hkeep, Ej by (by rewrite Ej).
  - change (free_total (pool_pages pool')) with (page_bits page + free_total (pool_pages pool))%nat.
    rewrite Hpb. change count_per_page with 1024%nat. lia.
  - intros sl Hsl. unfold slot_payload, slot_bit in *. rewrite Hkeep; [done|].
    destruct (find_page pool sl.1); [done|by destruct Hsl].
Qed.

Lemma pool_alloc_page_spec debug a pool live :
  slots_inv debug pool live -> answer_ok a pool ->
  exists status pool', pool_alloc_page debug a pool = Some (status, pool') /\
    (status <> NV_OK /\ pool' = pool \/
     status = NV_OK /\ slots_inv debug pool' live /\ keeps_slots pool pool' /\
     (0 < free_total (pool_pages pool'))%nat /\
     (forall sl, is_Some (slot_bit pool sl) -> slot_payload pool' sl = slot_payload pool sl)).
Proof.
  intros Hinv (Hb & Hacc & Hfresh & Hrm). unfold pool_alloc_page.
  destruct (pa_kvmalloc a) as [id|] eqn:Ek; [|eexists _, _; split; [done|by left]].
  destruct (pa_rm_mem a) as [status|[cpu_va contents]]; [eexists _, _; split; [done|by left]|].
  rewrite Hacc. cbn [UVM_ASSERT mbind option_bind]. destruct Hrm as [Hlen Hva].
  eexists _, _. split; [done|]. right. split; [done|].
  apply add_page_inv; try done.
  - by apply Hfresh.
  - destruct (semaphore_uses_canary debug pool); [by apply length_replicate|done].
  - intros ->. done.
Qed.

(** Claiming a free slot of a pool that has one. *)
Lemma claim_spec debug pool live :
  slots_inv debug pool live -> (0 < free_total (pool_pages pool))%nat ->
  exists page i v,
    first_free (pool_pages pool) = Some (page, i) /\
    find_page pool (pg_id page) = Some page /\ page_ok page /\
    0 <= i < UVM_SEMAPHORE_COUNT_PER_PAGE /\
    nthZ (pg_free_semaphores page) i = Some true /\ nthZ (pg_payloads page) i = Some v /\
    (semaphore_uses_canary debug pool = true -> is_canary v = true) /\ ((pg_id page, i) ∉ live) /\
    0 < pool_free_semaphores_count pool < 2 ^ 32.
Proof.
  intros [H1 H2 H3 H4 [H5 H6] H7] Hpos.
  destruct (first_free_spec _ H2 Hpos) as (page & i & Hff & Hin & Hbit).
  pose proof (find_page_elem _ _ H1 Hin) as Hf. rewrite Forall_forall in H2.
  pose proof (H2 _ Hin) as (Hl1 & Hl2 & Hva). pose proof (nthZ_lt _ _ _ Hbit) as Hr.
  assert (Hs : slot_bit pool (pg_id page, i) = Some true) by (unfold slot_bit; cbn; by rewrite Hf).
  destruct (nthZ_is_Some (pg_payloads page) i) as [v Hv]; [by rewrite Hl1, <- Hl2|].
  exists page, i, v. rewrite <- Forall_forall in H2. pose proof (free_total_le _ H2).
  split_and!; try done; try lia.
  - rewrite Hl2 in Hr. apply Hr.
  - intros Hc. apply (H7 Hc (pg_id page, i)); [done|]. unfold slot_payload. cbn. by rewrite Hf.
  - rewrite H6, Hs. done.
Qed.

Lemma keeps_slots_write pool pg i b0 b v n :
  find_page pool (pg_id pg) = Some pg -> nthZ (pg_free_semaphores pg) i = Some b0 ->
  keeps_slots pool (set_pages (pool_pages (update_page (write_page pg i b v) pool)) n
                      (update_page (write_page pg i b v) pool)).
Proof.
  intros Hf Hb s sl H. rewrite <- H. exact (write_slot_of pool pg i b v Hf s).
Qed.

(** The payload of a semaphore, through its slot. *)
Lemma get_payload_slot pool s sl :
  gpu_semaphore_pool_is_secure pool = false -> slot_of pool s = Some sl ->
  uvm_gpu_semaphore_get_payload pool s = slot_payload pool sl.
Proof.
  intros Hns. unfold slot_of, uvm_gpu_semaphore_get_payload, slot_payload. rewrite Hns.
  destruct (sem_page s) as [id|]; cbn [mbind option_bind]; [|done].
  destruct (get_index pool s) as [i|]; cbn [mbind option_bind]; [|done]. intros [= <-]. done.
Qed.

Lemma set_payload_slot pool s pg i b v :
  gpu_semaphore_pool_is_secure pool = false -> slot_of pool s = Some (pg_id pg, i) ->
  find_page pool (pg_id pg) = Some pg -> nthZ (pg_free_semaphores pg) i = Some b ->
  uvm_gpu_semaphore_set_payload pool s v = Some (update_page (write_page pg i b v) pool, s).
Proof.
  intros Hns. unfold slot_of, uvm_gpu_semaphore_set_payload. rewrite Hns.
  destruct (sem_page s) as [id|]; cbn [mbind option_bind]; [|done].
  destruct (get_index pool s) as [j|]; cbn [mbind option_bind]; [|done]. intros [= -> ->] Hf Hb.
  rewrite Hf. cbn [mbind option_bind]. unfold write_page. by rewrite (setZ_same _ _ _ Hb).
Qed.

Lemma write_bit_eq pool pg i b0 b v :
  find_page pool (pg_id pg) = Some pg -> nthZ (pg_payloads pg) i = Some v ->
  nthZ (pg_free_semaphores pg) i = Some b0 ->
  (pg' ← find_page pool (pg_id pg);
   Some (update_page (PoolPage (pg_id pg') (pg_cpu_va pg') (pg_payloads pg')
                       (setZ (pg_free_semaphores pg') i b)) pool)) =
  Some (update_page (write_page pg i b v) pool).
Proof.
  intros Hf Hv Hb. rewrite Hf. cbn [mbind option_bind]. unfold write_page. by rewrite (setZ_same _ _ _ Hv).
Qed.

(** Writing the payload and then the bit writes the slot. *)
Lemma write_write pool pg i b0 b1 b v :
  find_page pool (pg_id pg) = Some pg -> page_ok pg -> nthZ (pg_free_semaphores pg) i = Some b0 ->
  (pg' ← find_page (update_page (write_page pg i b1 v) pool) (pg_id pg);
   Some (update_page (PoolPage (pg_id pg') (pg_cpu_va pg') (pg_payloads pg')
                       (setZ (pg_free_semaphores pg') i b)) (update_page (write_page pg i b1 v) pool))) =
  Some (update_page (write_page pg i b v) pool).
Proof.
  intros Hf Hok Hb. rewrite (write_find pool pg i b1 v Hf), decide_True by done.
  cbn [mbind option_bind]. rewrite update_update by done. do 3 f_equal.
  unfold write_page, setZ. cbn. f_equal. destruct (0 <=? i); [apply list_insert_insert_eq|done].
Qed.

(** What a successful allocation gives: a slot of its own, holding 0. *)
Definition allocated debug (pool pool' : uvm_gpu_semaphore_pool_t) (live : list (Z * Z)) (s : uvm_gpu_semaphore_t) : Prop :=
  exists sl, slot_of pool' s = Some sl /\ (sl ∉ live) /\ slots_inv debug pool' (sl :: live) /\
    keeps_slots pool pool' /\ uvm_gpu_semaphore_get_payload pool' s = Some 0 /\
    (forall sl', sl' ∈ live -> slot_payload pool' sl' = slot_payload pool sl').

(** The value the slot of a new semaphore holds: a secure one is not written. *)
Definition claimed_payload pool (v : Z) : Z := if gpu_semaphore_pool_is_secure pool then v else 0.
Definition claimed pool pg i v : uvm_gpu_semaphore_pool_t :=
  let p := update_page (write_page pg i false (claimed_payload pool v)) pool in
  set_pages (pool_pages p) (pool_free_semaphores_count pool - 1) p.

Lemma slot_semaphore_slot pool pg i :
  find_page pool (pg_id pg) = Some pg -> page_ok pg -> 0 <= i < UVM_SEMAPHORE_COUNT_PER_PAGE ->
  slot_of pool (slot_semaphore pool pg i) = Some (pg_id pg, i).
Proof.
  intros Hf Hok Hi. unfold slot_of. rewrite slot_semaphore_index by done.
  unfold slot_semaphore. by destruct (gpu_semaphore_pool_is_secure pool).
Qed.

Lemma claim_exec debug a pool pg i v :
  first_free (pool_pages pool) = Some (pg, i) ->
  find_page pool (pg_id pg) = Some pg -> page_ok pg -> 0 <= i < UVM_SEMAPHORE_COUNT_PER_PAGE ->
  nthZ (pg_free_semaphores pg) i = Some true -> nthZ (pg_payloads pg) i = Some v ->
  (semaphore_uses_canary debug pool = true -> is_canary v = true) ->
  0 < pool_free_semaphores_count pool < 2 ^ 32 ->
  uvm_gpu_semaphore_alloc debug a pool = Some (NV_OK, claimed pool pg i v, slot_semaphore pool pg i).
Proof.
  intros Hff Hf Hok Hi Hb Hv Hcan Hcnt. pose proof (slot_semaphore_slot pool pg i Hf Hok Hi) as Hsl.
  unfold uvm_gpu_semaphore_alloc. rewrite (proj2 (Z.eqb_neq _ 0)) by lia.
  cbn [mbind option_bind]. rewrite decide_True by done. rewrite Hff. cbn [mbind option_bind].
  fold (slot_semaphore pool pg i). unfold claimed, claimed_payload, semaphore_uses_canary in *.
  destruct (gpu_semaphore_pool_is_secure pool) eqn:Es; cbn [negb andb] in *.
  - cbn [mbind option_bind]. unfold uvm_gpu_semaphore_set_payload. rewrite Es. cbn [mbind option_bind].
    unfold clear_bit. rewrite (write_bit_eq pool pg i true false v Hf Hv Hb). cbn [mbind option_bind].
    unfold count_add. cbn [update_page set_pages pool_free_semaphores_count].
    rewrite u32_small by (unfold is_u32; lia). do 2 f_equal. unfold slot_semaphore. by rewrite Es.
  - match goal with |- context [if debug then ?m else _] =>
      assert (Hd : (if debug then m else Some tt) = Some tt) end.
    { destruct debug; [|done]. rewrite (get_payload_slot pool _ _ Es Hsl). unfold slot_payload.
      cbn [fst snd]. rewrite Hf. cbn [mbind option_bind]. rewrite Hv. cbn [mbind option_bind].
      by rewrite (Hcan eq_refl). }
    rewrite Hd. cbn [mbind option_bind].
    rewrite (set_payload_slot pool _ pg i true 0 Es Hsl Hf Hb). cbn [mbind option_bind].
    unfold clear_bit. rewrite (write_write pool pg i true true false 0 Hf Hok Hb). cbn [mbind option_bind].
    unfold count_add. cbn [update_page set_pages pool_free_semaphores_count].
    by rewrite u32_small by (unfold is_u32; lia).
Qed.

Lemma claim_alloc debug a pool live :
  slots_inv debug pool live -> (0 < free_total (pool_pages pool))%nat ->
  exists pool' s, uvm_gpu_semaphore_alloc debug a pool = Some (NV_OK, pool', s) /\
    allocated debug pool pool' live s.
Proof.
  intros Hinv Hpos.
  destruct (claim_spec debug pool live Hinv Hpos) as
    (pg & i & v & Hff & Hf & Hok & Hi & Hb & Hv & Hcan & Hfresh & Hcnt).
  pose proof (slot_semaphore_slot pool pg i Hf Hok Hi) as Hsl.
  set (w := claimed_payload pool v).
  pose proof (keeps_slots_write pool pg i true false w (pool_free_semaphores_count pool - 1) Hf Hb) as Hk.
  exists (claimed pool pg i v), (slot_semaphore pool pg i). split; [by apply claim_exec|].
  assert (Hpl : forall sl, slot_payload (claimed pool pg i v) sl =
    if decide (sl = (pg_id pg, i)) then Some w else slot_payload pool sl).
  { intros sl. by apply (write_payload pool pg i true false w Hf Hb). }
  exists (pg_id pg, i). split_and!; [by apply Hk|done| |done| |].
  - apply (write_inv debug pool pg i true false w Hf Hb live); [done|cbn; lia| | |done].
    + apply NoDup_cons. split; [done|apply Hinv].
    + intros sl. rewrite elem_of_cons. case_decide; naive_solver.
  - destruct (gpu_semaphore_pool_is_secure pool) eqn:Es.
    + unfold uvm_gpu_semaphore_get_payload.
      change (gpu_semaphore_pool_is_secure (claimed pool pg i v)) with (gpu_semaphore_pool_is_secure pool).
      rewrite Es. unfold slot_semaphore. by rewrite Es.
    + rewrite (get_payload_slot _ _ (pg_id pg, i)); [|done|by apply Hk].
      rewrite Hpl, decide_True by done. unfold w, claimed_payload. by rewrite Es.
  - intros sl' Hin. rewrite Hpl. by rewrite decide_False by congruence.
Qed.

Lemma sem_alloc_spec debug a pool live :
  slots_inv debug pool live -> answer_ok a pool ->
  exists status pool' s, uvm_gpu_semaphore_alloc debug a pool = Some (status, pool', s) /\
    (status <> NV_OK /\ pool' = pool /\ s = null_semaphore \/
     status = NV_OK /\ allocated debug pool pool' live s).
Proof.
  intros Hinv Ha. destruct (decide (pool_free_semaphores_count pool = 0)) as [E|Hne].
  - destruct (pool_alloc_page_spec debug a pool live Hinv Ha) as (status & p1 & Hp & Hr).
    destruct Hr as [[Hst ->]|(-> & Hi1 & Hk & Hpos & Hpl)].
    + exists status, pool, null_semaphore. unfold uvm_gpu_semaphore_alloc. rewrite E, Hp.
      cbn [Z.eqb mbind option_bind]. rewrite decide_False by done. eauto.
    + destruct (claim_alloc debug a p1 live Hi1 Hpos) as (p2 & s & E2 & sl & A1 & A2 & A3 & A4 & A5 & A6).
      exists NV_OK, p2, s. split.
      * rewrite <- E2. unfold uvm_gpu_semaphore_alloc. rewrite E, Hp. change (0 =? 0) with true.
        pose proof (si_count _ _ _ Hi1). rewrite (proj2 (Z.eqb_neq _ 0)) by lia. done.
      * right. split; [done|]. exists sl. split_and!; try done; [by eapply keeps_slots_trans|].
        intros sl' Hin. rewrite A6 by done. apply Hpl. apply (si_live _ _ _ Hinv) in Hin. by rewrite Hin.
  - destruct (claim_alloc debug a pool live Hinv) as (p2 & s & E2 & A).
    { pose proof (si_count _ _ _ Hinv). lia. }
    exists NV_OK, p2, s. split; [done|]. right. by split.
Qed.

(** ** Freeing, writing, destroying *)

Lemma live_slot debug pool live s sl :
  slots_inv debug pool live -> sl ∈ live -> slot_of pool s = Some sl ->
  exists pg i v, sl = (pg_id pg, i) /\ find_page pool (pg_id pg) = Some pg /\ page_ok pg /\
    nthZ (pg_free_semaphores pg) i = Some false /\ nthZ (pg_payloads pg) i = Some v /\
    sem_page s = Some (pg_id pg) /\ get_index pool s = Some i.
Proof.
  intros [H1 H2 H3 H4 [H5 H6] H7] Hin Hsl. apply H6 in Hin. unfold slot_of in Hsl.
  destruct (sem_page s) as [id|]; cbn [mbind option_bind] in Hsl; [|done].
  destruct (get_index pool s) as [i|]; cbn [mbind option_bind] in Hsl; [|done].
  injection Hsl as <-. unfold slot_bit in Hin. cbn [fst snd] in Hin.
  destruct (find_page pool id) as [pg|] eqn:Hf; cbn [mbind option_bind] in Hin; [|done].
  destruct (find_page_In _ _ _ Hf) as [Hpg <-]. rewrite Forall_forall in H2.
  pose proof (H2 _ Hpg) as (Hl1 & Hl2 & Hva). pose proof (nthZ_lt _ _ _ Hin) as Hr.
  destruct (nthZ_is_Some (pg_payloads pg) i) as [v Hv]; [by rewrite Hl1, <- Hl2|].
  exists pg, i, v. split_and!; try done. all: apply Hva.
Qed.

Lemma set_bit_count page i n pool : set_bit page i (count_add n pool) = count_add n <$> set_bit page i pool.
Proof.
  unfold set_bit. change (find_page (count_add n pool) page) with (find_page pool page).
  by destruct (find_page pool page).
Qed.

Lemma free_exec debug pool live s pg i v :
  slots_inv debug pool live -> (pg_id pg, i) ∈ live ->
  find_page pool (pg_id pg) = Some pg -> page_ok pg ->
  nthZ (pg_free_semaphores pg) i = Some false -> nthZ (pg_payloads pg) i = Some v ->
  sem_page s = Some (pg_id pg) -> get_index pool s = Some i ->
  let w := if semaphore_uses_canary debug pool then make_canary v else v in
  uvm_gpu_semaphore_free debug pool s =
    Some (count_add 1 (update_page (write_page pg i true w) pool),
          Semaphore None None (sem_index s) (sem_cached_payload s)).
Proof.
  intros Hinv Hin Hf Hok Hb Hv Hpage Hidx w. unfold uvm_gpu_semaphore_free. rewrite Hpage, Hidx.
  cbn [mbind option_bind]. subst w. destruct (semaphore_uses_canary debug pool) eqn:Ec.
  - assert (Es : gpu_semaphore_pool_is_secure pool = false).
    { unfold semaphore_uses_canary in Ec. by destruct (gpu_semaphore_pool_is_secure pool). }
    assert (Hsl : slot_of pool s = Some (pg_id pg, i)) by (unfold slot_of; by rewrite Hpage, Hidx).
    rewrite (get_payload_slot pool s _ Es Hsl). unfold slot_payload. cbn [fst snd]. rewrite Hf.
    cbn [mbind option_bind]. rewrite Hv. cbn [mbind option_bind].
    rewrite (set_payload_slot pool s pg i false _ Es Hsl Hf Hb). cbn [mbind option_bind].
    rewrite set_bit_count. unfold set_bit. by rewrite (write_write pool pg i false false true _ Hf Hok Hb).
  - cbn [mbind option_bind]. rewrite set_bit_count. unfold set_bit.
    by rewrite (write_bit_eq pool pg i false true v Hf Hv Hb).
Qed.

Lemma sem_free_spec debug pool l1 sl l2 s :
  slots_inv debug pool (l1 ++ sl :: l2) -> slot_of pool s = Some sl ->
  exists pool' s', uvm_gpu_semaphore_free debug pool s = Some (pool', s') /\ sem_page s' = None /\
    slots_inv debug pool' (l1 ++ l2) /\ keeps_slots pool pool' /\
    (forall sl', sl' ∈ l1 ++ l2 -> slot_payload pool' sl' = slot_payload pool sl').
Proof.
  intros Hinv Hsl. assert (Hin : sl ∈ l1 ++ sl :: l2) by (apply elem_of_app; right; by left).
  destruct (live_slot debug pool _ s sl Hinv Hin Hsl) as (pg & i & v & -> & Hf & Hok & Hb & Hv & Hp & Hi).
  pose proof (proj1 (si_live _ _ _ Hinv)) as Hnd. apply NoDup_app in Hnd as (Hn1 & Hn2 & [Hn3 Hn4]%NoDup_cons).
  assert (Hout : (pg_id pg, i) ∉ l1 ++ l2).
  { rewrite elem_of_app. intros [H|H]; [|done]. apply (Hn2 _ H). by left. }
  eexists _, _. split; [by eapply free_exec|]. split; [done|].
  set (w := if semaphore_uses_canary debug pool then make_canary v else v).
  assert (Hc : u32 (pool_free_semaphores_count pool + 1) = pool_free_semaphores_count pool + 1).
  { apply u32_small. destruct Hinv as [H1 H2 H3 H4 [H5 H6] H7].
    destruct (update_page_split pool (write_page pg i true w) pg H1 Hf) as (p1 & p2 & E1 & E2).
    assert (Hle : Z.of_nat (free_total (p1 ++ write_page pg i true w :: p2)) <=
                  Z.of_nat (length (p1 ++ write_page pg i true w :: p2)) * UVM_SEMAPHORE_COUNT_PER_PAGE).
    { apply free_total_le. rewrite E1 in H2. apply Forall_app in H2 as [Ha Hb']. inversion_clear Hb'.
      apply Forall_app. split; [done|]. constructor; [by apply write_page_ok|done]. }
    rewrite H4, E1 in *. unfold free_total in *. rewrite !sum_list_with_app, !length_app in *. cbn [sum_list_with length] in *.
    pose proof (filter_setZ _ _ _ true Hb) as Hfil. unfold page_bits in *. cbn [write_page pg_free_semaphores b2n] in *.
    unfold is_u32. lia. }
  unfold count_add. cbn [update_page set_pages pool_free_semaphores_count]. rewrite Hc.
  split_and!.
  - apply (write_inv debug pool pg i false true w Hf Hb (l1 ++ (pg_id pg, i) :: l2)); [done|cbn; lia| | |].
    + apply NoDup_app. split_and!; [done| |done]. intros x Hx Hx2. apply (Hn2 x Hx). by right.
    + intros sl. case_decide as E; [subst; split; [done|done]|].
      rewrite !elem_of_app, elem_of_cons. naive_solver.
    + intros _ Hcan. unfold w. rewrite Hcan. apply make_canary_is.
  - by apply (keeps_slots_write pool pg i false true w _ Hf Hb).
  - intros sl' Hsl'.
    transitivity (slot_payload (update_page (write_page pg i true w) pool) sl'); [done|].
    rewrite (write_payload pool pg i false true w Hf Hb) by done. by rewrite decide_False by congruence.
Qed.

(** Writing the payload of a live semaphore, by the CPU or by the GPU. *)
Lemma set_payload_spec debug pool live s sl v :
  slots_inv debug pool live -> sl ∈ live -> slot_of pool s = Some sl ->
  exists pool' s', uvm_gpu_semaphore_set_payload pool s v = Some (pool', s') /\
    slot_of pool' s' = Some sl /\ slots_inv debug pool' live /\ keeps_slots pool pool' /\
    uvm_gpu_semaphore_get_payload pool' s' = Some v /\
    (forall sl', sl' ∈ live -> sl' <> sl -> slot_payload pool' sl' = slot_payload pool sl').
Proof.
  intros Hinv Hin Hsl.
  destruct (live_slot debug pool live s sl Hinv Hin Hsl) as (pg & i & u & -> & Hf & Hok & Hb & Hv & Hp & Hi).
  destruct (gpu_semaphore_pool_is_secure pool) eqn:Es.
  - eexists pool, _. unfold uvm_gpu_semaphore_set_payload. rewrite Es. split; [done|].
    split_and!; [|done|by intros ? ?| |done].
    + rewrite <- Hsl. unfold slot_of, get_index. by rewrite Es.
    + unfold uvm_gpu_semaphore_get_payload. by rewrite Es.
  - eexists _, s. split; [by apply set_payload_slot|].
    pose proof (keeps_slots_write pool pg i false false v (pool_free_semaphores_count pool) Hf Hb) as Hk.
    change (set_pages (pool_pages (update_page (write_page pg i false v) pool))
             (pool_free_semaphores_count pool) (update_page (write_page pg i false v) pool))
      with (update_page (write_page pg i false v) pool) in Hk.
    split_and!; [by apply Hk| |done| |].
    + apply (write_inv debug pool pg i false false v Hf Hb live live); [done|cbn; lia|apply Hinv| |done].
      intros sl. case_decide as E; [subst; by split|done].
    + rewrite (get_payload_slot (update_page (write_page pg i false v) pool) s (pg_id pg, i)
                 Es (Hk _ _ Hsl)).
      by rewrite (write_payload pool pg i false false v Hf Hb), decide_True by done.
    + intros sl' _ Hne. by rewrite (write_payload pool pg i false false v Hf Hb), decide_False by done.
Qed.

(** With no live semaphore every page is full, and full of canaries. *)
Lemma unused_page debug pool page :
  slots_inv debug pool [] -> page ∈ pool_pages pool ->
  forallb (fun b : bool => b) (pg_free_semaphores page) = true /\ page_bits page = count_per_page /\
  (semaphore_uses_canary debug pool = true -> forallb is_canary (pg_payloads page) = true).
Proof.
  intros [H1 H2 H3 H4 [_ H6] H7] Hin. pose proof (find_page_elem _ _ H1 Hin) as Hf.
  rewrite Forall_forall in H2. destruct (H2 _ Hin) as (Hl1 & Hl2 & _).
  assert (Hbits : forall k b, pg_free_semaphores page !! k = Some b ->
    b = true /\ slot_bit pool (pg_id page, Z.of_nat k) = Some true).
  { intros k b Hk. assert (Hs : slot_bit pool (pg_id page, Z.of_nat k) = Some b).
    { unfold slot_bit. cbn [fst snd]. rewrite Hf. cbn [mbind option_bind]. unfold nthZ.
      by rewrite (proj2 (Z.leb_le 0 _)), Nat2Z.id by lia. }
    destruct b; [done|]. apply H6 in Hs. by apply not_elem_of_nil in Hs. }
  assert (Hall : Forall (fun b : bool => b = true) (pg_free_semaphores page)).
  { apply Forall_lookup. intros k b Hk. by apply (Hbits k). }
  split_and!.
  - clear -Hall. induction Hall as [|b l -> _ IH]; [done|exact IH].
  - rewrite <- Hl2. unfold page_bits. clear -Hall. induction Hall as [|b l -> _ IH]; [done|].
    cbn. by rewrite IH.
  - intros Hc. apply List.forallb_forall. intros v Hv. apply list_elem_of_In, list_elem_of_lookup in Hv as [k Hk].
    destruct (lookup_lt_is_Some_2 (pg_free_semaphores page) k) as [b Hb].
    { rewrite Hl2, <- Hl1. by eapply lookup_lt_Some. }
    apply (H7 Hc (pg_id page, Z.of_nat k)); [by eapply Hbits|].
    unfold slot_payload. cbn [fst snd]. rewrite Hf. cbn [mbind option_bind]. unfold nthZ.
    by rewrite (proj2 (Z.leb_le 0 _)), Nat2Z.id by lia.
Qed.

Lemma filter_page_gone page pages :
  pg_id page ∉ (pg_id <$> pages) ->
  List.filter (fun q => negb (pg_id q =? pg_id page)) (page :: pages) = pages.
Proof.
  intros Hid. cbn. rewrite Z.eqb_refl. cbn. induction pages as [|q l IH]; [done|].
  rewrite fmap_cons in Hid. apply not_elem_of_cons in Hid as [Hne Hid]. cbn.
  rewrite (proj2 (Z.eqb_neq (pg_id q) _)) by congruence. cbn. by rewrite IH.
Qed.

Lemma drop_page_inv debug page pages pool n :
  slots_inv debug (set_pages (page :: pages) n pool) [] ->
  slots_inv debug (set_pages pages (Z.of_nat (free_total pages)) pool) [].
Proof.
  intros Hinv. pose proof Hinv as [H1 H2 H3 H4 [_ H6] H7].
  cbn [set_pages pool_pages pool_free_semaphores_count] in *.
  rewrite fmap_cons in H1. apply NoDup_cons in H1 as [Hid Hnd]. inversion H2; subst.
  assert (Hsl : forall id pg, find_page (set_pages pages (Z.of_nat (free_total pages)) pool) id = Some pg ->
    find_page (set_pages (page :: pages) (Z.of_nat (free_total (page :: pages))) pool) id = Some pg).
  { intros id pg Hf. destruct (Z.eqb_spec (pg_id page) id) as [E|Hne].
    - exfalso. apply Hid. apply find_page_In in Hf as [Hin E2]. rewrite E, <- E2. apply list_elem_of_fmap. eauto.
    - unfold find_page. cbn. by rewrite (proj2 (Z.eqb_neq (pg_id page) id)). }
  split; cbn [set_pages pool_pages pool_free_semaphores_count]; try done.
  - cbn [length] in H3. change UVM_SEMAPHORE_COUNT_PER_PAGE with 1024 in *. lia.
  - split; [by apply NoDup_nil|]. intros sl. split; [by intros ?%not_elem_of_nil|]. intros Hs. apply H6.
    unfold slot_bit in *. destruct (find_page (set_pages pages _ pool) sl.1) eqn:E; [|done].
    by rewrite (Hsl _ _ E).
  - intros Hcan sl v Hs Hp. apply (H7 Hcan sl).
    all: unfold slot_bit, slot_payload in *; destruct (find_page (set_pages pages _ pool) sl.1) eqn:E; [|done].
    all: by rewrite (Hsl _ _ E).
Qed.

Lemma free_pages_spec debug pages pool :
  slots_inv debug (set_pages pages (Z.of_nat (free_total pages)) pool) [] ->
  free_pages debug pages (set_pages pages (Z.of_nat (free_total pages)) pool) = Some (set_pages [] 0 pool).
Proof.
  induction pages as [|page pages IH]; [done|]. intros Hinv.
  set (p := set_pages (page :: pages) _ pool) in *.
  destruct (unused_page debug p page Hinv) as (Hfull & Hpb & Hcan); [by left|].
  assert (Hc : Z.of_nat count_per_page = UVM_SEMAPHORE_COUNT_PER_PAGE) by reflexivity.
  assert (Htot : Z.of_nat (free_total (page :: pages)) = UVM_SEMAPHORE_COUNT_PER_PAGE + Z.of_nat (free_total pages)).
  { rewrite <- Hc, <- Hpb. unfold free_total. cbn [sum_list_with]. lia. }
  pose proof (si_ids _ _ _ Hinv) as H1. cbn [p set_pages pool_pages] in H1. rewrite fmap_cons in H1.
  apply NoDup_cons in H1 as [Hid _].
  assert (Hb : Z.of_nat (free_total (page :: pages)) < 2 ^ 32).
  { pose proof (free_total_le _ (si_pages _ _ _ Hinv)). pose proof (si_bound _ _ _ Hinv).
    cbn [p set_pages pool_pages] in *. lia. }
  assert (Hfree : pool_free_page debug page p = Some (set_pages pages (Z.of_nat (free_total pages)) pool)).
  { unfold pool_free_page. rewrite Hfull. cbn [UVM_ASSERT mbind option_bind].
    cbn [p set_pages pool_free_semaphores_count pool_pages]. rewrite Htot.
    rewrite (proj2 (Z.leb_le _ _)) by lia. cbn [UVM_ASSERT mbind option_bind].
    replace (negb _ || _)%bool with true; [|destruct (semaphore_uses_canary debug p) eqn:E;
      [by rewrite (Hcan eq_refl), orb_true_r|done]].
    cbn [UVM_ASSERT mbind option_bind]. rewrite filter_page_gone by done.
    replace (UVM_SEMAPHORE_COUNT_PER_PAGE + Z.of_nat (free_total pages) - UVM_SEMAPHORE_COUNT_PER_PAGE)
      with (Z.of_nat (free_total pages)) by lia.
    by rewrite u32_small by (unfold is_u32; lia). }
  cbn [free_pages]. rewrite Hfree. cbn [mbind option_bind]. apply IH. by eapply drop_page_inv.
Qed.

Lemma destroy_spec debug pool :
  slots_inv debug pool [] -> uvm_gpu_semaphore_pool_destroy debug pool = Some (set_pages [] 0 pool).
Proof.
  intros Hinv. unfold uvm_gpu_semaphore_pool_destroy.
  assert (E : pool = set_pages (pool_pages pool) (Z.of_nat (free_total (pool_pages pool))) pool).
  { rewrite <- (si_count _ _ _ Hinv). by destruct pool. }
  rewrite E at 2. rewrite free_pages_spec by (rewrite <- E; exact Hinv). done.
Qed.

(** ** Histories of a pool *)

Definition sem_state : Type := uvm_gpu_semaphore_pool_t * list uvm_gpu_semaphore_t.

(** [sem_write] is the release of a semaphore, by the CPU or by the GPU. *)
Inductive sem_step (debug : bool) : sem_state -> sem_state -> Prop :=
| sem_alloc a pool pool' live s :
    answer_ok a pool -> uvm_gpu_semaphore_alloc debug a pool = Some (NV_OK, pool', s) ->
    sem_step debug (pool, live) (pool', s :: live)
| sem_alloc_error a pool pool' live status s :
    answer_ok a pool -> status <> NV_OK -> uvm_gpu_semaphore_alloc debug a pool = Some (status, pool', s) ->
    sem_step debug (pool, live) (pool', live)
| sem_free pool pool' l1 s s' l2 :
    uvm_gpu_semaphore_free debug pool s = Some (pool', s') ->
    sem_step debug (pool, l1 ++ s :: l2) (pool', l1 ++ l2)
| sem_write pool pool' l1 s s' l2 v :
    uvm_gpu_semaphore_set_payload pool s v = Some (pool', s') ->
    sem_step debug (pool, l1 ++ s :: l2) (pool', l1 ++ s' :: l2).

Definition sem_init (pool : uvm_gpu_semaphore_pool_t) : Prop :=
  (exists cc, uvm_gpu_semaphore_pool_create true cc = (NV_OK, Some pool)) \/
  (exists cc, uvm_gpu_semaphore_secure_pool_create true cc = Some (NV_OK, Some pool)).

Inductive sem_reachable (debug : bool) : sem_state -> Prop :=
| sem_start pool : sem_init pool -> sem_reachable debug (pool, [])
| sem_next st st' : sem_reachable debug st -> sem_step debug st st' -> sem_reachable debug st'.

Definition names (pool : uvm_gpu_semaphore_pool_t) (s : uvm_gpu_semaphore_t) (sl : Z * Z) : Prop :=
  slot_of pool s = Some sl.

Definition sem_inv (debug : bool) (st : sem_state) : Prop :=
  exists slots, Forall2 (names st.1) st.2 slots /\ slots_inv debug st.1 slots.

Lemma names_keep pool pool' live slots :
  keeps_slots pool pool' -> Forall2 (names pool) live slots -> Forall2 (names pool') live slots.
Proof. intros Hk Hn. eapply Forall2_impl; [exact Hn|]. intros s sl. apply Hk. Qed.

Lemma sem_step_inv debug st st' : sem_inv debug st -> sem_step debug st st' -> sem_inv debug st'.
Proof.
  intros (slots & Hn & Hinv) Hstep.
  destruct Hstep as [a pool pool' live s Ha E|a pool pool' live status s Ha Hst E
    |pool pool' l1 s s' l2 E|pool pool' l1 s s' l2 v E]; cbn [fst snd] in *.
  - destruct (sem_alloc_spec debug a pool slots Hinv Ha) as (? & ? & ? & E2 & Hr). rewrite E in E2.
    injection E2 as <- <- <-. destruct Hr as [(? & _)|(_ & sl & Hs & _ & Hi & Hk & _)]; [done|].
    exists (sl :: slots). split; [|done]. constructor; [done|by eapply names_keep].
  - destruct (sem_alloc_spec debug a pool slots Hinv Ha) as (? & ? & ? & E2 & Hr). rewrite E in E2.
    injection E2 as <- <- <-. destruct Hr as [(_ & -> & _)|(? & _)]; [by exists slots|done].
  - apply Forall2_app_inv_l in Hn as (k1 & k' & Hn1 & Hn2 & ->).
    inversion Hn2 as [|? sl ? k2 Hs Hn3]; subst.
    destruct (sem_free_spec debug pool k1 sl k2 s Hinv Hs) as (? & ? & E2 & _ & Hi & Hk & _).
    rewrite E in E2. injection E2 as <- <-. exists (k1 ++ k2). split; [|done].
    apply Forall2_app; by eapply names_keep.
  - apply Forall2_app_inv_l in Hn as (k1 & k' & Hn1 & Hn2 & ->).
    inversion Hn2 as [|? sl ? k2 Hs Hn3]; subst.
    destruct (set_payload_spec debug pool _ s sl v Hinv) as (? & ? & E2 & Hs' & Hi & Hk & _);
      [apply elem_of_app; right; by left|done|].
    rewrite E in E2. injection E2 as <- <-. exists (k1 ++ sl :: k2). split; [|done].
    apply Forall2_app; [by eapply names_keep|]. constructor; [done|by eapply names_keep].
Qed.

Lemma sem_init_inv debug pool : sem_init pool -> sem_inv debug (pool, []).
Proof.
  intros H. exists []. split; [constructor|].
  assert (E : pool_pages pool = [] /\ pool_free_semaphores_count pool = 0).
  { destruct H as [[cc [= <-]]|[cc H]]; [done|]. destruct cc; [|done]. by injection H as <-. }
  destruct pool as [cc ap ps n]. destruct E as [E1 E2]. cbn in E1, E2. subst ps n.
  split; cbn; try done; [by apply NoDup_nil|]. split; [by apply NoDup_nil|].
  intros sl. split; [by intros ?%not_elem_of_nil|done].
Qed.

Lemma sem_reachable_inv debug st : sem_reachable debug st -> sem_inv debug st.
Proof. induction 1; [by apply sem_init_inv|by eapply sem_step_inv]. Qed.

Lemma get_payload_keep pool pool' s sl :
  gpu_semaphore_pool_is_secure pool' = gpu_semaphore_pool_is_secure pool ->
  slot_of pool s = Some sl -> slot_of pool' s = Some sl ->
  slot_payload pool' sl = slot_payload pool sl ->
  uvm_gpu_semaphore_get_payload pool' s = uvm_gpu_semaphore_get_payload pool s.
Proof.
  intros Hs H1 H2 Hp. destruct (gpu_semaphore_pool_is_secure pool) eqn:E.
  - unfold uvm_gpu_semaphore_get_payload. by rewrite Hs, E.
  - by rewrite (get_payload_slot pool' s sl), (get_payload_slot pool s sl).
Qed.

Lemma alloc_secure debug a pool status pool' s :
  uvm_gpu_semaphore_alloc debug a pool = Some (status, pool', s) ->
  gpu_semaphore_pool_is_secure pool' = gpu_semaphore_pool_is_secure pool.
Proof.
  assert (Hset : forall p x v p' x', uvm_gpu_semaphore_set_payload p x v = Some (p', x') ->
    gpu_semaphore_pool_is_secure p' = gpu_semaphore_pool_is_secure p).
  { intros p x v p' x'. unfold uvm_gpu_semaphore_set_payload. case_match; [by intros [= <- _]|].
    intros Hb. repeat (apply bind_Some in Hb as (? & ? & Hb)). by injection Hb as <- _. }
  unfold uvm_gpu_semaphore_alloc. intros H. apply bind_Some in H as ([st p1] & E1 & H).
  assert (Hp1 : gpu_semaphore_pool_is_secure p1 = gpu_semaphore_pool_is_secure pool).
  { destruct (_ =? 0); [|by injection E1 as <- <-]. unfold pool_alloc_page in E1.
    repeat case_match; try (by injection E1 as <- <-);
      (apply bind_Some in E1 as (? & ? & E1); by injection E1 as <- <-). }
  case_decide; [|by injection H as <- <- <-].
  apply bind_Some in H as ([page i] & _ & H). apply bind_Some in H as ([] & _ & H).
  apply bind_Some in H as ([p2 x] & E2 & H). apply bind_Some in H as (p3 & E3 & H). injection H as <- <- <-.
  unfold clear_bit in E3. apply bind_Some in E3 as (? & _ & E3). injection E3 as <-.
  rewrite <- Hp1. exact (Hset _ _ _ _ _ E2).
Qed.

(** C36. In every history of a semaphore pool (allocations that succeed or
    fail, frees, releases by the CPU or the GPU, a secure pool or not, with or
    without canaries): no two live semaphores share a slot; the free count is
    the number of free slots of the pages; an allocation fails no assertion
    and either reports the error of the kernel or of RM and leaves the pool as
    it was, or returns a semaphore whose slot no live semaphore has, with
    payload 0, and disturbs no live payload; a live semaphore is freed without
    a failed assertion; and a pool with no live semaphore is destroyed without
    a failed assertion, down to no page and a zero count. *)
Theorem semaphore_pool_correct debug pool live :
  sem_reachable debug (pool, live) ->
  (exists slots, Forall2 (names pool) live slots /\ NoDup slots) /\
  pool_free_semaphores_count pool = Z.of_nat (free_total (pool_pages pool)) /\
  (forall a, answer_ok a pool ->
    exists status pool' s, uvm_gpu_semaphore_alloc debug a pool = Some (status, pool', s) /\
      (status <> NV_OK /\ pool' = pool \/
       status = NV_OK /\ uvm_gpu_semaphore_get_payload pool' s = Some 0 /\
       forall s', s' ∈ live -> slot_of pool' s' <> slot_of pool' s /\
         uvm_gpu_semaphore_get_payload pool' s' = uvm_gpu_semaphore_get_payload pool s')) /\
  (forall s, s ∈ live -> exists pool' s', uvm_gpu_semaphore_free debug pool s = Some (pool', s')) /\
  (live = [] -> uvm_gpu_semaphore_pool_destroy debug pool = Some (set_pages [] 0 pool)).
Proof.
  intros (slots & Hn & Hinv)%sem_reachable_inv. cbn [fst snd] in *.
  split_and!.
  - exists slots. split; [done|apply Hinv].
  - apply Hinv.
  - intros a Ha. destruct (sem_alloc_spec debug a pool slots Hinv Ha) as (st & p' & s & E & Hr).
    exists st, p', s. split; [done|]. destruct Hr as [(? & ? & _)|(-> & sl & Hs & Hf & Hi & Hk & H0 & Hp)]; [by left|].
    right. split; [done|]. split; [done|]. intros s' [i Hi']%list_elem_of_lookup.
    destruct (Forall2_lookup_l _ _ _ _ _ Hn Hi') as (sl' & Hsl' & Hnm).
    assert (Hin : sl' ∈ slots) by (apply list_elem_of_lookup; eauto).
    split; [rewrite Hs, (Hk _ _ Hnm); congruence|].
    apply (get_payload_keep _ _ _ sl'); [by eapply alloc_secure|done|by apply Hk|by apply Hp].
  - intros s (l1 & l2 & ->)%list_elem_of_split.
    apply Forall2_app_inv_l in Hn as (k1 & k' & Hn1 & Hn2 & ->).
    inversion Hn2 as [|? sl ? k2 Hs Hn3]; subst.
    destruct (sem_free_spec debug pool k1 sl k2 s Hinv Hs) as (? & ? & E2 & _). eauto.
  - intros ->. inversion Hn; subst. by apply destroy_spec.
Qed.

(** A pool with one page and one semaphore, canaries on. *)
Definition demo_answer : page_answer :=
  PageAnswer (Some 1) (inr (2 ^ 40, replicate count_per_page 7)) (2 ^ 20) (2 ^ 40).
Definition demo_pool0 : uvm_gpu_semaphore_pool_t := SemPool false false [] 0.
Definition demo_sem : uvm_gpu_semaphore_t := Semaphore (Some 1) (Some (2 ^ 40)) 0 0.
Definition demo_pool1 : uvm_gpu_semaphore_pool_t :=
  SemPool false false
    [PoolPage 1 (2 ^ 40) (0 :: replicate (count_per_page - 1) (make_canary 0))
       (false :: replicate (count_per_page - 1) true)] 1023.

Lemma demo_alloc : uvm_gpu_semaphore_alloc true demo_answer demo_pool0 = Some (NV_OK, demo_pool1, demo_sem).
Proof. by vm_compute. Qed.

Lemma demo_sem_reachable : sem_reachable true (demo_pool1, [demo_sem]).
Proof.
  apply (sem_next _ (demo_pool0, [])); [apply sem_start; left; by exists false|].
  apply (sem_alloc _ demo_answer); [|apply demo_alloc].
  split; [by vm_compute|]. split; [by vm_compute|].
  split; [intros id _; cbn; apply not_elem_of_nil|]. split; [by vm_compute|by split].
Qed.

Lemma semaphore_pool_correct_witness :
  (exists slots, Forall2 (names demo_pool1) [demo_sem] slots /\ NoDup slots) /\
  pool_free_semaphores_count demo_pool1 = Z.of_nat (free_total (pool_pages demo_pool1)) /\
  (forall a, answer_ok a demo_pool1 ->
    exists status pool' s, uvm_gpu_semaphore_alloc true a demo_pool1 = Some (status, pool', s) /\
      (status <> NV_OK /\ pool' = demo_pool1 \/
       status = NV_OK /\ uvm_gpu_semaphore_get_payload pool' s = Some 0 /\
       forall s', s' ∈ [demo_sem] -> slot_of pool' s' <> slot_of pool' s /\
         uvm_gpu_semaphore_get_payload pool' s' = uvm_gpu_semaphore_get_payload demo_pool1 s')) /\
  (forall s, s ∈ [demo_sem] -> exists pool' s', uvm_gpu_semaphore_free true demo_pool1 s = Some (pool', s')) /\
  ([demo_sem] = [] -> uvm_gpu_semaphore_pool_destroy true demo_pool1 = Some (set_pages [] 0 demo_pool1)).
Proof. exact (semaphore_pool_correct true demo_pool1 [demo_sem] demo_sem_reachable). Defined.

(** Freeing writes the canary of the payload: a GEQ acquire still pending on
    the slot keeps waiting. *)
Example demo_free_canary :
  (pp ← uvm_gpu_semaphore_set_payload demo_pool1 demo_sem 5;
   '(pool, _) ← uvm_gpu_semaphore_free true pp.1 pp.2;
   slot_payload pool (1, 0)) = Some (make_canary 5) /\
  make_canary 5 = 0xcbadc0de.
Proof. split; by vm_compute. Qed.

(** ** Tracking semaphores *)

Module Tracking.

Definition UVM_CHANNEL_NUM_GPFIFO_ENTRIES_MAX : Z := 1024 * 1024.
Definition UVM_GPU_SEMAPHORE_MAX_JUMP : Z := 2 * UVM_CHANNEL_NUM_GPFIFO_ENTRIES_MAX.

(** The completed value; the payload read from the semaphore is an argument. *)
Definition update_completed_value_locked (completed_value new_sem_value : Z) : option (Z * Z) :=
  let old_value := completed_value in
  let old_sem_value := u32 old_value in
  if old_sem_value =? new_sem_value then Some (old_value, completed_value)
  else
    let new_value := Z.lor (Z.land old_value 0xFFFFFFFF00000000) new_sem_value in
    let new_value := if new_sem_value <? old_sem_value then u64 (new_value + 2 ^ 32) else new_value in
    UVM_ASSERT (u64 (new_value - old_value) <=? UVM_GPU_SEMAPHORE_MAX_JUMP) ;;
    Some (new_value, new_value).

Definition uvm_gpu_tracking_semaphore_update_completed_value (completed_value payload : Z) : option (Z * Z) :=
  update_completed_value_locked completed_value payload.

Definition uvm_gpu_tracking_semaphore_is_value_completed (completed_value payload value : Z) : option (bool * Z) :=
  if value <=? completed_value then Some (true, completed_value)
  else
    '(completed, completed_value) ← uvm_gpu_tracking_semaphore_update_completed_value completed_value payload;
    Some (value <=? completed, completed_value).

(** [uvm_gpu_tracking_semaphore_alloc]: the semaphore, its completed value and
    its queued value. *)
Definition uvm_gpu_tracking_semaphore_alloc (debug : bool) (a : page_answer) (pool : uvm_gpu_semaphore_pool_t)
  : option (NV_STATUS * uvm_gpu_semaphore_pool_t * (uvm_gpu_semaphore_t * Z * Z)) :=
  '(status, pool, semaphore) ← uvm_gpu_semaphore_alloc debug a pool;
  if decide (status = NV_OK) then
    payload ← uvm_gpu_semaphore_get_payload pool semaphore;
    UVM_ASSERT (payload =? 0) ;;
    Some (NV_OK, pool, (semaphore, 0, 0))
  else Some (status, pool, (semaphore, 0, 0)).

Definition uvm_gpu_tracking_semaphore_free (debug : bool) (pool : uvm_gpu_semaphore_pool_t)
    (ts : uvm_gpu_semaphore_t * Z * Z) : option (uvm_gpu_semaphore_pool_t * uvm_gpu_semaphore_t) :=
  uvm_gpu_semaphore_free debug pool ts.1.1.

Definition should_skip_secure_semaphore_update (last_observed_notifier gpu_notifier : Z) : bool :=
  (last_observed_notifier =? gpu_notifier) || negb (gpu_notifier mod 2 =? 0).

(** The top 32 bits and a 32-bit payload. *)
Lemma replace_low c p :
  is_u64 c -> is_u32 p -> Z.lor (Z.land c 0xFFFFFFFF00000000) p = c / 2 ^ 32 * 2 ^ 32 + p.
Proof.
  intros Hc [Hp1 Hp2]. replace 0xFFFFFFFF00000000 with (lnot64 (2 ^ 32 - 1)) by reflexivity.
  rewrite land_mask by (done || lia).
  rewrite Z.add_nocarry_lxor, Z.lxor_lor; [done| |].
  all: rewrite <- Z.shiftl_mul_pow2 by lia; apply Z.bits_inj'; intros i Hi;
    rewrite Z.land_spec, Z.bits_0, Z.shiftl_spec by done; destruct (Z.ltb_spec i 32) as [Hlt|Hge];
    [by rewrite (Z.testbit_neg_r _ (i - 32)) by lia|].
  all: destruct (decide (p = 0)) as [->|]; [by rewrite Z.bits_0, andb_false_r|].
  all: rewrite (Z.bits_above_log2 p), andb_false_r; [done|done|].
  all: apply Z.lt_le_trans with 32; [|done]; apply Z.log2_lt_pow2; lia.
Qed.

(** One update finds the 64-bit value behind the payload. *)
Lemma update_exact c V :
  0 <= c <= V -> V <= c + UVM_GPU_SEMAPHORE_MAX_JUMP -> V < 2 ^ 64 ->
  update_completed_value_locked c (u32 V) = Some (V, V).
Proof.
  intros Hc Hj HV. change UVM_GPU_SEMAPHORE_MAX_JUMP with (2 ^ 21) in *.
  unfold update_completed_value_locked, u32, wrap.
  pose proof (Z.div_mod c (2 ^ 32) ltac:(lia)). pose proof (Z.mod_pos_bound c (2 ^ 32) ltac:(lia)).
  pose proof (Z.div_mod V (2 ^ 32) ltac:(lia)). pose proof (Z.mod_pos_bound V (2 ^ 32) ltac:(lia)).
  assert (Hq : V / 2 ^ 32 = c / 2 ^ 32 \/ V / 2 ^ 32 = c / 2 ^ 32 + 1) by lia.
  destruct (Z.eqb_spec (c mod 2 ^ 32) (V mod 2 ^ 32)) as [E|Hne]; [do 2 f_equal; lia|].
  rewrite replace_low by (unfold is_u64, is_u32; lia).
  assert (Hnew : (if V mod 2 ^ 32 <? c mod 2 ^ 32 then u64 (c / 2 ^ 32 * 2 ^ 32 + V mod 2 ^ 32 + 2 ^ 32)
                  else c / 2 ^ 32 * 2 ^ 32 + V mod 2 ^ 32) = V).
  { destruct (Z.ltb_spec (V mod 2 ^ 32) (c mod 2 ^ 32)); [|lia].
    rewrite u64_small by (unfold is_u64; lia). lia. }
  rewrite Hnew, u64_small by (unfold is_u64; lia). change UVM_GPU_SEMAPHORE_MAX_JUMP with (2 ^ 21).
  by rewrite (proj2 (Z.leb_le _ _)) by lia.
Qed.

Lemma is_completed_exact c V value :
  0 <= c <= V -> V <= c + UVM_GPU_SEMAPHORE_MAX_JUMP -> V < 2 ^ 64 ->
  exists c', uvm_gpu_tracking_semaphore_is_value_completed c (u32 V) value = Some (value <=? V, c') /\
    c <= c' <= V.
Proof.
  intros Hc Hj HV. unfold uvm_gpu_tracking_semaphore_is_value_completed,
    uvm_gpu_tracking_semaphore_update_completed_value.
  destruct (Z.leb_spec value c).
  - exists c. rewrite (proj2 (Z.leb_le value V)) by lia. split; [done|lia].
  - rewrite update_exact by done. exists V. split; [done|lia].
Qed.

(** A run of updates and queries; each sees the payload of the moment. *)
Inductive sem_op := Update | Query (value : Z).
Inductive sem_answer := Updated (completed : Z) | Answered (completed : bool).

Fixpoint run_ops (ops : list (sem_op * Z)) (c : Z) : option (list sem_answer) :=
  match ops with
  | [] => Some []
  | (Update, payload) :: ops' =>
      '(r, c) ← uvm_gpu_tracking_semaphore_update_completed_value c payload;
      rs ← run_ops ops' c; Some (Updated r :: rs)
  | (Query v, payload) :: ops' =>
      '(b, c) ← uvm_gpu_tracking_semaphore_is_value_completed c payload v;
      rs ← run_ops ops' c; Some (Answered b :: rs)
  end.

(** The specification: a 64-bit counter that is read. *)
Definition spec_answer (op : sem_op * Z) : sem_answer :=
  match op with (Update, V) => Updated V | (Query v, V) => Answered (v <=? V) end.

(** The counter grows, by at most MAX_JUMP since the last update. *)
Fixpoint paced (last cur : Z) (ops : list (sem_op * Z)) : Prop :=
  match ops with
  | [] => True
  | (op, V) :: ops' =>
      cur <= V <= last + UVM_GPU_SEMAPHORE_MAX_JUMP /\ V < 2 ^ 64 /\
      paced (match op with Update => V | Query _ => last end) V ops'
  end.

Definition truncate (op : sem_op * Z) : sem_op * Z := (op.1, u32 op.2).

Lemma run_ops_exact ops : forall last cur c,
  0 <= last <= c -> c <= cur -> paced last cur ops ->
  run_ops (truncate <$> ops) c = Some (spec_answer <$> ops).
Proof.
  induction ops as [|[[|v] V] ops IH]; intros last cur c Hl Hc; [done| |].
  all: cbn [paced]; intros (HV & H64 & Hp); rewrite !fmap_cons; cbn [truncate fst snd run_ops].
  - unfold uvm_gpu_tracking_semaphore_update_completed_value.
    rewrite update_exact by lia. cbn [mbind option_bind].
    by rewrite (IH V V V) by (done || lia).
  - destruct (is_completed_exact c V v) as (c' & -> & Hc'); [lia..|]. cbn [mbind option_bind].
    by rewrite (IH last V c') by (done || lia).
Qed.

(** C33. A tracking semaphore implements a 64-bit counter on a 32-bit payload:
    from any completed value and in any sequence of updates and completion
    queries, where the true value
    only grows and grows by at most UVM_GPU_SEMAPHORE_MAX_JUMP from one update
    to the next, the payloads being its low 32 bits (so they may wrap any
    number of times), every update returns the true 64-bit value, every query
    answers exactly whether the true value has reached the asked one, and the
    jump assertion never fails. *)
Theorem tracking_semaphore_exact c ops :
  0 <= c -> paced c c ops -> run_ops (truncate <$> ops) c = Some (spec_answer <$> ops).
Proof. intros Hc Hp. by apply (run_ops_exact ops c c c). Qed.

(** A run across a wrap of the payload. *)
Definition demo_ops : list (sem_op * Z) :=
  [(Update, 2 ^ 32 - 3); (Query (2 ^ 32), 2 ^ 32 - 2); (Query (2 ^ 32), 2 ^ 32 + 1);
   (Query 7, 2 ^ 32 + 4); (Update, 2 ^ 32 + 4)].

Lemma tracking_semaphore_exact_witness :
  run_ops (truncate <$> demo_ops) (2 ^ 32 - 10) =
  Some [Updated (2 ^ 32 - 3); Answered false; Answered true; Answered true; Updated (2 ^ 32 + 4)].
Proof.
  apply (tracking_semaphore_exact (2 ^ 32 - 10) demo_ops); [lia|]. vm_compute. repeat split; discriminate.
Defined.
End Tracking.
