(* ===== verification/UvmTracker.v ===== *)
(** Trackers (uvm_tracker.c, uvm_tracker.h): sets of points on channels that
    must be reached before dependent work may start.

    A tracker is modelled by its used entries, the kind of storage it has and
    its capacity.  Whether an allocation succeeds, which values a channel has
    completed and what the error checks report are arguments: the first is the
    memory allocator of the kernel, the others are the state of the channels at
    the time of the call. *)

From S2P Require Import Prelude UvmBits UvmSemaphore.
Local Open Scope Z_scope.

(** A channel is named by its address; [None] is NULL. *)
Record uvm_tracker_entry_t := TrackerEntry {
  te_channel : option Z;
  te_value : Z;
}.

(** The union: the inline entry, an allocated array, or a NULL array pointer. *)
Inductive storage := StaticEntries | DynamicEntries | NullEntries.

Record uvm_tracker_t := Tracker {
  tk_entries : list uvm_tracker_entry_t;
  tk_storage : storage;
  tk_max_size : Z;
}.

Definition tk_size (t : uvm_tracker_t) : Z := Z.of_nat (length (tk_entries t)).
Definition STATIC_SIZE : Z := 1.

Definition tracker_is_using_static_entries (t : uvm_tracker_t) : bool := tk_max_size t =? STATIC_SIZE.

(** [uvm_tracker_get_entries] *)
Definition uvm_tracker_get_entries (t : uvm_tracker_t) : option (list uvm_tracker_entry_t) :=
  if tracker_is_using_static_entries t then Some (tk_entries t)
  else UVM_ASSERT (match tk_storage t with NullEntries => false | _ => true end) ;; Some (tk_entries t).

Definition uvm_tracker_init : uvm_tracker_t := Tracker [] StaticEntries STATIC_SIZE.
Definition uvm_tracker_deinit (t : uvm_tracker_t) : uvm_tracker_t := Tracker [] NullEntries 0.
Definition uvm_tracker_clear (t : uvm_tracker_t) : uvm_tracker_t := Tracker [] (tk_storage t) (tk_max_size t).
Definition uvm_tracker_is_empty (t : uvm_tracker_t) : bool := tk_size t =? 0.

Definition roundup_pow_of_two (n : Z) : Z := 2 ^ Z.log2_up n.

(** [kv]: whether the allocation or reallocation, if one is needed, succeeds. *)
Definition uvm_tracker_reserve (kv : bool) (t : uvm_tracker_t) (min_free_entries : Z)
  : option (NV_STATUS * uvm_tracker_t) :=
  let need := u32 (tk_size t + min_free_entries) in
  if tk_max_size t <? need then
    let new_max_size := Z.max 8 (u32 (roundup_pow_of_two need)) in
    if kv then
      UVM_ASSERT (need <=? new_max_size) ;;
      Some (NV_OK, Tracker (tk_entries t) DynamicEntries new_max_size)
    else Some (NV_ERR_NO_MEMORY, t)
  else Some (NV_OK, t).

(** The entry of the channel is raised to the new value. *)
Fixpoint raise_entry (es : list uvm_tracker_entry_t) (new : uvm_tracker_entry_t)
  : option (list uvm_tracker_entry_t) :=
  match es with
  | [] => None
  | e :: es' =>
      if decide (te_channel e = te_channel new)
      then Some (TrackerEntry (te_channel e) (Z.max (te_value e) (te_value new)) :: es')
      else es'' ← raise_entry es' new; Some (e :: es'')
  end.

(** [get_new_entry] and the store into it: the entry goes to index [size]. *)
Definition add_new_entry (kv : bool) (t : uvm_tracker_t) (new : uvm_tracker_entry_t)
  : option (NV_STATUS * uvm_tracker_t) :=
  '(status, t) ← uvm_tracker_reserve kv t 1;
  if decide (status = NV_OK) then
    UVM_ASSERT (tk_size t <? tk_max_size t) ;;
    es ← uvm_tracker_get_entries t;
    Some (NV_OK, Tracker (es ++ [new]) (tk_storage t) (tk_max_size t))
  else Some (NV_ERR_NO_MEMORY, t).

Definition uvm_tracker_add_entry (kv : bool) (t : uvm_tracker_t) (new : uvm_tracker_entry_t)
  : option (NV_STATUS * uvm_tracker_t) :=
  es ← uvm_tracker_get_entries t;
  match raise_entry es new with
  | Some es' => Some (NV_OK, Tracker es' (tk_storage t) (tk_max_size t))
  | None => add_new_entry kv t new
  end.

Definition uvm_tracker_overwrite_with_entry (kv : bool) (t : uvm_tracker_t) (entry : uvm_tracker_entry_t)
  : option uvm_tracker_t :=
  '(status, t) ← uvm_tracker_add_entry kv (uvm_tracker_clear t) entry;
  UVM_ASSERT (bool_decide (status = NV_OK)) ;; Some t.

Definition uvm_tracker_overwrite (kv : bool) (dst src : uvm_tracker_t)
  : option (NV_STATUS * uvm_tracker_t) :=
  let dst := uvm_tracker_clear dst in
  '(status, dst) ← uvm_tracker_reserve kv dst (tk_size src);
  if decide (status = NV_OK) then
    _ ← uvm_tracker_get_entries dst;
    es ← uvm_tracker_get_entries src;
    Some (NV_OK, Tracker es (tk_storage dst) (tk_max_size dst))
  else Some (status, dst).

Definition uvm_tracker_init_from (kv : bool) (src : uvm_tracker_t) : option (NV_STATUS * uvm_tracker_t) :=
  '(status, dst) ← uvm_tracker_overwrite kv uvm_tracker_init src;
  if decide (status = NV_OK) then Some (status, dst) else Some (status, uvm_tracker_init).

Section completion.
(** [uvm_channel_is_value_completed] at the time of the call. *)
Context (completed : Z -> Z -> bool).

Definition uvm_tracker_is_entry_completed (e : uvm_tracker_entry_t) : bool :=
  match te_channel e with None => true | Some c => completed c (te_value e) end.

(** A completed entry is overwritten by the last one and the size shrinks. *)
Fixpoint remove_loop (fuel : nat) (i : nat) (es : list uvm_tracker_entry_t)
  : option (list uvm_tracker_entry_t) :=
  if Nat.ltb i (length es) then
    match fuel with
    | O => None
    | S n =>
        e ← es !! i;
        if uvm_tracker_is_entry_completed e then
          l ← last es;
          let size := (length es - 1)%nat in
          remove_loop n i (if Nat.eqb i size then take size es else take size (<[i := l]> es))
        else remove_loop n (S i) es
    end
  else Some es.

Definition uvm_tracker_remove_completed (t : uvm_tracker_t) : option uvm_tracker_t :=
  es ← uvm_tracker_get_entries t;
  es' ← remove_loop (length es) 0 es;
  Some (Tracker es' (tk_storage t) (tk_max_size t)).

Definition uvm_tracker_is_completed (t : uvm_tracker_t) : option (bool * uvm_tracker_t) :=
  t ← uvm_tracker_remove_completed t; Some (tk_size t =? 0, t).

Definition has_channel (c : option Z) (es : list uvm_tracker_entry_t) : bool :=
  existsb (fun d => bool_decide (te_channel d = c)) es.

Definition reserve_for_entries_from_tracker (kv : bool) (dst src : uvm_tracker_t)
  : option (NV_STATUS * uvm_tracker_t) :=
  ses ← uvm_tracker_get_entries src;
  des ← uvm_tracker_get_entries dst;
  let needed := List.filter (fun s => negb (has_channel (te_channel s) des)) ses in
  uvm_tracker_reserve kv dst (Z.of_nat (length needed)).

Fixpoint add_entries (kv : bool) (dst : uvm_tracker_t) (es : list uvm_tracker_entry_t)
  : option uvm_tracker_t :=
  match es with
  | [] => Some dst
  | e :: es' =>
      '(status, dst) ← uvm_tracker_add_entry kv dst e;
      UVM_ASSERT (bool_decide (status = NV_OK)) ;;
      add_entries kv dst es'
  end.

End completion.

(** [same]: the two pointers are equal; [kv1], [kv2] and [kv3] answer the two
    reservations and the additions; [completed1] and [completed2] are what the
    channels report while each tracker is swept. *)
Definition uvm_tracker_add_tracker (completed1 completed2 : Z -> Z -> bool) (same kv1 kv2 kv3 : bool)
    (dst src : uvm_tracker_t) : option (NV_STATUS * uvm_tracker_t * uvm_tracker_t) :=
  if same then Some (NV_OK, dst, src) else
  '(status, dst) ← uvm_tracker_reserve kv1 dst (tk_size src);
  '(status, dst, src) ←
    (if decide (status = NV_ERR_NO_MEMORY) then
       dst ← uvm_tracker_remove_completed completed1 dst;
       src ← uvm_tracker_remove_completed completed2 src;
       '(status, dst) ← reserve_for_entries_from_tracker kv2 dst src;
       Some (status, dst, src)
     else Some (status, dst, src));
  if decide (status = NV_OK) then
    es ← uvm_tracker_get_entries src;
    dst ← add_entries kv3 dst es;
    Some (NV_OK, dst, src)
  else Some (status, dst, src).

(** ** Waiting *)

(** What the channels report at each turn of the spin loop: the values they have
    completed, their error notifiers, and the driver's global status. *)
Record spin_step := SpinStep {
  sp_completed : Z -> Z -> bool;
  sp_channel_status : Z -> NV_STATUS;
  sp_global_status : NV_STATUS;
}.

(** [uvm_channel_check_errors] on the channels of the entries, up to the first
    error; a NULL channel would be dereferenced.  An error becomes the global
    status unless one is already set, so in this order it is the global status
    afterwards. *)
Fixpoint first_error (check : Z -> NV_STATUS) (es : list uvm_tracker_entry_t) : option NV_STATUS :=
  match es with
  | [] => Some NV_OK
  | e :: es' =>
      c ← te_channel e;
      if decide (check c = NV_OK) then first_error check es' else Some (check c)
  end.

Definition uvm_tracker_check_errors (sp : spin_step) (t : uvm_tracker_t) : option NV_STATUS :=
  if decide (sp_global_status sp = NV_OK) then
    es ← uvm_tracker_get_entries t; first_error (sp_channel_status sp) es
  else Some (sp_global_status sp).

(** [while (!uvm_tracker_is_completed(tracker) && status == NV_OK)]: the steps
    are the turns of the loop, and running out of them is a loop that still
    spins.  The completion is tested once more after an error, before the
    tracker is cleared. *)
Fixpoint uvm_tracker_wait (steps : list spin_step) (t : uvm_tracker_t)
  : option (NV_STATUS * uvm_tracker_t) :=
  match steps with
  | [] => None
  | sp :: steps' =>
      '(done, t) ← uvm_tracker_is_completed (sp_completed sp) t;
      if (done : bool) then Some (NV_OK, t)
      else
        status ← uvm_tracker_check_errors sp t;
        if decide (status = NV_OK) then uvm_tracker_wait steps' t
        else
          '(_, t) ← uvm_tracker_is_completed (sp_completed sp) t;
          Some (status, uvm_tracker_clear t)
  end.

Definition uvm_tracker_query (sp : spin_step) (t : uvm_tracker_t) : option (NV_STATUS * uvm_tracker_t) :=
  '(done, t) ← uvm_tracker_is_completed (sp_completed sp) t;
  status ← uvm_tracker_check_errors sp t;
  if decide (status = NV_OK)
  then Some (if (done : bool) then NV_OK else NV_WARN_MORE_PROCESSING_REQUIRED, t)
  else Some (status, t).

Definition uvm_tracker_wait_deinit (steps : list spin_step) (t : uvm_tracker_t)
  : option (NV_STATUS * uvm_tracker_t) :=
  '(status, t) ← uvm_tracker_wait steps t; Some (status, uvm_tracker_deinit t).

(** The wait for one entry checks its channel before the global status, and
    asserts that the error is the global one. *)
Fixpoint wait_for_entry_with_spin (steps : list spin_step) (e : uvm_tracker_entry_t)
  : option (NV_STATUS * uvm_tracker_entry_t * list spin_step) :=
  match steps with
  | [] => None
  | sp :: steps' =>
      if uvm_tracker_is_entry_completed (sp_completed sp) e then Some (NV_OK, e, steps)
      else
        c ← te_channel e;
        let status := sp_channel_status sp c in
        let global := if decide (sp_global_status sp = NV_OK) then status else sp_global_status sp in
        let status := if decide (status = NV_OK) then global else status in
        if decide (status = NV_OK) then wait_for_entry_with_spin steps' e
        else UVM_ASSERT (bool_decide (status = global)) ;; Some (status, TrackerEntry None 0, steps)
  end.

Definition uvm_tracker_wait_for_entry (steps : list spin_step) (e : uvm_tracker_entry_t)
  : option (NV_STATUS * uvm_tracker_entry_t) :=
  '(status, e, _) ← wait_for_entry_with_spin steps e; Some (status, e).

(** [gpu_of] is [uvm_tracker_entry_gpu]. *)
Fixpoint wait_others (gpu_of : uvm_tracker_entry_t -> Z) (gpu : Z) (steps : list spin_step)
    (es : list uvm_tracker_entry_t) : option (NV_STATUS * list uvm_tracker_entry_t * list spin_step) :=
  match es with
  | [] => Some (NV_OK, [], steps)
  | e :: es' =>
      '(status, e, steps) ← (if gpu_of e =? gpu then Some (NV_OK, e, steps)
                             else wait_for_entry_with_spin steps e);
      if decide (status = NV_OK) then
        '(status, es', steps) ← wait_others gpu_of gpu steps es'; Some (status, e :: es', steps)
      else Some (status, e :: es', steps)
  end.

Definition uvm_tracker_wait_for_other_gpus (gpu_of : uvm_tracker_entry_t -> Z) (gpu : Z)
    (steps : list spin_step) (t : uvm_tracker_t) : option (NV_STATUS * uvm_tracker_t) :=
  es ← uvm_tracker_get_entries t;
  '(status, es, steps) ← wait_others gpu_of gpu steps es;
  let t := Tracker es (tk_storage t) (tk_max_size t) in
  if decide (status = NV_OK) then
    sp ← head steps;
    t ← uvm_tracker_remove_completed (sp_completed sp) t; Some (status, t)
  else Some (status, uvm_tracker_clear t).

(** The "safe" variants wait for the source when there is no memory. *)
Definition uvm_tracker_add_tracker_safe (completed1 completed2 : Z -> Z -> bool) (same kv1 kv2 kv3 : bool)
    (steps : list spin_step) (dst src : uvm_tracker_t)
  : option (NV_STATUS * uvm_tracker_t * uvm_tracker_t) :=
  '(status, dst, src) ← uvm_tracker_add_tracker completed1 completed2 same kv1 kv2 kv3 dst src;
  if decide (status = NV_ERR_NO_MEMORY) then
    '(status, src) ← uvm_tracker_wait steps src; Some (status, dst, src)
  else Some (status, dst, src).

Definition uvm_tracker_overwrite_safe (kv : bool) (steps : list spin_step) (dst src : uvm_tracker_t)
  : option (NV_STATUS * uvm_tracker_t * uvm_tracker_t) :=
  '(status, dst) ← uvm_tracker_overwrite kv dst src;
  if decide (status = NV_ERR_NO_MEMORY) then
    '(status, src) ← uvm_tracker_wait steps src; Some (status, dst, src)
  else Some (status, dst, src).

Definition uvm_tracker_add_entry_safe (kv : bool) (steps : list spin_step) (t : uvm_tracker_t)
    (new : uvm_tracker_entry_t) : option (NV_STATUS * uvm_tracker_t * uvm_tracker_entry_t) :=
  '(status, t) ← uvm_tracker_add_entry kv t new;
  if decide (status = NV_ERR_NO_MEMORY) then
    '(status, new) ← uvm_tracker_wait_for_entry steps new; Some (status, t, new)
  else Some (status, t, new).

(** A push: its channel and the value its end releases. *)
Definition uvm_push_get_tracker_entry (channel : option Z) (channel_tracking_value : Z)
  : option uvm_tracker_entry_t :=
  UVM_ASSERT (negb (channel_tracking_value =? 0)) ;;
  UVM_ASSERT (match channel with None => false | Some _ => true end) ;;
  Some (TrackerEntry channel channel_tracking_value).

Definition uvm_tracker_add_push (kv : bool) (t : uvm_tracker_t) (channel : option Z) (value : Z)
  : option (NV_STATUS * uvm_tracker_t) :=
  entry ← uvm_push_get_tracker_entry channel value; uvm_tracker_add_entry kv t entry.

Definition uvm_tracker_overwrite_with_push (kv : bool) (t : uvm_tracker_t) (channel : option Z) (value : Z)
  : option uvm_tracker_t :=
  entry ← uvm_push_get_tracker_entry channel value; uvm_tracker_overwrite_with_entry kv t entry.

Definition uvm_push_wait (steps : list spin_step) (channel : option Z) (value : Z) : option NV_STATUS :=
  entry ← uvm_push_get_tracker_entry channel value;
  '(status, _) ← uvm_tracker_wait_for_entry steps entry; Some status.

Definition uvm_tracker_add_push_safe (kv : bool) (steps : list spin_step) (t : uvm_tracker_t)
    (channel : option Z) (value : Z) : option (NV_STATUS * uvm_tracker_t) :=
  '(status, t) ← uvm_tracker_add_push kv t channel value;
  if decide (status = NV_ERR_NO_MEMORY) then
    status ← uvm_push_wait steps channel value; Some (status, t)
  else Some (status, t).

(** ** The abstract value of a tracker: channels and the values they must reach *)

Abbreviation tracked := (gmap (option Z) Z).
Definition entry_kv (e : uvm_tracker_entry_t) : option Z * Z := (te_channel e, te_value e).
Definition amap (es : list uvm_tracker_entry_t) : tracked := list_to_map (entry_kv <$> es).
Definition channels (es : list uvm_tracker_entry_t) : list (option Z) := te_channel <$> es.

Definition union_max (m1 m2 : tracked) : tracked := union_with (fun a b => Some (Z.max a b)) m1 m2.

(** What is still to be waited for. *)
Definition pending (completed : Z -> Z -> bool) (m : tracked) : tracked :=
  map_imap (fun c v => if uvm_tracker_is_entry_completed completed (TrackerEntry c v) then None else Some v) m.

(** What a channel promises to trackers: a value is reached before any value
    past it. *)
Class ChannelProgress (completed : Z -> Z -> bool) : Prop :=
  completed_antitone : forall c v w, v <= w -> completed c w = true -> completed c v = true.

(** The tracking semaphores of the channels keep the promise. *)
Definition sem_completed (values : Z -> Z) (c value : Z) : bool :=
  match Tracking.uvm_gpu_tracking_semaphore_is_value_completed (values c) (u32 (values c)) value with
  | Some (b, _) => b
  | None => false
  end.

#[export] Instance sem_progress (values : Z -> Z) :
  (forall c, is_u64 (values c)) -> ChannelProgress (sem_completed values).
Proof.
  intros Hv c v w Hvw. unfold sem_completed. pose proof (Hv c) as [H0 H1].
  destruct (Tracking.is_completed_exact (values c) (values c) v) as (c1 & -> & _);
    [lia|unfold Tracking.UVM_GPU_SEMAPHORE_MAX_JUMP, Tracking.UVM_CHANNEL_NUM_GPFIFO_ENTRIES_MAX; lia|done|].
  destruct (Tracking.is_completed_exact (values c) (values c) w) as (c2 & -> & _);
    [lia|unfold Tracking.UVM_GPU_SEMAPHORE_MAX_JUMP, Tracking.UVM_CHANNEL_NUM_GPFIFO_ENTRIES_MAX; lia|done|].
  rewrite !Z.leb_le. lia.
Qed.

Lemma union_max_lookup m1 m2 c :
  union_max m1 m2 !! c = union_with (fun a b => Some (Z.max a b)) (m1 !! c) (m2 !! c).
Proof. apply lookup_union_with. Qed.

Lemma union_max_assoc m1 m2 m3 : union_max m1 (union_max m2 m3) = union_max (union_max m1 m2) m3.
Proof.
  apply map_eq. intros c. rewrite !union_max_lookup.
  destruct (m1 !! c), (m2 !! c), (m3 !! c); cbn; try done. f_equal. lia.
Qed.

Lemma pending_union completed `{!ChannelProgress completed} m1 m2 :
  pending completed (union_max m1 m2) = union_max (pending completed m1) (pending completed m2).
Proof.
  apply map_eq. intros c. unfold pending. rewrite map_lookup_imap, !union_max_lookup, !map_lookup_imap.
  destruct (m1 !! c) as [a|], (m2 !! c) as [b|]; cbn [union_with option_union_with mbind option_bind];
    [|by destruct (uvm_tracker_is_entry_completed _ _)..|done].
  - destruct c as [c|]; cbn -[Z.max]; [|done].
    destruct (completed c a) eqn:Ea, (completed c b) eqn:Eb.
    + replace (completed c (Z.max a b)) with true; [done|]. by destruct (Z.max_spec a b) as [[_ ->]|[_ ->]].
    + destruct (decide (a <= b)) as [Hle|]; [by rewrite Z.max_r, Eb by lia|].
      assert (completed c b = true) by (apply (completed_antitone c b a); [lia|done]). congruence.
    + destruct (decide (b <= a)) as [Hle|]; [by rewrite Z.max_l, Ea by lia|].
      assert (completed c a = true) by (apply (completed_antitone c a b); [lia|done]). congruence.
    + cbn -[Z.max]. by destruct (Z.max_spec a b) as [[_ ->]|[_ ->]]; rewrite ?Ea, ?Eb.
Qed.

Lemma pending_later completed1 completed2 m :
  (forall c v, completed1 c v = true -> completed2 c v = true) ->
  pending completed2 (pending completed1 m) = pending completed2 m.
Proof.
  intros H12. apply map_eq. intros c. unfold pending. rewrite !map_lookup_imap.
  destruct (m !! c) as [v|]; cbn; [|done]. destruct c as [c|]; cbn; [|done].
  destruct (completed1 c v) eqn:E; cbn; [by rewrite (H12 _ _ E)|done].
Qed.

Lemma fst_entry_kv es : (entry_kv <$> es).*1 = channels es.
Proof. unfold channels. rewrite <- list_fmap_compose. done. Qed.

Lemma amap_lookup es c v :
  NoDup (channels es) -> amap es !! c = Some v <-> TrackerEntry c v ∈ es.
Proof.
  intros Hnd. unfold amap. rewrite <- elem_of_list_to_map by by rewrite fst_entry_kv.
  rewrite list_elem_of_fmap. split.
  - by intros ([c' v'] & [= -> ->] & H).
  - intros H. by exists (TrackerEntry c v).
Qed.

Lemma amap_cons e es : te_channel e ∉ channels es -> amap (e :: es) = union_max {[te_channel e := te_value e]} (amap es).
Proof.
  intros H. unfold amap. rewrite fmap_cons. unfold entry_kv at 1. rewrite list_to_map_cons.
  assert (Hn : (list_to_map (entry_kv <$> es) : tracked) !! te_channel e = None).
  { apply not_elem_of_list_to_map_1. by rewrite fst_entry_kv. }
  apply map_eq. intros c. rewrite union_max_lookup. destruct (decide (c = te_channel e)) as [->|Hne].
  - rewrite lookup_insert_eq, lookup_singleton_eq, Hn. done.
  - rewrite lookup_insert_ne, lookup_singleton_ne by done. by destruct (_ !! c).
Qed.

(** ** Invariant and reservation *)

Record tracker_ok (t : uvm_tracker_t) : Prop := {
  tk_nodup : NoDup (channels (tk_entries t));
  tk_fits : tk_size t <= tk_max_size t;
  tk_store : tk_max_size t = 1 /\ tk_storage t = StaticEntries \/
             8 <= tk_max_size t /\ tk_storage t = DynamicEntries;
}.

Lemma get_entries_ok t : tracker_ok t -> uvm_tracker_get_entries t = Some (tk_entries t).
Proof.
  intros [_ _ Hs]. unfold uvm_tracker_get_entries, tracker_is_using_static_entries, STATIC_SIZE.
  destruct Hs as [[-> _]|[H ->]]; [done|]. by destruct (tk_max_size t =? 1).
Qed.

Lemma tracker_init_ok : tracker_ok uvm_tracker_init.
Proof. split; [apply NoDup_nil_2|done|by left]. Qed.

(** Only the entries change. *)
Lemma with_entries_ok t es :
  tracker_ok t -> NoDup (channels es) -> Z.of_nat (length es) <= tk_max_size t ->
  tracker_ok (Tracker es (tk_storage t) (tk_max_size t)).
Proof. intros [_ _ Hs] Hnd Hl. by split. Qed.

Lemma roundup_pow_of_two_spec n :
  0 < n <= 2 ^ 31 -> n <= roundup_pow_of_two n <= 2 ^ 31.
Proof.
  intros Hn. unfold roundup_pow_of_two. destruct (decide (n = 1)) as [->|]; [by vm_compute|].
  pose proof (Z.log2_up_spec n ltac:(lia)). split; [lia|]. apply Z.pow_le_mono_r; [lia|].
  replace 31 with (Z.log2_up (2 ^ 31)) by reflexivity. apply Z.log2_up_le_mono. lia.
Qed.

Lemma reserve_spec kv t n :
  tracker_ok t -> 0 <= n -> tk_size t + n <= 2 ^ 31 ->
  (kv = false /\ tk_max_size t < tk_size t + n /\ uvm_tracker_reserve kv t n = Some (NV_ERR_NO_MEMORY, t)) \/
  exists t', uvm_tracker_reserve kv t n = Some (NV_OK, t') /\ tracker_ok t' /\ tk_entries t' = tk_entries t /\
    tk_size t + n <= tk_max_size t' /\ (tk_size t + n <= tk_max_size t -> t' = t).
Proof.
  intros Hok Hn Hb. assert (0 <= tk_size t) by (unfold tk_size; lia).
  unfold uvm_tracker_reserve. rewrite (u32_small (tk_size t + n)) by (unfold is_u32; lia).
  destruct (Z.ltb_spec (tk_max_size t) (tk_size t + n)) as [Hlt|Hge].
  - destruct kv; [right|by left]. assert (1 <= tk_max_size t) by (destruct Hok as [_ _ [[]|[]]]; lia).
    pose proof (roundup_pow_of_two_spec (tk_size t + n) ltac:(lia)).
    rewrite (u32_small (roundup_pow_of_two _)) by (unfold is_u32; lia).
    rewrite (proj2 (Z.leb_le _ _)) by lia. cbn [UVM_ASSERT mbind option_bind].
    eexists. split; [done|]. split_and!; [|done|cbn; lia|lia].
    split; cbn; [apply Hok|unfold tk_size in *; cbn; lia|right; split; [lia|done]].
  - right. exists t. done.
Qed.

(** ** Adding entries *)

Lemma raise_entry_spec es new :
  NoDup (channels es) ->
  match raise_entry es new with
  | Some es' => te_channel new ∈ channels es /\ channels es' = channels es /\
      amap es' = union_max (amap es) {[te_channel new := te_value new]}
  | None => te_channel new ∉ channels es
  end.
Proof.
  induction es as [|e es IH]; cbn [raise_entry]; [intros _; apply not_elem_of_nil|].
  intros [Hn Hnd]%NoDup_cons. destruct (decide (te_channel e = te_channel new)) as [E|Hne].
  - split_and!; [cbn; rewrite <- E; by left|done|].
    rewrite (amap_cons (TrackerEntry _ _)), (amap_cons e) by done. cbn [te_channel te_value]. rewrite E.
    apply map_eq. intros c. rewrite !union_max_lookup. destruct (decide (c = te_channel new)) as [->|].
    + rewrite !lookup_singleton_eq. assert (Hnone : amap es !! te_channel new = None).
      { apply not_elem_of_list_to_map_1. rewrite fst_entry_kv, <- E. done. }
      by rewrite Hnone.
    + rewrite !lookup_singleton_ne by done. by destruct (amap es !! c).
  - specialize (IH Hnd). destruct (raise_entry es new) as [es'|]; cbn [mbind option_bind].
    + destruct IH as (H1 & H2 & H3). split_and!; [by right|unfold channels in *; by rewrite !fmap_cons, H2|].
      rewrite (amap_cons e es'), (amap_cons e es), H3 by (rewrite ?H2; done). apply union_max_assoc.
    + apply not_elem_of_cons. split; [congruence|done].
Qed.

Definition single (e : uvm_tracker_entry_t) : tracked := {[te_channel e := te_value e]}.

(** An added entry raises the value of its channel; failure changes nothing and
    is impossible when the channel is tracked or there is room. *)
Definition added (kv : bool) (t : uvm_tracker_t) (e : uvm_tracker_entry_t) (t' : uvm_tracker_t) : Prop :=
  tracker_ok t' /\ amap (tk_entries t') = union_max (amap (tk_entries t)) (single e) /\
  (te_channel e ∈ channels (tk_entries t) /\ channels (tk_entries t') = channels (tk_entries t) /\
     tk_max_size t' = tk_max_size t \/
   (te_channel e ∉ channels (tk_entries t)) /\
     channels (tk_entries t') = channels (tk_entries t) ++ [te_channel e] /\
     (tk_size t < tk_max_size t -> tk_max_size t' = tk_max_size t)).

Lemma amap_snoc es e :
  te_channel e ∉ channels es -> amap (es ++ [e]) = union_max (amap es) (single e).
Proof.
  intros H. unfold amap. rewrite fmap_app. cbn. rewrite list_to_map_app. unfold single.
  apply map_eq. intros c. rewrite union_max_lookup, lookup_union. cbn.
  destruct (decide (c = te_channel e)) as [->|].
  - assert (Hn : (list_to_map (entry_kv <$> es) : tracked) !! te_channel e = None).
    { apply not_elem_of_list_to_map_1. by rewrite fst_entry_kv. }
    by rewrite lookup_insert_eq, lookup_singleton_eq, Hn.
  - rewrite lookup_insert_ne, lookup_singleton_ne, lookup_empty by done. by destruct (_ !! c).
Qed.

Lemma add_entry_spec kv t e :
  tracker_ok t -> tk_size t + 1 <= 2 ^ 31 ->
  (uvm_tracker_add_entry kv t e = Some (NV_ERR_NO_MEMORY, t) /\ kv = false /\
   (te_channel e ∉ channels (tk_entries t)) /\ tk_max_size t <= tk_size t) \/
  exists t', uvm_tracker_add_entry kv t e = Some (NV_OK, t') /\ added kv t e t'.
Proof.
  intros Hok Hb. unfold uvm_tracker_add_entry. rewrite get_entries_ok by done. cbn [mbind option_bind].
  pose proof (raise_entry_spec (tk_entries t) e (tk_nodup t Hok)) as Hr.
  destruct (raise_entry (tk_entries t) e) as [es'|].
  - destruct Hr as (H1 & H2 & H3). right. eexists. split; [done|]. split_and!; [|done|left; by split_and!].
    apply with_entries_ok; [done|rewrite H2; apply Hok|].
    replace (length es') with (length (tk_entries t)); [apply Hok|].
    transitivity (length (channels es')); [rewrite H2|]; unfold channels; by rewrite length_fmap.
  - unfold add_new_entry.
    destruct (reserve_spec kv t 1 Hok ltac:(lia) Hb) as [(Hkv & Hlt & ->)|(t' & -> & Hok' & He & Hroom & Hsame)].
    + left. cbn [mbind option_bind]. rewrite decide_False by done. split_and!; try done. lia.
    + right. cbn [mbind option_bind]. rewrite decide_True by done.
      assert (Hsz : tk_size t' = tk_size t) by (unfold tk_size; by rewrite He).
      rewrite (proj2 (Z.ltb_lt _ _)) by lia. cbn [UVM_ASSERT mbind option_bind].
      rewrite get_entries_ok, He by done. cbn [mbind option_bind]. eexists. split; [done|].
      unfold tk_size in *. split_and!; cbn [tk_entries tk_max_size].
      * apply with_entries_ok; [done| |rewrite length_app; cbn [length]; lia].
        unfold channels. rewrite fmap_app. apply NoDup_app. split_and!; [apply Hok| |apply NoDup_singleton].
        intros c Hc ->%list_elem_of_singleton. done.
      * by apply amap_snoc.
      * right. split_and!; [done|unfold channels; by rewrite fmap_app|].
        unfold tk_size. intros Hlt. by rewrite Hsame by lia.
Qed.

(** The channels of the source that the destination lacks. *)
Definition missing (dst src : list uvm_tracker_entry_t) : list uvm_tracker_entry_t :=
  List.filter (fun s => negb (has_channel (te_channel s) dst)) src.

Lemma has_channel_spec c es : has_channel c es = true <-> c ∈ channels es.
Proof.
  unfold has_channel, channels. rewrite existsb_exists, list_elem_of_fmap. split.
  - intros (d & Hd & Hc). exists d. apply bool_decide_eq_true in Hc. split; [done|by apply list_elem_of_In].
  - intros (d & -> & Hd). exists d. split; [by apply list_elem_of_In|by apply bool_decide_eq_true].
Qed.

Lemma missing_mono dst dst' src :
  (forall c, c ∈ channels dst -> c ∈ channels dst') -> (length (missing dst' src) <= length (missing dst src))%nat.
Proof.
  intros H. unfold missing. induction src as [|s src IH]; [done|]. cbn.
  destruct (has_channel (te_channel s) dst) eqn:E1, (has_channel (te_channel s) dst') eqn:E2; cbn; try lia.
  pose proof (proj2 (has_channel_spec _ _) (H _ (proj1 (has_channel_spec _ _) E1))). congruence.
Qed.

Lemma missing_le dst src : (length (missing dst src) <= length src)%nat.
Proof. apply List.filter_length_le. Qed.

(** With room for the missing channels every addition succeeds. *)
Lemma add_entries_spec kv es : forall t,
  tracker_ok t -> NoDup (channels es) ->
  tk_size t + Z.of_nat (length (missing (tk_entries t) es)) <= tk_max_size t ->
  tk_size t + Z.of_nat (length es) <= 2 ^ 31 ->
  exists t', add_entries kv t es = Some t' /\ tracker_ok t' /\
    amap (tk_entries t') = union_max (amap (tk_entries t)) (amap es).
Proof.
  induction es as [|e es IH]; intros t Hok Hnd Hroom Hb.
  - exists t. split_and!; [done|done|]. apply map_eq. intros c. rewrite union_max_lookup.
    change (amap []) with (∅ : tracked). rewrite lookup_empty. by destruct (amap _ !! c).
  - apply NoDup_cons in Hnd as [Hn Hnd]. cbn [length] in Hb. cbn [add_entries].
    change (missing (tk_entries t) (e :: es)) with
      (if negb (has_channel (te_channel e) (tk_entries t)) then e :: missing (tk_entries t) es
       else missing (tk_entries t) es) in Hroom.
    destruct (add_entry_spec kv t e Hok ltac:(lia)) as [(_ & _ & Hc & Hfull)|(t1 & -> & Hok1 & Ha & Hcase)].
    { exfalso. assert (Hh : has_channel (te_channel e) (tk_entries t) = false).
      { apply not_true_is_false. by rewrite has_channel_spec. }
      rewrite Hh in Hroom. cbn in Hroom. lia. }
    cbn [mbind option_bind]. rewrite bool_decide_true by done. cbn [UVM_ASSERT mbind option_bind].
    assert (Hs1 : tk_size t1 + Z.of_nat (length (missing (tk_entries t1) es)) <= tk_max_size t1 /\
                  tk_size t1 <= tk_size t + 1).
    { unfold tk_size in *. rewrite <- (length_fmap te_channel (tk_entries t1)).
      rewrite <- (length_fmap te_channel (tk_entries t)) in *.
      change (te_channel <$> ?x) with (channels x) in *.
      destruct Hcase as [(Hin & Hch & Hm)|(Hnin & Hch & Hm)]; rewrite Hch.
      - pose proof (missing_mono (tk_entries t) (tk_entries t1) es ltac:(by rewrite Hch)).
        rewrite (proj2 (has_channel_spec _ _) Hin) in Hroom. cbn in Hroom. lia.
      - pose proof (missing_mono (tk_entries t) (tk_entries t1) es ltac:(rewrite Hch; set_solver)).
        assert (Hh : has_channel (te_channel e) (tk_entries t) = false).
        { apply not_true_is_false. by rewrite has_channel_spec. }
        rewrite Hh in Hroom. cbn [negb length] in Hroom. rewrite length_app. cbn [length].
        rewrite Hm by lia. lia. }
    destruct (IH t1 Hok1 Hnd) as (t' & E & Hok' & Ha'); [lia|lia|].
    exists t'. split_and!; [done|done|]. rewrite Ha', Ha, (amap_cons e es) by done. by rewrite union_max_assoc.
Qed.

(** ** Removing completed entries *)

Section remove.
Context (completed : Z -> Z -> bool).
Abbreviation is_done := (uvm_tracker_is_entry_completed completed).
Definition still (es : list uvm_tracker_entry_t) : list uvm_tracker_entry_t :=
  List.filter (fun e => negb (is_done e)) es.

Lemma remove_loop_spec fuel : forall pre post,
  (length post <= fuel)%nat -> still pre = pre ->
  exists es', remove_loop completed fuel (length pre) (pre ++ post) = Some es' /\
    es' ≡ₚ still (pre ++ post).
Proof.
  induction fuel as [|n IH]; intros pre post Hf Hpre.
  - destruct post; [|cbn in Hf; lia]. rewrite app_nil_r. exists pre. cbn [remove_loop].
    rewrite (proj2 (Nat.ltb_ge _ _)) by lia. by rewrite Hpre.
  - destruct post as [|e post].
    { rewrite app_nil_r. exists pre. cbn [remove_loop]. rewrite (proj2 (Nat.ltb_ge _ _)) by lia. by rewrite Hpre. }
    cbn [remove_loop]. rewrite length_app. cbn [length] in *. rewrite (proj2 (Nat.ltb_lt _ _)) by lia.
    rewrite list_lookup_middle by done. cbn [mbind option_bind].
    destruct (is_done e) eqn:Ee.
    + assert (Hst : still (pre ++ e :: post) ≡ₚ still (pre ++ post)).
      { unfold still. rewrite !List.filter_app. cbn. by rewrite Ee. }
      destruct (decide (post = [])) as [->|Hne].
      * rewrite last_snoc. cbn [mbind option_bind length]. replace (length pre + 1 - 1)%nat with (length pre) by lia.
        rewrite Nat.eqb_refl, take_app_length. destruct (IH pre [] ltac:(cbn; lia) Hpre) as (es' & E & HP).
        rewrite app_nil_r in *. exists es'. split; [done|]. by rewrite HP, Hst.
      * destruct (exists_last Hne) as (mid & l & ->). rewrite app_comm_cons, app_assoc, last_snoc.
        cbn [mbind option_bind]. rewrite length_app in *. cbn [length] in *.
        rewrite (proj2 (Nat.eqb_neq _ _)) by lia. rewrite <- app_assoc.
        rewrite insert_app_r_alt, Nat.sub_diag by done. cbn [insert list_insert app].
        change (pre ++ l :: mid ++ [l]) with (pre ++ ((l :: mid) ++ [l])). rewrite app_assoc.
        rewrite take_app_length' by (rewrite length_app; cbn [length]; lia).
        destruct (IH pre (l :: mid)) as (es' & E & HP); [cbn [length]; lia|done|].
        exists es'. split; [done|]. rewrite HP. cbn [app] in Hst. rewrite Hst.
        unfold still. rewrite !List.filter_app. cbn. destruct (is_done l); cbn; [by rewrite app_nil_r|].
        by rewrite Permutation_cons_append.
    + destruct (IH (pre ++ [e]) post) as (es' & E & HP); [lia| |].
      { unfold still in *. rewrite List.filter_app, Hpre. cbn. by rewrite Ee. }
      rewrite <- app_assoc in *. rewrite length_app in E. cbn [length app] in *.
      rewrite Nat.add_1_r in E. eauto.
Qed.

Lemma still_subset es e : e ∈ still es -> e ∈ es.
Proof. rewrite !list_elem_of_In. unfold still. rewrite List.filter_In. by intros [? _]. Qed.

Lemma still_nodup es : NoDup (channels es) -> NoDup (channels (still es)).
Proof.
  induction es as [|e es IH]; [done|]. cbn. intros [Hn Hnd]%NoDup_cons. destruct (negb (is_done e)); [|by apply IH].
  apply NoDup_cons. split; [|by apply IH]. intros (d & Hd & Hin)%list_elem_of_fmap. apply Hn.
  apply list_elem_of_fmap. exists d. split; [done|by apply still_subset].
Qed.

Lemma amap_still es es' :
  NoDup (channels es) -> es' ≡ₚ still es -> NoDup (channels es') /\ amap es' = pending completed (amap es).
Proof.
  intros Hnd HP. assert (Hnd' : NoDup (channels es')).
  { unfold channels. rewrite HP. by apply still_nodup. }
  split; [done|]. apply map_eq. intros c. apply option_eq. intros v.
  rewrite amap_lookup by done. unfold pending. rewrite map_lookup_imap, bind_Some.
  assert (Hm : TrackerEntry c v ∈ es' <-> TrackerEntry c v ∈ es /\ is_done (TrackerEntry c v) = false).
  { rewrite HP, list_elem_of_In. unfold still. rewrite List.filter_In, <- list_elem_of_In, negb_true_iff. done. }
  rewrite Hm. split.
  - intros [H1 H2]. exists v. split; [by apply amap_lookup|]. by rewrite H2.
  - intros (w & H1 & H2). destruct (is_done (TrackerEntry c w)) eqn:E; [done|]. injection H2 as ->.
    split; [by apply amap_lookup|done].
Qed.

Lemma remove_completed_spec t :
  tracker_ok t ->
  exists t', uvm_tracker_remove_completed completed t = Some t' /\ tracker_ok t' /\
    tk_entries t' ≡ₚ still (tk_entries t) /\ amap (tk_entries t') = pending completed (amap (tk_entries t)) /\
    tk_max_size t' = tk_max_size t /\ tk_storage t' = tk_storage t /\ tk_size t' <= tk_size t.
Proof.
  intros Hok. unfold uvm_tracker_remove_completed. rewrite get_entries_ok by done. cbn [mbind option_bind].
  destruct (remove_loop_spec (length (tk_entries t)) [] (tk_entries t)) as (es' & E & HP); [done|done|].
  cbn [length app] in E, HP. rewrite E. cbn [mbind option_bind]. eexists. split; [done|].
  destruct (amap_still _ _ (tk_nodup t Hok) HP) as [Hnd Ha].
  assert (Hl : (length es' <= length (tk_entries t))%nat).
  { rewrite (Permutation_length HP). apply List.filter_length_le. }
  pose proof (tk_fits t Hok). unfold tk_size in *.
  split_and!; try done; cbn; [|lia]. apply with_entries_ok; [done|done|lia].
Qed.
End remove.

(** ** Merging *)

Section merge.
Context (completed1 completed2 : Z -> Z -> bool) `{!ChannelProgress completed2}.
Context (later : forall c v, completed1 c v = true -> completed2 c v = true).
Context (dst src : uvm_tracker_t) (Hdst : tracker_ok dst) (Hsrc : tracker_ok src).
Context (Hbound : tk_size dst + tk_size src <= 2 ^ 31).

Definition left_to_wait (t : uvm_tracker_t) : tracked := pending completed2 (amap (tk_entries t)).

(** Enough memory at once. *)
Lemma merge_reserved kv d s :
  tracker_ok d -> tracker_ok s -> tk_size d + tk_size s <= 2 ^ 31 ->
  tk_size d + Z.of_nat (length (missing (tk_entries d) (tk_entries s))) <= tk_max_size d ->
  exists d', (es ← uvm_tracker_get_entries s; d' ← add_entries kv d es; Some (NV_OK, d', s)) =
      Some (NV_OK, d', s) /\ tracker_ok d' /\
    amap (tk_entries d') = union_max (amap (tk_entries d)) (amap (tk_entries s)).
Proof.
  intros Hd Hs Hb Hroom. rewrite get_entries_ok by done. cbn [mbind option_bind].
  destruct (add_entries_spec kv (tk_entries s) d Hd (tk_nodup s Hs) Hroom Hb) as (d' & -> & Hok & Ha).
  exists d'. split; [done|]. by split.
Qed.

Lemma add_tracker_spec kv1 kv2 kv3 :
  exists status dst' src',
    uvm_tracker_add_tracker completed1 completed2 false kv1 kv2 kv3 dst src = Some (status, dst', src') /\
    tracker_ok dst' /\ tracker_ok src' /\ left_to_wait src' = left_to_wait src /\
    (status = NV_OK /\ left_to_wait dst' = union_max (left_to_wait dst) (left_to_wait src) \/
     status = NV_ERR_NO_MEMORY /\ kv1 = false /\ kv2 = false /\ left_to_wait dst' = left_to_wait dst).
Proof.
  assert (Hs0 : 0 <= tk_size src) by (unfold tk_size; lia). unfold uvm_tracker_add_tracker, left_to_wait.
  destruct (reserve_spec kv1 dst (tk_size src) Hdst Hs0 Hbound) as
    [(Hkv1 & _ & ->)|(d1 & -> & Hd1 & He1 & Hroom & _)]; cbn [mbind option_bind].
  - rewrite decide_True by done.
    destruct (remove_completed_spec completed1 dst Hdst) as (d1 & -> & Hd1 & _ & Ha1 & _ & _ & Hsz1).
    destruct (remove_completed_spec completed2 src Hsrc) as (s1 & -> & Hs1 & _ & Ha2 & _ & _ & Hsz2).
    cbn [mbind option_bind]. unfold reserve_for_entries_from_tracker. rewrite !get_entries_ok by done.
    cbn [mbind option_bind]. change (List.filter _ (tk_entries s1)) with (missing (tk_entries d1) (tk_entries s1)).
    pose proof (missing_le (tk_entries d1) (tk_entries s1)) as Hm.
    assert (Hpd : pending completed2 (amap (tk_entries d1)) = pending completed2 (amap (tk_entries dst))).
    { rewrite Ha1. by apply pending_later. }
    assert (Hps : pending completed2 (amap (tk_entries s1)) = pending completed2 (amap (tk_entries src))).
    { rewrite Ha2. by apply pending_later. }
    destruct (reserve_spec kv2 d1 (Z.of_nat (length (missing (tk_entries d1) (tk_entries s1)))) Hd1) as
      [(Hkv2 & _ & ->)|(d2 & -> & Hd2 & He2 & Hroom & _)]; [lia|unfold tk_size in *; lia|..];
      cbn [mbind option_bind].
    + rewrite decide_False by done. eexists _, _, _. split; [done|]. split_and!; try done.
      right. by split_and!.
    + rewrite decide_True by done.
      destruct (merge_reserved kv3 d2 s1 Hd2 Hs1) as (d3 & E & Hd3 & Ha3).
      { unfold tk_size in *. rewrite He2. lia. }
      { unfold tk_size in *. by rewrite He2. }
      eexists _, _, _. split; [exact E|]. split_and!; try done. left. split; [done|].
      by rewrite Ha3, pending_union, He2, Hpd, Hps.
  - rewrite decide_False by done. cbn [mbind option_bind]. rewrite decide_True by done.
    destruct (merge_reserved kv3 d1 src Hd1 Hsrc) as (d3 & E & Hd3 & Ha3).
    { unfold tk_size in *. by rewrite He1. }
    { pose proof (missing_le (tk_entries d1) (tk_entries src)). unfold tk_size in *. rewrite He1 in *. lia. }
    eexists _, _, _. split; [exact E|]. split_and!; try done. left. split; [done|].
    by rewrite Ha3, pending_union, He1.
Qed.
End merge.

(** C34. Merging trackers implements the union of what they wait for: whatever
    the memory allocator answers, [uvm_tracker_add_tracker] fails no assertion
    (in particular none of the additions behind a reservation fails), keeps both
    trackers well formed and the source's pending work unchanged, and either
    returns NV_OK with a destination that waits, for each channel, for the
    larger of the two values still to be reached, or returns NV_ERR_NO_MEMORY,
    only if both reservations failed, with the destination's pending work
    unchanged.  Entries that the channels have already completed may be
    dropped on the way. *)
Theorem tracker_merge_refines completed1 completed2 dst src kv1 kv2 kv3 :
  ChannelProgress completed2 ->
  (forall c v, completed1 c v = true -> completed2 c v = true) ->
  tracker_ok dst -> tracker_ok src -> tk_size dst + tk_size src <= 2 ^ 31 ->
  exists status dst' src',
    uvm_tracker_add_tracker completed1 completed2 false kv1 kv2 kv3 dst src = Some (status, dst', src') /\
    tracker_ok dst' /\ tracker_ok src' /\ left_to_wait completed2 src' = left_to_wait completed2 src /\
    (status = NV_OK /\
       left_to_wait completed2 dst' = union_max (left_to_wait completed2 dst) (left_to_wait completed2 src) \/
     status = NV_ERR_NO_MEMORY /\ kv1 = false /\ kv2 = false /\
       left_to_wait completed2 dst' = left_to_wait completed2 dst).
Proof. intros Hp Hl Hd Hs Hb. by apply add_tracker_spec. Qed.

Definition demo_dst : uvm_tracker_t := Tracker [TrackerEntry (Some 1) 10] StaticEntries 1.
Definition demo_src : uvm_tracker_t :=
  Tracker [TrackerEntry (Some 1) 12; TrackerEntry (Some 2) 3; TrackerEntry (Some 3) 4] DynamicEntries 8.
Definition demo_values (c : Z) : Z := if c =? 1 then 11 else if c =? 2 then 3 else 0.

Lemma demo_values_u64 c : is_u64 (demo_values c).
Proof. unfold demo_values. destruct (c =? 1), (c =? 2); by vm_compute. Qed.

Lemma demo_dst_ok : tracker_ok demo_dst.
Proof. split; [apply NoDup_singleton|by vm_compute|by left]. Qed.
Lemma demo_src_ok : tracker_ok demo_src.
Proof. split; [apply (bool_decide_unpack _); by vm_compute|by vm_compute|right; by split]. Qed.

(** No memory at first: the sweeps free the only entry of the destination and
    one of the source's. *)
Lemma tracker_merge_refines_witness :
  exists status dst' src',
    uvm_tracker_add_tracker (sem_completed demo_values) (sem_completed demo_values) false false true false
      demo_dst demo_src = Some (status, dst', src') /\
    tracker_ok dst' /\ tracker_ok src' /\
    left_to_wait (sem_completed demo_values) src' = left_to_wait (sem_completed demo_values) demo_src /\
    (status = NV_OK /\
       left_to_wait (sem_completed demo_values) dst' =
       union_max (left_to_wait (sem_completed demo_values) demo_dst) (left_to_wait (sem_completed demo_values) demo_src) \/
     status = NV_ERR_NO_MEMORY /\ false = false /\ true = false /\
       left_to_wait (sem_completed demo_values) dst' = left_to_wait (sem_completed demo_values) demo_dst).
Proof.
  apply (tracker_merge_refines (sem_completed demo_values) (sem_completed demo_values) demo_dst demo_src false true false).
  - apply sem_progress, demo_values_u64.
  - done.
  - apply demo_dst_ok.
  - apply demo_src_ok.
  - by vm_compute.
Defined.

Example tracker_merge_demo :
  uvm_tracker_add_tracker (sem_completed demo_values) (sem_completed demo_values) false false true false
    demo_dst demo_src =
  Some (NV_OK, Tracker [TrackerEntry (Some 1) 12; TrackerEntry (Some 3) 4] DynamicEntries 8,
        Tracker [TrackerEntry (Some 1) 12; TrackerEntry (Some 3) 4] DynamicEntries 8).
Proof. by vm_compute. Qed.

(** ** Waiting *)

Section wait.
Implicit Types (t : uvm_tracker_t) (steps : list spin_step).

Definition seen_done steps (e : uvm_tracker_entry_t) : Prop :=
  exists sp, sp ∈ steps /\ uvm_tracker_is_entry_completed (sp_completed sp) e = true.

(** An error a step reports, of the driver or of a tracked channel. *)
Definition reported steps (es : list uvm_tracker_entry_t) (status : NV_STATUS) : Prop :=
  exists sp, sp ∈ steps /\
    (status = sp_global_status sp \/ exists e c, e ∈ es /\ te_channel e = Some c /\ status = sp_channel_status sp c).

Lemma first_error_spec check es :
  Forall (fun e => te_channel e <> None) es ->
  exists status, first_error check es = Some status /\
    (status <> NV_OK -> exists e c, e ∈ es /\ te_channel e = Some c /\ status = check c).
Proof.
  induction 1 as [|e es Hc _ IH]; cbn; [by exists NV_OK|].
  destruct (te_channel e) as [c|] eqn:Ec; [|done]. cbn.
  destruct (decide (check c = NV_OK)) as [E|Hne].
  - destruct IH as (st & -> & H). exists st. split; [done|]. intros (e' & c' & H1 & H2 & H3)%H.
    exists e', c'. split; [by right|done].
  - exists (check c). split; [done|]. intros _. exists e, c. split; [by left|done].
Qed.

Lemma is_completed_spec completed t :
  tracker_ok t ->
  exists t', uvm_tracker_is_completed completed t = Some (tk_size t' =? 0, t') /\ tracker_ok t' /\
    tk_entries t' ≡ₚ still completed (tk_entries t) /\
    tk_max_size t' = tk_max_size t /\ tk_storage t' = tk_storage t.
Proof.
  intros Hok. destruct (remove_completed_spec completed t Hok) as (t' & E & Hok' & HP & _ & Hm & Hst & _).
  exists t'. unfold uvm_tracker_is_completed. rewrite E. by split_and!.
Qed.

Lemma still_elem completed es es' e :
  es' ≡ₚ still completed es -> e ∈ es' <->
  e ∈ es /\ uvm_tracker_is_entry_completed completed e = false.
Proof.
  intros HP. rewrite HP, list_elem_of_In. unfold still.
  by rewrite List.filter_In, <- list_elem_of_In, negb_true_iff.
Qed.

Lemma size_0 t : (tk_size t =? 0) = true -> tk_entries t = [].
Proof. unfold tk_size. intros H%Z.eqb_eq. by destruct (tk_entries t). Qed.

Lemma check_errors_spec sp t :
  tracker_ok t -> Forall (fun e => te_channel e <> None) (tk_entries t) ->
  exists status, uvm_tracker_check_errors sp t = Some status /\
    (status <> NV_OK -> reported [sp] (tk_entries t) status).
Proof.
  intros Hok Hc. unfold uvm_tracker_check_errors, reported.
  destruct (decide (sp_global_status sp = NV_OK)).
  - rewrite get_entries_ok by done. cbn [mbind option_bind].
    destruct (first_error_spec (sp_channel_status sp) _ Hc) as (st & -> & H). exists st. split; [done|].
    intros Hst%H. exists sp. split; [by left|by right].
  - eexists. split; [done|]. intros _. exists sp. split; [by left|by left].
Qed.

Lemma reported_mono steps steps' es es' st :
  (forall sp, sp ∈ steps -> sp ∈ steps') -> (forall e, e ∈ es -> e ∈ es') ->
  reported steps es st -> reported steps' es' st.
Proof.
  intros H1 H2 (sp & Hsp & H). exists sp. split; [by apply H1|].
  destruct H as [->|(e & c & He & Hc & ->)]; [by left|right; exists e, c]. split; [by apply H2|done].
Qed.

Lemma wait_spec steps : forall t,
  tracker_ok t ->
  (exists sp, sp ∈ steps /\ forall e, e ∈ tk_entries t -> uvm_tracker_is_entry_completed (sp_completed sp) e = true) ->
  exists status t', uvm_tracker_wait steps t = Some (status, t') /\ tracker_ok t' /\ tk_entries t' = [] /\
    tk_max_size t' = tk_max_size t /\
    (status = NV_OK -> forall e, e ∈ tk_entries t -> seen_done steps e) /\
    (status <> NV_OK -> reported steps (tk_entries t) status).
Proof.
  induction steps as [|sp steps IH]; intros t Hok (spd & Hin & Hdone); [by apply not_elem_of_nil in Hin|].
  cbn [uvm_tracker_wait].
  destruct (is_completed_spec (sp_completed sp) t Hok) as (t1 & -> & Hok1 & HP & Hm & Hst). cbn [mbind option_bind].
  pose proof (fun e => still_elem _ _ _ e HP) as Hel.
  destruct (tk_size t1 =? 0) eqn:E0.
  - exists NV_OK, t1. pose proof (size_0 t1 E0) as Hnil. split_and!; try done. intros _ e He.
    exists sp. split; [by left|]. apply not_false_is_true. intros Hn.
    pose proof (proj2 (Hel e) (conj He Hn)) as Hc. rewrite Hnil in Hc. by apply not_elem_of_nil in Hc.
  - assert (Hnn : Forall (fun e => te_channel e <> None) (tk_entries t1)).
    { apply Forall_forall. intros e [_ He]%Hel Hc. unfold uvm_tracker_is_entry_completed in He.
      by rewrite Hc in He. }
    destruct (check_errors_spec sp t1 Hok1 Hnn) as (st & -> & Hrep). cbn [mbind option_bind].
    destruct (decide (st = NV_OK)) as [->|Hne].
    + destruct (IH t1 Hok1) as (st' & t' & E & Hok' & Hnil & Hm' & Hs & Hr).
      { apply elem_of_cons in Hin as [->|Hin].
        - exfalso. destruct (tk_entries t1) as [|e es] eqn:Ee; [unfold tk_size in E0; by rewrite Ee in E0|].
          destruct (proj1 (Hel e) ltac:(by left)) as [He Hf]. rewrite (Hdone e He) in Hf. done.
        - exists spd. split; [done|]. intros e [He _]%Hel. by apply Hdone. }
      exists st', t'. split_and!; try done; [by rewrite Hm'| |].
      * intros Hst' e He. destruct (uvm_tracker_is_entry_completed (sp_completed sp) e) eqn:Ec.
        -- exists sp. split; [by left|done].
        -- destruct (Hs Hst' e) as (sp' & Hsp' & Hd); [by apply Hel|]. exists sp'. split; [by right|done].
      * intros Hst'. eapply reported_mono; [..|by apply Hr]; [by right|]. by intros e [He _]%Hel.
    + destruct (is_completed_spec (sp_completed sp) t1 Hok1) as (t2 & -> & Hok2 & _ & Hm2 & _).
      cbn [mbind option_bind]. eexists _, _. split; [done|]. split_and!; try done.
      * apply with_entries_ok; [done|by apply NoDup_nil|]. pose proof (tk_fits _ Hok2). unfold tk_size in *. cbn. lia.
      * cbn. by rewrite Hm2, Hm.
      * intros _. eapply reported_mono; [..|by apply Hrep]; [|by intros e [He _]%Hel].
        intros sp' ->%list_elem_of_singleton. by left.
Qed.
End wait.

(** C35. Waiting for a tracker: if at some turn of the spin loop every tracked
    value has been reached, [uvm_tracker_wait] returns, with the tracker empty
    and its capacity unchanged; NV_OK says that every entry was observed
    complete, and an error is one that the driver or a tracked channel
    reported; no NULL channel is ever dereferenced. *)
Theorem tracker_wait_terminates steps t :
  tracker_ok t ->
  (exists sp, sp ∈ steps /\ forall e, e ∈ tk_entries t -> uvm_tracker_is_entry_completed (sp_completed sp) e = true) ->
  exists status t', uvm_tracker_wait steps t = Some (status, t') /\ tk_entries t' = [] /\
    tk_max_size t' = tk_max_size t /\
    (status = NV_OK -> forall e, e ∈ tk_entries t -> seen_done steps e) /\
    (status <> NV_OK -> reported steps (tk_entries t) status).
Proof.
  intros Hok Hd. destruct (wait_spec steps t Hok Hd) as (st & t' & H1 & _ & H2 & H3 & H4 & H5).
  exists st, t'. by split_and!.
Qed.

Definition demo_spin (n : Z) : spin_step := SpinStep (fun c v => v <=? n) (fun _ => NV_OK) NV_OK.

Lemma tracker_wait_terminates_witness :
  exists status t', uvm_tracker_wait [demo_spin 5; demo_spin 9; demo_spin 12] demo_src = Some (status, t') /\
    tk_entries t' = [] /\ tk_max_size t' = 8 /\
    (status = NV_OK -> forall e, e ∈ tk_entries demo_src -> seen_done [demo_spin 5; demo_spin 9; demo_spin 12] e) /\
    (status <> NV_OK -> reported [demo_spin 5; demo_spin 9; demo_spin 12] (tk_entries demo_src) status).
Proof.
  apply (tracker_wait_terminates [demo_spin 5; demo_spin 9; demo_spin 12] demo_src).
  - apply demo_src_ok.
  - exists (demo_spin 12). split; [by do 2 right; left|]. apply Forall_forall. by repeat constructor.
Defined.

(** Overwriting: with a single entry it never needs memory, so it cannot
    fail whatever the allocator answers, and leaves exactly that entry; from
    another tracker it either copies all its entries, or returns
    NV_ERR_NO_MEMORY with the destination empty; the source is not changed. *)
Theorem tracker_overwrite_correct kv t entry src :
  tracker_ok t -> tracker_ok src -> tk_size src <= 2 ^ 31 ->
  uvm_tracker_overwrite_with_entry kv t entry = Some (Tracker [entry] (tk_storage t) (tk_max_size t)) /\
  exists status t', uvm_tracker_overwrite kv t src = Some (status, t') /\ tracker_ok t' /\
    (status = NV_OK /\ tk_entries t' = tk_entries src \/
     status = NV_ERR_NO_MEMORY /\ kv = false /\ t' = uvm_tracker_clear t).
Proof.
  intros Hok Hs Hb.
  assert (Hmax : 1 <= tk_max_size t) by (destruct Hok as [_ _ [[]|[]]]; lia).
  assert (Hc : tracker_ok (uvm_tracker_clear t)).
  { apply with_entries_ok; [done|by apply NoDup_nil|cbn; lia]. }
  split.
  - unfold uvm_tracker_overwrite_with_entry, uvm_tracker_add_entry. rewrite get_entries_ok by done.
    cbn [mbind option_bind tk_entries uvm_tracker_clear raise_entry]. unfold add_new_entry.
    destruct (reserve_spec kv (uvm_tracker_clear t) 1 Hc) as [(_ & H & _)|(t' & -> & Hok' & He & _ & Hsame)];
      [lia|by vm_compute|change (tk_max_size t < 1) in H; lia|].
    rewrite Hsame by exact Hmax. cbn [mbind option_bind]. rewrite decide_True by done.
    change (tk_size (uvm_tracker_clear t)) with 0. cbn [tk_max_size uvm_tracker_clear].
    rewrite (proj2 (Z.ltb_lt _ _)) by lia. cbn [UVM_ASSERT mbind option_bind].
    change (Tracker [] (tk_storage t) (tk_max_size t)) with (uvm_tracker_clear t).
    by rewrite get_entries_ok by done.
  - unfold uvm_tracker_overwrite. assert (0 <= tk_size src) by (unfold tk_size; lia).
    destruct (reserve_spec kv (uvm_tracker_clear t) (tk_size src) Hc) as
      [(-> & _ & ->)|(t' & -> & Hok' & He & Hroom & _)]; [done|done|..]; cbn [mbind option_bind].
    + rewrite decide_False by done. eexists _, _. split; [done|]. split; [done|by right].
    + rewrite decide_True, !get_entries_ok by done. cbn [mbind option_bind]. eexists _, _. split; [done|].
      split; [|by left]. apply with_entries_ok; [done|apply Hs|].
      change (tk_size (uvm_tracker_clear t)) with 0 in Hroom. unfold tk_size in Hroom. lia.
Qed.

Lemma tracker_overwrite_correct_witness :
  uvm_tracker_overwrite_with_entry false demo_dst (TrackerEntry (Some 4) 1) =
    Some (Tracker [TrackerEntry (Some 4) 1] StaticEntries 1) /\
  exists status t', uvm_tracker_overwrite false demo_dst demo_src = Some (status, t') /\ tracker_ok t' /\
    (status = NV_OK /\ tk_entries t' = tk_entries demo_src \/
     status = NV_ERR_NO_MEMORY /\ false = false /\ t' = uvm_tracker_clear demo_dst).
Proof.
  apply (tracker_overwrite_correct false demo_dst (TrackerEntry (Some 4) 1) demo_src).
  - apply demo_dst_ok.
  - apply demo_src_ok.
  - by vm_compute.
Defined.

(** The wait for a single entry reads the channel before the global status: a
    channel error that comes after another fatal error is not the global
    status, and the debug assertion fails. *)
Example wait_for_entry_asserts :
  uvm_tracker_wait_for_entry [SpinStep (fun _ _ => false) (fun _ => NV_ERR_GENERIC) NV_ERR_NO_MEMORY]
    (TrackerEntry (Some 1) 5) = None /\
  uvm_tracker_wait [SpinStep (fun _ _ => false) (fun _ => NV_ERR_GENERIC) NV_ERR_NO_MEMORY]
    (Tracker [TrackerEntry (Some 1) 5] StaticEntries 1) =
  Some (NV_ERR_NO_MEMORY, Tracker [] StaticEntries 1).
Proof. split; by vm_compute. Qed.
