(* ===== verification/UvmPmm.v ===== *)
(** The physical memory manager of a GPU (uvm_pmm_gpu.c, uvm_pmm_gpu.h): root
    chunks of 2MB obtained from PMA, split into smaller chunks and merged back,
    free lists, pinning.

    The state is the heap of chunk objects, by pointer, with the fields of
    [uvm_gpu_chunk_t]; the root chunks are an array, so that the pointer of the
    root chunk [i] is [i] and the objects allocated later have pointers past the
    array.  A freed object leaves the heap, and reading it is a fault.  List
    membership is kept per list.  The locks are not modelled: an operation runs
    under the locks its callers hold.

    PMA, the kernel's caches and what the channels report to trackers are
    arguments.  Eviction, indirect peers and HMM are not modelled: an allocation
    has no UVM_PMM_ALLOC_FLAGS_EVICT, and no chunk is in eviction.  On a NUMA
    GPU [p_page_count] gives the reference count of the first page of a root
    chunk. *)

From S2P Require Import Prelude UvmBits UvmCommon UvmTlbBatch UvmTracker.
Local Open Scope Z_scope.
Local Open Scope cword_scope.

(** ** Sizes *)

Definition PAGE_SIZE : Z := 4096.
Definition UVM_CHUNK_SIZE_MAX : Z := 2 * 1024 * 1024.
Definition UVM_CHUNK_SIZE_INVALID : Z := UVM_CHUNK_SIZE_MAX * 2.
Definition UVM_CHUNK_SIZES_MASK : Z := Z.lor UVM_CHUNK_SIZE_MAX (UVM_CHUNK_SIZE_MAX - 1).
Definition PAGES_PER_UVM_VA_BLOCK : Z := UVM_CHUNK_SIZE_MAX / PAGE_SIZE.
Definition UVM_MAX_CHUNK_SIZES : Z := 6.

Definition uvm_chunk_find_first_size (chunk_sizes : Z) : option Z :=
  UVM_ASSERT (negb (chunk_sizes =? 0)) ;; Some (Z.shiftl 1 (__ffs chunk_sizes)).
Definition uvm_chunk_find_last_size (chunk_sizes : Z) : option Z :=
  UVM_ASSERT (negb (chunk_sizes =? 0)) ;; Some (Z.shiftl 1 (Z.log2 chunk_sizes)).

Definition uvm_chunk_find_next_size (chunk_sizes chunk_size : Z) : option Z :=
  UVM_ASSERT (is_power_of_2 chunk_size) ;;
  UVM_ASSERT (negb (Z.land chunk_sizes chunk_size =? 0)) ;;
  Some (Z.shiftl 1 (__ffs (Z.lor (Z.land chunk_sizes (lnot64 (Z.shiftl chunk_size 1 - 1)))
                             UVM_CHUNK_SIZE_INVALID))).

Definition uvm_chunk_find_prev_size (chunk_sizes chunk_size : Z) : option Z :=
  UVM_ASSERT (is_power_of_2 chunk_size) ;;
  UVM_ASSERT (negb (Z.land chunk_sizes chunk_size =? 0)) ;;
  let chunk_sizes := Z.land chunk_sizes (chunk_size - 1) in
  if chunk_sizes =? 0 then Some UVM_CHUNK_SIZE_INVALID
  else Some (Z.shiftl 1 (Z.log2 chunk_sizes)).

(** [hweight_long] *)
Definition hweight_long (x : Z) : Z := Z.of_nat (length (List.filter (Z.testbit x) (seqZ 0 64))).

(** ** Data *)

Inductive uvm_pmm_gpu_memory_type_t :=
| MEMORY_TYPE_USER
| MEMORY_TYPE_USER_UNPROTECTED
| MEMORY_TYPE_KERNEL
| MEMORY_TYPE_KERNEL_UNPROTECTED.

Inductive uvm_pmm_gpu_chunk_state_t :=
| STATE_PMA_OWNED
| STATE_FREE
| STATE_IS_SPLIT
| STATE_TEMP_PINNED
| STATE_ALLOCATED.

#[export] Instance memory_type_eq_dec : EqDecision uvm_pmm_gpu_memory_type_t.
Proof. solve_decision. Defined.
#[export] Instance chunk_state_eq_dec : EqDecision uvm_pmm_gpu_chunk_state_t.
Proof. solve_decision. Defined.

Definition state_is (s t : uvm_pmm_gpu_chunk_state_t) : bool := bool_decide (s = t).

Record uvm_pmm_gpu_chunk_suballoc_t := Suballoc {
  sa_allocated : Z;
  sa_pinned_leaf_chunks : Z;
  sa_subchunks : list Z;
}.

Record uvm_gpu_chunk_t := Chunk {
  c_address : Z;
  c_allocated_chunks : list (option Z);
  c_type : uvm_pmm_gpu_memory_type_t;
  c_in_eviction : bool;
  c_inject_split_error : bool;
  c_is_zero : bool;
  c_is_referenced : bool;
  c_state : uvm_pmm_gpu_chunk_state_t;
  c_log2_size : Z;
  c_va_block_page_index : Z;
  c_va_block : option Z;
  c_parent : option Z;
  c_suballoc : option uvm_pmm_gpu_chunk_suballoc_t;
}.

Section setters.
Implicit Types (c : uvm_gpu_chunk_t).
Definition set_allocated_chunks x c :=
  Chunk (c_address c) x (c_type c) (c_in_eviction c) (c_inject_split_error c) (c_is_zero c)
    (c_is_referenced c) (c_state c) (c_log2_size c) (c_va_block_page_index c) (c_va_block c)
    (c_parent c) (c_suballoc c).
Definition set_type x c :=
  Chunk (c_address c) (c_allocated_chunks c) x (c_in_eviction c) (c_inject_split_error c) (c_is_zero c)
    (c_is_referenced c) (c_state c) (c_log2_size c) (c_va_block_page_index c) (c_va_block c)
    (c_parent c) (c_suballoc c).
Definition set_inject_split_error x c :=
  Chunk (c_address c) (c_allocated_chunks c) (c_type c) (c_in_eviction c) x (c_is_zero c)
    (c_is_referenced c) (c_state c) (c_log2_size c) (c_va_block_page_index c) (c_va_block c)
    (c_parent c) (c_suballoc c).
Definition set_is_zero x c :=
  Chunk (c_address c) (c_allocated_chunks c) (c_type c) (c_in_eviction c) (c_inject_split_error c) x
    (c_is_referenced c) (c_state c) (c_log2_size c) (c_va_block_page_index c) (c_va_block c)
    (c_parent c) (c_suballoc c).
Definition set_is_referenced x c :=
  Chunk (c_address c) (c_allocated_chunks c) (c_type c) (c_in_eviction c) (c_inject_split_error c) (c_is_zero c)
    x (c_state c) (c_log2_size c) (c_va_block_page_index c) (c_va_block c)
    (c_parent c) (c_suballoc c).
Definition set_chunk_state x c :=
  Chunk (c_address c) (c_allocated_chunks c) (c_type c) (c_in_eviction c) (c_inject_split_error c) (c_is_zero c)
    (c_is_referenced c) x (c_log2_size c) (c_va_block_page_index c) (c_va_block c)
    (c_parent c) (c_suballoc c).
Definition set_va_block_page_index x c :=
  Chunk (c_address c) (c_allocated_chunks c) (c_type c) (c_in_eviction c) (c_inject_split_error c) (c_is_zero c)
    (c_is_referenced c) (c_state c) (c_log2_size c) x (c_va_block c)
    (c_parent c) (c_suballoc c).
Definition set_va_block x c :=
  Chunk (c_address c) (c_allocated_chunks c) (c_type c) (c_in_eviction c) (c_inject_split_error c) (c_is_zero c)
    (c_is_referenced c) (c_state c) (c_log2_size c) (c_va_block_page_index c) x
    (c_parent c) (c_suballoc c).
Definition set_suballoc x c :=
  Chunk (c_address c) (c_allocated_chunks c) (c_type c) (c_in_eviction c) (c_inject_split_error c) (c_is_zero c)
    (c_is_referenced c) (c_state c) (c_log2_size c) (c_va_block_page_index c) (c_va_block c)
    (c_parent c) x.
End setters.

Definition set_allocated x sa := Suballoc x (sa_pinned_leaf_chunks sa) (sa_subchunks sa).
Definition set_pinned_leaf_chunks x sa := Suballoc (sa_allocated sa) x (sa_subchunks sa).

Definition uvm_gpu_chunk_get_size (c : uvm_gpu_chunk_t) : Z := Z.shiftl 1 (c_log2_size c).

(** The lists a chunk can be on. *)
Inductive list_id :=
| FreeList (type : uvm_pmm_gpu_memory_type_t) (idx : Z) (zero : bool)
| VaBlockUsed
| VaBlockUnused.

#[export] Instance list_id_eq_dec : EqDecision list_id.
Proof. solve_decision. Defined.

(** What the trackers see during one call into them. *)
Record tracker_env := TrackerEnv {
  te_completed : Z -> Z -> bool;
  te_kv : bool;
  te_steps : list spin_step;
}.

Record uvm_pmm_gpu_t := Pmm {
  p_chunk_sizes : uvm_pmm_gpu_memory_type_t -> Z;
  p_count : Z;
  p_max_allocatable_address : Z;
  p_conf_computing : bool;
  p_numa : bool;
  p_page_count : Z -> Z;
  p_heap : gmap Z uvm_gpu_chunk_t;
  p_next : Z;
  p_lists : list_id -> list Z;
  p_trackers : gmap Z uvm_tracker_t;
  p_kmem : list bool;
  p_tenv : nat -> tracker_env;
  p_pma_freed : list (Z * bool);
}.

Definition with_heap h s :=
  Pmm (p_chunk_sizes s) (p_count s) (p_max_allocatable_address s) (p_conf_computing s) (p_numa s) (p_page_count s)
    h (p_next s) (p_lists s) (p_trackers s) (p_kmem s) (p_tenv s) (p_pma_freed s).
Definition with_next n s :=
  Pmm (p_chunk_sizes s) (p_count s) (p_max_allocatable_address s) (p_conf_computing s) (p_numa s) (p_page_count s)
    (p_heap s) n (p_lists s) (p_trackers s) (p_kmem s) (p_tenv s) (p_pma_freed s).
Definition with_lists l s :=
  Pmm (p_chunk_sizes s) (p_count s) (p_max_allocatable_address s) (p_conf_computing s) (p_numa s) (p_page_count s)
    (p_heap s) (p_next s) l (p_trackers s) (p_kmem s) (p_tenv s) (p_pma_freed s).
Definition with_trackers t s :=
  Pmm (p_chunk_sizes s) (p_count s) (p_max_allocatable_address s) (p_conf_computing s) (p_numa s) (p_page_count s)
    (p_heap s) (p_next s) (p_lists s) t (p_kmem s) (p_tenv s) (p_pma_freed s).
Definition with_kmem k s :=
  Pmm (p_chunk_sizes s) (p_count s) (p_max_allocatable_address s) (p_conf_computing s) (p_numa s) (p_page_count s)
    (p_heap s) (p_next s) (p_lists s) (p_trackers s) k (p_tenv s) (p_pma_freed s).
Definition with_tenv t s :=
  Pmm (p_chunk_sizes s) (p_count s) (p_max_allocatable_address s) (p_conf_computing s) (p_numa s) (p_page_count s)
    (p_heap s) (p_next s) (p_lists s) (p_trackers s) (p_kmem s) t (p_pma_freed s).
Definition with_pma_freed f s :=
  Pmm (p_chunk_sizes s) (p_count s) (p_max_allocatable_address s) (p_conf_computing s) (p_numa s) (p_page_count s)
    (p_heap s) (p_next s) (p_lists s) (p_trackers s) (p_kmem s) (p_tenv s) f.

(** ** Objects and lists *)

Definition P := M uvm_pmm_gpu_t.
Abbreviation ptr := Z.

(** [p->...]; a pointer to no live object is undefined. *)
Definition load (p : ptr) : P uvm_gpu_chunk_t := fun s =>
  match p_heap s !! p with Some c => Ok c s | None => Fault UB s end.
Definition store (p : ptr) (c : uvm_gpu_chunk_t) : P unit := modify (fun s => with_heap (<[p := c]> (p_heap s)) s).
Definition update (p : ptr) (f : uvm_gpu_chunk_t -> uvm_gpu_chunk_t) : P unit := c <- load p ;; store p (f c).

Definition uvm_assert (b : bool) : P unit := guard_or AssertFail b.
Definition of_assert {A} (o : option A) : P A := of_option AssertFail o.

Definition suballoc_of (c : uvm_gpu_chunk_t) : P uvm_pmm_gpu_chunk_suballoc_t := of_option UB (c_suballoc c).
Definition update_suballoc (p : ptr) (f : uvm_pmm_gpu_chunk_suballoc_t -> uvm_pmm_gpu_chunk_suballoc_t) : P unit :=
  c <- load p ;; sa <- suballoc_of c ;; store p (set_suballoc (Some (f sa)) c).

(** [list_del_init] and [list_move_tail] on the list node of a chunk; [list_empty]
    says that the chunk is on no list. *)
Definition list_del_init (p : ptr) : P unit :=
  modify (fun s => with_lists (fun l => List.filter (fun q => negb (q =? p)) (p_lists s l)) s).
Definition list_move_tail (p : ptr) (l : list_id) : P unit :=
  list_del_init p ;;;
  modify (fun s => with_lists (fun l' => if decide (l' = l) then p_lists s l' ++ [p] else p_lists s l') s).
Definition all_lists : list list_id :=
  [VaBlockUsed; VaBlockUnused] ++
  (t ← [MEMORY_TYPE_USER; MEMORY_TYPE_USER_UNPROTECTED; MEMORY_TYPE_KERNEL; MEMORY_TYPE_KERNEL_UNPROTECTED];
   i ← seqZ 0 UVM_MAX_CHUNK_SIZES; [FreeList t i true; FreeList t i false]).
Definition list_empty (p : ptr) : P bool :=
  gets (fun s => negb (existsb (fun l => existsb (Z.eqb p) (p_lists s l)) all_lists)).

(** An object of a kernel cache; [None] when the cache has no memory. *)
Definition kmem_ok : P bool := fun s =>
  match p_kmem s with [] => Ok false s | b :: k => Ok b (with_kmem k s) end.
Definition new_ptr : P ptr := fun s => Ok (p_next s) (with_next (p_next s + 1) s).
Definition kmem_cache_free (p : ptr) : P unit :=
  load p ;;; modify (fun s => with_heap (delete p (p_heap s)) s).

(** ** Root chunks *)

Definition root_chunk_from_address (addr : Z) : P ptr :=
  s <- get ;;
  let index := addr / UVM_CHUNK_SIZE_MAX in
  root <- load index ;;
  uvm_assert (addr <=? p_max_allocatable_address s) ;;;
  a <- of_assert (UVM_ALIGN_DOWN addr UVM_CHUNK_SIZE_MAX) ;;
  uvm_assert (c_address root =? a) ;;;
  mret' index.

Definition root_chunk_from_chunk (p : ptr) : P ptr := c <- load p ;; root_chunk_from_address (c_address c).

Definition chunk_is_root_chunk (c : uvm_gpu_chunk_t) : bool := uvm_gpu_chunk_get_size c =? UVM_CHUNK_SIZE_MAX.

Definition chunk_is_root_chunk_pinned (p : ptr) : P bool :=
  r <- root_chunk_from_chunk p ;; c <- load r ;;
  if state_is (c_state c) STATE_TEMP_PINNED then mret' true
  else if negb (state_is (c_state c) STATE_IS_SPLIT) then mret' false
  else sa <- suballoc_of c ;; mret' (0 <? sa_pinned_leaf_chunks sa).

Definition chunk_pin (p : ptr) : P unit :=
  r <- root_chunk_from_chunk p ;;
  c <- load p ;;
  uvm_assert (negb (state_is (c_state c) STATE_TEMP_PINNED)) ;;;
  store p (set_chunk_state STATE_TEMP_PINNED c) ;;;
  if chunk_is_root_chunk c then mret' tt
  else
    root <- load r ;;
    uvm_assert (state_is (c_state root) STATE_IS_SPLIT) ;;;
    update_suballoc r (fun sa => set_pinned_leaf_chunks (u32 (sa_pinned_leaf_chunks sa + 1)) sa).

Definition chunk_unpin (p : ptr) (new_state : uvm_pmm_gpu_chunk_state_t) : P unit :=
  r <- root_chunk_from_chunk p ;;
  c <- load p ;;
  uvm_assert (state_is (c_state c) STATE_TEMP_PINNED) ;;;
  uvm_assert (bool_decide (c_va_block c = None)) ;;;
  pinned <- chunk_is_root_chunk_pinned p ;;
  uvm_assert pinned ;;;
  uvm_assert (negb (state_is new_state STATE_TEMP_PINNED)) ;;;
  store p (set_chunk_state new_state c) ;;;
  if chunk_is_root_chunk c then mret' tt
  else
    root <- load r ;;
    uvm_assert (state_is (c_state root) STATE_IS_SPLIT) ;;;
    sa <- suballoc_of root ;;
    uvm_assert (negb (sa_pinned_leaf_chunks sa =? 0)) ;;;
    update_suballoc r (fun sa => set_pinned_leaf_chunks (u32 (sa_pinned_leaf_chunks sa - 1)) sa).

Definition uvm_pmm_gpu_memory_type_is_user (t : uvm_pmm_gpu_memory_type_t) : bool :=
  match t with MEMORY_TYPE_USER | MEMORY_TYPE_USER_UNPROTECTED => true | _ => false end.
Definition uvm_pmm_gpu_memory_type_is_kernel (t : uvm_pmm_gpu_memory_type_t) : bool :=
  negb (uvm_pmm_gpu_memory_type_is_user t).

Definition pmm_squash_memory_type (conf_computing : bool) (t : uvm_pmm_gpu_memory_type_t) : uvm_pmm_gpu_memory_type_t :=
  if conf_computing then t
  else if uvm_pmm_gpu_memory_type_is_user t then MEMORY_TYPE_USER else MEMORY_TYPE_KERNEL.

Definition chunk_is_in_eviction (p : ptr) : P bool :=
  r <- root_chunk_from_chunk p ;; c <- load r ;; mret' (c_in_eviction c).

Definition root_chunk_has_elevated_page (r : ptr) : P bool :=
  gets (fun s => p_numa s && (UVM_CHUNK_SIZE_MAX / PAGE_SIZE <? p_page_count s r)).

(** ** Free lists *)

Definition find_free_list (t : uvm_pmm_gpu_memory_type_t) (chunk_size : Z) (zero : bool) : P list_id :=
  s <- get ;;
  let chunk_sizes := p_chunk_sizes s t in
  let idx := hweight_long (Z.land chunk_sizes (chunk_size - 1)) in
  uvm_assert (is_power_of_2 chunk_size) ;;;
  uvm_assert (negb (Z.land chunk_size chunk_sizes =? 0)) ;;;
  mret' (FreeList t idx zero).

Definition find_free_list_chunk (c : uvm_gpu_chunk_t) : P list_id :=
  find_free_list (c_type c) (uvm_gpu_chunk_get_size c) (c_is_zero c).

Definition list_first_chunk (l : list_id) : P (option ptr) := gets (fun s => head (p_lists s l)).

Definition chunk_update_lists_locked (p : ptr) : P unit :=
  r <- root_chunk_from_chunk p ;;
  c <- load p ;;
  when (uvm_pmm_gpu_memory_type_is_user (c_type c))
    (pinned <- chunk_is_root_chunk_pinned p ;;
     root <- load r ;;
     if (pinned : bool) then
       uvm_assert (state_is (c_state root) STATE_IS_SPLIT || state_is (c_state root) STATE_TEMP_PINNED) ;;;
       list_del_init r
     else when (negb (state_is (c_state root) STATE_FREE))
       (uvm_assert (state_is (c_state root) STATE_IS_SPLIT || state_is (c_state root) STATE_ALLOCATED) ;;;
        list_move_tail r VaBlockUsed)) ;;;
  if state_is (c_state c) STATE_FREE then
    l <- find_free_list_chunk c ;; list_move_tail p l
  else when (state_is (c_state c) STATE_TEMP_PINNED) (list_del_init p).

(** ** Splitting and merging *)

Definition num_subchunks (p : ptr) : P Z :=
  c <- load p ;;
  uvm_assert (state_is (c_state c) STATE_IS_SPLIT) ;;;
  sa <- suballoc_of c ;;
  q <- of_option UB (head (sa_subchunks sa)) ;;
  child <- load q ;;
  n <- of_assert (uvm_div_pow2_64 (uvm_gpu_chunk_get_size c) (uvm_gpu_chunk_get_size child)) ;;
  mret' (u32 n).

(** Without the assertions on the index of the GPU, which is the GPU of the PMM here, and
    on indirect peers. *)
Definition check_chunk (p : ptr) : P unit :=
  c <- load p ;; s <- get ;;
  let chunk_sizes := p_chunk_sizes s (c_type c) in
  let chunk_size := uvm_gpu_chunk_get_size c in
  uvm_assert (negb (Z.land chunk_size chunk_sizes =? 0)) ;;;
  uvm_assert (IS_ALIGNED (c_address c) chunk_size) ;;;
  when (negb (p_conf_computing s))
    (uvm_assert (bool_decide (c_type c = MEMORY_TYPE_USER) || bool_decide (c_type c = MEMORY_TYPE_KERNEL))) ;;;
  when (state_is (c_state c) STATE_IS_SPLIT)
    (first <- of_assert (uvm_chunk_find_first_size chunk_sizes) ;; uvm_assert (first <? chunk_size)) ;;;
  match c_parent c with
  | Some q =>
      parent <- load q ;;
      uvm_assert (bool_decide (c_type parent = c_type c)) ;;;
      let parent_size := uvm_gpu_chunk_get_size parent in
      next <- of_assert (uvm_chunk_find_next_size chunk_sizes chunk_size) ;;
      uvm_assert (next =? parent_size) ;;;
      last <- of_assert (uvm_chunk_find_last_size chunk_sizes) ;;
      uvm_assert (parent_size <=? last) ;;;
      uvm_assert (state_is (c_state parent) STATE_IS_SPLIT) ;;;
      sa <- of_assert (c_suballoc parent) ;;
      uvm_assert (0 <? sa_allocated sa) ;;;
      n <- num_subchunks q ;;
      uvm_assert (sa_allocated sa <=? n) ;;;
      uvm_assert (c_address parent <=? c_address c) ;;;
      uvm_assert (c_address c <? c_address parent + parent_size)
  | None =>
      last <- of_assert (uvm_chunk_find_last_size chunk_sizes) ;;
      uvm_assert (chunk_size =? last)
  end.

(** The subchunk [i] of a chunk being split. *)
Definition make_subchunk (p : ptr) (chunk : uvm_gpu_chunk_t) (subchunk_size i : Z) : uvm_gpu_chunk_t :=
  let allocated := state_is (c_state chunk) STATE_ALLOCATED in
  Chunk (u64 (c_address chunk + i * subchunk_size)) (replicate 32 None) (c_type chunk) false false (c_is_zero chunk)
    (if allocated then c_is_referenced chunk else false) (c_state chunk) (Z.log2 subchunk_size)
    (if allocated then c_va_block_page_index chunk + (i * subchunk_size) / PAGE_SIZE else PAGES_PER_UVM_VA_BLOCK)
    (if allocated then c_va_block chunk else None) (Some p) None.

(** The loop that allocates the subchunks; [None] is the jump to cleanup, which
    frees the ones allocated so far. *)
Fixpoint alloc_subchunks (p : ptr) (chunk : uvm_gpu_chunk_t) (subchunk_size num_sub : Z) (idxs : list Z)
    (done : list ptr) : P (option (list ptr)) :=
  match idxs with
  | [] => mret' (Some done)
  | i :: idxs' =>
      ok <- (if c_inject_split_error chunk && (i =? num_sub - 1) then mret' false else kmem_ok) ;;
      if (ok : bool) then
        q <- new_ptr ;;
        when (state_is (c_state chunk) STATE_ALLOCATED)
          (uvm_assert (negb (bool_decide (c_va_block chunk = None)))) ;;;
        store q (make_subchunk p chunk subchunk_size i) ;;;
        alloc_subchunks p chunk subchunk_size num_sub idxs' (done ++ [q])
      else for_each done kmem_cache_free ;;; mret' None
  end.

(** [split_gpu_chunk] once the subchunks are allocated. *)
Definition commit_split (p r : ptr) (chunk : uvm_gpu_chunk_t) (num_sub : Z) (subchunks : list ptr) : P unit :=
  update p (set_suballoc (Some (Suballoc num_sub 0 subchunks))) ;;;
  (if state_is (c_state chunk) STATE_ALLOCATED then
     update p (fun c => set_is_referenced false (set_va_block_page_index PAGES_PER_UVM_VA_BLOCK (set_va_block None c)))
   else when (state_is (c_state chunk) STATE_TEMP_PINNED)
     (update_suballoc r (fun sa => set_pinned_leaf_chunks (u32 (sa_pinned_leaf_chunks sa + (num_sub - 1))) sa) ;;;
      when (chunk_is_root_chunk chunk)
        (update_suballoc r (fun sa => set_pinned_leaf_chunks (u32 (sa_pinned_leaf_chunks sa + 1)) sa)))) ;;;
  update p (set_chunk_state STATE_IS_SPLIT).

(** The caches of suballocation objects are made when the module is loaded: that they
    exist is not modelled, nor the assertion on it. *)
Definition split_gpu_chunk (p : ptr) : P NV_STATUS :=
  chunk <- load p ;; s <- get ;;
  let chunk_size := uvm_gpu_chunk_get_size chunk in
  let chunk_sizes := p_chunk_sizes s (c_type chunk) in
  r <- root_chunk_from_chunk p ;;
  uvm_assert (state_is (c_state chunk) STATE_ALLOCATED || state_is (c_state chunk) STATE_TEMP_PINNED) ;;;
  subchunk_size <- of_assert (uvm_chunk_find_prev_size chunk_sizes chunk_size) ;;
  uvm_assert (negb (subchunk_size =? UVM_CHUNK_SIZE_INVALID)) ;;;
  let num_sub := chunk_size / subchunk_size in
  ok <- kmem_ok ;;
  if negb ok then mret' NV_ERR_NO_MEMORY
  else
    subs <- alloc_subchunks p chunk subchunk_size num_sub (up 0 num_sub) [] ;;
    match subs with
    | None => mret' NV_ERR_NO_MEMORY
    | Some subchunks => commit_split p r chunk num_sub subchunks ;;; mret' NV_OK
    end.

(** [assert_chunk_mergeable]: the loop over the children from the second on. *)
Fixpoint assert_children (first prev : uvm_gpu_chunk_t) (qs : list ptr) : P unit :=
  match qs with
  | [] => mret' tt
  | q :: qs' =>
      child <- load q ;;
      uvm_assert (state_is (c_state child) (c_state first)) ;;;
      when (state_is (c_state first) STATE_ALLOCATED)
        (uvm_assert (bool_decide (c_va_block child = c_va_block first)) ;;;
         uvm_assert (c_va_block_page_index child =? c_va_block_page_index prev + uvm_gpu_chunk_get_size prev / PAGE_SIZE) ;;;
         uvm_assert (eqb (c_is_referenced child) (c_is_referenced prev))) ;;;
      assert_children first child qs'
  end.

Definition assert_chunk_mergeable (p : ptr) : P unit :=
  chunk <- load p ;; sa <- suballoc_of chunk ;;
  q <- of_option UB (head (sa_subchunks sa)) ;; first <- load q ;;
  uvm_assert (state_is (c_state chunk) STATE_IS_SPLIT) ;;;
  uvm_assert (state_is (c_state first) STATE_TEMP_PINNED || state_is (c_state first) STATE_ALLOCATED) ;;;
  n <- num_subchunks p ;;
  assert_children first first (tail (sa_subchunks sa)) ;;;
  if state_is (c_state first) STATE_FREE then uvm_assert (sa_allocated sa =? 0)
  else uvm_assert (sa_allocated sa =? n).

Definition free_subchunk (child_state : uvm_pmm_gpu_chunk_state_t) (q : ptr) : P unit :=
  empty <- list_empty q ;; uvm_assert empty ;;;
  child <- load q ;;
  when (state_is child_state STATE_ALLOCATED) (uvm_assert (negb (bool_decide (c_va_block child = None)))) ;;;
  kmem_cache_free q.

Definition merge_gpu_chunk (p : ptr) : P unit :=
  r <- root_chunk_from_chunk p ;;
  num_sub <- num_subchunks p ;;
  assert_chunk_mergeable p ;;;
  chunk <- load p ;; sa <- suballoc_of chunk ;;
  q <- of_option UB (head (sa_subchunks sa)) ;; subchunk <- load q ;;
  let child_state := c_state subchunk in
  (if state_is child_state STATE_ALLOCATED then
     uvm_assert (negb (bool_decide (c_va_block subchunk = None))) ;;;
     update p (fun c => set_is_referenced (c_is_referenced subchunk)
                          (set_va_block_page_index (c_va_block_page_index subchunk)
                             (set_va_block (c_va_block subchunk) c)))
   else when (state_is child_state STATE_TEMP_PINNED)
     (root <- load r ;; rsa <- suballoc_of root ;;
      uvm_assert (num_sub <=? sa_pinned_leaf_chunks rsa) ;;;
      update_suballoc r (fun sa => set_pinned_leaf_chunks (u32 (sa_pinned_leaf_chunks sa + (1 - num_sub))) sa))) ;;;
  update p (fun c => set_is_zero false (set_suballoc None (set_chunk_state child_state c))) ;;;
  for_each (sa_subchunks sa) (free_subchunk child_state).

(** ** Freeing *)

Definition chunk_is_last_allocated_child (p : ptr) : P bool :=
  c <- load p ;;
  match c_parent c with
  | None => mret' false
  | Some q => parent <- load q ;; sa <- suballoc_of parent ;; mret' (sa_allocated sa =? 1)
  end.

Definition chunk_free_locked (p : ptr) : P unit :=
  r <- root_chunk_from_chunk p ;;
  c <- load p ;;
  uvm_assert (state_is (c_state c) STATE_ALLOCATED || state_is (c_state c) STATE_TEMP_PINNED) ;;;
  root <- load r ;;
  if c_in_eviction root then
    uvm_assert (state_is (c_state c) STATE_ALLOCATED) ;;;
    uvm_assert (negb (bool_decide (c_va_block c = None))) ;;;
    uvm_assert (negb (c_va_block_page_index c =? PAGES_PER_UVM_VA_BLOCK)) ;;;
    empty <- list_empty p ;; uvm_assert empty ;;;
    update p (fun c => set_is_zero false (set_va_block_page_index PAGES_PER_UVM_VA_BLOCK (set_va_block None c))) ;;;
    chunk_pin p
  else
    match c_parent c with
    | Some q =>
        parent <- load q ;; sa <- suballoc_of parent ;;
        uvm_assert (0 <? sa_allocated sa) ;;;
        update_suballoc q (fun sa => set_allocated (u32 (sa_allocated sa - 1)) sa)
    | None => mret' tt
    end ;;;
    (if state_is (c_state c) STATE_TEMP_PINNED then chunk_unpin p STATE_FREE
     else update p (fun c => set_va_block None (set_chunk_state STATE_FREE c))) ;;;
    update p (fun c => set_is_zero false (set_va_block_page_index PAGES_PER_UVM_VA_BLOCK c)) ;;;
    chunk_update_lists_locked p.

Definition try_chunk_free (p : ptr) : P bool :=
  c <- load p ;;
  uvm_assert (negb (state_is (c_state c) STATE_ALLOCATED) || negb (c_is_referenced c)) ;;;
  update p (set_inject_split_error false) ;;;
  last <- chunk_is_last_allocated_child p ;;
  if (last : bool) then mret' false else chunk_free_locked p ;;; mret' true.

Definition pin_for_merge (q : ptr) : P unit :=
  c <- load q ;;
  uvm_assert (state_is (c_state c) STATE_FREE) ;;;
  list_del_init q ;;;
  update q (set_chunk_state STATE_TEMP_PINNED).

Definition free_or_prepare_for_merge (p : ptr) : P (option ptr) :=
  c <- load p ;;
  match c_parent c with
  | None => freed <- try_chunk_free p ;; uvm_assert freed ;;; mret' None
  | Some q =>
      last <- chunk_is_last_allocated_child p ;;
      chunk_free_locked p ;;;
      parent <- load q ;; sa <- suballoc_of parent ;;
      if negb last then uvm_assert (negb (sa_allocated sa =? 0)) ;;; mret' None
      else
        uvm_assert (sa_allocated sa =? 0) ;;;
        n <- num_subchunks q ;;
        for_each (sa_subchunks sa) pin_for_merge ;;;
        r <- root_chunk_from_chunk p ;;
        update_suballoc r (fun sa => set_pinned_leaf_chunks (u32 (sa_pinned_leaf_chunks sa + n)) sa) ;;;
        update_suballoc q (fun sa => set_allocated n sa) ;;;
        mret' (Some q)
  end.

(** Each turn goes one level up; the levels are the chunk sizes. *)
Fixpoint free_chunk_with_merges (fuel : nat) (p : ptr) : P unit :=
  match fuel with
  | O => fail OutOfFuel
  | S n =>
      check_chunk p ;;;
      parent <- free_or_prepare_for_merge p ;;
      match parent with
      | None => mret' tt
      | Some q => merge_gpu_chunk q ;;; free_chunk_with_merges n q
      end
  end.

Definition MAX_LEVELS : nat := 64.

Inductive free_root_chunk_mode_t :=
| FREE_ROOT_CHUNK_MODE_DEFAULT
| FREE_ROOT_CHUNK_MODE_PMA_EVICTION
| FREE_ROOT_CHUNK_MODE_SKIP_PMA_FREE.

Definition next_tenv : P tracker_env := fun s => Ok (p_tenv s 0%nat) (with_tenv (fun n => p_tenv s (S n)) s).
Definition tracker_of (r : ptr) : P uvm_tracker_t := s <- get ;; of_option UB (p_trackers s !! r).
Definition set_tracker (r : ptr) (t : uvm_tracker_t) : P unit :=
  modify (fun s => with_trackers (<[r := t]> (p_trackers s)) s).

(** A call into a tracker: no result is a wait that does not end. *)
Definition of_wait {A} (o : option A) : P A := of_option OutOfFuel o.

(** When the wait fails, the global status is one of the turns of the wait
    ([uvm_tracker_wait] returns it), and the assertion that it is not NV_OK is left out. *)
Definition free_root_chunk (r : ptr) (free_mode : free_root_chunk_mode_t) : P unit :=
  env <- next_tenv ;;
  t <- tracker_of r ;;
  w <- of_wait (uvm_tracker_wait_deinit (te_steps env) t) ;;
  set_tracker r (snd w) ;;;
  c <- load r ;;
  uvm_assert (state_is (c_state c) STATE_TEMP_PINNED) ;;;
  empty <- list_empty r ;; uvm_assert empty ;;;
  chunk_unpin r STATE_PMA_OWNED ;;;
  match free_mode with
  | FREE_ROOT_CHUNK_MODE_SKIP_PMA_FREE => mret' tt
  | _ => c <- load r ;; modify (fun s => with_pma_freed (p_pma_freed s ++ [(c_address c, c_is_zero c)]) s)
  end.

Definition free_next_available_root_chunk (t : uvm_pmm_gpu_memory_type_t) : P bool :=
  s <- get ;;
  last <- of_assert (uvm_chunk_find_last_size (p_chunk_sizes s t)) ;;
  uvm_assert (last =? UVM_CHUNK_SIZE_MAX) ;;;
  l <- find_free_list t UVM_CHUNK_SIZE_MAX false ;;
  first <- list_first_chunk l ;;
  match first with
  | Some p => c <- load p ;; uvm_assert (negb (c_is_zero c))
  | None => mret' tt
  end ;;;
  result <- match first with
            | Some p => mret' (Some p)
            | None =>
                l <- find_free_list t UVM_CHUNK_SIZE_MAX true ;;
                second <- list_first_chunk l ;;
                match second with
                | Some p => c <- load p ;; uvm_assert (c_is_zero c)
                | None => mret' tt
                end ;;;
                mret' second
            end ;;
  match result with
  | None => mret' false
  | Some p =>
      list_del_init p ;;;
      c <- load p ;;
      uvm_assert (state_is (c_state c) STATE_FREE) ;;;
      uvm_assert (uvm_gpu_chunk_get_size c =? UVM_CHUNK_SIZE_MAX) ;;;
      uvm_assert (bool_decide (c_type c = t)) ;;;
      chunk_pin p ;;;
      r <- root_chunk_from_chunk p ;;
      free_root_chunk r FREE_ROOT_CHUNK_MODE_DEFAULT ;;;
      mret' true
  end.

Definition free_chunk (p : ptr) : P unit :=
  c <- load p ;;
  uvm_assert (state_is (c_state c) STATE_ALLOCATED || state_is (c_state c) STATE_TEMP_PINNED) ;;;
  check_chunk p ;;;
  freed <- try_chunk_free p ;;
  try_free <- (if (freed : bool) then mret' (chunk_is_root_chunk c)
               else free_chunk_with_merges MAX_LEVELS p ;;; mret' true) ;;
  when try_free (free_next_available_root_chunk (c_type c) ;;; mret' tt).

(** ** Allocation *)

Fixpoint find_free (zero : bool) (ps : list ptr) : P (option ptr) :=
  match ps with
  | [] => mret' None
  | p :: ps' =>
      c <- load p ;;
      uvm_assert (eqb (c_is_zero c) zero) ;;;
      evicting <- chunk_is_in_eviction p ;;
      if (evicting : bool) then list_del_init p ;;; find_free zero ps'
      else
        r <- root_chunk_from_chunk p ;;
        elevated <- root_chunk_has_elevated_page r ;;
        if (elevated : bool) then find_free zero ps' else mret' (Some p)
  end.

Definition find_free_chunk_locked (t : uvm_pmm_gpu_memory_type_t) (chunk_size : Z) (zero : bool) : P (option ptr) :=
  l <- find_free_list t chunk_size zero ;;
  ps <- gets (fun s => p_lists s l) ;;
  find_free zero ps.

(** [claim_free_chunk] once it has found the free chunk [p]. *)
Definition claim_found (t : uvm_pmm_gpu_memory_type_t) (chunk_size : Z) (p : ptr) : P (option ptr) :=
  c <- load p ;;
  uvm_assert (uvm_gpu_chunk_get_size c =? chunk_size) ;;;
  uvm_assert (bool_decide (c_type c = t)) ;;;
  uvm_assert (state_is (c_state c) STATE_FREE) ;;;
  evicting <- chunk_is_in_eviction p ;;
  uvm_assert (negb evicting) ;;;
  match c_parent c with
  | Some q =>
      parent <- load q ;;
      sa <- of_assert (c_suballoc parent) ;;
      uvm_assert (bool_decide (c_type parent = t)) ;;;
      n <- num_subchunks q ;;
      uvm_assert (sa_allocated sa <? n) ;;;
      update_suballoc q (fun sa => set_allocated (u32 (sa_allocated sa + 1)) sa)
  | None => mret' tt
  end ;;;
  chunk_pin p ;;;
  chunk_update_lists_locked p ;;;
  mret' (Some p).

Definition claim_free_chunk (t : uvm_pmm_gpu_memory_type_t) (chunk_size : Z) : P (option ptr) :=
  first <- find_free_chunk_locked t chunk_size true ;;
  found <- match first with
           | Some p => mret' (Some p)
           | None => find_free_chunk_locked t chunk_size false
           end ;;
  match found with
  | None => mret' None
  | Some p => claim_found t chunk_size p
  end.

Definition init_root_chunk (t : uvm_pmm_gpu_memory_type_t) (r : ptr)
    (initial_state : uvm_pmm_gpu_chunk_state_t) (is_zero : bool) : P unit :=
  set_tracker r uvm_tracker_init ;;;
  c <- load r ;;
  uvm_assert (state_is (c_state c) STATE_PMA_OWNED) ;;;
  uvm_assert (bool_decide (c_parent c = None)) ;;;
  uvm_assert (match c_suballoc c with None => true | _ => false end) ;;;
  uvm_assert (bool_decide (c_va_block c = None)) ;;;
  uvm_assert (c_va_block_page_index c =? PAGES_PER_UVM_VA_BLOCK) ;;;
  empty <- list_empty r ;; uvm_assert empty ;;;
  uvm_assert (uvm_gpu_chunk_get_size c =? UVM_CHUNK_SIZE_MAX) ;;;
  elevated <- root_chunk_has_elevated_page r ;;
  uvm_assert (negb elevated) ;;;
  uvm_assert (state_is initial_state STATE_FREE || state_is initial_state STATE_TEMP_PINNED) ;;;
  update r (fun c => set_is_zero is_zero (set_chunk_state initial_state (set_type t c))) ;;;
  chunk_update_lists_locked r.

(** What PMA answers: an error, or the pages and whether they are scrubbed. *)
Inductive pma_answer :=
| PmaError (status : NV_STATUS)
| PmaPages (pas : list Z) (is_zero : bool).

(** Properties of the GPU that decide whether allocations are batched. *)
Record gpu_props := GpuProps {
  gp_is_simulated : bool;
  gp_supports_pma_eviction : bool;
  gp_batch_order : Z;
}.

Definition init_page (t : uvm_pmm_gpu_memory_type_t) (is_zero : bool)
    (initial_state : uvm_pmm_gpu_chunk_state_t) (pa : Z) : P unit :=
  r <- root_chunk_from_address pa ;;
  c <- load r ;;
  uvm_assert (IS_ALIGNED pa UVM_CHUNK_SIZE_MAX) ;;;
  uvm_assert (c_address c =? pa) ;;;
  init_root_chunk t r initial_state is_zero.

(** The loop over the pages: the first is the one allocated, the others are free. *)
Definition init_pages (t : uvm_pmm_gpu_memory_type_t) (is_zero : bool) (pas : list Z) : P (NV_STATUS * option ptr) :=
  match pas with
  | [] => fail UB
  | pa :: rest =>
      init_page t is_zero STATE_TEMP_PINNED pa ;;;
      for_each rest (init_page t is_zero STATE_FREE) ;;;
      mret' (NV_OK, Some (pa / UVM_CHUNK_SIZE_MAX))
  end.

(** [alloc_root_chunk] once PMA has answered; without a batch one page is asked for. *)
Definition pma_answered (t : uvm_pmm_gpu_memory_type_t) (batched : bool) (num_chunks : Z)
    (pma : pma_answer) : P (NV_STATUS * option ptr) :=
  match pma with
  | PmaError status => mret' (status, None)
  | PmaPages pas is_zero =>
      let n := Z.of_nat (length pas) in
      when batched (uvm_assert (n <=? num_chunks) ;;; uvm_assert (0 <? n)) ;;;
      init_pages t is_zero (if batched then pas else take 1 pas)
  end.

Definition alloc_root_chunk (gp : gpu_props) (t : uvm_pmm_gpu_memory_type_t) (dont_batch : bool)
    (pma : pma_answer) : P (NV_STATUS * option ptr) :=
  s <- get ;;
  let pinned := uvm_pmm_gpu_memory_type_is_kernel t || negb (gp_supports_pma_eviction gp) in
  let batched := negb (gp_is_simulated gp) && negb pinned && negb (dont_batch || p_numa s) in
  let num_chunks := if batched then Z.shiftl 1 (gp_batch_order gp) else 1 in
  ok <- (if batched then kmem_ok else mret' true) ;;
  if negb ok then mret' (NV_ERR_NO_MEMORY, None) else pma_answered t batched num_chunks pma.

(** [for_each_chunk_size_from]: the first bigger size with a free chunk. *)
Fixpoint claim_bigger (fuel : nat) (t : uvm_pmm_gpu_memory_type_t) (cur_size : Z) : P (option ptr * Z) :=
  if cur_size =? UVM_CHUNK_SIZE_INVALID then mret' (None, cur_size)
  else
    match fuel with
    | O => fail OutOfFuel
    | S n =>
        chunk <- claim_free_chunk t cur_size ;;
        match chunk with
        | Some p => mret' (Some p, cur_size)
        | None =>
            s <- get ;;
            next <- of_assert (uvm_chunk_find_next_size (p_chunk_sizes s t) cur_size) ;;
            claim_bigger n t next
        end
    end.

Definition assert_claimed (t : uvm_pmm_gpu_memory_type_t) (cur_size : Z) (p : ptr) : P unit :=
  c <- load p ;; s <- get ;;
  uvm_assert (uvm_gpu_chunk_get_size c =? cur_size) ;;;
  uvm_assert (bool_decide (c_type c = t)) ;;;
  uvm_assert (state_is (c_state c) STATE_TEMP_PINNED) ;;;
  match c_parent c with
  | Some q =>
      parent <- load q ;;
      sa <- of_assert (c_suballoc parent) ;;
      next <- of_assert (uvm_chunk_find_next_size (p_chunk_sizes s t) cur_size) ;;
      uvm_assert (uvm_gpu_chunk_get_size parent =? next) ;;;
      uvm_assert (bool_decide (c_type parent = t)) ;;;
      n <- num_subchunks q ;;
      uvm_assert (sa_allocated sa <=? n)
  | None => mret' tt
  end.

(** [for_each_chunk_size_rev_from]: the first child is split further, the others
    are freed.  Leaving the loop is UVM_PANIC. *)
Fixpoint split_down (fuel : nat) (t : uvm_pmm_gpu_memory_type_t) (chunk_size cur_size : Z) (p : ptr)
  : P (NV_STATUS * option ptr) :=
  if cur_size =? UVM_CHUNK_SIZE_INVALID then fail AssertFail
  else
    match fuel with
    | O => fail OutOfFuel
    | S n =>
        assert_claimed t cur_size p ;;;
        if cur_size =? chunk_size then mret' (NV_OK, Some p)
        else
          status <- split_gpu_chunk p ;;
          if decide (status = NV_OK) then
            parent <- load p ;; sa <- suballoc_of parent ;;
            q <- of_option UB (head (sa_subchunks sa)) ;;
            num_subchunks p ;;;
            for_each (tail (sa_subchunks sa)) chunk_free_locked ;;;
            s <- get ;;
            prev <- of_assert (uvm_chunk_find_prev_size (p_chunk_sizes s t) cur_size) ;;
            split_down n t chunk_size prev q
          else free_chunk_with_merges MAX_LEVELS p ;;; mret' (status, None)
    end.

Definition alloc_chunk_with_splits (gp : gpu_props) (t : uvm_pmm_gpu_memory_type_t) (chunk_size : Z)
    (dont_batch : bool) (pma : pma_answer) : P (NV_STATUS * option ptr) :=
  uvm_assert (negb (chunk_size =? UVM_CHUNK_SIZE_MAX)) ;;;
  chunk <- claim_free_chunk t chunk_size ;;
  match chunk with
  | Some p => check_chunk p ;;; mret' (NV_OK, Some p)
  | None =>
      bigger <- claim_bigger MAX_LEVELS t chunk_size ;;
      match bigger with
      | (Some p, cur_size) => split_down MAX_LEVELS t chunk_size cur_size p
      | (None, _) =>
          r <- alloc_root_chunk gp t dont_batch pma ;;
          match r with
          | (status, out) =>
              if decide (status = NV_OK) then
                p <- of_option UB out ;;
                c <- load p ;;
                uvm_assert (uvm_gpu_chunk_get_size c =? UVM_CHUNK_SIZE_MAX) ;;;
                split_down MAX_LEVELS t chunk_size UVM_CHUNK_SIZE_MAX p
              else mret' (status, None)
          end
      end
  end.

Definition alloc_chunk (gp : gpu_props) (t : uvm_pmm_gpu_memory_type_t) (chunk_size : Z)
    (dont_batch : bool) (pma : pma_answer) : P (NV_STATUS * option ptr) :=
  chunk <- claim_free_chunk t chunk_size ;;
  match chunk with
  | Some p => mret' (NV_OK, Some p)
  | None =>
      if chunk_size =? UVM_CHUNK_SIZE_MAX then
        r <- alloc_root_chunk gp t dont_batch pma ;;
        if decide (fst r = NV_OK) then mret' r else mret' (fst r, None)
      else
        r <- alloc_chunk_with_splits gp t chunk_size dont_batch pma ;;
        if decide (fst r = NV_OK) then mret' r
        else free_next_available_root_chunk t ;;; mret' (fst r, None)
  end.

(** ** Initialization *)

Definition init_chunk (i : Z) : uvm_gpu_chunk_t :=
  Chunk (i * UVM_CHUNK_SIZE_MAX) (replicate 32 None) MEMORY_TYPE_USER false false false false
    STATE_PMA_OWNED (Z.log2 UVM_CHUNK_SIZE_MAX) PAGES_PER_UVM_VA_BLOCK None None None.

(** The masks of chunk sizes: the root chunk size and the sizes of the MMU. *)
Definition init_chunk_sizes (mmu_user mmu_kernel mem_kernel : Z) (t : uvm_pmm_gpu_memory_type_t) : Z :=
  Z.lor UVM_CHUNK_SIZE_MAX
    (if uvm_pmm_gpu_memory_type_is_user t then mmu_user else Z.lor mmu_kernel mem_kernel).

Definition chunk_sizes_ok (chunk_sizes : Z) : bool :=
  (chunk_sizes <? UVM_CHUNK_SIZE_INVALID) && (hweight_long chunk_sizes <=? UVM_MAX_CHUNK_SIZES).

Definition UVM_GPU_MAX_PHYS_MEM : Z := 256 * 1024 * 1024 * 1024.

(** When every allocation of the function succeeds. *)
Definition uvm_pmm_gpu_init (mmu_user mmu_kernel mem_kernel max_allocatable_address : Z)
    (conf_computing numa : bool) (page_count : Z -> Z) (kmem : list bool) (tenv : nat -> tracker_env)
  : option uvm_pmm_gpu_t :=
  let sizes := init_chunk_sizes mmu_user mmu_kernel mem_kernel in
  UVM_ASSERT (chunk_sizes_ok (sizes MEMORY_TYPE_USER)) ;;
  UVM_ASSERT (chunk_sizes_ok (sizes MEMORY_TYPE_KERNEL)) ;;
  UVM_ASSERT (max_allocatable_address <? UVM_GPU_MAX_PHYS_MEM) ;;
  top ← UVM_ALIGN_UP max_allocatable_address UVM_CHUNK_SIZE_MAX;
  let count := top / UVM_CHUNK_SIZE_MAX in
  Some (Pmm sizes count max_allocatable_address conf_computing numa page_count
          (list_to_map ((fun i => (i, init_chunk i)) <$> seqZ 0 count)) count (fun _ => []) ∅ kmem tenv []).

(** The user chunk sizes of a GPU: the page sizes of its MMU, and the sizes that
    were added for vAttention. *)
Definition uvm_mmu_user_chunk_sizes (page_sizes_64K page_sizes_128K : Z) : Z :=
  let sizes := Z.lor (Z.lor page_sizes_64K page_sizes_128K) PAGE_SIZE in
  let sizes := Z.lor sizes (128 * 1024) in
  let sizes := Z.lor sizes (256 * 1024) in
  Z.land (Z.land sizes (lnot64 (PAGE_SIZE - 1))) UVM_CHUNK_SIZES_MASK.
