(* ===== verification/UvmPmmTree.v ===== *)
(** Chunk sizes and the shape of chunk trees: the sizes around a size of a mask,
    the index of a free list, and the forest that parents, children, addresses
    and sizes of the chunks of uvm_pmm_gpu.c form. *)

From S2P Require Import Prelude UvmBits UvmCommon UvmTlbBatch UvmTracker UvmPmm.
Local Open Scope Z_scope.

(** ** Masks of sizes *)

Definition ROOT : Z := 21.

Lemma UVM_CHUNK_SIZE_MAX_eq : UVM_CHUNK_SIZE_MAX = 2 ^ ROOT.
Proof. reflexivity. Qed.

(** A mask has the root size as its largest, and at most six sizes. *)
Definition mask_ok (m : Z) : Prop := 0 <= m < 2 ^ (ROOT + 1) /\ Z.testbit m ROOT = true /\ hweight_long m <= UVM_MAX_CHUNK_SIZES.

(** The next size down. *)
Definition prev_log (m k : Z) : option Z :=
  let low := Z.land m (2 ^ k - 1) in if low =? 0 then None else Some (Z.log2 low).

Lemma testbit_low m k j : 0 <= k -> 0 <= j -> Z.testbit (Z.land m (2 ^ k - 1)) j = Z.testbit m j && (j <? k).
Proof.
  intros Hk Hj. replace (2 ^ k - 1) with (Z.ones k) by (rewrite Z.ones_equiv; lia).
  by rewrite Z.land_spec, Z.testbit_ones_nonneg by lia.
Qed.

Lemma prev_log_Some m k b :
  0 <= m -> 0 <= k -> prev_log m k = Some b ->
  0 <= b < k /\ Z.testbit m b = true /\ forall j, b < j < k -> Z.testbit m j = false.
Proof.
  intros Hm Hk. unfold prev_log. set (low := Z.land m (2 ^ k - 1)).
  assert (Hlow : 0 <= low) by (apply Z.land_nonneg; by left).
  destruct (Z.eqb_spec low 0); [done|]. intros [= <-].
  assert (Hb : Z.testbit low (Z.log2 low) = true) by (apply Z.bit_log2; lia).
  pose proof (Z.log2_nonneg low). unfold low in Hb at 1. rewrite testbit_low in Hb by lia.
  apply andb_true_iff in Hb as [Hb1 Hb2]. split; [zify_bool; lia|]. split; [done|]. intros j Hj.
  destruct (Z.testbit m j) eqn:Ej; [|done]. exfalso.
  assert (Hj' : Z.testbit low j = true) by (unfold low; rewrite testbit_low, Ej by lia; apply Z.ltb_lt; lia).
  rewrite Z.bits_above_log2 in Hj' by lia. done.
Qed.

Lemma prev_log_None m k : 0 <= k -> prev_log m k = None -> forall j, 0 <= j < k -> Z.testbit m j = false.
Proof.
  intros Hk. unfold prev_log. destruct (Z.eqb_spec (Z.land m (2 ^ k - 1)) 0) as [E|]; [|done].
  intros _ j Hj. pose proof (testbit_low m k j Hk ltac:(lia)) as H. rewrite E, Z.bits_0 in H.
  rewrite (proj2 (Z.ltb_lt j k)), andb_true_r in H by lia. done.
Qed.

(** The size below a size is the one with no size in between. *)
Lemma prev_log_unique m k b :
  0 <= m -> 0 <= b < k -> Z.testbit m b = true -> (forall j, b < j < k -> Z.testbit m j = false) ->
  prev_log m k = Some b.
Proof.
  intros Hm Hb Ht Hno. destruct (prev_log m k) as [b'|] eqn:E.
  - apply prev_log_Some in E as (H1 & H2 & H3); [|lia..]. f_equal.
    destruct (Z.lt_trichotomy b b') as [H|[H|H]]; [|done|].
    + rewrite Hno in H2 by lia. done.
    + rewrite H3 in Ht by lia. done.
  - rewrite (prev_log_None m k) in Ht by (done || lia). done.
Qed.

Lemma land_pow2 m k : 0 <= k -> (Z.land m (2 ^ k) =? 0) = negb (Z.testbit m k).
Proof.
  intros Hk. destruct (Z.testbit m k) eqn:E; cbn; [apply Z.eqb_neq|apply Z.eqb_eq].
  - intros H. assert (Z.testbit (Z.land m (2 ^ k)) k = true) as Hc.
    { rewrite Z.land_spec, E, Z.pow2_bits_true by done. done. }
    rewrite H, Z.bits_0 in Hc. done.
  - apply Z.bits_inj'. intros j Hj. rewrite Z.land_spec, Z.bits_0.
    destruct (decide (j = k)) as [->|]; [by rewrite E|].
    by rewrite Z.pow2_bits_false, andb_false_r by lia.
Qed.

Lemma pow2_is_power k : 0 <= k -> is_power_of_2 (2 ^ k) = true.
Proof. intros Hk. apply is_power_of_2_spec; [lia|]. by exists k. Qed.

Lemma find_prev_size_spec m k :
  0 <= k -> Z.testbit m k = true ->
  uvm_chunk_find_prev_size m (2 ^ k) =
    Some (match prev_log m k with Some b => 2 ^ b | None => UVM_CHUNK_SIZE_INVALID end).
Proof.
  intros Hk Ht. unfold uvm_chunk_find_prev_size, prev_log.
  rewrite pow2_is_power, land_pow2, Ht by done. cbn [UVM_ASSERT mbind option_bind negb].
  destruct (Z.land m (2 ^ k - 1) =? 0); [done|].
  by rewrite Z.shiftl_1_l.
Qed.

(** The next size up. *)
Lemma next_log m k :
  mask_ok m -> 0 <= k < ROOT -> Z.testbit m k = true ->
  exists k', k < k' <= ROOT /\ Z.testbit m k' = true /\ prev_log m k' = Some k.
Proof.
  intros (Hm & Hr & _) Hk Ht.
  cut (forall n j, Z.of_nat n = ROOT - j -> k < j -> (forall i, k < i < j -> Z.testbit m i = false) ->
    exists k', k < k' <= ROOT /\ Z.testbit m k' = true /\ prev_log m k' = Some k).
  { intros H. apply (H (Z.to_nat (ROOT - (k + 1))) (k + 1)); lia. }
  induction n as [|n IH]; intros j Hn Hj Hno.
  - exists ROOT. split; [lia|]. split; [done|]. apply prev_log_unique; [lia|lia|done|]. intros i Hi. apply Hno. lia.
  - destruct (Z.testbit m j) eqn:E.
    + exists j. split; [lia|]. split; [done|]. apply prev_log_unique; [lia|lia|done|]. intros i Hi. apply Hno. lia.
    + apply (IH (j + 1)); [lia|lia|]. intros i Hi. destruct (decide (i = j)) as [->|]; [done|]. apply Hno. lia.
Qed.

(** [__ffs] of a nonzero word is its lowest bit. *)
Lemma ffs_spec x k :
  0 < x -> 0 <= k -> Z.testbit x k = true -> (forall j, 0 <= j < k -> Z.testbit x j = false) -> __ffs x = k.
Proof.
  intros Hx Hk Ht Hno. destruct x as [|p|p]; [lia| |lia]. cbn.
  destruct (pos_ffs_spec p) as (H0 & H1 & H2).
  destruct (Z.lt_trichotomy (pos_ffs p) k) as [H|[H|H]]; [|done|].
  - rewrite Hno in H1 by lia. done.
  - rewrite H2 in Ht by lia. done.
Qed.

Lemma testbit_mask_above m k j :
  0 <= m < 2 ^ 64 -> 0 <= k < 63 -> 0 <= j ->
  Z.testbit (Z.lor (Z.land m (lnot64 (Z.shiftl (2 ^ k) 1 - 1))) UVM_CHUNK_SIZE_INVALID) j =
  (Z.testbit m j && (k <? j)) || (j =? ROOT + 1).
Proof.
  intros Hm Hk Hj. rewrite Z.lor_spec. f_equal.
  - rewrite Z.shiftl_mul_pow2 by lia. replace (2 ^ k * 2 ^ 1) with (2 ^ (k + 1)) by (rewrite Z.pow_add_r; lia).
    rewrite land_mask by (unfold is_u64; lia).
    rewrite <- Z.shiftr_div_pow2, <- Z.shiftl_mul_pow2, Z.shiftl_spec by lia.
    destruct (Z.ltb_spec k j); [rewrite Z.shiftr_spec, andb_true_r by lia; f_equal; lia|].
    by rewrite Z.testbit_neg_r, andb_false_r by lia.
  - change UVM_CHUNK_SIZE_INVALID with (2 ^ (ROOT + 1)). rewrite Z.pow2_bits_eqb by (unfold ROOT; lia).
    apply Z.eqb_sym.
Qed.

(** The next size up of the size below is the size. *)
Lemma find_next_size_spec m k b :
  0 <= m < 2 ^ (ROOT + 1) -> 0 <= k <= ROOT -> Z.testbit m k = true -> prev_log m k = Some b ->
  uvm_chunk_find_next_size m (2 ^ b) = Some (2 ^ k).
Proof.
  intros Hm Hk Ht Hp. apply prev_log_Some in Hp as (Hb & Htb & Hno); [|lia..].
  unfold uvm_chunk_find_next_size. rewrite pow2_is_power, land_pow2, Htb by lia. cbn [UVM_ASSERT mbind option_bind negb].
  assert (Hm64 : 0 <= m < 2 ^ 64) by (unfold ROOT in Hm; lia).
  assert (Hk' : k <= 21) by apply Hk.
  rewrite (ffs_spec _ k); [by rewrite Z.shiftl_1_l| |lia| |].
  - assert (Hne : Z.testbit (Z.lor (Z.land m (lnot64 (Z.shiftl (2 ^ b) 1 - 1))) UVM_CHUNK_SIZE_INVALID) k = true).
    { rewrite testbit_mask_above, Ht, (proj2 (Z.ltb_lt b k)) by lia. done. }
    assert (0 <= Z.lor (Z.land m (lnot64 (Z.shiftl (2 ^ b) 1 - 1))) UVM_CHUNK_SIZE_INVALID).
    { apply Z.lor_nonneg. split; [apply Z.land_nonneg; left; lia|by vm_compute]. }
    destruct (decide (Z.lor (Z.land m (lnot64 (Z.shiftl (2 ^ b) 1 - 1))) UVM_CHUNK_SIZE_INVALID = 0)) as [E|]; [|lia].
    rewrite E, Z.bits_0 in Hne. done.
  - rewrite testbit_mask_above, Ht, (proj2 (Z.ltb_lt b k)) by lia. done.
  - intros j Hj. rewrite testbit_mask_above by lia. apply orb_false_iff. split.
    + destruct (Z.ltb_spec b j); [rewrite Hno by lia; done|by rewrite andb_false_r].
    + apply Z.eqb_neq. unfold ROOT. lia.
Qed.

Lemma find_next_size_root m : 0 <= m < 2 ^ (ROOT + 1) -> Z.testbit m ROOT = true ->
  uvm_chunk_find_next_size m (2 ^ ROOT) = Some UVM_CHUNK_SIZE_INVALID.
Proof.
  intros Hm Ht. unfold uvm_chunk_find_next_size. rewrite pow2_is_power, land_pow2, Ht by (unfold ROOT; lia).
  cbn [UVM_ASSERT mbind option_bind negb]. assert (Hm64 : 0 <= m < 2 ^ 64) by (unfold ROOT in Hm; lia).
  replace (Z.land m (lnot64 (Z.shiftl (2 ^ ROOT) 1 - 1))) with 0; [by vm_compute|].
  symmetry. apply Z.bits_inj'. intros j Hj.
  pose proof (testbit_mask_above m ROOT j Hm64 ltac:(unfold ROOT; lia) Hj) as H.
  rewrite Z.bits_0. destruct (Z.testbit (Z.land m (lnot64 (Z.shiftl (2 ^ ROOT) 1 - 1))) j) eqn:E; [|done].
  rewrite Z.lor_spec, E in H. cbn in H. symmetry in H.
  assert (Hand : Z.testbit m j = true).
  { rewrite Z.land_spec in E. by apply andb_true_iff in E as [E _]. }
  assert (Hj22 : j < ROOT + 1).
  { destruct (Z.lt_ge_cases j (ROOT + 1)) as [|Hge]; [done|].
    destruct (decide (m = 0)) as [->|]; [by rewrite Z.bits_0 in Hand|].
    rewrite Z.bits_above_log2 in Hand; [done|lia|]. apply Z.lt_le_trans with (ROOT + 1); [|done].
    apply Z.log2_lt_pow2; lia. }
  rewrite Hand, (proj2 (Z.eqb_neq j (ROOT + 1))), orb_false_r in H by lia. cbn in H. apply Z.ltb_lt in H. lia.
Qed.

Lemma find_last_size_spec m : mask_ok m -> uvm_chunk_find_last_size m = Some UVM_CHUNK_SIZE_MAX.
Proof.
  intros ([H1 H2] & Ht & _). unfold uvm_chunk_find_last_size.
  assert (Hne : m <> 0) by (intros ->; by rewrite Z.bits_0 in Ht).
  rewrite (proj2 (Z.eqb_neq m 0)) by done. cbn [UVM_ASSERT mbind option_bind negb].
  replace (Z.log2 m) with ROOT; [by vm_compute|].
  assert (Hl : Z.log2 m < ROOT + 1) by (apply Z.log2_lt_pow2; lia).
  destruct (Z.le_gt_cases ROOT (Z.log2 m)); [lia|].
  rewrite Z.bits_above_log2 in Ht by lia. done.
Qed.

Lemma find_first_size_le m k :
  0 <= m -> 0 <= k -> Z.testbit m k = true -> forall b, prev_log m k = Some b ->
  exists f, uvm_chunk_find_first_size m = Some f /\ f < 2 ^ k.
Proof.
  intros Hm Hk Ht b Hb. apply prev_log_Some in Hb as (Hb & Htb & _); [|done..].
  unfold uvm_chunk_find_first_size.
  assert (Hne : m <> 0) by (intros ->; by rewrite Z.bits_0 in Ht).
  rewrite (proj2 (Z.eqb_neq m 0)) by done. cbn [UVM_ASSERT mbind option_bind negb].
  eexists. split; [done|]. rewrite Z.shiftl_1_l. destruct m as [|p|p]; [lia| |lia]. cbn.
  destruct (pos_ffs_spec p) as (H0 & H1 & H2). apply Z.pow_lt_mono_r; [lia|lia|].
  destruct (Z.le_gt_cases (pos_ffs p) b); [lia|]. rewrite H2 in Htb by lia. done.
Qed.

(** ** The index of a free list *)

Definition idx_of (m k : Z) : Z := hweight_long (Z.land m (2 ^ k - 1)).

Lemma hweight_lt x y j :
  0 <= j < 64 -> Z.testbit x j = false -> Z.testbit y j = true ->
  (forall i, Z.testbit x i = true -> Z.testbit y i = true) -> hweight_long x < hweight_long y.
Proof.
  intros Hj Hx Hy Himp. unfold hweight_long. apply inj_lt.
  assert (Hin : In j (seqZ 0 64)) by (apply list_elem_of_In, elem_of_seqZ; lia).
  induction (seqZ 0 64) as [|i l IH]; [done|]. cbn.
  assert (Hle : forall l', (length (List.filter (Z.testbit x) l') <= length (List.filter (Z.testbit y) l'))%nat).
  { induction l' as [|i' l' IH']; [done|]. cbn. destruct (Z.testbit x i') eqn:E; [rewrite (Himp _ E); cbn; lia|].
    destruct (Z.testbit y i'); cbn; lia. }
  destruct Hin as [->|Hin].
  - rewrite Hx, Hy. cbn. specialize (Hle l). lia.
  - specialize (IH Hin). destruct (Z.testbit x i) eqn:E; [rewrite (Himp _ E); cbn; lia|].
    destruct (Z.testbit y i); cbn; lia.
Qed.

Lemma idx_of_lt m k j :
  0 <= k < j -> j <= 64 -> Z.testbit m k = true -> idx_of m k < idx_of m j.
Proof.
  intros Hk Hj Ht. apply (hweight_lt _ _ k); [lia| | |].
  - rewrite testbit_low by lia. by rewrite Z.ltb_irrefl, andb_false_r.
  - rewrite testbit_low, Ht by lia. apply Z.ltb_lt. lia.
  - intros i. destruct (Z.lt_ge_cases i 0); [by rewrite !Z.testbit_neg_r by lia|].
    rewrite !testbit_low by lia. rewrite !andb_true_iff, !Z.ltb_lt. intros [-> ?]. split; [done|lia].
Qed.

Lemma idx_of_inj m k j :
  0 <= k <= 64 -> 0 <= j <= 64 -> Z.testbit m k = true -> Z.testbit m j = true ->
  idx_of m k = idx_of m j -> k = j.
Proof.
  intros Hk Hj Htk Htj E. destruct (Z.lt_trichotomy k j) as [H|[H|H]]; [|done|].
  - pose proof (idx_of_lt m k j ltac:(lia) ltac:(lia) Htk). lia.
  - pose proof (idx_of_lt m j k ltac:(lia) ltac:(lia) Htj). lia.
Qed.

Lemma idx_of_range m k :
  mask_ok m -> 0 <= k <= ROOT -> Z.testbit m k = true -> 0 <= idx_of m k < UVM_MAX_CHUNK_SIZES.
Proof.
  intros (_ & _ & Hw) Hk Ht. split; [unfold idx_of, hweight_long; lia|].
  apply Z.lt_le_trans with (hweight_long m); [|done]. assert (Hk' : k <= 21) by apply Hk.
  apply (hweight_lt _ _ k); [lia| |done|].
  - rewrite testbit_low by lia. by rewrite Z.ltb_irrefl, andb_false_r.
  - intros i. destruct (Z.lt_ge_cases i 0); [by rewrite !Z.testbit_neg_r by lia|].
    rewrite testbit_low by lia. by intros [? _]%andb_true_iff.
Qed.

#[global] Opaque hweight_long.

(** ** Shapes: what does not change while a tree is neither split nor merged *)

Record shape := Shape {
  sh_addr : Z;
  sh_log2 : Z;
  sh_type : uvm_pmm_gpu_memory_type_t;
  sh_parent : option Z;
  sh_subs : option (list Z);
}.

Definition subs_of (c : uvm_gpu_chunk_t) : option (list Z) := sa_subchunks <$> c_suballoc c.
Definition shape_of (c : uvm_gpu_chunk_t) : shape :=
  Shape (c_address c) (c_log2_size c) (c_type c) (c_parent c) (subs_of c).

Section tree.
Context (sizes : uvm_pmm_gpu_memory_type_t -> Z) (count : Z).
Implicit Types (sm : gmap Z shape) (p q : Z) (c d : shape).

(** [q] is the child [i] of [p]. *)
Definition kid p c (i : nat) d : Prop :=
  sh_parent d = Some p /\ sh_type d = sh_type c /\
  sh_addr d = sh_addr c + Z.of_nat i * 2 ^ sh_log2 d /\
  prev_log (sizes (sh_type c)) (sh_log2 c) = Some (sh_log2 d).

Record shape_ok sm p c : Prop := {
  so_log2 : 0 <= sh_log2 c <= ROOT;
  so_mask : Z.testbit (sizes (sh_type c)) (sh_log2 c) = true;
  so_addr : 0 <= sh_addr c /\ sh_addr c mod 2 ^ sh_log2 c = 0;
  so_root : sh_log2 c = ROOT -> sh_parent c = None /\ p = sh_addr c / 2 ^ ROOT /\ 0 <= p < count;
  so_parent : sh_log2 c <> ROOT -> count <= p /\
    exists q d subs i, sm !! q = Some d /\ sh_subs d = Some subs /\ subs !! i = Some p /\ kid q d i c;
  so_subs : forall subs, sh_subs c = Some subs ->
    exists b, prev_log (sizes (sh_type c)) (sh_log2 c) = Some b /\
      Z.of_nat (length subs) = 2 ^ (sh_log2 c - b) /\
      forall i q, subs !! i = Some q -> exists d, sm !! q = Some d /\ kid p c i d;
}.

Record tree_ok sm : Prop := {
  to_masks : forall t, mask_ok (sizes t);
  to_shapes : forall p c, sm !! p = Some c -> shape_ok sm p c;
  to_roots : forall i, 0 <= i < count -> is_Some (sm !! i);
}.

Section facts.
Context (sm : gmap Z shape) (Htree : tree_ok sm).

Lemma mask_nonneg t : 0 <= sizes t.
Proof. apply (to_masks sm Htree t). Qed.

Lemma pow2_pos k : 0 <= k -> 0 < 2 ^ k.
Proof. intros. apply Z.pow_pos_nonneg; lia. Qed.

(** The range of a child is inside its parent's. *)
Lemma kid_inside p c subs i q d :
  sm !! p = Some c -> sh_subs c = Some subs -> subs !! i = Some q -> sm !! q = Some d -> kid p c i d ->
  sh_log2 d < sh_log2 c /\ sh_addr c <= sh_addr d /\
  sh_addr d + 2 ^ sh_log2 d <= sh_addr c + 2 ^ sh_log2 c.
Proof.
  intros Hp Hs Hi Hq (_ & _ & Ha & Hprev). pose proof (to_shapes sm Htree p c Hp) as Hok.
  destruct (so_subs sm p c Hok subs Hs) as (b & Hb & Hlen & _). rewrite Hprev in Hb. injection Hb as <-.
  apply prev_log_Some in Hprev as (Hd & _); [|apply mask_nonneg|apply Hok].
  pose proof (lookup_lt_Some _ _ _ Hi) as Hlt. pose proof (pow2_pos (sh_log2 d) ltac:(lia)).
  split; [lia|]. split; [lia|].
  assert (E : 2 ^ sh_log2 c = 2 ^ (sh_log2 c - sh_log2 d) * 2 ^ sh_log2 d) by (rewrite <- Z.pow_add_r by lia; f_equal; lia).
  rewrite E, <- Hlen, Ha. nia.
Qed.

(** The parent of a chunk that is not a root. *)
Lemma parent_of p c :
  sm !! p = Some c -> sh_log2 c <> ROOT ->
  exists q d subs i, sm !! q = Some d /\ sh_subs d = Some subs /\ subs !! i = Some p /\ kid q d i c /\
    sh_log2 c < sh_log2 d /\ sh_addr d <= sh_addr c /\ sh_addr c + 2 ^ sh_log2 c <= sh_addr d + 2 ^ sh_log2 d.
Proof.
  intros Hp Hne. destruct (so_parent sm p c (to_shapes sm Htree p c Hp) Hne) as (_ & q & d & subs & i & Hq & Hs & Hi & Hk).
  exists q, d, subs, i. split_and!; try done; by eapply kid_inside.
Qed.

(** Every size of the mask above a chunk is the size of an ancestor of it. *)
Lemma ancestor K : forall n p c,
  (Z.to_nat (ROOT - sh_log2 c) <= n)%nat ->
  sm !! p = Some c -> Z.testbit (sizes (sh_type c)) K = true -> sh_log2 c <= K <= ROOT ->
  exists q a, sm !! q = Some a /\ sh_log2 a = K /\ sh_type a = sh_type c /\
    sh_addr a <= sh_addr c /\ sh_addr c + 2 ^ sh_log2 c <= sh_addr a + 2 ^ K /\
    (sh_log2 c < K -> is_Some (sh_subs a)).
Proof.
  induction n as [|n IH]; intros p c Hn Hp Ht HK.
  - exists p, c. assert (sh_log2 c = K) by lia. subst K. split_and!; try done; lia.
  - destruct (decide (sh_log2 c = K)) as [<-|Hne]; [exists p, c; split_and!; try done; lia|].
    destruct (parent_of p c Hp) as (q & d & subs & i & Hq & Hs & Hi & Hkid & Hlog & H1 & H2); [lia|].
    destruct Hkid as (_ & Htype & _ & Hprev). apply prev_log_Some in Hprev as (_ & _ & Hno);
      [|apply mask_nonneg|apply (to_shapes sm Htree q d Hq)].
    assert (HdK : sh_log2 d <= K).
    { destruct (Z.le_gt_cases (sh_log2 d) K); [done|]. rewrite Htype, Hno in Ht by lia. done. }
    destruct (decide (sh_log2 d = K)) as [<-|HnK].
    { exists q, d. by split_and!. }
    destruct (IH q d) as (r & a & Hr & Ha & Hta & Ha1 & Ha2 & Hsub); [lia|done|by rewrite <- Htype|lia|].
    exists r, a. split_and!; try done; [congruence|lia|lia|]. intros _. apply Hsub. lia.
Qed.

(** The root of a tree. *)
Lemma tree_root p c :
  sm !! p = Some c ->
  exists r, sm !! (sh_addr c / 2 ^ ROOT) = Some r /\ sh_log2 r = ROOT /\ sh_type r = sh_type c /\
    sh_addr r = sh_addr c / 2 ^ ROOT * 2 ^ ROOT /\ sh_parent r = None /\
    0 <= sh_addr c / 2 ^ ROOT < count /\ (sh_log2 c <> ROOT -> is_Some (sh_subs r)).
Proof.
  intros Hp. pose proof (so_log2 sm p c (to_shapes sm Htree p c Hp)) as Hl.
  destruct (ancestor ROOT _ p c (le_n _) Hp) as (q & a & Hq & Ha & Hta & H1 & H2 & Hsub);
    [apply (to_masks sm Htree)|unfold ROOT in *; lia|].
  pose proof (to_shapes sm Htree q a Hq) as Hok. destruct (so_root sm q a Hok Ha) as (Hpar & Hq' & Hc).
  pose proof (so_addr sm q a Hok) as [Hn Hm]. rewrite Ha in Hm.
  pose proof (pow2_pos (sh_log2 c) ltac:(lia)).
  assert (E : sh_addr c / 2 ^ ROOT = q).
  { rewrite Hq'. unfold ROOT in *. Z.div_mod_to_equations. lia. }
  rewrite E. exists a. split_and!; try done.
  - unfold ROOT in *. Z.div_mod_to_equations. lia.
  - lia.
  - lia.
  - intros. apply Hsub. lia.
Qed.

(** Two chunks of one size whose ranges overlap are one. *)
Lemma tree_unique : forall n p p' c c',
  (Z.to_nat (ROOT - sh_log2 c) <= n)%nat ->
  sm !! p = Some c -> sm !! p' = Some c' -> sh_type c = sh_type c' -> sh_log2 c = sh_log2 c' ->
  sh_addr c < sh_addr c' + 2 ^ sh_log2 c' -> sh_addr c' < sh_addr c + 2 ^ sh_log2 c -> p = p'.
Proof.
  induction n as [|n IH]; intros p p' c c' Hn Hp Hp' Ht Hl H1 H2;
    pose proof (to_shapes sm Htree p c Hp) as Hok; pose proof (to_shapes sm Htree p' c' Hp') as Hok';
    pose proof (so_log2 sm p c Hok) as Hr.
  1: assert (Hroot : sh_log2 c = ROOT) by lia.
  2: destruct (decide (sh_log2 c = ROOT)) as [Hroot|Hne].
  1, 2: destruct (so_root sm p c Hok Hroot) as (_ & -> & _), (so_root sm p' c' Hok' ltac:(lia)) as (_ & -> & _);
    destruct (so_addr sm _ c Hok) as [_ Hm], (so_addr sm _ c' Hok') as [_ Hm'];
    rewrite <- Hl, Hroot in *; unfold ROOT in *; Z.div_mod_to_equations; lia.
  destruct (parent_of p c Hp Hne) as (q & d & subs & i & Hq & Hs & Hi & Hk & A1 & A2 & A3).
  destruct (parent_of p' c' Hp' ltac:(lia)) as (q' & d' & subs' & i' & Hq' & Hs' & Hi' & Hk' & B1 & B2 & B3).
  destruct Hk as (_ & Hkt & Hka & Hkl), Hk' as (_ & Hkt' & Hka' & Hkl').
  assert (Hdl : sh_log2 d = sh_log2 d').
  { apply prev_log_Some in Hkl as (_ & _ & Hno); [|apply mask_nonneg|apply (to_shapes sm Htree q d Hq)].
    apply prev_log_Some in Hkl' as (_ & _ & Hno'); [|apply mask_nonneg|apply (to_shapes sm Htree q' d' Hq')].
    destruct (Z.lt_trichotomy (sh_log2 d) (sh_log2 d')) as [Hlt|[He|Hlt]]; [|done|].
    - pose proof (so_mask sm q d (to_shapes sm Htree q d Hq)) as Hb.
      rewrite <- Hkt, Ht, Hkt', Hno' in Hb by lia. done.
    - pose proof (so_mask sm q' d' (to_shapes sm Htree q' d' Hq')) as Hb.
      rewrite <- Hkt', <- Ht, Hkt, Hno in Hb by lia. done. }
  assert (q = q') as <-.
  { apply (IH q q' d d'); [lia|done|done|congruence|done|lia|lia]. }
  assert (d = d') as <- by congruence. assert (subs = subs') as <- by congruence.
  assert (i = i') as <-; [|congruence].
  rewrite <- Hl in *. pose proof (pow2_pos (sh_log2 c) ltac:(lia)). nia.
Qed.

(** The ranges of two chunks with no children do not overlap. *)
Lemma leaves_disjoint p p' c c' :
  sm !! p = Some c -> sm !! p' = Some c' -> p <> p' -> sh_subs c = None -> sh_subs c' = None ->
  sh_addr c + 2 ^ sh_log2 c <= sh_addr c' \/ sh_addr c' + 2 ^ sh_log2 c' <= sh_addr c.
Proof.
  revert p p' c c'.
  assert (Hw : forall p p' c c', sm !! p = Some c -> sm !! p' = Some c' -> p <> p' ->
    sh_subs c = None -> sh_subs c' = None -> sh_log2 c <= sh_log2 c' ->
    sh_addr c + 2 ^ sh_log2 c <= sh_addr c' \/ sh_addr c' + 2 ^ sh_log2 c' <= sh_addr c).
  { intros p p' c c' Hp Hp' Hne Hs Hs' Hl.
    destruct (Z.le_gt_cases (sh_addr c + 2 ^ sh_log2 c) (sh_addr c')) as [|G1]; [by left|].
    destruct (Z.le_gt_cases (sh_addr c' + 2 ^ sh_log2 c') (sh_addr c)) as [|G2]; [by right|]. exfalso.
    pose proof (so_log2 sm p' c' (to_shapes sm Htree p' c' Hp')).
    assert (Ht : sh_type c = sh_type c').
    { destruct (tree_root p c Hp) as (r & Hr & Hr1 & <- & Hr2 & _), (tree_root p' c' Hp') as (r' & Hr' & Hr1' & <- & Hr2' & _).
      destruct (ancestor ROOT _ p c (le_n _) Hp) as (q & a & Hq & Ha & Hta & C1 & C2 & _);
        [apply (to_masks sm Htree)|pose proof (so_log2 sm p c (to_shapes sm Htree p c Hp)); lia|].
      destruct (ancestor ROOT _ p' c' (le_n _) Hp') as (q' & a' & Hq' & Ha' & Hta' & D1 & D2 & _);
        [apply (to_masks sm Htree)|lia|].
      pose proof (so_addr sm q a (to_shapes sm Htree q a Hq)) as [_ Hm].
      pose proof (so_addr sm q' a' (to_shapes sm Htree q' a' Hq')) as [_ Hm'].
      rewrite Ha in Hm. rewrite Ha' in Hm'.
      assert (sh_addr c / 2 ^ ROOT = sh_addr c' / 2 ^ ROOT) as E; [|congruence].
      pose proof (pow2_pos (sh_log2 c) (proj1 (so_log2 sm p c (to_shapes sm Htree p c Hp)))).
      pose proof (pow2_pos (sh_log2 c') ltac:(lia)).
      unfold ROOT in *. Z.div_mod_to_equations. lia. }
    destruct (ancestor (sh_log2 c') _ p c (le_n _) Hp) as (q & a & Hq & Ha & Hta & C1 & C2 & Hsub);
      [rewrite Ht; apply (to_shapes sm Htree p' c' Hp')|lia|].
    pose proof (pow2_pos (sh_log2 c) (proj1 (so_log2 sm p c (to_shapes sm Htree p c Hp)))).
    assert (q = p') as ->.
    { apply (tree_unique _ q p' a c' (le_n _)); try done; [congruence|lia|rewrite Ha; lia]. }
    assert (a = c') as -> by congruence.
    destruct (decide (sh_log2 c = sh_log2 c')) as [El|].
    - apply Hne. apply (tree_unique _ p p' c c' (le_n _)); done.
    - destruct Hsub as [? Hsub]; [lia|congruence]. }
  intros p p' c c' Hp Hp' Hne Hs Hs'. destruct (Z.le_ge_cases (sh_log2 c) (sh_log2 c')) as [Hl|Hl].
  - by apply (Hw p p').
  - destruct (Hw p' p c' c) as [|]; try done; [by right|by left].
Qed.
(** A list of children has no duplicates. *)
Lemma subs_NoDup p c subs : sm !! p = Some c -> sh_subs c = Some subs -> NoDup subs.
Proof.
  intros Hp Hs. pose proof (to_shapes sm Htree p c Hp) as Hok.
  destruct (so_subs sm p c Hok subs Hs) as (b & Hb & _ & Hk).
  apply prev_log_Some in Hb as (Hb & _); [|apply mask_nonneg|apply Hok]. pose proof (pow2_pos b ltac:(lia)).
  apply NoDup_alt. intros i j q Hi Hj.
  destruct (Hk i q Hi) as (d & Hd & _ & _ & Ha & Hl), (Hk j q Hj) as (d' & Hd' & _ & _ & Ha' & Hl').
  assert (d = d') as <- by congruence. pose proof (pow2_pos (sh_log2 d) (proj1 (so_log2 sm q d (to_shapes sm Htree q d Hd)))). nia.
Qed.
(** ** Merging and splitting *)

Definition with_subs subs d : shape := Shape (sh_addr d) (sh_log2 d) (sh_type d) (sh_parent d) subs.

(** The children of [q], all without children, go away. *)
Lemma tree_collapse sm' q d subs :
  sm !! q = Some d -> sh_subs d = Some subs ->
  (forall k, k ∈ subs -> exists e, sm !! k = Some e /\ sh_subs e = None) ->
  sm' !! q = Some (with_subs None d) -> (forall k, k ∈ subs -> sm' !! k = None) ->
  (forall k, k <> q -> k ∉ subs -> sm' !! k = sm !! k) -> tree_ok sm'.
Proof.
  intros Hq Hs Hleaf Hq' Hgone Hrest.
  assert (Hkids : forall k, k ∈ subs -> exists i e, sm !! k = Some e /\ kid q d i e).
  { intros k [i Hi]%list_elem_of_lookup. destruct (so_subs sm q d (to_shapes sm Htree q d Hq) subs Hs) as (b & _ & _ & Hk).
    destruct (Hk i k Hi) as (e & He & Hkid). by exists i, e. }
  assert (Hpar : forall p c q' d' subs' i, sm !! p = Some c -> p ∉ subs -> sm !! q' = Some d' -> sh_subs d' = Some subs' ->
    subs' !! i = Some p -> q' <> q /\ q' ∉ subs).
  { intros p c q' d' subs' i Hp Hnp Hd' Hs' Hi. split.
    - intros ->. apply Hnp. apply list_elem_of_lookup. exists i. congruence.
    - intros Hin. destruct (Hleaf q' Hin) as (e & He & Hn). congruence. }
  assert (Hnq : q ∉ subs) by (intros Hin; destruct (Hleaf q Hin) as (e & He & Hn); congruence).
  assert (Hup : forall p c c', sm !! p = Some c -> p ∉ subs -> sh_log2 c <> ROOT ->
    sh_addr c' = sh_addr c -> sh_log2 c' = sh_log2 c -> sh_type c' = sh_type c -> sh_parent c' = sh_parent c ->
    count <= p /\ exists q' d' subs' i, sm' !! q' = Some d' /\ sh_subs d' = Some subs' /\ subs' !! i = Some p /\ kid q' d' i c').
  { intros p c c' Hp Hnp Hne E1 E2 E3 E4.
    destruct (so_parent sm p c (to_shapes sm Htree p c Hp) Hne) as (Hc & q' & d' & subs' & i & Hd' & Hs' & Hi & Hk).
    split; [done|]. destruct (Hpar p c q' d' subs' i) as [Hn1 Hn2]; try done.
    exists q', d', subs', i. rewrite Hrest by done. split_and!; try done. unfold kid in *. by rewrite E1, E2, E3, E4. }
  split; [apply Htree| |].
  - intros p c Hp. destruct (decide (p = q)) as [->|Hpq].
    + rewrite Hq' in Hp. injection Hp as <-. destruct (to_shapes sm Htree q d Hq) as [H1 H2 H3 H4 _ _].
      split; try done. intros Hne. by apply (Hup q d).
    + assert (Hnp : p ∉ subs) by (intros Hin; by rewrite Hgone in Hp).
      rewrite Hrest in Hp by done. destruct (to_shapes sm Htree p c Hp) as [H1 H2 H3 H4 _ H6]. split; try done.
      * intros Hne. by apply (Hup p c).
      * intros subs' Hs'. destruct (H6 subs' Hs') as (b & Hb & Hlen & Hk). exists b. split_and!; try done.
        intros i k Hi. destruct (Hk i k Hi) as (e & He & Hkid). destruct (decide (k = q)) as [->|Hkq].
        -- exists (with_subs None d). split; [done|]. assert (e = d) as -> by congruence. exact Hkid.
        -- exists e. split; [|done]. rewrite Hrest; [done..|]. intros Hin. destruct (Hkids k Hin) as (j & e' & He' & Hp' & _).
           destruct Hkid as (Hp2 & _). congruence.
  - intros i Hi. destruct (to_roots sm Htree i Hi) as [e He]. destruct (decide (i = q)) as [->|Hiq]; [by rewrite Hq'|].
    rewrite Hrest; [by rewrite He|done|]. intros Hin. destruct (Hkids i Hin) as (j & e' & He' & Hp' & _ & _ & Hprev).
    assert (e = e') as <- by congruence. pose proof (to_shapes sm Htree i e He) as Hok.
    apply prev_log_Some in Hprev as (Hb & _); [|apply mask_nonneg|apply (to_shapes sm Htree q d Hq)].
    pose proof (so_log2 sm q d (to_shapes sm Htree q d Hq)).
    destruct (so_parent sm i e Hok) as [Hc _]; lia.
Qed.

(** The chunk [q] gets children of the next size down. *)
Lemma tree_split sm' q d subs b :
  sm !! q = Some d -> sh_subs d = None -> prev_log (sizes (sh_type d)) (sh_log2 d) = Some b ->
  Z.of_nat (length subs) = 2 ^ (sh_log2 d - b) ->
  sm' !! q = Some (with_subs (Some subs) d) ->
  (forall i k, subs !! i = Some k -> count <= k /\ sm !! k = None /\
     sm' !! k = Some (Shape (sh_addr d + Z.of_nat i * 2 ^ b) b (sh_type d) (Some q) None)) ->
  (forall k, k <> q -> k ∉ subs -> sm' !! k = sm !! k) -> tree_ok sm'.
Proof.
  intros Hq Hs Hb Hlen Hq' Hnew Hrest. pose proof (to_shapes sm Htree q d Hq) as Hokd.
  assert (Hold : forall k e, sm !! k = Some e -> k ∉ subs).
  { intros k e He [i Hi]%list_elem_of_lookup. destruct (Hnew i k Hi) as (_ & Hn & _). congruence. }
  assert (Hsame : forall k e, sm !! k = Some e -> exists e', sm' !! k = Some e' /\ sh_addr e' = sh_addr e /\
    sh_log2 e' = sh_log2 e /\ sh_type e' = sh_type e /\ sh_parent e' = sh_parent e /\ (sh_subs e <> None -> sh_subs e' = sh_subs e)).
  { intros k e He. destruct (decide (k = q)) as [->|Hk].
    - exists (with_subs (Some subs) d). assert (e = d) as -> by congruence. by split_and!.
    - exists e. rewrite Hrest; [by split_and!|done|by eapply Hold]. }
  assert (Hb' := Hb). apply prev_log_Some in Hb' as (Hbr & Hbt & _); [|apply mask_nonneg|apply Hokd].
  pose proof (so_log2 sm q d Hokd) as Hdl.
  assert (Hmono : forall k e e', sm !! k = Some e -> sm' !! k = Some e' -> sh_addr e' = sh_addr e -> sh_log2 e' = sh_log2 e ->
    sh_type e' = sh_type e -> sh_parent e' = sh_parent e ->
    (forall subs', sh_subs e' = Some subs' -> sh_subs e = Some subs' \/ (k = q /\ subs' = subs)) -> shape_ok sm' k e').
  { intros k e e' He He' E1 E2 E3 E4 Hsub. destruct (to_shapes sm Htree k e He) as [H1 H2 H3 H4 H5 H6].
    split; rewrite ?E1, ?E2, ?E3, ?E4; try done.
    - intros Hne. destruct (H5 Hne) as (Hc & q' & d' & subs' & i & Hd' & Hs' & Hi & Hk). split; [done|].
      destruct (Hsame q' d' Hd') as (d2 & Hd2 & F1 & F2 & F3 & F4 & F5).
      exists q', d2, subs', i. rewrite F5 by congruence. split_and!; try done.
      unfold kid in *. by rewrite E1, E2, E3, E4, F1, F2, F3.
    - intros subs' Hs'. destruct (Hsub subs' Hs') as [Hs2|[-> ->]].
      + destruct (H6 subs' Hs2) as (b2 & Hb2 & Hlen2 & Hk2). exists b2. split_and!; try done.
        intros i k2 Hi. destruct (Hk2 i k2 Hi) as (f & Hf & Hkid). destruct (Hsame k2 f Hf) as (f' & Hf' & F1 & F2 & F3 & F4 & _).
        exists f'. split; [done|]. unfold kid in *. by rewrite E1, E2, E3, F1, F2, F3, F4.
      + assert (e = d) as -> by congruence. exists b. split_and!; try done. intros i k2 Hi.
        destruct (Hnew i k2 Hi) as (_ & _ & Hk2). eexists. split; [done|]. unfold kid. cbn. by rewrite E1, E2, E3. }
  split; [apply Htree| |].
  - intros p c Hp. destruct (decide (p ∈ subs)) as [[i Hi]%list_elem_of_lookup|Hnp].
    + destruct (Hnew i p Hi) as (Hcnt & _ & Hp2). rewrite Hp2 in Hp. injection Hp as <-. split; cbn.
      * lia.
      * done.
      * destruct (so_addr sm q d Hokd) as [Ha Hm]. pose proof (pow2_pos b ltac:(lia)). split; [nia|].
        rewrite Z.mod_add by lia. apply Z.mod_divide; [lia|]. apply Z.mod_divide in Hm; [|pose proof (pow2_pos (sh_log2 d) ltac:(lia)); lia].
        eapply Z.divide_trans; [|exact Hm]. exists (2 ^ (sh_log2 d - b)). rewrite <- Z.pow_add_r by lia. f_equal. lia.
      * lia.
      * intros _. split; [done|]. exists q, (with_subs (Some subs) d), subs, i. split_and!; try done.
      * done.
    + destruct (sm !! p) as [e|] eqn:Ee.
      * destruct (Hsame p e Ee) as (e' & He' & E1 & E2 & E3 & E4 & E5). assert (c = e') as -> by congruence.
        apply (Hmono p e e'); try done. intros subs' Hs'. destruct (decide (p = q)) as [->|Hpq].
        -- right. split; [done|]. rewrite Hq' in He'. injection He' as <-. cbn in Hs'. congruence.
        -- left. rewrite Hrest in He' by done. congruence.
      * destruct (decide (p = q)) as [->|]; [congruence|]. rewrite Hrest in Hp by done. congruence.
  - intros i Hi. destruct (to_roots sm Htree i Hi) as [e He]. destruct (Hsame i e He) as (e' & He' & _). by rewrite He'.
Qed.
(** A root chunk without children can change its type. *)
Lemma tree_retype sm' p d t :
  sm !! p = Some d -> sh_log2 d = ROOT -> sh_subs d = None ->
  sm' !! p = Some (Shape (sh_addr d) (sh_log2 d) t (sh_parent d) None) -> (forall k, k <> p -> sm' !! k = sm !! k) -> tree_ok sm'.
Proof.
  intros Hp Hl Hs Hp' Hrest. destruct (so_root sm p d (to_shapes sm Htree p d Hp) Hl) as (Hpar & _).
  split; [apply Htree| |].
  - intros k c Hk. destruct (decide (k = p)) as [->|Hne].
    + rewrite Hp' in Hk. injection Hk as <-. destruct (to_shapes sm Htree p d Hp) as [H1 H2 H3 H4 H5 H6]. split; cbn; try done.
      rewrite Hl. apply Htree.
    + rewrite Hrest in Hk by done. destruct (to_shapes sm Htree k c Hk) as [H1 H2 H3 H4 H5 H6]. split; try done.
      * intros Hn. destruct (H5 Hn) as (Hc & q & e & subs & i & He & Hse & Hi & Hkid). split; [done|].
        exists q, e, subs, i. rewrite Hrest; [done|]. intros ->. congruence.
      * intros subs Hsub. destruct (H6 subs Hsub) as (b & Hb & Hlen & Hkids). exists b. split_and!; try done.
        intros i q Hi. destruct (Hkids i q Hi) as (e & He & Hkid). exists e. rewrite Hrest; [done|]. intros ->.
        destruct Hkid as (Hpe & _). congruence.
  - intros i Hi. destruct (decide (i = p)) as [->|Hne]; [by rewrite Hp'|]. rewrite Hrest by done. by apply Htree.
Qed.
End facts.
End tree.
