(* ===== verification/UvmPmmInv.v ===== *)
(** The invariant of the physical memory manager (uvm_pmm_gpu.c): the chunks
    form a forest under the root chunks, the counters of a split chunk agree
    with its children and with the pinned chunks under a root, and the free
    lists hold exactly the free chunks. *)

From S2P Require Import Prelude UvmBits UvmCommon UvmTlbBatch UvmTracker UvmPmm UvmPmmTree.
Local Open Scope Z_scope.

Abbreviation heap := (gmap Z uvm_gpu_chunk_t).

(** ** Counting *)

Section counting.
Implicit Types (h : heap) (l : list Z) (k q r : Z).

Definition is_free h q : bool :=
  match h !! q with Some c => state_is (c_state c) STATE_FREE | None => false end.
Definition nonfree h l : Z := Z.of_nat (length (List.filter (fun q => negb (is_free h q)) l)).

Lemma nonfree_cons h q l : nonfree h (q :: l) = Z.b2z (negb (is_free h q)) + nonfree h l.
Proof. unfold nonfree. cbn. destruct (is_free h q); cbn; lia. Qed.

Lemma nonfree_ext h h' l : (forall q, q ∈ l -> is_free h' q = is_free h q) -> nonfree h' l = nonfree h l.
Proof.
  induction l as [|q l IH]; intros H; [done|]. rewrite !nonfree_cons, (H q) by by left.
  rewrite IH; [done|]. intros. apply H. by right.
Qed.

(** The number of children in use when one child changes. *)
Lemma nonfree_change h h' l q :
  NoDup l -> q ∈ l -> (forall k, k <> q -> is_free h' k = is_free h k) ->
  nonfree h' l = nonfree h l + (Z.b2z (negb (is_free h' q)) - Z.b2z (negb (is_free h q))).
Proof.
  induction l as [|a l IH]; intros Hnd Hin Hk; [by apply not_elem_of_nil in Hin|].
  apply NoDup_cons in Hnd as [Ha Hnd]. rewrite !nonfree_cons. apply elem_of_cons in Hin as [->|Hin].
  - rewrite (nonfree_ext h h' l); [lia|]. intros k Hkl. apply Hk. congruence.
  - rewrite IH, (Hk a) by (done || congruence). lia.
Qed.

Lemma nonfree_range h l : 0 <= nonfree h l <= Z.of_nat (length l).
Proof.
  induction l as [|a l IH]; [done|]. rewrite nonfree_cons. cbn [length]. destruct (is_free h a); cbn; lia.
Qed.
Lemma nonfree_lt h l q : q ∈ l -> is_free h q = true -> nonfree h l < Z.of_nat (length l).
Proof.
  induction l as [|a l IH]; intros Hin Hf; [by apply not_elem_of_nil in Hin|]. rewrite nonfree_cons. cbn [length].
  pose proof (nonfree_range h l). apply elem_of_cons in Hin as [->|Hin]; [rewrite Hf; cbn; lia|].
  specialize (IH Hin Hf). destruct (is_free h a); cbn; lia.
Qed.
Lemma nonfree_pos h l q : q ∈ l -> is_free h q = false -> 0 < nonfree h l.
Proof.
  induction l as [|a l IH]; intros Hin Hf; [by apply not_elem_of_nil in Hin|]. rewrite nonfree_cons.
  pose proof (nonfree_range h l). apply elem_of_cons in Hin as [->|Hin]; [rewrite Hf; cbn; lia|].
  specialize (IH Hin Hf). destruct (is_free h a); cbn; lia.
Qed.
Lemma nonfree_none h l : nonfree h l = 0 -> forall q, q ∈ l -> is_free h q = true.
Proof.
  intros H q Hin. destruct (is_free h q) eqn:E; [done|]. pose proof (nonfree_pos h l q Hin E). lia.
Qed.
Lemma nonfree_all h l : (forall q, q ∈ l -> is_free h q = false) -> nonfree h l = Z.of_nat (length l).
Proof.
  induction l as [|a l IH]; intros H; [done|]. rewrite nonfree_cons, (H a) by by left.
  rewrite IH; [cbn [length negb Z.b2z]; lia|]. intros. apply H. by right.
Qed.

(** The root chunk a chunk is under, and the chunks that count as pinned there. *)
Definition root_of (c : uvm_gpu_chunk_t) : Z := c_address c / 2 ^ ROOT.
Definition pinned_under r (c : uvm_gpu_chunk_t) : bool :=
  state_is (c_state c) STATE_TEMP_PINNED && negb (c_log2_size c =? ROOT) && (root_of c =? r).
Definition pinned_at h r k : bool := match h !! k with Some c => pinned_under r c | None => false end.
Definition pinset h r : gset Z := dom (filter (fun kc => pinned_under r kc.2 = true) h).
Definition pcount h r : Z := Z.of_nat (size (pinset h r)).

Lemma elem_of_pinset h r k : k ∈ pinset h r <-> pinned_at h r k = true.
Proof.
  unfold pinset, pinned_at. rewrite elem_of_dom. unfold is_Some. setoid_rewrite map_lookup_filter_Some. cbn.
  split; [intros (c & -> & ?); done|]. destruct (h !! k) as [c|]; [eauto|done].
Qed.

Lemma pcount_ext h h' r : (forall k, pinned_at h' r k = pinned_at h r k) -> pcount h' r = pcount h r.
Proof.
  intros H. unfold pcount. replace (pinset h' r) with (pinset h r); [done|].
  apply leibniz_equiv. intros k. by rewrite !elem_of_pinset, H.
Qed.

(** The pinned chunks under a root when a set of chunks is added. *)
Lemma pcount_add h h' r l :
  NoDup l -> (forall k, k ∈ l -> pinned_at h r k = false) ->
  (forall k, pinned_at h' r k = true <-> k ∈ l \/ pinned_at h r k = true) ->
  pcount h' r = pcount h r + Z.of_nat (length l).
Proof.
  intros Hnd Hout Hk. unfold pcount.
  replace (pinset h' r) with (list_to_set l ∪ pinset h r : gset Z).
  - rewrite size_union, size_list_to_set by (done || (intros k; rewrite elem_of_list_to_set, elem_of_pinset;
      intros Hl Hp; rewrite Hout in Hp by done; done)). lia.
  - apply leibniz_equiv. intros k. rewrite elem_of_union, elem_of_list_to_set, !elem_of_pinset. symmetry. apply Hk.
Qed.

Lemma pcount_pos h r k : pinned_at h r k = true -> 1 <= pcount h r.
Proof.
  intros Hk%elem_of_pinset. unfold pcount. assert (size (pinset h r) <> 0%nat); [|lia].
  intros E%size_empty_inv. set_solver.
Qed.

Lemma pcount_change h h' r p :
  (forall k, k <> p -> pinned_at h' r k = pinned_at h r k) ->
  pcount h' r = pcount h r + (Z.b2z (pinned_at h' r p) - Z.b2z (pinned_at h r p)).
Proof.
  intros Hk. destruct (pinned_at h' r p) eqn:E', (pinned_at h r p) eqn:E; cbn.
  1, 4: rewrite (pcount_ext h h' r); [lia|]; intros k; destruct (decide (k = p)) as [->|]; [congruence|auto].
  - rewrite (pcount_add h h' r [p]); [cbn; lia|apply NoDup_singleton|by intros k ->%list_elem_of_singleton|].
    intros k. rewrite list_elem_of_singleton. destruct (decide (k = p)) as [->|]; [tauto|]. rewrite Hk by done. tauto.
  - rewrite (pcount_add h' h r [p]); [cbn; lia|apply NoDup_singleton|by intros k ->%list_elem_of_singleton|].
    intros k. rewrite list_elem_of_singleton. destruct (decide (k = p)) as [->|]; [tauto|]. rewrite Hk by done. tauto.
Qed.
End counting.

(** ** The invariant of the chunks *)

Section inv.
Context (sizes : uvm_pmm_gpu_memory_type_t -> Z) (count max : Z) (conf : bool).
Implicit Types (h : heap) (p q k : Z) (c d : uvm_gpu_chunk_t) (sa : uvm_pmm_gpu_chunk_suballoc_t).

Definition pma_owned c : Prop := c_state c = STATE_PMA_OWNED.

Record chunk_ok c : Prop := {
  ck_split : c_state c = STATE_IS_SPLIT <-> is_Some (c_suballoc c);
  ck_pma : pma_owned c -> c_log2_size c = ROOT;
  ck_top : ~ pma_owned c -> c_address c + 2 ^ c_log2_size c <= max + 1;
  ck_va : c_state c <> STATE_ALLOCATED -> c_va_block c = None /\ c_va_block_page_index c = PAGES_PER_UVM_VA_BLOCK;
  ck_evict : c_in_eviction c = false;
  ck_type : conf = false -> c_type c = MEMORY_TYPE_USER \/ c_type c = MEMORY_TYPE_KERNEL;
}.

Definition tree h : Prop := tree_ok sizes count (shape_of <$> h).

Record heap_ok h : Prop := {
  ho_tree : tree h;
  ho_chunk : forall p c, h !! p = Some c -> chunk_ok c;
  ho_alloc : forall p c sa, h !! p = Some c -> c_suballoc c = Some sa -> sa_allocated sa = nonfree h (sa_subchunks sa);
  ho_pinned : forall r c sa, h !! r = Some c -> c_log2_size c = ROOT -> c_suballoc c = Some sa ->
    sa_pinned_leaf_chunks sa = pcount h r;
}.

(** Every split chunk has a child in use. *)
Definition coalesced h : Prop :=
  forall p c sa, h !! p = Some c -> c_suballoc c = Some sa -> 0 < sa_allocated sa.

(** ** What the forest gives for the chunks *)

Section facts.
Context (h : heap) (Ht : tree h).

Lemma tree_lookup p c : h !! p = Some c -> (shape_of <$> h) !! p = Some (shape_of c).
Proof. intros H. by rewrite lookup_fmap, H. Qed.

Lemma heap_shape p c : h !! p = Some c -> shape_ok sizes count (shape_of <$> h) p (shape_of c).
Proof. intros H. by apply Ht, tree_lookup. Qed.

Lemma heap_log2 p c : h !! p = Some c ->
  0 <= c_log2_size c <= ROOT /\ Z.testbit (sizes (c_type c)) (c_log2_size c) = true.
Proof. intros H. pose proof (heap_shape p c H) as Hok. split; apply Hok. Qed.

Lemma heap_addr p c : h !! p = Some c -> 0 <= c_address c /\ c_address c mod 2 ^ c_log2_size c = 0.
Proof. intros H. apply (heap_shape p c H). Qed.

Lemma heap_root_parent p c : h !! p = Some c -> c_log2_size c = ROOT <-> c_parent c = None.
Proof.
  intros H. pose proof (heap_shape p c H) as Hok. split.
  - intros E. by apply (so_root _ _ _ _ _ Hok).
  - intros E. destruct (decide (c_log2_size c = ROOT)) as [|Hne]; [done|].
    destruct (so_parent _ _ _ _ _ Hok Hne) as (_ & q & d & subs & i & _ & _ & _ & Hk & _). cbn in Hk. congruence.
Qed.

Lemma heap_parent p c q : h !! p = Some c -> c_parent c = Some q ->
  exists d sa i, h !! q = Some d /\ c_suballoc d = Some sa /\ sa_subchunks sa !! i = Some p /\
    c_type d = c_type c /\ prev_log (sizes (c_type c)) (c_log2_size d) = Some (c_log2_size c) /\
    c_log2_size c < c_log2_size d /\ c_address d <= c_address c /\
    c_address c + 2 ^ c_log2_size c <= c_address d + 2 ^ c_log2_size d /\ root_of d = root_of c.
Proof.
  intros H Hq. pose proof (heap_root_parent p c H) as [Hr _].
  destruct (parent_of sizes count _ Ht p (shape_of c) (tree_lookup p c H)) as (q' & d' & subs & i & Hd & Hs & Hi & Hk & H1 & H2 & H3).
  { intros E. rewrite Hr in Hq; done. }
  rewrite lookup_fmap in Hd. destruct (h !! q') as [d|] eqn:Ed; [|done]. injection Hd as <-.
  destruct Hk as (Hp & Hty & Ha & Hprev). cbn in *. assert (q' = q) as -> by congruence.
  unfold subs_of in Hs. destruct (c_suballoc d) as [sa|] eqn:Esa; [|done]. injection Hs as <-.
  exists d, sa, i. split_and!; try done; [by rewrite Hty|].
  unfold root_of. destruct (heap_addr q d Ed) as [Hd0 Hdm], (heap_log2 q d Ed) as [Hdl _], (heap_log2 p c H) as [Hcl _].
  pose proof (pow2_pos (c_log2_size c) ltac:(lia)).
  assert (E : 2 ^ ROOT = 2 ^ (ROOT - c_log2_size d) * 2 ^ c_log2_size d) by (rewrite <- Z.pow_add_r by lia; f_equal; lia).
  pose proof (pow2_pos (c_log2_size d) ltac:(lia)). pose proof (pow2_pos (ROOT - c_log2_size d) ltac:(lia)).
  rewrite E, (Z.mul_comm (2 ^ _)), <- !Z.div_div by lia. f_equal.
  apply Z.div_exact in Hdm; [|lia]. apply Z.div_unique with (c_address c - c_address d); [lia|lia].
Qed.

Lemma heap_root p c : h !! p = Some c ->
  exists rc, h !! root_of c = Some rc /\ c_log2_size rc = ROOT /\ c_type rc = c_type c /\
    c_address rc = root_of c * 2 ^ ROOT /\ c_parent rc = None /\ root_of rc = root_of c /\
    (c_log2_size c <> ROOT -> is_Some (c_suballoc rc)).
Proof.
  intros H. destruct (tree_root sizes count _ Ht p (shape_of c) (tree_lookup p c H)) as (r & Hr & H1 & H2 & H3 & H4 & _ & H5).
  cbn in *. rewrite lookup_fmap in Hr. fold (root_of c) in *. destruct (h !! root_of c) as [rc|] eqn:E; [|done].
  injection Hr as <-. exists rc. cbn in *. split_and!; try done.
  - unfold root_of at 1. rewrite H3. apply Z.div_mul. by vm_compute.
  - intros Hne. destruct (H5 Hne) as [subs Hs]. unfold subs_of in Hs. destruct (c_suballoc rc); [by eexists|done].
Qed.

Lemma heap_root_self p c : h !! p = Some c -> c_log2_size c = ROOT -> root_of c = p.
Proof. intros H Hl. symmetry. by apply (so_root _ _ _ _ _ (heap_shape p c H) Hl). Qed.

Lemma heap_subs p c sa : h !! p = Some c -> c_suballoc c = Some sa ->
  NoDup (sa_subchunks sa) /\
  exists b, prev_log (sizes (c_type c)) (c_log2_size c) = Some b /\ 0 <= b < c_log2_size c /\
    Z.of_nat (length (sa_subchunks sa)) = 2 ^ (c_log2_size c - b) /\
    forall i q, sa_subchunks sa !! i = Some q -> exists d, h !! q = Some d /\ c_parent d = Some p /\
      c_type d = c_type c /\ c_log2_size d = b /\ c_address d = c_address c + Z.of_nat i * 2 ^ b.
Proof.
  intros H Hs. pose proof (heap_shape p c H) as Hok.
  assert (Hss : sh_subs (shape_of c) = Some (sa_subchunks sa)) by (cbn; unfold subs_of; by rewrite Hs).
  split; [by eapply subs_NoDup; [apply Ht|by apply tree_lookup|]|].
  destruct (so_subs _ _ _ _ _ Hok _ Hss) as (b & Hb & Hlen & Hk). exists b. split; [done|].
  assert (Hb' := Hb). apply prev_log_Some in Hb' as (Hb' & _); [|apply (mask_nonneg _ _ _ Ht)|apply Hok].
  split; [exact Hb'|]. split; [done|]. intros i q Hi. destruct (Hk i q Hi) as (d' & Hd & Hk1 & Hk2 & Hk3 & Hk4).
  rewrite lookup_fmap in Hd. destruct (h !! q) as [d|]; [|done]. injection Hd as <-. cbn in *.
  exists d. assert (c_log2_size d = b) by congruence. subst b. by split_and!.
Qed.

Lemma heap_subs_elem p c sa q : h !! p = Some c -> c_suballoc c = Some sa -> q ∈ sa_subchunks sa ->
  exists d, h !! q = Some d /\ c_parent d = Some p.
Proof.
  intros H Hs [i Hi]%list_elem_of_lookup. destruct (heap_subs p c sa H Hs) as (_ & b & _ & _ & _ & Hk).
  destruct (Hk i q Hi) as (d & Hd & Hp & _). by exists d.
Qed.

Lemma heap_ne_parent p c q : h !! p = Some c -> c_parent c = Some q -> p <> q.
Proof.
  intros H Hq ->. destruct (heap_parent q c q H Hq) as (d & sa & i & Hd & _ & _ & _ & _ & Hl & _).
  rewrite H in Hd. injection Hd as <-. lia.
Qed.
End facts.

(** ** A leaf changes its state *)

Definition on_suballoc (f : uvm_pmm_gpu_chunk_suballoc_t -> uvm_pmm_gpu_chunk_suballoc_t) d : uvm_gpu_chunk_t :=
  set_suballoc (f <$> c_suballoc d) d.
Definition bump (dA dP : Z) sa : uvm_pmm_gpu_chunk_suballoc_t :=
  Suballoc (sa_allocated sa + dA) (sa_pinned_leaf_chunks sa + dP) (sa_subchunks sa).

(** The chunk [p] becomes [c'], and the counters of its parent and of its root
    move with it. *)
Record retag h h' p c c' (dA dP : Z) : Prop := {
  rt_old : h !! p = Some c;
  rt_new : h' !! p = Some c';
  rt_leaf : c_suballoc c = None /\ c_suballoc c' = None;
  rt_pos : c_address c' = c_address c /\ c_log2_size c' = c_log2_size c /\ c_parent c' = c_parent c;
  rt_rest : forall k, k <> p -> h' !! k =
    on_suballoc (bump (if decide (c_parent c = Some k) then dA else 0)
                      (if decide (c_parent c <> None /\ root_of c = k) then dP else 0)) <$> h !! k;
}.

Lemma shape_on_suballoc f d :
  (forall sa, sa_subchunks (f sa) = sa_subchunks sa) -> shape_of (on_suballoc f d) = shape_of d.
Proof. intros Hf. unfold shape_of, subs_of. cbn. destruct (c_suballoc d); cbn; by rewrite ?Hf. Qed.

Lemma chunk_ok_on_suballoc f d : chunk_ok d -> chunk_ok (on_suballoc f d).
Proof. intros [H1 H2 H3 H4 H5 H6]. split; cbn; try done. by rewrite fmap_is_Some. Qed.

Lemma retag_tree h h' p c c' dA dP : tree h -> retag h h' p c c' dA dP -> c_type c' = c_type c -> tree h'.
Proof.
  intros Ht [H1 H2 H3 H4 H5] Hty. unfold tree. replace (shape_of <$> h') with (shape_of <$> h); [done|].
  apply map_eq. intros k. rewrite !lookup_fmap. destruct (decide (k = p)) as [->|Hk].
  - rewrite H1, H2. cbn. f_equal. unfold shape_of, subs_of. destruct H3 as [-> ->], H4 as (-> & -> & ->). by rewrite Hty.
  - rewrite (H5 k Hk), <- option_fmap_compose. destruct (h !! k); [|done]. cbn. by rewrite shape_on_suballoc.
Qed.

Lemma retag_is_free h h' p c c' dA dP k : retag h h' p c c' dA dP -> k <> p -> is_free h' k = is_free h k.
Proof. intros [_ _ _ _ H] Hk. unfold is_free. rewrite (H k Hk). by destruct (h !! k). Qed.

Lemma retag_pinned_at h h' p c c' dA dP r k : retag h h' p c c' dA dP -> k <> p -> pinned_at h' r k = pinned_at h r k.
Proof. intros [_ _ _ _ H] Hk. unfold pinned_at. rewrite (H k Hk). by destruct (h !! k). Qed.

Lemma retag_suballoc h h' p c c' dA dP k d' sa' :
  retag h h' p c c' dA dP -> h' !! k = Some d' -> c_suballoc d' = Some sa' ->
  exists d sa, k <> p /\ h !! k = Some d /\ c_suballoc d = Some sa /\
    sa' = bump (if decide (c_parent c = Some k) then dA else 0)
               (if decide (c_parent c <> None /\ root_of c = k) then dP else 0) sa /\ c_log2_size d' = c_log2_size d.
Proof.
  intros [H1 H2 [H3 H3'] H4 H5] Hk Hs. destruct (decide (k = p)) as [->|Hne]; [congruence|].
  rewrite (H5 k Hne) in Hk. destruct (h !! k) as [d|]; [|done]. injection Hk as <-. cbn in Hs.
  destruct (c_suballoc d) as [sa|] eqn:E; [|done]. injection Hs as <-. exists d, sa. by split_and!.
Qed.

Lemma retag_ok h h' p c c' dA dP :
  heap_ok h -> retag h h' p c c' dA dP -> tree h' -> chunk_ok c' ->
  dA = Z.b2z (negb (state_is (c_state c') STATE_FREE)) - Z.b2z (negb (state_is (c_state c) STATE_FREE)) ->
  dP = Z.b2z (state_is (c_state c') STATE_TEMP_PINNED) - Z.b2z (state_is (c_state c) STATE_TEMP_PINNED) ->
  heap_ok h'.
Proof.
  intros [Ht Hck Ha Hp] Hrt Ht' Hc' HdA HdP. split; [done| | |].
  - intros k d' Hk. destruct (decide (k = p)) as [->|Hne]; [rewrite (rt_new _ _ _ _ _ _ _ Hrt) in Hk; by injection Hk as <-|].
    rewrite (rt_rest _ _ _ _ _ _ _ Hrt k Hne) in Hk. destruct (h !! k) as [d|] eqn:Ed; [|done]. injection Hk as <-.
    apply chunk_ok_on_suballoc. by apply (Hck k).
  - intros k d' sa' Hk Hs. destruct (retag_suballoc _ _ _ _ _ _ _ k d' sa' Hrt Hk Hs) as (d & sa & Hne & Hd & Hsa & -> & _).
    cbn [bump sa_allocated sa_subchunks]. rewrite (Ha k d sa Hd Hsa). destruct (decide (c_parent c = Some k)) as [Hpar|Hpar].
    + destruct (heap_parent h Ht p c k (rt_old _ _ _ _ _ _ _ Hrt) Hpar) as (d2 & sa2 & i & Hd2 & Hsa2 & Hi & _).
      assert (d2 = d) as -> by congruence. assert (sa2 = sa) as -> by congruence.
      rewrite (nonfree_change h h' (sa_subchunks sa) p).
      * unfold is_free. by rewrite (rt_old _ _ _ _ _ _ _ Hrt), (rt_new _ _ _ _ _ _ _ Hrt), HdA.
      * by apply (heap_subs h Ht k d).
      * apply list_elem_of_lookup. eauto.
      * intros j Hj. by eapply retag_is_free.
    + rewrite Z.add_0_r. symmetry. apply nonfree_ext. intros j Hj. eapply retag_is_free; [done|]. intros ->.
      destruct (heap_subs_elem h Ht k d sa p Hd Hsa Hj) as (d3 & Hd3 & Hp3). rewrite (rt_old _ _ _ _ _ _ _ Hrt) in Hd3. congruence.
  - intros k d' sa' Hk Hl Hs. destruct (retag_suballoc _ _ _ _ _ _ _ k d' sa' Hrt Hk Hs) as (d & sa & Hne & Hd & Hsa & -> & Hl').
    cbn [bump sa_pinned_leaf_chunks]. rewrite (Hp k d sa Hd) by congruence. rewrite (pcount_change h h' k p) by (intros; by eapply retag_pinned_at).
    f_equal. unfold pinned_at. rewrite (rt_old _ _ _ _ _ _ _ Hrt), (rt_new _ _ _ _ _ _ _ Hrt).
    destruct (rt_pos _ _ _ _ _ _ _ Hrt) as (Hpa & Hpl & _). unfold pinned_under, root_of in *. rewrite Hpa, Hpl.
    pose proof (heap_root_parent h Ht p c (rt_old _ _ _ _ _ _ _ Hrt)) as Hroot.
    destruct (decide (c_parent c <> None /\ c_address c / 2 ^ ROOT = k)) as [[H1 H2]|Hno].
    + rewrite (proj2 (Z.eqb_neq (c_log2_size c) ROOT)) by tauto. rewrite (proj2 (Z.eqb_eq _ _) H2). cbn [negb].
      by rewrite !andb_true_r, HdP.
    + destruct (Z.eqb_spec (c_log2_size c) ROOT) as [|Hn]; [cbn [negb]; by rewrite !andb_false_r|].
      destruct (Z.eqb_spec (c_address c / 2 ^ ROOT) k) as [Hk2|]; [|by rewrite !andb_false_r].
      exfalso. apply Hno. tauto.
Qed.

Lemma retag_coalesced h h' p c c' dA dP :
  coalesced h -> retag h h' p c c' dA dP -> 
  (forall q d sa, c_parent c = Some q -> h !! q = Some d -> c_suballoc d = Some sa -> 0 < sa_allocated sa + dA) ->
  coalesced h'.
Proof.
  intros Hc Hrt Hpar k d' sa' Hk Hs.
  destruct (retag_suballoc _ _ _ _ _ _ _ k d' sa' Hrt Hk Hs) as (d & sa & Hne & Hd & Hsa & -> & _). cbn.
  destruct (decide _) as [E|]; [by apply (Hpar k d)|]. rewrite Z.add_0_r. by apply (Hc k d).
Qed.

(** ** Bounds of the counters *)

Lemma pinned_leaf h k c : heap_ok h -> h !! k = Some c -> c_state c <> STATE_IS_SPLIT -> sh_subs (shape_of c) = None.
Proof.
  intros Hok Hk Hs. cbn. unfold subs_of. destruct (c_suballoc c) eqn:E; [|done].
  exfalso. apply Hs, (ho_chunk h Hok k c Hk). by rewrite E.
Qed.

Lemma pcount_bound h r : heap_ok h -> 0 <= pcount h r <= 2 ^ ROOT.
Proof.
  intros Hok. split; [unfold pcount; lia|]. unfold pcount, size, set_size.
  set (addr := fun k => match h !! k with Some c => c_address c | None => 0 end).
  assert (Hin : forall k, k ∈ elements (pinset h r) -> exists c, h !! k = Some c /\ c_state c = STATE_TEMP_PINNED /\ root_of c = r).
  { intros k Hk%elem_of_elements%elem_of_pinset. unfold pinned_at in Hk. destruct (h !! k) as [c|]; [|done].
    exists c. unfold pinned_under, state_is in Hk. apply andb_true_iff in Hk as [[Hk _]%andb_true_iff Hr].
    apply bool_decide_eq_true_1 in Hk. apply Z.eqb_eq in Hr. done. }
  assert (Hsub : addr <$> elements (pinset h r) ⊆+ seqZ (r * 2 ^ ROOT) (2 ^ ROOT)).
  { apply NoDup_submseteq.
    - apply NoDup_fmap_2_strong; [|apply NoDup_elements]. intros k k' Hk Hk' E.
      destruct (Hin k Hk) as (c & Hc & Hs & _), (Hin k' Hk') as (c' & Hc' & Hs' & _). unfold addr in E. rewrite Hc, Hc' in E.
      destruct (decide (k = k')) as [|Hne]; [done|]. exfalso.
      destruct (leaves_disjoint sizes count _ (ho_tree h Hok) k k' (shape_of c) (shape_of c')) as [Hd|Hd]; try done.
      1, 2: by apply tree_lookup.
      1, 2: eapply pinned_leaf; [done|done|congruence].
      all: cbn in Hd. 
      + pose proof (pow2_pos (c_log2_size c) (proj1 (proj1 (heap_log2 h (ho_tree h Hok) k c Hc)))). lia.
      + pose proof (pow2_pos (c_log2_size c') (proj1 (proj1 (heap_log2 h (ho_tree h Hok) k' c' Hc')))). lia.
    - intros a (k & -> & Hk)%list_elem_of_fmap. destruct (Hin k Hk) as (c & Hc & _ & Hr). unfold addr. rewrite Hc.
      apply elem_of_seqZ. unfold root_of in Hr. pose proof (pow2_pos ROOT ltac:(by vm_compute)).
      subst r. Z.div_mod_to_equations. lia. }
  apply submseteq_length in Hsub. rewrite length_fmap, length_seqZ in Hsub.
  change (Z.of_nat (length (elements (pinset h r))) <= 2 ^ ROOT). pose proof (pow2_pos ROOT ltac:(by vm_compute)). lia.
Qed.

Lemma alloc_bound h p c sa : heap_ok h -> h !! p = Some c -> c_suballoc c = Some sa ->
  0 <= sa_allocated sa <= Z.of_nat (length (sa_subchunks sa)) /\ 1 < Z.of_nat (length (sa_subchunks sa)) <= 2 ^ ROOT.
Proof.
  intros Hok Hp Hs. rewrite (ho_alloc h Hok p c sa Hp Hs). split; [apply nonfree_range|].
  destruct (heap_subs h (ho_tree h Hok) p c sa Hp Hs) as (_ & b & _ & Hb & -> & _).
  pose proof (heap_log2 h (ho_tree h Hok) p c Hp) as [Hl _]. split.
  - change 1 with (2 ^ 0). apply Z.pow_lt_mono_r; lia.
  - apply Z.pow_le_mono_r; lia.
Qed.

(** ** The lists *)

Definition va_list (l : list_id) : bool := match l with FreeList _ _ _ => false | _ => true end.

Definition on_free_list c (t : uvm_pmm_gpu_memory_type_t) (i : Z) (z : bool) : Prop :=
  c_state c = STATE_FREE /\ c_type c = t /\ c_is_zero c = z /\ idx_of (sizes t) (c_log2_size c) = i.

(** The lists, with a chunk [x] that may be anywhere. *)
Record lists_ok (x : option Z) h (L : list_id -> list Z) : Prop := {
  lo_free : forall t i z p, Some p <> x ->
    p ∈ L (FreeList t i z) <-> exists c, h !! p = Some c /\ on_free_list c t i z;
  lo_va : forall l p, va_list l = true -> Some p <> x -> p ∈ L l ->
    exists c, h !! p = Some c /\ c_log2_size c = ROOT /\ (c_state c = STATE_IS_SPLIT \/ c_state c = STATE_ALLOCATED);
}.

(** What the lists depend on. *)
Definition same_lists c d : Prop :=
  c_state d = c_state c /\ c_type d = c_type c /\ c_is_zero d = c_is_zero c /\ c_log2_size d = c_log2_size c.

Lemma lists_ok_ext x h h' L :
  (forall k, Some k <> x -> option_Forall2 same_lists (h !! k) (h' !! k)) -> lists_ok x h L -> lists_ok x h' L.
Proof.
  intros Hk [H1 H2]. split.
  - intros t i z p Hp. rewrite (H1 t i z p Hp). specialize (Hk p Hp).
    split; intros (c & Hc & Hf); rewrite Hc in Hk; inversion Hk as [? d (E1 & E2 & E3 & E4)|]; simplify_eq;
      eexists; (split; [done|]); unfold on_free_list in *; rewrite ?E1, ?E2, ?E3, ?E4 in *; done.
  - intros l p Hl Hp Hin. destruct (H2 l p Hl Hp Hin) as (c & Hc & Hf). specialize (Hk p Hp). rewrite Hc in Hk.
    inversion Hk as [? d (E1 & E2 & E3 & E4)|]; simplify_eq. eexists. split; [done|]. rewrite E1, E4. done.
Qed.

Lemma lists_ok_weaken x h L : lists_ok None h L -> lists_ok x h L.
Proof. intros [H1 H2]. split; intros; [by apply H1|by eapply H2]. Qed.

(** A chunk that is neither free, split nor allocated is on no list. *)
Lemma on_no_list x h L p c :
  lists_ok x h L -> Some p <> x -> h !! p = Some c -> c_state c <> STATE_FREE ->
  (c_log2_size c = ROOT -> c_state c <> STATE_IS_SPLIT /\ c_state c <> STATE_ALLOCATED) -> forall l, p ∉ L l.
Proof.
  intros [H1 H2] Hx Hc Hf Hr [t i z| |] Hin.
  - apply H1 in Hin as (d & Hd & Hfd & _); [|done]. congruence.
  - destruct (H2 VaBlockUsed p eq_refl Hx Hin) as (d & Hd & Hl & Hs). destruct Hr, Hs; congruence.
  - destruct (H2 VaBlockUnused p eq_refl Hx Hin) as (d & Hd & Hl & Hs). destruct Hr, Hs; congruence.
Qed.

(** A chunk that is on no list and belongs on none can be left out. *)
Lemma lists_ok_drop h L p c :
  lists_ok (Some p) h L -> h !! p = Some c -> c_state c <> STATE_FREE -> (forall l, p ∉ L l) -> lists_ok None h L.
Proof.
  intros [H1 H2] Hc Hf Hno. split.
  - intros t i z k _. destruct (decide (k = p)) as [->|]; [|apply H1; congruence].
    split; [by intros ?%Hno|]. intros (d & Hd & Hfd & _). congruence.
  - intros l k Hl _ Hin. destruct (decide (k = p)) as [->|]; [by apply Hno in Hin|]. apply (H2 l k); congruence.
Qed.
End inv.

(** ** Adding to the counters *)

Lemma on_suballoc_bump a b a' b' d :
  on_suballoc (bump a b) (on_suballoc (bump a' b') d) = on_suballoc (bump (a' + a) (b' + b)) d.
Proof.
  unfold on_suballoc, set_suballoc. cbn. f_equal. destruct (c_suballoc d) as [sa|]; [|done]. cbn. f_equal.
  unfold bump. cbn. f_equal; lia.
Qed.

Lemma on_suballoc_0 d : on_suballoc (bump 0 0) d = d.
Proof.
  destruct d. unfold on_suballoc, set_suballoc. cbn. f_equal. destruct c_suballoc as [[]|]; [|done]. cbn.
  f_equal. unfold bump. cbn. f_equal; lia.
Qed.

Ltac bumps h k :=
  destruct (h !! k); cbn; [|done]; by rewrite ?on_suballoc_bump, ?Z.add_0_l, ?Z.add_0_r, ?on_suballoc_0.
