(* ===== verification/UvmPmmOps.v ===== *)
(** Specifications of the basic steps of the physical memory manager: reading
    and writing chunks, pinning, lists, claiming a free chunk and freeing one. *)

From S2P Require Import Prelude UvmBits UvmCommon UvmTlbBatch UvmTracker UvmPmm UvmPmmTree UvmPmmInv.
Local Open Scope Z_scope.

(** ** The invariant of the state *)

(** Channels complete their work, in order, and their errors are the driver's. *)
Record tenv_ok (e : tracker_env) : Prop := {
  tv_progress : exists sp, sp ∈ te_steps e /\ forall c v, sp_completed sp c v = true;
  tv_channels : ChannelProgress (te_completed e);
  tv_errors : forall sp c, sp ∈ te_steps e ->
    sp_channel_status sp c = NV_OK \/ sp_global_status sp = NV_OK \/ sp_channel_status sp c = sp_global_status sp;
}.

(** What no operation changes: the size of the memory, the reference counts of a
    NUMA GPU (no page of a free root chunk has escaped to another driver), and
    what the channels promise. *)
Record env_ok (s : uvm_pmm_gpu_t) : Prop := {
  eo_max : p_max_allocatable_address s < UVM_GPU_MAX_PHYS_MEM;
  eo_numa : forall r, (p_numa s && (UVM_CHUNK_SIZE_MAX / PAGE_SIZE <? p_page_count s r)) = false;
  eo_tenv : forall n, tenv_ok (p_tenv s n);
}.

Abbreviation tree_s s := (tree (p_chunk_sizes s) (p_count s) (p_heap s)).
Abbreviation heap_ok_s s := (heap_ok (p_chunk_sizes s) (p_count s) (p_max_allocatable_address s) (p_conf_computing s)).
Abbreviation chunk_ok_s s := (chunk_ok (p_max_allocatable_address s) (p_conf_computing s)).
Abbreviation lists_ok_s s := (lists_ok (p_chunk_sizes s)).

(** A tracker has at most one entry per channel, and there are not that many. *)
Definition small_tracker (t : uvm_tracker_t) : Prop := tracker_ok t /\ tk_size t <= 2 ^ 30.

(** The invariant; [x] is a chunk whose lists are being changed. *)
Record pmm_ok (x : option Z) (s : uvm_pmm_gpu_t) : Prop := {
  po_heap : heap_ok_s s (p_heap s);
  po_lists : lists_ok_s s x (p_heap s) (p_lists s);
  po_next : p_count s <= p_next s /\ forall p, p_next s <= p -> p_heap s !! p = None;
  po_env : env_ok s;
  po_trackers : forall r c, p_heap s !! r = Some c -> c_log2_size c = ROOT -> ~ pma_owned c ->
    exists t, p_trackers s !! r = Some t /\ small_tracker t;
}.

(** Only the chunks and the lists change. *)
Definition put h L (s : uvm_pmm_gpu_t) : uvm_pmm_gpu_t := with_lists L (with_heap h s).

Lemma put_id s : put (p_heap s) (p_lists s) s = s.
Proof. by destruct s. Qed.

Lemma env_ok_put h L s : env_ok s -> env_ok (put h L s).
Proof. by intros []. Qed.

(** ** Reading and writing *)

Section basic.
Context (F : fault -> uvm_pmm_gpu_t -> Prop).
Implicit Types (s : uvm_pmm_gpu_t) (h : heap) (p q k : Z) (c d : uvm_gpu_chunk_t).

Lemma wp_load p c (Q : uvm_gpu_chunk_t -> _ -> Prop) s : p_heap s !! p = Some c -> Q c s -> wp (load p) Q F s.
Proof. intros H HQ. unfold wp, load. by rewrite H. Qed.

Lemma wp_store p c (Q : unit -> _ -> Prop) s : Q tt (put (<[p := c]> (p_heap s)) (p_lists s) s) -> wp (store p c) Q F s.
Proof. intros HQ. apply wp_modify. by destruct s. Qed.

Lemma wp_update p f c (Q : unit -> _ -> Prop) s :
  p_heap s !! p = Some c -> Q tt (put (<[p := f c]> (p_heap s)) (p_lists s) s) -> wp (update p f) Q F s.
Proof. intros H HQ. apply wp_bind. eapply wp_load; [done|]. by apply wp_store. Qed.

Lemma wp_assert b (Q : unit -> _ -> Prop) s : b = true -> Q tt s -> wp (uvm_assert b) Q F s.
Proof. intros -> HQ. exact HQ. Qed.

Lemma wp_of_assert {A} (o : option A) a (Q : A -> _ -> Prop) s : o = Some a -> Q a s -> wp (of_assert o) Q F s.
Proof. intros -> HQ. exact HQ. Qed.

Lemma wp_suballoc_of c sa (Q : _ -> _ -> Prop) s : c_suballoc c = Some sa -> Q sa s -> wp (suballoc_of c) Q F s.
Proof. intros H HQ. by eapply wp_of_option. Qed.

Lemma insert_on_suballoc h p c sa f : h !! p = Some c -> c_suballoc c = Some sa ->
  <[p := set_suballoc (Some (f sa)) c]> h = alter (on_suballoc f) p h.
Proof.
  intros Hc Hs. apply map_eq. intros k. rewrite lookup_insert, lookup_alter.
  destruct (decide (p = k)) as [->|]; [|done]. rewrite Hc. cbn. unfold on_suballoc. by rewrite Hs.
Qed.

(** The counters are read off before they wrap. *)
Lemma wp_update_suballoc p f g c sa (Q : unit -> _ -> Prop) s :
  p_heap s !! p = Some c -> c_suballoc c = Some sa -> f sa = g sa ->
  Q tt (put (alter (on_suballoc g) p (p_heap s)) (p_lists s) s) -> wp (update_suballoc p f) Q F s.
Proof.
  intros H Hs Hf HQ. apply wp_bind. eapply wp_load; [done|]. apply wp_bind. eapply wp_suballoc_of; [done|].
  apply wp_store. by rewrite Hf, (insert_on_suballoc _ p c sa g).
Qed.

(** ** Lists *)

Definition ldel p (L : list_id -> list Z) : list_id -> list Z := fun l => List.filter (fun q => negb (q =? p)) (L l).
Definition lmove p (l0 : list_id) L : list_id -> list Z :=
  fun l => if decide (l = l0) then ldel p L l ++ [p] else ldel p L l.

Lemma elem_of_ldel p L l k : k ∈ ldel p L l <-> k <> p /\ k ∈ L l.
Proof.
  unfold ldel. rewrite !list_elem_of_In, filter_In. destruct (Z.eqb_spec k p); cbn; [|tauto].
  split; [intros [_ ?]; done|tauto].
Qed.
Lemma elem_of_lmove p l0 L l k : k ∈ lmove p l0 L l <-> (k <> p /\ k ∈ L l) \/ (k = p /\ l = l0).
Proof.
  unfold lmove. destruct (decide (l = l0)); rewrite ?elem_of_app, elem_of_ldel, ?list_elem_of_singleton; tauto.
Qed.

Lemma wp_list_del_init p (Q : unit -> _ -> Prop) s :
  Q tt (put (p_heap s) (ldel p (p_lists s)) s) -> wp (list_del_init p) Q F s.
Proof. intros HQ. apply wp_modify. by destruct s. Qed.
Lemma wp_list_move_tail p l (Q : unit -> _ -> Prop) s :
  Q tt (put (p_heap s) (lmove p l (p_lists s)) s) -> wp (list_move_tail p l) Q F s.
Proof. intros HQ. apply wp_bind, wp_list_del_init, wp_modify. by destruct s. Qed.

Lemma wp_list_empty p (Q : bool -> _ -> Prop) s :
  (forall l, p ∉ p_lists s l) -> Q true s -> wp (list_empty p) Q F s.
Proof.
  intros Hno HQ. apply wp_gets. replace (existsb _ all_lists) with false; [done|].
  symmetry. apply not_true_iff_false. intros (l & _ & (k & Hk & E)%existsb_exists)%existsb_exists.
  apply Z.eqb_eq in E as <-. apply (Hno l). by apply list_elem_of_In.
Qed.

(** ** Root chunks *)

Lemma chunk_size_eq c : 0 <= c_log2_size c -> uvm_gpu_chunk_get_size c = 2 ^ c_log2_size c.
Proof. intros. apply Z.shiftl_1_l. Qed.

Lemma is_root_eq c : 0 <= c_log2_size c -> chunk_is_root_chunk c = (c_log2_size c =? ROOT).
Proof.
  intros H. unfold chunk_is_root_chunk. rewrite chunk_size_eq by done.
  change UVM_CHUNK_SIZE_MAX with (2 ^ ROOT). destruct (Z.eqb_spec (c_log2_size c) ROOT) as [->|Hne]; [apply Z.eqb_refl|].
  apply Z.eqb_neq. intros E. apply Hne. apply Z.pow_inj_r in E; [done|lia|done|by vm_compute].
Qed.

Lemma wp_root_chunk_from_chunk p c (Q : Z -> _ -> Prop) s :
  tree_s s -> p_heap s !! p = Some c -> c_address c <= p_max_allocatable_address s ->
  p_max_allocatable_address s < UVM_GPU_MAX_PHYS_MEM -> Q (root_of c) s -> wp (root_chunk_from_chunk p) Q F s.
Proof.
  intros Ht Hc Ha Hm HQ. unfold root_chunk_from_chunk, root_chunk_from_address.
  apply wp_bind. eapply wp_load; [done|]. apply wp_bind, wp_get.
  destruct (heap_root _ _ _ Ht p c Hc) as (rc & Hr & _ & _ & Hra & _).
  destruct (heap_addr _ _ _ Ht p c Hc) as [Ha0 _].
  apply wp_bind. change (c_address c / UVM_CHUNK_SIZE_MAX) with (root_of c).
  eapply wp_load; [done|]. apply wp_bind, wp_assert; [by apply Z.leb_le|].
  apply wp_bind. eapply wp_of_assert.
  { change UVM_CHUNK_SIZE_MAX with (2 ^ ROOT). apply UVM_ALIGN_DOWN_spec; [|by vm_compute].
    unfold UVM_GPU_MAX_PHYS_MEM in Hm. split; lia. }
  apply wp_bind, wp_assert; [by apply Z.eqb_eq|]. by apply wp_ret.
Qed.

Definition root_pinned (rc : uvm_gpu_chunk_t) : bool :=
  if state_is (c_state rc) STATE_TEMP_PINNED then true
  else if negb (state_is (c_state rc) STATE_IS_SPLIT) then false
  else match c_suballoc rc with Some sa => 0 <? sa_pinned_leaf_chunks sa | None => false end.

Lemma wp_root_pinned p c rc (Q : bool -> _ -> Prop) s :
  tree_s s -> p_heap s !! p = Some c -> c_address c <= p_max_allocatable_address s ->
  p_max_allocatable_address s < UVM_GPU_MAX_PHYS_MEM -> p_heap s !! root_of c = Some rc ->
  (c_state rc = STATE_IS_SPLIT -> is_Some (c_suballoc rc)) ->
  Q (root_pinned rc) s -> wp (chunk_is_root_chunk_pinned p) Q F s.
Proof.
  intros Ht Hc Ha Hm Hr Hs HQ. unfold chunk_is_root_chunk_pinned.
  apply wp_bind. eapply wp_root_chunk_from_chunk; [done..|]. apply wp_bind. eapply wp_load; [done|].
  unfold root_pinned in HQ. destruct (state_is (c_state rc) STATE_TEMP_PINNED); [apply wp_ret, HQ|].
  destruct (state_is (c_state rc) STATE_IS_SPLIT) eqn:E2; cbn [negb] in *; [|apply wp_ret, HQ].
  apply bool_decide_eq_true_1 in E2. destruct (Hs E2) as [sa Hsa]. rewrite Hsa in HQ.
  apply wp_bind. eapply wp_suballoc_of; [done|]. apply wp_ret, HQ.
Qed.

Lemma wp_find_free_list t k z (Q : list_id -> _ -> Prop) s :
  0 <= k -> Z.testbit (p_chunk_sizes s t) k = true ->
  Q (FreeList t (idx_of (p_chunk_sizes s t) k) z) s -> wp (find_free_list t (2 ^ k) z) Q F s.
Proof.
  intros Hk Ht HQ. unfold find_free_list. apply wp_bind, wp_get. apply wp_bind, wp_assert; [by apply pow2_is_power|].
  apply wp_bind, wp_assert; [by rewrite Z.land_comm, land_pow2, Ht|]. unfold idx_of in HQ. apply wp_ret, HQ.
Qed.

(** ** [chunk_update_lists_locked] *)

(** Moving the root of [p] between the lists of used roots. *)
Lemma lists_ok_root h L L' sizes p c rc :
  h !! p = Some c -> h !! root_of c = Some rc -> c_log2_size rc = ROOT ->
  lists_ok sizes (Some p) h L ->
  (L' = L \/ (L' = ldel (root_of c) L /\ (c_state rc = STATE_IS_SPLIT \/ root_of c = p)) \/
   (L' = lmove (root_of c) VaBlockUsed L /\ ((c_state rc = STATE_IS_SPLIT \/ root_of c = p)))) ->
  lists_ok sizes (Some p) h L'.
Proof.
  intros Hc Hr Hl [H1 H2] HL'.
  assert (Hne : forall k, Some k <> Some p -> root_of c = p -> k <> root_of c) by congruence.
  destruct HL' as [->|[[-> Hs]|[-> Hs]]]; [done| |]; split.
  - intros t i z k Hk. rewrite elem_of_ldel, H1 by done. split; [tauto|]. intros (d & Hd & Hf). split; [|by exists d].
    destruct Hs as [Hs|Hs]; [|by apply Hne]. intros ->. destruct Hf as [Hf _]. congruence.
  - intros l k Hv Hk [_ Hin]%elem_of_ldel. by apply (H2 l).
  - intros t i z k Hk. rewrite elem_of_lmove, H1 by done. split; [intros [[_ ?]|[_ ?]]; done|].
    intros (d & Hd & Hf). left. split; [|by exists d].
    destruct Hs as [Hs|Hs]; [|by apply Hne]. intros ->. destruct Hf as [Hf _]. congruence.
  - intros l k Hv Hk [[_ Hin]|[-> _]]%elem_of_lmove; [by apply (H2 l)|].
    exists rc. destruct Hs as [Hs|Hs]; [by auto|congruence].
Qed.

(** Putting a chunk on its list, or on none. *)
Lemma lists_ok_own h L sizes p c l0 :
  h !! p = Some c -> lists_ok sizes (Some p) h L ->
  (c_state c = STATE_FREE /\ l0 = lmove p (FreeList (c_type c) (idx_of (sizes (c_type c)) (c_log2_size c)) (c_is_zero c)) L) \/
  (c_state c <> STATE_FREE /\ l0 = ldel p L) ->
  lists_ok sizes None h l0.
Proof.
  intros Hc [H1 H2] [[Hs ->]|[Hs ->]]; split.
  - intros t i z k _. rewrite elem_of_lmove. destruct (decide (k = p)) as [->|Hne].
    + split.
      * intros [[? _]|[_ E]]; [done|]. injection E as -> -> ->. by exists c.
      * intros (d & Hd & Hf & <- & <- & <-). right. assert (d = c) as -> by congruence. done.
    + rewrite H1 by congruence. tauto.
  - intros l k Hv _ [[Hk Hin]|[-> ->]]%elem_of_lmove; [|done]. apply (H2 l); congruence.
  - intros t i z k _. rewrite elem_of_ldel. destruct (decide (k = p)) as [->|Hne].
    + split; [tauto|]. intros (d & Hd & Hf & _). congruence.
    + rewrite H1 by congruence. tauto.
  - intros l k Hv _ [Hk Hin]%elem_of_ldel. apply (H2 l); congruence.
Qed.

Lemma wp_chunk_update_lists p c (Q : unit -> _ -> Prop) s :
  heap_ok_s s (p_heap s) -> p_max_allocatable_address s < UVM_GPU_MAX_PHYS_MEM ->
  p_heap s !! p = Some c -> c_state c = STATE_FREE \/ c_state c = STATE_TEMP_PINNED ->
  lists_ok_s s (Some p) (p_heap s) (p_lists s) ->
  (forall L, lists_ok_s s None (p_heap s) L -> Q tt (put (p_heap s) L s)) ->
  wp (chunk_update_lists_locked p) Q F s.
Proof.
  intros Hok Hm Hc Hs HL HQ. unfold chunk_update_lists_locked.
  pose proof (ho_tree _ _ _ _ _ Hok) as Ht. pose proof (ho_chunk _ _ _ _ _ Hok p c Hc) as Hck.
  destruct (heap_log2 _ _ _ Ht p c Hc) as [Hl Hbit]. pose proof (pow2_pos (c_log2_size c) ltac:(lia)) as Hpos.
  assert (Ha : c_address c <= p_max_allocatable_address s).
  { assert (~ pma_owned c) as Hn by (unfold pma_owned; destruct Hs as [-> | ->]; done).
    pose proof (ck_top _ _ _ Hck Hn). lia. }
  destruct (heap_root _ _ _ Ht p c Hc) as (rc & Hr & Hrl & _ & _ & _ & _ & Hsub).
  assert (Hroot : root_of c <> p -> c_state rc = STATE_IS_SPLIT).
  { intros Hne. apply (ho_chunk _ _ _ _ _ Hok _ rc Hr), Hsub. intros E. apply Hne. by eapply heap_root_self. }
  apply wp_bind. eapply wp_root_chunk_from_chunk; [done..|]. apply wp_bind. eapply wp_load; [done|].
  apply wp_bind.
  assert (Hfin : forall L, lists_ok_s s (Some p) (p_heap s) L ->
    wp (if state_is (c_state c) STATE_FREE then mbind' (find_free_list_chunk c) (fun l => list_move_tail p l)
        else when (state_is (c_state c) STATE_TEMP_PINNED) (list_del_init p)) Q F (put (p_heap s) L s)).
  { intros L HL'. unfold state_is. case_bool_decide as HF.
    - unfold find_free_list_chunk. rewrite chunk_size_eq by lia. apply wp_bind, wp_find_free_list; [lia|done|].
      apply wp_list_move_tail. apply HQ. eapply lists_ok_own; [exact Hc|exact HL'|]. by left.
    - destruct Hs as [|Hs]; [done|]. rewrite Hs. cbn. apply wp_list_del_init. apply HQ.
      eapply lists_ok_own; [exact Hc|exact HL'|]. by right. }
  apply wp_when; intros _; [|rewrite <- (put_id s); by apply Hfin].
  apply wp_bind. eapply wp_root_pinned; [done..| |].
  { intros E. by apply (ho_chunk _ _ _ _ _ Hok _ rc Hr). }
  apply wp_bind. eapply wp_load; [done|]. 
  assert (Hsp : c_state rc = STATE_IS_SPLIT \/ root_of c = p) by (destruct (decide (root_of c = p)); auto).
  destruct (root_pinned rc) eqn:Erp.
  - apply wp_bind, wp_assert.
    { unfold root_pinned, state_is in *. repeat case_bool_decide; done. }
    apply wp_list_del_init. apply Hfin. eapply lists_ok_root; [exact Hc|exact Hr|exact Hrl|exact HL|]. auto.
  - apply wp_when; intros HF.
    + apply wp_bind, wp_assert.
      { destruct Hsp as [-> |E]; [done|]. rewrite E in Hr. assert (rc = c) as -> by congruence.
        destruct Hs as [Hs|Hs]; unfold root_pinned, state_is in *; rewrite Hs in *; done. }
      apply wp_list_move_tail. apply Hfin. eapply lists_ok_root; [exact Hc|exact Hr|exact Hrl|exact HL|]. auto.
    + rewrite <- (put_id s). by apply Hfin.
Qed.

(** ** Pinning *)

(** The chunk [p] becomes [c'] and the count of its root moves. *)
Definition pin_heap (dP : Z) p c' h : heap :=
  if c_log2_size c' =? ROOT then <[p := c']> h
  else alter (on_suballoc (bump 0 dP)) (root_of c') (<[p := c']> h).

Definition parent_heap (dA : Z) c h : heap :=
  match c_parent c with Some q => alter (on_suballoc (bump dA 0)) q h | None => h end.

Lemma retag_intro sizes count h p c c' dA dP :
  tree sizes count h -> h !! p = Some c -> c_suballoc c = None -> c_suballoc c' = None ->
  c_address c' = c_address c -> c_log2_size c' = c_log2_size c -> c_parent c' = c_parent c ->
  retag h (pin_heap dP p c' (parent_heap dA c h)) p c c' dA dP.
Proof.
  intros Ht Hc Hs Hs' Ha Hl Hp. pose proof (heap_root_parent _ _ h Ht p c Hc) as Hroot.
  assert (Hr : root_of c' = root_of c) by (unfold root_of; by rewrite Ha).
  assert (Hne : c_log2_size c <> ROOT -> root_of c <> p).
  { intros Hn E. destruct (heap_root _ _ h Ht p c Hc) as (rc & Hrc & Hrl & _). rewrite E in Hrc. congruence. }
  split; try done.
  - unfold pin_heap. rewrite Hl, Hr. destruct (Z.eqb_spec (c_log2_size c) ROOT); [by rewrite lookup_insert_eq|].
    rewrite lookup_alter_ne by auto. by rewrite lookup_insert_eq.
  - intros k Hk. unfold pin_heap, parent_heap. rewrite Hl, Hr.
    destruct (Z.eqb_spec (c_log2_size c) ROOT) as [E|E].
    + rewrite lookup_insert_ne by done. rewrite (proj1 Hroot E).
      rewrite decide_False by done. rewrite decide_False by (intros [? _]; done). bumps h k.
    + destruct (c_parent c) as [q|] eqn:Eq; [|tauto].
      destruct (decide (root_of c = k)) as [<-|Hk1].
      * rewrite lookup_alter_eq, lookup_insert_ne by auto. rewrite (decide_True (P := _ /\ _)) by done.
        destruct (decide (q = root_of c)) as [->|Hk2].
        -- rewrite lookup_alter_eq, decide_True by done. bumps h (root_of c).
        -- rewrite lookup_alter_ne, decide_False by congruence. bumps h (root_of c).
      * rewrite lookup_alter_ne, lookup_insert_ne by auto. rewrite (decide_False (P := _ /\ _)) by tauto.
        destruct (decide (q = k)) as [->|Hk2].
        -- rewrite lookup_alter_eq, decide_True by done. bumps h k.
        -- rewrite lookup_alter_ne, decide_False by congruence. bumps h k.
Qed.

Lemma pin_heap_insert dP p c' c'' h :
  c_address c'' = c_address c' -> c_log2_size c'' = c_log2_size c' -> (c_log2_size c' <> ROOT -> root_of c' <> p) ->
  <[p := c'']> (pin_heap dP p c' h) = pin_heap dP p c'' h.
Proof.
  intros Ha Hl Hne. unfold pin_heap. assert (Hr : root_of c'' = root_of c') by (unfold root_of; by rewrite Ha).
  rewrite Hl, Hr. destruct (Z.eqb_spec (c_log2_size c') ROOT); [by rewrite insert_insert_eq|].
  rewrite insert_alter, decide_False, insert_insert_eq by (symmetry; auto || auto). done.
Qed.

Lemma pin_heap_self dP p c' h :
  (c_log2_size c' <> ROOT -> root_of c' <> p) -> pin_heap dP p c' h !! p = Some c'.
Proof.
  intros Hne. unfold pin_heap. destruct (Z.eqb_spec (c_log2_size c') ROOT); [by rewrite lookup_insert_eq|].
  rewrite lookup_alter_ne by auto. by rewrite lookup_insert_eq.
Qed.

Lemma pin_heap_0 p c' h : pin_heap 0 p c' h = <[p := c']> h.
Proof.
  unfold pin_heap. destruct (_ =? _); [done|]. apply map_eq. intros k. rewrite lookup_alter.
  destruct (decide _) as [->|]; [|done]. destruct (<[p:=c']> h !! k); cbn; [|done]. by rewrite on_suballoc_0.
Qed.

(** The root of a chunk that is not one counts its pinned chunks. *)
Definition root_counts c s (lo hi : Z) : Prop :=
  c_log2_size c <> ROOT -> exists rc sa, p_heap s !! root_of c = Some rc /\ c_state rc = STATE_IS_SPLIT /\
    c_suballoc rc = Some sa /\ lo <= sa_pinned_leaf_chunks sa <= hi.

Lemma wp_chunk_pin p c (Q : unit -> _ -> Prop) s :
  tree_s s -> p_heap s !! p = Some c -> c_address c <= p_max_allocatable_address s ->
  p_max_allocatable_address s < UVM_GPU_MAX_PHYS_MEM -> c_state c <> STATE_TEMP_PINNED -> root_counts c s 0 (2 ^ ROOT) ->
  Q tt (put (pin_heap 1 p (set_chunk_state STATE_TEMP_PINNED c) (p_heap s)) (p_lists s) s) -> wp (chunk_pin p) Q F s.
Proof.
  intros Ht Hc Ha Hm Hs Hrc HQ. destruct (heap_log2 _ _ _ Ht p c Hc) as [Hl _]. unfold chunk_pin.
  apply wp_bind. eapply wp_root_chunk_from_chunk; [done..|]. apply wp_bind. eapply wp_load; [done|].
  apply wp_bind, wp_assert; [unfold state_is; by rewrite bool_decide_false|]. apply wp_bind, wp_store.
  unfold pin_heap in HQ. cbn [c_log2_size c_address set_chunk_state] in HQ. rewrite is_root_eq by lia.
  destruct (Z.eqb_spec (c_log2_size c) ROOT) as [E|E]; [by apply wp_ret|].
  destruct (Hrc E) as (rc & sa & Hr & Hst & Hsa & Hb).
  assert (Hne : p <> root_of c).
  { intros E2. destruct (heap_root _ _ _ Ht p c Hc) as (rc' & Hr' & Hl' & _). rewrite <- E2, Hc in Hr'. congruence. }
  assert (Hr1 : p_heap (put (<[p:=set_chunk_state STATE_TEMP_PINNED c]> (p_heap s)) (p_lists s) s) !! root_of c = Some rc).
  { cbn. by rewrite lookup_insert_ne. }
  apply wp_bind. eapply wp_load; [exact Hr1|]. apply wp_bind, wp_assert; [by rewrite Hst|].
  eapply (wp_update_suballoc _ _ (bump 0 1)); [exact Hr1|done| |exact HQ].
  unfold set_pinned_leaf_chunks, bump. f_equal; [lia|]. apply u32_small. unfold is_u32, ROOT in *. lia.
Qed.

Lemma wp_chunk_unpin p c st (Q : unit -> _ -> Prop) s :
  tree_s s -> p_heap s !! p = Some c -> c_address c <= p_max_allocatable_address s ->
  p_max_allocatable_address s < UVM_GPU_MAX_PHYS_MEM -> c_state c = STATE_TEMP_PINNED -> c_va_block c = None ->
  st <> STATE_TEMP_PINNED -> root_counts c s 1 (2 ^ ROOT) ->
  Q tt (put (pin_heap (-1) p (set_chunk_state st c) (p_heap s)) (p_lists s) s) -> wp (chunk_unpin p st) Q F s.
Proof.
  intros Ht Hc Ha Hm Hs Hva Hst Hrc HQ. destruct (heap_log2 _ _ _ Ht p c Hc) as [Hl _]. unfold chunk_unpin.
  destruct (heap_root _ _ _ Ht p c Hc) as (rc' & Hr' & Hl' & _).
  assert (Hpin : root_pinned rc' = true /\ (c_state rc' = STATE_IS_SPLIT -> is_Some (c_suballoc rc'))).
  { unfold root_pinned, state_is. destruct (decide (c_log2_size c = ROOT)) as [E|E].
    - rewrite (heap_root_self _ _ _ Ht p c Hc E) in Hr'. assert (rc' = c) as -> by congruence. rewrite Hs. done.
    - destruct (Hrc E) as (rc & sa & Hr & Hss & Hsa & Hb). assert (rc = rc') as -> by congruence. rewrite Hss, Hsa. cbn.
      split; [apply Z.ltb_lt; lia|done]. }
  apply wp_bind. eapply wp_root_chunk_from_chunk; [done..|]. apply wp_bind. eapply wp_load; [done|].
  apply wp_bind, wp_assert; [unfold state_is; by rewrite Hs|].
  apply wp_bind, wp_assert; [by rewrite bool_decide_true|].
  apply wp_bind. eapply wp_root_pinned; [done..|apply Hpin|]. rewrite (proj1 Hpin).
  apply wp_bind, wp_assert; [done|].
  apply wp_bind, wp_assert; [unfold state_is; by rewrite bool_decide_false|]. apply wp_bind, wp_store.
  unfold pin_heap in HQ. cbn [c_log2_size c_address set_chunk_state] in HQ. rewrite is_root_eq by lia.
  destruct (Z.eqb_spec (c_log2_size c) ROOT) as [E|E]; [by apply wp_ret|].
  destruct (Hrc E) as (rc & sa & Hr & Hss & Hsa & Hb). assert (rc' = rc) as -> by congruence.
  assert (Hne : p <> root_of c) by (intros E2; rewrite <- E2, Hc in Hr; congruence).
  assert (Hr1 : p_heap (put (<[p:=set_chunk_state st c]> (p_heap s)) (p_lists s) s) !! root_of c = Some rc).
  { cbn. by rewrite lookup_insert_ne. }
  apply wp_bind. eapply wp_load; [exact Hr1|]. apply wp_bind, wp_assert; [by rewrite Hss|].
  apply wp_bind. eapply wp_suballoc_of; [done|]. apply wp_bind, wp_assert; [apply negb_true_iff, Z.eqb_neq; lia|].
  eapply (wp_update_suballoc _ _ (bump 0 (-1))); [exact Hr1|done| |exact HQ].
  unfold set_pinned_leaf_chunks, bump. f_equal; [lia|]. apply u32_small. unfold is_u32, ROOT in *. lia.
Qed.
End basic.
