(* ===== verification/UvmPmmLeaf.v ===== *)
(** One chunk without children at a time: claiming a free chunk and freeing a
    chunk in use. *)

From S2P Require Import Prelude UvmBits UvmCommon UvmTlbBatch UvmTracker UvmPmm UvmPmmTree UvmPmmInv UvmPmmOps.
Local Open Scope Z_scope.

(** ** The chunks in use *)

Definition is_live (c : uvm_gpu_chunk_t) : bool :=
  state_is (c_state c) STATE_ALLOCATED || state_is (c_state c) STATE_TEMP_PINNED.
Definition live (h : heap) : heap := filter (fun kc => is_live kc.2 = true) h.

Lemma lookup_live (h : heap) k : live h !! k = match h !! k with Some c => if is_live c then Some c else None | None => None end.
Proof.
  unfold live. rewrite map_lookup_filter. destruct (h !! k) as [c|]; [|done]. cbn.
  case_guard as E; cbn in E; [by rewrite E|]. by destruct (is_live c).
Qed.

Lemma is_live_iff c : is_live c = true <-> c_state c = STATE_ALLOCATED \/ c_state c = STATE_TEMP_PINNED.
Proof. unfold is_live, state_is. rewrite orb_true_iff, !bool_decide_eq_true. done. Qed.

Section leaf.
Context (F : fault -> uvm_pmm_gpu_t -> Prop).
Implicit Types (s : uvm_pmm_gpu_t) (h : heap) (p q k : Z) (c d : uvm_gpu_chunk_t).

Lemma live_leaf sizes count max conf h k c :
  heap_ok sizes count max conf h -> h !! k = Some c -> c_state c <> STATE_IS_SPLIT -> c_suballoc c = None.
Proof.
  intros Hok Hc Hs. destruct (c_suballoc c) eqn:E; [|done]. exfalso. apply Hs, (ho_chunk _ _ _ _ _ Hok k c Hc). by rewrite E.
Qed.

Lemma retag_live sizes count max conf h h' p c c' dA dP :
  heap_ok sizes count max conf h -> retag h h' p c c' dA dP ->
  live h' = if is_live c' then <[p := c']> (live h) else delete p (live h).
Proof.
  intros Hok [H1 H2 H3 H4 H5]. apply map_eq. intros k. rewrite lookup_live. destruct (decide (k = p)) as [->|Hk].
  - rewrite H2. destruct (is_live c'); [by rewrite lookup_insert_eq|by rewrite lookup_delete_eq].
  - replace ((if is_live c' then <[p:=c']> (live h) else delete p (live h)) !! k) with (live h !! k);
      [|destruct (is_live c'); [by rewrite lookup_insert_ne|by rewrite lookup_delete_ne]].
    rewrite (H5 k Hk), lookup_live. destruct (h !! k) as [d|] eqn:Ed; [|done]. cbn [fmap option_fmap option_map].
    change (is_live (on_suballoc _ d)) with (is_live d). destruct (is_live d) eqn:El; [|done].
    apply is_live_iff in El. pose proof (live_leaf _ _ _ _ h k d Hok Ed ltac:(destruct El; congruence)) as Hn.
    unfold on_suballoc. rewrite Hn. by destruct d; cbn in *; subst.
Qed.

Lemma pmm_ok_retag x y s h' L' p c c' dA dP :
  pmm_ok x s -> retag (p_heap s) h' p c c' dA dP -> heap_ok_s s h' -> lists_ok_s s y h' L' ->
  (~ pma_owned c' -> ~ pma_owned c) -> pmm_ok y (put h' L' s).
Proof.
  intros [H1 H2 H3 H4 H5] Hrt Hok HL Hpma. split; [done|done| |by apply env_ok_put|].
  - destruct H3 as [Hn H3]. split; [done|]. intros k Hk. cbn in *. destruct (decide (k = p)) as [->|Hne].
    + pose proof (rt_old _ _ _ _ _ _ _ Hrt) as Hp. rewrite H3 in Hp by done. done.
    + rewrite (rt_rest _ _ _ _ _ _ _ Hrt k Hne). by rewrite (H3 k Hk).
  - intros r d' Hr Hl Hn. cbn in *. destruct (decide (r = p)) as [->|Hne].
    + rewrite (rt_new _ _ _ _ _ _ _ Hrt) in Hr. injection Hr as <-. destruct (rt_pos _ _ _ _ _ _ _ Hrt) as (_ & Hl' & _).
      apply (H5 p c); [apply Hrt|congruence|auto].
    + rewrite (rt_rest _ _ _ _ _ _ _ Hrt r Hne) in Hr. destruct (p_heap s !! r) as [d|] eqn:Ed; [|done].
      injection Hr as <-. by apply (H5 r d).
Qed.

(** The lists with the changed chunk left out. *)
Lemma lists_retag sizes x h h' p c c' dA dP L :
  retag h h' p c c' dA dP -> lists_ok sizes x h L -> x = None \/ x = Some p -> lists_ok sizes (Some p) h' L.
Proof.
  intros Hrt HL Hx. apply (lists_ok_ext sizes _ h).
  - intros k Hk. rewrite (rt_rest _ _ _ _ _ _ _ Hrt k) by congruence. destruct (h !! k); constructor. done.
  - destruct Hx as [-> | ->]; [by apply lists_ok_weaken|done].
Qed.

Lemma chunk_addr s h p c : heap_ok_s s h -> h !! p = Some c -> ~ pma_owned c -> c_address c <= p_max_allocatable_address s.
Proof.
  intros Hok Hc Hn. pose proof (ck_top _ _ _ (ho_chunk _ _ _ _ _ Hok p c Hc) Hn).
  pose proof (pow2_pos (c_log2_size c) ltac:(by apply (heap_log2 _ _ _ (ho_tree _ _ _ _ _ Hok) p c))). lia.
Qed.

(** ** Counting the children *)

Lemma u32_length (n : nat) : Z.of_nat n <= 2 ^ ROOT -> u32 (Z.of_nat n) = Z.of_nat n.
Proof. intros. apply u32_small. unfold is_u32, ROOT in *. lia. Qed.

Lemma wp_num_subchunks q d sa (Q : Z -> _ -> Prop) s :
  tree_s s -> p_heap s !! q = Some d -> c_state d = STATE_IS_SPLIT -> c_suballoc d = Some sa ->
  Q (Z.of_nat (length (sa_subchunks sa))) s -> wp (num_subchunks q) Q F s.
Proof.
  intros Ht Hd Hs Hsa HQ. unfold num_subchunks.
  destruct (heap_subs _ _ _ Ht q d sa Hd Hsa) as (_ & b & _ & Hb & Hlen & Hk).
  destruct (heap_log2 _ _ _ Ht q d Hd) as [Hl _].
  assert (Hpos : 0 < 2 ^ (c_log2_size d - b)) by (apply pow2_pos; lia).
  destruct (sa_subchunks sa) as [|k ks] eqn:Ek; [cbn in Hlen; lia|].
  destruct (Hk 0%nat k eq_refl) as (e & He & _ & _ & Hel & _).
  apply wp_bind. eapply wp_load; [done|]. apply wp_bind, wp_assert; [by rewrite Hs|].
  apply wp_bind. eapply wp_suballoc_of; [done|]. apply wp_bind. eapply wp_of_option; [by rewrite Ek|].
  apply wp_bind. eapply wp_load; [done|]. apply wp_bind. eapply wp_of_assert.
  { rewrite !chunk_size_eq by lia. apply uvm_div_pow2_64_spec. lia. }
  apply wp_ret. replace (2 ^ c_log2_size d / 2 ^ c_log2_size e) with (Z.of_nat (length (k :: ks))).
  - rewrite u32_length; [done|]. rewrite Hlen. apply Z.pow_le_mono_r; lia.
  - rewrite Hlen, Hel. rewrite <- Z.pow_sub_r by lia. done.
Qed.

(** ** Heaps in the middle of a change *)

Lemma tree_alter sizes count h q f :
  (forall sa, sa_subchunks (f sa) = sa_subchunks sa) -> tree sizes count h -> tree sizes count (alter (on_suballoc f) q h).
Proof.
  intros Hf Ht. unfold tree. replace (shape_of <$> alter (on_suballoc f) q h) with (shape_of <$> h); [done|].
  apply map_eq. intros k. rewrite !lookup_fmap, lookup_alter. destruct (decide (q = k)) as [->|]; [|done].
  destruct (h !! k); [|done]. cbn. by rewrite shape_on_suballoc.
Qed.

Lemma tree_parent_heap sizes count dA c h : tree sizes count h -> tree sizes count (parent_heap dA c h).
Proof. intros Ht. unfold parent_heap. destruct (c_parent c); [by apply tree_alter|done]. Qed.

Lemma parent_heap_self sizes count dA p c h :
  tree sizes count h -> h !! p = Some c -> parent_heap dA c h !! p = Some c.
Proof.
  intros Ht Hc. unfold parent_heap. destruct (c_parent c) as [q|] eqn:E; [|done].
  rewrite lookup_alter_ne; [done|]. pose proof (heap_ne_parent _ _ h Ht p c q Hc E). congruence.
Qed.

Lemma root_counts_parent dA s p c L lo hi :
  heap_ok_s s (p_heap s) -> p_heap s !! p = Some c ->
  (c_log2_size c <> ROOT -> lo <= pcount (p_heap s) (root_of c) <= hi) ->
  root_counts c (put (parent_heap dA c (p_heap s)) L s) lo hi.
Proof.
  intros Hok Hc Hb Hl. specialize (Hb Hl). pose proof (ho_tree _ _ _ _ _ Hok) as Ht.
  destruct (heap_root _ _ _ Ht p c Hc) as (rc & Hr & Hrl & _ & _ & _ & _ & Hsub).
  destruct (Hsub Hl) as [sa Hsa]. pose proof (ho_pinned _ _ _ _ _ Hok _ rc sa Hr Hrl Hsa) as Hp.
  assert (Hs : c_state rc = STATE_IS_SPLIT) by (apply (ho_chunk _ _ _ _ _ Hok _ rc Hr); by rewrite Hsa).
  cbn [p_heap put with_lists with_heap]. unfold parent_heap. destruct (c_parent c) as [q|]; [|exists rc, sa; split_and!; try done; lia].
  rewrite lookup_alter. destruct (decide (q = root_of c)) as [->|]; [|exists rc, sa; split_and!; try done; lia].
  rewrite Hr. exists (on_suballoc (bump dA 0) rc), (bump dA 0 sa). split; [done|]. split; [done|].
  split; [unfold on_suballoc; cbn; by rewrite Hsa|]. unfold bump. cbn. lia.
Qed.

Lemma not_pma c : c_state c <> STATE_PMA_OWNED -> ~ pma_owned c.
Proof. done. Qed.

Lemma wp_in_eviction p c (Q : bool -> _ -> Prop) s :
  heap_ok_s s (p_heap s) -> env_ok s -> p_heap s !! p = Some c -> ~ pma_owned c -> Q false s -> wp (chunk_is_in_eviction p) Q F s.
Proof.
  intros Hok He Hc Hn HQ. unfold chunk_is_in_eviction. pose proof (ho_tree _ _ _ _ _ Hok) as Ht.
  destruct (heap_root _ _ _ Ht p c Hc) as (rc & Hr & _).
  apply wp_bind. eapply wp_root_chunk_from_chunk; [done|done|by eapply chunk_addr|apply He|].
  apply wp_bind. eapply wp_load; [done|]. apply wp_ret. by rewrite (ck_evict _ _ _ (ho_chunk _ _ _ _ _ Hok _ rc Hr)).
Qed.

(** ** Claiming a free chunk *)

Lemma wp_find_free z ps (Q : option Z -> _ -> Prop) s :
  heap_ok_s s (p_heap s) -> env_ok s ->
  (forall p, p ∈ ps -> exists c, p_heap s !! p = Some c /\ c_is_zero c = z /\ c_state c = STATE_FREE) ->
  Q (head ps) s -> wp (find_free z ps) Q F s.
Proof.
  intros Hok He Hps HQ. destruct ps as [|p ps]; [by apply wp_ret|]. cbn [find_free].
  destruct (Hps p ltac:(by left)) as (c & Hc & Hz & Hs).
  assert (Hn : ~ pma_owned c) by (unfold pma_owned; by rewrite Hs).
  apply wp_bind. eapply wp_load; [done|]. apply wp_bind, wp_assert; [rewrite Hz; apply eqb_reflx|].
  apply wp_bind. eapply wp_in_eviction; [done..|].
  apply wp_bind. eapply wp_root_chunk_from_chunk; [apply Hok|done|by eapply chunk_addr|apply He|].
  apply wp_bind, wp_gets. rewrite (eo_numa s He). by apply wp_ret.
Qed.

Lemma wp_find_free_chunk t k z (Q : option Z -> _ -> Prop) s :
  pmm_ok None s -> 0 <= k -> Z.testbit (p_chunk_sizes s t) k = true ->
  Q (head (p_lists s (FreeList t (idx_of (p_chunk_sizes s t) k) z))) s ->
  wp (find_free_chunk_locked t (2 ^ k) z) Q F s.
Proof.
  intros Hok Hk Ht HQ. unfold find_free_chunk_locked. apply wp_bind, wp_find_free_list; [done..|].
  apply wp_bind, wp_gets. apply wp_find_free; [apply Hok|apply Hok| |exact HQ].
  intros p Hp. apply (lo_free _ _ _ _ (po_lists _ _ Hok)) in Hp as (c & Hc & Hs & _ & Hz & _); [|done]. by exists c.
Qed.

Lemma wp_claim_found t k p c (Q : option Z -> _ -> Prop) s :
  pmm_ok None s -> p_heap s !! p = Some c -> c_state c = STATE_FREE -> c_type c = t -> c_log2_size c = k ->
  (forall h' L', retag (p_heap s) h' p c (set_chunk_state STATE_TEMP_PINNED c) 1 1 -> pmm_ok None (put h' L' s) ->
     (coalesced (p_heap s) -> coalesced h') -> Q (Some p) (put h' L' s)) ->
  wp (claim_found t (2 ^ k) p) Q F s.
Proof.
  intros Hok Hc Hs <- <- HQ. pose proof (po_heap _ _ Hok) as Hh. pose proof (ho_tree _ _ _ _ _ Hh) as Ht.
  pose proof (po_env _ _ Hok) as He. assert (Hn : ~ pma_owned c) by (unfold pma_owned; by rewrite Hs).
  pose proof (live_leaf _ _ _ _ _ p c Hh Hc ltac:(by rewrite Hs)) as Hleaf.
  assert (Ha : c_address c <= p_max_allocatable_address s) by by eapply chunk_addr.
  destruct (heap_log2 _ _ _ Ht p c Hc) as [Hl _]. set (c' := set_chunk_state STATE_TEMP_PINNED c).
  set (h' := pin_heap 1 p c' (parent_heap 1 c (p_heap s))).
  assert (Hrt : retag (p_heap s) h' p c c' 1 1) by by eapply retag_intro.
  assert (Hh' : heap_ok_s s h').
  { eapply retag_ok; [done|done|by eapply retag_tree| |by rewrite Hs|by rewrite Hs].
    destruct (ho_chunk _ _ _ _ _ Hh p c Hc) as [E1 E2 E3 E4 E5 E6]. split; cbn; try done.
    - rewrite Hleaf. split; [done|by intros []].
    - intros _. by apply E3.
    - intros _. apply E4. by rewrite Hs. }
  assert (Hrest : wp (mbind' (chunk_pin p) (fun _ => mbind' (chunk_update_lists_locked p) (fun _ => mret' (Some p)))) Q F
    (put (parent_heap 1 c (p_heap s)) (p_lists s) s)).
  { apply wp_bind. eapply wp_chunk_pin.
    - by apply tree_parent_heap.
    - cbn. by eapply parent_heap_self.
    - exact Ha.
    - apply He.
    - by rewrite Hs.
    - eapply root_counts_parent; [done..|]. intros _. by eapply pcount_bound.
    - apply wp_bind. eapply wp_chunk_update_lists; [exact Hh'|apply He|apply Hrt|by right|eapply lists_retag; [exact Hrt|apply Hok|by left]|].
      intros L HL. apply wp_ret. apply HQ; [done|by eapply pmm_ok_retag|].
      intros Hco. eapply retag_coalesced; [done..|]. intros q d sa _ Hd Hsa. pose proof (alloc_bound _ _ _ _ _ q d sa Hh Hd Hsa). lia. }
  unfold claim_found. apply wp_bind. eapply wp_load; [done|].
  apply wp_bind, wp_assert; [rewrite chunk_size_eq by lia; apply Z.eqb_refl|].
  apply wp_bind, wp_assert; [by rewrite bool_decide_true|]. apply wp_bind, wp_assert; [by rewrite Hs|].
  apply wp_bind. eapply wp_in_eviction; [done..|]. apply wp_bind, wp_assert; [done|].
  apply wp_bind. unfold parent_heap in Hrest. destruct (c_parent c) as [q|] eqn:Eq; [|rewrite put_id in Hrest; by apply wp_ret].
  destruct (heap_parent _ _ _ Ht p c q Hc Eq) as (d & sa & i & Hd & Hsa & Hi & Hty & _).
  assert (Hsd : c_state d = STATE_IS_SPLIT) by (apply (ho_chunk _ _ _ _ _ Hh q d Hd); by rewrite Hsa).
  pose proof (alloc_bound _ _ _ _ _ q d sa Hh Hd Hsa) as Hb.
  apply wp_bind. eapply wp_load; [done|]. apply wp_bind. eapply wp_of_assert; [done|].
  apply wp_bind, wp_assert; [by rewrite bool_decide_true|]. apply wp_bind. eapply wp_num_subchunks; [done..|].
  assert (Hlt : sa_allocated sa < Z.of_nat (length (sa_subchunks sa))).
  { rewrite (ho_alloc _ _ _ _ _ Hh q d sa Hd Hsa). apply (nonfree_lt _ _ p); [apply list_elem_of_lookup; eauto|].
    unfold is_free. by rewrite Hc, Hs. }
  apply wp_bind, wp_assert; [by apply Z.ltb_lt|].
  eapply (wp_update_suballoc _ _ _ (bump 1 0)); [done|done| |exact Hrest].
  unfold set_allocated, bump. f_equal; [|lia]. apply u32_small. unfold is_u32, ROOT in *. lia.
Qed.

Lemma wp_claim_free_chunk t k (Q : option Z -> _ -> Prop) s :
  pmm_ok None s -> 0 <= k <= ROOT -> Z.testbit (p_chunk_sizes s t) k = true ->
  ((forall p c, p_heap s !! p = Some c -> c_state c = STATE_FREE -> c_type c = t -> c_log2_size c <> k) -> Q None s) ->
  (forall p c h' L', p_heap s !! p = Some c -> c_state c = STATE_FREE -> c_type c = t -> c_log2_size c = k ->
     retag (p_heap s) h' p c (set_chunk_state STATE_TEMP_PINNED c) 1 1 -> pmm_ok None (put h' L' s) ->
     (coalesced (p_heap s) -> coalesced h') -> Q (Some p) (put h' L' s)) ->
  wp (claim_free_chunk t (2 ^ k)) Q F s.
Proof.
  intros Hok Hk Hbit Hnone Hsome. unfold claim_free_chunk. pose proof (po_lists _ _ Hok) as HL.
  assert (Hin : forall p z, p ∈ p_lists s (FreeList t (idx_of (p_chunk_sizes s t) k) z) -> wp (claim_found t (2 ^ k) p) Q F s).
  { intros p z Hp. apply (lo_free _ _ _ _ HL) in Hp as (c & Hc & Hs & Hty & Hz & Hi); [|done].
    destruct (heap_log2 _ _ _ (ho_tree _ _ _ _ _ (po_heap _ _ Hok)) p c Hc) as [Hl Hb]. rewrite Hty in Hb.
    apply idx_of_inj in Hi; [|unfold ROOT in *; lia|unfold ROOT in *; lia|done|done].
    eapply wp_claim_found; [done..|]. intros h' L' H1 H2 H3. by apply (Hsome p c). }
  apply wp_bind, wp_find_free_chunk; [done|lia|done|].
  destruct (p_lists s (FreeList t (idx_of (p_chunk_sizes s t) k) true)) as [|p ps] eqn:E1; cbn [head].
  - apply wp_bind, wp_find_free_chunk; [done|lia|done|].
    destruct (p_lists s (FreeList t (idx_of (p_chunk_sizes s t) k) false)) as [|p ps] eqn:E2; cbn [head].
    + apply wp_ret, Hnone. intros p c Hc Hs Hty <-.
      assert (Hp : p ∈ p_lists s (FreeList t (idx_of (p_chunk_sizes s t) (c_log2_size c)) (c_is_zero c))).
      { apply (lo_free _ _ _ _ HL); [done|]. exists c. by split_and!. }
      destruct (c_is_zero c); rewrite ?E1, ?E2 in Hp; by apply not_elem_of_nil in Hp.
    + apply (Hin p false). rewrite E2. by left.
  - apply wp_bind, wp_ret. apply (Hin p true). rewrite E1. by left.
Qed.

(** ** Freeing a chunk *)

Definition freed c : uvm_gpu_chunk_t :=
  set_is_zero false (set_va_block_page_index PAGES_PER_UVM_VA_BLOCK (set_va_block None (set_chunk_state STATE_FREE c))).

Section free_leaf.
Context (x : option Z) (p : Z) (c : uvm_gpu_chunk_t) (Q : unit -> uvm_pmm_gpu_t -> Prop) (s : uvm_pmm_gpu_t).
Context (Hok : pmm_ok x s) (Hx : x = None \/ x = Some p) (Hc : p_heap s !! p = Some c) (Hlive : is_live c = true).
Let dP : Z := - Z.b2z (state_is (c_state c) STATE_TEMP_PINNED).
Context (HQ : forall h' L', retag (p_heap s) h' p c (freed c) (-1) dP -> pmm_ok None (put h' L' s) -> Q tt (put h' L' s)).
Let h1 : heap := parent_heap (-1) c (p_heap s).
Let h' : heap := pin_heap dP p (freed c) h1.
Let Hh : heap_ok_s s (p_heap s) := po_heap _ _ Hok.
Let Ht : tree_s s := ho_tree _ _ _ _ _ Hh.

Lemma free_leaf_facts : ~ pma_owned c /\ c_suballoc c = None /\ c_address c <= p_max_allocatable_address s /\ state_is (c_state c) STATE_FREE = false.
Proof.
  pose proof (proj1 (is_live_iff c) Hlive) as Hs.
  assert (Hn : ~ pma_owned c) by (unfold pma_owned; destruct Hs as [-> | ->]; done).
  split_and!; [done| |by eapply chunk_addr|destruct Hs as [-> | ->]; done].
  apply (live_leaf _ _ _ _ _ p c Hh Hc). destruct Hs as [-> | ->]; done.
Qed.

Lemma free_leaf_retag : retag (p_heap s) h' p c (freed c) (-1) dP /\ heap_ok_s s h'.
Proof.
  destruct free_leaf_facts as (Hn & Hleaf & Ha & Hf).
  assert (Hrt : retag (p_heap s) h' p c (freed c) (-1) dP) by by eapply retag_intro. split; [done|].
  eapply retag_ok; [done|done|by eapply retag_tree| |by rewrite Hf|done].
  destruct (ho_chunk _ _ _ _ _ Hh p c Hc) as [E1 E2 E3 E4 E5 E6]. split; cbn; try done.
  - rewrite Hleaf. split; [done|by intros []].
  - intros _. by apply E3.
Qed.

Lemma wp_free_lists : wp (chunk_update_lists_locked p) Q F (put h' (p_lists s) s).
Proof.
  destruct free_leaf_retag as [Hrt Hh'].
  eapply wp_chunk_update_lists; [exact Hh'|apply (po_env _ _ Hok)|apply Hrt|by left|eapply lists_retag; [exact Hrt|apply Hok|done]|].
  intros L HL. apply HQ; [done|]. eapply pmm_ok_retag; [exact Hok|exact Hrt|exact Hh'|exact HL|]. intros _. apply free_leaf_facts.
Qed.

Lemma free_leaf_self : h1 !! p = Some c.
Proof. by eapply parent_heap_self. Qed.

Lemma wp_free_state :
  wp (mbind' (if state_is (c_state c) STATE_TEMP_PINNED then chunk_unpin p STATE_FREE
      else update p (fun c => set_va_block None (set_chunk_state STATE_FREE c))) (fun _ =>
      mbind' (update p (fun c => set_is_zero false (set_va_block_page_index PAGES_PER_UVM_VA_BLOCK c))) (fun _ =>
      chunk_update_lists_locked p))) Q F (put h1 (p_lists s) s).
Proof.
  destruct free_leaf_facts as (_ & _ & Ha & _). pose proof wp_free_lists as Hrest. unfold h', dP in Hrest.
  assert (Hne : c_log2_size c <> ROOT -> root_of c <> p).
  { intros H1 H2. destruct (heap_root _ _ _ Ht p c Hc) as (rc' & Hr' & Hl' & _). rewrite H2 in Hr'. congruence. }
  apply wp_bind. destruct (state_is (c_state c) STATE_TEMP_PINNED) eqn:Epin.
  - apply bool_decide_eq_true_1 in Epin. destruct (ck_va _ _ _ (ho_chunk _ _ _ _ _ Hh p c Hc) ltac:(by rewrite Epin)) as [Hva _].
    eapply wp_chunk_unpin; [apply tree_parent_heap; exact Ht|exact free_leaf_self|exact Ha|apply (po_env _ _ Hok)|done|done|done| |].
    + eapply root_counts_parent; [done|done|]. intros E. split; [|by eapply pcount_bound].
      apply (pcount_pos _ _ p). unfold pinned_at, pinned_under, state_is. rewrite Hc, Epin, bool_decide_true by done.
      rewrite (proj2 (Z.eqb_neq _ _) E), Z.eqb_refl. done.
    + apply wp_bind. eapply wp_update; [by apply pin_heap_self|].
      assert (Ef : set_is_zero false (set_va_block_page_index PAGES_PER_UVM_VA_BLOCK (set_chunk_state STATE_FREE c)) = freed c).
      { unfold freed. destruct c; cbn in *; by subst. }
      cbn [p_heap put with_lists with_heap]. rewrite pin_heap_insert, Ef by done. exact Hrest.
  - eapply wp_update; [exact free_leaf_self|]. apply wp_bind. eapply wp_update; [apply lookup_insert_eq|].
    cbn [p_heap put with_lists with_heap]. rewrite insert_insert_eq. rewrite pin_heap_0 in Hrest. exact Hrest.
Qed.

Lemma wp_chunk_free_locked : wp (chunk_free_locked p) Q F s.
Proof.
  destruct free_leaf_facts as (_ & _ & Ha & Hf). pose proof wp_free_state as Hupd. unfold h1, parent_heap in Hupd.
  destruct (heap_root _ _ _ Ht p c Hc) as (rc & Hr & _).
  unfold chunk_free_locked. apply wp_bind. eapply wp_root_chunk_from_chunk; [exact Ht|done|done|apply (po_env _ _ Hok)|].
  apply wp_bind. eapply wp_load; [done|]. apply wp_bind, wp_assert; [exact Hlive|]. apply wp_bind. eapply wp_load; [done|].
  rewrite (ck_evict _ _ _ (ho_chunk _ _ _ _ _ Hh _ rc Hr)).
  apply wp_bind. destruct (c_parent c) as [q|] eqn:Eq; [|rewrite put_id in Hupd; apply wp_ret; exact Hupd].
  destruct (heap_parent _ _ _ Ht p c q Hc Eq) as (d & sa & i & Hd & Hsa & Hi & _).
  pose proof (alloc_bound _ _ _ _ _ q d sa Hh Hd Hsa) as Hb.
  assert (Hpos : 0 < sa_allocated sa).
  { rewrite (ho_alloc _ _ _ _ _ Hh q d sa Hd Hsa). apply (nonfree_pos _ _ p); [apply list_elem_of_lookup; eauto|].
    unfold is_free. by rewrite Hc. }
  apply wp_bind. eapply wp_load; [done|]. apply wp_bind. eapply wp_suballoc_of; [done|].
  apply wp_bind, wp_assert; [by apply Z.ltb_lt|].
  eapply (wp_update_suballoc _ _ _ (bump (-1) 0)); [done|done| |exact Hupd].
  unfold set_allocated, bump. f_equal; [|lia]. apply u32_small. unfold is_u32, ROOT in *. lia.
Qed.
End free_leaf.
End leaf.
