(* ===== verification/UvmPmmMerge.v ===== *)
(** Freeing with merges: a chunk whose children are all free takes their place,
    and so on up the tree. *)

From S2P Require Import Prelude UvmBits UvmCommon UvmTlbBatch UvmTracker UvmPmm UvmPmmTree UvmPmmInv UvmPmmOps UvmPmmLeaf.
Local Open Scope Z_scope.

Section merge.
Context (F : fault -> uvm_pmm_gpu_t -> Prop).
Implicit Types (s : uvm_pmm_gpu_t) (h : heap) (p q k : Z) (c d : uvm_gpu_chunk_t) (sa : uvm_pmm_gpu_chunk_suballoc_t).

(** Every split chunk but [x] has a child in use. *)
Definition coalesced_but (x : option Z) h : Prop :=
  forall p c sa, Some p <> x -> h !! p = Some c -> c_suballoc c = Some sa -> 0 < sa_allocated sa.

(** ** The children of [q] are merged *)

Definition merged d : uvm_gpu_chunk_t := set_is_zero false (set_suballoc None (set_chunk_state STATE_TEMP_PINNED d)).

Record collapse h h' q d sa : Prop := {
  cl_old : h !! q = Some d;
  cl_sa : c_suballoc d = Some sa;
  cl_free : forall k, k ∈ sa_subchunks sa -> is_free h k = true;
  cl_new : h' !! q = Some (merged d);
  cl_gone : forall k, k ∈ sa_subchunks sa -> h' !! k = None;
  cl_rest : forall k, k <> q -> k ∉ sa_subchunks sa -> h' !! k =
    on_suballoc (bump 0 (if decide (root_of d = k) then 1 else 0)) <$> h !! k;
}.

Lemma is_free_Some h k : is_free h k = true -> exists c, h !! k = Some c /\ c_state c = STATE_FREE.
Proof.
  unfold is_free. destruct (h !! k) as [c|]; [|done]. intros H. exists c. split; [done|]. by apply bool_decide_eq_true_1 in H.
Qed.

Section collapse.
Context (sizes : uvm_pmm_gpu_memory_type_t -> Z) (count max : Z) (conf : bool).
Context (h h' : heap) (q : Z) (d : uvm_gpu_chunk_t) (sa : uvm_pmm_gpu_chunk_suballoc_t).
Context (Hok : heap_ok sizes count max conf h) (Hcl : collapse h h' q d sa).

Lemma collapse_split : c_state d = STATE_IS_SPLIT.
Proof. apply (ho_chunk _ _ _ _ _ Hok q d (cl_old _ _ _ _ _ Hcl)). by rewrite (cl_sa _ _ _ _ _ Hcl). Qed.

Lemma collapse_q : q ∉ sa_subchunks sa.
Proof.
  intros Hin. destruct (is_free_Some _ _ (cl_free _ _ _ _ _ Hcl q Hin)) as (c & Hc & Hs).
  rewrite (cl_old _ _ _ _ _ Hcl) in Hc. injection Hc as <-. pose proof collapse_split. congruence.
Qed.

Lemma collapse_free k : is_free h k = true -> k ∉ sa_subchunks sa -> is_free h' k = true.
Proof.
  intros Hf Hk. destruct (is_free_Some _ _ Hf) as (c & Hc & Hs). unfold is_free. destruct (decide (k = q)) as [->|Hne].
  - rewrite (cl_old _ _ _ _ _ Hcl) in Hc. injection Hc as <-. pose proof collapse_split. congruence.
  - rewrite (cl_rest _ _ _ _ _ Hcl k Hne Hk), Hc. cbn. by rewrite Hs.
Qed.

Lemma collapse_is_free k : k ∉ sa_subchunks sa -> is_free h' k = is_free h k.
Proof.
  intros Hk. unfold is_free. destruct (decide (k = q)) as [->|Hne].
  - rewrite (cl_old _ _ _ _ _ Hcl), (cl_new _ _ _ _ _ Hcl), collapse_split. done.
  - rewrite (cl_rest _ _ _ _ _ Hcl k Hne Hk). by destruct (h !! k).
Qed.

Lemma collapse_pinned_at r k : k <> q -> pinned_at h' r k = pinned_at h r k.
Proof.
  intros Hne. unfold pinned_at. destruct (decide (k ∈ sa_subchunks sa)) as [Hin|Hk].
  - rewrite (cl_gone _ _ _ _ _ Hcl k Hin). destruct (is_free_Some _ _ (cl_free _ _ _ _ _ Hcl k Hin)) as (c & -> & Hs).
    unfold pinned_under, state_is. by rewrite Hs.
  - rewrite (cl_rest _ _ _ _ _ Hcl k Hne Hk). by destruct (h !! k).
Qed.

Lemma collapse_lookup k c' sa' : h' !! k = Some c' -> c_suballoc c' = Some sa' ->
  exists c sa0, k <> q /\ (k ∉ sa_subchunks sa) /\ h !! k = Some c /\ c_suballoc c = Some sa0 /\ c_log2_size c' = c_log2_size c /\
    sa' = bump 0 (if decide (root_of d = k) then 1 else 0) sa0.
Proof.
  intros Hk Hs. destruct (decide (k = q)) as [->|Hne].
  { rewrite (cl_new _ _ _ _ _ Hcl) in Hk. injection Hk as <-. done. }
  assert (Hn : k ∉ sa_subchunks sa) by (intros Hin; by rewrite (cl_gone _ _ _ _ _ Hcl k Hin) in Hk).
  rewrite (cl_rest _ _ _ _ _ Hcl k Hne Hn) in Hk. destruct (h !! k) as [c|]; [|done]. injection Hk as <-. cbn in Hs.
  destruct (c_suballoc c) as [sa0|] eqn:E; [|done]. injection Hs as <-. by exists c, sa0.
Qed.

Lemma collapse_tree : tree sizes count h'.
Proof.
  pose proof (ho_tree _ _ _ _ _ Hok) as Ht.
  apply (tree_collapse sizes count _ Ht _ q (shape_of d) (sa_subchunks sa)).
  - apply tree_lookup, Hcl.
  - cbn. unfold subs_of. by rewrite (cl_sa _ _ _ _ _ Hcl).
  - intros k Hk. destruct (is_free_Some _ _ (cl_free _ _ _ _ _ Hcl k Hk)) as (c & Hc & Hs).
    exists (shape_of c). split; [by apply tree_lookup|]. cbn. unfold subs_of.
    by rewrite (live_leaf _ _ _ _ _ k c Hok Hc) by congruence.
  - by rewrite lookup_fmap, (cl_new _ _ _ _ _ Hcl).
  - intros k Hk. by rewrite lookup_fmap, (cl_gone _ _ _ _ _ Hcl k Hk).
  - intros k Hk Hn. rewrite !lookup_fmap, (cl_rest _ _ _ _ _ Hcl k Hk Hn). destruct (h !! k); [|done]. cbn.
    by rewrite shape_on_suballoc.
Qed.

Lemma collapse_ok : heap_ok sizes count max conf h'.
Proof.
  pose proof (ho_tree _ _ _ _ _ Hok) as Ht. split; [apply collapse_tree| | |].
  - intros k c Hk. destruct (decide (k = q)) as [->|Hne].
    + rewrite (cl_new _ _ _ _ _ Hcl) in Hk. injection Hk as <-. pose proof collapse_split as Hsp.
      destruct (ho_chunk _ _ _ _ _ Hok q d (cl_old _ _ _ _ _ Hcl)) as [E1 E2 E3 E4 E5 E6]. split; cbn; try done.
      * intros _. apply E3. unfold pma_owned. by rewrite Hsp.
      * intros _. apply E4. by rewrite Hsp.
    + destruct (decide (k ∈ sa_subchunks sa)) as [Hin|Hn]; [by rewrite (cl_gone _ _ _ _ _ Hcl k Hin) in Hk|].
      rewrite (cl_rest _ _ _ _ _ Hcl k Hne Hn) in Hk. destruct (h !! k) as [c0|] eqn:Ec; [|done]. injection Hk as <-.
      apply chunk_ok_on_suballoc. by apply (ho_chunk _ _ _ _ _ Hok k).
  - intros k c' sa' Hk Hs. destruct (collapse_lookup k c' sa' Hk Hs) as (c & sa0 & Hne & Hn & Hc & Hsa & _ & ->).
    cbn. rewrite Z.add_0_r, (ho_alloc _ _ _ _ _ Hok k c sa0 Hc Hsa). symmetry. apply nonfree_ext.
    intros j Hj. apply collapse_is_free. intros Hin.
    destruct (heap_subs_elem _ _ _ Ht k c sa0 j Hc Hsa Hj) as (e & He & Hp).
    destruct (heap_subs_elem _ _ _ Ht q d sa j (cl_old _ _ _ _ _ Hcl) (cl_sa _ _ _ _ _ Hcl) Hin) as (e' & He' & Hp'). congruence.
  - intros k c' sa' Hk Hl Hs. destruct (collapse_lookup k c' sa' Hk Hs) as (c & sa0 & Hne & Hn & Hc & Hsa & Hlc & ->).
    cbn [bump sa_pinned_leaf_chunks]. rewrite (ho_pinned _ _ _ _ _ Hok k c sa0 Hc) by congruence.
    rewrite (pcount_change h h' k q) by (intros; by apply collapse_pinned_at). f_equal.
    unfold pinned_at. rewrite (cl_old _ _ _ _ _ Hcl), (cl_new _ _ _ _ _ Hcl). unfold pinned_under.
    rewrite collapse_split. cbn [state_is merged c_state set_is_zero set_suballoc set_chunk_state c_log2_size].
    change (root_of (merged d)) with (root_of d). unfold state_is. rewrite !bool_decide_true, bool_decide_false by done. cbn [andb].
    destruct (decide (root_of d = k)) as [E|E].
    + rewrite (proj2 (Z.eqb_eq _ _) E), (proj2 (Z.eqb_neq (c_log2_size d) ROOT)); [done|].
      intros El. rewrite (heap_root_self _ _ _ Ht q d (cl_old _ _ _ _ _ Hcl) El) in E. congruence.
    + rewrite (proj2 (Z.eqb_neq _ _) E), andb_false_r. done.
Qed.

Lemma collapse_coalesced : coalesced_but (Some q) h -> coalesced h'.
Proof.
  intros Hc k c' sa' Hk Hs. destruct (collapse_lookup k c' sa' Hk Hs) as (c & sa0 & Hne & Hn & Hck & Hsa & _ & ->).
  cbn. rewrite Z.add_0_r. apply (Hc k c); [congruence|done|done].
Qed.

Lemma collapse_live : live h' = <[q := merged d]> (live h).
Proof.
  apply map_eq. intros k. rewrite lookup_live. destruct (decide (k = q)) as [->|Hne].
  - by rewrite (cl_new _ _ _ _ _ Hcl), lookup_insert_eq.
  - rewrite lookup_insert_ne, lookup_live by done. destruct (decide (k ∈ sa_subchunks sa)) as [Hin|Hn].
    + rewrite (cl_gone _ _ _ _ _ Hcl k Hin). destruct (is_free_Some _ _ (cl_free _ _ _ _ _ Hcl k Hin)) as (c & -> & Hs).
      unfold is_live, state_is. by rewrite Hs.
    + rewrite (cl_rest _ _ _ _ _ Hcl k Hne Hn). destruct (h !! k) as [c|] eqn:Ec; [|done]. cbn [fmap option_fmap option_map].
      change (is_live (on_suballoc _ c)) with (is_live c). destruct (is_live c) eqn:El; [|done].
      apply is_live_iff in El. pose proof (live_leaf _ _ _ _ h k c Hok Ec ltac:(destruct El; congruence)) as Hz.
      unfold on_suballoc. rewrite Hz. by destruct c; cbn in *; subst.
Qed.

(** The lists, from before the children left. *)
Lemma collapse_lists L h2 :
  lists_ok sizes None h2 L ->
  (forall k, k ∈ sa_subchunks sa -> exists c, h2 !! k = Some c /\ c_state c = STATE_TEMP_PINNED) ->
  (forall k, k <> q -> k ∉ sa_subchunks sa -> option_Forall2 same_lists (h2 !! k) (h' !! k)) ->
  lists_ok sizes (Some q) h' L.
Proof.
  intros [H1 H2] Hsub Hk. split.
  - intros t i z k Hne. rewrite (H1 t i z k) by done. destruct (decide (k ∈ sa_subchunks sa)) as [Hin|Hn].
    + rewrite (cl_gone _ _ _ _ _ Hcl k Hin). destruct (Hsub k Hin) as (c & Hc & Hs).
      split; [intros (c' & Hc' & Hf & _); congruence|by intros (? & ? & _)].
    + specialize (Hk k ltac:(congruence) Hn). split; intros (c & Hc & Hf); rewrite Hc in Hk;
        inversion Hk as [? e (E1 & E2 & E3 & E4)|]; simplify_eq; eexists; (split; [done|]); unfold on_free_list in *;
        rewrite ?E1, ?E2, ?E3, ?E4 in *; done.
  - intros l k Hl Hne Hin'. destruct (H2 l k Hl ltac:(done) Hin') as (c & Hc & Hl2 & Hs).
    destruct (decide (k ∈ sa_subchunks sa)) as [Hin|Hn].
    + destruct (Hsub k Hin) as (c' & Hc' & Hs'). assert (c' = c) as -> by congruence. destruct Hs; congruence.
    + specialize (Hk k ltac:(congruence) Hn). rewrite Hc in Hk. inversion Hk as [? e (E1 & E2 & E3 & E4)|]; simplify_eq.
      eexists. split; [done|]. rewrite E1, E4. done.
Qed.
End collapse.

(** ** Preparing the children *)

Definition pin_all (l : list Z) h : heap := foldl (fun h k => alter (set_chunk_state STATE_TEMP_PINNED) k h) h l.
Definition delete_all (l : list Z) h : heap := foldl (fun h k => delete k h) h l.

Lemma lookup_pin_all l h k :
  pin_all l h !! k = if decide (k ∈ l) then set_chunk_state STATE_TEMP_PINNED <$> h !! k else h !! k.
Proof.
  revert h. induction l as [|a l IH]; intros h; [by rewrite decide_False by apply not_elem_of_nil|].
  change (pin_all (a :: l) h) with (pin_all l (alter (set_chunk_state STATE_TEMP_PINNED) a h)). rewrite IH, lookup_alter. destruct (decide (a = k)) as [->|Hne].
  - rewrite (decide_True (P := k ∈ k :: l)) by by left. destruct (decide (k ∈ l)); [|done]. by destruct (h !! k).
  - destruct (decide (k ∈ l)) as [Hin|Hn]; [by rewrite (decide_True (P := k ∈ a :: l)) by by right|].
    rewrite (decide_False (P := k ∈ a :: l)); [done|]. intros [->|]%elem_of_cons; done.
Qed.

Lemma lookup_delete_all l h k : delete_all l h !! k = if decide (k ∈ l) then None else h !! k.
Proof.
  revert h. induction l as [|a l IH]; intros h; [by rewrite decide_False by apply not_elem_of_nil|].
  change (delete_all (a :: l) h) with (delete_all l (delete a h)). rewrite IH, lookup_delete. destruct (decide (a = k)) as [->|Hne].
  - rewrite (decide_True (P := k ∈ k :: l)) by by left. by destruct (decide (k ∈ l)).
  - destruct (decide (k ∈ l)) as [Hin|Hn]; [by rewrite (decide_True (P := k ∈ a :: l)) by by right|].
    rewrite (decide_False (P := k ∈ a :: l)); [done|]. intros [->|]%elem_of_cons; done.
Qed.

Lemma wp_pin_children l (Q : unit -> _ -> Prop) s :
  NoDup l -> (forall k, k ∈ l -> is_free (p_heap s) k = true) -> lists_ok_s s None (p_heap s) (p_lists s) ->
  (forall L, lists_ok_s s None (pin_all l (p_heap s)) L -> Q tt (put (pin_all l (p_heap s)) L s)) ->
  wp (for_each l pin_for_merge) Q F s.
Proof.
  intros Hnd Hfree HL HQ.
  apply (wp_for_each (fun pre s' => exists L, s' = put (pin_all pre (p_heap s)) L s /\ lists_ok_s s None (pin_all pre (p_heap s)) L)).
  - exists (p_lists s). split; [symmetry; apply put_id|done].
  - intros pre x suf s' -> (L & -> & HL'). apply NoDup_app in Hnd as (_ & Hx & _).
    destruct (is_free_Some _ _ (Hfree x ltac:(apply elem_of_app; right; by left))) as (c & Hc & Hs).
    assert (Hxp : x ∉ pre) by (intros Hin; apply (Hx x Hin); by left).
    assert (Hc1 : pin_all pre (p_heap s) !! x = Some c) by by rewrite lookup_pin_all, decide_False.
    set (c' := set_chunk_state STATE_TEMP_PINNED c).
    assert (Heq : <[x := c']> (pin_all pre (p_heap s)) = pin_all (pre ++ [x]) (p_heap s)).
    { unfold pin_all at 2. rewrite foldl_app. cbn. fold (pin_all pre (p_heap s)). apply map_eq. intros k.
      rewrite lookup_insert, lookup_alter. destruct (decide (x = k)) as [->|]; [|done]. by rewrite Hc1. }
    unfold pin_for_merge. apply wp_bind. eapply wp_load; [exact Hc1|]. apply wp_bind, wp_assert; [by rewrite Hs|].
    apply wp_bind, wp_list_del_init. eapply wp_update; [exact Hc1|].
    exists (ldel x L). cbn [p_heap p_lists put with_lists with_heap]. fold c'. rewrite Heq. split; [done|].
    eapply (lists_ok_own _ L _ x c'); [by rewrite <- Heq, lookup_insert_eq| |by right].
    apply (lists_ok_ext _ _ (pin_all pre (p_heap s))); [|by apply lists_ok_weaken].
    intros k Hk. rewrite <- Heq, lookup_insert_ne by congruence. destruct (pin_all pre (p_heap s) !! k); by constructor.
  - intros s' (L & -> & HL'). by apply HQ.
Qed.

(** Children pinned, counters moved. *)
Record prepared h h2 q d sa : Prop := {
  pp_kids : forall k, k ∈ sa_subchunks sa -> h2 !! k = set_chunk_state STATE_TEMP_PINNED <$> h !! k;
  pp_rest : forall k, k ∉ sa_subchunks sa -> h2 !! k =
    on_suballoc (bump (if decide (q = k) then Z.of_nat (length (sa_subchunks sa)) else 0)
                      (if decide (root_of d = k) then Z.of_nat (length (sa_subchunks sa)) else 0)) <$> h !! k;
}.

Lemma prepared_tree sizes count h h2 q d sa : prepared h h2 q d sa -> tree sizes count h -> tree sizes count h2.
Proof.
  intros [H1 H2] Ht. unfold tree. replace (shape_of <$> h2) with (shape_of <$> h); [done|].
  apply map_eq. intros k. rewrite !lookup_fmap. destruct (decide (k ∈ sa_subchunks sa)) as [Hin|Hn].
  - rewrite H1 by done. by destruct (h !! k).
  - rewrite H2 by done. destruct (h !! k); [|done]. cbn. by rewrite shape_on_suballoc.
Qed.

(** The root of a split chunk is not among its children. *)
Lemma root_not_kid sizes count max conf h q d sa :
  heap_ok sizes count max conf h -> h !! q = Some d -> c_suballoc d = Some sa ->
  (forall k, k ∈ sa_subchunks sa -> is_free h k = true) -> (root_of d ∉ sa_subchunks sa) /\ (q ∉ sa_subchunks sa).
Proof.
  intros Hok Hd Hsa Hf. pose proof (ho_tree _ _ _ _ _ Hok) as Ht. split; intros Hin;
    destruct (heap_subs_elem _ _ _ Ht q d sa _ Hd Hsa Hin) as (e & He & Hp).
  - destruct (heap_root _ _ _ Ht q d Hd) as (rc & Hr & _ & _ & _ & Hn & _). congruence.
  - by apply (heap_ne_parent _ _ _ Ht q e q He Hp).
Qed.

(** ** [merge_gpu_chunk] *)

Lemma wp_assert_children first prev ks (Q : unit -> _ -> Prop) s :
  c_state first = STATE_TEMP_PINNED ->
  (forall k, k ∈ ks -> exists e, p_heap s !! k = Some e /\ c_state e = STATE_TEMP_PINNED) ->
  Q tt s -> wp (assert_children first prev ks) Q F s.
Proof.
  intros Hf. revert prev. induction ks as [|k ks IH]; intros prev Hk HQ; cbn [assert_children]; [by apply wp_ret|].
  destruct (Hk k ltac:(by left)) as (e & He & Hs).
  apply wp_bind. eapply wp_load; [done|]. rewrite Hf. apply wp_bind, wp_assert; [unfold state_is; by rewrite Hs|].
  apply wp_bind, wp_when; [done|]. intros _. apply IH; [|done]. intros j Hj. apply Hk. by right.
Qed.

Lemma wp_free_subchunks l (Q : unit -> _ -> Prop) s :
  NoDup l -> (forall k, k ∈ l -> is_Some (p_heap s !! k)) -> (forall k l', k ∈ l -> k ∉ p_lists s l') ->
  Q tt (put (delete_all l (p_heap s)) (p_lists s) s) -> wp (for_each l (free_subchunk STATE_TEMP_PINNED)) Q F s.
Proof.
  intros Hnd Hin HL HQ.
  apply (wp_for_each (fun pre s' => s' = put (delete_all pre (p_heap s)) (p_lists s) s)).
  - symmetry. apply put_id.
  - intros pre x suf s' -> ->. apply NoDup_app in Hnd as (_ & Hx & _).
    assert (Hxl : x ∈ pre ++ x :: suf) by (apply elem_of_app; right; by left). destruct (Hin x Hxl) as [c Hc].
    assert (Hc1 : delete_all pre (p_heap s) !! x = Some c).
    { rewrite lookup_delete_all, decide_False; [done|]. intros H. apply (Hx x H). by left. }
    unfold free_subchunk. apply wp_bind, wp_list_empty; [intros l; by apply HL|]. apply wp_bind, wp_assert; [done|].
    apply wp_bind. eapply wp_load; [exact Hc1|]. apply wp_bind, wp_when; [done|]. intros _.
    unfold kmem_cache_free. apply wp_bind. eapply wp_load; [exact Hc1|]. apply wp_modify.
    unfold delete_all. rewrite foldl_app. done.
  - by intros s' ->.
Qed.

Lemma length_pos_cons {A} (l : list A) : 0 < Z.of_nat (length l) -> exists a l', l = a :: l'.
Proof. destruct l; [cbn; lia|eauto]. Qed.

Section merging.
Context (s : uvm_pmm_gpu_t) (h : heap) (q : Z) (d : uvm_gpu_chunk_t) (sa : uvm_pmm_gpu_chunk_suballoc_t).
Context (Hok : heap_ok_s s h) (Hm : p_max_allocatable_address s < UVM_GPU_MAX_PHYS_MEM).
Context (Hd : h !! q = Some d) (Hsa : c_suballoc d = Some sa) (Hz : sa_allocated sa = 0).
Context (Hfree : forall k, k ∈ sa_subchunks sa -> is_free h k = true) (Hpp : prepared h (p_heap s) q d sa).
Context (HL : lists_ok_s s None (p_heap s) (p_lists s)).
Let n := Z.of_nat (length (sa_subchunks sa)).
Let Ht : tree (p_chunk_sizes s) (p_count s) h := ho_tree _ _ _ _ _ Hok.
Let Ht2 : tree_s s := prepared_tree _ _ _ _ _ _ _ Hpp Ht.
Let Hrn : root_of d ∉ sa_subchunks sa := proj1 (root_not_kid _ _ _ _ _ _ _ _ Hok Hd Hsa Hfree).
Let Hqn : q ∉ sa_subchunks sa := proj2 (root_not_kid _ _ _ _ _ _ _ _ Hok Hd Hsa Hfree).

Lemma merging_split : c_state d = STATE_IS_SPLIT.
Proof using Hok Hd Hsa. apply (ho_chunk _ _ _ _ _ Hok q d Hd). by rewrite Hsa. Qed.

(** The chunk, its root and its children as [merge_gpu_chunk] finds them. *)
Lemma merging_q : exists dq saq, p_heap s !! q = Some dq /\ c_suballoc dq = Some saq /\ c_state dq = STATE_IS_SPLIT /\
  c_address dq = c_address d /\ sa_subchunks saq = sa_subchunks sa /\ sa_allocated saq = n /\ merged dq = merged d.
Proof using Hok Hd Hsa Hz Hfree Hpp.
  rewrite (pp_rest _ _ _ _ _ Hpp q Hqn), Hd, decide_True by done. eexists _, _. split; [done|].
  split; [cbn; by rewrite Hsa|]. split_and!; try done; [apply merging_split|cbn; rewrite Hz; done].
Qed.

Lemma merging_root : exists rc rsa, p_heap s !! root_of d = Some rc /\ c_suballoc rc = Some rsa /\
  n <= sa_pinned_leaf_chunks rsa <= 2 ^ ROOT + n.
Proof using Hok Hd Hsa Hfree Hpp.
  destruct (heap_root _ _ _ Ht q d Hd) as (rc & Hr & Hrl & _ & _ & _ & _ & Hrs).
  assert (Hrsa : exists rsa, c_suballoc rc = Some rsa).
  { destruct (decide (c_log2_size d = ROOT)) as [E|E]; [|destruct (Hrs E); eauto].
    rewrite (heap_root_self _ _ _ Ht q d Hd E) in Hr. exists sa. congruence. }
  destruct Hrsa as [rsa Hrsa]. pose proof (ho_pinned _ _ _ _ _ Hok _ rc rsa Hr Hrl Hrsa) as Hpin.
  pose proof (pcount_bound _ _ _ _ _ (root_of d) Hok) as Hpb.
  exists (on_suballoc (bump (if decide (q = root_of d) then n else 0) n) rc), (bump (if decide (q = root_of d) then n else 0) n rsa).
  rewrite (pp_rest _ _ _ _ _ Hpp _ Hrn), Hr, (decide_True (P := root_of d = root_of d)) by done. split; [done|].
  unfold on_suballoc. cbn [set_suballoc c_suballoc bump sa_pinned_leaf_chunks]. rewrite Hrsa. split; [done|lia].
Qed.

Lemma merging_kids k : k ∈ sa_subchunks sa -> exists e, p_heap s !! k = Some e /\ c_state e = STATE_TEMP_PINNED.
Proof using Hfree Hpp.
  intros Hk. rewrite (pp_kids _ _ _ _ _ Hpp k Hk). destruct (is_free_Some _ _ (Hfree k Hk)) as (e & -> & _). by eexists.
Qed.

Lemma merging_first : exists k0 ks e0, sa_subchunks sa = k0 :: ks /\ p_heap s !! k0 = Some e0 /\ c_state e0 = STATE_TEMP_PINNED.
Proof using Hok Hd Hsa Hfree Hpp.
  pose proof (alloc_bound _ _ _ _ _ q d sa Hok Hd Hsa) as [_ Hlen].
  destruct (length_pos_cons (sa_subchunks sa)) as (k0 & ks & E); [lia|].
  destruct (merging_kids k0) as (e0 & He & Hs); [rewrite E; by left|]. by exists k0, ks, e0.
Qed.

Lemma wp_merging_num (Q : Z -> _ -> Prop) : Q n s -> wp (num_subchunks q) Q F s.
Proof using Hok Hd Hsa Hz Hfree Hpp.
  intros HQ. destruct merging_q as (dq & saq & Hq & Hs & Hst & _ & Hsub & _).
  eapply wp_num_subchunks; [exact Ht2|exact Hq|done|done|]. by rewrite Hsub.
Qed.

Lemma wp_mergeable (Q : unit -> _ -> Prop) : Q tt s -> wp (assert_chunk_mergeable q) Q F s.
Proof using Hok Hd Hsa Hz Hfree Hpp.
  intros HQ. destruct merging_q as (dq & saq & Hq & Hs & Hst & _ & Hsub & Hal & _), merging_first as (k0 & ks & e0 & Eks & He0 & Hs0).
  unfold assert_chunk_mergeable. apply wp_bind. eapply wp_load; [exact Hq|]. apply wp_bind. eapply wp_suballoc_of; [done|].
  apply wp_bind. eapply wp_of_option; [by rewrite Hsub, Eks|]. apply wp_bind. eapply wp_load; [exact He0|].
  apply wp_bind, wp_assert; [by rewrite Hst|]. apply wp_bind, wp_assert; [by rewrite Hs0|]. apply wp_bind, wp_merging_num.
  apply wp_bind, wp_assert_children; [done| |].
  { intros k Hk. apply merging_kids. rewrite Hsub, Eks in Hk. rewrite Eks. by right. }
  rewrite Hs0. unfold state_is. rewrite bool_decide_false by done. apply wp_assert; [rewrite Hal; apply Z.eqb_refl|done].
Qed.

(** What is left after the children are freed. *)
Definition merge_result : heap :=
  delete_all (sa_subchunks sa) (<[q := merged d]> (alter (on_suballoc (bump 0 (1 - n))) (root_of d) (p_heap s))).

Lemma merge_result_collapse : collapse h merge_result q d sa.
Proof using Hok Hd Hsa Hfree Hpp.
  split; try done; unfold merge_result.
  - by rewrite lookup_delete_all, decide_False, lookup_insert_eq.
  - intros k Hk. by rewrite lookup_delete_all, decide_True.
  - intros k Hkq Hk. rewrite lookup_delete_all, decide_False, lookup_insert_ne by done.
    rewrite lookup_alter. destruct (decide (root_of d = k)) as [<-|Hne].
    + rewrite (pp_rest _ _ _ _ _ Hpp _ Hk), decide_False, decide_True by done. destruct (h !! root_of d); [|done]. cbn.
      rewrite on_suballoc_bump. do 3 f_equal. unfold n. lia.
    + rewrite (pp_rest _ _ _ _ _ Hpp _ Hk), !decide_False by done. done.
Qed.

Lemma merge_result_lists : lists_ok_s s (Some q) merge_result (p_lists s).
Proof using Hok Hd Hsa Hfree Hpp HL.
  eapply (collapse_lists _ h _ q d sa merge_result_collapse); [exact HL|apply merging_kids|].
  intros k Hkq Hk. unfold merge_result. rewrite lookup_delete_all, decide_False, lookup_insert_ne by done.
  rewrite lookup_alter. destruct (decide (root_of d = k)) as [<-|];
    [destruct (p_heap s !! root_of d)|destruct (p_heap s !! k)]; by constructor.
Qed.

Lemma wp_merge_gpu_chunk (Q : unit -> _ -> Prop) :
  (forall h', collapse h h' q d sa -> lists_ok_s s (Some q) h' (p_lists s) -> Q tt (put h' (p_lists s) s)) ->
  wp (merge_gpu_chunk q) Q F s.
Proof using Hok Hm Hd Hsa Hz Hfree Hpp HL.
  intros HQ. pose proof (HQ _ merge_result_collapse merge_result_lists) as Hfin. clear HQ.
  destruct merging_q as (dq & saq & Hq & Hs & Hst & Haq & Hsub & _ & Hmd), merging_first as (k0 & ks & e0 & Eks & He0 & Hs0).
  destruct merging_root as (rc & rsa & Hr & Hrsa & Hpin). pose proof (alloc_bound _ _ _ _ _ q d sa Hok Hd Hsa) as [_ Hlen].
  assert (Ha : c_address d <= p_max_allocatable_address s).
  { eapply chunk_addr; [done..|]. unfold pma_owned. rewrite merging_split. done. }
  assert (Hroot : root_of dq = root_of d) by (unfold root_of; by rewrite Haq).
  unfold merge_gpu_chunk. apply wp_bind. eapply wp_root_chunk_from_chunk; [exact Ht2|exact Hq|by rewrite Haq|done|].
  rewrite Hroot. apply wp_bind, wp_merging_num. apply wp_bind, wp_mergeable.
  apply wp_bind. eapply wp_load; [exact Hq|]. apply wp_bind. eapply wp_suballoc_of; [done|].
  apply wp_bind. eapply wp_of_option; [by rewrite Hsub, Eks|]. apply wp_bind. eapply wp_load; [exact He0|].
  rewrite Hs0. unfold state_is. rewrite bool_decide_false, bool_decide_true by done.
  apply wp_bind. cbn [when]. apply wp_bind. eapply wp_load; [exact Hr|]. apply wp_bind. eapply wp_suballoc_of; [done|].
  apply wp_bind, wp_assert; [apply Z.leb_le; lia|].
  eapply (wp_update_suballoc _ _ _ (bump 0 (1 - n))); [exact Hr|done| |].
  { unfold set_pinned_leaf_chunks, bump. f_equal; [lia|]. apply u32_small. unfold is_u32, ROOT, n in *. lia. }
  assert (Hdm : exists dm, alter (on_suballoc (bump 0 (1 - n))) (root_of d) (p_heap s) !! q = Some dm /\ merged dm = merged d).
  { rewrite lookup_alter. destruct (decide _) as [E|E]; [rewrite E|]; rewrite Hq; by eexists. }
  destruct Hdm as (dm & Hdm & Hmerged). apply wp_bind. eapply wp_update; [exact Hdm|].
  change (set_is_zero false (set_suballoc None (set_chunk_state STATE_TEMP_PINNED dm))) with (merged dm). rewrite Hmerged, Hsub.
  cbn [p_heap p_lists put with_lists with_heap]. apply wp_free_subchunks.
  - by apply (heap_subs _ _ _ Ht q d sa Hd Hsa).
  - intros k Hk. cbn [p_heap p_lists put with_lists with_heap]. rewrite lookup_insert_ne by congruence.
    rewrite lookup_alter_ne by congruence. destruct (merging_kids k Hk) as (e & -> & _). by eexists.
  - intros k l Hk. destruct (merging_kids k Hk) as (e & He & Hse). eapply on_no_list; [exact HL|done|exact He|congruence|].
    intros _. rewrite Hse. done.
  - exact Hfin.
Qed.
End merging.
End merge.
