(* ===== verification/UvmPmmFree.v ===== *)
(** Freeing chunks: the checks, the merges up the tree, and the root chunks that
    go back to PMA. *)

From S2P Require Import Prelude UvmBits UvmCommon UvmTlbBatch UvmTracker UvmPmm UvmPmmTree UvmPmmInv UvmPmmOps UvmPmmLeaf UvmPmmMerge.
Local Open Scope Z_scope.

Section free.
Context (F : fault -> uvm_pmm_gpu_t -> Prop).
Implicit Types (s : uvm_pmm_gpu_t) (h : heap) (p q k : Z) (c d : uvm_gpu_chunk_t) (sa : uvm_pmm_gpu_chunk_suballoc_t).

(** ** [check_chunk] *)

Lemma wp_check_chunk p c (Q : unit -> _ -> Prop) s :
  heap_ok_s s (p_heap s) -> p_heap s !! p = Some c -> is_live c = true -> Q tt s -> wp (check_chunk p) Q F s.
Proof.
  intros Hok Hc Hlive HQ. pose proof (ho_tree _ _ _ _ _ Hok) as Ht. pose proof (ho_chunk _ _ _ _ _ Hok p c Hc) as Hck.
  destruct (heap_log2 _ _ _ Ht p c Hc) as [Hl Hbit]. destruct (heap_addr _ _ _ Ht p c Hc) as [_ Hal].
  pose proof (to_masks _ _ _ Ht (c_type c)) as Hmask. apply is_live_iff in Hlive.
  unfold check_chunk. apply wp_bind. eapply wp_load; [done|]. apply wp_bind, wp_get. rewrite chunk_size_eq by lia.
  apply wp_bind, wp_assert; [by rewrite Z.land_comm, land_pow2, Hbit by lia|].
  apply wp_bind, wp_assert; [by apply IS_ALIGNED_spec; [lia|]|].
  apply wp_bind, wp_when; intros Hconf.
  1: apply wp_assert; [apply negb_true_iff in Hconf; destruct (ck_type _ _ _ Hck Hconf) as [-> | ->]; done|].
  all: apply wp_bind, wp_when; intros Hsp; [destruct Hlive as [E|E]; rewrite E in Hsp; done|].
  all: destruct (c_parent c) as [q|] eqn:Eq.
  2, 4: apply wp_bind; eapply wp_of_assert; [by apply find_last_size_spec|];
    apply wp_assert; [|done]; rewrite (proj2 (heap_root_parent _ _ _ Ht p c Hc) Eq); apply Z.eqb_refl.
  all: destruct (heap_parent _ _ _ Ht p c q Hc Eq) as (d & sa & i & Hd & Hsa & Hi & Hty & Hprev & Hlt & Ha1 & Ha2 & _);
    destruct (heap_log2 _ _ _ Ht q d Hd) as [Hld Hbd]; pose proof (alloc_bound _ _ _ _ _ q d sa Hok Hd Hsa) as Hb;
    assert (Hsd : c_state d = STATE_IS_SPLIT) by (apply (ho_chunk _ _ _ _ _ Hok q d Hd); by rewrite Hsa);
    assert (Hpos : 0 < sa_allocated sa) by (rewrite (ho_alloc _ _ _ _ _ Hok q d sa Hd Hsa);
      apply (nonfree_pos _ _ p); [apply list_elem_of_lookup; eauto|]; unfold is_free, state_is; rewrite Hc;
      destruct Hlive as [-> | ->]; done);
    pose proof (pow2_pos (c_log2_size c) ltac:(lia)).
  all: apply wp_bind; eapply wp_load; [done|]; apply wp_bind, wp_assert; [by rewrite bool_decide_true|];
    rewrite chunk_size_eq by lia; apply wp_bind; eapply wp_of_assert;
      [eapply find_next_size_spec; [apply Hmask|exact Hld|by rewrite <- Hty|done]|];
    apply wp_bind, wp_assert; [apply Z.eqb_refl|]; apply wp_bind; eapply wp_of_assert; [by apply find_last_size_spec|];
    apply wp_bind, wp_assert; [apply Z.leb_le; change UVM_CHUNK_SIZE_MAX with (2 ^ ROOT); apply Z.pow_le_mono_r; lia|];
    apply wp_bind, wp_assert; [by rewrite Hsd|]; apply wp_bind; eapply wp_of_assert; [done|];
    apply wp_bind, wp_assert; [by apply Z.ltb_lt|]; apply wp_bind; eapply wp_num_subchunks; [done..|];
    apply wp_bind, wp_assert; [apply Z.leb_le; lia|]; apply wp_bind, wp_assert; [by apply Z.leb_le|];
    apply wp_assert; [apply Z.ltb_lt; lia|done].
Qed.

(** ** [try_chunk_free] *)

Definition no_inject c : uvm_gpu_chunk_t := set_inject_split_error false c.

Lemma inject_ok x s p c :
  pmm_ok x s -> p_heap s !! p = Some c -> c_suballoc c = None ->
  pmm_ok x (put (<[p := no_inject c]> (p_heap s)) (p_lists s) s) /\
  (coalesced (p_heap s) -> coalesced (<[p := no_inject c]> (p_heap s))).
Proof.
  intros Hok Hc Hleaf. pose proof (po_heap _ _ Hok) as Hh. pose proof (ho_tree _ _ _ _ _ Hh) as Ht.
  assert (Hrt : retag (p_heap s) (<[p := no_inject c]> (p_heap s)) p c (no_inject c) 0 0).
  { split; try done; [by rewrite lookup_insert_eq|]. intros k Hk. rewrite lookup_insert_ne by done.
    destruct (p_heap s !! k); [|done]. cbn. repeat case_decide; by rewrite on_suballoc_0. }
  split.
  - eapply pmm_ok_retag; [done|exact Hrt| | |done].
    + eapply retag_ok; [done|done|by eapply retag_tree| |cbn; lia|cbn; lia].
      destruct (ho_chunk _ _ _ _ _ Hh p c Hc). by split.
    + apply (lists_ok_ext _ _ (p_heap s)); [|apply Hok]. intros k _. rewrite lookup_insert.
      destruct (decide (p = k)) as [<-|]; [rewrite Hc; by constructor|]. destruct (p_heap s !! k); by constructor.
  - intros Hco. eapply retag_coalesced; [done|exact Hrt|]. intros q d sa _ Hd Hsa. rewrite Z.add_0_r. by eapply Hco.
Qed.

Definition last_child h c : Prop :=
  exists q d sa, c_parent c = Some q /\ h !! q = Some d /\ c_suballoc d = Some sa /\ sa_allocated sa = 1.

Lemma wp_last_child x p c (Q : bool -> _ -> Prop) s :
  pmm_ok x s -> p_heap s !! p = Some c ->
  (last_child (p_heap s) c -> Q true s) -> (~ last_child (p_heap s) c -> Q false s) ->
  wp (chunk_is_last_allocated_child p) Q F s.
Proof.
  intros Hok Hc Htrue Hfalse. pose proof (po_heap _ _ Hok) as Hh. pose proof (ho_tree _ _ _ _ _ Hh) as Ht.
  unfold chunk_is_last_allocated_child. apply wp_bind. eapply wp_load; [done|].
  destruct (c_parent c) as [q|] eqn:Eq.
  2: { apply wp_ret, Hfalse. intros (q & d & sa & H & _). congruence. }
  destruct (heap_parent _ _ _ Ht p c q Hc Eq) as (d & sa & i & Hd & Hsa & _).
  apply wp_bind. eapply wp_load; [done|]. apply wp_bind. eapply wp_suballoc_of; [done|]. apply wp_ret.
  destruct (Z.eqb_spec (sa_allocated sa) 1) as [E|E].
  - apply Htrue. by exists q, d, sa.
  - apply Hfalse. intros (q' & d' & sa' & H1 & H2 & H3 & H4). assert (q' = q) as -> by congruence.
    assert (d' = d) as -> by congruence. congruence.
Qed.

(** A freed chunk that was not the last child keeps the tree coalesced. *)
Lemma freed_coalesced x s h' p c dP :
  pmm_ok x s -> retag (p_heap s) h' p c (freed c) (-1) dP ->
  coalesced (p_heap s) -> ~ last_child (p_heap s) c -> coalesced h'.
Proof.
  intros Hok Hrt Hco Hlast. eapply retag_coalesced; [done|exact Hrt|]. intros q d sa Hq Hd Hsa.
  pose proof (Hco q d sa Hd Hsa). assert (sa_allocated sa <> 1); [|lia]. intros E. apply Hlast. by exists q, d, sa.
Qed.

Lemma freed_live x s h' p c dP : pmm_ok x s -> retag (p_heap s) h' p c (freed c) (-1) dP -> live h' = delete p (live (p_heap s)).
Proof. intros Hok Hrt. by rewrite (retag_live _ _ _ _ _ _ _ _ _ _ _ (po_heap _ _ Hok) Hrt). Qed.

Lemma live_inject h p c : live (<[p := no_inject c]> h) = if is_live c then <[p := no_inject c]> (live h) else delete p (live h).
Proof.
  apply map_eq. intros k. rewrite lookup_live, lookup_insert. destruct (decide (p = k)) as [->|Hne].
  - change (is_live (no_inject c)) with (is_live c). destruct (is_live c); [by rewrite lookup_insert_eq|by rewrite lookup_delete_eq].
  - destruct (is_live c); [rewrite lookup_insert_ne by done|rewrite lookup_delete_ne by done]; by rewrite lookup_live.
Qed.

Lemma wp_try_chunk_free x p c (Q : bool -> _ -> Prop) s :
  pmm_ok x s -> x = None \/ x = Some p -> coalesced (p_heap s) -> p_heap s !! p = Some c -> is_live c = true ->
  (c_state c = STATE_ALLOCATED -> c_is_referenced c = false) ->
  (last_child (p_heap s) c -> pmm_ok x (put (<[p := no_inject c]> (p_heap s)) (p_lists s) s) ->
     coalesced (<[p := no_inject c]> (p_heap s)) -> Q false (put (<[p := no_inject c]> (p_heap s)) (p_lists s) s)) ->
  (forall h' L', ~ last_child (p_heap s) c -> pmm_ok None (put h' L' s) -> coalesced h' ->
     live h' = delete p (live (p_heap s)) -> Q true (put h' L' s)) ->
  wp (try_chunk_free p) Q F s.
Proof.
  intros Hok Hx Hco Hc Hlive Href Hlast Hfreed. pose proof (po_heap _ _ Hok) as Hh. pose proof (ho_tree _ _ _ _ _ Hh) as Ht.
  pose proof (live_leaf _ _ _ _ _ p c Hh Hc ltac:(apply is_live_iff in Hlive as [-> | ->]; done)) as Hleaf.
  destruct (inject_ok x s p c Hok Hc Hleaf) as [Hok' Hco']. specialize (Hco' Hco).
  set (s' := put (<[p := no_inject c]> (p_heap s)) (p_lists s) s) in *.
  assert (Hc' : p_heap s' !! p = Some (no_inject c)) by apply lookup_insert_eq.
  assert (Hl : last_child (p_heap s') (no_inject c) <-> last_child (p_heap s) c).
  { split; intros (q & d & sa & H1 & H2 & H3 & H4); exists q, d, sa; pose proof (heap_ne_parent _ _ _ Ht p c q Hc H1) as Hne.
    - cbn in H2. rewrite lookup_insert_ne in H2 by done. done.
    - cbn. rewrite lookup_insert_ne by done. done. }
  unfold try_chunk_free. apply wp_bind. eapply wp_load; [done|].
  apply wp_bind, wp_assert.
  { unfold state_is. case_bool_decide as E; [|done]. by rewrite (Href E). }
  apply wp_bind. eapply wp_update; [done|]. fold (no_inject c). fold s'.
  apply wp_bind. eapply wp_last_child; [done|done| |].
  - intros H%Hl. apply wp_ret. by apply Hlast.
  - intros H. apply wp_bind. eapply wp_chunk_free_locked; [exact Hok'|done|done|done|].
    intros h' L' Hrt Hok2. apply wp_ret. change (put h' L' s') with (put h' L' s). apply Hfreed.
    + by rewrite <- Hl.
    + exact Hok2.
    + eapply freed_coalesced; [exact Hok'|exact Hrt|exact Hco'|exact H].
    + rewrite (freed_live _ _ _ _ _ _ Hok' Hrt). cbn [p_heap put with_lists with_heap s']. rewrite live_inject, Hlive.
      by rewrite delete_insert_eq.
Qed.

(** ** [free_or_prepare_for_merge] *)

Lemma retag_parent sizes count h h' p c c' dA dP q :
  tree sizes count h -> retag h h' p c c' dA dP -> c_parent c = Some q ->
  exists d sa d' sa', h !! q = Some d /\ c_suballoc d = Some sa /\ h' !! q = Some d' /\ c_suballoc d' = Some sa' /\
    sa_allocated sa' = sa_allocated sa + dA /\ sa_subchunks sa' = sa_subchunks sa /\ c_log2_size c < c_log2_size d'.
Proof.
  intros Ht Hrt Hq. destruct (heap_parent _ _ _ Ht p c q (rt_old _ _ _ _ _ _ _ Hrt) Hq) as (d & sa & i & Hd & Hsa & _ & _ & _ & Hlt & _).
  pose proof (heap_ne_parent _ _ _ Ht p c q (rt_old _ _ _ _ _ _ _ Hrt) Hq) as Hne. pose proof (rt_rest _ _ _ _ _ _ _ Hrt q ltac:(congruence)) as Hr.
  rewrite Hd, (decide_True (P := c_parent c = Some q)) in Hr by done. eexists d, sa, _, (bump dA _ sa).
  split; [done|]. split; [done|]. split; [exact Hr|]. split; [cbn; by rewrite Hsa|]. done.
Qed.

Lemma tree_pin_all sizes count l h : tree sizes count h -> tree sizes count (pin_all l h).
Proof.
  intros Ht. unfold tree. replace (shape_of <$> pin_all l h) with (shape_of <$> h); [done|].
  apply map_eq. intros k. rewrite !lookup_fmap, lookup_pin_all. destruct (decide (k ∈ l)); [|done]. by destruct (h !! k).
Qed.

(** The counters that move once the children are pinned. *)
Definition prepare_result h q d sa : heap :=
  alter (on_suballoc (bump (Z.of_nat (length (sa_subchunks sa))) 0)) q
    (alter (on_suballoc (bump 0 (Z.of_nat (length (sa_subchunks sa))))) (root_of d) (pin_all (sa_subchunks sa) h)).

Lemma prepare_result_ok h q d sa :
  root_of d ∉ sa_subchunks sa -> q ∉ sa_subchunks sa -> prepared h (prepare_result h q d sa) q d sa.
Proof.
  intros Hr Hq. unfold prepare_result. split.
  - intros k Hk. rewrite !lookup_alter_ne by congruence. by rewrite lookup_pin_all, decide_True.
  - intros k Hk. assert (Hp : pin_all (sa_subchunks sa) h !! k = h !! k) by by rewrite lookup_pin_all, decide_False.
    rewrite lookup_alter. destruct (decide (q = k)) as [->|Hq2].
    + rewrite lookup_alter. destruct (decide (root_of d = k)) as [->|]; rewrite Hp; bumps h k.
    + rewrite lookup_alter. destruct (decide (root_of d = k)) as [->|]; rewrite Hp; bumps h k.
Qed.

Lemma prepare_result_lists sizes h q d sa L :
  lists_ok sizes None (pin_all (sa_subchunks sa) h) L -> lists_ok sizes None (prepare_result h q d sa) L.
Proof.
  intros HL. eapply lists_ok_ext; [|exact HL]. intros k _. unfold prepare_result. rewrite !lookup_alter.
  repeat case_decide; subst; destruct (pin_all (sa_subchunks sa) h !! _); by constructor.
Qed.

Lemma wp_prepare_for_merge p c q d sa n (Q : option Z -> _ -> Prop) s :
  pmm_ok None s -> p_heap s !! p = Some c -> ~ pma_owned c -> p_heap s !! q = Some d -> c_suballoc d = Some sa -> p ∈ sa_subchunks sa ->
  sa_allocated sa = 0 -> (forall k, k ∈ sa_subchunks sa -> is_free (p_heap s) k = true) -> n = Z.of_nat (length (sa_subchunks sa)) ->
  (forall L2, lists_ok_s s None (prepare_result (p_heap s) q d sa) L2 -> Q (Some q) (put (prepare_result (p_heap s) q d sa) L2 s)) ->
  wp (mbind' (for_each (sa_subchunks sa) pin_for_merge) (fun _ => mbind' (root_chunk_from_chunk p) (fun r =>
    mbind' (update_suballoc r (fun sa => set_pinned_leaf_chunks (u32 (sa_pinned_leaf_chunks sa + n)) sa)) (fun _ =>
    mbind' (update_suballoc q (fun sa => set_allocated n sa)) (fun _ => mret' (Some q)))))) Q F s.
Proof.
  intros Hok Hc Hn Hd Hsa Hp Hz Hfree -> HQ. pose proof (po_heap _ _ Hok) as Hh. pose proof (ho_tree _ _ _ _ _ Hh) as Ht.
  destruct (root_not_kid _ _ _ _ _ _ _ _ Hh Hd Hsa Hfree) as [Hrn Hqn].
  destruct (heap_subs_elem _ _ _ Ht q d sa p Hd Hsa Hp) as (c' & Hc' & Hpar). assert (c' = c) as -> by congruence.
  destruct (heap_parent _ _ _ Ht p c q Hc Hpar) as (d' & sa' & i & Hd' & _ & _ & _ & _ & Hlt & _ & _ & Hroot).
  assert (d' = d) as -> by congruence. destruct (heap_root _ _ _ Ht p c Hc) as (rc & Hr & Hrl & _ & _ & _ & _ & Hrs).
  destruct (Hrs ltac:(destruct (heap_log2 _ _ _ Ht q d Hd); lia)) as [rsa Hrsa]. rewrite <- Hroot in Hr.
  pose proof (ho_pinned _ _ _ _ _ Hh _ rc rsa Hr Hrl Hrsa) as Hpin. pose proof (pcount_bound _ _ _ _ _ (root_of d) Hh) as Hpb.
  pose proof (alloc_bound _ _ _ _ _ q d sa Hh Hd Hsa) as [_ Hlen].
  assert (Hpa : forall k, k ∉ sa_subchunks sa -> pin_all (sa_subchunks sa) (p_heap s) !! k = p_heap s !! k).
  { intros k Hk. by rewrite lookup_pin_all, decide_False. }
  apply wp_bind, wp_pin_children; [by apply (heap_subs _ _ _ Ht q d sa Hd Hsa)|done|apply Hok|]. intros L HL.
  apply wp_bind. eapply wp_root_chunk_from_chunk.
  { apply tree_pin_all. exact Ht. }
  { cbn. rewrite lookup_pin_all, decide_True, Hc by done. done. }
  { by eapply (chunk_addr s (p_heap s) p c). }
  { apply Hok. }
  change (root_of (set_chunk_state STATE_TEMP_PINNED c)) with (root_of c). rewrite <- Hroot.
  apply wp_bind. eapply (wp_update_suballoc _ _ _ (bump 0 (Z.of_nat (length (sa_subchunks sa))))).
  { cbn. rewrite Hpa by done. exact Hr. }
  { exact Hrsa. }
  { unfold set_pinned_leaf_chunks, bump. f_equal; [lia|]. apply u32_small. unfold is_u32, ROOT in *. lia. }
  assert (Hq2 : exists dq saq, alter (on_suballoc (bump 0 (Z.of_nat (length (sa_subchunks sa))))) (root_of d)
      (pin_all (sa_subchunks sa) (p_heap s)) !! q = Some dq /\ c_suballoc dq = Some saq /\ sa_allocated saq = 0).
  { rewrite lookup_alter. destruct (decide (root_of d = q)) as [->|]; rewrite Hpa, Hd by done; [|by exists d, sa].
    eexists _, _. split; [done|]. cbn. rewrite Hsa. split; [done|]. cbn. lia. }
  destruct Hq2 as (dq & saq & Hq2 & Hsaq & Hzq).
  apply wp_bind. eapply (wp_update_suballoc _ _ _ (bump (Z.of_nat (length (sa_subchunks sa))) 0)); [exact Hq2|exact Hsaq| |].
  { unfold set_allocated, bump. rewrite Hzq. f_equal. lia. }
  apply wp_ret. apply HQ. by apply prepare_result_lists.
Qed.

Lemma wp_free_or_prepare x p c (Q : option Z -> _ -> Prop) s :
  pmm_ok x s -> x = None \/ x = Some p -> coalesced (p_heap s) -> p_heap s !! p = Some c -> is_live c = true ->
  (c_state c = STATE_ALLOCATED -> c_is_referenced c = false) ->
  (forall h' L', pmm_ok None (put h' L' s) -> coalesced h' -> live h' = delete p (live (p_heap s)) -> Q None (put h' L' s)) ->
  (forall q d sa h1 L1 L2, pmm_ok None (put h1 L1 s) -> coalesced_but (Some q) h1 -> live h1 = delete p (live (p_heap s)) ->
     h1 !! q = Some d -> c_suballoc d = Some sa -> sa_allocated sa = 0 -> (forall k, k ∈ sa_subchunks sa -> is_free h1 k = true) ->
     c_log2_size c < c_log2_size d -> lists_ok_s s None (prepare_result h1 q d sa) L2 ->
     Q (Some q) (put (prepare_result h1 q d sa) L2 s)) ->
  wp (free_or_prepare_for_merge p) Q F s.
Proof.
  intros Hok Hx Hco Hc Hlive Href Hnone Hmerge. pose proof (po_heap _ _ Hok) as Hh. pose proof (ho_tree _ _ _ _ _ Hh) as Ht.
  unfold free_or_prepare_for_merge. apply wp_bind. eapply wp_load; [done|]. destruct (c_parent c) as [q|] eqn:Eq.
  2: { apply wp_bind. eapply wp_try_chunk_free; [done..| |].
       - intros (q & d & sa & H & _). congruence.
       - intros h' L' _ H1 H2 H3. apply wp_bind, wp_assert; [done|]. apply wp_ret. by apply Hnone. }
  assert (Hfree : forall b (Q' : option Z -> _ -> Prop), (forall h1 L1 d sa, pmm_ok None (put h1 L1 s) -> live h1 = delete p (live (p_heap s)) ->
      (~ last_child (p_heap s) c -> coalesced h1 /\ sa_allocated sa <> 0) -> (last_child (p_heap s) c -> coalesced_but (Some q) h1 /\ sa_allocated sa = 0) ->
      h1 !! p = Some (freed c) -> h1 !! q = Some d -> c_suballoc d = Some sa -> p ∈ sa_subchunks sa -> c_log2_size c < c_log2_size d ->
      wp (b d sa) Q' F (put h1 L1 s)) ->
    wp (mbind' (chunk_free_locked p) (fun _ => mbind' (load q) (fun parent => mbind' (suballoc_of parent) (fun sa => b parent sa)))) Q' F s).
  { intros b Q' Hb. apply wp_bind. eapply wp_chunk_free_locked; [done..|]. intros h1 L1 Hrt Hok1.
    destruct (retag_parent _ _ _ _ _ _ _ _ _ q Ht Hrt Eq) as (d0 & sa0 & d & sa & Hd0 & Hsa0 & Hd & Hsa & Hal & Hsub & Hlt).
    apply wp_bind. eapply wp_load; [exact Hd|]. apply wp_bind. eapply wp_suballoc_of; [done|].
    pose proof (Hco q d0 sa0 Hd0 Hsa0) as Hpos.
    apply Hb; try done.
    - by eapply freed_live.
    - intros Hl. split; [eapply freed_coalesced; [exact Hok|exact Hrt|exact Hco|exact Hl]|]. intros E. apply Hl. exists q, d0, sa0. split_and!; try done. lia.
    - intros (q' & d' & sa' & H1 & H2 & H3 & H4). assert (q' = q) as -> by congruence. assert (d' = d0) as -> by congruence.
      assert (sa' = sa0) as -> by congruence. split; [|lia]. intros k e sae Hk He Hse.
      destruct (retag_suballoc _ _ _ _ _ _ _ k e sae Hrt He Hse) as (e0 & sae0 & _ & He0 & Hse0 & -> & _). cbn [bump sa_allocated].
      rewrite decide_False by congruence. rewrite Z.add_0_r. by eapply Hco.
    - apply Hrt.
    - destruct (heap_parent _ _ _ Ht p c q Hc Eq) as (d2 & sa2 & i & Hd2 & Hsa2 & Hi & _).
      assert (d2 = d0) as -> by congruence. assert (sa2 = sa0) as -> by congruence. rewrite Hsub. apply list_elem_of_lookup. eauto. }
  apply wp_bind. eapply wp_last_child; [done|done| |]; intros Hl; apply Hfree; clear Hfree;
    intros h1 L1 d sa Hok1 Hlive1 Hno Hyes Hp1 Hq1 Hsa Hin Hlt; cbn [negb].
  - destruct (Hyes Hl) as [Hco1 Hz]. pose proof (po_heap _ _ Hok1) as Hh1. cbn in Hh1.
    assert (Hkids : forall k, k ∈ sa_subchunks sa -> is_free h1 k = true).
    { apply nonfree_none. rewrite <- Hz. symmetry. by apply (ho_alloc _ _ _ _ _ Hh1 q d sa). }
    apply wp_bind, wp_assert; [by rewrite Hz|].
    apply wp_bind. eapply wp_num_subchunks; [apply Hh1|exact Hq1| |done|].
    { apply (ho_chunk _ _ _ _ _ Hh1 q d Hq1). by rewrite Hsa. }
    eapply wp_prepare_for_merge; [exact Hok1|exact Hp1|done|exact Hq1|done..|]. intros L2 HL2. by apply (Hmerge q d sa h1 L1 L2).
  - destruct (Hno Hl) as [Hco1 Hz]. apply wp_bind, wp_assert; [apply negb_true_iff, Z.eqb_neq; done|]. apply wp_ret. by apply Hnone.
Qed.

(** ** [free_chunk_with_merges] *)

Lemma pmm_ok_collapse s h1 L1 h' L2 q d sa :
  pmm_ok None (put h1 L1 s) -> collapse h1 h' q d sa -> lists_ok_s s (Some q) h' L2 -> pmm_ok (Some q) (put h' L2 s).
Proof.
  intros [H1 H2 H3 H4 H5] Hcl HL. pose proof (collapse_split _ _ _ _ _ _ _ _ _ H1 Hcl) as Hsp. split.
  - by eapply collapse_ok.
  - exact HL.
  - destruct H3 as [Hn H3]. split; [exact Hn|]. cbn in *. intros k Hk.
    destruct (decide (k = q)) as [->|Hne]; [pose proof (cl_old _ _ _ _ _ Hcl) as E; rewrite H3 in E by done; done|].
    destruct (decide (k ∈ sa_subchunks sa)) as [Hin|Hni]; [by apply Hcl|].
    by rewrite (cl_rest _ _ _ _ _ Hcl k Hne Hni), H3.
  - destruct H4. by split.
  - intros r c Hr Hl Hnp. cbn in *. destruct (decide (r = q)) as [->|Hne].
    + rewrite (cl_new _ _ _ _ _ Hcl) in Hr. injection Hr as <-. apply (H5 q d (cl_old _ _ _ _ _ Hcl)); [done|].
      unfold pma_owned. by rewrite Hsp.
    + destruct (decide (r ∈ sa_subchunks sa)) as [Hin|Hni]; [by rewrite (cl_gone _ _ _ _ _ Hcl r Hin) in Hr|].
      rewrite (cl_rest _ _ _ _ _ Hcl r Hne Hni) in Hr. destruct (h1 !! r) as [c0|] eqn:E; [|done]. injection Hr as <-. by apply (H5 r c0).
Qed.

Lemma wp_free_chunk_with_merges fuel : forall x p c (Q : unit -> _ -> Prop) s,
  pmm_ok x s -> x = None \/ x = Some p -> coalesced (p_heap s) -> p_heap s !! p = Some c -> is_live c = true ->
  (c_state c = STATE_ALLOCATED -> c_is_referenced c = false) -> (Z.to_nat (ROOT - c_log2_size c) < fuel)%nat ->
  (forall h' L', pmm_ok None (put h' L' s) -> coalesced h' -> live h' = delete p (live (p_heap s)) -> Q tt (put h' L' s)) ->
  wp (free_chunk_with_merges fuel p) Q F s.
Proof.
  induction fuel as [|fuel IH]; intros x p c Q s Hok Hx Hco Hc Hlive Href Hfuel HQ; [lia|]. cbn [free_chunk_with_merges].
  apply wp_bind. eapply wp_check_chunk; [apply Hok|done|done|].
  apply wp_bind. eapply wp_free_or_prepare; [done..| |].
  { intros h' L' H1 H2 H3. apply wp_ret. by apply HQ. }
  intros q d sa h1 L1 L2 Hok1 Hco1 Hlive1 Hd Hsa Hz Hfree Hlt HL2. pose proof (po_heap _ _ Hok1) as Hh1.
  destruct (root_not_kid _ _ _ _ _ _ _ _ Hh1 Hd Hsa Hfree) as [Hrn Hqn].
  apply wp_bind. eapply (wp_merge_gpu_chunk F (put (prepare_result h1 q d sa) L2 s) h1 q d sa);
    [exact Hh1|apply Hok|done|done|done|done|by apply prepare_result_ok|exact HL2|].
  intros h' Hcl HL'. pose proof (pmm_ok_collapse s h1 L1 h' L2 q d sa Hok1 Hcl HL') as Hok'.
  pose proof (collapse_live _ _ _ _ _ _ _ _ _ Hh1 Hcl) as Hlive'. cbn in Hlive'.
  change (wp (free_chunk_with_merges fuel q) Q F (put h' L2 s)).
  destruct (heap_log2 _ _ _ (ho_tree _ _ _ _ _ Hh1) q d Hd) as [Hld _].
  eapply (IH (Some q) q (merged d)); [exact Hok'|by right|by eapply collapse_coalesced|apply Hcl|done|done| |].
  - cbn. lia.
  - intros h2 L3 H1 H2 H3. change (put h2 L3 (put h' L2 s)) with (put h2 L3 s) in *. apply HQ; [exact H1|exact H2|].
    rewrite H3. cbn [p_heap put with_lists with_heap]. rewrite Hlive', delete_insert_eq, Hlive1.
    rewrite delete_id; [done|]. rewrite <- Hlive1, lookup_live. cbn in Hd. rewrite Hd.
    pose proof (collapse_split _ _ _ _ _ _ _ _ _ Hh1 Hcl) as Hsp. unfold is_live. by rewrite Hsp.
Qed.

(** ** Root chunks back to PMA *)

(** The configuration does not change. *)
Record frame s s' : Prop := {
  fr_sizes : p_chunk_sizes s' = p_chunk_sizes s;
  fr_count : p_count s' = p_count s;
  fr_max : p_max_allocatable_address s' = p_max_allocatable_address s;
  fr_conf : p_conf_computing s' = p_conf_computing s;
}.

Lemma frame_refl s : frame s s.
Proof. done. Qed.
Lemma frame_put h L s : frame s (put h L s).
Proof. done. Qed.
Lemma frame_trans s1 s2 s3 : frame s1 s2 -> frame s2 s3 -> frame s1 s3.
Proof. intros [] []. split; congruence. Qed.

(** A root chunk without children changes hands: only its own object changes. *)
Lemma root_retag h p c c' :
  h !! p = Some c -> c_suballoc c = None -> c_suballoc c' = None -> c_parent c = None ->
  c_address c' = c_address c -> c_log2_size c' = c_log2_size c -> c_parent c' = c_parent c ->
  forall dA dP, retag h (<[p := c']> h) p c c' dA dP.
Proof.
  intros Hc Hs Hs' Hpar Ha Hl Hp dA dP. split; try done; [by rewrite lookup_insert_eq|].
  intros k Hk. rewrite lookup_insert_ne by done. rewrite Hpar. rewrite decide_False by done.
  rewrite decide_False by (intros [? _]; done). bumps h k.
Qed.

Lemma wp_free_root_chunk r c (Q : unit -> _ -> Prop) s :
  pmm_ok None s -> p_heap s !! r = Some c -> c_log2_size c = ROOT -> c_state c = STATE_TEMP_PINNED ->
  (forall s', pmm_ok None s' -> frame s s' -> p_heap s' = <[r := set_chunk_state STATE_PMA_OWNED c]> (p_heap s) ->
     p_pma_freed s' = p_pma_freed s ++ [(c_address c, c_is_zero c)] -> Q tt s') ->
  wp (free_root_chunk r FREE_ROOT_CHUNK_MODE_DEFAULT) Q F s.
Proof.
  intros Hok Hc Hl Hs HQ. pose proof (po_heap _ _ Hok) as Hh. pose proof (ho_tree _ _ _ _ _ Hh) as Ht.
  assert (Hn : ~ pma_owned c) by (unfold pma_owned; by rewrite Hs).
  destruct (po_trackers _ _ Hok r c Hc Hl Hn) as (t & Htr & Htk & _).
  destruct (tv_progress _ (eo_tenv _ (po_env _ _ Hok) 0%nat)) as (sp & Hsp & Hdone).
  destruct (wait_spec (te_steps (p_tenv s 0%nat)) t Htk) as (st & t' & Hw & _).
  { exists sp. split; [done|]. intros e _. unfold uvm_tracker_is_entry_completed. destruct (te_channel e); [apply Hdone|done]. }
  pose proof (live_leaf _ _ _ _ _ r c Hh Hc ltac:(by rewrite Hs)) as Hleaf.
  pose proof (proj1 (heap_root_parent _ _ _ Ht r c Hc) Hl) as Hpar.
  unfold free_root_chunk. apply wp_bind. unfold wp at 1, next_tenv. apply wp_bind. apply wp_bind, wp_get.
  eapply wp_of_option; [exact Htr|]. apply wp_bind. eapply wp_of_option.
  { unfold uvm_tracker_wait_deinit. rewrite Hw. done. }
  apply wp_bind, wp_modify. cbn [snd].
  apply wp_bind. eapply wp_load; [exact Hc|]. apply wp_bind, wp_assert; [by rewrite Hs|].
  apply wp_bind, wp_list_empty.
  { intros l. eapply (on_no_list _ None); [apply Hok|done|exact Hc|by rewrite Hs|]. intros _. by rewrite Hs. }
  apply wp_bind, wp_assert; [done|]. destruct (heap_addr _ _ _ Ht r c Hc) as [Ha0 _].
  apply wp_bind. eapply wp_chunk_unpin; [exact Ht|exact Hc|by eapply (chunk_addr s)|apply Hok|done| |done| |].
  { by apply (ho_chunk _ _ _ _ _ Hh r c Hc); rewrite Hs. }
  { intros H. by destruct (H Hl). }
  set (c' := set_chunk_state STATE_PMA_OWNED c).
  assert (Hh2 : pin_heap (-1) r c' (p_heap s) = <[r := c']> (p_heap s)).
  { unfold pin_heap. by rewrite (proj2 (Z.eqb_eq (c_log2_size c') ROOT) Hl). }
  pose proof (root_retag (p_heap s) r c c' Hc Hleaf Hleaf Hpar eq_refl eq_refl eq_refl 0 (-1)) as Hrt.
  assert (Hh' : heap_ok_s s (<[r := c']> (p_heap s))).
  { eapply retag_ok; [done|exact Hrt|by eapply retag_tree| |by rewrite Hs|by rewrite Hs].
    destruct (ho_chunk _ _ _ _ _ Hh r c Hc) as [E1 E2 E3 E4 E5 E6]. split; cbn; try done.
    - rewrite Hleaf. split; [done|by intros []].
    - intros _. apply E4. by rewrite Hs. }
  apply wp_bind. eapply wp_load; [cbn; fold c'; rewrite Hh2; apply lookup_insert_eq|]. apply wp_modify.
  apply HQ; [|done|cbn; fold c'; by rewrite Hh2|done]. split; cbn; fold c'; rewrite ?Hh2.
  - exact Hh'.
  - apply (lists_ok_drop _ _ _ r c'); [|apply lookup_insert_eq|done|].
    + eapply lists_retag; [exact Hrt|apply Hok|by left].
    + eapply (on_no_list _ None); [apply Hok|done|exact Hc|by rewrite Hs|]. intros _. by rewrite Hs.
  - destruct (po_next _ _ Hok) as [Hn1 Hn2]. split; [done|]. intros k Hk. rewrite lookup_insert_ne; [by apply Hn2|].
    intros ->. rewrite Hn2 in Hc by done. done.
  - destruct (po_env _ _ Hok) as [E1 E2 E3]. split; [done|done|]. cbn. intros n. apply (E3 (S n)).
  - intros k e Hk Hke Hne. destruct (decide (k = r)) as [->|Hkr].
    + rewrite lookup_insert_eq in Hk. injection Hk as <-. by destruct Hne.
    + rewrite lookup_insert_ne in Hk by done. rewrite lookup_insert_ne by done. by apply (po_trackers _ _ Hok k e).
Qed.

(** A free root chunk of the type goes to PMA. *)
Definition released s s' (t : uvm_pmm_gpu_memory_type_t) : Prop :=
  exists p c, p_heap s !! p = Some c /\ c_log2_size c = ROOT /\ c_state c = STATE_FREE /\ c_type c = t /\
    p_heap s' = <[p := set_chunk_state STATE_PMA_OWNED c]> (p_heap s) /\
    p_pma_freed s' = p_pma_freed s ++ [(c_address c, c_is_zero c)].

Definition no_free_root s (t : uvm_pmm_gpu_memory_type_t) : Prop :=
  forall p c, p_heap s !! p = Some c -> c_log2_size c = ROOT -> c_state c = STATE_FREE -> c_type c <> t.

Lemma released_live s s' t : released s s' t -> live (p_heap s') = live (p_heap s).
Proof.
  intros (p & c & Hc & _ & Hs & _ & -> & _). apply map_eq. intros k. rewrite !lookup_live, lookup_insert.
  destruct (decide (p = k)) as [<-|]; [|done]. rewrite Hc. unfold is_live at 2. by rewrite Hs.
Qed.

Lemma released_coalesced s s' t : pmm_ok None s -> released s s' t -> coalesced (p_heap s) -> coalesced (p_heap s').
Proof.
  intros Hok (p & c & Hc & _ & Hs & _ & -> & _) Hco k d sa. rewrite lookup_insert. destruct (decide (p = k)) as [<-|]; [|apply Hco].
  intros [= <-]. cbn. rewrite (live_leaf _ _ _ _ _ p c (po_heap _ _ Hok) Hc) by congruence. done.
Qed.

Lemma wp_release_root p c t (Q : bool -> _ -> Prop) s :
  pmm_ok None s -> p_heap s !! p = Some c -> c_log2_size c = ROOT -> c_state c = STATE_FREE -> c_type c = t ->
  (forall s', pmm_ok None s' -> frame s s' -> released s s' t -> Q true s') ->
  wp (mbind' (list_del_init p) (fun _ => mbind' (load p) (fun c =>
      mbind' (uvm_assert (state_is (c_state c) STATE_FREE)) (fun _ =>
      mbind' (uvm_assert (uvm_gpu_chunk_get_size c =? UVM_CHUNK_SIZE_MAX)) (fun _ =>
      mbind' (uvm_assert (bool_decide (c_type c = t))) (fun _ =>
      mbind' (chunk_pin p) (fun _ => mbind' (root_chunk_from_chunk p) (fun r =>
      mbind' (free_root_chunk r FREE_ROOT_CHUNK_MODE_DEFAULT) (fun _ => mret' true))))))))) Q F s.
Proof.
  intros Hok Hc Hl Hs Hty HQ. pose proof (po_heap _ _ Hok) as Hh. pose proof (ho_tree _ _ _ _ _ Hh) as Ht.
  pose proof (live_leaf _ _ _ _ _ p c Hh Hc ltac:(by rewrite Hs)) as Hleaf.
  pose proof (proj1 (heap_root_parent _ _ _ Ht p c Hc) Hl) as Hpar.
  assert (Ha : c_address c <= p_max_allocatable_address s) by (eapply chunk_addr; [done..|]; unfold pma_owned; by rewrite Hs).
  apply wp_bind, wp_list_del_init. apply wp_bind. eapply wp_load; [exact Hc|].
  apply wp_bind, wp_assert; [by rewrite Hs|].
  apply wp_bind, wp_assert; [change (chunk_is_root_chunk c = true); rewrite is_root_eq by (rewrite Hl; by vm_compute); by apply Z.eqb_eq|].
  apply wp_bind, wp_assert; [by rewrite bool_decide_true|].
  apply wp_bind. eapply wp_chunk_pin; [exact Ht|exact Hc|exact Ha|apply Hok|by rewrite Hs|intros H; by destruct (H Hl)|].
  set (c1 := set_chunk_state STATE_TEMP_PINNED c).
  assert (Hph : pin_heap 1 p c1 (p_heap s) = <[p := c1]> (p_heap s)).
  { unfold pin_heap. by rewrite (proj2 (Z.eqb_eq (c_log2_size c1) ROOT) Hl). }
  pose proof (root_retag (p_heap s) p c c1 Hc Hleaf Hleaf Hpar eq_refl eq_refl eq_refl 1 1) as Hrt.
  cbn [p_heap p_lists put with_lists with_heap]. rewrite Hph.
  change (put (<[p := c1]> (p_heap s)) (ldel p (p_lists s)) (put (p_heap s) (ldel p (p_lists s)) s))
    with (put (<[p := c1]> (p_heap s)) (ldel p (p_lists s)) s).
  assert (Hok1 : pmm_ok None (put (<[p := c1]> (p_heap s)) (ldel p (p_lists s)) s)).
  { eapply pmm_ok_retag; [exact Hok|exact Hrt| | |].
    - eapply retag_ok; [done|exact Hrt|by eapply retag_tree| |by rewrite Hs|by rewrite Hs].
      destruct (ho_chunk _ _ _ _ _ Hh p c Hc) as [E1 E2 E3 E4 E5 E6]. split; cbn; try done.
      + rewrite Hleaf. split; [done|by intros []].
      + intros _. apply E3. unfold pma_owned. by rewrite Hs.
      + intros _. apply E4. by rewrite Hs.
    - eapply lists_ok_own; [apply lookup_insert_eq|eapply lists_retag; [exact Hrt|apply Hok|by left]|by right].
    - intros _. unfold pma_owned. by rewrite Hs. }
  pose proof (po_heap _ _ Hok1) as Hh1. pose proof (ho_tree _ _ _ _ _ Hh1) as Ht1.
  apply wp_bind. eapply wp_root_chunk_from_chunk; [exact Ht1|apply lookup_insert_eq|exact Ha|apply Hok|].
  change (root_of c1) with (root_of c). rewrite (heap_root_self _ _ _ Ht p c Hc Hl).
  apply wp_bind. eapply wp_free_root_chunk; [exact Hok1|apply lookup_insert_eq|done|done|].
  intros s' Hok' Hfr Hheap Hpma. apply wp_ret. apply HQ; [done|by destruct Hfr; split|]. exists p, c. split_and!; try done.
  rewrite Hheap. cbn [p_heap put with_lists with_heap]. by rewrite insert_insert_eq.
Qed.

Lemma wp_free_next_available_root_chunk t (Q : bool -> _ -> Prop) s :
  pmm_ok None s ->
  (no_free_root s t -> Q false s) -> (forall s', pmm_ok None s' -> frame s s' -> released s s' t -> Q true s') ->
  wp (free_next_available_root_chunk t) Q F s.
Proof.
  intros Hok Hnone Hsome. pose proof (po_heap _ _ Hok) as Hh. pose proof (ho_tree _ _ _ _ _ Hh) as Ht.
  pose proof (to_masks _ _ _ Ht t) as Hmask. pose proof (po_lists _ _ Hok) as HL.
  set (fl := fun z => p_lists s (FreeList t (idx_of (p_chunk_sizes s t) ROOT) z)).
  assert (Hfl : forall z p, p ∈ fl z -> exists c, p_heap s !! p = Some c /\ c_log2_size c = ROOT /\ c_state c = STATE_FREE /\
    c_type c = t /\ c_is_zero c = z).
  { intros z p Hp. apply (lo_free _ _ _ _ HL) in Hp as (c & Hc & Hs & Hty & Hz & Hi); [|done]. exists c.
    destruct (heap_log2 _ _ _ Ht p c Hc) as [Hl Hb]. rewrite Hty in Hb.
    apply idx_of_inj in Hi; [|unfold ROOT in *; lia|unfold ROOT in *; lia|exact Hb|apply Hmask].
    split; [exact Hc|]. split; [exact Hi|]. auto. }
  unfold free_next_available_root_chunk. apply wp_bind, wp_get.
  apply wp_bind. eapply wp_of_assert; [by apply find_last_size_spec|]. apply wp_bind, wp_assert; [done|].
  change UVM_CHUNK_SIZE_MAX with (2 ^ ROOT) at 1 2. apply wp_bind, wp_find_free_list; [by vm_compute|apply Hmask|].
  apply wp_bind, wp_gets. fold (fl false). destruct (fl false) as [|p ps] eqn:E1; cbn [head].
  - apply wp_bind, wp_ret. apply wp_bind, wp_bind, wp_find_free_list; [by vm_compute|apply Hmask|].
    apply wp_bind, wp_gets. fold (fl true). destruct (fl true) as [|p ps] eqn:E2; cbn [head].
    + apply wp_bind, wp_ret, wp_ret, wp_ret, Hnone. intros p c Hc Hl Hs Hty.
      assert (Hp : p ∈ fl (c_is_zero c)) by (apply (lo_free _ _ _ _ HL); [done|]; exists c; unfold on_free_list; by rewrite Hl).
      destruct (c_is_zero c); rewrite ?E1, ?E2 in Hp; by apply not_elem_of_nil in Hp.
    + destruct (Hfl true p ltac:(rewrite E2; by left)) as (c & Hc & Hl & Hs & Hty & Hz).
      apply wp_bind, wp_bind. eapply wp_load; [done|]. apply wp_assert; [done|]. apply wp_ret. by eapply wp_release_root.
  - destruct (Hfl false p ltac:(rewrite E1; by left)) as (c & Hc & Hl & Hs & Hty & Hz).
    apply wp_bind, wp_bind. eapply wp_load; [done|]. apply wp_assert; [by rewrite Hz|]. apply wp_bind, wp_ret.
    by eapply wp_release_root.
Qed.

(** ** [free_chunk] *)

Lemma wp_maybe_release (b : bool) t (Q : unit -> _ -> Prop) s :
  pmm_ok None s -> coalesced (p_heap s) ->
  (forall s', pmm_ok None s' -> frame s s' -> coalesced (p_heap s') -> live (p_heap s') = live (p_heap s) -> Q tt s') ->
  wp (when b (mbind' (free_next_available_root_chunk t) (fun _ => mret' tt))) Q F s.
Proof.
  intros Hok Hco HQ. apply wp_when; intros _; [|by apply HQ].
  apply wp_bind. eapply wp_free_next_available_root_chunk; [done| |].
  - intros _. apply wp_ret. by apply HQ.
  - intros s' Hok' Hfr Hrel. apply wp_ret. apply HQ; [done|done|eapply released_coalesced; [exact Hok|exact Hrel|exact Hco]|by eapply released_live].
Qed.

Lemma fuel_enough c : 0 <= c_log2_size c <= ROOT -> (Z.to_nat (ROOT - c_log2_size c) < MAX_LEVELS)%nat.
Proof. unfold MAX_LEVELS, ROOT. lia. Qed.

Lemma wp_free_chunk p c (Q : unit -> _ -> Prop) s :
  pmm_ok None s -> coalesced (p_heap s) -> p_heap s !! p = Some c -> is_live c = true ->
  (c_state c = STATE_ALLOCATED -> c_is_referenced c = false) ->
  (forall s', pmm_ok None s' -> frame s s' -> coalesced (p_heap s') -> live (p_heap s') = delete p (live (p_heap s)) -> Q tt s') ->
  wp (free_chunk p) Q F s.
Proof.
  intros Hok Hco Hc Hlive Href HQ. pose proof (po_heap _ _ Hok) as Hh. pose proof (ho_tree _ _ _ _ _ Hh) as Ht.
  destruct (heap_log2 _ _ _ Ht p c Hc) as [Hl _].
  assert (Hfin : forall b h' L', pmm_ok None (put h' L' s) -> coalesced h' -> live h' = delete p (live (p_heap s)) ->
    wp (when b (mbind' (free_next_available_root_chunk (c_type c)) (fun _ => mret' tt))) Q F (put h' L' s)).
  { intros b h' L' Hok' Hco' Hlive'. eapply wp_maybe_release; [exact Hok'|exact Hco'|].
    intros s' H1 H2 H3 H4. apply HQ; [done|by eapply frame_trans; [apply (frame_put h' L' s)|]|done|]. by rewrite H4. }
  unfold free_chunk. apply wp_bind. eapply wp_load; [done|]. apply wp_bind, wp_assert; [exact Hlive|].
  apply wp_bind. eapply wp_check_chunk; [done..|].
  apply wp_bind. eapply (wp_try_chunk_free None); [done|by left|done..| |].
  - intros _ Hok' Hco'. apply wp_bind, wp_bind.
    eapply (wp_free_chunk_with_merges _ None p (no_inject c)); [exact Hok'|by left|exact Hco'|apply lookup_insert_eq|done|done| |].
    + by apply fuel_enough.
    + intros h' L' H1 H2 H3. apply wp_ret.
      match goal with |- wp _ _ _ (put h' L' ?s0) => change (put h' L' s0) with (put h' L' s) end.
      apply Hfin; [exact H1|exact H2|]. rewrite H3. cbn [p_heap put with_lists with_heap]. rewrite live_inject, Hlive.
      by rewrite delete_insert_eq.
  - intros h' L' _ H1 H2 H3. apply wp_bind, wp_ret. by apply Hfin.
Qed.
End free.
