(* ===== verification/UvmPmmSplit.v ===== *)
(** Splitting a chunk into chunks of the next size down. *)

From S2P Require Import Prelude UvmBits UvmCommon UvmTlbBatch UvmTracker UvmPmm UvmPmmTree UvmPmmInv UvmPmmOps UvmPmmLeaf UvmPmmMerge UvmPmmFree.
Local Open Scope Z_scope.

(** ** The children take the place of [p] *)

Definition split_state (c : uvm_gpu_chunk_t) (pl : Z) (subs : list Z) : uvm_gpu_chunk_t :=
  let c := set_suballoc (Some (Suballoc (Z.of_nat (length subs)) pl subs)) c in
  set_chunk_state STATE_IS_SPLIT
    (if state_is (c_state c) STATE_ALLOCATED
     then set_is_referenced false (set_va_block_page_index PAGES_PER_UVM_VA_BLOCK (set_va_block None c)) else c).

Section expand.
Context (sizes : uvm_pmm_gpu_memory_type_t -> Z) (count max : Z) (conf : bool) (h h' : heap).
Context (p : Z) (c : uvm_gpu_chunk_t) (b pl : Z) (subs : list Z).
Implicit Types (k : Z) (d : uvm_gpu_chunk_t) (sa : uvm_pmm_gpu_chunk_suballoc_t).

Let n := Z.of_nat (length subs).
Let pin := state_is (c_state c) STATE_TEMP_PINNED.

Record expand : Prop := {
  ex_old : h !! p = Some c;
  ex_live : is_live c = true;
  ex_size : prev_log (sizes (c_type c)) (c_log2_size c) = Some b /\ n = 2 ^ (c_log2_size c - b);
  ex_fresh : NoDup subs /\ forall k, k ∈ subs -> count <= k /\ h !! k = None;
  ex_new : h' !! p = Some (split_state c pl subs);
  ex_pl : c_log2_size c = ROOT -> pl = if pin then n else 0;
  ex_kids : forall i k, subs !! i = Some k -> h' !! k = Some (make_subchunk p c (2 ^ b) (Z.of_nat i));
  ex_rest : forall k, k <> p -> k ∉ subs -> h' !! k =
    on_suballoc (bump 0 (if decide (root_of c = k) then if pin then n - 1 else 0 else 0)) <$> h !! k;
}.

Context (Hok : heap_ok sizes count max conf h) (Hmax : max < UVM_GPU_MAX_PHYS_MEM) (Hex : expand).

Let Ht : tree sizes count h := ho_tree _ _ _ _ _ Hok.
Let Hc : h !! p = Some c := ex_old Hex.

Lemma expand_state : c_state c = STATE_ALLOCATED \/ c_state c = STATE_TEMP_PINNED.
Proof using Hex. apply is_live_iff, Hex. Qed.

Lemma expand_leaf : c_suballoc c = None.
Proof using Hok Hex. eapply live_leaf; [exact Hok|exact Hc|]. destruct expand_state as [-> | ->]; done. Qed.

Lemma expand_top : c_address c + 2 ^ c_log2_size c <= max + 1.
Proof using Hok Hex.
  apply (ck_top _ _ _ (ho_chunk _ _ _ _ _ Hok p c Hc)). unfold pma_owned. destruct expand_state as [-> | ->]; done.
Qed.

Lemma expand_b : 0 <= b < c_log2_size c /\ Z.testbit (sizes (c_type c)) b = true.
Proof using Hok Hex.
  destruct (ex_size Hex) as [Hb _]. apply prev_log_Some in Hb as (H1 & H2 & _); [done|apply (mask_nonneg _ _ _ Ht)|].
  apply (heap_log2 _ _ _ Ht p c Hc).
Qed.

Lemma expand_range i k : subs !! i = Some k -> 0 <= Z.of_nat i < 2 ^ (c_log2_size c - b) /\
  0 <= Z.of_nat i * 2 ^ b /\ Z.of_nat i * 2 ^ b + 2 ^ b <= 2 ^ c_log2_size c.
Proof using Hok Hex.
  intros Hi%lookup_lt_Some. destruct expand_b as [Hb _], (ex_size Hex) as [_ Hn]. unfold n in Hn.
  pose proof (pow2_pos b ltac:(lia)).
  assert (E : 2 ^ c_log2_size c = 2 ^ (c_log2_size c - b) * 2 ^ b) by (rewrite <- Z.pow_add_r by lia; f_equal; lia).
  rewrite E, <- Hn. split; [lia|]. split; nia.
Qed.

(** A child. *)
Lemma expand_kid i k : subs !! i = Some k ->
  c_address (make_subchunk p c (2 ^ b) (Z.of_nat i)) = c_address c + Z.of_nat i * 2 ^ b /\
  c_log2_size (make_subchunk p c (2 ^ b) (Z.of_nat i)) = b /\
  root_of (make_subchunk p c (2 ^ b) (Z.of_nat i)) = root_of c.
Proof using Hok Hmax Hex.
  intros Hi. destruct (expand_range i k Hi) as (_ & H1 & H2), expand_b as [Hb _].
  destruct (heap_addr _ _ _ Ht p c Hc) as [Ha Hal], (heap_log2 _ _ _ Ht p c Hc) as [Hl _].
  pose proof expand_top as Htop. pose proof (pow2_pos b ltac:(lia)). pose proof (pow2_pos (c_log2_size c) ltac:(lia)).
  assert (Hadr : c_address (make_subchunk p c (2 ^ b) (Z.of_nat i)) = c_address c + Z.of_nat i * 2 ^ b).
  { cbn. apply u64_small. unfold is_u64, UVM_GPU_MAX_PHYS_MEM in *. lia. }
  split; [exact Hadr|]. split; [cbn; by rewrite Z.log2_pow2 by lia|].
  unfold root_of. rewrite Hadr. assert (E : 2 ^ ROOT = 2 ^ c_log2_size c * 2 ^ (ROOT - c_log2_size c)) by (rewrite <- Z.pow_add_r by lia; f_equal; lia).
  pose proof (pow2_pos (ROOT - c_log2_size c) ltac:(lia)). rewrite E, <- !Z.div_div by lia. f_equal.
  symmetry. apply Z.div_unique with (Z.of_nat i * 2 ^ b); [lia|]. apply Z.div_exact in Hal; lia.
Qed.

Lemma expand_old k d : h !! k = Some d -> k ∉ subs.
Proof using Hex. intros Hk Hin. destruct (ex_fresh Hex) as [_ Hf]. destruct (Hf k Hin) as [_ Hn]. congruence. Qed.

Lemma expand_tree : tree sizes count h'.
Proof using Hok Hmax Hex.
  destruct (ex_size Hex) as [Hb Hn]. apply (tree_split sizes count _ Ht _ p (shape_of c) subs b).
  - by apply tree_lookup.
  - cbn. unfold subs_of. by rewrite expand_leaf.
  - exact Hb.
  - exact Hn.
  - rewrite lookup_fmap, (ex_new Hex). cbn. f_equal. unfold split_state, shape_of, subs_of, with_subs. cbn.
    destruct (state_is (c_state c) STATE_ALLOCATED); done.
  - intros i k Hi. destruct (proj2 (ex_fresh Hex) k) as [H1 H2]; [apply list_elem_of_lookup; eauto|].
    destruct (expand_kid i k Hi) as (Ha & Hl & _). split; [done|]. rewrite !lookup_fmap, H2, (ex_kids Hex i k Hi).
    split; [done|]. cbn [fmap option_fmap option_map]. unfold shape_of. rewrite Ha, Hl. done.
  - intros k Hk Hin. rewrite !lookup_fmap, (ex_rest Hex k Hk Hin). destruct (h !! k); [|done]. cbn. by rewrite shape_on_suballoc.
Qed.

Lemma split_state_facts : c_state (split_state c pl subs) = STATE_IS_SPLIT /\
  c_suballoc (split_state c pl subs) = Some (Suballoc n pl subs) /\ c_log2_size (split_state c pl subs) = c_log2_size c /\
  c_address (split_state c pl subs) = c_address c /\ c_type (split_state c pl subs) = c_type c /\
  c_in_eviction (split_state c pl subs) = c_in_eviction c /\ c_parent (split_state c pl subs) = c_parent c.
Proof using Type. unfold split_state. cbn. destruct (state_is (c_state c) STATE_ALLOCATED); done. Qed.

Lemma expand_chunks k d : h' !! k = Some d -> chunk_ok max conf d.
Proof using Hok Hmax Hex.
  intros Hk. pose proof (ho_chunk _ _ _ _ _ Hok p c Hc) as [E1 E2 E3 E4 E5 E6].
  destruct (decide (k = p)) as [->|Hkp].
  - rewrite (ex_new Hex) in Hk. injection Hk as <-. destruct split_state_facts as (F1 & F2 & F3 & F4 & F5 & F6 & _).
    split; unfold pma_owned; rewrite ?F1, ?F2, ?F3, ?F4, ?F5, ?F6; try done.
    + intros _. apply expand_top.
    + intros _. unfold split_state, state_is. cbn. case_bool_decide as E; [done|]. cbn. by apply E4.
  - destruct (decide (k ∈ subs)) as [[i Hi]%list_elem_of_lookup|Hn].
    + rewrite (ex_kids Hex i k Hi) in Hk. injection Hk as <-. destruct (expand_kid i k Hi) as (Ha & Hl & _).
      destruct (expand_range i k Hi) as (_ & _ & H2). pose proof expand_top.
      split; [|intros H0; cbn in H0; destruct expand_state as [E|E]; unfold pma_owned in H0; cbn in H0; congruence|rewrite Ha, Hl; lia|..].
      * cbn. split; [destruct expand_state as [-> | ->]; done|by intros []].
      * cbn. unfold state_is. intros H3. by rewrite bool_decide_false.
      * done.
      * exact E6.
    + rewrite (ex_rest Hex k Hkp Hn) in Hk. destruct (h !! k) as [d0|] eqn:Ed; [|done]. injection Hk as <-.
      apply chunk_ok_on_suballoc. by apply (ho_chunk _ _ _ _ _ Hok k).
Qed.

Lemma expand_is_free k : k ∉ subs -> is_free h' k = is_free h k.
Proof using Hex.
  intros Hk. unfold is_free. destruct (decide (k = p)) as [->|Hne].
  - rewrite (ex_new Hex), Hc, (proj1 split_state_facts). unfold state_is. destruct expand_state as [-> | ->]; done.
  - rewrite (ex_rest Hex k Hne Hk). by destruct (h !! k).
Qed.

Lemma expand_kid_free k : k ∈ subs -> is_free h' k = false.
Proof using Hex.
  intros [i Hi]%list_elem_of_lookup. unfold is_free. rewrite (ex_kids Hex i k Hi). cbn. unfold state_is.
  destruct expand_state as [-> | ->]; done.
Qed.

(** Where a split chunk comes from. *)
Lemma expand_lookup k d' sa' : h' !! k = Some d' -> c_suballoc d' = Some sa' -> k <> p ->
  exists d sa, (k ∉ subs) /\ h !! k = Some d /\ c_suballoc d = Some sa /\ c_log2_size d' = c_log2_size d /\
    sa' = bump 0 (if decide (root_of c = k) then if pin then n - 1 else 0 else 0) sa.
Proof using Hex.
  intros Hk Hs Hne. destruct (decide (k ∈ subs)) as [[i Hi]%list_elem_of_lookup|Hn].
  { rewrite (ex_kids Hex i k Hi) in Hk. injection Hk as <-. done. }
  rewrite (ex_rest Hex k Hne Hn) in Hk. destruct (h !! k) as [d|]; [|done]. injection Hk as <-. cbn in Hs.
  destruct (c_suballoc d) as [sa|] eqn:E; [|done]. injection Hs as <-. by exists d, sa.
Qed.

(** Nothing is pinned under a root chunk without children. *)
Lemma expand_root_unpinned k : c_log2_size c = ROOT -> pinned_at h p k = false.
Proof using Hok Hex.
  intros Hl. unfold pinned_at. destruct (h !! k) as [d|] eqn:Ed; [|done]. destruct (pinned_under p d) eqn:E; [|done].
  unfold pinned_under in E. apply andb_true_iff in E as [[_ E1]%andb_true_iff E2]. apply negb_true_iff, Z.eqb_neq in E1.
  apply Z.eqb_eq in E2. destruct (heap_root _ _ _ Ht k d Ed) as (rc & Hr & _ & _ & _ & _ & _ & Hs). rewrite E2, Hc in Hr.
  injection Hr as <-. destruct (Hs E1) as [x Hx]. by rewrite expand_leaf in Hx.
Qed.

(** The pinned chunks under a root: the children instead of the chunk. *)
Lemma expand_pcount r :
  pcount h' r = pcount h r + (if decide (root_of c = r) then if pin then if decide (c_log2_size c = ROOT) then n else n - 1 else 0 else 0).
Proof using Hok Hmax Hex.
  set (hm := <[p := split_state c pl subs]> h). destruct split_state_facts as (F1 & _).
  assert (Hm : pcount hm r = pcount h r + (if decide (root_of c = r) then if pin then if decide (c_log2_size c = ROOT) then 0 else -1 else 0 else 0)).
  { rewrite (pcount_change h hm r p).
    - f_equal. unfold pinned_at, hm. rewrite lookup_insert_eq, Hc. unfold pinned_under. rewrite F1. fold pin. cbn [state_is].
      unfold state_is at 1. rewrite bool_decide_false by done. cbn [andb Z.b2z].
      destruct (decide (root_of c = r)) as [E|E].
      + rewrite (proj2 (Z.eqb_eq _ _) E), andb_true_r. destruct pin; [|done]. cbn [andb].
        destruct (decide (c_log2_size c = ROOT)) as [E2|E2]; [by rewrite (proj2 (Z.eqb_eq _ _) E2)|by rewrite (proj2 (Z.eqb_neq _ _) E2)].
      + rewrite (proj2 (Z.eqb_neq _ _) E), andb_false_r. done.
    - intros k Hk. unfold pinned_at, hm. by rewrite lookup_insert_ne. }
  assert (Hkid : forall i k, subs !! i = Some k -> pinned_at h' r k = pin && bool_decide (root_of c = r)).
  { intros i k Hi. unfold pinned_at. rewrite (ex_kids Hex i k Hi). destruct (expand_kid i k Hi) as (_ & Hl & Hr).
    unfold pinned_under. rewrite Hl, Hr. change (c_state (make_subchunk _ _ _ _)) with (c_state c). fold pin.
    destruct (expand_b) as [Hb _]. destruct (heap_log2 _ _ _ Ht p c Hc) as [Hl2 _].
    rewrite (proj2 (Z.eqb_neq b ROOT)), andb_true_r by lia. f_equal. destruct (Z.eqb_spec (root_of c) r); by case_bool_decide. }
  assert (Hrest : forall k, k ∉ subs -> pinned_at h' r k = pinned_at hm r k).
  { intros k Hk. unfold pinned_at, hm. rewrite lookup_insert. destruct (decide (p = k)) as [<-|Hne]; [by rewrite (ex_new Hex)|].
    rewrite (ex_rest Hex k ltac:(congruence) Hk). by destruct (h !! k). }
  assert (Hmk : forall k, k ∈ subs -> pinned_at hm r k = false).
  { intros k Hk. destruct (proj2 (ex_fresh Hex) k Hk) as [_ Hn]. unfold pinned_at, hm. rewrite lookup_insert_ne, Hn by congruence. done. }
  destruct (pin && bool_decide (root_of c = r)) eqn:Epin.
  - apply andb_true_iff in Epin as [Ep Er%bool_decide_eq_true_1]. rewrite (pcount_add hm h' r subs).
    + rewrite Hm, Ep, !(decide_True (P := root_of c = r)) by done. fold n. destruct (decide (c_log2_size c = ROOT)); cbv iota; lia.
    + apply Hex.
    + exact Hmk.
    + intros k. destruct (decide (k ∈ subs)) as [Hk|Hk].
      * apply list_elem_of_lookup in Hk as Hk2. destruct Hk2 as [i Hi]. rewrite (Hkid i k Hi). tauto.
      * rewrite Hrest by done. tauto.
  - rewrite (pcount_ext hm h' r).
    + rewrite Hm. apply andb_false_iff in Epin as [-> | Er%bool_decide_eq_false_1]; [destruct (decide (root_of c = r)); lia|].
      rewrite !(decide_False (P := root_of c = r)) by done. lia.
    + intros k. destruct (decide (k ∈ subs)) as [Hk|Hk]; [|by apply Hrest].
      rewrite Hmk by done. apply list_elem_of_lookup in Hk as [i Hi]. by rewrite (Hkid i k Hi).
Qed.

Lemma expand_ok : heap_ok sizes count max conf h'.
Proof using Hok Hmax Hex.
  destruct split_state_facts as (F1 & F2 & F3 & _). split.
  - apply expand_tree.
  - apply expand_chunks.
  - intros k d' sa' Hk Hs. destruct (decide (k = p)) as [->|Hne].
    + rewrite (ex_new Hex) in Hk. injection Hk as <-. rewrite F2 in Hs. injection Hs as <-. cbn. symmetry.
      apply nonfree_all. apply expand_kid_free.
    + destruct (expand_lookup k d' sa' Hk Hs Hne) as (d & sa & Hn & Hd & Hsa & _ & ->). cbn.
      rewrite Z.add_0_r, (ho_alloc _ _ _ _ _ Hok k d sa Hd Hsa). symmetry. apply nonfree_ext.
      intros j Hj. apply expand_is_free. destruct (heap_subs_elem _ _ _ Ht k d sa j Hd Hsa Hj) as (e & He & _). by eapply expand_old.
  - intros k d' sa' Hk Hl Hs. rewrite expand_pcount. destruct (decide (k = p)) as [->|Hne].
    + rewrite (ex_new Hex) in Hk. injection Hk as <-. rewrite F2 in Hs. injection Hs as <-. cbn [sa_pinned_leaf_chunks].
      rewrite F3 in Hl. rewrite (heap_root_self _ _ _ Ht p c Hc Hl), !decide_True by done. rewrite (ex_pl Hex Hl).
      assert (pcount h p = 0) as ->; [|done]. unfold pcount. replace (pinset h p) with (∅ : gset Z); [done|].
      apply leibniz_equiv. intros j. rewrite elem_of_pinset, expand_root_unpinned by done. set_solver.
    + destruct (expand_lookup k d' sa' Hk Hs Hne) as (d & sa & Hn & Hd & Hsa & Hl2 & ->). cbn [bump sa_pinned_leaf_chunks].
      rewrite (ho_pinned _ _ _ _ _ Hok k d sa Hd) by congruence. destruct (decide (root_of c = k)) as [E|]; [|done].
      rewrite decide_False; [done|]. intros E2. rewrite (heap_root_self _ _ _ Ht p c Hc E2) in E. congruence.
Qed.

Lemma expand_lists L : lists_ok sizes None h L -> lists_ok sizes None h' L.
Proof using Hok Hmax Hex.
  intros [H1 H2]. destruct split_state_facts as (F1 & _ & F3 & _). pose proof expand_state as Hst. split.
  - intros t i z k _. rewrite (H1 t i z k) by done. destruct (decide (k = p)) as [->|Hne].
    { rewrite (ex_new Hex), Hc. split; intros (d & [= <-] & Hs & _); [|congruence]. destruct Hst; congruence. }
    destruct (decide (k ∈ subs)) as [Hk|Hk].
    + destruct (proj2 (ex_fresh Hex) k Hk) as [_ Hn]. apply list_elem_of_lookup in Hk as [j Hj]. rewrite Hn, (ex_kids Hex j k Hj).
      split; [by intros (? & ? & _)|]. intros (d & [= <-] & Hs & _). cbn in Hs. destruct Hst; congruence.
    + rewrite (ex_rest Hex k Hne Hk). destruct (h !! k) as [d|]; [|done]. split; intros (d0 & [= <-] & Hf); eexists; done.
  - intros l k Hl _ Hin. destruct (H2 l k Hl ltac:(done) Hin) as (d & Hd & Hr & Hs). destruct (decide (k = p)) as [->|Hne].
    + rewrite Hc in Hd. injection Hd as <-. exists (split_state c pl subs). rewrite (ex_new Hex), F3, F1. auto.
    + rewrite (ex_rest Hex k Hne (expand_old k d Hd)), Hd. eexists. split; [done|]. done.
Qed.

Lemma expand_coalesced : coalesced h -> coalesced h'.
Proof using Hok Hex.
  intros Hco k d' sa' Hk Hs. destruct (decide (k = p)) as [->|Hne].
  - rewrite (ex_new Hex) in Hk. injection Hk as <-. destruct split_state_facts as (_ & F2 & _). rewrite F2 in Hs. injection Hs as <-.
    cbn. destruct (ex_size Hex) as [_ ->]. apply pow2_pos. destruct expand_b. lia.
  - destruct (expand_lookup k d' sa' Hk Hs Hne) as (d & sa & Hn & Hd & Hsa & _ & ->). cbn. rewrite Z.add_0_r. by eapply Hco.
Qed.

Lemma expand_live_rest k : k <> p -> k ∉ subs -> live h' !! k = live h !! k.
Proof using Hok Hex.
  intros Hne Hk. rewrite !lookup_live, (ex_rest Hex k Hne Hk). destruct (h !! k) as [d|] eqn:Ed; [|done].
  cbn [fmap option_fmap option_map]. change (is_live (on_suballoc _ d)) with (is_live d). destruct (is_live d) eqn:El; [|done].
  apply is_live_iff in El. pose proof (live_leaf _ _ _ _ h k d Hok Ed ltac:(destruct El; congruence)) as Hz.
  unfold on_suballoc. rewrite Hz. by destruct d; cbn in *; subst.
Qed.

Lemma expand_live_p : live h' !! p = None.
Proof using Hex. rewrite lookup_live, (ex_new Hex). unfold is_live. by rewrite (proj1 split_state_facts). Qed.

Lemma expand_live_kid i k : subs !! i = Some k -> live h' !! k = Some (make_subchunk p c (2 ^ b) (Z.of_nat i)).
Proof using Hex.
  intros Hi. rewrite lookup_live, (ex_kids Hex i k Hi). change (is_live (make_subchunk _ _ _ _)) with (is_live c).
  by rewrite (ex_live Hex).
Qed.
End expand.

(** ** [split_gpu_chunk] *)

Section split.
Context (F : fault -> uvm_pmm_gpu_t -> Prop).
Implicit Types (s : uvm_pmm_gpu_t) (h : heap) (p q k : Z) (c d : uvm_gpu_chunk_t).

(** The state after allocations from the caches. *)
Definition grow h (km : list bool) (nx : Z) s : uvm_pmm_gpu_t := with_kmem km (with_next nx (put h (p_lists s) s)).

Lemma wp_kmem_ok (Q : bool -> _ -> Prop) s :
  (forall b km, Q b (grow (p_heap s) km (p_next s) s)) -> wp kmem_ok Q F s.
Proof.
  intros HQ. unfold wp, kmem_ok. destruct (p_kmem s) as [|b km] eqn:E.
  - specialize (HQ false []). unfold grow, put, with_kmem, with_next, with_lists, with_heap in HQ. destruct s; cbn in *; subst. exact HQ.
  - specialize (HQ b km). unfold grow, put, with_kmem, with_next, with_lists, with_heap in *. destruct s; cbn in *; subst. exact HQ.
Qed.

Lemma wp_free_objects l (Q : unit -> _ -> Prop) s :
  NoDup l -> (forall k, k ∈ l -> is_Some (p_heap s !! k)) ->
  Q tt (put (delete_all l (p_heap s)) (p_lists s) s) -> wp (for_each l kmem_cache_free) Q F s.
Proof.
  intros Hnd Hin HQ. apply (wp_for_each (fun pre s' => s' = put (delete_all pre (p_heap s)) (p_lists s) s)).
  - symmetry. apply put_id.
  - intros pre x suf s' -> ->. apply NoDup_app in Hnd as (_ & Hx & _).
    destruct (Hin x ltac:(apply elem_of_app; right; by left)) as [c Hc].
    unfold kmem_cache_free. apply wp_bind. eapply wp_load.
    { cbn. rewrite lookup_delete_all, decide_False; [exact Hc|]. intros H. apply (Hx x H). by left. }
    apply wp_modify. unfold delete_all. by rewrite foldl_app.
  - by intros s' ->.
Qed.

(** The first [i] children are allocated, at the pointers from [p_next s] on. *)
Definition some_kids s p c (sz i : Z) h : Prop :=
  forall k, h !! k = if decide (p_next s <= k < p_next s + i) then Some (make_subchunk p c sz (k - p_next s)) else p_heap s !! k.

Lemma wp_alloc_subchunks s p c sz n (Q : option (list Z) -> _ -> Prop) :
  (forall k, p_next s <= k -> p_heap s !! k = None) -> (c_state c = STATE_ALLOCATED -> c_va_block c <> None) ->
  (forall h km, some_kids s p c sz n h -> Q (Some (seqZ (p_next s) n)) (grow h km (p_next s + n) s)) ->
  (forall km j, 0 <= j <= n -> Q None (grow (p_heap s) km (p_next s + j) s)) ->
  forall m i h km, Z.of_nat m = n - i -> 0 <= i -> some_kids s p c sz i h ->
    wp (alloc_subchunks p c sz n (up i n) (seqZ (p_next s) i)) Q F (grow h km (p_next s + i) s).
Proof.
  intros Hfresh Hva Hall Hfail. induction m as [|m IH]; intros i h km Hm Hi Hk.
  - assert (i = n) as -> by lia. unfold up. replace (n - n) with 0 by lia. cbn. apply wp_ret. by apply Hall.
  - unfold up. rewrite seqZ_cons by lia. replace (Z.succ i) with (i + 1) by lia.
    replace (Z.pred (n - i)) with (n - (i + 1)) by lia. cbn [alloc_subchunks].
    assert (Hbad : forall km', wp (mbind' (for_each (seqZ (p_next s) i) kmem_cache_free) (fun _ => mret' None)) Q F (grow h km' (p_next s + i) s)).
    { intros km'. apply wp_bind, wp_free_objects; [apply NoDup_seqZ| |].
      - intros k Hin%elem_of_seqZ. cbn. rewrite Hk, decide_True by lia. by eexists.
      - apply wp_ret. replace (put _ _ _) with (grow (p_heap s) km' (p_next s + i) s); [apply Hfail; lia|].
        unfold grow, put, with_kmem, with_next, with_lists, with_heap. cbn. f_equal. apply map_eq. intros k.
        rewrite lookup_delete_all. destruct (decide (k ∈ seqZ (p_next s) i)) as [Hin|Hin]; rewrite elem_of_seqZ in Hin.
        + apply Hfresh. lia.
        + rewrite Hk, decide_False by lia. done. }
    apply wp_bind. destruct (c_inject_split_error c && (i =? n - 1)); [apply wp_ret; apply Hbad|].
    apply wp_kmem_ok. intros b km'. destruct b; [|apply Hbad].
    apply wp_bind. unfold wp at 1, new_ptr. apply wp_bind, wp_when; intros Hal.
    1: apply wp_assert; [apply bool_decide_eq_true_1 in Hal; rewrite bool_decide_false by auto; done|].
    all: apply wp_bind, wp_store; cbn [p_next grow with_kmem with_next put with_lists with_heap];
      replace (seqZ (p_next s) i ++ [p_next s + i]) with (seqZ (p_next s) (i + 1)) by (rewrite seqZ_app by lia; f_equal);
      replace (p_next s + i + 1) with (p_next s + (i + 1)) by lia;
      apply (IH (i + 1) (<[p_next s + i := make_subchunk p c sz i]> h) km'); [lia|lia|];
      intros k; rewrite lookup_insert, Hk; destruct (decide (p_next s + i = k)) as [<-|Hne];
      [rewrite decide_True by lia; do 2 f_equal; lia|];
      destruct (decide (p_next s <= k < p_next s + i)); [by rewrite decide_True by lia|by rewrite decide_False by lia].
Qed.

Section one.
Context (s : uvm_pmm_gpu_t) (p : Z) (c : uvm_gpu_chunk_t) (b n : Z) (h1 : heap).
Context (Hok : pmm_ok None s) (Hc : p_heap s !! p = Some c) (Hlive : is_live c = true).
Context (Hb : prev_log (p_chunk_sizes s (c_type c)) (c_log2_size c) = Some b) (Hn : n = 2 ^ (c_log2_size c - b)).
Context (Hkids : some_kids s p c (2 ^ b) n h1).
Let subs := seqZ (p_next s) n.

Lemma split_n : 1 < n <= 2 ^ ROOT /\ 0 <= b < c_log2_size c.
Proof using Hok Hc Hb Hn.
  pose proof (ho_tree _ _ _ _ _ (po_heap _ _ Hok)) as Ht. destruct (heap_log2 _ _ _ Ht p c Hc) as [Hl _].
  apply prev_log_Some in Hb as (Hb' & _); [|apply (mask_nonneg _ _ _ Ht)|apply Hl]. rewrite Hn.
  split; [split; [change 1 with (2 ^ 0); apply Z.pow_lt_mono_r; lia|apply Z.pow_le_mono_r; lia]|lia].
Qed.

Lemma split_length : Z.of_nat (length subs) = n.
Proof using Hok Hc Hb Hn. unfold subs. rewrite length_seqZ. pose proof split_n. lia. Qed.

Lemma split_p : h1 !! p = Some c.
Proof using Hok Hc Hkids.
  rewrite (Hkids p), decide_False; [done|]. intros H. rewrite (proj2 (po_next _ _ Hok) p) in Hc by lia. done.
Qed.

Lemma split_old k : k ∉ subs -> h1 !! k = p_heap s !! k.
Proof using Hkids. unfold subs. rewrite elem_of_seqZ. intros H. rewrite (Hkids k), decide_False by lia. done. Qed.

(** The heap once the chunk itself has changed. *)
Lemma split_expand h' pl :
  (c_log2_size c = ROOT -> pl = if state_is (c_state c) STATE_TEMP_PINNED then n else 0) ->
  h' !! p = Some (split_state c pl subs) ->
  (forall k, k <> p -> h' !! k =
     on_suballoc (bump 0 (if decide (root_of c = k) then if state_is (c_state c) STATE_TEMP_PINNED then n - 1 else 0 else 0)) <$> h1 !! k) ->
  expand (p_chunk_sizes s) (p_count s) (p_heap s) h' p c b pl subs.
Proof using Hok Hc Hlive Hb Hn Hkids.
  intros Hpl Hp Hrest. destruct (po_next _ _ Hok) as [Hcnt Hfresh].
  assert (Hnp : forall k, k ∈ subs -> k <> p /\ p_next s <= k < p_next s + n).
  { intros k Hk. unfold subs in Hk. rewrite elem_of_seqZ in Hk. split; [|lia]. intros ->. rewrite Hfresh in Hc by lia. done. }
  split; rewrite ?split_length; try done.
  - split; [apply NoDup_seqZ|]. intros k Hk. destruct (Hnp k Hk) as [_ Hr]. split; [lia|]. apply Hfresh. lia.
  - intros i k Hi. destruct (Hnp k) as [Hne Hr]; [apply list_elem_of_lookup; eauto|].
    rewrite (Hrest k Hne), (Hkids k), (decide_True (P := p_next s <= k < p_next s + n)) by lia. unfold subs in Hi. apply lookup_seqZ in Hi as [-> Hi].
    cbn [fmap option_fmap option_map]. f_equal. unfold on_suballoc. cbn.
    unfold make_subchunk. replace (p_next s + Z.of_nat i - p_next s) with (Z.of_nat i) by lia. done.
  - intros k Hne Hk. rewrite (Hrest k Hne). by rewrite split_old.
Qed.

Lemma split_root_ne : c_log2_size c <> ROOT -> root_of c <> p /\ root_of c ∉ subs.
Proof using Hok Hc Hkids.
  intros Hl. pose proof (ho_tree _ _ _ _ _ (po_heap _ _ Hok)) as Ht.
  destruct (heap_root _ _ _ Ht p c Hc) as (rc & Hr & Hrl & _). split; [intros E; rewrite E in Hr; congruence|].
  unfold subs. rewrite elem_of_seqZ. intros H. rewrite (proj2 (po_next _ _ Hok)) in Hr by lia. done.
Qed.

(** The heap of the state the critical section starts from, and what has to be shown
    of the one it ends in. *)
Context (km : list bool) (Q : unit -> uvm_pmm_gpu_t -> Prop).
Let s1 := grow h1 km (p_next s + n) s.
Let moved k : Z := if decide (root_of c = k) then if state_is (c_state c) STATE_TEMP_PINNED then n - 1 else 0 else 0.
Context (Hend : forall h' pl, (c_log2_size c = ROOT -> pl = if state_is (c_state c) STATE_TEMP_PINNED then n else 0) ->
  h' !! p = Some (split_state c pl subs) -> (forall k, k <> p -> h' !! k = on_suballoc (bump 0 (moved k)) <$> h1 !! k) ->
  Q tt (grow h' km (p_next s + n) s)).

Ltac finish pl :=
  cbn [p_heap put with_lists with_heap];
  match goal with |- _ _ (put ?A _ _) => apply (Hend A pl) end; cbn [p_heap grow put with_lists with_heap with_kmem with_next].

Lemma bump_other k : moved k = 0 -> h1 !! k = on_suballoc (bump 0 (moved k)) <$> h1 !! k.
Proof. intros ->. destruct (h1 !! k); [|done]. cbn. by rewrite on_suballoc_0. Qed.

Lemma bump_pinned sa (dP : Z) : 0 <= sa_pinned_leaf_chunks sa + dP <= 2 * 2 ^ ROOT ->
  set_pinned_leaf_chunks (u32 (sa_pinned_leaf_chunks sa + dP)) sa = bump 0 dP sa.
Proof. intros H. unfold set_pinned_leaf_chunks, bump. f_equal; [lia|]. apply u32_small. unfold is_u32, ROOT in *. lia. Qed.

Lemma wp_commit_allocated : c_state c = STATE_ALLOCATED -> wp (commit_split p (root_of c) c n subs) Q F s1.
Proof using Hok Hc Hb Hn Hkids Hend.
  intros Hst. unfold commit_split. apply wp_bind. eapply wp_update; [apply split_p|]. apply wp_bind. rewrite Hst.
  change (state_is STATE_ALLOCATED STATE_ALLOCATED) with true. eapply wp_update; [apply lookup_insert_eq|].
  eapply wp_update; [apply lookup_insert_eq|]. cbn [p_heap put with_lists with_heap]. rewrite !insert_insert_eq. finish 0.
  - intros _. by rewrite Hst.
  - rewrite lookup_insert_eq, <- split_length. unfold split_state, state_is. cbn. by rewrite Hst.
  - intros k Hne. rewrite lookup_insert_ne by done. apply bump_other. unfold moved. rewrite Hst. by destruct (decide _).
Qed.

Lemma wp_commit_root : c_state c = STATE_TEMP_PINNED -> c_log2_size c = ROOT -> wp (commit_split p (root_of c) c n subs) Q F s1.
Proof using Hok Hc Hb Hn Hkids Hend.
  intros Hst Hr. pose proof (ho_tree _ _ _ _ _ (po_heap _ _ Hok)) as Ht. pose proof split_n as [Hnr _].
  pose proof (heap_root_self _ _ _ Ht p c Hc Hr) as Hself.
  assert (Hroot : chunk_is_root_chunk c = true) by (unfold chunk_is_root_chunk, uvm_gpu_chunk_get_size; by rewrite Hr).
  unfold commit_split. rewrite Hself, Hst, Hroot. apply wp_bind. eapply wp_update; [apply split_p|]. apply wp_bind.
  change (state_is STATE_TEMP_PINNED STATE_ALLOCATED) with false. change (state_is STATE_TEMP_PINNED STATE_TEMP_PINNED) with true. cbn [when].
  apply wp_bind. eapply (wp_update_suballoc _ _ _ (bump 0 (n - 1))); [apply lookup_insert_eq|done|apply bump_pinned; cbn; lia|].
  cbn [p_heap p_lists put with_lists with_heap]. rewrite alter_insert_eq.
  eapply (wp_update_suballoc _ _ _ (bump 0 1)); [apply lookup_insert_eq|done|apply bump_pinned; cbn; lia|].
  cbn [p_heap p_lists put with_lists with_heap]. rewrite alter_insert_eq, on_suballoc_bump.
  eapply wp_update; [apply lookup_insert_eq|]. cbn [p_heap put with_lists with_heap]. rewrite insert_insert_eq. finish n.
  - intros _. by rewrite Hst.
  - rewrite lookup_insert_eq. unfold split_state, state_is, on_suballoc, bump. cbn. rewrite Hst, bool_decide_false by done.
    rewrite split_length. cbn. replace (0 + (n - 1 + 1)) with n by lia. by replace (n + (0 + 0)) with n by lia.
  - intros k Hne. rewrite lookup_insert_ne by done. apply bump_other. unfold moved. by rewrite decide_False by congruence.
Qed.

Lemma wp_commit_leaf : c_state c = STATE_TEMP_PINNED -> c_log2_size c <> ROOT -> wp (commit_split p (root_of c) c n subs) Q F s1.
Proof using Hok Hc Hb Hn Hkids Hend.
  intros Hst Hr. pose proof (po_heap _ _ Hok) as Hh. pose proof (ho_tree _ _ _ _ _ Hh) as Ht. pose proof split_n as [Hnr _].
  destruct (heap_log2 _ _ _ Ht p c Hc) as [Hl _]. destruct (split_root_ne Hr) as [Hrp Hrs].
  destruct (heap_root _ _ _ Ht p c Hc) as (rc & Hrc & Hrl & _ & _ & _ & _ & Hrsub). destruct (Hrsub Hr) as [rsa Hrsa].
  pose proof (ho_pinned _ _ _ _ _ Hh _ rc rsa Hrc Hrl Hrsa) as Hpin. pose proof (pcount_bound _ _ _ _ _ (root_of c) Hh) as Hpb.
  unfold commit_split. rewrite Hst, is_root_eq by lia. apply wp_bind. eapply wp_update; [apply split_p|]. apply wp_bind.
  change (state_is STATE_TEMP_PINNED STATE_ALLOCATED) with false. change (state_is STATE_TEMP_PINNED STATE_TEMP_PINNED) with true.
  rewrite (proj2 (Z.eqb_neq _ _) Hr). cbn [when]. apply wp_bind. eapply (wp_update_suballoc _ _ _ (bump 0 (n - 1))).
  - cbn. rewrite lookup_insert_ne, split_old by done. exact Hrc.
  - exact Hrsa.
  - apply bump_pinned. unfold pcount in *. lia.
  - apply wp_ret. eapply wp_update; [cbn; rewrite lookup_alter_ne by done; apply lookup_insert_eq|]. finish 0.
    + done.
    + rewrite lookup_insert_eq, <- split_length. unfold split_state, state_is. cbn. by rewrite Hst.
    + intros k Hne. rewrite lookup_insert_ne, lookup_alter by done. unfold moved. rewrite Hst.
      change (state_is STATE_TEMP_PINNED STATE_TEMP_PINNED) with true.
      destruct (decide (root_of c = k)) as [<-|]; rewrite lookup_insert_ne by done; [done|].
      change (p_heap s1) with h1. destruct (h1 !! k); [|done]. cbn. by rewrite on_suballoc_0.
Qed.

Lemma wp_commit_split : wp (commit_split p (root_of c) c n subs) Q F s1.
Proof using Hok Hc Hlive Hb Hn Hkids Hend.
  destruct (proj1 (is_live_iff c) Hlive) as [Hst|Hst]; [by apply wp_commit_allocated|].
  destruct (decide (c_log2_size c = ROOT)); [by apply wp_commit_root|by apply wp_commit_leaf].
Qed.
End one.

Lemma wp_split_gpu_chunk p c b (Q : NV_STATUS -> _ -> Prop) s :
  pmm_ok None s -> p_heap s !! p = Some c -> is_live c = true -> (c_state c = STATE_ALLOCATED -> c_va_block c <> None) ->
  prev_log (p_chunk_sizes s (c_type c)) (c_log2_size c) = Some b ->
  (forall km j, 0 <= j -> Q NV_ERR_NO_MEMORY (grow (p_heap s) km (p_next s + j) s)) ->
  (forall h' km n pl, n = 2 ^ (c_log2_size c - b) ->
     expand (p_chunk_sizes s) (p_count s) (p_heap s) h' p c b pl (seqZ (p_next s) n) -> Q NV_OK (grow h' km (p_next s + n) s)) ->
  wp (split_gpu_chunk p) Q F s.
Proof.
  intros Hok Hc Hlive Hva Hb Hfail Hsucc. pose proof (po_heap _ _ Hok) as Hh. pose proof (ho_tree _ _ _ _ _ Hh) as Ht.
  destruct (heap_log2 _ _ _ Ht p c Hc) as [Hl Hbit]. destruct (split_n s p c b _ Hok Hc Hb eq_refl) as [Hnr Hbr].
  set (n := 2 ^ (c_log2_size c - b)) in *. pose proof (proj1 (is_live_iff c) Hlive) as Hst.
  unfold split_gpu_chunk. apply wp_bind. eapply wp_load; [done|]. apply wp_bind, wp_get.
  apply wp_bind. eapply wp_root_chunk_from_chunk; [done|done| |apply Hok|].
  { eapply chunk_addr; [done..|]. unfold pma_owned. destruct Hst as [-> | ->]; done. }
  apply wp_bind, wp_assert; [exact Hlive|]. rewrite chunk_size_eq by lia.
  apply wp_bind. eapply wp_of_assert; [rewrite find_prev_size_spec, Hb by (done || lia); done|].
  apply wp_bind, wp_assert.
  { apply negb_true_iff, Z.eqb_neq. change UVM_CHUNK_SIZE_INVALID with (2 ^ (ROOT + 1)). intros E.
    apply Z.pow_inj_r in E; lia. }
  rewrite <- (Z.pow_sub_r 2 (c_log2_size c) b) by lia. fold n.
  apply wp_bind, wp_kmem_ok. intros ok km0. destruct ok; cbn [negb].
  2: { apply wp_ret. specialize (Hfail km0 0 ltac:(lia)). rewrite Z.add_0_r in Hfail. exact Hfail. }
  apply wp_bind. replace (p_next s) with (p_next s + 0) at 1 by lia.
  apply (wp_alloc_subchunks s p c (2 ^ b) n _ (proj2 (po_next _ _ Hok)) Hva) with (m := Z.to_nat n); [| |lia|lia|].
  2: { intros km j Hj. apply wp_ret. apply Hfail. lia. }
  2: { intros k. by rewrite decide_False by lia. }
  intros h1 km Hk. apply wp_bind. apply (wp_commit_split s p c b n h1); try done.
  intros h' pl H1 H2 H3. apply wp_ret. apply (Hsucc h' km n pl eq_refl). by apply (split_expand s p c b n h1).
Qed.
End split.
