(* ===== verification/UvmPmmAlloc.v ===== *)
(** Allocation: splitting a bigger chunk down to the size asked for. *)

From S2P Require Import Prelude UvmBits UvmCommon UvmTlbBatch UvmTracker UvmPmm UvmPmmTree UvmPmmInv UvmPmmOps UvmPmmLeaf UvmPmmMerge UvmPmmFree UvmPmmSplit.
Local Open Scope Z_scope.

Section alloc.
Context (F : fault -> uvm_pmm_gpu_t -> Prop).
Implicit Types (s : uvm_pmm_gpu_t) (h : heap) (p q k : Z) (c d : uvm_gpu_chunk_t) (sa : uvm_pmm_gpu_chunk_suballoc_t).

(** ** The state after a split *)

Lemma pmm_ok_grow s km j : pmm_ok None s -> 0 <= j -> pmm_ok None (grow (p_heap s) km (p_next s + j) s).
Proof.
  intros [H1 H2 [H3 H3'] [E1 E2 E3] H5] Hj. split; [done|done| |by split|done].
  cbn. split; [lia|]. intros k Hk. apply H3'. lia.
Qed.

Lemma pmm_ok_expand s km h' p c b pl n :
  pmm_ok None s -> 0 <= n -> expand (p_chunk_sizes s) (p_count s) (p_heap s) h' p c b pl (seqZ (p_next s) n) ->
  pmm_ok None (grow h' km (p_next s + n) s).
Proof.
  intros Hok Hn Hex. pose proof (eo_max _ (po_env _ _ Hok)) as Hmax. pose proof (po_heap _ _ Hok) as Hh. split.
  - by eapply expand_ok.
  - eapply expand_lists; [exact Hh|exact Hmax|exact Hex|apply Hok].
  - destruct (po_next _ _ Hok) as [Hc Hfr]. cbn. split; [lia|]. intros k Hk.
    rewrite (ex_rest _ _ _ _ _ _ _ _ _ Hex k).
    + by rewrite Hfr by lia.
    + intros ->. pose proof (ex_old _ _ _ _ _ _ _ _ _ Hex) as E. rewrite Hfr in E by lia. done.
    + rewrite elem_of_seqZ. lia.
  - destruct (po_env _ _ Hok). by split.
  - intros r d Hr Hl Hnp. cbn in *. destruct (decide (r = p)) as [->|Hne].
    + apply (po_trackers _ _ Hok p c (ex_old _ _ _ _ _ _ _ _ _ Hex)).
      * rewrite (ex_new _ _ _ _ _ _ _ _ _ Hex) in Hr. injection Hr as <-. by rewrite (proj1 (proj2 (proj2 (split_state_facts _ _ _)))) in Hl.
      * pose proof (expand_state _ _ _ _ _ _ _ _ _ Hex) as [Hs|Hs]; unfold pma_owned; by rewrite Hs.
    + destruct (decide (r ∈ seqZ (p_next s) n)) as [[i Hi]%list_elem_of_lookup|Hni].
      * rewrite (ex_kids _ _ _ _ _ _ _ _ _ Hex i r Hi) in Hr. injection Hr as <-.
        destruct (expand_kid _ _ _ _ _ _ _ _ _ _ _ Hh Hmax Hex i r Hi) as (_ & Hlb & _).
        destruct (expand_b _ _ _ _ _ _ _ _ _ _ _ Hh Hex) as [Hb _].
        destruct (heap_log2 _ _ _ (ho_tree _ _ _ _ _ Hh) p c (ex_old _ _ _ _ _ _ _ _ _ Hex)) as [Hlc _]. lia.
      * rewrite (ex_rest _ _ _ _ _ _ _ _ _ Hex r Hne Hni) in Hr. destruct (p_heap s !! r) as [d0|] eqn:Ed; [|done].
        injection Hr as <-. by apply (po_trackers _ _ Hok r d0).
Qed.

(** ** Freeing the children that are not needed *)

Lemma nonfree_two h l a b : a ∈ l -> b ∈ l -> a <> b -> is_free h a = false -> is_free h b = false -> 2 <= nonfree h l.
Proof.
  induction l as [|x l IH]; intros Ha Hb Hne Fa Fb; [by apply not_elem_of_nil in Ha|]. rewrite nonfree_cons.
  apply elem_of_cons in Ha as [->|Ha]; apply elem_of_cons in Hb as [->|Hb].
  - done.
  - rewrite Fa. pose proof (nonfree_pos h l b Hb Fb). cbn. lia.
  - rewrite Fb. pose proof (nonfree_pos h l a Ha Fa). cbn. lia.
  - specialize (IH Ha Hb Hne Fa Fb). destruct (is_free h x); cbn; lia.
Qed.

Lemma live_lookup h k c : live h !! k = Some c <-> h !! k = Some c /\ is_live c = true.
Proof.
  rewrite lookup_live. destruct (h !! k) as [d|]; [|split; [done|by intros [? _]]].
  destruct (is_live d) eqn:E; split; [intros [= <-]; done|by intros [[= <-] _]|done|intros [[= <-] ?]; congruence].
Qed.

Lemma live_not_free h k c : live h !! k = Some c -> is_free h k = false.
Proof. intros [Hk Hl]%live_lookup. unfold is_free. rewrite Hk. apply is_live_iff in Hl as [-> | ->]; done. Qed.

(** The children [l] are freed while their sibling [q0] stays in use. *)
Lemma wp_free_siblings q0 l p (Q : unit -> _ -> Prop) s :
  pmm_ok None s -> coalesced (p_heap s) -> NoDup (q0 :: l) ->
  (forall k, k ∈ q0 :: l -> exists c, live (p_heap s) !! k = Some c /\ c_parent c = Some p) ->
  (forall h' L', pmm_ok None (put h' L' s) -> coalesced h' -> live h' = delete_all l (live (p_heap s)) -> Q tt (put h' L' s)) ->
  wp (for_each l chunk_free_locked) Q F s.
Proof.
  intros Hok Hco Hnd Hkids HQ.
  apply (wp_for_each (fun pre s' => exists h' L', s' = put h' L' s /\ pmm_ok None s' /\ coalesced h' /\ live h' = delete_all pre (live (p_heap s)))).
  - exists (p_heap s), (p_lists s). by rewrite put_id.
  - intros pre x suf s' -> (h' & L' & -> & Hok' & Hco' & Hlive').
    apply NoDup_cons in Hnd as [Hq0 Hnd]. apply NoDup_app in Hnd as (_ & Hx & _).
    assert (Hxp : x ∉ pre) by (intros H; apply (Hx x H); by left).
    assert (Hin : x ∈ pre ++ x :: suf) by (apply elem_of_app; right; by left).
    destruct (Hkids x ltac:(by right)) as (c & Hc & Hpc), (Hkids q0 ltac:(by left)) as (c0 & Hc0 & Hpc0).
    assert (Hcl : live h' !! x = Some c) by by rewrite Hlive', lookup_delete_all, decide_False.
    assert (Hc0l : live h' !! q0 = Some c0).
    { rewrite Hlive', lookup_delete_all, decide_False; [done|]. intros H. apply Hq0. apply elem_of_app. by left. }
    apply live_lookup in Hcl as Hcl2. destruct Hcl2 as [Hch Hlc]. apply live_lookup in Hc0l as Hc0l2. destruct Hc0l2 as [Hc0h _].
    eapply wp_chunk_free_locked; [exact Hok'|by left|exact Hch|exact Hlc|]. intros h2 L2 Hrt Hok2. exists h2, L2.
    split; [done|]. split; [done|]. pose proof (ho_tree _ _ _ _ _ (po_heap _ _ Hok')) as Ht'. cbn in Ht', Hrt. split.
    + eapply retag_coalesced; [exact Hco'|exact Hrt|]. intros q d sa Hq Hd Hsa. assert (q = p) as -> by congruence.
      destruct (heap_parent _ _ _ Ht' x c p Hch Hpc) as (d1 & sa1 & i1 & Hd1 & Hsa1 & Hi1 & _).
      destruct (heap_parent _ _ _ Ht' q0 c0 p Hc0h Hpc0) as (d2 & sa2 & i2 & Hd2 & Hsa2 & Hi2 & _).
      assert (d1 = d) as -> by congruence. assert (d2 = d) as -> by congruence. simplify_eq.
      rewrite (ho_alloc _ _ _ _ _ (po_heap _ _ Hok') p d sa Hd Hsa). cbn.
      pose proof (nonfree_two h' (sa_subchunks sa) x q0) as Htwo.
      assert (2 <= nonfree h' (sa_subchunks sa)); [|lia]. apply Htwo.
      * apply list_elem_of_lookup; eauto.
      * apply list_elem_of_lookup; eauto.
      * intros ->. done.
      * by eapply live_not_free.
      * by eapply live_not_free.
    + rewrite (freed_live _ _ _ _ _ _ Hok' Hrt). cbn. rewrite Hlive'. unfold delete_all. by rewrite foldl_app.
  - intros s' (h' & L' & -> & H1 & H2 & H3). by apply HQ.
Qed.

(** ** Going down to the size asked for *)

Lemma wp_assert_claimed t p c (Q : unit -> _ -> Prop) s :
  pmm_ok None s -> p_heap s !! p = Some c -> c_state c = STATE_TEMP_PINNED -> c_type c = t -> Q tt s ->
  wp (assert_claimed t (2 ^ c_log2_size c) p) Q F s.
Proof.
  intros Hok Hc Hs <- HQ. pose proof (po_heap _ _ Hok) as Hh. pose proof (ho_tree _ _ _ _ _ Hh) as Ht.
  destruct (heap_log2 _ _ _ Ht p c Hc) as [Hl _]. pose proof (to_masks _ _ _ Ht (c_type c)) as Hmask.
  unfold assert_claimed. apply wp_bind. eapply wp_load; [done|]. apply wp_bind, wp_get.
  apply wp_bind, wp_assert; [rewrite chunk_size_eq by lia; apply Z.eqb_refl|].
  apply wp_bind, wp_assert; [by rewrite bool_decide_true|]. apply wp_bind, wp_assert; [by rewrite Hs|].
  destruct (c_parent c) as [q|] eqn:Eq; [|by apply wp_ret].
  destruct (heap_parent _ _ _ Ht p c q Hc Eq) as (d & sa & i & Hd & Hsa & Hi & Hty & Hprev & _).
  destruct (heap_log2 _ _ _ Ht q d Hd) as [Hld Hbd]. pose proof (alloc_bound _ _ _ _ _ q d sa Hh Hd Hsa) as Hb.
  assert (Hsd : c_state d = STATE_IS_SPLIT) by (apply (ho_chunk _ _ _ _ _ Hh q d Hd); by rewrite Hsa).
  apply wp_bind. eapply wp_load; [done|]. apply wp_bind. eapply wp_of_assert; [done|].
  apply wp_bind. eapply wp_of_assert; [eapply find_next_size_spec; [apply Hmask|exact Hld|by rewrite <- Hty|done]|].
  apply wp_bind, wp_assert; [rewrite chunk_size_eq by lia; apply Z.eqb_refl|].
  apply wp_bind, wp_assert; [by rewrite bool_decide_true|].
  apply wp_bind. eapply wp_num_subchunks; [done..|]. apply wp_assert; [apply Z.leb_le; lia|done].
Qed.

(** There is a size in between. *)
Lemma prev_log_above m k k0 :
  0 <= m -> 0 <= k0 < k -> Z.testbit m k0 = true -> exists b, prev_log m k = Some b /\ k0 <= b < k.
Proof.
  intros Hm Hk Hb. destruct (prev_log m k) as [b|] eqn:E.
  - exists b. split; [done|]. apply prev_log_Some in E as (H1 & H2 & H3); [|lia..].
    split; [|lia]. destruct (Z.le_gt_cases k0 b); [done|]. rewrite H3 in Hb by lia. done.
  - rewrite (prev_log_None m k) in Hb by (done || lia). done.
Qed.

(** What an allocation of a chunk of [2^k0] bytes gives. *)
Definition fresh_chunk s s' (old : heap) (t : uvm_pmm_gpu_memory_type_t) (k0 q : Z) : Prop :=
  pmm_ok None s' /\ frame s s' /\ coalesced (p_heap s') /\ old !! q = None /\
  exists c', live (p_heap s') = <[q := c']> old /\ c_state c' = STATE_TEMP_PINNED /\ c_type c' = t /\ c_log2_size c' = k0.

Definition kept s s' (old : heap) : Prop :=
  pmm_ok None s' /\ frame s s' /\ coalesced (p_heap s') /\ live (p_heap s') = old.

Lemma frame_grow h km nx s : frame s (grow h km nx s).
Proof. done. Qed.

(** All children but the first are freed, and the first is set aside. *)
Lemma split_rest_live sizes count max conf h h' h2 p c b pl q0 l subs :
  heap_ok sizes count max conf h -> expand sizes count h h' p c b pl subs -> q0 :: l = subs -> q0 ∉ l ->
  live h2 = delete_all l (live h') -> delete q0 (live h2) = delete p (live h).
Proof.
  intros Hh Hex Hq0 Hnl Hlive2.
  assert (Hnew : forall k, k ∈ q0 :: l -> live h !! k = None).
  { intros k Hk. rewrite Hq0 in Hk. destruct (proj2 (ex_fresh _ _ _ _ _ _ _ _ _ Hex) k Hk) as [_ Hn0]. by rewrite lookup_live, Hn0. }
  apply map_eq. intros k. rewrite !lookup_delete. destruct (decide (q0 = k)) as [<-|Hkq].
  - destruct (decide (p = q0)); [done|]. by rewrite Hnew by by left.
  - rewrite Hlive2, lookup_delete_all. destruct (decide (k ∈ l)) as [Hkl|Hkl].
    + destruct (decide (p = k)); [done|]. by rewrite Hnew by by right.
    + destruct (decide (p = k)) as [<-|Hpk]; [by eapply expand_live_p|].
      assert (Hkn : k ∉ subs) by (rewrite <- Hq0; intros [->|?]%elem_of_cons; done).
      eapply expand_live_rest; [exact Hh|exact Hex|done|exact Hkn].
Qed.

Lemma wp_split_down t k0 fuel : forall p c (Q : NV_STATUS * option Z -> _ -> Prop) s,
  pmm_ok None s -> coalesced (p_heap s) -> p_heap s !! p = Some c -> c_state c = STATE_TEMP_PINNED -> c_type c = t ->
  0 <= k0 <= c_log2_size c -> Z.testbit (p_chunk_sizes s t) k0 = true -> c_log2_size c - k0 < Z.of_nat fuel ->
  (forall q s', fresh_chunk s s' (delete p (live (p_heap s))) t k0 q -> Q (NV_OK, Some q) s') ->
  (forall s', kept s s' (delete p (live (p_heap s))) -> Q (NV_ERR_NO_MEMORY, None) s') ->
  wp (split_down fuel t (2 ^ k0) (2 ^ c_log2_size c) p) Q F s.
Proof.
  induction fuel as [|fuel IH]; intros p c Q s Hok Hco Hc Hs Hty Hk0 Hbit Hfuel HQ Herr; [lia|].
  pose proof (po_heap _ _ Hok) as Hh. pose proof (ho_tree _ _ _ _ _ Hh) as Ht. destruct (heap_log2 _ _ _ Ht p c Hc) as [Hl Hbc].
  assert (Hlive : is_live c = true) by (apply is_live_iff; by right). cbn [split_down].
  rewrite (proj2 (Z.eqb_neq (2 ^ c_log2_size c) UVM_CHUNK_SIZE_INVALID)).
  2: { change UVM_CHUNK_SIZE_INVALID with (2 ^ (ROOT + 1)). intros E. apply Z.pow_inj_r in E; unfold ROOT in *; lia. }
  apply wp_bind. eapply wp_assert_claimed; [done..|].
  destruct (Z.eqb_spec (2 ^ c_log2_size c) (2 ^ k0)) as [E|E].
  { apply Z.pow_inj_r in E; [|lia..]. apply wp_ret, HQ. split; [done|]. split; [done|]. split; [done|].
    split; [apply lookup_delete_eq|]. exists c. split_and!; try done. rewrite insert_delete_id; [done|]. by apply live_lookup. }
  assert (Hlt : k0 < c_log2_size c) by (destruct (decide (k0 = c_log2_size c)) as [->|]; [done|lia]).
  destruct (prev_log_above (p_chunk_sizes s t) (c_log2_size c) k0) as (b & Hb & Hbk); [apply (mask_nonneg _ _ _ Ht)|lia|done|].
  assert (Hb' : prev_log (p_chunk_sizes s (c_type c)) (c_log2_size c) = Some b) by by rewrite Hty.
  apply wp_bind. eapply (wp_split_gpu_chunk _ p c b); [done|done|done|congruence|done| |].
  { intros km j Hj. rewrite decide_False by done. apply wp_bind.
    eapply (wp_free_chunk_with_merges _ _ None p c); [by apply pmm_ok_grow|by left|done|done|done|congruence|by apply fuel_enough|].
    intros h' L' H1 H2 H3. apply wp_ret, Herr. split; [exact H1|]. split; [done|]. split; [exact H2|exact H3]. }
  intros h' km n pl Hn Hex. rewrite decide_True by done.
  destruct (split_n s p c b n Hok Hc Hb' Hn) as [Hnr _].
  pose proof (pmm_ok_expand s km h' p c b pl n Hok ltac:(lia) Hex) as Hok'. set (s1 := grow h' km (p_next s + n) s) in *.
  pose proof (eo_max _ (po_env _ _ Hok)) as Hmax. pose proof (ho_tree _ _ _ _ _ (po_heap _ _ Hok')) as Ht1.
  destruct (split_state_facts c pl (seqZ (p_next s) n)) as (F1 & F2 & _).
  assert (Hsubs : seqZ (p_next s) n = p_next s :: seqZ (p_next s + 1) (n - 1)).
  { rewrite seqZ_cons by lia. f_equal; f_equal; lia. }
  set (q0 := p_next s) in *. set (l := seqZ (q0 + 1) (n - 1)) in *.
  apply wp_bind. eapply wp_load; [apply Hex|]. apply wp_bind. eapply wp_suballoc_of; [exact F2|]. cbn [sa_subchunks].
  apply wp_bind. eapply wp_of_option; [by rewrite Hsubs|].
  apply wp_bind. eapply wp_num_subchunks; [exact Ht1|apply Hex|exact F1|exact F2|]. rewrite Hsubs. cbn [tail].
  assert (Hq0 : q0 :: l = seqZ (p_next s) n) by done.
  apply wp_bind. apply (wp_free_siblings q0 l p); [exact Hok'| |rewrite Hq0; apply NoDup_seqZ| |].
  { eapply expand_coalesced; [exact Hh|exact Hex|exact Hco]. }
  { intros k [i Hi]%list_elem_of_lookup. rewrite Hq0 in Hi. eexists. split; [by eapply (expand_live_kid _ _ _ _ _ _ _ _ _ Hex)|done]. }
  intros h2 L2 Hok2 Hco2 Hlive2. apply wp_bind, wp_get. apply wp_bind. eapply wp_of_assert.
  { etransitivity; [eapply (find_prev_size_spec (p_chunk_sizes s t)); [lia|by rewrite <- Hty]|]. by rewrite Hb. }
  assert (Hi0 : seqZ (p_next s) n !! 0%nat = Some q0) by (rewrite <- Hq0; done).
  destruct (expand_kid _ _ _ _ _ _ _ _ _ _ _ Hh Hmax Hex 0%nat q0 Hi0) as (_ & Hl0 & _).
  set (c0 := make_subchunk p c (2 ^ b) (Z.of_nat 0)) in *.
  pose proof (expand_live_kid _ _ _ _ _ _ _ _ _ Hex 0%nat q0 Hi0) as Hlv0.
  assert (Hnl : q0 ∉ l) by (unfold l; rewrite elem_of_seqZ; lia).
  assert (Hc0 : live h2 !! q0 = Some c0) by (rewrite Hlive2; cbn; by rewrite lookup_delete_all, decide_False).
  apply live_lookup in Hc0 as [Hc0 _].
  assert (Hold : delete q0 (live h2) = delete p (live (p_heap s))).
  { eapply split_rest_live; [exact Hh|exact Hex|exact Hq0|done|exact Hlive2]. }
  rewrite <- Hl0. eapply (IH q0 c0); [exact Hok2|exact Hco2|exact Hc0|exact Hs|exact Hty|lia|exact Hbit|lia| |].
  - intros q s' (H1 & H2 & H3 & H4). apply HQ. split; [done|]. split; [by destruct H2; split|]. split; [done|]. by rewrite <- Hold.
  - intros s' (H1 & H2 & H3 & H4). apply Herr. split; [done|]. split; [by destruct H2; split|]. split; [done|]. by rewrite <- Hold.
Qed.
(** ** A bigger free chunk *)

Lemma wp_claim_bigger t fuel : forall k (Q : option Z * Z -> _ -> Prop) s,
  pmm_ok None s -> 0 <= k <= ROOT -> Z.testbit (p_chunk_sizes s t) k = true -> ROOT - k < Z.of_nat fuel ->
  Q (None, UVM_CHUNK_SIZE_INVALID) s ->
  (forall p c h' L', p_heap s !! p = Some c -> c_state c = STATE_FREE -> c_type c = t -> k <= c_log2_size c ->
     retag (p_heap s) h' p c (set_chunk_state STATE_TEMP_PINNED c) 1 1 -> pmm_ok None (put h' L' s) ->
     (coalesced (p_heap s) -> coalesced h') -> Q (Some p, 2 ^ c_log2_size c) (put h' L' s)) ->
  wp (claim_bigger fuel t (2 ^ k)) Q F s.
Proof.
  induction fuel as [|fuel IH]; intros k Q s Hok Hk Hbit Hfuel Hnone Hsome; [lia|]. cbn [claim_bigger].
  pose proof (to_masks _ _ _ (ho_tree _ _ _ _ _ (po_heap _ _ Hok)) t) as Hmask.
  rewrite (proj2 (Z.eqb_neq (2 ^ k) UVM_CHUNK_SIZE_INVALID)).
  2: { change UVM_CHUNK_SIZE_INVALID with (2 ^ (ROOT + 1)). intros E. apply Z.pow_inj_r in E; unfold ROOT in *; lia. }
  apply wp_bind. eapply wp_claim_free_chunk; [done..| |].
  2: { intros p c h' L' H1 H2 H3 <- H5 H6 H7. apply wp_ret. by apply Hsome. }
  intros _. apply wp_bind, wp_get. apply wp_bind. destruct (decide (k = ROOT)) as [->|Hne].
  - eapply wp_of_assert; [by apply find_next_size_root; apply Hmask|]. by destruct fuel.
  - destruct (next_log (p_chunk_sizes s t) k Hmask ltac:(lia) Hbit) as (k' & Hk' & Hbit' & Hprev).
    eapply wp_of_assert; [eapply find_next_size_spec; [apply Hmask| |exact Hbit'|exact Hprev]; lia|].
    apply IH; [done|lia|done|lia|done|]. intros p c h' L' H1 H2 H3 H4. apply Hsome; try done. lia.
Qed.
End alloc.
