(* ===== verification/UvmPmmRoot.v ===== *)
(** Root chunks from PMA, and allocation as a whole: a free chunk of the size, a
    bigger one that is split, or a new root chunk. *)

From S2P Require Import Prelude UvmBits UvmCommon UvmTlbBatch UvmTracker UvmPmm UvmPmmTree UvmPmmInv UvmPmmOps UvmPmmLeaf UvmPmmMerge UvmPmmFree UvmPmmSplit UvmPmmAlloc.
Local Open Scope Z_scope.

Section root.
Context (F : fault -> uvm_pmm_gpu_t -> Prop).
Implicit Types (s : uvm_pmm_gpu_t) (h : heap) (p q k : Z) (c d : uvm_gpu_chunk_t) (sa : uvm_pmm_gpu_chunk_suballoc_t).

(** ** Root chunks from PMA *)

Definition type_ok s (t : uvm_pmm_gpu_memory_type_t) : Prop :=
  p_conf_computing s = false -> t = MEMORY_TYPE_USER \/ t = MEMORY_TYPE_KERNEL.

Definition given (t : uvm_pmm_gpu_memory_type_t) st (z : bool) c : uvm_gpu_chunk_t :=
  set_is_zero z (set_chunk_state st (set_type t c)).

(** A root chunk that PMA has given away. *)
Lemma given_ok s t r c st z :
  pmm_ok None s -> p_heap s !! r = Some c -> pma_owned c -> c_address c + 2 ^ ROOT <= p_max_allocatable_address s + 1 ->
  type_ok s t -> st = STATE_FREE \/ st = STATE_TEMP_PINNED ->
  retag (p_heap s) (<[r := given t st z c]> (p_heap s)) r c (given t st z c)
    (Z.b2z (negb (state_is st STATE_FREE)) - 1) (Z.b2z (state_is st STATE_TEMP_PINNED)) /\
  heap_ok_s s (<[r := given t st z c]> (p_heap s)).
Proof.
  intros Hok Hc Hpma Htop Htype Hst. pose proof (po_heap _ _ Hok) as Hh. pose proof (ho_tree _ _ _ _ _ Hh) as Ht.
  pose proof (ho_chunk _ _ _ _ _ Hh r c Hc) as [E1 E2 E3 E4 E5 E6]. pose proof (E2 Hpma) as Hl.
  assert (Hleaf : c_suballoc c = None) by (eapply live_leaf; [done..|]; by rewrite Hpma).
  pose proof (proj1 (heap_root_parent _ _ _ Ht r c Hc) Hl) as Hpar.
  pose proof (root_retag (p_heap s) r c (given t st z c) Hc Hleaf Hleaf Hpar eq_refl eq_refl eq_refl
    (Z.b2z (negb (state_is st STATE_FREE)) - 1) (Z.b2z (state_is st STATE_TEMP_PINNED))) as Hrt. split; [exact Hrt|].
  eapply retag_ok; [exact Hh|exact Hrt| | |cbn; by rewrite Hpma|].
  - apply (tree_retype _ _ _ Ht _ r (shape_of c) t); [by apply tree_lookup|exact Hl|cbn; unfold subs_of; by rewrite Hleaf| |].
    + rewrite lookup_fmap, lookup_insert_eq. cbn. unfold shape_of, subs_of. cbn. by rewrite Hleaf.
    + intros k Hk. rewrite !lookup_fmap. by rewrite lookup_insert_ne.
  - split; cbn; try done; [|intros _; by rewrite Hl|intros _; apply E4; by rewrite Hpma]. rewrite Hleaf. split; [|by intros []]. by destruct Hst as [-> | ->].
  - rewrite Hpma. change (state_is STATE_PMA_OWNED STATE_TEMP_PINNED) with false. cbn. by rewrite Z.sub_0_r.
Qed.

Lemma wp_init_root_chunk t r c st z (Q : unit -> _ -> Prop) s :
  pmm_ok None s -> p_heap s !! r = Some c -> pma_owned c -> c_address c + 2 ^ ROOT <= p_max_allocatable_address s + 1 ->
  type_ok s t -> st = STATE_FREE \/ st = STATE_TEMP_PINNED ->
  (forall s', pmm_ok None s' -> frame s s' -> p_heap s' = <[r := given t st z c]> (p_heap s) -> Q tt s') ->
  wp (init_root_chunk t r st z) Q F s.
Proof.
  intros Hok Hc Hpma Htop Htype Hst HQ. pose proof (po_heap _ _ Hok) as Hh. pose proof (ho_tree _ _ _ _ _ Hh) as Ht.
  pose proof (ho_chunk _ _ _ _ _ Hh r c Hc) as [E1 E2 E3 E4 E5 E6]. pose proof (E2 Hpma) as Hl.
  assert (Hleaf : c_suballoc c = None) by (eapply live_leaf; [done..|]; by rewrite Hpma).
  destruct (E4 ltac:(by rewrite Hpma)) as [Hva Hidx]. pose proof (proj1 (heap_root_parent _ _ _ Ht r c Hc) Hl) as Hpar.
  set (c' := given t st z c). set (tr := <[r := uvm_tracker_init]> (p_trackers s)).
  destruct (given_ok s t r c st z Hok Hc Hpma Htop Htype Hst) as [Hrt Hh'].
  assert (Hnolist : forall l, r ∉ p_lists s l).
  { eapply (on_no_list _ None); [apply Hok|done|exact Hc|by rewrite Hpma|]. intros _. by rewrite Hpma. }
  unfold init_root_chunk. apply wp_bind, wp_modify. fold tr. apply wp_bind. eapply wp_load; [exact Hc|].
  apply wp_bind, wp_assert; [by rewrite Hpma|]. apply wp_bind, wp_assert; [by rewrite bool_decide_true|].
  apply wp_bind, wp_assert; [by rewrite Hleaf|]. apply wp_bind, wp_assert; [by rewrite bool_decide_true|].
  apply wp_bind, wp_assert; [rewrite Hidx; apply Z.eqb_refl|].
  apply wp_bind, wp_list_empty; [exact Hnolist|]. apply wp_bind, wp_assert; [done|].
  apply wp_bind, wp_assert; [change (chunk_is_root_chunk c = true); rewrite is_root_eq by (rewrite Hl; by vm_compute); by apply Z.eqb_eq|].
  apply wp_bind, wp_gets. cbn [p_numa p_page_count with_trackers]. rewrite (eo_numa _ (po_env _ _ Hok)). apply wp_bind, wp_assert; [done|].
  apply wp_bind, wp_assert; [by destruct Hst as [-> | ->]|].
  apply wp_bind. eapply wp_update; [exact Hc|]. fold (given t st z c). fold c'.
  eapply wp_chunk_update_lists; [exact Hh'|apply Hok|apply lookup_insert_eq|exact Hst|eapply lists_retag; [exact Hrt|apply Hok|by left]|].
  intros L HL. apply HQ; [|done|done]. split; cbn.
  - exact Hh'.
  - exact HL.
  - destruct (po_next _ _ Hok) as [Hn1 Hn2]. split; [done|]. intros k Hk. rewrite lookup_insert_ne; [by apply Hn2|].
    intros ->. rewrite Hn2 in Hc by done. done.
  - destruct (po_env _ _ Hok). by split.
  - intros k e Hk Hke Hne. unfold tr. destruct (decide (k = r)) as [->|Hkr].
    + rewrite lookup_insert_eq. eexists. split; [done|]. split; [apply tracker_init_ok|done].
    + rewrite lookup_insert_ne in Hk by done. rewrite lookup_insert_ne by done. by apply (po_trackers _ _ Hok k e).
Qed.

Lemma given_live t st z r c h :
  h !! r = Some c -> pma_owned c -> st = STATE_FREE \/ st = STATE_TEMP_PINNED ->
  live (<[r := given t st z c]> h) = if decide (st = STATE_FREE) then live h else <[r := given t st z c]> (live h).
Proof.
  intros Hc Hpma Hst. apply map_eq. intros k. rewrite lookup_live, lookup_insert. destruct (decide (r = k)) as [<-|Hne].
  - destruct Hst as [-> | ->].
    + rewrite decide_True, lookup_live, Hc by done. unfold is_live at 2. by rewrite Hpma.
    + by rewrite decide_False, lookup_insert_eq by done.
  - destruct (decide (st = STATE_FREE)); by rewrite ?lookup_insert_ne, lookup_live by done.
Qed.

Lemma given_coalesced t st z r c h : c_suballoc c = None -> coalesced h -> coalesced (<[r := given t st z c]> h).
Proof.
  intros Hs Hco k d sa. rewrite lookup_insert. destruct (decide (r = k)) as [<-|]; [|apply Hco]. intros [= <-]. cbn. by rewrite Hs.
Qed.

(** What PMA promises: aligned pages of the memory of the GPU, which it owns, each
    once, and no more of them than asked for. *)
Definition page_ok s (pa : Z) : Prop :=
  pa mod UVM_CHUNK_SIZE_MAX = 0 /\ pa + UVM_CHUNK_SIZE_MAX <= p_max_allocatable_address s + 1 /\
  exists c, p_heap s !! (pa / UVM_CHUNK_SIZE_MAX) = Some c /\ pma_owned c.

Definition pma_ok s (gp : gpu_props) (pma : pma_answer) : Prop :=
  match pma with
  | PmaError status => status <> NV_OK
  | PmaPages pas _ => pas <> [] /\ Z.of_nat (length pas) <= Z.shiftl 1 (gp_batch_order gp) /\ NoDup pas /\
      forall pa, pa ∈ pas -> page_ok s pa
  end.

Lemma wp_init_page t z st pa (Q : unit -> _ -> Prop) s :
  pmm_ok None s -> page_ok s pa -> type_ok s t -> st = STATE_FREE \/ st = STATE_TEMP_PINNED ->
  (forall c s', p_heap s !! (pa / UVM_CHUNK_SIZE_MAX) = Some c -> pma_owned c -> c_log2_size c = ROOT -> c_suballoc c = None ->
     pmm_ok None s' -> frame s s' -> p_heap s' = <[pa / UVM_CHUNK_SIZE_MAX := given t st z c]> (p_heap s) -> Q tt s') ->
  wp (init_page t z st pa) Q F s.
Proof.
  intros Hok (Hal & Htop & c & Hc & Hpma) Htype Hst HQ. pose proof (po_heap _ _ Hok) as Hh. pose proof (ho_tree _ _ _ _ _ Hh) as Ht.
  set (r := pa / UVM_CHUNK_SIZE_MAX) in *. pose proof (ho_chunk _ _ _ _ _ Hh r c Hc) as Hck. pose proof (ck_pma _ _ _ Hck Hpma) as Hl.
  assert (Haddr : c_address c = pa).
  { destruct (heap_root _ _ _ Ht r c Hc) as (rc & Hr & _ & _ & Ha & _). rewrite (heap_root_self _ _ _ Ht r c Hc Hl) in *.
    assert (rc = c) as -> by congruence. rewrite Ha. unfold r. change (2 ^ ROOT) with UVM_CHUNK_SIZE_MAX.
    pose proof (Z.div_mod pa UVM_CHUNK_SIZE_MAX ltac:(done)). lia. }
  pose proof (heap_addr _ _ _ Ht r c Hc) as [Ha0 _]. pose proof (eo_max _ (po_env _ _ Hok)) as Hmax.
  unfold init_page, root_chunk_from_address. apply wp_bind, wp_bind, wp_get. fold r.
  apply wp_bind. eapply wp_load; [done|]. apply wp_bind, wp_assert; [apply Z.leb_le; unfold UVM_CHUNK_SIZE_MAX in *; lia|].
  apply wp_bind. eapply wp_of_assert.
  { change UVM_CHUNK_SIZE_MAX with (2 ^ ROOT). apply UVM_ALIGN_DOWN_spec; [|by vm_compute].
    unfold UVM_GPU_MAX_PHYS_MEM, UVM_CHUNK_SIZE_MAX in *. split; lia. }
  assert (Hdown : pa / 2 ^ ROOT * 2 ^ ROOT = pa).
  { change (2 ^ ROOT) with UVM_CHUNK_SIZE_MAX. pose proof (Z.div_mod pa UVM_CHUNK_SIZE_MAX ltac:(done)). lia. }
  apply wp_bind, wp_assert; [apply Z.eqb_eq; by rewrite Hdown|]. apply wp_ret.
  apply wp_bind. eapply wp_load; [done|]. apply wp_bind, wp_assert; [by apply (IS_ALIGNED_spec pa ROOT)|].
  apply wp_bind, wp_assert; [by apply Z.eqb_eq|]. eapply wp_init_root_chunk; [done|done|done|by rewrite Haddr|done|done|].
  intros s' H1 H2 H3. apply (HQ c); try done. eapply live_leaf; [done..|]. by rewrite Hpma.
Qed.

Lemma page_index_inj pa pa' : pa mod UVM_CHUNK_SIZE_MAX = 0 -> pa' mod UVM_CHUNK_SIZE_MAX = 0 ->
  pa / UVM_CHUNK_SIZE_MAX = pa' / UVM_CHUNK_SIZE_MAX -> pa = pa'.
Proof.
  intros H H' E. pose proof (Z.div_mod pa UVM_CHUNK_SIZE_MAX ltac:(done)).
  pose proof (Z.div_mod pa' UVM_CHUNK_SIZE_MAX ltac:(done)). lia.
Qed.

Lemma frame_type s s' t : frame s s' -> type_ok s t -> type_ok s' t.
Proof. intros Hf. unfold type_ok. by rewrite (fr_conf _ _ Hf). Qed.

(** A page that another one did not touch. *)
Lemma page_ok_frame s s' pa : frame s s' -> p_heap s' !! (pa / UVM_CHUNK_SIZE_MAX) = p_heap s !! (pa / UVM_CHUNK_SIZE_MAX) ->
  page_ok s pa -> page_ok s' pa.
Proof. intros Hf Hp. unfold page_ok. by rewrite Hp, (fr_max _ _ Hf). Qed.

Lemma wp_init_pages t z pa rest (Q : NV_STATUS * option Z -> _ -> Prop) s :
  pmm_ok None s -> coalesced (p_heap s) -> type_ok s t -> NoDup (pa :: rest) -> (forall a, a ∈ pa :: rest -> page_ok s a) ->
  (forall q s', fresh_chunk s s' (live (p_heap s)) t ROOT q -> Q (NV_OK, Some q) s') ->
  wp (init_pages t z (pa :: rest)) Q F s.
Proof.
  intros Hok Hco Htype Hnd Hpages HQ. apply wp_bind. eapply wp_init_page; [done|by apply Hpages; left|done|by right|].
  set (r := pa / UVM_CHUNK_SIZE_MAX). intros c s1 Hc Hpma Hl Hleaf Hok1 Hf1 Hh1.
  set (I := fun (pre : list Z) s' => fresh_chunk s s' (live (p_heap s)) t ROOT r /\
    forall a, a ∈ rest -> a ∉ pre -> p_heap s' !! (a / UVM_CHUNK_SIZE_MAX) = p_heap s !! (a / UVM_CHUNK_SIZE_MAX)).
  apply NoDup_cons in Hnd as [Hpa Hnd]. apply wp_bind, (wp_for_each I).
  - split.
    + split; [done|]. split; [done|]. rewrite Hh1. split; [by apply given_coalesced|].
      split; [rewrite lookup_live, Hc; unfold is_live; by rewrite Hpma|]. exists (given t STATE_TEMP_PINNED z c).
      split; [|by split_and!]. rewrite (given_live t _ z r c) by auto. by rewrite decide_False.
    + intros a Ha _. rewrite Hh1, lookup_insert_ne; [done|]. intros E%page_index_inj; [congruence| |].
      * by apply (Hpages pa); left.
      * by apply (Hpages a); right.
  - intros pre a suf s' -> [(Hok' & Hf' & Hco' & Hnew & c' & Hlive & Hc') Hrest].
    pose proof Hnd as (_ & Hpre & _)%NoDup_app.
    assert (Hin : a ∈ pre ++ a :: suf) by (apply elem_of_app; right; by left).
    pose proof (Hpages a ltac:(by right)) as Hpa'.
    assert (Ha : a ∉ pre) by (intros H; apply (Hpre a H); by left).
    assert (Hpok : page_ok s' a) by (eapply page_ok_frame; [exact Hf'|by apply Hrest|done]).
    eapply wp_init_page; [done|exact Hpok|by eapply frame_type|by left|].
    intros d s'' Hd Hdpma Hdl Hdleaf Hok'' Hf'' Hh''. split.
    + split; [done|]. split; [by eapply frame_trans|]. rewrite Hh''. split; [by apply given_coalesced|]. split; [done|].
      exists c'. split; [|done]. rewrite (given_live t _ z _ d) by auto. by rewrite decide_True.
    + intros b Hb Hbpre. rewrite Hh'', lookup_insert_ne; [apply Hrest; [done|]; intros H; apply Hbpre; apply elem_of_app; by left|].
      intros E%page_index_inj; [subst b; apply Hbpre, elem_of_app; right; by left|by apply Hpa'|]. by apply (Hpages b); right.
  - intros s' [Hfr _]. apply wp_ret. by apply HQ.
Qed.

Lemma fresh_chunk_frame s s1 s' old t k q : frame s s1 -> fresh_chunk s1 s' old t k q -> fresh_chunk s s' old t k q.
Proof. intros Hf (H1 & H2 & H3). split; [done|]. split; [by eapply frame_trans|done]. Qed.
Lemma kept_frame s s1 s' old : frame s s1 -> kept s1 s' old -> kept s s' old.
Proof. intros Hf (H1 & H2 & H3). split; [done|]. split; [by eapply frame_trans|done]. Qed.

Lemma wp_pma_answered gp t (batched : bool) pma (Q : NV_STATUS * option Z -> _ -> Prop) s :
  pmm_ok None s -> coalesced (p_heap s) -> type_ok s t -> pma_ok s gp pma ->
  (forall q s', fresh_chunk s s' (live (p_heap s)) t ROOT q -> Q (NV_OK, Some q) s') ->
  (forall st s', st <> NV_OK -> kept s s' (live (p_heap s)) -> Q (st, None) s') ->
  wp (pma_answered t batched (if batched then Z.shiftl 1 (gp_batch_order gp) else 1) pma) Q F s.
Proof.
  intros Hok Hco Htype Hpma HQ Herr. destruct pma as [st|pas z]; [apply wp_ret, Herr; [done|by split_and!]|].
  destruct Hpma as (Hne & Hlen & Hnd & Hpages). destruct pas as [|pa rest]; [done|]. unfold pma_answered. apply wp_bind, wp_when.
  - intros ->. apply wp_bind, wp_assert; [by apply Z.leb_le|]. apply wp_assert; [done|]. by apply wp_init_pages.
  - intros ->. cbn [take]. rewrite take_0. apply wp_init_pages; try done; [apply NoDup_singleton|].
    intros a ->%list_elem_of_singleton. apply Hpages. by left.
Qed.

Lemma wp_alloc_root_chunk gp t dont_batch pma (Q : NV_STATUS * option Z -> _ -> Prop) s :
  pmm_ok None s -> coalesced (p_heap s) -> type_ok s t -> pma_ok s gp pma ->
  (forall q s', fresh_chunk s s' (live (p_heap s)) t ROOT q -> Q (NV_OK, Some q) s') ->
  (forall st s', st <> NV_OK -> kept s s' (live (p_heap s)) -> Q (st, None) s') ->
  wp (alloc_root_chunk gp t dont_batch pma) Q F s.
Proof.
  intros Hok Hco Htype Hpma HQ Herr. unfold alloc_root_chunk. apply wp_bind, wp_get.
  set (batched := _ && _ && _). apply wp_bind. clearbody batched. destruct batched.
  - apply wp_kmem_ok. intros ok km. pose proof (pmm_ok_grow s km 0 Hok ltac:(lia)) as Hok1. rewrite Z.add_0_r in Hok1.
    destruct ok; cbn [negb]; [|apply wp_ret, Herr; [done|by split_and!]]. set (s1 := grow (p_heap s) km (p_next s) s) in *.
    assert (Hf : frame s s1) by apply frame_grow. apply (wp_pma_answered gp t true); try done.
    + intros q s' H. apply HQ. by eapply fresh_chunk_frame.
    + intros st s' Hst H. apply Herr; [done|]. by eapply kept_frame.
  - apply wp_ret. cbn [negb]. by apply (wp_pma_answered gp t false).
Qed.

(** ** Allocation *)

(** The size of a chunk that is asked for is one of the sizes of its type. *)
Definition size_ok s (t : uvm_pmm_gpu_memory_type_t) k : Prop :=
  0 <= k <= ROOT /\ Z.testbit (p_chunk_sizes s t) k = true.

(** A claimed chunk was free. *)
Lemma claimed_fresh s h' L' p c :
  pmm_ok None s -> coalesced (p_heap s) -> p_heap s !! p = Some c -> c_state c = STATE_FREE ->
  retag (p_heap s) h' p c (set_chunk_state STATE_TEMP_PINNED c) 1 1 -> pmm_ok None (put h' L' s) ->
  (coalesced (p_heap s) -> coalesced h') ->
  fresh_chunk s (put h' L' s) (live (p_heap s)) (c_type c) (c_log2_size c) p.
Proof.
  intros Hok Hco Hc Hs Hrt Hok' Hco'. split; [done|]. split; [apply frame_put|]. split; [by apply Hco'|]. split.
  - rewrite lookup_live, Hc. unfold is_live. by rewrite Hs.
  - exists (set_chunk_state STATE_TEMP_PINNED c). split; [|done]. cbn [p_heap put with_lists with_heap].
    by rewrite (retag_live _ _ _ _ _ _ _ _ _ _ _ (po_heap _ _ Hok) Hrt).
Qed.

Lemma fresh_heap s s' old t k q : fresh_chunk s s' old t k q ->
  exists c, p_heap s' !! q = Some c /\ c_state c = STATE_TEMP_PINNED /\ c_type c = t /\ c_log2_size c = k /\
    delete q (live (p_heap s')) = old.
Proof.
  intros (_ & _ & _ & Hold & c & Hl & Hc). exists c. split; [|split_and!; try apply Hc].
  - apply live_lookup. by rewrite Hl, lookup_insert_eq.
  - by rewrite Hl, delete_insert_id.
Qed.

Lemma wp_split_fresh t k0 fuel s s1 old k p (Q : NV_STATUS * option Z -> _ -> Prop) :
  fresh_chunk s s1 old t k p -> size_ok s t k0 -> k0 <= k -> k - k0 < Z.of_nat fuel ->
  (forall q s', fresh_chunk s s' old t k0 q -> Q (NV_OK, Some q) s') ->
  (forall st s', st <> NV_OK -> kept s s' old -> Q (st, None) s') ->
  wp (split_down fuel t (2 ^ k0) (2 ^ k) p) Q F s1.
Proof.
  intros Hfr [Hk0 Hbit] Hk Hfuel HQ Herr. destruct (fresh_heap _ _ _ _ _ _ Hfr) as (c & Hc & Hs & Hty & <- & Hdel).
  destruct Hfr as (Hok & Hf & Hco & _). eapply wp_split_down; try done; [lia|by rewrite (fr_sizes _ _ Hf)| |].
  - intros q s' H. apply HQ. rewrite Hdel in H. by eapply fresh_chunk_frame.
  - intros s' H. apply Herr; [done|]. rewrite Hdel in H. by eapply kept_frame.
Qed.

Lemma levels_enough k : 0 <= k -> ROOT - k < Z.of_nat MAX_LEVELS.
Proof. unfold ROOT, MAX_LEVELS. lia. Qed.

Lemma wp_alloc_chunk_with_splits gp t k dont_batch pma (Q : NV_STATUS * option Z -> _ -> Prop) s :
  pmm_ok None s -> coalesced (p_heap s) -> type_ok s t -> pma_ok s gp pma -> size_ok s t k -> k <> ROOT ->
  (forall q s', fresh_chunk s s' (live (p_heap s)) t k q -> Q (NV_OK, Some q) s') ->
  (forall st s', st <> NV_OK -> kept s s' (live (p_heap s)) -> Q (st, None) s') ->
  wp (alloc_chunk_with_splits gp t (2 ^ k) dont_batch pma) Q F s.
Proof.
  intros Hok Hco Htype Hpma Hsz Hne HQ Herr. pose proof Hsz as [Hk Hbit]. unfold alloc_chunk_with_splits.
  pose proof (levels_enough k ltac:(lia)) as Hfuel.
  apply wp_bind, wp_assert.
  { apply negb_true_iff, Z.eqb_neq. change UVM_CHUNK_SIZE_MAX with (2 ^ ROOT). intros E. apply Z.pow_inj_r in E; [done|lia..|done]. }
  apply wp_bind. eapply wp_claim_free_chunk; [done..| |].
  2: { intros p c h' L' Hc Hs <- <- Hrt Hok' Hco'. pose proof (claimed_fresh s h' L' p c Hok Hco Hc Hs Hrt Hok' Hco') as Hfr.
    apply wp_bind. eapply wp_check_chunk; [apply Hok'|apply Hrt|done|]. apply wp_ret. by apply HQ. }
  intros _. apply wp_bind. eapply wp_claim_bigger; [done..| |].
  2: { intros p c h' L' Hc Hs <- Hle Hrt Hok' Hco'. pose proof (claimed_fresh s h' L' p c Hok Hco Hc Hs Hrt Hok' Hco') as Hfr.
    destruct (heap_log2 _ _ _ (ho_tree _ _ _ _ _ (po_heap _ _ Hok)) p c Hc) as [Hl _].
    eapply wp_split_fresh; [exact Hfr|done|done|lia|done|done]. }
  apply wp_bind. eapply wp_alloc_root_chunk; [done..| |].
  - intros q s1 Hfr. rewrite decide_True by done. apply wp_bind. eapply wp_of_option; [done|].
    destruct (fresh_heap _ _ _ _ _ _ Hfr) as (c & Hc & _ & _ & Hl & _). apply wp_bind. eapply wp_load; [done|].
    apply wp_bind, wp_assert; [unfold uvm_gpu_chunk_get_size; by rewrite Hl|].
    change UVM_CHUNK_SIZE_MAX with (2 ^ ROOT). eapply wp_split_fresh; [exact Hfr|done|lia|lia|done|done].
  - intros st s1 Hst Hkept. rewrite decide_False by done. apply wp_ret. by apply Herr.
Qed.

Lemma wp_alloc_chunk gp t k dont_batch pma (Q : NV_STATUS * option Z -> _ -> Prop) s :
  pmm_ok None s -> coalesced (p_heap s) -> type_ok s t -> pma_ok s gp pma -> size_ok s t k ->
  (forall q s', fresh_chunk s s' (live (p_heap s)) t k q -> Q (NV_OK, Some q) s') ->
  (forall st s', st <> NV_OK -> kept s s' (live (p_heap s)) -> Q (st, None) s') ->
  wp (alloc_chunk gp t (2 ^ k) dont_batch pma) Q F s.
Proof.
  intros Hok Hco Htype Hpma Hsz HQ Herr. pose proof Hsz as [Hk Hbit]. unfold alloc_chunk.
  apply wp_bind. eapply wp_claim_free_chunk; [done..| |].
  2: { intros p c h' L' Hc Hs <- <- Hrt Hok' Hco'. apply wp_ret. apply HQ. by eapply claimed_fresh. }
  intros _. change UVM_CHUNK_SIZE_MAX with (2 ^ ROOT). destruct (Z.eqb_spec (2 ^ k) (2 ^ ROOT)) as [E|E].
  - apply Z.pow_inj_r in E; [subst k|lia..|done]. apply wp_bind. eapply wp_alloc_root_chunk; [done..| |].
    + intros q s' Hfr. rewrite decide_True by done. apply wp_ret. by apply HQ.
    + intros st s' Hst Hkept. rewrite decide_False by done. apply wp_ret. by apply Herr.
  - apply wp_bind. eapply wp_alloc_chunk_with_splits; [done..|congruence| |].
    + intros q s' Hfr. rewrite decide_True by done. apply wp_ret. by apply HQ.
    + intros st s' Hst (H1 & H2 & H3 & H4). rewrite decide_False by done.
      apply wp_bind. apply wp_free_next_available_root_chunk; [done| |].
      * intros _. apply wp_ret. apply Herr; [done|by split_and!].
      * intros s2 Hok2 Hf2 Hrel. apply wp_ret. apply Herr; [done|]. split; [done|]. split; [by eapply frame_trans|].
        split; [exact (released_coalesced _ _ _ H1 Hrel H3)|]. by rewrite (released_live _ _ _ Hrel).
Qed.
End root.
