(* ===== verification/UvmPmmCorrect.v ===== *)
(** Correctness of the physical memory manager: initialization establishes the
    invariant, allocation and freeing keep it and never fail an assertion, the
    chunks in use are disjoint, and memory that nobody uses is whole root chunks. *)

From S2P Require Import Prelude UvmBits UvmCommon UvmTlbBatch UvmTracker UvmPmm UvmPmmTree UvmPmmInv UvmPmmOps UvmPmmLeaf UvmPmmMerge UvmPmmFree UvmPmmSplit UvmPmmAlloc UvmPmmRoot.
Local Open Scope Z_scope.

Implicit Types (s : uvm_pmm_gpu_t) (h : heap) (p q k : Z) (c d : uvm_gpu_chunk_t) (t : uvm_pmm_gpu_memory_type_t).

(** ** Initialization *)

Lemma lookup_init_chunks count i :
  (list_to_map ((fun i => (i, init_chunk i)) <$> seqZ 0 count) : heap) !! i =
  if decide (0 <= i < count) then Some (init_chunk i) else None.
Proof.
  assert (Hfst : ((fun i => (i, init_chunk i)) <$> seqZ 0 count).*1 = seqZ 0 count).
  { rewrite <- list_fmap_compose. by apply list_fmap_id. }
  destruct (decide (0 <= i < count)) as [Hi|Hi].
  - apply elem_of_list_to_map_1; [rewrite Hfst; apply NoDup_seqZ|].
    apply list_elem_of_fmap. exists i. split; [done|]. by apply elem_of_seqZ.
  - apply not_elem_of_list_to_map_1. rewrite Hfst, elem_of_seqZ. lia.
Qed.

Lemma init_sizes_ok mmu_user mmu_kernel mem_kernel t :
  0 <= mmu_user -> 0 <= mmu_kernel -> 0 <= mem_kernel ->
  chunk_sizes_ok (init_chunk_sizes mmu_user mmu_kernel mem_kernel t) = true ->
  mask_ok (init_chunk_sizes mmu_user mmu_kernel mem_kernel t).
Proof.
  intros H1 H2 H3. unfold chunk_sizes_ok. intros [Hlt%Z.ltb_lt Hw%Z.leb_le]%andb_prop. split; [split|split; [|done]].
  - unfold init_chunk_sizes. apply Z.lor_nonneg. split; [done|]. destruct (uvm_pmm_gpu_memory_type_is_user t); [done|]. by apply Z.lor_nonneg.
  - exact Hlt.
  - unfold init_chunk_sizes. by rewrite Z.lor_spec.
Qed.

Lemma init_shape sizes count i :
  (forall t, mask_ok (sizes t)) -> 0 <= i < count ->
  shape_ok sizes count (shape_of <$> list_to_map ((fun i => (i, init_chunk i)) <$> seqZ 0 count)) i (shape_of (init_chunk i)).
Proof.
  intros Hm Hi. assert (E : 2 ^ ROOT = UVM_CHUNK_SIZE_MAX) by done. split; cbn; try done.
  - apply Hm.
  - change (Z.log2 UVM_CHUNK_SIZE_MAX) with ROOT. rewrite E. split; [unfold UVM_CHUNK_SIZE_MAX; lia|by apply Z.mod_mul].
  - intros _. rewrite E. split; [done|]. split; [by rewrite Z.div_mul|done].
Qed.

Lemma init_heap_ok sizes count max conf :
  (forall t, mask_ok (sizes t)) ->
  heap_ok sizes count max conf (list_to_map ((fun i => (i, init_chunk i)) <$> seqZ 0 count)).
Proof.
  intros Hm. set (h := list_to_map _).
  assert (Hlook : forall p c, h !! p = Some c -> c = init_chunk p /\ 0 <= p < count).
  { intros p c. unfold h. rewrite lookup_init_chunks. case_decide; [|done]. by intros [= <-]. }
  split.
  - split; [done| |].
    + intros p c. rewrite lookup_fmap. destruct (h !! p) as [d|] eqn:E; [|done]. intros [= <-].
      apply Hlook in E as [-> Hp]. by apply init_shape.
    + intros i Hi. rewrite lookup_fmap. unfold h. rewrite lookup_init_chunks, decide_True by done. by eexists.
  - intros p c [-> Hp]%Hlook. split; cbn; try done. by left.
  - intros p c sa [-> _]%Hlook [=].
  - intros r c sa [-> _]%Hlook _ [=].
Qed.

(** What the surroundings promise: no page of a free root chunk is held by another
    driver of a NUMA GPU, channels complete their work, and their errors are the
    driver's. *)
Definition surroundings_ok (numa : bool) (page_count : Z -> Z) (tenv : nat -> tracker_env) : Prop :=
  (forall r, (numa && (UVM_CHUNK_SIZE_MAX / PAGE_SIZE <? page_count r)) = false) /\
  (forall n, tenv_ok (tenv n)).

Lemma init_ok mu mk mem max conf numa pc km te s :
  0 <= mu -> 0 <= mk -> 0 <= mem -> 0 <= max -> surroundings_ok numa pc te ->
  uvm_pmm_gpu_init mu mk mem max conf numa pc km te = Some s ->
  pmm_ok None s /\ coalesced (p_heap s) /\ live (p_heap s) = ∅.
Proof.
  intros H1 H2 H3 Hmax [Hnuma Hprog]. unfold uvm_pmm_gpu_init, UVM_ASSERT.
  destruct (chunk_sizes_ok (init_chunk_sizes mu mk mem MEMORY_TYPE_USER)) eqn:Eu; [|done]. cbn [guard].
  destruct (chunk_sizes_ok (init_chunk_sizes mu mk mem MEMORY_TYPE_KERNEL)) eqn:Ek; [|done]. 
  destruct (Z.ltb_spec max UVM_GPU_MAX_PHYS_MEM) as [Hlt|]; [|done].
  destruct (UVM_ALIGN_UP max UVM_CHUNK_SIZE_MAX) as [top|]; [|done]. intros [= <-]. cbn.
  assert (Hm : forall t, mask_ok (init_chunk_sizes mu mk mem t)) by (intros []; by apply init_sizes_ok).
  set (count := top / UVM_CHUNK_SIZE_MAX). set (h := list_to_map _).
  pose proof (init_heap_ok _ count max conf Hm) as Hh. fold h in Hh.
  assert (Hlook : forall p c, h !! p = Some c -> c = init_chunk p).
  { intros p c. unfold h. rewrite lookup_init_chunks. case_decide; [|done]. by intros [= <-]. }
  split; [split; cbn|split].
  - exact Hh.
  - split; cbn; [|by intros l p _ _ ?%not_elem_of_nil].
    intros t i z p _. split; [by intros ?%not_elem_of_nil|]. intros (c & ->%Hlook & [=] & _).
  - split; [done|]. intros p Hp. unfold h. rewrite lookup_init_chunks, decide_False by lia. done.
  - by split.
  - intros r c ->%Hlook _ []. done.
  - intros p c sa ->%Hlook [=].
  - apply map_eq. intros k. rewrite lookup_live, lookup_empty. destruct (h !! k) as [c|] eqn:E; [|done]. by rewrite (Hlook k c E).
Qed.

(** ** Reachable states *)

(** A call of the two operations, with what their callers and PMA promise. *)
Inductive pmm_step s : uvm_pmm_gpu_t -> Prop :=
| step_alloc gp t k dont_batch pma r s' :
    type_ok s t -> size_ok s t k -> pma_ok s gp pma ->
    alloc_chunk gp t (2 ^ k) dont_batch pma s = Ok r s' -> pmm_step s s'
| step_free p c s' :
    live (p_heap s) !! p = Some c -> (c_state c = STATE_ALLOCATED -> c_is_referenced c = false) ->
    free_chunk p s = Ok tt s' -> pmm_step s s'.

Definition booted s : Prop :=
  exists mu mk mem max conf numa pc km te,
    0 <= mu /\ 0 <= mk /\ 0 <= mem /\ 0 <= max /\ surroundings_ok numa pc te /\
    uvm_pmm_gpu_init mu mk mem max conf numa pc km te = Some s.

Definition reachable s : Prop := exists s0, booted s0 /\ rtc pmm_step s0 s.

Definition no_fault (f : fault) s : Prop := False.

Lemma wp_total {A} (m : P A) (Q : A -> uvm_pmm_gpu_t -> Prop) s : wp m Q no_fault s -> exists a s', m s = Ok a s' /\ Q a s'.
Proof. unfold wp. destruct (m s) as [a s'|f s']; [|done]. intros H. by exists a, s'. Qed.

(** What an allocation answers. *)
Definition alloc_post s t k (r : NV_STATUS * option ptr) s' : Prop :=
  match r with
  | (NV_OK, Some q) => fresh_chunk s s' (live (p_heap s)) t k q
  | (st, o) => st <> NV_OK /\ o = None /\ kept s s' (live (p_heap s))
  end.

Lemma alloc_chunk_total gp t k dont_batch pma s :
  pmm_ok None s -> coalesced (p_heap s) -> type_ok s t -> size_ok s t k -> pma_ok s gp pma ->
  exists r s', alloc_chunk gp t (2 ^ k) dont_batch pma s = Ok r s' /\ alloc_post s t k r s'.
Proof.
  intros Hok Hco Ht Hk Hp. apply wp_total. apply (wp_alloc_chunk no_fault); try done.
  intros st s' Hst Hkept. unfold alloc_post. by destruct st.
Qed.

Lemma free_chunk_total p c s :
  pmm_ok None s -> coalesced (p_heap s) -> live (p_heap s) !! p = Some c -> (c_state c = STATE_ALLOCATED -> c_is_referenced c = false) ->
  exists s', free_chunk p s = Ok tt s' /\ kept s s' (delete p (live (p_heap s))).
Proof.
  intros Hok Hco [Hc Hl]%live_lookup Hr.
  destruct (wp_total (free_chunk p) (fun _ s' => kept s s' (delete p (live (p_heap s)))) s) as ([] & s' & E & H); [|eauto].
  apply (wp_free_chunk no_fault p c); try done.
Qed.

Lemma alloc_post_ok s t k r s' : alloc_post s t k r s' -> pmm_ok None s' /\ coalesced (p_heap s').
Proof. unfold alloc_post. destruct r as [[] [q|]]; intros H; try (split; apply H); by destruct H as (_ & _ & ? & _ & ? & _). Qed.

Lemma step_ok s s' : pmm_ok None s -> coalesced (p_heap s) -> pmm_step s s' -> pmm_ok None s' /\ coalesced (p_heap s').
Proof.
  intros Hok Hco Hs. destruct Hs as [gp t k db pma r s' Ht Hk Hp E|p c s' Hl Hr E].
  - destruct (alloc_chunk_total gp t k db pma s Hok Hco Ht Hk Hp) as (r' & s1 & E' & Hpost).
    rewrite E in E'. injection E' as <- <-. by eapply alloc_post_ok.
  - destruct (free_chunk_total p c s Hok Hco Hl Hr) as (s1 & E' & H1 & _ & H2 & _). rewrite E in E'. by injection E' as <-.
Qed.

Lemma reachable_ok s : reachable s -> pmm_ok None s /\ coalesced (p_heap s).
Proof.
  intros (s0 & (mu & mk & mem & max & conf & numa & pc & km & te & H1 & H2 & H3 & H4 & H5 & H6) & Hs).
  destruct (init_ok _ _ _ _ _ _ _ _ _ _ H1 H2 H3 H4 H5 H6) as (Hok & Hco & _). clear - Hok Hco Hs.
  induction Hs as [|s s1 s2 Hstep _ IH]; [done|]. destruct (step_ok s s1 Hok Hco Hstep). by apply IH.
Qed.

(** ** Ranges *)

Definition chunk_end c : Z := c_address c + 2 ^ c_log2_size c.
Definition apart c d : Prop := chunk_end c <= c_address d \/ chunk_end d <= c_address c.

Lemma live_apart s p q c d :
  pmm_ok None s -> live (p_heap s) !! p = Some c -> live (p_heap s) !! q = Some d -> p <> q -> apart c d.
Proof.
  intros Hok [Hc Hlc%is_live_iff]%live_lookup [Hd Hld%is_live_iff]%live_lookup Hne. pose proof (po_heap _ _ Hok) as Hh.
  assert (Hsub : forall k e, p_heap s !! k = Some e -> c_state e <> STATE_IS_SPLIT -> sh_subs (shape_of e) = None).
  { intros k e He Hs. cbn. unfold subs_of. by rewrite (live_leaf _ _ _ _ _ k e Hh He Hs). }
  apply (leaves_disjoint _ _ _ (ho_tree _ _ _ _ _ Hh) p q (shape_of c) (shape_of d)).
  - by apply tree_lookup.
  - by apply tree_lookup.
  - done.
  - apply (Hsub p); [done|]. destruct Hlc; congruence.
  - apply (Hsub q); [done|]. destruct Hld; congruence.
Qed.

Lemma live_range s p c :
  pmm_ok None s -> live (p_heap s) !! p = Some c ->
  0 <= c_address c /\ c_address c mod 2 ^ c_log2_size c = 0 /\ chunk_end c <= p_max_allocatable_address s + 1.
Proof.
  intros Hok [Hc Hl%is_live_iff]%live_lookup. pose proof (po_heap _ _ Hok) as Hh.
  destruct (heap_addr _ _ _ (ho_tree _ _ _ _ _ Hh) p c Hc) as [H1 H2]. split; [done|]. split; [done|].
  apply (ho_chunk _ _ _ _ _ Hh p c Hc). unfold pma_owned. destruct Hl; congruence.
Qed.

(** Below a split chunk there is a chunk in use. *)
Lemma split_has_live s (n : nat) : forall p c,
  pmm_ok None s -> coalesced (p_heap s) -> p_heap s !! p = Some c -> c_log2_size c <= Z.of_nat n ->
  c_state c = STATE_IS_SPLIT -> exists q d, live (p_heap s) !! q = Some d.
Proof.
  induction n as [|n IH]; intros p c Hok Hco Hc Hn Hs; pose proof (po_heap _ _ Hok) as Hh; pose proof (ho_tree _ _ _ _ _ Hh) as Ht;
    destruct (proj1 (ck_split _ _ _ (ho_chunk _ _ _ _ _ Hh p c Hc)) Hs) as [sa Hsa];
    destruct (heap_subs _ _ _ Ht p c sa Hc Hsa) as (_ & b & Hb & Hbr & Hlen & Hk); [lia|].
  pose proof (Hco p c sa Hc Hsa) as Hpos. rewrite (ho_alloc _ _ _ _ _ Hh p c sa Hc Hsa) in Hpos.
  assert (Hex : exists q, q ∈ sa_subchunks sa /\ is_free (p_heap s) q = false).
  { clear - Hpos. induction (sa_subchunks sa) as [|a l IHl]; [done|]. rewrite nonfree_cons in Hpos.
    destruct (is_free (p_heap s) a) eqn:E; [|exists a; split; [by left|done]].
    destruct IHl as (q & Hq & Hf); [exact Hpos|]. exists q. split; [by right|done]. }
  destruct Hex as (q & [i Hi]%list_elem_of_lookup & Hf). destruct (Hk i q Hi) as (d & Hd & _ & _ & Hdl & _).
  destruct (heap_log2 _ _ _ Ht p c Hc) as [Hlc _]. pose proof (ho_chunk _ _ _ _ _ Hh q d Hd) as Hck. destruct (c_state d) eqn:Es.
  - pose proof (ck_pma _ _ _ Hck Es). lia.
  - unfold is_free in Hf. rewrite Hd, Es in Hf. done.
  - eapply (IH q d); [done|done|done|lia|done].
  - exists q, d. apply live_lookup. split; [done|]. apply is_live_iff. by right.
  - exists q, d. apply live_lookup. split; [done|]. apply is_live_iff. by left.
Qed.

(** ** Correctness *)

(** C14. Well-formed states, and no operation goes wrong: in every state reached
    from initialization by allocating and freeing, the chunks form a forest under
    the root chunks, its counters and lists agree with the states of the chunks,
    and every split chunk has a child in use; an allocation of a valid size and
    type, and the freeing of a chunk in use, return: no assertion of
    uvm_pmm_gpu.c fails, no pointer to a dead object is followed, and the loops
    end. *)
Theorem pmm_type_safety s :
  reachable s ->
  pmm_ok None s /\ coalesced (p_heap s) /\
  (forall gp t k dont_batch pma, type_ok s t -> size_ok s t k -> pma_ok s gp pma ->
     exists r s', alloc_chunk gp t (2 ^ k) dont_batch pma s = Ok r s' /\ reachable s') /\
  (forall p c, live (p_heap s) !! p = Some c -> (c_state c = STATE_ALLOCATED -> c_is_referenced c = false) ->
     exists s', free_chunk p s = Ok tt s' /\ reachable s').
Proof.
  intros Hr. destruct (reachable_ok s Hr) as [Hok Hco]. destruct Hr as (s0 & Hb & Hs). split; [done|]. split; [done|]. split.
  - intros gp t k db pma Ht Hk Hp. destruct (alloc_chunk_total gp t k db pma s Hok Hco Ht Hk Hp) as (r & s' & E & _).
    exists r, s'. split; [done|]. exists s0. split; [done|]. eapply rtc_r; [done|]. by eapply step_alloc.
  - intros p c Hl Href. destruct (free_chunk_total p c s Hok Hco Hl Href) as (s' & E & _).
    exists s'. split; [done|]. exists s0. split; [done|]. eapply rtc_r; [done|]. by eapply step_free.
Qed.

(** C13. Chunks in use never overlap: in every reachable state each of them is
    aligned to its size and lies in the memory of the GPU, and two of them have no
    byte in common. *)
Theorem live_chunks_disjoint s p q c d :
  reachable s -> live (p_heap s) !! p = Some c -> live (p_heap s) !! q = Some d ->
  (0 <= c_address c /\ c_address c mod 2 ^ c_log2_size c = 0 /\ chunk_end c <= p_max_allocatable_address s + 1) /\
  (p <> q -> apart c d).
Proof.
  intros Hr Hp Hq. destruct (reachable_ok s Hr) as [Hok _]. split; [by eapply live_range|]. intros Hne. by eapply live_apart.
Qed.

(** C11. Allocation: NV_OK comes with a chunk that was not in use, of the type and
    the size asked for, pinned, inside the memory of the GPU and apart from every
    chunk in use, and the other chunks in use stay as they are; any other status
    comes with no chunk and leaves the chunks in use as they are, whatever was
    split, merged or returned to PMA on the way. *)
Theorem alloc_chunk_correct gp t k dont_batch pma s :
  reachable s -> type_ok s t -> size_ok s t k -> pma_ok s gp pma ->
  exists status out s', alloc_chunk gp t (2 ^ k) dont_batch pma s = Ok (status, out) s' /\
    ((status = NV_OK /\ exists q c, out = Some q /\ live (p_heap s) !! q = None /\
        live (p_heap s') = <[q := c]> (live (p_heap s)) /\
        c_state c = STATE_TEMP_PINNED /\ c_type c = t /\ c_log2_size c = k /\
        chunk_end c <= p_max_allocatable_address s + 1 /\
        forall p d, live (p_heap s) !! p = Some d -> apart c d) \/
     (status <> NV_OK /\ out = None /\ live (p_heap s') = live (p_heap s))).
Proof.
  intros Hr Ht Hk Hp. destruct (reachable_ok s Hr) as [Hok Hco].
  destruct (alloc_chunk_total gp t k dont_batch pma s Hok Hco Ht Hk Hp) as ([st o] & s' & E & Hpost).
  exists st, o, s'. split; [done|]. unfold alloc_post in Hpost.
  assert (Hcase : (st = NV_OK /\ exists q, o = Some q /\ fresh_chunk s s' (live (p_heap s)) t k q) \/
    (st <> NV_OK /\ o = None /\ kept s s' (live (p_heap s)))).
  { destruct st; try (by right). destruct o as [q|]; [left; eauto|by right]. }
  destruct Hcase as [(-> & q & -> & Hok' & Hf & _ & Hnew & c & Hl & H1 & H2 & H3)|(H1 & H2 & _ & _ & _ & H3)]; [left|by right].
  assert (Hq : live (p_heap s') !! q = Some c) by by rewrite Hl, lookup_insert_eq.
  split; [done|]. exists q, c. split_and!; try done.
  - destruct (live_range s' q c Hok' Hq) as (_ & _ & Hend). by rewrite (fr_max _ _ Hf) in Hend.
  - intros p d Hd. assert (Hne : q <> p) by congruence. apply (live_apart s' q p); try done. by rewrite Hl, lookup_insert_ne.
Qed.

(** C12. Freeing removes exactly the freed chunk from the chunks in use. *)
Theorem free_chunk_correct p c s :
  reachable s -> live (p_heap s) !! p = Some c -> (c_state c = STATE_ALLOCATED -> c_is_referenced c = false) ->
  exists s', free_chunk p s = Ok tt s' /\ live (p_heap s') = delete p (live (p_heap s)).
Proof.
  intros Hr Hl Href. destruct (reachable_ok s Hr) as [Hok Hco].
  destruct (free_chunk_total p c s Hok Hco Hl Href) as (s' & E & _ & _ & _ & H). by exists s'.
Qed.

(** C15. Merging is complete: when no chunk is in use, no chunk is split any more;
    the memory consists of whole root chunks, each free or owned by PMA. *)
Theorem unused_memory_is_merged s :
  reachable s -> live (p_heap s) = ∅ ->
  forall p c, p_heap s !! p = Some c -> c_log2_size c = ROOT /\ (c_state c = STATE_FREE \/ c_state c = STATE_PMA_OWNED).
Proof.
  intros Hr Hnone. destruct (reachable_ok s Hr) as [Hok Hco]. pose proof (po_heap _ _ Hok) as Hh. pose proof (ho_tree _ _ _ _ _ Hh) as Ht.
  assert (Hno : forall p c, p_heap s !! p = Some c -> c_state c <> STATE_IS_SPLIT).
  { intros p c Hc Hs. destruct (heap_log2 _ _ _ Ht p c Hc) as [Hl _].
    destruct (split_has_live s (Z.to_nat ROOT) p c Hok Hco Hc ltac:(lia) Hs) as (q & d & Hd).
    by rewrite Hnone, lookup_empty in Hd. }
  intros p c Hc. split.
  - destruct (decide (c_log2_size c = ROOT)) as [|Hne]; [done|]. destruct (heap_root _ _ _ Ht p c Hc) as (rc & Hrc & _ & _ & _ & _ & _ & Hsub).
    exfalso. apply (Hno (root_of c) rc Hrc). by apply (ho_chunk _ _ _ _ _ Hh _ rc Hrc), Hsub.
  - pose proof (live_lookup (p_heap s) p c) as Hlk. rewrite Hnone, lookup_empty in Hlk. pose proof (Hno p c Hc) as Hns.
    pose proof (is_live_iff c) as Hli. destruct (c_state c) eqn:Es; try tauto; exfalso;
      (enough (None = Some c) by done); apply Hlk; (split; [done|]); apply Hli; rewrite ?Es; auto.
Qed.

(** ** A GPU with 8MB *)

Definition demo_env : tracker_env :=
  TrackerEnv (fun _ _ => true) true [SpinStep (fun _ _ => true) (fun _ => NV_OK) NV_OK].
Definition demo_props : gpu_props := GpuProps false true 1.
Definition demo_pmm0 : option uvm_pmm_gpu_t :=
  uvm_pmm_gpu_init (uvm_mmu_user_chunk_sizes 65536 131072) 65536 4096 8388607 false false (fun _ => 0)
    (replicate 64 true) (fun _ => demo_env).
Definition demo_pmm : uvm_pmm_gpu_t := default (Pmm (fun _ => 0) 0 0 false false (fun _ => 0) ∅ 0 (fun _ => []) ∅ [] (fun _ => demo_env) []) demo_pmm0.
(** A chunk of 64KB, from a batch of two root chunks. *)
Definition demo_pma : pma_answer := PmaPages [0; 4194304] false.
Definition run_state {A} (r : res uvm_pmm_gpu_t A) : uvm_pmm_gpu_t := match r with Ok _ s => s | Fault _ s => s end.
Definition demo_one : uvm_pmm_gpu_t := run_state (alloc_chunk demo_props MEMORY_TYPE_USER (2 ^ 16) false demo_pma demo_pmm).

Lemma demo_surroundings : surroundings_ok false (fun _ => 0) (fun _ => demo_env).
Proof.
  split; [done|]. intros n. split; [|done|].
  - eexists. split; [by left|done].
  - intros sp c ->%list_elem_of_singleton. by left.
Qed.

Lemma demo_booted : booted demo_pmm.
Proof.
  exists (uvm_mmu_user_chunk_sizes 65536 131072), 65536, 4096, 8388607, false, false, (fun _ => 0), (replicate 64 true), (fun _ => demo_env).
  do 4 (split; [by vm_compute|]). split; [apply demo_surroundings|]. unfold demo_pmm. vm_cast_no_check (eq_refl demo_pmm0).
Qed.

Lemma demo_reachable : reachable demo_pmm.
Proof. exists demo_pmm. split; [apply demo_booted|done]. Qed.

Lemma demo_type : type_ok demo_pmm MEMORY_TYPE_USER.
Proof. intros _. by left. Qed.
Lemma demo_size : size_ok demo_pmm MEMORY_TYPE_USER 16.
Proof. split; [by vm_compute|by vm_compute]. Qed.

Lemma demo_page pa : pa ∈ [0; 4194304] -> page_ok demo_pmm pa.
Proof.
  intros [-> | [-> | []%not_elem_of_nil]%elem_of_cons]%elem_of_cons; (split; [done|]; split; [by vm_compute|]);
    eexists; (split; [by vm_compute|done]).
Qed.
Lemma demo_pma_ok : pma_ok demo_pmm demo_props demo_pma.
Proof.
  split; [done|]. split; [by vm_compute|]. split; [apply (bool_decide_unpack _); by vm_compute|apply demo_page].
Qed.

Definition run_value {A} (r : res uvm_pmm_gpu_t A) : option A := match r with Ok a _ => Some a | Fault _ _ => None end.
Lemma run_ok {A} (r : res uvm_pmm_gpu_t A) a : run_value r = Some a -> r = Ok a (run_state r).
Proof. destruct r; [|done]. by intros [= ->]. Qed.

(** The 64KB chunk has pointer 14. *)
Lemma demo_alloc_chunk : alloc_chunk demo_props MEMORY_TYPE_USER (2 ^ 16) false demo_pma demo_pmm = Ok (NV_OK, Some 14) demo_one.
Proof. unfold demo_one. apply run_ok. by vm_compute. Qed.

Lemma demo_one_reachable : reachable demo_one.
Proof.
  exists demo_pmm. split; [apply demo_booted|]. apply rtc_once.
  eapply step_alloc; [apply demo_type|apply demo_size|apply demo_pma_ok|apply demo_alloc_chunk].
Qed.

(** The chunk, and the state after it is freed. *)
Definition demo_chunk : uvm_gpu_chunk_t := default (init_chunk 0) (p_heap demo_one !! 14).
Lemma demo_live : live (p_heap demo_one) !! 14 = Some demo_chunk.
Proof. apply live_lookup. split; by vm_compute. Qed.
Lemma demo_pinned : c_state demo_chunk = STATE_TEMP_PINNED.
Proof. by vm_compute. Qed.

Definition demo_two : uvm_pmm_gpu_t := run_state (free_chunk 14 demo_one).
Lemma demo_free : free_chunk 14 demo_one = Ok tt demo_two.
Proof. unfold demo_two. apply run_ok. by vm_compute. Qed.
Lemma demo_two_reachable : reachable demo_two.
Proof.
  destruct demo_one_reachable as (s0 & Hb & Hs). exists s0. split; [done|]. eapply rtc_r; [done|].
  eapply step_free; [apply demo_live|by rewrite demo_pinned|apply demo_free].
Qed.
Lemma demo_two_unused : live (p_heap demo_two) = ∅.
Proof. by vm_compute. Qed.

Lemma pmm_type_safety_witness :
  pmm_ok None demo_one /\ coalesced (p_heap demo_one) /\ exists s', free_chunk 14 demo_one = Ok tt s' /\ reachable s'.
Proof.
  destruct (pmm_type_safety demo_one demo_one_reachable) as (H1 & H2 & _ & H4). split; [exact H1|]. split; [exact H2|].
  apply (H4 14 demo_chunk demo_live). rewrite demo_pinned. discriminate.
Defined.

Lemma live_chunks_disjoint_witness :
  0 <= c_address demo_chunk /\ c_address demo_chunk mod 2 ^ c_log2_size demo_chunk = 0 /\ chunk_end demo_chunk <= 8388608.
Proof. apply (live_chunks_disjoint demo_one 14 14 demo_chunk demo_chunk demo_one_reachable demo_live demo_live). Defined.

Lemma alloc_chunk_correct_witness :
  exists status out s', alloc_chunk demo_props MEMORY_TYPE_USER (2 ^ 16) false demo_pma demo_pmm = Ok (status, out) s' /\
    ((status = NV_OK /\ exists q c, out = Some q /\ live (p_heap demo_pmm) !! q = None /\
        live (p_heap s') = <[q := c]> (live (p_heap demo_pmm)) /\
        c_state c = STATE_TEMP_PINNED /\ c_type c = MEMORY_TYPE_USER /\ c_log2_size c = 16 /\
        chunk_end c <= p_max_allocatable_address demo_pmm + 1 /\
        forall p d, live (p_heap demo_pmm) !! p = Some d -> apart c d) \/
     (status <> NV_OK /\ out = None /\ live (p_heap s') = live (p_heap demo_pmm))).
Proof.
  exact (alloc_chunk_correct demo_props MEMORY_TYPE_USER 16 false demo_pma demo_pmm demo_reachable demo_type demo_size demo_pma_ok).
Defined.

Lemma free_chunk_correct_witness : exists s', free_chunk 14 demo_one = Ok tt s' /\ live (p_heap s') = delete 14 (live (p_heap demo_one)).
Proof.
  apply (free_chunk_correct 14 demo_chunk demo_one demo_one_reachable demo_live). rewrite demo_pinned. discriminate.
Defined.

Definition demo_root : uvm_gpu_chunk_t := default (init_chunk 0) (p_heap demo_two !! 0).
Lemma demo_root_lookup : p_heap demo_two !! 0 = Some demo_root.
Proof. by vm_compute. Qed.

Lemma unused_memory_is_merged_witness :
  c_log2_size demo_root = ROOT /\ (c_state demo_root = STATE_FREE \/ c_state demo_root = STATE_PMA_OWNED).
Proof. exact (unused_memory_is_merged demo_two demo_two_reachable demo_two_unused 0 demo_root demo_root_lookup). Defined.
