(* ===== verification/UvmPmmHandle.v ===== *)
(** Clients of the chunk allocator (uvm_pmm_gpu.c): walks over the tree of chunks,
    splitting and merging chunks in use, allocation of several chunks with their
    trackers, and the two handle ioctls that were added for vAttention.

    PMA is an argument: what it answers in a state.  The GPU a tracker entry
    belongs to is an argument too.  The locks are not modelled. *)

From S2P Require Import Prelude UvmBits UvmCommon UvmTlbBatch UvmTracker UvmPmm.
Local Open Scope Z_scope.
Local Open Scope cword_scope.

(** ** Walks *)

Inductive chunk_walk_order_t := CHUNK_WALK_PRE_ORDER | CHUNK_WALK_POST_ORDER.

Definition next_sibling (p : ptr) : P (option ptr) :=
  c <- load p ;;
  q <- of_assert (c_parent c) ;;
  parent <- load q ;;
  uvm_assert (state_is (c_state parent) STATE_IS_SPLIT) ;;;
  index <- of_assert (uvm_div_pow2_64 (u64 (c_address c - c_address parent)) (uvm_gpu_chunk_get_size c)) ;;
  n <- num_subchunks q ;;
  uvm_assert (index <? n) ;;;
  let index := index + 1 in
  if index =? n then mret' None
  else sa <- suballoc_of parent ;; r <- of_option UB (nthZ (sa_subchunks sa) index) ;; mret' (Some r).

Definition assert_chunk_under (p ancestor : ptr) : P unit :=
  c <- load p ;; a <- load ancestor ;;
  uvm_assert (state_is (c_state a) STATE_IS_SPLIT) ;;;
  uvm_assert (match c_suballoc a with Some _ => true | None => false end) ;;;
  uvm_assert (c_address a <=? c_address c) ;;;
  uvm_assert (c_address c <? c_address a + uvm_gpu_chunk_get_size a) ;;;
  uvm_assert (uvm_gpu_chunk_get_size c <=? uvm_gpu_chunk_get_size a).

(** The callback gets and returns its data. *)
Section walk.
Context {A : Type} (func : A -> ptr -> P (NV_STATUS * A)) (order : chunk_walk_order_t) (start : ptr).

Definition in_order (o : chunk_walk_order_t) (a : A) (p : ptr) : P (NV_STATUS * A) :=
  match order, o with
  | CHUNK_WALK_PRE_ORDER, CHUNK_WALK_PRE_ORDER | CHUNK_WALK_POST_ORDER, CHUNK_WALK_POST_ORDER => func a p
  | _, _ => mret' (NV_OK, a)
  end.

(** The inner loop, up from a leaf to the next chunk; [inl] is a return. *)
Fixpoint walk_up (fuel : nat) (a : A) (curr : ptr) : P ((NV_STATUS + ptr) * A) :=
  if curr =? start then mret' (inr curr, a)
  else
    match fuel with
    | O => fail OutOfFuel
    | S n =>
        r <- in_order CHUNK_WALK_POST_ORDER a curr ;;
        if decide (fst r = NV_OK) then
          sibling <- next_sibling curr ;;
          match sibling with
          | Some q => mret' (inr q, snd r)
          | None =>
              c <- load curr ;;
              q <- of_assert (c_parent c) ;;
              parent <- load q ;;
              uvm_assert (state_is (c_state parent) STATE_IS_SPLIT) ;;;
              walk_up n (snd r) q
          end
        else mret' (inl (fst r), snd r)
    end.

(** The outer loop; the callback of [start] ends a walk in post-order. *)
Fixpoint walk_loop (fuel : nat) (a : A) (curr : ptr) : P (NV_STATUS * A) :=
  match fuel with
  | O => fail OutOfFuel
  | S n =>
      when (negb (curr =? start)) (assert_chunk_under curr start) ;;;
      r <- in_order CHUNK_WALK_PRE_ORDER a curr ;;
      if decide (fst r = NV_OK \/ fst r = NV_WARN_NOTHING_TO_DO) then
        c <- load curr ;;
        next <- (if negb (bool_decide (fst r = NV_WARN_NOTHING_TO_DO)) && state_is (c_state c) STATE_IS_SPLIT then
                   sa <- suballoc_of c ;; q <- of_option UB (head (sa_subchunks sa)) ;; mret' (inr q, snd r)
                 else walk_up MAX_LEVELS (snd r) curr) ;;
        match next with
        | (inl status, a) => mret' (status, a)
        | (inr q, a) => if q =? start then in_order CHUNK_WALK_POST_ORDER a q else walk_loop n a q
        end
      else mret' r
  end.
End walk.

(** The chunks under a root chunk: at most 512 of 4KB and their ancestors. *)
Definition MAX_CHUNKS : nat := 1024.

Definition chunk_walk_pre_order {A} (start : ptr) (func : A -> ptr -> P (NV_STATUS * A)) (a : A) : P (NV_STATUS * A) :=
  walk_loop func CHUNK_WALK_PRE_ORDER start MAX_CHUNKS a start.
Definition chunk_walk_post_order {A} (start : ptr) (func : A -> ptr -> P (NV_STATUS * A)) (a : A) : P (NV_STATUS * A) :=
  walk_loop func CHUNK_WALK_POST_ORDER start MAX_CHUNKS a start.

(** ** Splitting and merging chunks in use *)

(** The field [allocated_chunks] of a chunk as an array. *)
Definition get_allocated_chunk (p : ptr) (i : Z) : P (option ptr) :=
  c <- load p ;; of_option UB (nthZ (c_allocated_chunks c) i).
Definition set_allocated_chunk (p : ptr) (i : Z) (q : option ptr) : P unit :=
  c <- load p ;;
  guard_or UB ((0 <=? i) && (i <? Z.of_nat (length (c_allocated_chunks c)))) ;;;
  store p (set_allocated_chunks (setZ (c_allocated_chunks c) i q) c).

(** The array of subchunks that is filled is a field [allocated_chunks], or none. *)
Record split_walk_t := SplitWalk {
  sw_min_size : Z;
  sw_num_subchunks_curr : Z;
  sw_num_subchunks_total : Z;
  sw_subchunks : option ptr;
  sw_inject_error : bool;
}.

Definition with_curr (n : Z) (a : split_walk_t) : split_walk_t :=
  SplitWalk (sw_min_size a) n (sw_num_subchunks_total a) (sw_subchunks a) (sw_inject_error a).

Fixpoint collect_children (a : split_walk_t) (qs : list ptr) : P split_walk_t :=
  match qs with
  | [] => mret' a
  | q :: qs' =>
      uvm_assert (sw_num_subchunks_curr a <? sw_num_subchunks_total a) ;;;
      match sw_subchunks a with
      | Some dst => set_allocated_chunk dst (sw_num_subchunks_curr a) (Some q)
      | None => mret' tt
      end ;;;
      collect_children (with_curr (sw_num_subchunks_curr a + 1) a) qs'
  end.

Definition split_walk_func (a : split_walk_t) (p : ptr) : P (NV_STATUS * split_walk_t) :=
  c <- load p ;; s <- get ;;
  let chunk_size := uvm_gpu_chunk_get_size c in
  uvm_assert (sw_min_size a <? chunk_size) ;;;
  child_size <- of_assert (uvm_chunk_find_prev_size (p_chunk_sizes s (c_type c)) chunk_size) ;;
  uvm_assert (negb (child_size =? UVM_CHUNK_SIZE_INVALID)) ;;;
  let num_children := chunk_size / child_size in
  when (sw_inject_error a && (child_size =? sw_min_size a) &&
        (sw_num_subchunks_curr a + num_children =? sw_num_subchunks_total a))
    (update p (set_inject_split_error true)) ;;;
  status <- split_gpu_chunk p ;;
  if decide (status = NV_OK) then
    if child_size =? sw_min_size a then
      c <- load p ;; sa <- suballoc_of c ;;
      a <- collect_children a (take (Z.to_nat num_children) (sa_subchunks sa)) ;;
      mret' (NV_WARN_NOTHING_TO_DO, a)
    else mret' (NV_OK, a)
  else mret' (status, a).

Definition merge_walk_func (a : unit) (p : ptr) : P (NV_STATUS * unit) :=
  c <- load p ;;
  when (state_is (c_state c) STATE_IS_SPLIT) (merge_gpu_chunk p) ;;;
  mret' (NV_OK, tt).

Definition uvm_pmm_gpu_merge_chunk_locked (p : ptr) : P unit :=
  c <- load p ;;
  uvm_assert (state_is (c_state c) STATE_IS_SPLIT || state_is (c_state c) STATE_TEMP_PINNED ||
              state_is (c_state c) STATE_ALLOCATED) ;;;
  r <- chunk_walk_post_order p merge_walk_func tt ;;
  uvm_assert (bool_decide (fst r = NV_OK)) ;;;
  c <- load p ;;
  uvm_assert (state_is (c_state c) STATE_ALLOCATED || state_is (c_state c) STATE_TEMP_PINNED).

Definition uvm_pmm_gpu_merge_chunk (p : ptr) : P unit := uvm_pmm_gpu_merge_chunk_locked p.

Definition uvm_pmm_gpu_split_chunk (p : ptr) (subchunk_size : Z) (subchunks : option ptr) : P NV_STATUS :=
  c <- load p ;; s <- get ;;
  let inject := c_inject_split_error c in
  let args := SplitWalk subchunk_size 0 (uvm_gpu_chunk_get_size c / subchunk_size) subchunks inject in
  uvm_assert (is_power_of_2 subchunk_size) ;;;
  uvm_assert (negb (Z.land subchunk_size (p_chunk_sizes s (c_type c)) =? 0)) ;;;
  uvm_assert (subchunk_size <? uvm_gpu_chunk_get_size c) ;;;
  uvm_assert (state_is (c_state c) STATE_ALLOCATED || state_is (c_state c) STATE_TEMP_PINNED) ;;;
  when inject (update p (set_inject_split_error false)) ;;;
  r <- chunk_walk_pre_order p split_walk_func args ;;
  if decide (fst r = NV_OK) then
    uvm_assert (sw_num_subchunks_curr (snd r) =? sw_num_subchunks_total (snd r)) ;;; mret' NV_OK
  else uvm_pmm_gpu_merge_chunk_locked p ;;; mret' (fst r).

(** The leaves under a chunk, in address order. *)
Record get_subchunks_walk_t := GetSubchunksWalk {
  gw_written : list ptr;
  gw_num_to_write : Z;
  gw_num_to_skip : Z;
}.

Definition get_subchunks_walk_func (a : get_subchunks_walk_t) (p : ptr) : P (NV_STATUS * get_subchunks_walk_t) :=
  c <- load p ;;
  if state_is (c_state c) STATE_IS_SPLIT then mret' (NV_OK, a)
  else
    uvm_assert (state_is (c_state c) STATE_ALLOCATED || state_is (c_state c) STATE_TEMP_PINNED) ;;;
    if negb (gw_num_to_skip a =? 0) then
      mret' (NV_OK, GetSubchunksWalk (gw_written a) (gw_num_to_write a) (gw_num_to_skip a - 1))
    else
      uvm_assert (Z.of_nat (length (gw_written a)) <? gw_num_to_write a) ;;;
      let written := gw_written a ++ [p] in
      let a := GetSubchunksWalk written (gw_num_to_write a) (gw_num_to_skip a) in
      if Z.of_nat (length written) =? gw_num_to_write a then mret' (NV_ERR_OUT_OF_RANGE, a) else mret' (NV_OK, a).

Definition uvm_pmm_gpu_get_subchunks (parent : ptr) (start_index num_subchunks : Z) : P (list ptr) :=
  if num_subchunks =? 0 then mret' []
  else
    c <- load parent ;;
    uvm_assert (state_is (c_state c) STATE_ALLOCATED || state_is (c_state c) STATE_TEMP_PINNED ||
                state_is (c_state c) STATE_IS_SPLIT) ;;;
    r <- chunk_walk_post_order parent get_subchunks_walk_func (GetSubchunksWalk [] num_subchunks start_index) ;;
    when (negb (bool_decide (fst r = NV_OK)))
      (uvm_assert (bool_decide (fst r = NV_ERR_OUT_OF_RANGE)) ;;;
       uvm_assert (Z.of_nat (length (gw_written (snd r))) =? num_subchunks)) ;;;
    mret' (gw_written (snd r)).

(** ** Allocation and freeing with trackers *)

Definition add_trackers (env : tracker_env) (dst src : uvm_tracker_t) : P (NV_STATUS * uvm_tracker_t * uvm_tracker_t) :=
  of_wait (uvm_tracker_add_tracker_safe (te_completed env) (te_completed env) false (te_kv env) (te_kv env) (te_kv env)
             (te_steps env) dst src).

(** The tracker of the root chunk of a new chunk is added to the local one. *)
Definition add_root_tracker (local : uvm_tracker_t) (p : ptr) : P (NV_STATUS * uvm_tracker_t) :=
  r <- root_chunk_from_chunk p ;;
  env <- next_tenv ;;
  t <- tracker_of r ;;
  t <- of_wait (uvm_tracker_remove_completed (te_completed env) t) ;;
  w <- add_trackers env local t ;;
  match w with (status, local, t) => set_tracker r t ;;; mret' (status, local) end.

Section alloc.
Context (gp : gpu_props) (pma : uvm_pmm_gpu_t -> pma_answer).

(** The loop; it ends with the chunks that have to be freed on an error. *)
Fixpoint alloc_loop (n : nat) (t : uvm_pmm_gpu_memory_type_t) (chunk_size : Z) (dont_batch : bool)
    (local : uvm_tracker_t) (chunks : list ptr) : P (NV_STATUS * uvm_tracker_t * list ptr) :=
  match n with
  | O => mret' (NV_OK, local, chunks)
  | S n' =>
      s <- get ;;
      r <- alloc_chunk gp t chunk_size dont_batch (pma s) ;;
      if decide (fst r = NV_OK) then
        p <- of_option UB (snd r) ;;
        w <- add_root_tracker local p ;;
        if decide (fst w = NV_OK) then alloc_loop n' t chunk_size dont_batch (snd w) (chunks ++ [p])
        else mret' (fst w, snd w, chunks ++ [p])
      else mret' (fst r, local, chunks)
  end.

Definition alloc_error (num_chunks : nat) (chunks : list ptr) (status : NV_STATUS) : P (NV_STATUS * list (option ptr)) :=
  for_each (rev chunks) free_chunk ;;; mret' (status, replicate num_chunks None).

Context (gpu_of : uvm_tracker_entry_t -> Z) (gpu : Z).

(** The array of chunks and the caller's tracker are results. *)
Definition uvm_pmm_gpu_alloc (num_chunks : nat) (chunk_size : Z) (mem_type : uvm_pmm_gpu_memory_type_t)
    (dont_batch : bool) (out_tracker : option uvm_tracker_t)
  : P (NV_STATUS * list (option ptr) * option uvm_tracker_t) :=
  s <- get ;;
  uvm_assert (is_power_of_2 chunk_size) ;;;
  uvm_assert (negb (Z.land chunk_size (p_chunk_sizes s mem_type) =? 0)) ;;;
  let t := pmm_squash_memory_type (p_conf_computing s) mem_type in
  r <- alloc_loop num_chunks t chunk_size dont_batch uvm_tracker_init [] ;;
  match r with
  | (status, local, chunks) =>
      if decide (status = NV_OK) then
        env <- next_tenv ;;
        w <- of_wait (uvm_tracker_wait_for_other_gpus gpu_of gpu (te_steps env) local) ;;
        if decide (fst w = NV_OK) then
          o <- match out_tracker with
               | None => mret' (NV_OK, None, snd w)
               | Some out =>
                   env <- next_tenv ;;
                   m <- add_trackers env out (snd w) ;;
                   match m with (status, out, local) => mret' (status, Some out, uvm_tracker_clear local) end
               end ;;
          match o with
          | (status, out_tracker, local) =>
              if decide (status = NV_OK) then
                env <- next_tenv ;;
                d <- of_wait (uvm_tracker_wait_deinit (te_steps env) local) ;;
                mret' (fst d, Some <$> chunks, out_tracker)
              else e <- alloc_error num_chunks chunks status ;; mret' (e, out_tracker)
          end
        else e <- alloc_error num_chunks chunks (fst w) ;; mret' (e, out_tracker)
      else e <- alloc_error num_chunks chunks status ;; mret' (e, out_tracker)
  end.

Definition uvm_pmm_gpu_alloc_user (num_chunks : nat) (chunk_size : Z) (dont_batch : bool)
    (out_tracker : option uvm_tracker_t) : P (NV_STATUS * list (option ptr) * option uvm_tracker_t) :=
  uvm_pmm_gpu_alloc num_chunks chunk_size MEMORY_TYPE_USER dont_batch out_tracker.
End alloc.

(** Kernel chunks are unpinned at once. *)
Definition unpin_kernel (chunk : option ptr) : P unit :=
  p <- of_option UB chunk ;; c <- load p ;;
  uvm_assert (state_is (c_state c) STATE_TEMP_PINNED) ;;;
  chunk_unpin p STATE_ALLOCATED ;;;
  update p (set_is_referenced false).

Definition pmm_gpu_alloc_kernel gp pma gpu_of gpu (num_chunks : nat) (chunk_size : Z) (t : uvm_pmm_gpu_memory_type_t)
    (dont_batch : bool) (out_tracker : option uvm_tracker_t) : P (NV_STATUS * list (option ptr) * option uvm_tracker_t) :=
  r <- uvm_pmm_gpu_alloc gp pma gpu_of gpu num_chunks chunk_size t dont_batch out_tracker ;;
  match r with
  | (status, chunks, _) => when (bool_decide (status = NV_OK)) (for_each chunks unpin_kernel) ;;; mret' r
  end.

(** A pinned user chunk becomes allocated to a VA block; it is on no list.
    [num_cpu_pages] gives the number of pages of a VA block. *)
Definition gpu_unpin_temp (num_cpu_pages : Z -> Z) (p : ptr) (va_block : option Z) (is_referenced : bool) : P unit :=
  c <- load p ;;
  uvm_assert (state_is (c_state c) STATE_TEMP_PINNED) ;;;
  uvm_assert (uvm_pmm_gpu_memory_type_is_user (c_type c)) ;;;
  uvm_assert (bool_decide (c_va_block c = None)) ;;;
  b <- of_assert va_block ;;
  uvm_assert (c_va_block_page_index c <? num_cpu_pages b) ;;;
  chunk_unpin p STATE_ALLOCATED ;;;
  update p (fun c => set_va_block (Some b) (set_is_referenced is_referenced c)) ;;;
  chunk_update_lists_locked p.

Definition uvm_pmm_gpu_unpin_allocated (num_cpu_pages : Z -> Z) (p : ptr) (va_block : option Z) : P unit :=
  gpu_unpin_temp num_cpu_pages p va_block false.
Definition uvm_pmm_gpu_unpin_referenced (num_cpu_pages : Z -> Z) (p : ptr) (va_block : option Z) : P unit :=
  gpu_unpin_temp num_cpu_pages p va_block true.

(** [global_status] is what [uvm_global_get_status] returns. *)
Definition uvm_pmm_gpu_free (global_status : NV_STATUS) (chunk : option ptr) (tracker : option uvm_tracker_t)
  : P (option uvm_tracker_t) :=
  match chunk with
  | None => mret' tracker
  | Some p =>
      c <- load p ;;
      uvm_assert (state_is (c_state c) STATE_ALLOCATED || state_is (c_state c) STATE_TEMP_PINNED) ;;;
      tracker <- match tracker with
                 | None => mret' None
                 | Some t =>
                     env <- next_tenv ;;
                     t <- of_wait (uvm_tracker_remove_completed (te_completed env) t) ;;
                     r <- root_chunk_from_chunk p ;;
                     rt <- tracker_of r ;;
                     rt <- of_wait (uvm_tracker_remove_completed (te_completed env) rt) ;;
                     w <- add_trackers env rt t ;;
                     match w with
                     | (status, rt, t) =>
                         set_tracker r rt ;;;
                         when (negb (bool_decide (status = NV_OK))) (uvm_assert (bool_decide (status = global_status))) ;;;
                         mret' (Some t)
                     end
                 end ;;
      free_chunk p ;;;
      mret' tracker
  end.

(** ** The handle ioctls *)

Definition UVM_CHUNK_SIZE_64K : Z := 64 * 1024.
Definition UVM_CHUNK_SIZE_128K : Z := 128 * 1024.
Definition UVM_CHUNK_SIZE_256K : Z := 256 * 1024.
Definition UVM_PAGE_SIZE_64K : Z := 64 * 1024.

Definition handle_size_ok (size : Z) : bool :=
  (size =? UVM_CHUNK_SIZE_64K) || (size =? UVM_CHUNK_SIZE_128K) || (size =? UVM_CHUNK_SIZE_256K).

Section ioctls.
Context (gp : gpu_props) (pma : uvm_pmm_gpu_t -> pma_answer) (gpu_of : uvm_tracker_entry_t -> Z) (gpu : Z).

(** [gpu_found]: the VA space has the GPU; a missing one is dereferenced.  The
    handle is the physical address of the chunk. *)
Definition uvm_api_get_mem_handle (gpu_found : bool) (size : Z) : P (NV_STATUS * option Z) :=
  uvm_assert (handle_size_ok size) ;;;
  guard_or UB gpu_found ;;;
  r <- uvm_pmm_gpu_alloc_user gp pma gpu_of gpu 1 size false None ;;
  match r with
  | (status, chunks, _) =>
      if decide (status = NV_OK) then
        first <- of_option UB (head chunks) ;; chunk <- of_option UB first ;;
        c <- load chunk ;;
        r <- root_chunk_from_address (c_address c) ;;
        root <- load r ;;
        let index := u64 (c_address c - c_address root) / size in
        set_allocated_chunk r index (Some chunk) ;;;
        status <- (if size =? UVM_PAGE_SIZE_64K then set_allocated_chunk chunk 0 (Some chunk) ;;; mret' NV_OK
                   else uvm_pmm_gpu_split_chunk chunk UVM_PAGE_SIZE_64K (Some chunk)) ;;
        if decide (status = NV_OK) then c <- load chunk ;; mret' (NV_OK, Some (c_address c))
        else mret' (status, None)
      else mret' (status, None)
  end.

(** One turn of the loop of [uvm_api_free_mem_handle]. *)
Definition free_big_page (gpu_chunk : ptr) (i : Z) : P unit :=
  q <- get_allocated_chunk gpu_chunk i ;;
  sub <- of_option UB q ;;
  update sub (set_va_block None) ;;;
  q <- get_allocated_chunk gpu_chunk i ;;
  uvm_pmm_gpu_free NV_OK q None ;;;
  mret' tt.

Definition uvm_api_free_mem_handle (gpu_found : bool) (handle size : Z) : P NV_STATUS :=
  uvm_assert (handle_size_ok size) ;;;
  let num_big_pages := size / UVM_PAGE_SIZE_64K in
  guard_or UB gpu_found ;;;
  r <- root_chunk_from_address handle ;;
  root <- load r ;;
  let handle_index := u64 (handle - c_address root) / size in
  q <- get_allocated_chunk r handle_index ;;
  gpu_chunk <- of_option UB q ;;
  update gpu_chunk (set_va_block None) ;;;
  for_each (up 0 num_big_pages) (free_big_page gpu_chunk) ;;;
  mret' NV_OK.
End ioctls.
