(* ===== verification/UvmPmmKeep.v ===== *)
(** What allocation and freeing leave alone: the field [allocated_chunks] of the
    root chunks, where the handle ioctls keep their handles.  No assumption on the
    state is needed: every function only changes other fields, deletes objects, or
    writes objects it has just allocated. *)

From S2P Require Import Prelude UvmBits UvmCommon UvmTlbBatch UvmTracker UvmPmm UvmPmmHandle.
Local Open Scope Z_scope.

(** The field is an array of 32 pointers. *)
Definition arrays_ok (s : uvm_pmm_gpu_t) : Prop :=
  forall p c, p_heap s !! p = Some c -> length (c_allocated_chunks c) = 32%nat.

Record keep (s s' : uvm_pmm_gpu_t) : Prop := {
  kp_count : p_count s' = p_count s;
  kp_next : p_next s <= p_next s';
  kp_tables : p_count s <= p_next s -> forall r c', r < p_count s -> p_heap s' !! r = Some c' ->
    exists c, p_heap s !! r = Some c /\ c_allocated_chunks c' = c_allocated_chunks c;
  kp_arrays : arrays_ok s -> arrays_ok s';
}.

#[export] Instance keep_refl : Reflexive keep.
Proof. intros s. split; [done|lia| |done]. intros _ r c' _ H. by exists c'. Qed.

#[export] Instance keep_trans : Transitive keep.
Proof.
  intros s1 s2 s3 [A1 A2 A3 A4] [B1 B2 B3 B4]. split; [congruence|lia| |by intros ?%A4%B4]. intros Hn r c3 Hr H3.
  destruct (B3 ltac:(lia) r c3 ltac:(lia) H3) as (c2 & H2 & E2). destruct (A3 Hn r c2 Hr H2) as (c1 & H1 & E1).
  exists c1. split; [done|congruence].
Qed.

Definition keeps {A} (m : P A) : Prop := forall s a s', m s = Ok a s' -> keep s s'.
(** Nothing changes at all. *)
Definition reads {A} (m : P A) : Prop := forall s a s', m s = Ok a s' -> s' = s.
(** The same, where the object at [p] is [c]. *)
Definition keeps_at p c {A} (m : P A) : Prop := forall s a s', p_heap s !! p = Some c -> m s = Ok a s' -> keep s s'.

Create HintDb keeps.
Create HintDb reads.

(** ** Composition *)

Section rules.
Context {A B : Type}.
Implicit Types (m : P A) (k : A -> P B).

Lemma bind_ok m k s b s' : mbind' m k s = Ok b s' -> exists a s1, m s = Ok a s1 /\ k a s1 = Ok b s'.
Proof. unfold mbind'. destruct (m s) as [a s1|]; [|done]. eauto. Qed.

Lemma reads_keeps m : reads m -> keeps m.
Proof. intros H s a s' E. by rewrite (H s a s' E). Qed.
Lemma reads_bind m k : reads m -> (forall a, reads (k a)) -> reads (mbind' m k).
Proof. intros Hm Hk s b s' (a & s1 & E1 & E2)%bind_ok. apply Hm in E1 as ->. by apply Hk in E2. Qed.
Lemma keeps_bind m k : keeps m -> (forall a, keeps (k a)) -> keeps (mbind' m k).
Proof. intros Hm Hk s b s' (a & s1 & E1 & E2)%bind_ok. etransitivity; [by eapply Hm|by eapply Hk]. Qed.
Lemma keeps_at_bind p c m k : reads m -> (forall a, keeps_at p c (k a)) -> keeps_at p c (mbind' m k).
Proof. intros Hm Hk s b s' Hp (a & s1 & E1 & E2)%bind_ok. apply Hm in E1 as ->. by eapply Hk. Qed.
Lemma reads_ret (a : A) : reads (mret' a).
Proof. by intros s b s' [= _ <-]. Qed.
Lemma reads_fail f : reads (fail (A := A) f).
Proof. by intros s a s' E. Qed.
Lemma reads_of_option f (o : option A) : reads (of_option f o).
Proof. by destruct o; [apply reads_ret|apply reads_fail]. Qed.
Lemma reads_gets (f : uvm_pmm_gpu_t -> A) : reads (gets f).
Proof. by intros s b s' [= _ <-]. Qed.
End rules.

Lemma reads_get : reads get.
Proof. by intros s b s' [= _ <-]. Qed.
Lemma reads_guard f b : reads (guard_or f b).
Proof. unfold guard_or. destruct b; [apply reads_ret|apply reads_fail]. Qed.
Lemma reads_load p : reads (load p).
Proof. intros s a s'. unfold load. destruct (p_heap s !! p); [|done]. by intros [= _ <-]. Qed.
#[export] Hint Resolve reads_ret reads_fail reads_of_option reads_gets reads_get reads_guard reads_load : reads.
#[export] Hint Unfold uvm_assert of_assert suballoc_of of_wait : reads.

Lemma keeps_load_bind p {B} (k : uvm_gpu_chunk_t -> P B) : (forall c, keeps_at p c (k c)) -> keeps (mbind' (load p) k).
Proof.
  intros Hk s b s' (c & s1 & E1 & E2)%bind_ok. unfold load in E1. destruct (p_heap s !! p) as [c0|] eqn:E; [|done].
  injection E1 as <- <-. by eapply Hk.
Qed.

Lemma keep_insert s p c c' :
  p_heap s !! p = Some c -> c_allocated_chunks c' = c_allocated_chunks c -> keep s (with_heap (<[p := c']> (p_heap s)) s).
Proof.
  intros Hp Hc. split; [done|cbn; lia| |]; cbn.
  - intros _ r d Hr Hd. destruct (decide (r = p)) as [->|Hne].
    + rewrite lookup_insert_eq in Hd. injection Hd as <-. by exists c.
    + rewrite lookup_insert_ne in Hd by done. by exists d.
  - intros Ha r d. cbn. rewrite lookup_insert. destruct (decide (p = r)) as [<-|]; [|apply Ha].
    intros [= <-]. rewrite Hc. by apply (Ha p).
Qed.

Lemma keeps_at_store p c c' : c_allocated_chunks c' = c_allocated_chunks c -> keeps_at p c (store p c').
Proof. intros Hc s a s' Hp [= _ <-]. by eapply keep_insert. Qed.
Lemma keeps_at_store_bind p c c' {B} (k : unit -> P B) :
  c_allocated_chunks c' = c_allocated_chunks c -> (forall a, keeps (k a)) -> keeps_at p c (mbind' (store p c') k).
Proof. intros Hc Hk s b s' Hp (a & s1 & E1 & E2)%bind_ok. etransitivity; [by eapply keeps_at_store|by eapply Hk]. Qed.

Lemma keeps_update p f : (forall c, c_allocated_chunks (f c) = c_allocated_chunks c) -> keeps (update p f).
Proof. intros Hf. apply keeps_load_bind. intros c. by apply keeps_at_store. Qed.
Lemma keeps_update_suballoc p f : keeps (update_suballoc p f).
Proof. apply keeps_load_bind. intros c. apply keeps_at_bind; [apply reads_of_option|]. intros sa. by apply keeps_at_store. Qed.

(** Changes of the other parts of the state. *)
Lemma keep_same s s' : p_count s' = p_count s -> p_next s' = p_next s -> p_heap s' = p_heap s -> keep s s'.
Proof. intros H1 H2 H3. split; [done|lia| |]; unfold arrays_ok; rewrite H3; eauto. Qed.

Lemma keeps_list_del p : keeps (list_del_init p).
Proof. intros s a s' [= _ <-]. by apply keep_same. Qed.
Lemma keeps_list_move p l : keeps (list_move_tail p l).
Proof. apply keeps_bind; [apply keeps_list_del|]. intros _ s a s' [= _ <-]. by apply keep_same. Qed.
Lemma keeps_kmem_ok : keeps kmem_ok.
Proof. intros s a s'. unfold kmem_ok. destruct (p_kmem s); intros [= _ <-]; [done|by apply keep_same]. Qed.
Lemma keeps_next_tenv : keeps next_tenv.
Proof. intros s a s' [= _ <-]. by apply keep_same. Qed.
Lemma keeps_set_tracker r t : keeps (set_tracker r t).
Proof. intros s a s' [= _ <-]. by apply keep_same. Qed.
Lemma keeps_pma_freed x : keeps (modify (fun s => with_pma_freed (p_pma_freed s ++ x) s)).
Proof. intros s a s' [= _ <-]. by apply keep_same. Qed.
Lemma keeps_kmem_cache_free p : keeps (kmem_cache_free p).
Proof.
  apply keeps_bind; [apply reads_keeps, reads_load|]. intros _ s a s' [= _ <-]. split; [done|cbn; lia| |]; cbn.
  - intros _ r c' _ H. rewrite lookup_delete in H. case_decide; [done|]. by exists c'.
  - intros Ha r c'. cbn. rewrite lookup_delete. case_decide; [done|]. apply Ha.
Qed.

(** An object that has just been allocated is not a root chunk. *)
Lemma keeps_new_object {B} b g (f : ptr -> uvm_gpu_chunk_t) (k : ptr -> P B) :
  (forall q, length (c_allocated_chunks (f q)) = 32%nat) -> (forall q, keeps (k q)) ->
  keeps (mbind' new_ptr (fun q => mbind' (when b (uvm_assert g)) (fun _ => mbind' (store q (f q)) (fun _ => k q)))).
Proof.
  intros Hf Hk s x s' (q & s1 & E1 & (u & s2 & E2 & (v & s3 & E3 & E4)%bind_ok)%bind_ok)%bind_ok.
  assert (s2 = s1) as -> by (destruct b; [by eapply reads_guard|by injection E2]).
  injection E1 as <- <-. injection E3 as _ <-. etransitivity; [|by eapply Hk].
  split; [done|cbn; lia| |]; cbn.
  - intros Hn r c' Hr H. rewrite lookup_insert_ne in H by lia. by exists c'.
  - intros Ha r c'. cbn. rewrite lookup_insert. destruct (decide (p_next s = r)) as [<-|]; [|apply Ha]. by intros [= <-].
Qed.

Lemma keeps_when b m : keeps m -> keeps (when b m).
Proof. intros H. destruct b; [done|apply reads_keeps, reads_ret]. Qed.
Lemma keeps_for_each {X} (l : list X) body : (forall x, keeps (body x)) -> keeps (for_each l body).
Proof. intros H. induction l as [|x l IH]; [apply reads_keeps, reads_ret|]. apply keeps_bind; [apply H|]. by intros _. Qed.
Lemma reads_when b m : reads m -> reads (when b m).
Proof. intros H. destruct b; [done|apply reads_ret]. Qed.

#[export] Hint Resolve keeps_update_suballoc keeps_list_del keeps_list_move keeps_kmem_ok keeps_next_tenv keeps_set_tracker keeps_pma_freed keeps_kmem_cache_free : keeps.

(** ** Automation *)

Ltac unfold_asserts := unfold uvm_assert, of_assert, suballoc_of, of_wait in *.
Ltac reading := unfold_asserts; cbv zeta;
  repeat match goal with
  | |- reads (mbind' _ _) => apply reads_bind; [|intros ?]
  | |- reads (when _ _) => apply reads_when
  | |- reads (if ?b then _ else _) => destruct b
  | |- reads (match ?x with _ => _ end) => destruct x
  | |- reads _ => solve [auto with reads]
  end.
Ltac keeping := unfold_asserts; cbv zeta;
  repeat match goal with
  | |- keeps (mbind' new_ptr _) => apply keeps_new_object; [done|]; intros ?
  | |- keeps (mbind' _ _) => apply keeps_bind; [|intros ?]
  | |- keeps (when _ _) => apply keeps_when
  | |- keeps (for_each _ _) => apply keeps_for_each; intros ?
  | |- keeps (update _ _) => by apply keeps_update
  | |- keeps (if ?b then _ else _) => destruct b
  | |- keeps (match ?x with _ => _ end) => destruct x
  | |- keeps _ => solve [auto with keeps]
  | |- keeps _ => solve [apply reads_keeps; reading]
  end.

(** ** The functions *)

Lemma reads_root_from_address a : reads (root_chunk_from_address a).
Proof. unfold root_chunk_from_address. reading. Qed.
#[export] Hint Resolve reads_root_from_address : reads.
Lemma reads_root p : reads (root_chunk_from_chunk p).
Proof. unfold root_chunk_from_chunk. reading. Qed.
#[export] Hint Resolve reads_root : reads.
Lemma reads_root_pinned p : reads (chunk_is_root_chunk_pinned p).
Proof. unfold chunk_is_root_chunk_pinned. reading. Qed.
Lemma reads_find_free_list t k z : reads (find_free_list t k z).
Proof. unfold find_free_list. reading. Qed.
Lemma reads_list_empty p : reads (list_empty p).
Proof. unfold list_empty. reading. Qed.
Lemma reads_num_subchunks p : reads (num_subchunks p).
Proof. unfold num_subchunks. reading. Qed.
#[export] Hint Resolve reads_root_pinned reads_find_free_list reads_list_empty reads_num_subchunks : reads.

Lemma keeps_chunk_pin p : keeps (chunk_pin p).
Proof.
  unfold chunk_pin. apply keeps_bind; [apply reads_keeps; reading|]. intros r. apply keeps_load_bind. intros c.
  apply keeps_at_bind; [reading|]. intros _. apply keeps_at_store_bind; [done|]. intros _. keeping.
Qed.
Lemma keeps_chunk_unpin p st : keeps (chunk_unpin p st).
Proof.
  unfold chunk_unpin. apply keeps_bind; [apply reads_keeps; reading|]. intros r. apply keeps_load_bind. intros c.
  do 5 (apply keeps_at_bind; [reading|]; intros ?). apply keeps_at_store_bind; [done|]. intros _. keeping.
Qed.
#[export] Hint Resolve keeps_chunk_pin keeps_chunk_unpin : keeps.

Lemma keeps_update_lists p : keeps (chunk_update_lists_locked p).
Proof. unfold chunk_update_lists_locked, find_free_list_chunk. keeping. Qed.
#[export] Hint Resolve keeps_update_lists : keeps.

Lemma reads_check_chunk p : reads (check_chunk p).
Proof. unfold check_chunk. reading. Qed.
Lemma reads_assert_children qs : forall first prev, reads (assert_children first prev qs).
Proof. induction qs as [|q qs IH]; intros first prev; cbn [assert_children]; [reading|]. unfold_asserts. repeat (apply reads_bind; [reading|intros ?]). apply IH. Qed.
#[export] Hint Resolve reads_check_chunk reads_assert_children : reads.
Lemma reads_mergeable p : reads (assert_chunk_mergeable p).
Proof. unfold assert_chunk_mergeable. reading. Qed.
#[export] Hint Resolve reads_mergeable : reads.

Lemma keeps_merge p : keeps (merge_gpu_chunk p).
Proof. unfold merge_gpu_chunk, free_subchunk. keeping. Qed.
Lemma keeps_free_locked p : keeps (chunk_free_locked p).
Proof. unfold chunk_free_locked. keeping. Qed.
#[export] Hint Resolve keeps_merge keeps_free_locked : keeps.
Lemma keeps_try_free p : keeps (try_chunk_free p).
Proof. unfold try_chunk_free, chunk_is_last_allocated_child. keeping. Qed.
#[export] Hint Resolve keeps_try_free : keeps.
Lemma keeps_free_or_prepare p : keeps (free_or_prepare_for_merge p).
Proof. unfold free_or_prepare_for_merge, chunk_is_last_allocated_child, pin_for_merge. keeping. Qed.
#[export] Hint Resolve keeps_free_or_prepare : keeps.
Lemma keeps_free_with_merges fuel : forall p, keeps (free_chunk_with_merges fuel p).
Proof. induction fuel as [|fuel IH]; intros p; cbn [free_chunk_with_merges]; keeping; apply IH. Qed.
#[export] Hint Resolve keeps_free_with_merges : keeps.

Lemma keeps_free_root_chunk r mode : keeps (free_root_chunk r mode).
Proof. unfold free_root_chunk, tracker_of. keeping. Qed.
#[export] Hint Resolve keeps_free_root_chunk : keeps.
Lemma keeps_free_next t : keeps (free_next_available_root_chunk t).
Proof. unfold free_next_available_root_chunk, list_first_chunk. keeping. Qed.
#[export] Hint Resolve keeps_free_next : keeps.
Lemma keeps_free_chunk p : keeps (free_chunk p).
Proof. unfold free_chunk. keeping. Qed.
#[export] Hint Resolve keeps_free_chunk : keeps.

Lemma keeps_alloc_subchunks p c size n idxs : forall l, keeps (alloc_subchunks p c size n idxs l).
Proof. induction idxs as [|i idxs IH]; intros l; cbn [alloc_subchunks]; keeping; apply IH. Qed.
#[export] Hint Resolve keeps_alloc_subchunks : keeps.
Lemma keeps_split p : keeps (split_gpu_chunk p).
Proof. unfold split_gpu_chunk, commit_split. keeping. Qed.
#[export] Hint Resolve keeps_split : keeps.

Lemma keeps_find_free z ps : keeps (find_free z ps).
Proof. induction ps as [|p ps IH]; cbn [find_free]; unfold chunk_is_in_eviction, root_chunk_has_elevated_page; keeping; apply IH. Qed.
#[export] Hint Resolve keeps_find_free : keeps.
Lemma keeps_claim t k : keeps (claim_free_chunk t k).
Proof. unfold claim_free_chunk, find_free_chunk_locked, claim_found, chunk_is_in_eviction. keeping. Qed.
#[export] Hint Resolve keeps_claim : keeps.
Lemma keeps_init_page t z st pa : keeps (init_page t z st pa).
Proof. unfold init_page, init_root_chunk, root_chunk_has_elevated_page. keeping. Qed.
#[export] Hint Resolve keeps_init_page : keeps.
Lemma keeps_alloc_root gp t db pma : keeps (alloc_root_chunk gp t db pma).
Proof. unfold alloc_root_chunk, pma_answered, init_pages. keeping. Qed.
#[export] Hint Resolve keeps_alloc_root : keeps.
Lemma keeps_claim_bigger fuel t : forall k, keeps (claim_bigger fuel t k).
Proof. induction fuel as [|fuel IH]; intros k; cbn [claim_bigger]; keeping; apply IH. Qed.
Lemma keeps_split_down fuel t k0 : forall k p, keeps (split_down fuel t k0 k p).
Proof. induction fuel as [|fuel IH]; intros k p; cbn [split_down]; unfold assert_claimed; keeping; apply IH. Qed.
#[export] Hint Resolve keeps_claim_bigger keeps_split_down : keeps.
Lemma keeps_alloc_chunk gp t k db pma : keeps (alloc_chunk gp t k db pma).
Proof. unfold alloc_chunk, alloc_chunk_with_splits. keeping. Qed.
#[export] Hint Resolve keeps_alloc_chunk : keeps.

(** ** The clients *)

Lemma keeps_add_root_tracker local p : keeps (add_root_tracker local p).
Proof. unfold add_root_tracker, tracker_of, add_trackers. keeping. Qed.
#[export] Hint Resolve keeps_add_root_tracker : keeps.
Lemma keeps_alloc_loop gp pma n t k db : forall local chunks, keeps (alloc_loop gp pma n t k db local chunks).
Proof. induction n as [|n IH]; intros local chunks; cbn [alloc_loop]; keeping; apply IH. Qed.
#[export] Hint Resolve keeps_alloc_loop : keeps.
Lemma keeps_alloc_user gp pma gpu_of gpu n k db o : keeps (uvm_pmm_gpu_alloc_user gp pma gpu_of gpu n k db o).
Proof. unfold uvm_pmm_gpu_alloc_user, uvm_pmm_gpu_alloc, alloc_error, add_trackers. keeping. Qed.

(** A specification with what is left alone. *)
Lemma wp_keep {A} (m : P A) Q F s : keeps m -> wp m (fun a s' => keep s s' -> Q a s') F s -> wp m Q F s.
Proof. intros Hk. unfold wp. destruct (m s) as [a s'|] eqn:E; [|done]. intros H. apply H. by eapply Hk. Qed.
