(* ===== verification/UvmPmmIoctl.v ===== *)
(** Specifications of the clients of the chunk allocator: trackers never get
    stuck, allocation of one chunk with its tracker, and the handle table kept in
    the field [allocated_chunks] of the chunks. *)

From S2P Require Import Prelude UvmBits UvmCommon UvmTlbBatch UvmTracker UvmPmm UvmPmmTree UvmPmmInv UvmPmmOps UvmPmmLeaf UvmPmmMerge UvmPmmFree UvmPmmSplit UvmPmmAlloc UvmPmmRoot UvmPmmHandle UvmPmmKeep.
Local Open Scope Z_scope.

(** ** Trackers *)

Section trackers.
Implicit Types (t dst src : uvm_tracker_t) (env : tracker_env) (steps : list spin_step).

Lemma add_tracker_src_size c1 c2 k1 k2 k3 dst src st dst' src' :
  tracker_ok src -> uvm_tracker_add_tracker c1 c2 false k1 k2 k3 dst src = Some (st, dst', src') -> tk_size src' <= tk_size src.
Proof.
  intros Hs. unfold uvm_tracker_add_tracker. destruct (uvm_tracker_reserve k1 dst (tk_size src)) as [[st1 d1]|]; [|done].
  cbn [mbind option_bind]. destruct (remove_completed_spec c2 src Hs) as (s1 & E1 & _ & _ & _ & _ & _ & Hsz).
  assert (Hfin : forall st0 d0 s0, tk_size s0 <= tk_size src ->
    (if decide (st0 = NV_OK) then es ← uvm_tracker_get_entries s0; d ← add_entries k3 d0 es; Some (NV_OK, d, s0)
     else Some (st0, d0, s0)) = Some (st, dst', src') -> tk_size src' <= tk_size src).
  { intros st0 d0 s0 H0. destruct (decide (st0 = NV_OK)); [|by intros [= _ _ <-]].
    destruct (uvm_tracker_get_entries s0); [|done]. cbn [mbind option_bind]. destruct (add_entries k3 d0 _); [|done].
    by intros [= _ _ <-]. }
  destruct (decide (st1 = NV_ERR_NO_MEMORY)) as [->|Hne]; cbn [mbind option_bind]; [|by apply Hfin].
  destruct (uvm_tracker_remove_completed c1 d1) as [d2|]; [|done]. cbn [mbind option_bind]. rewrite E1. cbn [mbind option_bind].
  destruct (reserve_for_entries_from_tracker k2 d2 s1) as [[st2 d3]|]; [|done]. cbn [mbind option_bind]. by apply Hfin.
Qed.

Lemma all_done_entries env t :
  tenv_ok env -> exists sp, sp ∈ te_steps env /\ forall e, e ∈ tk_entries t -> uvm_tracker_is_entry_completed (sp_completed sp) e = true.
Proof.
  intros [(sp & Hsp & Hd) _ _]. exists sp. split; [done|]. intros e _. unfold uvm_tracker_is_entry_completed. destruct (te_channel e); [apply Hd|done].
Qed.

Lemma add_trackers_total env dst src :
  tenv_ok env -> tracker_ok dst -> small_tracker src -> tk_size dst + tk_size src <= 2 ^ 31 ->
  exists st dst' src',
    uvm_tracker_add_tracker_safe (te_completed env) (te_completed env) false (te_kv env) (te_kv env) (te_kv env)
      (te_steps env) dst src = Some (st, dst', src') /\ tracker_ok dst' /\ small_tracker src'.
Proof.
  intros He Hd [Hs Hsm] Hb. pose proof (tv_channels _ He) as Hch.
  destruct (add_tracker_spec (te_completed env) (te_completed env) (fun _ _ H => H) dst src Hd Hs Hb (te_kv env) (te_kv env) (te_kv env))
    as (st & d & s1 & E & Hd' & Hs1 & _ & _).
  pose proof (add_tracker_src_size _ _ _ _ _ _ _ _ _ _ Hs E) as Hsz. unfold uvm_tracker_add_tracker_safe. rewrite E. cbn [mbind option_bind].
  destruct (decide (st = NV_ERR_NO_MEMORY)); [|eexists _, _, _; split; [done|]; split; [done|]; split; [done|lia]].
  destruct (wait_spec (te_steps env) s1 Hs1 (all_done_entries env s1 He)) as (st' & s2 & -> & Hs2 & He2 & _). cbn [mbind option_bind].
  eexists _, _, _. split; [done|]. split; [done|]. split; [done|]. unfold tk_size. by rewrite He2.
Qed.

(** Some turn of the loop sees all the work completed, and errors agree. *)
Definition steps_ok steps : Prop :=
  (exists sp, sp ∈ steps /\ forall c v, sp_completed sp c v = true) /\
  (forall sp c, sp ∈ steps -> sp_channel_status sp c = NV_OK \/ sp_global_status sp = NV_OK \/ sp_channel_status sp c = sp_global_status sp).

Lemma tenv_steps env : tenv_ok env -> steps_ok (te_steps env).
Proof. by intros []. Qed.

Lemma wait_entry_total e steps :
  steps_ok steps -> exists st e' steps', wait_for_entry_with_spin steps e = Some (st, e', steps') /\ steps_ok steps' /\ (st = NV_OK -> e' = e).
Proof.
  induction steps as [|sp steps IH]; intros Hs; [by destruct Hs as [(? & ?%not_elem_of_nil & _) _]|]. cbn [wait_for_entry_with_spin].
  destruct (uvm_tracker_is_entry_completed (sp_completed sp) e) eqn:Ed; [by eexists _, _, _|].
  unfold uvm_tracker_is_entry_completed in Ed. destruct (te_channel e) as [ch|]; [|done]. cbn [mbind option_bind].
  pose proof (proj2 Hs sp ch ltac:(by left)) as Hag. set (st := sp_channel_status sp ch) in *. set (gl := sp_global_status sp) in *.
  set (status := if decide (st = NV_OK) then _ else st).
  assert (Hgl : status = if decide (gl = NV_OK) then st else gl).
  { unfold status. destruct (decide (st = NV_OK)) as [->|]; [done|]. destruct (decide (gl = NV_OK)); [done|]. destruct Hag as [|[|]]; done. }
  destruct (decide (status = NV_OK)) as [Hok|Hne].
  - apply IH. destruct Hs as [(sp' & Hin & Hd) Herr]. split; [|intros; apply Herr; by right]. exists sp'. split; [|done].
    apply elem_of_cons in Hin as [->|]; [|done]. by rewrite Hd in Ed.
  - rewrite bool_decide_true by done. by eexists _, _, _.
Qed.

Lemma wait_others_total gpu_of gpu es : forall steps,
  steps_ok steps -> exists st es' steps', wait_others gpu_of gpu steps es = Some (st, es', steps') /\ steps_ok steps' /\ (st = NV_OK -> es' = es).
Proof.
  induction es as [|e es IH]; intros steps Hs; cbn [wait_others]; [by eexists _, _, _|].
  assert (H : exists st e' steps', (if gpu_of e =? gpu then Some (NV_OK, e, steps) else wait_for_entry_with_spin steps e) = Some (st, e', steps') /\
    steps_ok steps' /\ (st = NV_OK -> e' = e)) by (destruct (gpu_of e =? gpu); [by eexists _, _, _|by apply wait_entry_total]).
  destruct H as (st & e' & steps1 & -> & Hs1 & He). cbn [mbind option_bind]. destruct (decide (st = NV_OK)) as [->|]; [|by eexists _, _, _].
  destruct (IH steps1 Hs1) as (st2 & es' & steps2 & -> & Hs2 & Hes). cbn [mbind option_bind]. eexists _, _, _. split; [done|]. split; [done|].
  intros Hok. by rewrite (He eq_refl), (Hes Hok).
Qed.

Lemma wait_other_gpus_total gpu_of gpu env t :
  tenv_ok env -> tracker_ok t -> exists st t', uvm_tracker_wait_for_other_gpus gpu_of gpu (te_steps env) t = Some (st, t') /\ (st = NV_OK -> tracker_ok t').
Proof.
  intros He Ht. unfold uvm_tracker_wait_for_other_gpus. rewrite get_entries_ok by done. cbn [mbind option_bind].
  destruct (wait_others_total gpu_of gpu (tk_entries t) (te_steps env) (tenv_steps env He)) as (st & es & steps & -> & Hs & Hes). cbn [mbind option_bind].
  destruct (decide (st = NV_OK)) as [->|Hne]; [|eexists _, _; split; [done|]; by intros ?].
  rewrite (Hes eq_refl). destruct Hs as [(sp & Hin & _) _]. destruct steps as [|sp0 steps]; [by apply not_elem_of_nil in Hin|]. cbn [head mbind option_bind].
  replace (Tracker (tk_entries t) (tk_storage t) (tk_max_size t)) with t by (by destruct t).
  destruct (remove_completed_spec (sp_completed sp0) t Ht) as (t' & -> & Ht' & _). cbn [mbind option_bind]. by eexists _, _.
Qed.
End trackers.

(** ** Steps that do not touch the chunks *)

Section ioctl.
Context (F : fault -> uvm_pmm_gpu_t -> Prop).
Implicit Types (s : uvm_pmm_gpu_t) (h : heap) (p q k : Z) (c d : uvm_gpu_chunk_t).

Record quiet s s' : Prop := {
  qu_ok : pmm_ok None s';
  qu_frame : frame s s';
  qu_heap : p_heap s' = p_heap s;
}.

Lemma quiet_refl s : pmm_ok None s -> quiet s s.
Proof. by split. Qed.
Lemma quiet_trans s1 s2 s3 : quiet s1 s2 -> quiet s2 s3 -> quiet s1 s3.
Proof. intros [A1 A2 A3] [B1 B2 B3]. split; [done|by eapply frame_trans|congruence]. Qed.

Lemma quiet_tenv s : pmm_ok None s -> quiet s (with_tenv (fun n => p_tenv s (S n)) s).
Proof.
  intros [H1 H2 H3 [E1 E2 E3] H5]. split; [|done|done]. split; try done. split; [done|done|]. intros n. apply (E3 (S n)).
Qed.
Lemma quiet_tracker s r t : pmm_ok None s -> small_tracker t -> quiet s (with_trackers (<[r := t]> (p_trackers s)) s).
Proof.
  intros [H1 H2 H3 [E1 E2 E3] H5] Ht. split; [|done|done]. split; try done. cbn. intros k e Hk Hl Hn.
  rewrite lookup_insert. destruct (decide (r = k)); [by exists t|]. by apply (H5 k e).
Qed.

Lemma wp_next_tenv (Q : tracker_env -> _ -> Prop) s :
  pmm_ok None s -> (forall env s', tenv_ok env -> quiet s s' -> Q env s') -> wp next_tenv Q F s.
Proof. intros Hok HQ. apply HQ; [apply Hok|by apply quiet_tenv]. Qed.

Lemma wp_of_wait {A} (o : option A) a (Q : A -> _ -> Prop) s : o = Some a -> Q a s -> wp (of_wait o) Q F s.
Proof. intros -> HQ. exact HQ. Qed.

Lemma wp_add_root_tracker local p c (Q : NV_STATUS * uvm_tracker_t -> _ -> Prop) s :
  pmm_ok None s -> p_heap s !! p = Some c -> ~ pma_owned c -> tracker_ok local -> tk_size local <= 2 ^ 30 ->
  (forall st local' s', tracker_ok local' -> quiet s s' -> Q (st, local') s') ->
  wp (add_root_tracker local p) Q F s.
Proof.
  intros Hok Hc Hn Hl Hsz HQ. pose proof (po_heap _ _ Hok) as Hh. pose proof (ho_tree _ _ _ _ _ Hh) as Ht.
  destruct (heap_root _ _ _ Ht p c Hc) as (rc & Hr & Hrl & _ & _ & _ & _ & Hsub).
  assert (Hrn : ~ pma_owned rc).
  { destruct (decide (c_log2_size c = ROOT)) as [E|E].
    - rewrite (heap_root_self _ _ _ Ht p c Hc E) in Hr. by assert (rc = c) as -> by congruence.
    - pose proof (proj2 (ck_split _ _ _ (ho_chunk _ _ _ _ _ Hh _ rc Hr)) (Hsub E)) as Hs. unfold pma_owned. by rewrite Hs. }
  unfold add_root_tracker. apply wp_bind. eapply wp_root_chunk_from_chunk; [done|done|by eapply chunk_addr|apply Hok|].
  apply wp_bind, wp_next_tenv; [done|]. intros env s1 He Hq1.
  destruct (po_trackers _ _ (qu_ok _ _ Hq1) (root_of c) rc) as (t & Htr & Htk & Hts); [by rewrite (qu_heap _ _ Hq1)|done|done|].
  unfold tracker_of. apply wp_bind. apply wp_bind, wp_get. eapply wp_of_option; [exact Htr|].
  destruct (remove_completed_spec (te_completed env) t Htk) as (t1 & E1 & Ht1 & _ & _ & _ & _ & Hs1).
  apply wp_bind. eapply wp_of_wait; [exact E1|].
  destruct (add_trackers_total env local t1 He Hl) as (st & l' & t2 & E2 & Hl' & Ht2); [split; [done|lia]|lia|].
  apply wp_bind. eapply wp_of_wait; [exact E2|]. apply wp_bind, wp_modify, wp_ret. apply HQ; [done|].
  eapply quiet_trans; [exact Hq1|]. apply quiet_tracker; [apply Hq1|done].
Qed.

(** ** One chunk *)

(** What PMA promises in every state. *)
Class PmaLaw (gp : gpu_props) (pma : uvm_pmm_gpu_t -> pma_answer) : Prop :=
  pma_law : forall s, pmm_ok None s -> pma_ok s gp (pma s).

Context (gp : gpu_props) (pma : uvm_pmm_gpu_t -> pma_answer) `{!PmaLaw gp pma} (gpu_of : uvm_tracker_entry_t -> Z) (gpu : Z).

Lemma fresh_quiet s s' s'' old t k q : fresh_chunk s s' old t k q -> quiet s' s'' -> fresh_chunk s s'' old t k q.
Proof. intros (H1 & H2 & H3) [A1 A2 A3]. split; [done|]. split; [by eapply frame_trans|]. by rewrite A3. Qed.
Lemma kept_quiet s s' s'' old : kept s s' old -> quiet s' s'' -> kept s s'' old.
Proof. intros (H1 & H2 & H3) [A1 A2 A3]. split; [done|]. split; [by eapply frame_trans|]. by rewrite A3. Qed.

(** What the loop leaves for one chunk. *)
Definition one_post s t k (r : NV_STATUS * uvm_tracker_t * list ptr) s' : Prop :=
  match r with
  | (st, local, chunks) =>
      (exists q, chunks = [q] /\ fresh_chunk s s' (live (p_heap s)) t k q /\ tracker_ok local) \/
      (st <> NV_OK /\ chunks = [] /\ kept s s' (live (p_heap s)))
  end.

Lemma wp_alloc_one t k dont_batch (Q : NV_STATUS * uvm_tracker_t * list ptr -> _ -> Prop) s :
  pmm_ok None s -> coalesced (p_heap s) -> type_ok s t -> size_ok s t k ->
  (forall r s', one_post s t k r s' -> Q r s') ->
  wp (alloc_loop gp pma 1 t (2 ^ k) dont_batch uvm_tracker_init []) Q F s.
Proof.
  intros Hok Hco Ht Hk HQ. cbn [alloc_loop]. apply wp_bind, wp_get. apply wp_bind.
  apply wp_alloc_chunk; try done; [by apply pma_law| |].
  - intros q s1 Hfr. rewrite decide_True by done. apply wp_bind. eapply wp_of_option; [done|].
    destruct (fresh_heap _ _ _ _ _ _ Hfr) as (c & Hc & Hs & _). apply wp_bind.
    eapply wp_add_root_tracker; [apply Hfr|exact Hc|unfold pma_owned; by rewrite Hs|apply tracker_init_ok|done|].
    intros st l s2 Hl Hq. assert (Hfr' : fresh_chunk s s2 (live (p_heap s)) t k q) by by eapply fresh_quiet.
    destruct (decide (fst (st, l) = NV_OK)); apply wp_ret, HQ; left; by exists q.
  - intros st s1 Hst Hkept. rewrite (decide_False (P := fst (st, None) = NV_OK)) by done. apply wp_ret, HQ. by right.
Qed.

(** Giving back the chunk of a failed allocation. *)
Lemma wp_alloc_error s s1 t k chunks st (Q : NV_STATUS * list (option ptr) -> _ -> Prop) :
  (exists q, chunks = [q] /\ fresh_chunk s s1 (live (p_heap s)) t k q) \/ chunks = [] /\ kept s s1 (live (p_heap s)) ->
  (forall s', kept s s' (live (p_heap s)) -> Q (st, [None]) s') ->
  wp (alloc_error 1 chunks st) Q F s1.
Proof.
  intros [(q & -> & Hfr)|[-> Hkept]] HQ; unfold alloc_error; cbn [rev app for_each replicate].
  - destruct (fresh_heap _ _ _ _ _ _ Hfr) as (c & Hc & Hs & _ & _ & Hdel). destruct Hfr as (Hok & Hf & Hco & _).
    apply wp_bind, wp_bind. eapply wp_free_chunk; [done|done|done|apply is_live_iff; by right|congruence|].
    intros s2 Hok2 Hf2 Hco2 Hl2. apply wp_ret, wp_ret, HQ. split; [done|]. split; [by eapply frame_trans|]. split; [done|congruence].
  - apply wp_bind, wp_ret, wp_ret. by apply HQ.
Qed.

(** A chunk, or an error; the final wait can fail after the chunk is allocated. *)
Definition alloc_one_post s t k (r : NV_STATUS * list (option ptr) * option uvm_tracker_t) s' : Prop :=
  (exists st q, r = (st, [Some q], None) /\ fresh_chunk s s' (live (p_heap s)) t k q) \/
  (exists st, r = (st, [None], None) /\ st <> NV_OK /\ kept s s' (live (p_heap s))).

Lemma wp_uvm_pmm_gpu_alloc_user k dont_batch (Q : NV_STATUS * list (option ptr) * option uvm_tracker_t -> _ -> Prop) s :
  pmm_ok None s -> coalesced (p_heap s) -> size_ok s MEMORY_TYPE_USER k ->
  (forall r s', alloc_one_post s MEMORY_TYPE_USER k r s' -> Q r s') ->
  wp (uvm_pmm_gpu_alloc_user gp pma gpu_of gpu 1 (2 ^ k) dont_batch None) Q F s.
Proof.
  intros Hok Hco Hk HQ. pose proof Hk as [Hkr Hbit]. unfold uvm_pmm_gpu_alloc_user, uvm_pmm_gpu_alloc. apply wp_bind, wp_get.
  apply wp_bind, wp_assert; [apply pow2_is_power; lia|]. apply wp_bind, wp_assert; [rewrite Z.land_comm, land_pow2, Hbit by lia; done|].
  replace (pmm_squash_memory_type (p_conf_computing s) MEMORY_TYPE_USER) with MEMORY_TYPE_USER by (by destruct (p_conf_computing s)).
  assert (Hty : type_ok s MEMORY_TYPE_USER) by (intros _; by left).
  assert (Herr : forall st s1 chunks, st <> NV_OK -> (exists q, chunks = [q] /\ fresh_chunk s s1 (live (p_heap s)) MEMORY_TYPE_USER k q) \/
      chunks = [] /\ kept s s1 (live (p_heap s)) ->
    wp (mbind' (alloc_error 1 chunks st) (fun e => mret' (e, None))) Q F s1).
  { intros st s1 chunks Hst Hc. apply wp_bind. eapply wp_alloc_error; [exact Hc|]. intros s2 Hk2. apply wp_ret, HQ. right. by exists st. }
  apply wp_bind. apply (wp_alloc_one MEMORY_TYPE_USER k); try done. intros [[st local] chunks] s1 Hone.
  destruct (decide (st = NV_OK)) as [->|Hne].
  2: { apply Herr; [done|]. destruct Hone as [(q & -> & Hfr & _)|(_ & -> & Hkept)]; [left; by exists q|by right]. }
  destruct Hone as [(q & -> & Hfr & Hlt)|(? & _)]; [|done].
  apply wp_bind, wp_next_tenv; [apply Hfr|]. intros env s2 He Hq2. assert (Hfr2 := fresh_quiet _ _ _ _ _ _ _ Hfr Hq2).
  destruct (wait_other_gpus_total gpu_of gpu env local He Hlt) as (st2 & l2 & E2 & Hl2). apply wp_bind. eapply wp_of_wait; [exact E2|].
  destruct (decide (fst (st2, l2) = NV_OK)) as [Hst2|Hne2]; [|apply Herr; [done|left; by exists q]]. cbn [fst] in Hst2. subst st2.
  apply wp_bind, wp_ret. rewrite decide_True by done. apply wp_bind, wp_next_tenv; [apply Hq2|]. intros env3 s3 He3 Hq3.
  destruct (wait_spec (te_steps env3) l2 (Hl2 eq_refl) (all_done_entries env3 l2 He3)) as (st4 & l4 & E4 & _).
  apply wp_bind. eapply wp_of_wait; [unfold uvm_tracker_wait_deinit; cbn [snd]; by rewrite E4|].
  apply wp_ret, HQ. left. exists st4, q. split; [done|]. by eapply fresh_quiet.
Qed.
End ioctl.
