(* ===== verification/UvmPmmHandleCorrect.v ===== *)
(** Correctness of the handle ioctls for handles of one big page (64KB): they
    implement a table from handles, the physical addresses given to user space, to
    chunks in use.  Handles of several big pages, and of different sizes on one
    GPU, are shown on examples. *)

From S2P Require Import Prelude UvmBits UvmCommon UvmTlbBatch UvmTracker UvmPmm UvmPmmTree UvmPmmInv UvmPmmOps UvmPmmLeaf UvmPmmMerge UvmPmmFree UvmPmmSplit UvmPmmAlloc UvmPmmRoot UvmPmmCorrect UvmPmmHandle UvmPmmKeep UvmPmmIoctl.
Local Open Scope Z_scope.

Implicit Types (s : uvm_pmm_gpu_t) (h : heap) (p q k r a : Z) (c d : uvm_gpu_chunk_t) (hs : gmap Z Z).

(** ** Writing the field [allocated_chunks] *)

Section table.
Context (F : fault -> uvm_pmm_gpu_t -> Prop) (s : uvm_pmm_gpu_t) (p : Z) (c : uvm_gpu_chunk_t) (T : list (option Z)).
Context (Hok : pmm_ok None s) (Hc : p_heap s !! p = Some c).
Let h' : heap := <[p := set_allocated_chunks T c]> (p_heap s).

Lemma table_lookup k d' : h' !! k = Some d' -> exists d, p_heap s !! k = Some d /\ d' = set_allocated_chunks (c_allocated_chunks d') d.
Proof.
  unfold h'. rewrite lookup_insert. destruct (decide (p = k)) as [<-|]; [intros [= <-]; by exists c|].
  intros H. exists d'. split; [done|]. by destruct d'.
Qed.

Lemma table_fields k : option_Forall2 (fun d d' => d' = set_allocated_chunks (c_allocated_chunks d') d) (p_heap s !! k) (h' !! k).
Proof.
  unfold h'. rewrite lookup_insert. destruct (decide (p = k)) as [<-|]; [rewrite Hc; by constructor|].
  destruct (p_heap s !! k) as [d|]; constructor. by destruct d.
Qed.

Lemma table_shapes : shape_of <$> h' = shape_of <$> p_heap s.
Proof. apply map_eq. intros k. rewrite !lookup_fmap. destruct (table_fields k) as [d d' E|]; [|done]. by rewrite E. Qed.

Lemma table_is_free k : is_free h' k = is_free (p_heap s) k.
Proof. unfold is_free. destruct (table_fields k) as [d d' E|]; [|done]. by rewrite E. Qed.

Lemma table_pinned_at r k : pinned_at h' r k = pinned_at (p_heap s) r k.
Proof. unfold pinned_at. destruct (table_fields k) as [d d' E|]; [|done]. by rewrite E. Qed.

Lemma table_heap_ok : heap_ok_s s h'.
Proof.
  destruct (po_heap _ _ Hok) as [Ht Hck Ha Hp]. split.
  - unfold tree. by rewrite table_shapes.
  - intros k d' (d & Hd & ->)%table_lookup. destruct (Hck k d Hd). by split.
  - intros k d' sa (d & Hd & ->)%table_lookup Hsa. rewrite (Ha k d sa Hd Hsa). symmetry. apply nonfree_ext. intros q _. apply table_is_free.
  - intros r d' sa (d & Hd & ->)%table_lookup Hl Hsa. rewrite (Hp r d sa Hd Hl Hsa). symmetry. apply pcount_ext. apply table_pinned_at.
Qed.

Lemma table_ok : pmm_ok None (put h' (p_lists s) s).
Proof.
  destruct Hok as [H1 H2 [H3 H3'] H4 H5]. split.
  - exact table_heap_ok.
  - apply (lists_ok_ext _ _ (p_heap s)); [|done]. intros k _. change (p_heap (put h' (p_lists s) s)) with h'. destruct (table_fields k) as [d d' E|]; constructor. by rewrite E.
  - split; [done|]. intros k Hk. cbn. unfold h'. rewrite lookup_insert_ne; [by apply H3'|]. intros ->. by rewrite H3' in Hc.
  - by apply env_ok_put.
  - intros r d' (d & Hd & ->)%table_lookup Hl Hn. by apply (H5 r d).
Qed.

Lemma table_coalesced : coalesced (p_heap s) -> coalesced h'.
Proof. intros Hco k d' sa (d & Hd & ->)%table_lookup Hsa. by apply (Hco k d). Qed.

Lemma table_live : live h' = if is_live c then <[p := set_allocated_chunks T c]> (live (p_heap s)) else live (p_heap s).
Proof.
  apply map_eq. intros k. unfold h'. rewrite lookup_live, lookup_insert. destruct (decide (p = k)) as [<-|Hne].
  - change (is_live (set_allocated_chunks T c)) with (is_live c). destruct (is_live c) eqn:E; [by rewrite lookup_insert_eq|].
    by rewrite lookup_live, Hc, E.
  - destruct (is_live c); [rewrite lookup_insert_ne by done|]; by rewrite lookup_live.
Qed.

Lemma table_arrays : arrays_ok s -> length T = 32%nat -> arrays_ok (put h' (p_lists s) s).
Proof.
  intros Ha HT k d'. cbn. unfold h'. rewrite lookup_insert. destruct (decide (p = k)); [by intros [= <-]|apply Ha].
Qed.
End table.

Lemma wp_set_allocated_chunk F p c i x (Q : unit -> _ -> Prop) s :
  p_heap s !! p = Some c -> 0 <= i < Z.of_nat (length (c_allocated_chunks c)) ->
  Q tt (put (<[p := set_allocated_chunks (setZ (c_allocated_chunks c) i x) c]> (p_heap s)) (p_lists s) s) ->
  wp (set_allocated_chunk p i x) Q F s.
Proof.
  intros Hc Hi HQ. apply wp_bind. eapply wp_load; [done|]. apply wp_bind, wp_guard; [|by apply wp_store].
  apply andb_true_intro. split; [apply Z.leb_le|apply Z.ltb_lt]; lia.
Qed.

Lemma wp_get_allocated_chunk F p c i o (Q : option Z -> _ -> Prop) s :
  p_heap s !! p = Some c -> nthZ (c_allocated_chunks c) i = Some o -> Q o s -> wp (get_allocated_chunk p i) Q F s.
Proof. intros Hc Ho HQ. apply wp_bind. eapply wp_load; [done|]. by eapply wp_of_option. Qed.

(** ** Handles *)

Definition HANDLE : Z := 16.
Definition handle_slot a : Z := (a mod 2 ^ ROOT) / 2 ^ HANDLE.

(** The handle [a] stands for the chunk [p]. *)
Record recorded s a p rc c : Prop := {
  re_root : p_heap s !! (a / 2 ^ ROOT) = Some rc;
  re_slot : nthZ (c_allocated_chunks rc) (handle_slot a) = Some (Some p);
  re_live : live (p_heap s) !! p = Some c;
  re_state : c_state c = STATE_TEMP_PINNED;
  re_size : c_log2_size c = HANDLE;
  re_addr : c_address c = a;
  re_self : nthZ (c_allocated_chunks c) 0 = Some (Some p);
}.

Record handles_ok s hs : Prop := {
  hk_ok : pmm_ok None s;
  hk_coalesced : coalesced (p_heap s);
  hk_arrays : arrays_ok s;
  hk_size : size_ok s MEMORY_TYPE_USER HANDLE;
  hk_recorded : forall a p, hs !! a = Some p -> exists rc c, recorded s a p rc c;
}.

(** The root chunk of a chunk of this size. *)
Lemma handle_root s p c :
  pmm_ok None s -> p_heap s !! p = Some c -> c_log2_size c = HANDLE -> ~ pma_owned c ->
  exists rc, p_heap s !! (c_address c / 2 ^ ROOT) = Some rc /\ c_log2_size rc = ROOT /\
    c_address rc = c_address c / 2 ^ ROOT * 2 ^ ROOT /\ c_address c / 2 ^ ROOT < p_count s /\
    c_address c / 2 ^ ROOT <> p /\ is_live rc = false /\ 0 <= c_address c <= p_max_allocatable_address s /\
    0 <= handle_slot (c_address c) < 32.
Proof.
  intros Hok Hc Hl Hn. pose proof (po_heap _ _ Hok) as Hh. pose proof (ho_tree _ _ _ _ _ Hh) as Ht.
  destruct (heap_root _ _ _ Ht p c Hc) as (rc & Hr & Hrl & _ & Hra & _ & _ & Hsub). fold (root_of c).
  assert (Hne : c_log2_size c <> ROOT) by (rewrite Hl; done). exists rc. split_and!; try done.
  - apply (so_root _ _ _ _ _ (heap_shape _ _ _ Ht _ rc Hr) Hrl).
  - intros E. rewrite E in Hr. congruence.
  - pose proof (proj2 (ck_split _ _ _ (ho_chunk _ _ _ _ _ Hh _ rc Hr)) (Hsub Hne)) as Hs. unfold is_live. by rewrite Hs.
  - apply (heap_addr _ _ _ Ht p c Hc).
  - by eapply chunk_addr.
  - apply Z.div_pos; [apply Z.mod_pos_bound|]; done.
  - apply Z.div_lt_upper_bound; [done|]. change (2 ^ HANDLE * 32) with (2 ^ ROOT). by apply Z.mod_pos_bound.
Qed.

(** A handle survives a change that keeps its chunk and the table of its root chunk. *)
Lemma recorded_keep s s' a p rc c :
  pmm_ok None s -> pmm_ok None s' -> keep s s' -> live (p_heap s') !! p = Some c -> recorded s a p rc c -> exists rc', recorded s' a p rc' c.
Proof.
  intros Hok Hok' Hk Hl [R1 R2 R3 R4 R5 R6 R7]. apply live_lookup in Hl as Hl'. destruct Hl' as [Hc' Hlc].
  destruct (handle_root s' p c Hok' Hc' R5) as (rc' & Hr & _ & _ & Hcnt & _); [unfold pma_owned; by rewrite R4|]. rewrite R6 in *.
  rewrite (kp_count _ _ Hk) in Hcnt. destruct (kp_tables _ _ Hk (proj1 (po_next _ _ Hok)) _ rc' Hcnt Hr) as (rc0 & Hr0 & Et).
  assert (rc0 = rc) as -> by congruence. exists rc'. split; try done. by rewrite Et.
Qed.

Lemma slot_inj a a' :
  a mod 2 ^ HANDLE = 0 -> a' mod 2 ^ HANDLE = 0 -> a / 2 ^ ROOT = a' / 2 ^ ROOT -> handle_slot a = handle_slot a' -> a = a'.
Proof.
  unfold handle_slot. intros H H' Hr Hs. pose proof (Z.div_mod a (2 ^ ROOT) ltac:(done)) as E. pose proof (Z.div_mod a' (2 ^ ROOT) ltac:(done)) as E'.
  assert (Hm : forall x, x mod 2 ^ HANDLE = 0 -> (x mod 2 ^ ROOT) mod 2 ^ HANDLE = 0).
  { intros x Hx. rewrite Z.mod_mod_divide; [done|]. by exists 32. }
  pose proof (Z.div_mod (a mod 2 ^ ROOT) (2 ^ HANDLE) ltac:(done)) as D. pose proof (Z.div_mod (a' mod 2 ^ ROOT) (2 ^ HANDLE) ltac:(done)) as D'.
  rewrite (Hm a H) in D. rewrite (Hm a' H') in D'. rewrite Hs in D. lia.
Qed.

Lemma handle_index s a rc :
  0 <= a <= p_max_allocatable_address s -> env_ok s -> c_address rc = a / 2 ^ ROOT * 2 ^ ROOT ->
  u64 (a - c_address rc) / UVM_PAGE_SIZE_64K = handle_slot a.
Proof.
  intros Ha He Hr. pose proof (eo_max _ He) as Hm. rewrite Hr. unfold handle_slot. change UVM_PAGE_SIZE_64K with (2 ^ HANDLE). f_equal.
  pose proof (Z.div_mod a (2 ^ ROOT) ltac:(done)) as E. pose proof (Z.mod_pos_bound a (2 ^ ROOT) ltac:(done)) as Hb.
  replace (a - a / 2 ^ ROOT * 2 ^ ROOT) with (a mod 2 ^ ROOT) by lia. apply u64_small. assert (2 ^ ROOT < 2 ^ 64) by done. unfold is_u64. lia.
Qed.

Lemma wp_root_from_address F p c (Q : Z -> _ -> Prop) s :
  pmm_ok None s -> p_heap s !! p = Some c -> ~ pma_owned c -> Q (c_address c / 2 ^ ROOT) s ->
  wp (root_chunk_from_address (c_address c)) Q F s.
Proof.
  intros Hok Hc Hn HQ. pose proof (po_heap _ _ Hok) as Hh.
  assert (H : wp (root_chunk_from_chunk p) Q F s).
  { eapply wp_root_chunk_from_chunk; [apply Hh|done|by eapply chunk_addr|apply Hok|done]. }
  unfold wp, root_chunk_from_chunk, mbind' in H. unfold load at 1 in H. by rewrite Hc in H.
Qed.

(** ** Getting a handle *)

(** The handles are not touched. *)
Lemma handles_keep s s' hs :
  handles_ok s hs -> pmm_ok None s' -> coalesced (p_heap s') -> frame s s' -> keep s s' ->
  (forall a p, hs !! a = Some p -> live (p_heap s') !! p = live (p_heap s) !! p) -> handles_ok s' hs.
Proof.
  intros [H1 H2 H3 H4 H5] Hok' Hco' Hf Hk Hl. split; try done.
  - by apply Hk.
  - destruct H4 as [H4 H4']. split; [done|]. by rewrite (fr_sizes _ _ Hf).
  - intros a p Ha. destruct (H5 a p Ha) as (rc & c & Hr). destruct (recorded_keep s s' a p rc c H1 Hok' Hk) as (rc' & Hr'); [|done|by exists rc', c].
    rewrite (Hl a p Ha). apply Hr.
Qed.

(** Two handles of the table have different chunks. *)
Lemma recorded_inj s a a' p rc rc' c c' : recorded s a p rc c -> recorded s a' p rc' c' -> a = a'.
Proof. intros H H'. pose proof (re_live _ _ _ _ _ H). pose proof (re_live _ _ _ _ _ H'). rewrite <- (re_addr _ _ _ _ _ H), <- (re_addr _ _ _ _ _ H'). congruence. Qed.

Lemma recorded_aligned s a p rc c : pmm_ok None s -> recorded s a p rc c -> a mod 2 ^ HANDLE = 0.
Proof. intros Hok H. destruct (live_range s p c Hok (re_live _ _ _ _ _ H)) as (_ & Hm & _). by rewrite (re_addr _ _ _ _ _ H), (re_size _ _ _ _ _ H) in Hm. Qed.

(** A chunk in use at the address of a handle is its chunk. *)
Lemma handle_chunk s hs a p q c :
  handles_ok s hs -> hs !! a = Some p -> live (p_heap s) !! q = Some c -> c_log2_size c = HANDLE -> c_address c = a -> p = q.
Proof.
  intros Hs Ha Hq Hl Hc. destruct (hk_recorded _ _ Hs a p Ha) as (rc & d & Hr). destruct (decide (p = q)) as [|Hne]; [done|].
  pose proof (live_apart s p q d c (hk_ok _ _ Hs) (re_live _ _ _ _ _ Hr) Hq Hne) as Hap. unfold apart, chunk_end in Hap.
  rewrite (re_addr _ _ _ _ _ Hr), (re_size _ _ _ _ _ Hr), Hl, Hc in Hap. assert (0 < 2 ^ HANDLE) by done. lia.
Qed.

(** Entering a new chunk in the tables. *)
Section enter.
Context (s : uvm_pmm_gpu_t) (hs : gmap Z Z) (Hs : handles_ok s hs).
Context (q : Z) (c rc : uvm_gpu_chunk_t) (Hq : live (p_heap s) !! q = Some c).
Context (Hst : c_state c = STATE_TEMP_PINNED) (Hl : c_log2_size c = HANDLE) (Hnew : hs !! c_address c = None).
Let a : Z := c_address c.
Let r : Z := a / 2 ^ ROOT.
Context (Hr : p_heap s !! r = Some rc).
Definition new_root : uvm_gpu_chunk_t := set_allocated_chunks (setZ (c_allocated_chunks rc) (handle_slot a) (Some q)) rc.
Definition new_chunk : uvm_gpu_chunk_t := set_allocated_chunks (setZ (c_allocated_chunks c) 0 (Some q)) c.
Definition entered : uvm_pmm_gpu_t := put (<[q := new_chunk]> (<[r := new_root]> (p_heap s))) (p_lists s) s.

Lemma enter_root : r <> q /\ is_live rc = false /\ 0 <= handle_slot a < 32.
Proof.
  apply live_lookup in Hq as [Hc _]. destruct (handle_root s q c (hk_ok _ _ Hs) Hc Hl) as (rc0 & Hr0 & _ & _ & _ & Hne & Hlv & _ & Hsl).
  { unfold pma_owned. by rewrite Hst. }
  fold a in Hr0, Hne, Hsl. fold r in Hr0, Hne. assert (rc0 = rc) as -> by congruence. done.
Qed.

Lemma enter_q : (<[r := new_root]> (p_heap s) : heap) !! q = Some c.
Proof. destruct enter_root as [Hne _]. rewrite lookup_insert_ne by done. by apply live_lookup in Hq as [Hc _]. Qed.

Lemma enter_live : live (p_heap entered) = <[q := new_chunk]> (live (p_heap s)).
Proof.
  destruct enter_root as (Hne & Hlv & _). set (s1 := put (<[r := new_root]> (p_heap s)) (p_lists s) s).
  pose proof (table_live s1 q c (setZ (c_allocated_chunks c) 0 (Some q)) enter_q) as E. fold new_chunk in E.
  assert (Hlc : is_live c = true) by (apply is_live_iff; by right). rewrite Hlc in E. etransitivity; [exact E|].
  f_equal. unfold s1, new_root. cbn [p_heap put with_lists with_heap]. by rewrite (table_live s r rc _ Hr), Hlv.
Qed.

Lemma enter_handles : handles_ok entered (<[a := q]> hs).
Proof.
  destruct enter_root as (Hne & Hlv & Hsl). pose proof (hk_ok _ _ Hs) as Hok. pose proof (hk_arrays _ _ Hs) as Harr.
  pose proof (table_ok s r rc (setZ (c_allocated_chunks rc) (handle_slot a) (Some q)) Hok Hr) as Hok1. fold new_root in Hok1.
  set (s1 := put (<[r := new_root]> (p_heap s)) (p_lists s) s) in *. pose proof enter_q as Hq1.
  assert (Hlen : forall k d, p_heap s !! k = Some d -> length (c_allocated_chunks d) = 32%nat) by apply Harr.
  apply live_lookup in Hq as Hq'. destruct Hq' as [Hc _]. split.
  - apply (table_ok s1 q c _ Hok1 Hq1).
  - apply (table_coalesced s1 q c _ Hq1), (table_coalesced s r rc _ Hr), Hs.
  - apply (table_arrays s1 q c); [|by rewrite length_setZ, (Hlen q c Hc)]. apply (table_arrays s r rc); [done|]. by rewrite length_setZ, (Hlen r rc Hr).
  - apply Hs.
  - intros a' p'. destruct (decide (a' = a)) as [->|Hna].
    + rewrite lookup_insert_eq. intros [= <-]. exists new_root, new_chunk. split; try done.
      * cbn. fold r. rewrite lookup_insert_ne, lookup_insert_eq by done. done.
      * cbn. rewrite nthZ_setZ_eq; [done|]. rewrite (Hlen r rc Hr). lia.
      * by rewrite enter_live, lookup_insert_eq.
      * unfold new_chunk. cbn [c_allocated_chunks set_allocated_chunks]. rewrite nthZ_setZ_eq; [done|]. rewrite (Hlen q c Hc). lia.
    + rewrite lookup_insert_ne by done. intros Ha'. destruct (hk_recorded _ _ Hs a' p' Ha') as (rc2 & c2 & Hrec).
      assert (Hpq : q <> p').
      { intros <-. apply Hna. rewrite <- (re_addr _ _ _ _ _ Hrec). unfold a. f_equal. pose proof (re_live _ _ _ _ _ Hrec). congruence. }
      destruct Hrec as [R1 R2 R3 R4 R5 R6 R7]. pose proof R3 as [Hc2 _]%live_lookup.
      assert (Hrq : q <> a' / 2 ^ ROOT).
      { destruct (handle_root s p' c2 Hok Hc2 R5) as (rc3 & Hr3 & Hrl3 & _); [unfold pma_owned; by rewrite R4|].
        rewrite R6 in Hr3. intros E. rewrite <- E, Hc in Hr3. injection Hr3 as <-. by rewrite Hl in Hrl3. }
      destruct (decide (r = a' / 2 ^ ROOT)) as [Hrr|Hrr].
      * assert (rc2 = rc) as -> by congruence. exists new_root, c2. split; try done.
        -- cbn. rewrite <- Hrr, lookup_insert_ne, lookup_insert_eq by (done || congruence). done.
        -- cbn. rewrite nthZ_setZ_ne; [done|]. intros E. apply Hna. symmetry. apply slot_inj; [|apply (recorded_aligned s a' p' rc c2 Hok); by split|done|done].
           destruct (live_range s q c Hok Hq) as (_ & Hm & _). by rewrite Hl in Hm.
        -- by rewrite enter_live, lookup_insert_ne.
      * exists rc2, c2. split; try done.
        -- cbn. rewrite !lookup_insert_ne by done. done.
        -- by rewrite enter_live, lookup_insert_ne.
Qed.
End enter.

Section ioctls.
Context (F : fault -> uvm_pmm_gpu_t -> Prop).
Context (gp : gpu_props) (pma : uvm_pmm_gpu_t -> pma_answer) `{!PmaLaw gp pma} (gpu_of : uvm_tracker_entry_t -> Z) (gpu : Z).

Definition got s s' hs a p : Prop :=
  hs !! a = None /\ 0 <= a /\ a mod 2 ^ HANDLE = 0 /\ a + 2 ^ HANDLE <= p_max_allocatable_address s + 1 /\
  live (p_heap s) !! p = None /\ handles_ok s' (<[a := p]> hs) /\
  exists c, live (p_heap s') = <[p := c]> (live (p_heap s)) /\ c_address c = a /\ c_log2_size c = HANDLE.

Lemma wp_get_mem_handle hs (Q : NV_STATUS * option Z -> _ -> Prop) s :
  handles_ok s hs ->
  (forall a p s', got s s' hs a p -> Q (NV_OK, Some a) s') ->
  (forall st s', st <> NV_OK -> handles_ok s' hs -> live (p_heap s) ⊆ live (p_heap s') -> Q (st, None) s') ->
  wp (uvm_api_get_mem_handle gp pma gpu_of gpu true UVM_CHUNK_SIZE_64K) Q F s.
Proof.
  intros Hs HQ Herr. pose proof (hk_ok _ _ Hs) as Hok. unfold uvm_api_get_mem_handle. apply wp_bind, wp_assert; [done|]. apply wp_bind, wp_guard; [done|].
  apply wp_bind, wp_keep; [apply keeps_alloc_user|]. change UVM_CHUNK_SIZE_64K with (2 ^ HANDLE).
  apply (wp_uvm_pmm_gpu_alloc_user F gp pma gpu_of gpu); [done|apply Hs|apply Hs|]. intros res s1 Hpost Hkeep.
  destruct Hpost as [(st & q & -> & Hfr)|(st & -> & Hst & Hok1 & Hf1 & Hco1 & Hl1)].
  2: { rewrite (decide_False (P := st = NV_OK)) by done. apply wp_ret, Herr; [done| |by rewrite Hl1].
    eapply handles_keep; try done. intros a p _. by rewrite Hl1. }
  destruct (fresh_heap _ _ _ _ _ _ Hfr) as (c & Hc & Hcs & _ & Hcl & _). pose proof Hfr as (Hok1 & Hf1 & Hco1 & Hqn & c1 & Hl1 & _).
  assert (Hne : forall a p, hs !! a = Some p -> p <> q).
  { intros a p Ha ->. destruct (hk_recorded _ _ Hs a q Ha) as (rc & d & Hr). pose proof (re_live _ _ _ _ _ Hr). congruence. }
  assert (Hs1 : handles_ok s1 hs).
  { eapply handles_keep; try done. intros a p Ha. rewrite Hl1, lookup_insert_ne; [done|]. intros E. by apply (Hne a p Ha). }
  destruct (decide (st = NV_OK)) as [->|Hst].
  2: { apply wp_ret, Herr; [done|done|]. rewrite Hl1. by apply insert_subseteq. }
  assert (Hlc : live (p_heap s1) !! q = Some c) by (apply live_lookup; split; [done|apply is_live_iff; by right]).
  assert (Hn : ~ pma_owned c) by (unfold pma_owned; by rewrite Hcs).
  destruct (handle_root s1 q c Hok1 Hc Hcl Hn) as (rc & Hr & _ & Hra & _ & Hrq & _ & Har & Hsl).
  assert (Hnew : hs !! c_address c = None).
  { destruct (hs !! c_address c) as [p|] eqn:E; [|done]. exfalso. apply (Hne _ _ E). by eapply handle_chunk. }
  apply wp_bind. eapply wp_of_option; [done|]. apply wp_bind. eapply wp_of_option; [done|]. apply wp_bind. eapply wp_load; [exact Hc|].
  apply wp_bind. eapply wp_root_from_address; [exact Hok1|exact Hc|exact Hn|]. apply wp_bind. eapply wp_load; [exact Hr|].
  change (2 ^ HANDLE) with UVM_PAGE_SIZE_64K. rewrite (handle_index s1 (c_address c) rc Har (po_env _ _ Hok1) Hra).
  apply wp_bind. eapply wp_set_allocated_chunk; [exact Hr|by rewrite (hk_arrays _ _ Hs1 _ rc Hr)|].
  apply wp_bind. apply wp_bind. eapply wp_set_allocated_chunk; [by apply (enter_q s1 hs Hs1 q c rc Hlc Hcs Hcl Hr)|by rewrite (hk_arrays _ _ Hs1 _ c Hc)|].
  apply wp_ret. rewrite (decide_True (P := NV_OK = NV_OK)) by done. apply wp_bind. eapply wp_load; [apply lookup_insert_eq|]. apply wp_ret.
  cbn [c_address set_allocated_chunks]. apply (HQ _ q). destruct (live_range s1 q c Hok1 Hlc) as (Ha0 & Ham & Hend). unfold chunk_end in Hend.
  rewrite Hcl in Ham, Hend. rewrite (fr_max _ _ Hf1) in Hend. split; [done|]. split; [done|]. split; [done|]. split; [done|]. split; [done|].
  split; [by apply (enter_handles s1 hs Hs1 q c rc Hlc Hcs Hcl Hr)|].
  exists (new_chunk q c). split; [|done]. etransitivity; [by apply (enter_live s1 hs Hs1 q c rc Hlc Hcs Hcl Hr)|].
  rewrite Hl1. apply insert_insert_eq.
Qed.

(** ** Freeing a handle *)

(** A pinned chunk has no VA block to reset. *)
Lemma wp_reset_va_block p c (Q : unit -> _ -> Prop) s :
  pmm_ok None s -> p_heap s !! p = Some c -> c_state c = STATE_TEMP_PINNED -> Q tt s -> wp (update p (set_va_block None)) Q F s.
Proof.
  intros Hok Hc Hs HQ. eapply wp_update; [done|].
  destruct (ck_va _ _ _ (ho_chunk _ _ _ _ _ (po_heap _ _ Hok) p c Hc)) as [Hva _]; [by rewrite Hs|].
  replace (set_va_block None c) with c by (destruct c; cbn in *; by subst). rewrite insert_id by done. by rewrite put_id.
Qed.

Lemma wp_free_mem_handle hs a p (Q : NV_STATUS -> _ -> Prop) s :
  handles_ok s hs -> hs !! a = Some p ->
  (forall s', handles_ok s' (delete a hs) -> live (p_heap s') = delete p (live (p_heap s)) -> Q NV_OK s') ->
  wp (uvm_api_free_mem_handle true a UVM_CHUNK_SIZE_64K) Q F s.
Proof.
  intros Hs Ha HQ. pose proof (hk_ok _ _ Hs) as Hok. destruct (hk_recorded _ _ Hs a p Ha) as (rc & c & Hrec).
  pose proof Hrec as [R1 R2 R3 R4 R5 R6 R7]. pose proof R3 as [Hc Hlc]%live_lookup.
  assert (Hn : ~ pma_owned c) by (unfold pma_owned; by rewrite R4).
  destruct (handle_root s p c Hok Hc R5 Hn) as (rc0 & Hr0 & _ & Hra & _ & _ & _ & Har & _). rewrite R6 in *.
  assert (rc0 = rc) as -> by congruence.
  unfold uvm_api_free_mem_handle. apply wp_bind, wp_assert; [done|]. apply wp_bind, wp_guard; [done|].
  apply wp_bind. rewrite <- R6. eapply wp_root_from_address; [exact Hok|exact Hc|exact Hn|]. rewrite R6. apply wp_bind. eapply wp_load; [exact R1|].
  change UVM_CHUNK_SIZE_64K with UVM_PAGE_SIZE_64K. rewrite (handle_index s a rc Har (po_env _ _ Hok) Hra).
  apply wp_bind. eapply wp_get_allocated_chunk; [exact R1|exact R2|]. apply wp_bind. eapply wp_of_option; [done|].
  apply wp_bind. eapply wp_reset_va_block; [exact Hok|exact Hc|done|].
  change (up 0 (UVM_PAGE_SIZE_64K / UVM_PAGE_SIZE_64K)) with [0]. cbn [for_each]. apply wp_bind, wp_bind. unfold free_big_page.
  apply wp_bind. eapply wp_get_allocated_chunk; [exact Hc|exact R7|]. apply wp_bind. eapply wp_of_option; [done|].
  apply wp_bind. eapply wp_reset_va_block; [exact Hok|exact Hc|done|]. apply wp_bind. eapply wp_get_allocated_chunk; [exact Hc|exact R7|].
  apply wp_bind. unfold uvm_pmm_gpu_free. apply wp_bind. eapply wp_load; [exact Hc|]. apply wp_bind, wp_assert; [exact Hlc|]. apply wp_bind, wp_ret.
  apply wp_bind, wp_keep; [apply keeps_free_chunk|]. apply (wp_free_chunk F p c); [done|apply Hs|done|done|by rewrite R4|].
  intros s' Hok' Hf' Hco' Hl' Hkeep. do 4 apply wp_ret. apply HQ; [|done]. eapply handles_keep; [|exact Hok'|exact Hco'|exact Hf'|exact Hkeep|].
  - destruct Hs as [H1 H2 H3 H4 H5]. split; try done. intros a' p'. rewrite lookup_delete. case_decide; [done|]. apply H5.
  - intros a' p'. rewrite lookup_delete. case_decide as Hne; [done|]. intros Ha'. rewrite Hl', lookup_delete_ne; [done|]. intros <-.
    destruct (hk_recorded _ _ Hs a' p Ha') as (rc2 & c2 & Hrec2). apply Hne. by eapply recorded_inj.
Qed.
End ioctls.

(** ** The first handle *)

Lemma boot_arrays mu mk mem max conf numa pc km te s :
  uvm_pmm_gpu_init mu mk mem max conf numa pc km te = Some s -> arrays_ok s.
Proof.
  unfold uvm_pmm_gpu_init, UVM_ASSERT.
  destruct (chunk_sizes_ok (init_chunk_sizes mu mk mem MEMORY_TYPE_USER)); [|done]. destruct (chunk_sizes_ok (init_chunk_sizes mu mk mem MEMORY_TYPE_KERNEL)); [|done].
  destruct (max <? UVM_GPU_MAX_PHYS_MEM); [|done]. destruct (UVM_ALIGN_UP max UVM_CHUNK_SIZE_MAX) as [top|]; [|done]. intros [= <-] p c. cbn.
  rewrite lookup_init_chunks. case_decide; [|done]. by intros [= <-].
Qed.

Lemma boot_handles s : booted s -> size_ok s MEMORY_TYPE_USER HANDLE -> handles_ok s ∅.
Proof.
  intros Hb Hk. destruct (reachable_ok s) as [Hok Hco]; [by exists s|]. split; try done.
  destruct Hb as (mu & mk & mem & max & conf & numa & pc & km & te & _ & _ & _ & _ & _ & H). by eapply boot_arrays.
Qed.

(** ** A PMA that gives the first page it owns *)

Definition pma_page s (i : Z) : option Z :=
  match p_heap s !! i with
  | Some c => if state_is (c_state c) STATE_PMA_OWNED && (c_address c + UVM_CHUNK_SIZE_MAX <=? p_max_allocatable_address s + 1)
              then Some (c_address c) else None
  | None => None
  end.
Definition first_fit_pma s : pma_answer :=
  match omap (pma_page s) (seqZ 0 (p_count s)) with [] => PmaError NV_ERR_NO_MEMORY | pa :: _ => PmaPages [pa] false end.

Lemma pma_page_ok s i pa : pmm_ok None s -> pma_page s i = Some pa -> page_ok s pa.
Proof.
  intros Hok. unfold pma_page. destruct (p_heap s !! i) as [c|] eqn:Hc; [|done].
  destruct (state_is (c_state c) STATE_PMA_OWNED && _) eqn:E; [|done]. intros [= <-].
  apply andb_prop in E as [Hs%bool_decide_eq_true Htop%Z.leb_le]. pose proof (po_heap _ _ Hok) as Hh. pose proof (ho_tree _ _ _ _ _ Hh) as Ht.
  pose proof (ck_pma _ _ _ (ho_chunk _ _ _ _ _ Hh i c Hc) Hs) as Hl. pose proof (heap_root_self _ _ _ Ht i c Hc Hl) as Hr.
  destruct (heap_addr _ _ _ Ht i c Hc) as [_ Hm]. rewrite Hl in Hm. split; [exact Hm|]. split; [done|]. exists c. split; [|done].
  change UVM_CHUNK_SIZE_MAX with (2 ^ ROOT). fold (root_of c). by rewrite Hr.
Qed.

#[export] Instance first_fit_law gp : 0 <= gp_batch_order gp -> PmaLaw gp first_fit_pma.
Proof.
  intros Ho s Hok. unfold first_fit_pma. destruct (omap (pma_page s) (seqZ 0 (p_count s))) as [|pa l] eqn:E; [done|].
  split; [done|]. split; [rewrite Z.shiftl_1_l; pose proof (Z.pow_pos_nonneg 2 (gp_batch_order gp)); cbn; lia|].
  split; [apply NoDup_singleton|]. intros a ->%list_elem_of_singleton.
  assert (Hin : pa ∈ omap (pma_page s) (seqZ 0 (p_count s))) by (rewrite E; by left). apply list_elem_of_omap in Hin as (i & _ & Hi). by eapply pma_page_ok.
Qed.

(** ** The ioctls as a system *)

Section system.
Context (gp : gpu_props) (pma : uvm_pmm_gpu_t -> pma_answer) `{!PmaLaw gp pma} (gpu_of : uvm_tracker_entry_t -> Z) (gpu : Z).

Definition get_handle : P (NV_STATUS * option Z) := uvm_api_get_mem_handle gp pma gpu_of gpu true UVM_CHUNK_SIZE_64K.
Definition free_handle a : P NV_STATUS := uvm_api_free_mem_handle true a UVM_CHUNK_SIZE_64K.

(** User space knows the handles it was given and frees those. *)
Inductive ioctl_step : uvm_pmm_gpu_t * gset Z -> uvm_pmm_gpu_t * gset Z -> Prop :=
| ioctl_get s H a s' : get_handle s = Ok (NV_OK, Some a) s' -> ioctl_step (s, H) (s', {[a]} ∪ H)
| ioctl_get_error s H st o s' : get_handle s = Ok (st, o) s' -> st <> NV_OK -> ioctl_step (s, H) (s', H)
| ioctl_free s H a st s' : a ∈ H -> free_handle a s = Ok st s' -> ioctl_step (s, H) (s', H ∖ {[a]}).

Definition ioctl_reachable s (H : gset Z) : Prop :=
  exists s0, booted s0 /\ size_ok s0 MEMORY_TYPE_USER HANDLE /\ rtc ioctl_step (s0, ∅) (s, H).

(** The tables of the driver hold at least the handles of user space. *)
Definition simulates s (H : gset Z) : Prop := exists hs, dom hs = H /\ handles_ok s hs.

Lemma get_handle_total s hs :
  handles_ok s hs ->
  exists st o s', get_handle s = Ok (st, o) s' /\
    ((st = NV_OK /\ exists a p, o = Some a /\ got s s' hs a p) \/
     (st <> NV_OK /\ o = None /\ handles_ok s' hs /\ live (p_heap s) ⊆ live (p_heap s'))).
Proof.
  intros Hs.
  destruct (wp_total get_handle (fun res s' => (fst res = NV_OK /\ exists a p, snd res = Some a /\ got s s' hs a p) \/
     (fst res <> NV_OK /\ snd res = None /\ handles_ok s' hs /\ live (p_heap s) ⊆ live (p_heap s'))) s) as ([st o] & s' & E & H); [|by exists st, o, s'].
  apply (wp_get_mem_handle no_fault gp pma gpu_of gpu hs); [done| |].
  - intros a p s' Hg. left. split; [done|]. by exists a, p.
  - intros st s' Hst Hs' Hl. by right.
Qed.

Lemma free_handle_total s hs a p :
  handles_ok s hs -> hs !! a = Some p ->
  exists s', free_handle a s = Ok NV_OK s' /\ handles_ok s' (delete a hs) /\ live (p_heap s') = delete p (live (p_heap s)).
Proof.
  intros Hs Ha.
  destruct (wp_total (free_handle a) (fun res s' => res = NV_OK /\ handles_ok s' (delete a hs) /\ live (p_heap s') = delete p (live (p_heap s))) s)
    as (res & s' & E & -> & H); [|by exists s'].
  by apply (wp_free_mem_handle no_fault hs a p).
Qed.

Lemma ioctl_step_simulates s H s' H' : simulates s H -> ioctl_step (s, H) (s', H') -> simulates s' H'.
Proof.
  intros (hs & <- & Hs) Hst. inversion Hst as [? ? a ? E|? ? st o ? E Hne|? ? a st ? Ha E]; subst.
  - destruct (get_handle_total s hs Hs) as (st & o & s1 & E1 & Hpost). rewrite E in E1. injection E1 as <- <- <-.
    destruct Hpost as [(_ & a' & p & [= <-] & Hg)|[]]; [|done]. exists (<[a := p]> hs). split; [by rewrite dom_insert_L|apply Hg].
  - destruct (get_handle_total s hs Hs) as (st1 & o1 & s1 & E1 & Hpost). rewrite E in E1. injection E1 as <- <- <-.
    destruct Hpost as [[? _]|(_ & _ & Hs' & _)]; [done|]. by exists hs.
  - apply elem_of_dom in Ha as [p Ha]. destruct (free_handle_total s hs a p Hs Ha) as (s1 & E1 & Hs' & _). rewrite E in E1. injection E1 as -> ->.
    exists (delete a hs). split; [by rewrite dom_delete_L|done].
Qed.

Lemma ioctl_reachable_simulates s H : ioctl_reachable s H -> simulates s H.
Proof.
  intros (s0 & Hb & Hk & Hst). assert (H0 : simulates s0 ∅) by (exists ∅; split; [apply dom_empty_L|by apply boot_handles]).
  remember (s0, ∅ : gset Z) as x eqn:Ex. remember (s, H) as y eqn:Ey. revert s0 H0 Hb Hk Ex. 
  cut (forall s1 H1, x = (s1, H1) -> simulates s1 H1 -> simulates s H); [intros Hc s0 H0 _ _ ->; by eapply Hc|].
  induction Hst as [x|x [s2 H2] y Hone _ IH]; intros s1 H1 -> Hs; subst.
  - by injection Ey as <- <-.
  - eapply IH; [done|done|]. by eapply ioctl_step_simulates.
Qed.
End system.

(** ** Correctness *)

Lemma aligned_apart a b : a mod 2 ^ HANDLE = 0 -> b mod 2 ^ HANDLE = 0 -> a <> b -> a + 2 ^ HANDLE <= b \/ b + 2 ^ HANDLE <= a.
Proof.
  intros Ha Hb Hne. pose proof (Z.div_mod a (2 ^ HANDLE) ltac:(done)). pose proof (Z.div_mod b (2 ^ HANDLE) ltac:(done)).
  change (2 ^ HANDLE) with 65536 in *. lia.
Qed.

(** C16. The handle ioctls implement an allocator of 64KB pages.  After any sequence
    of calls from the initialization of the GPU on, in which user space frees
    handles it was given and has not freed: UVM_GET_MEM_HANDLE returns, and its
    handle is aligned, lies in the memory of the GPU and is none of the handles
    given out, or there is an error and no handle; UVM_FREE_MEM_HANDLE of a handle
    given out succeeds; two handles given out are disjoint pages. *)
Theorem handle_ioctls_refine gp pma gpu_of gpu s H :
  PmaLaw gp pma -> ioctl_reachable gp pma gpu_of gpu s H ->
  (exists st o s', get_handle gp pma gpu_of gpu s = Ok (st, o) s' /\
     ((st = NV_OK /\ exists a, o = Some a /\ (a ∉ H) /\ 0 <= a /\ a mod 2 ^ HANDLE = 0 /\
         a + 2 ^ HANDLE <= p_max_allocatable_address s + 1) \/
      (st <> NV_OK /\ o = None))) /\
  (forall a, a ∈ H -> exists s', free_handle a s = Ok NV_OK s') /\
  (forall a b, a ∈ H -> b ∈ H -> a <> b -> a + 2 ^ HANDLE <= b \/ b + 2 ^ HANDLE <= a).
Proof.
  intros Hpma (hs & <- & Hs)%ioctl_reachable_simulates; [|done]. split; [|split].
  - destruct (get_handle_total gp pma gpu_of gpu s hs Hs) as (st & o & s' & E & Hpost). exists st, o, s'. split; [done|].
    destruct Hpost as [(-> & a & p & -> & Hn & H0 & Hm & Htop & _)|(? & ? & _)]; [left|by right]. split; [done|]. exists a.
    split_and!; try done. by apply not_elem_of_dom.
  - intros a [p Ha]%elem_of_dom. destruct (free_handle_total s hs a p Hs Ha) as (s' & E & _). by exists s'.
  - intros a b [p Ha]%elem_of_dom [q Hb]%elem_of_dom Hne.
    destruct (hk_recorded _ _ Hs a p Ha) as (rc & c & Hc). destruct (hk_recorded _ _ Hs b q Hb) as (rd & d & Hd).
    apply aligned_apart; [by eapply recorded_aligned; [apply Hs|]..|done].
Qed.

(** Freeing a new handle undoes getting it: after UVM_GET_MEM_HANDLE of 64KB and
    UVM_FREE_MEM_HANDLE of its result the chunks in use are the same as before. *)
Theorem mem_handle_roundtrip gp pma gpu_of gpu s H a s1 :
  PmaLaw gp pma -> ioctl_reachable gp pma gpu_of gpu s H -> get_handle gp pma gpu_of gpu s = Ok (NV_OK, Some a) s1 ->
  exists s2, free_handle a s1 = Ok NV_OK s2 /\ live (p_heap s2) = live (p_heap s).
Proof.
  intros Hpma (hs & <- & Hs)%ioctl_reachable_simulates E; [|done].
  destruct (get_handle_total gp pma gpu_of gpu s hs Hs) as (st & o & s' & E' & Hpost). rewrite E in E'. injection E' as <- <- <-.
  destruct Hpost as [(_ & a' & p & [= <-] & _ & _ & _ & _ & Hp & Hs1 & c & Hl & _)|[]]; [|done].
  destruct (free_handle_total s1 (<[a := p]> hs) a p Hs1) as (s2 & E2 & _ & Hl2); [by rewrite lookup_insert_eq|].
  exists s2. split; [done|]. by rewrite Hl2, Hl, delete_insert_id.
Qed.

(** ** Examples on the GPU with 8MB *)

Definition demo_gpu_of (e : uvm_tracker_entry_t) : Z := 0.
Abbreviation demo_get size := (uvm_api_get_mem_handle demo_props first_fit_pma demo_gpu_of 0 true size).
Definition demo_h1 : uvm_pmm_gpu_t := run_state (get_handle demo_props first_fit_pma demo_gpu_of 0 demo_pmm).

Lemma demo_law : PmaLaw demo_props first_fit_pma.
Proof. by apply first_fit_law. Qed.
Lemma demo_get_handle : get_handle demo_props first_fit_pma demo_gpu_of 0 demo_pmm = Ok (NV_OK, Some 0) demo_h1.
Proof. unfold demo_h1. apply run_ok. by vm_compute. Qed.
Lemma demo_ioctl_start : ioctl_reachable demo_props first_fit_pma demo_gpu_of 0 demo_pmm ∅.
Proof. exists demo_pmm. split; [apply demo_booted|]. split; [apply demo_size|done]. Qed.
Lemma demo_ioctl_one : ioctl_reachable demo_props first_fit_pma demo_gpu_of 0 demo_h1 {[0]}.
Proof.
  exists demo_pmm. split; [apply demo_booted|]. split; [apply demo_size|]. apply rtc_once.
  replace ({[0]} : gset Z) with ({[0]} ∪ ∅ : gset Z) by set_solver. apply ioctl_get, demo_get_handle.
Qed.

Lemma handle_ioctls_refine_witness : exists s', free_handle 0 demo_h1 = Ok NV_OK s'.
Proof.
  destruct (handle_ioctls_refine demo_props first_fit_pma demo_gpu_of 0 demo_h1 {[0]} demo_law demo_ioctl_one) as (_ & H & _).
  apply H. apply elem_of_singleton. reflexivity.
Defined.

Lemma mem_handle_roundtrip_witness :
  exists s2, free_handle 0 demo_h1 = Ok NV_OK s2 /\ live (p_heap s2) = live (p_heap demo_pmm).
Proof.
  exact (mem_handle_roundtrip demo_props first_fit_pma demo_gpu_of 0 demo_pmm ∅ 0 demo_h1 demo_law demo_ioctl_start demo_get_handle).
Defined.

(** The pages in use, by address. *)
Definition pages_in_use s : list (Z * Z) := (fun kc => (c_address kc.2, c_log2_size kc.2)) <$> map_to_list (live (p_heap s)).

(** A handle of 256KB is four pages, and freeing it gives everything back. *)
Example big_handle :
  run_value ((mbind' (demo_get (256 * 1024)) (fun x => mbind' (gets pages_in_use) (fun used =>
     mbind' (uvm_api_free_mem_handle true 0 (256 * 1024)) (fun st => mbind' (gets pages_in_use) (fun rest =>
       mret' (x, used, st, rest)))))) demo_pmm) =
  Some ((NV_OK, Some 0), [(65536, 16); (196608, 16); (0, 16); (131072, 16)], NV_OK, []).
Proof. by vm_compute. Qed.

(** The slot of a handle is its offset divided by its own size, so that handles of
    different sizes share slots: freeing the handle 65536 of 64KB frees the first
    page of the later handle 131072 of 128KB instead. *)
Example mixed_sizes_collide :
  run_value ((mbind' (demo_get (64 * 1024)) (fun x => mbind' (demo_get (64 * 1024)) (fun y => mbind' (demo_get (128 * 1024)) (fun z =>
     mbind' (uvm_api_free_mem_handle true 65536 (64 * 1024)) (fun st => mbind' (gets pages_in_use) (fun rest =>
       mret' ([x.2; y.2; z.2], st, rest))))))) demo_pmm) =
  Some ([Some 0; Some 65536; Some 131072], NV_OK, [(65536, 16); (196608, 16); (0, 16)]).
Proof. by vm_compute. Qed.

(** The slot is not cleared: freeing a handle twice follows a dead pointer. *)
Example double_free_faults :
  match (mbind' (demo_get (64 * 1024)) (fun _ => mbind' (uvm_api_free_mem_handle true 0 (64 * 1024)) (fun _ =>
           uvm_api_free_mem_handle true 0 (64 * 1024)))) demo_pmm with
  | Fault f _ => f = UB
  | Ok _ _ => False
  end.
Proof. by vm_compute. Qed.
