(* ===== verification/UvmVaBlock.v ===== *)
(** The geometry of VA blocks (uvm_va_block.c, uvm_va_block.h): pages, regions and
    big pages of a block, and the chunks that back it.

    A VA block covers at most 2MB of a managed range, within an aligned 2MB; its
    ends need not be aligned to more than a page.  HMM blocks are not modelled.
    [uvm_page_index_t] has 16 bits. *)

From S2P Require Import Prelude UvmBits UvmCommon UvmMmuHal UvmTlbBatch UvmPmm.
Local Open Scope Z_scope.

Definition UVM_VA_BLOCK_SIZE : Z := 2 ^ 21.
Definition MAX_BIG_PAGES_PER_UVM_VA_BLOCK : Z := UVM_VA_BLOCK_SIZE / UVM_PAGE_SIZE_64K.
Definition UVM_CHUNK_SIZE_2M : Z := 2 * 1024 * 1024.

Definition UVM_VA_BLOCK_ALIGN_DOWN (addr : Z) : option Z := UVM_ALIGN_DOWN addr UVM_VA_BLOCK_SIZE.
Definition UVM_VA_BLOCK_ALIGN_UP (addr : Z) : option Z := UVM_ALIGN_UP addr UVM_VA_BLOCK_SIZE.

Definition page_index_t (x : Z) : Z := wrap 16 x.
Definition PAGE_ALIGNED (x : Z) : bool := IS_ALIGNED x PAGE_SIZE.

(** ** Regions *)

(** The block's interval of addresses, [vb_end] inclusive. *)
Record va_span := VaSpan { vb_start : Z; vb_end : Z }.

Record uvm_va_block_region_t := Region { first : Z; outer : Z }.

Definition uvm_va_block_region (f o : Z) : option uvm_va_block_region_t :=
  let f := page_index_t f in
  let o := page_index_t o in
  UVM_ASSERT (f <=? o) ;; Some (Region f o).

Section regions.
Implicit Types (b : va_span) (r : uvm_va_block_region_t).

Definition uvm_va_block_region_num_pages r : Z := u64 (outer r - first r).
Definition uvm_va_block_region_size r : Z := u64 (uvm_va_block_region_num_pages r * PAGE_SIZE).
Definition uvm_va_block_region_start b r : Z := u64 (vb_start b + first r * PAGE_SIZE).
Definition uvm_va_block_region_end b r : Z := u64 (vb_start b + outer r * PAGE_SIZE - 1).

Definition uvm_va_block_size b : option Z :=
  let size := u64 (vb_end b - vb_start b + 1) in
  UVM_ASSERT (PAGE_ALIGNED size) ;;
  UVM_ASSERT (PAGE_SIZE <=? size) ;;
  UVM_ASSERT (size <=? UVM_VA_BLOCK_SIZE) ;;
  Some size.

Definition uvm_va_block_num_cpu_pages b : option Z :=
  size ← uvm_va_block_size b; Some (size / PAGE_SIZE).

Definition uvm_va_block_cpu_page_address b (page_index : Z) : option Z :=
  num ← uvm_va_block_num_cpu_pages b;
  UVM_ASSERT (page_index <? num) ;; Some (u64 (vb_start b + PAGE_SIZE * page_index)).

Definition uvm_va_block_cpu_page_index b (addr : Z) : option Z :=
  UVM_ASSERT (vb_start b <=? addr) ;;
  UVM_ASSERT (addr <=? vb_end b) ;;
  Some (page_index_t (u64 (addr - vb_start b) / PAGE_SIZE)).

Definition uvm_va_block_region_from_start_end b (start end_ : Z) : option uvm_va_block_region_t :=
  UVM_ASSERT (start <? end_) ;;
  UVM_ASSERT (vb_start b <=? start) ;;
  UVM_ASSERT (end_ <=? vb_end b) ;;
  UVM_ASSERT (PAGE_ALIGNED start) ;;
  UVM_ASSERT (PAGE_ALIGNED (u64 (end_ + 1))) ;;
  f ← uvm_va_block_cpu_page_index b start;
  o ← uvm_va_block_cpu_page_index b end_;
  Some (Region f (page_index_t (o + 1))).

Definition uvm_va_block_region_from_start_size b (start size : Z) : option uvm_va_block_region_t :=
  uvm_va_block_region_from_start_end b start (u64 (start + size - 1)).

(** ** Big pages *)

Definition range_big_page_region_all (start end_ big_page_size : Z) : option uvm_va_block_region_t :=
  first_addr ← UVM_ALIGN_UP start big_page_size;
  outer_addr ← UVM_ALIGN_DOWN (u64 (end_ + 1)) big_page_size;
  s ← UVM_VA_BLOCK_ALIGN_DOWN start;
  e ← UVM_VA_BLOCK_ALIGN_DOWN end_;
  UVM_ASSERT (s =? e) ;;
  if outer_addr <=? first_addr then uvm_va_block_region 0 0
  else uvm_va_block_region (u64 (first_addr - start) / PAGE_SIZE) (u64 (outer_addr - start) / PAGE_SIZE).

Definition range_num_big_pages (start end_ big_page_size : Z) : option Z :=
  region ← range_big_page_region_all start end_ big_page_size;
  uvm_div_pow2_64 (uvm_va_block_region_size region) big_page_size.

Definition uvm_va_block_big_page_region_all b (big_page_size : Z) : option uvm_va_block_region_t :=
  range_big_page_region_all (vb_start b) (vb_end b) big_page_size.

Definition uvm_va_block_big_page_region_subset b r (big_page_size : Z) : option uvm_va_block_region_t :=
  let start := uvm_va_block_region_start b r in
  let end_ := uvm_va_block_region_end b r in
  UVM_ASSERT (start <? vb_end b) ;;
  UVM_ASSERT (end_ <=? vb_end b) ;;
  big_region ← range_big_page_region_all start end_ big_page_size;
  Some (if outer big_region =? 0 then big_region
        else Region (page_index_t (first big_region + first r)) (page_index_t (outer big_region + first r))).

Definition uvm_va_block_num_big_pages b (big_page_size : Z) : option Z :=
  range_num_big_pages (vb_start b) (vb_end b) big_page_size.

Definition uvm_va_block_big_page_addr b (big_page_index big_page_size : Z) : option Z :=
  s ← UVM_ALIGN_UP (vb_start b) big_page_size;
  let addr := u64 (s + u64 (big_page_index * big_page_size)) in
  UVM_ASSERT (vb_start b <=? addr) ;;
  UVM_ASSERT (addr <? vb_end b) ;;
  Some addr.

Definition uvm_va_block_big_page_region b (big_page_index big_page_size : Z) : option uvm_va_block_region_t :=
  page_addr ← uvm_va_block_big_page_addr b big_page_index big_page_size;
  UVM_ASSERT (PAGE_SIZE <=? big_page_size) ;;
  uvm_va_block_region_from_start_size b page_addr big_page_size.

Definition uvm_va_block_big_page_index b (page_index big_page_size : Z) : option Z :=
  big_region_all ← uvm_va_block_big_page_region_all b big_page_size;
  if (page_index <? first big_region_all) || (outer big_region_all <=? page_index)
  then Some MAX_BIG_PAGES_PER_UVM_VA_BLOCK
  else
    big_index ← uvm_div_pow2_64 ((page_index - first big_region_all) * PAGE_SIZE) big_page_size;
    addr ← uvm_va_block_big_page_addr b big_index big_page_size;
    UVM_ASSERT (vb_start b <=? addr) ;;
    UVM_ASSERT (u64 (addr + big_page_size) <=? u64 (vb_end b + 1)) ;;
    Some big_index.

(** ** Chunks *)

(** The region of the chunk of [chunk_size] that holds a page. *)
Definition uvm_va_block_chunk_region b (chunk_size page_index : Z) : option uvm_va_block_region_t :=
  page_addr ← uvm_va_block_cpu_page_address b page_index;
  chunk_start_addr ← UVM_ALIGN_DOWN page_addr chunk_size;
  let f := page_index_t (u64 (chunk_start_addr - vb_start b) / PAGE_SIZE) in
  uvm_va_block_region f (f + chunk_size / PAGE_SIZE).
End regions.

Definition uvm_div_pow2_32 (numerator denominator_pow2 : Z) : option Z :=
  UVM_ASSERT (is_power_of_2 denominator_pow2) ;;
  UVM_ASSERT (negb (denominator_pow2 =? 0)) ;;
  Some (Z.shiftr (u32 numerator) (Z.log2 denominator_pow2)).

(** The variables of the loop of [uvm_va_block_gpu_chunk_index_range]. *)
Record index_state := IndexState {
  ix_addr : Z;
  ix_end : Z;
  ix_final_chunk_size : Z;
  ix_num_chunks_total : Z;
}.

(** The body of the loop; [true] is a break. *)
Definition index_step (start chunk_size : Z) (st : index_state) : option (bool * index_state) :=
  aligned_start ← UVM_ALIGN_UP start chunk_size;
  aligned_addr ← UVM_ALIGN_DOWN (ix_addr st) chunk_size;
  aligned_end ← UVM_ALIGN_DOWN (ix_end st) chunk_size;
  if aligned_addr <? aligned_start then Some (false, st)
  else
    let inside := (aligned_addr <? aligned_end) && (ix_final_chunk_size st =? 0) in
    let addr := if inside then aligned_addr else ix_addr st in
    let final := if inside then chunk_size else ix_final_chunk_size st in
    num_chunks ← uvm_div_pow2_32 (u64 (u32 aligned_addr - aligned_start)) chunk_size;
    let total := u64 (ix_num_chunks_total st + num_chunks) in
    let temp_size := u64 (num_chunks * chunk_size) in
    let addr := u64 (addr - temp_size) in
    let end_ := u64 (ix_end st - temp_size) in
    Some ((addr =? start) && negb (final =? 0), IndexState addr end_ final total).

(** [for_each_chunk_size_rev]: at most one turn for each of the 64 bits. *)
Fixpoint index_loop (fuel : nat) (chunk_sizes chunk_size start : Z) (st : index_state) : option index_state :=
  if chunk_size =? UVM_CHUNK_SIZE_INVALID then Some st
  else
    match fuel with
    | O => None
    | S n =>
        '((brk, st) : bool * index_state) ← index_step start chunk_size st;
        if brk then Some st
        else
          prev ← uvm_chunk_find_prev_size chunk_sizes chunk_size;
          index_loop n chunk_sizes prev start st
    end.

(** The sizes the blocks are covered with: vAttention removes 2MB, and the 128KB and
    256KB it added for its handles. *)
Definition block_chunk_sizes (chunk_sizes : Z) : Z :=
  Z.ldiff (Z.ldiff (Z.ldiff chunk_sizes UVM_CHUNK_SIZE_2M) (128 * 1024)) (256 * 1024).

(** [chunk_sizes] is [mmu_user_chunk_sizes] of the GPU; the result is the index and
    the size of the chunk that covers [page_index]. *)
Definition uvm_va_block_gpu_chunk_index_range (start size chunk_sizes page_index : Z) : option (Z * Z) :=
  UVM_ASSERT (PAGE_ALIGNED start) ;;
  UVM_ASSERT (PAGE_ALIGNED size) ;;
  UVM_ASSERT (0 <? size) ;;
  UVM_ASSERT (size <=? UVM_CHUNK_SIZE_2M) ;;
  s ← UVM_ALIGN_DOWN start UVM_CHUNK_SIZE_2M;
  e ← UVM_ALIGN_DOWN (u64 (start + size - 1)) UVM_CHUNK_SIZE_2M;
  UVM_ASSERT (s =? e) ;;
  smallest ← uvm_chunk_find_first_size chunk_sizes;
  UVM_ASSERT (smallest =? PAGE_SIZE) ;;
  let chunk_sizes := block_chunk_sizes chunk_sizes in
  if negb (Z.land chunk_sizes UVM_CHUNK_SIZE_2M =? 0) && (size =? UVM_CHUNK_SIZE_2M) then
    UVM_ASSERT (IS_ALIGNED start UVM_CHUNK_SIZE_2M) ;; Some (0, UVM_CHUNK_SIZE_2M)
  else
    final_chunk_size ← uvm_chunk_find_last_size chunk_sizes;
    if IS_ALIGNED start final_chunk_size && IS_ALIGNED size final_chunk_size then
      total ← uvm_div_pow2_64 (page_index * PAGE_SIZE) final_chunk_size; Some (total, final_chunk_size)
    else
      let addr := u64 (start + page_index * PAGE_SIZE) in
      let end_ := u64 (start + size) in
      UVM_ASSERT (addr <? end_) ;;
      let chunk_sizes := Z.ldiff chunk_sizes PAGE_SIZE in
      largest ← (if chunk_sizes =? 0 then Some UVM_CHUNK_SIZE_INVALID else uvm_chunk_find_last_size chunk_sizes);
      st ← index_loop 64 chunk_sizes largest start (IndexState addr end_ 0 0);
      Some (u64 (ix_num_chunks_total st + u64 (ix_addr st - start) / PAGE_SIZE),
            if ix_final_chunk_size st =? 0 then PAGE_SIZE else ix_final_chunk_size st).

(** The size of the chunk that starts at a page of the block, with every size of the
    GPU. *)
Definition block_gpu_chunk_size (b : va_span) (chunk_sizes start_page_index : Z) : option Z :=
  start ← uvm_va_block_cpu_page_address b start_page_index;
  let size := u64 (vb_end b - start + 1) in
  let start_alignments := u32 (Z.lxor start (u64 (start - 1))) in
  let pow2 := 2 ^ Z.log2 size in
  let pow2_leq_size := Z.lor pow2 (pow2 - 1) in
  let allowed_sizes := Z.land (Z.land chunk_sizes start_alignments) pow2_leq_size in
  UVM_ASSERT (PAGE_SIZE <=? allowed_sizes) ;;
  uvm_chunk_find_last_size allowed_sizes.

(** Base and address in a table of slots of one size; a division by zero has no
    meaning. *)
Definition get_offset_index (base address size : Z) : option Z :=
  if size =? 0 then None else Some (u64 (address - base) / size).
