(* ===== verification/UvmVaBlockCorrect.v ===== *)
(** Correctness of the geometry of VA blocks: big page indices and addresses are
    inverse to each other, and the closed form of the chunk index agrees with
    covering the block chunk by chunk. *)

From S2P Require Import Prelude UvmBits UvmCommon UvmMmuHal UvmMmuHalCorrect UvmTlbBatch UvmPmm UvmVaBlock.
Local Open Scope Z_scope.

(** Goals about quotients by constants. *)
Ltac div_lia := Z.to_euclidean_division_equations; lia.

(** ** Covering a range chunk by chunk *)

(** The largest size of the mask that is aligned at [pos] and fits before [e]. *)
Definition chunk_at (sizes e pos : Z) : option Z :=
  k ← List.find (fun k => Z.testbit sizes k && (pos mod 2 ^ k =? 0) && (pos + 2 ^ k <=? e)) (down 22 12);
  Some (2 ^ k).

(** The index and the size of the chunk that holds [x], from the chunk at [pos], which
    has index [i], on. *)
Fixpoint walk_chunks (fuel : nat) (sizes e pos i x : Z) : option (Z * Z) :=
  match fuel with
  | O => None
  | S n =>
      s ← chunk_at sizes e pos;
      if x <? pos + s then Some (i, s) else walk_chunks n sizes e (pos + s) (i + 1) x
  end.

Lemma walk_many sizes e s x (k n : nat) pos i :
  (forall j, 0 <= j < Z.of_nat k -> chunk_at sizes e (pos + j * s) = Some s) -> 0 < s ->
  pos + Z.of_nat k * s <= x ->
  walk_chunks (k + n) sizes e pos i x = walk_chunks n sizes e (pos + Z.of_nat k * s) (i + Z.of_nat k) x.
Proof.
  intros Hs Hpos. revert pos i Hs. induction k as [|k IH]; intros pos i Hs Hx.
  - cbn [Nat.add]. f_equal; lia.
  - cbn [Nat.add walk_chunks]. pose proof (Hs 0 ltac:(lia)) as H0. rewrite Z.mul_0_l, Z.add_0_r in H0. rewrite H0.
    cbn [mbind option_bind]. rewrite (proj2 (Z.ltb_ge _ _)) by nia.
    rewrite IH; [f_equal; lia| |lia]. intros j Hj.
    replace (pos + s + j * s) with (pos + (j + 1) * s) by lia. apply Hs. lia.
Qed.

Lemma walk_hit sizes e s x n pos i :
  chunk_at sizes e pos = Some s -> pos <= x < pos + s ->
  walk_chunks (S n) sizes e pos i x = Some (i, s).
Proof. intros H Hx. cbn [walk_chunks]. rewrite H. cbn [mbind option_bind]. by rewrite (proj2 (Z.ltb_lt _ _)) by lia. Qed.

(** ** Blocks covered with pages of 4KB and chunks of 64KB *)

Definition TWO_SIZES : Z := 69632.

Lemma chunk_at_two e pos :
  pos mod 4096 = 0 -> pos + 4096 <= e ->
  chunk_at TWO_SIZES e pos = Some (if (pos mod 65536 =? 0) && (pos + 65536 <=? e) then 65536 else 4096).
Proof.
  intros Hp He. unfold chunk_at, down.
  change (reverse (seqZ 12 (22 - 12))) with [21; 20; 19; 18; 17; 16; 15; 14; 13; 12].
  cbn -[Z.modulo Z.leb Z.eqb Z.pow Z.add].
  change (2 ^ 16) with 65536. change (2 ^ 12) with 4096.
  destruct ((pos mod 65536 =? 0) && (pos + 65536 <=? e)); [done|].
  rewrite Hp, (proj2 (Z.leb_le _ _)) by done. done.
Qed.

Section cover.
Context (start e : Z) (Hs : start mod 4096 = 0) (He : e mod 4096 = 0).
Let A : Z := round_up start 65536.
Let E : Z := e / 65536 * 65536.

Lemma at_page pos : pos mod 4096 = 0 -> pos + 4096 <= e -> start <= pos < A \/ E <= pos -> chunk_at TWO_SIZES e pos = Some 4096.
Proof using Hs He.
  intros Hp Hlt Hz. rewrite chunk_at_two by done. unfold A, E, round_up in *.
  destruct (Z.eqb_spec (pos mod 65536) 0), (Z.leb_spec (pos + 65536) e); try done. exfalso. div_lia.
Qed.

Lemma at_big pos : pos mod 65536 = 0 -> pos < E -> chunk_at TWO_SIZES e pos = Some 65536.
Proof using Hs He.
  intros Hp Hlt. unfold E in *. rewrite chunk_at_two by div_lia.
  destruct (Z.eqb_spec (pos mod 65536) 0), (Z.leb_spec (pos + 65536) e); try done; exfalso; div_lia.
Qed.

(** Pages from [pos] to the one that holds [x]. *)
Lemma walk_pages lim n pos i x :
  (forall q, q mod 4096 = 0 -> pos <= q < lim -> chunk_at TWO_SIZES e q = Some 4096) ->
  pos mod 4096 = 0 -> x mod 4096 = 0 -> pos <= x < lim ->
  walk_chunks (Z.to_nat ((x - pos) / 4096) + S n) TWO_SIZES e pos i x = Some (i + (x - pos) / 4096, 4096).
Proof.
  intros Hq Hp Hx Hlt. rewrite (walk_many _ _ 4096).
  - rewrite Z2Nat.id by div_lia. apply walk_hit; [apply Hq; div_lia|div_lia].
  - intros j Hj. apply Hq; [div_lia|]. rewrite Z2Nat.id in Hj by div_lia. div_lia.
  - lia.
  - rewrite Z2Nat.id by div_lia. div_lia.
Qed.

(** The pages before the first boundary of 64KB, all of them. *)
Lemma walk_head n i x : A < E -> A <= x ->
  walk_chunks (Z.to_nat ((A - start) / 4096) + n) TWO_SIZES e start i x = walk_chunks n TWO_SIZES e A (i + (A - start) / 4096) x.
Proof using Hs He.
  intros HAE Hx. unfold A, E, round_up in *. rewrite (walk_many _ _ 4096).
  - rewrite Z2Nat.id by div_lia. f_equal. div_lia.
  - intros j Hj. rewrite Z2Nat.id in Hj by div_lia. apply at_page; unfold A, E, round_up; div_lia.
  - lia.
  - rewrite Z2Nat.id by div_lia. div_lia.
Qed.

(** Chunks of 64KB from the first boundary up to [y]. *)
Lemma walk_bigs n i x y : A <= y <= E -> y mod 65536 = 0 -> y <= x ->
  walk_chunks (Z.to_nat ((y - A) / 65536) + n) TWO_SIZES e A i x = walk_chunks n TWO_SIZES e y (i + (y - A) / 65536) x.
Proof using Hs He.
  intros HAE Hy Hx. unfold A, E, round_up in *. rewrite (walk_many _ _ 65536).
  - rewrite Z2Nat.id by div_lia. f_equal. div_lia.
  - intros j Hj. rewrite Z2Nat.id in Hj by div_lia. apply at_big; unfold A, E, round_up; div_lia.
  - lia.
  - rewrite Z2Nat.id by div_lia. div_lia.
Qed.
End cover.

Lemma walk_more sizes e m n pos i x r :
  walk_chunks n sizes e pos i x = Some r -> walk_chunks (n + m) sizes e pos i x = Some r.
Proof.
  revert pos i. induction n as [|n IH]; intros pos i; [done|]. cbn [Nat.add walk_chunks].
  destruct (chunk_at sizes e pos) as [s|]; [|done]. cbn [mbind option_bind]. destruct (x <? pos + s); [done|apply IH].
Qed.

Lemma walk_fuel sizes e n pos i x r :
  walk_chunks n sizes e pos i x = Some r -> (n <= 512)%nat -> walk_chunks 512 sizes e pos i x = Some r.
Proof. intros H Hn. replace 512%nat with (n + (512 - n))%nat by lia. by apply walk_more. Qed.

(** The index and the size of the chunk of [x] in closed form: pages up to the first
    boundary of 64KB, chunks of 64KB up to the last one, pages after it. *)
Definition cover_index (start e x : Z) : Z * Z :=
  let A := round_up start 65536 in
  let E := e / 65536 * 65536 in
  if (x <? A) || (E <=? A) then ((x - start) / 4096, 4096)
  else if x <? E then ((A - start) / 4096 + (x - A) / 65536, 65536)
  else ((A - start) / 4096 + (E - A) / 65536 + (x - E) / 4096, 4096).

Lemma walk_closed start e x :
  start mod 4096 = 0 -> e mod 4096 = 0 -> x mod 4096 = 0 -> start <= x < e -> e - start <= 2 ^ 21 ->
  walk_chunks 512 TWO_SIZES e start 0 x = Some (cover_index start e x).
Proof.
  intros Hs He Hx Hlt Hsz. change (2 ^ 21) with 2097152 in Hsz. unfold cover_index.
  destruct (Z.ltb_spec x (round_up start 65536)) as [Hh|Hh]; [|destruct (Z.leb_spec (e / 65536 * 65536) (round_up start 65536)) as [Hn|Hn]];
    cbn [orb]; [..|destruct (Z.ltb_spec x (e / 65536 * 65536)) as [Hb|Hb]].
  - eapply walk_fuel; [rewrite (walk_pages start e (Z.min e (round_up start 65536)) 0); try done; [|lia]|div_lia].
    intros q Hq Hr. apply (at_page start e Hs He); div_lia.
  - eapply walk_fuel; [rewrite (walk_pages start e e 0); try done|div_lia].
    intros q Hq Hr. apply (at_page start e Hs He); div_lia.
  - eapply walk_fuel.
    + rewrite (walk_head start e Hs He) by done.
      rewrite (walk_bigs start e Hs He 1 _ x (x / 65536 * 65536)) by (unfold round_up in *; div_lia).
      rewrite (walk_hit _ _ 65536); [|apply (at_big start e Hs He); div_lia|div_lia].
      apply (f_equal (fun i => Some (i, 65536))). unfold round_up in *. div_lia.
    + unfold round_up in *. div_lia.
  - eapply walk_fuel.
    + rewrite (walk_head start e Hs He) by (done || lia).
      rewrite (walk_bigs start e Hs He (Z.to_nat ((x - e / 65536 * 65536) / 4096) + 1) _ x (e / 65536 * 65536)) by (unfold round_up in *; div_lia).
      rewrite (walk_pages start e e 0); [done|intros q Hq Hr; apply (at_page start e Hs He); div_lia|div_lia|done|lia].
    + unfold round_up in *. div_lia.
Qed.

(** ** The closed form of the code *)

(** A nonempty range of pages within an aligned 2MB, in the lower half of the address
    space. *)
Definition range_in_block (start size : Z) : Prop :=
  start mod 4096 = 0 /\ size mod 4096 = 0 /\ 0 < size /\ 0 <= start /\ start + size <= 2 ^ 63 /\
  start / 2 ^ 21 = (start + size - 1) / 2 ^ 21.

Lemma align_down_const x k c :
  c = 2 ^ k -> 0 <= x < 2 ^ 64 -> 0 <= k < 64 -> UVM_ALIGN_DOWN x c = Some (x / c * c).
Proof. intros -> Hx Hk. by apply UVM_ALIGN_DOWN_spec. Qed.

Lemma align_up_const x k c :
  c = 2 ^ k -> 0 <= x <= 2 ^ 63 -> 0 <= k < 63 -> UVM_ALIGN_UP x c = Some (round_up x c).
Proof.
  intros -> Hx Hk. assert (2 ^ k < 2 ^ 63) by (apply Z.pow_lt_mono_r; lia).
  rewrite UVM_ALIGN_UP_spec by lia. rewrite u64_small; [done|]. unfold is_u64. lia.
Qed.

Lemma div_pow2_32_const n k c : c = 2 ^ k -> 0 <= k -> uvm_div_pow2_32 n c = Some (u32 n / c).
Proof.
  intros -> Hk. unfold uvm_div_pow2_32. assert (0 < 2 ^ k) by (apply Z.pow_pos_nonneg; lia).
  rewrite (proj2 (is_power_of_2_spec (2 ^ k) ltac:(lia))) by (exists k; split; [lia|done]).
  rewrite (proj2 (Z.eqb_neq _ _)) by lia. cbn -[u32]. by rewrite Z.log2_pow2, Z.shiftr_div_pow2.
Qed.

Lemma step_cover start e x :
  start mod 4096 = 0 -> e mod 4096 = 0 -> x mod 4096 = 0 -> 0 <= start <= x -> x < e -> e <= 2 ^ 63 -> e - start <= 2 ^ 21 ->
  exists brk st, index_step start 65536 (IndexState x e 0 0) = Some (brk, st) /\
    (ix_num_chunks_total st + (ix_addr st - start) / 4096, if ix_final_chunk_size st =? 0 then 4096 else ix_final_chunk_size st) = cover_index start e x /\
    start <= ix_addr st <= x /\ 0 <= ix_num_chunks_total st <= 32.
Proof.
  intros Hs He Hx H0 Hlt H63 Hsz. change (2 ^ 63) with 9223372036854775808 in *. change (2 ^ 21) with 2097152 in *. unfold index_step, cover_index. cbn [ix_addr ix_end ix_final_chunk_size ix_num_chunks_total].
  rewrite (align_up_const start 16), !(align_down_const _ 16) by (done || lia). cbn [mbind option_bind].
  destruct (Z.ltb_spec (x / 65536 * 65536) (round_up start 65536)) as [Hh|Hh].
  { rewrite (proj2 (Z.ltb_lt x _)) by (unfold round_up in *; div_lia). eexists _, _. split; [done|]. cbn. split; [done|lia]. }
  rewrite (proj2 (Z.ltb_ge x _)) by (unfold round_up in *; div_lia). cbn [orb].
  rewrite (div_pow2_32_const _ 16) by done. cbn [mbind option_bind].
  assert (Hd : u32 (u64 (u32 (x / 65536 * 65536) - round_up start 65536)) = x / 65536 * 65536 - round_up start 65536).
  { unfold u32, u64, wrap. change (2 ^ 32) with 4294967296. change (2 ^ 64) with 18446744073709551616. unfold round_up in *. div_lia. }
  rewrite Hd, Z.eqb_refl, andb_true_r. eexists _, _. split; [done|]. cbn [ix_addr ix_end ix_final_chunk_size ix_num_chunks_total].
  assert (Hn : 0 <= (x / 65536 * 65536 - round_up start 65536) / 65536 <= 32) by (unfold round_up in *; div_lia).
  rewrite (u64_small (0 + _)) by (unfold is_u64; lia).
  rewrite (u64_small (_ / 65536 * 65536)) by (unfold is_u64, round_up in *; div_lia).
  destruct (Z.ltb_spec (x / 65536 * 65536) (e / 65536 * 65536)) as [Hb|Hb].
  - rewrite (proj2 (Z.leb_gt _ _)) by (unfold round_up in *; div_lia). rewrite (proj2 (Z.ltb_lt _ _)) by div_lia.
    rewrite u64_small by (unfold is_u64, round_up in *; div_lia). cbn [Z.eqb].
    split; [apply (f_equal (fun i => (i, 65536)))|]; unfold round_up in *; div_lia.
  - rewrite (proj2 (Z.ltb_ge x _)) by div_lia. rewrite u64_small by (unfold is_u64, round_up in *; div_lia).
    rewrite Z.eqb_refl. destruct (Z.leb_spec (e / 65536 * 65536) (round_up start 65536)); (split; [apply (f_equal (fun i => (i, 4096)))|]); unfold round_up in *; div_lia.
Qed.

Section index.
Context (start size : Z) (Hr : range_in_block start size).

Lemma range_size : size <= 2 ^ 21.
Proof using Hr. destruct Hr as (Hs & Hz & H0 & Hs0 & Htop & Hsame). change (2 ^ 21) with 2097152 in *. div_lia. Qed.

(** A range whose ends are multiples of 64KB. *)
Lemma aligned_cover x :
  start mod 65536 = 0 -> size mod 65536 = 0 -> x mod 4096 = 0 -> start <= x < start + size ->
  cover_index start (start + size) x = ((x - start) / 65536, 65536).
Proof using Hr.
  intros Hs Hz Hx Hlt. destruct Hr as (_ & _ & H0 & _). unfold cover_index.
  assert (round_up start 65536 = start) as -> by (unfold round_up; div_lia).
  rewrite (proj2 (Z.ltb_ge _ _)), (proj2 (Z.leb_gt _ _)), (proj2 (Z.ltb_lt _ _)) by div_lia. cbn [orb].
  apply (f_equal (fun i => (i, 65536))). div_lia.
Qed.

Lemma loop_cover x :
  x mod 4096 = 0 -> start <= x < start + size ->
  exists st, index_loop 64 65536 65536 start (IndexState x (start + size) 0 0) = Some st /\
    (ix_num_chunks_total st + (ix_addr st - start) / 4096, if ix_final_chunk_size st =? 0 then 4096 else ix_final_chunk_size st) = cover_index start (start + size) x /\
    start <= ix_addr st <= x /\ 0 <= ix_num_chunks_total st <= 32.
Proof using Hr.
  intros Hx Hlt. destruct Hr as (Hs & Hz & H0 & Hs0 & Htop & _). pose proof range_size.
  destruct (step_cover start (start + size) x) as (brk & st & E & Hc); [done|div_lia|done|lia|lia|done|lia|].
  exists st. split; [|done]. cbn [index_loop]. change (65536 =? UVM_CHUNK_SIZE_INVALID) with false. cbv iota.
  rewrite E. cbn [mbind option_bind]. by destruct brk.
Qed.

Lemma index_range_closed sizes page :
  uvm_chunk_find_first_size sizes = Some PAGE_SIZE -> block_chunk_sizes sizes = TWO_SIZES -> 0 <= page < size / 4096 ->
  uvm_va_block_gpu_chunk_index_range start size sizes page = Some (cover_index start (start + size) (start + page * 4096)).
Proof using Hr.
  intros Hf Hm Hp. pose proof Hr as (Hs & Hz & H0 & Hs0 & Htop & Hsame). pose proof range_size as Hmax.
  change (2 ^ 63) with 9223372036854775808 in *. change (2 ^ 21) with 2097152 in *.
  assert (Hx : start <= start + page * 4096 < start + size) by div_lia.
  unfold uvm_va_block_gpu_chunk_index_range, UVM_ASSERT, PAGE_ALIGNED.
  change PAGE_SIZE with (2 ^ 12). rewrite !(proj2 (IS_ALIGNED_spec _ 12 ltac:(done))) by done. cbn [mbind option_bind].
  change UVM_CHUNK_SIZE_2M with 2097152.
  rewrite (proj2 (Z.ltb_lt 0 size)), (proj2 (Z.leb_le size _)) by lia. cbn [mbind option_bind].
  rewrite (u64_small (start + size - 1)) by (unfold is_u64; lia).
  rewrite !(align_down_const _ 21) by (done || lia). cbn [mbind option_bind]. rewrite Hsame, Z.eqb_refl. cbn [mbind option_bind].
  rewrite Hf. cbn [mbind option_bind]. rewrite Z.eqb_refl. cbn [mbind option_bind]. rewrite Hm.
  change (uvm_chunk_find_last_size TWO_SIZES) with (Some (2 ^ 16)). cbn [mbind option_bind].
  change (Z.land TWO_SIZES 2097152 =? 0) with true. cbn [negb andb].
  destruct (IS_ALIGNED start (2 ^ 16) && IS_ALIGNED size (2 ^ 16)) eqn:Ea.
  - apply andb_true_iff in Ea as [E1%IS_ALIGNED_spec E2%IS_ALIGNED_spec]; try done. change (2 ^ 16) with 65536 in *.
    rewrite (uvm_div_pow2_64_spec _ 16) by done. cbn [mbind option_bind].
    rewrite aligned_cover by (done || div_lia). change (2 ^ 12) with 4096. change (2 ^ 16) with 65536.
    apply (f_equal (fun i => Some (i, 65536))). div_lia.
  - change (2 ^ 12) with 4096. rewrite (u64_small (start + page * 4096)), (u64_small (start + size)) by (unfold is_u64; lia). rewrite (proj2 (Z.ltb_lt _ _)) by lia. cbn [mbind option_bind].
    change (Z.ldiff TWO_SIZES 4096) with 65536. cbn [Z.eqb]. change (uvm_chunk_find_last_size 65536) with (Some 65536). cbn [mbind option_bind].
    destruct (loop_cover (start + page * 4096)) as (st & -> & <- & Ha & Ht); [div_lia|done|]. cbn [mbind option_bind].
    rewrite (u64_small (ix_addr st - start)) by (unfold is_u64; lia). rewrite u64_small by (unfold is_u64; div_lia). done.
Qed.
End index.

(** The user chunk sizes of a GPU of each architecture (uvm_mmu_init_gpu_chunk_sizes):
    Maxwell has two sizes of big pages. *)
Definition arch_chunk_sizes (a : arch) : Z :=
  match a with
  | AMaxwell64 | AMaxwell128 =>
      uvm_mmu_user_chunk_sizes (page_sizes (hal_of false AMaxwell64)) (page_sizes (hal_of false AMaxwell128))
  | a => uvm_mmu_user_chunk_sizes (page_sizes (hal_of false a)) 0
  end.

Lemma arch_two_sizes a :
  uvm_chunk_find_first_size (arch_chunk_sizes a) = Some PAGE_SIZE /\ block_chunk_sizes (arch_chunk_sizes a) = TWO_SIZES.
Proof. by destruct a; vm_compute. Qed.

(** C25. The closed form of the chunk index is right: on every architecture, for every
    nonempty range of pages within an aligned 2MB and every page of it, the index and
    the size that the driver computes are those of the chunk that holds the page when
    the range is covered from its start on with, at each point, the largest chunk that
    is aligned and fits (of the sizes left by vAttention, which removes 128KB, 256KB
    and 2MB).  In particular no assertion fails and the loop ends. *)
Theorem chunk_index_correct a start size page :
  range_in_block start size -> 0 <= page < size / 4096 ->
  exists index chunk_size,
    uvm_va_block_gpu_chunk_index_range start size (arch_chunk_sizes a) page = Some (index, chunk_size) /\
    walk_chunks 512 (block_chunk_sizes (arch_chunk_sizes a)) (start + size) start 0 (start + page * 4096) = Some (index, chunk_size).
Proof.
  intros Hr Hp. destruct (arch_two_sizes a) as [Hf Hm]. destruct (cover_index start (start + size) (start + page * 4096)) as [i c] eqn:Ec.
  exists i, c. rewrite (index_range_closed start size Hr), Hm, Ec by done. split; [done|].
  pose proof (range_size start size Hr). destruct Hr as (Hs & Hz & H0 & _). rewrite walk_closed, Ec by (done || lia || div_lia). done.
Qed.

Lemma chunk_index_correct_witness :
  exists index chunk_size,
    uvm_va_block_gpu_chunk_index_range 1073762304 819200 (arch_chunk_sizes AAmpere) 100 = Some (index, chunk_size) /\
    walk_chunks 512 (block_chunk_sizes (arch_chunk_sizes AAmpere)) (1073762304 + 819200) 1073762304 0 (1073762304 + 100 * 4096) =
      Some (index, chunk_size).
Proof. apply (chunk_index_correct AAmpere 1073762304 819200 100); [unfold range_in_block; by vm_compute|by vm_compute]. Defined.

(** The other function that sizes chunks keeps the sizes that vAttention removed: it
    says that the whole of an aligned block is one chunk. *)
Example block_gpu_chunk_size_differs :
  block_gpu_chunk_size (VaSpan (2 ^ 30) (2 ^ 30 + 2 ^ 21 - 1)) (arch_chunk_sizes AAmpere) 0 = Some (2 ^ 21) /\
  uvm_va_block_gpu_chunk_index_range (2 ^ 30) (2 ^ 21) (arch_chunk_sizes AAmpere) 0 = Some (0, 65536).
Proof. by vm_compute. Qed.

(** ** Big pages *)

Lemma small_page x : 0 <= x <= 512 -> page_index_t x = x.
Proof. intros Hx. unfold page_index_t, wrap. apply Z.mod_small. change (2 ^ 16) with 65536. lia. Qed.

Section big_pages.
Context (b : va_span) (B : Z) (HB : B = UVM_PAGE_SIZE_64K \/ B = UVM_PAGE_SIZE_128K).
Context (Hb : range_in_block (vb_start b) (vb_end b - vb_start b + 1)).
Let S := vb_start b.
Let E := vb_end b + 1.

Ltac start_goal :=
  destruct Hb as (Hs & Hz & H0 & Hs0 & Htop & Hsame);
  change (2 ^ 63) with 9223372036854775808 in *; change (2 ^ 21) with 2097152 in *;
  unfold S, E, UVM_PAGE_SIZE_64K, UVM_PAGE_SIZE_128K, round_up in *.
Ltac by_size := destruct HB as [->| ->]; div_lia.

Lemma big_align_up x : 0 <= x <= 2 ^ 63 -> UVM_ALIGN_UP x B = Some (round_up x B).
Proof using HB. intros Hx. destruct HB as [->| ->]; [by apply (align_up_const x 16)|by apply (align_up_const x 17)]. Qed.

Lemma big_align_down x : 0 <= x < 2 ^ 64 -> UVM_ALIGN_DOWN x B = Some (x / B * B).
Proof using HB. intros Hx. destruct HB as [->| ->]; [by apply (align_down_const x 16)|by apply (align_down_const x 17)]. Qed.

Lemma big_div x : uvm_div_pow2_64 x B = Some (x / B).
Proof using HB. destruct HB as [->| ->]; [by apply (uvm_div_pow2_64_spec x 16)|by apply (uvm_div_pow2_64_spec x 17)]. Qed.

(** The pages of the big pages that fit in the block. *)
Lemma big_region_all_spec :
  uvm_va_block_big_page_region_all b B =
  Some (if E / B * B <=? round_up S B then Region 0 0
        else Region ((round_up S B - S) / 4096) ((E / B * B - S) / 4096)).
Proof using HB Hb.
  unfold uvm_va_block_big_page_region_all, range_big_page_region_all. fold S.
  pose proof Hb as (_ & _ & Hsz & Hs0 & Htop & Hsame). fold S in Hs0, Htop, Hsame. rewrite (u64_small (vb_end b + 1)) by (unfold is_u64; lia). fold E.
  rewrite big_align_up, big_align_down by (unfold S, E in *; lia). cbn [mbind option_bind].
  unfold UVM_VA_BLOCK_ALIGN_DOWN, UVM_ASSERT. rewrite !(align_down_const _ 21) by (done || unfold S in *; lia). cbn [mbind option_bind].
  replace (S + (vb_end b - S + 1) - 1) with (vb_end b) in Hsame by lia. change (2 ^ 21) with UVM_VA_BLOCK_SIZE in Hsame. rewrite Hsame, Z.eqb_refl. cbn [mbind option_bind].
  destruct (Z.leb_spec (E / B * B) (round_up S B)); [done|].
  assert (Hl : S <= round_up S B /\ E / B * B <= E /\ E - S <= 2 ^ 21 /\ (round_up S B - S) / 4096 <= (E / B * B - S) / 4096 <= 512 /\ 0 <= (round_up S B - S) / 4096)
    by (clear - HB Hb H; start_goal; by_size).
  unfold uvm_va_block_region, UVM_ASSERT, PAGE_SIZE. rewrite !u64_small by (unfold is_u64; lia). rewrite !small_page by lia.
  by rewrite (proj2 (Z.leb_le _ _)) by lia.
Qed.

Lemma big_page_addr_spec i :
  0 <= i -> round_up S B + (i + 1) * B <= E -> uvm_va_block_big_page_addr b i B = Some (round_up S B + i * B).
Proof using HB Hb.
  intros Hi Hle. assert (Hl : 0 <= S <= round_up S B /\ E <= 2 ^ 63 /\ 1 < B) by (clear - HB Hb; start_goal; by_size).
  unfold uvm_va_block_big_page_addr, UVM_ASSERT. fold S. rewrite big_align_up by lia. cbn [mbind option_bind].
  rewrite (u64_small (i * B)), u64_small by (unfold is_u64; nia). unfold E in *.
  by rewrite (proj2 (Z.leb_le _ _)), (proj2 (Z.ltb_lt _ _)) by nia.
Qed.

Lemma big_page_region_spec i :
  0 <= i -> round_up S B + (i + 1) * B <= E ->
  uvm_va_block_big_page_region b i B = Some (Region ((round_up S B + i * B - S) / 4096) ((round_up S B + (i + 1) * B - S) / 4096)).
Proof using HB Hb.
  intros Hi Hle. unfold uvm_va_block_big_page_region. rewrite big_page_addr_spec by done. cbn [mbind option_bind].
  assert (Hl : 0 <= S <= round_up S B /\ E <= 2 ^ 63 /\ E - S <= 2 ^ 21 /\ S mod 2 ^ 12 = 0 /\ (4096 <= B /\ (round_up S B + i * B) mod 2 ^ 12 = 0 /\ (round_up S B + i * B + B) mod 2 ^ 12 = 0))
    by (clear - HB Hb; start_goal; change (2 ^ 12) with 4096; by_size).
  destruct Hl as (HS & HE & Hsz & HSa & HBp & Ha1 & Ha2). unfold PAGE_SIZE at 1, UVM_ASSERT at 1. rewrite (proj2 (Z.leb_le _ _)) by done. cbn [mbind option_bind].
  unfold uvm_va_block_region_from_start_size. rewrite u64_small by (unfold is_u64; lia).
  unfold uvm_va_block_region_from_start_end, uvm_va_block_cpu_page_index, UVM_ASSERT, PAGE_ALIGNED. fold S. unfold E in *.
  rewrite (proj2 (Z.ltb_lt _ _)), !(proj2 (Z.leb_le _ _)) by lia. cbn [mbind option_bind].
  rewrite (u64_small (_ + 1)) by (unfold is_u64; lia). change PAGE_SIZE with (2 ^ 12).
  rewrite !(proj2 (IS_ALIGNED_spec _ 12 ltac:(done))) by (done || (replace (round_up S B + i * B + B - 1 + 1) with (round_up S B + i * B + B) by lia; done)).
  cbn [mbind option_bind]. rewrite !u64_small by (unfold is_u64; lia). change (2 ^ 12) with 4096 in *. change (2 ^ 21) with 2097152 in *.
  assert (Ho : (round_up S B + i * B + B - 1 - S) / 4096 + 1 = (round_up S B + (i + 1) * B - S) / 4096) by div_lia.
  rewrite (small_page ((round_up S B + i * B + B - 1 - S) / 4096)) by div_lia. rewrite Ho, !small_page by div_lia. done.
Qed.

(** The index of the big page that holds a page, when it fits in the block. *)
Lemma big_page_index_in page :
  let a := (S + page * 4096) / B * B in
  0 <= page -> S <= a -> a + B <= E ->
  uvm_va_block_big_page_index b page B = Some ((a - round_up S B) / B) /\
  0 <= (a - round_up S B) / B < MAX_BIG_PAGES_PER_UVM_VA_BLOCK /\ round_up S B + (a - round_up S B) / B * B = a.
Proof using HB Hb.
  intros a Hp HSa HaE. unfold a in *. clear a.
  assert (Hi : 0 <= ((S + page * 4096) / B * B - round_up S B) / B < 32 /\ round_up S B + ((S + page * 4096) / B * B - round_up S B) / B * B = (S + page * 4096) / B * B /\
    round_up S B < E / B * B /\ (round_up S B - S) / 4096 <= page < (E / B * B - S) / 4096 /\
    (page - (round_up S B - S) / 4096) * 4096 / B = ((S + page * 4096) / B * B - round_up S B) / B /\ E <= 2 ^ 63 /\ 0 <= S /\ 0 < B)
    by (clear - HB Hb HSa HaE Hp; start_goal; by_size).
  destruct Hi as (Hi & Ha & HAE & Hr & Hd & H63 & HS & HB0). split; [|done]. unfold uvm_va_block_big_page_index. rewrite big_region_all_spec.
  cbn [mbind option_bind]. rewrite (proj2 (Z.leb_gt _ _)) by done. cbn [first outer].
  rewrite (proj2 (Z.ltb_ge _ _)), (proj2 (Z.leb_gt _ _)) by lia. cbn [orb]. unfold PAGE_SIZE. rewrite big_div. cbn [mbind option_bind].
  rewrite Hd, big_page_addr_spec by lia. cbn [mbind option_bind]. rewrite Ha. unfold UVM_ASSERT, E in *. fold S. rewrite !u64_small by (unfold is_u64; lia).
  by rewrite !(proj2 (Z.leb_le _ _)) by lia.
Qed.

Lemma big_page_index_out page :
  let a := (S + page * 4096) / B * B in
  0 <= page < (E - S) / 4096 -> a < S \/ E < a + B ->
  uvm_va_block_big_page_index b page B = Some MAX_BIG_PAGES_PER_UVM_VA_BLOCK.
Proof using HB Hb.
  intros a Hp Hout. unfold a in *. clear a. unfold uvm_va_block_big_page_index. rewrite big_region_all_spec. cbn [mbind option_bind].
  destruct (Z.leb_spec (E / B * B) (round_up S B)) as [Hn|Hn]; cbn [first outer].
  - by rewrite (proj2 (Z.leb_le 0 page)), orb_true_r by lia.
  - destruct (Z.ltb_spec page ((round_up S B - S) / 4096)) as [|H1], (Z.leb_spec ((E / B * B - S) / 4096) page) as [|H2]; try done.
    exfalso. clear - HB Hb Hp Hout Hn H1 H2. start_goal. by_size.
Qed.
End big_pages.

(** Big pages of a block: for a block within an aligned 2MB and both sizes of big
    pages, the index of a page is the index of the aligned big page that holds it, the
    address and the region of that index are those of the big page, and a page whose
    big page sticks out of the block has no index (the maximum is returned). *)
Theorem big_page_index_correct b B page :
  B = UVM_PAGE_SIZE_64K \/ B = UVM_PAGE_SIZE_128K ->
  range_in_block (vb_start b) (vb_end b - vb_start b + 1) ->
  0 <= page < (vb_end b + 1 - vb_start b) / 4096 ->
  let a := (vb_start b + page * 4096) / B * B in
  (vb_start b <= a /\ a + B <= vb_end b + 1 -> exists i,
     uvm_va_block_big_page_index b page B = Some i /\ 0 <= i < MAX_BIG_PAGES_PER_UVM_VA_BLOCK /\
     uvm_va_block_big_page_addr b i B = Some a /\
     uvm_va_block_big_page_region b i B = Some (Region ((a - vb_start b) / 4096) ((a + B - vb_start b) / 4096))) /\
  (a < vb_start b \/ vb_end b + 1 < a + B ->
     uvm_va_block_big_page_index b page B = Some MAX_BIG_PAGES_PER_UVM_VA_BLOCK).
Proof.
  intros HB Hb Hp a. split; [intros [Ha1 Ha2]|by apply big_page_index_out].
  destruct (big_page_index_in b B HB Hb page) as (E & Hi & Ha); [lia|done|done|]. fold a in E, Hi, Ha.
  exists ((a - round_up (vb_start b) B) / B). split; [done|]. split; [done|].
  rewrite big_page_addr_spec, big_page_region_spec by (done || lia). rewrite Ha. split; [done|].
  replace (round_up (vb_start b) B + ((a - round_up (vb_start b) B) / B + 1) * B) with (a + B) by lia. done.
Qed.

Lemma big_page_index_correct_witness :
  exists i, uvm_va_block_big_page_index (VaSpan 1073762304 1074581503) 100 UVM_PAGE_SIZE_64K = Some i /\ 0 <= i < MAX_BIG_PAGES_PER_UVM_VA_BLOCK /\
    uvm_va_block_big_page_addr (VaSpan 1073762304 1074581503) i UVM_PAGE_SIZE_64K = Some 1074135040 /\
    uvm_va_block_big_page_region (VaSpan 1073762304 1074581503) i UVM_PAGE_SIZE_64K = Some (Region 91 107).
Proof.
  refine (proj1 (big_page_index_correct (VaSpan 1073762304 1074581503) UVM_PAGE_SIZE_64K 100 (or_introl eq_refl) _ _) _);
    [unfold range_in_block; by vm_compute|by vm_compute|by vm_compute].
Defined.
