(* ===== verification/UvmPageTree.v ===== *)
(** The page tree of a GPU VA space (uvm_mmu.c, uvm_mmu.h): the directories and page
    tables that the host keeps, getting and putting ranges of PTEs, allocating the table
    of smaller pages below a 2MB entry, and the commands that write directory entries.

    The directories are objects of a heap.  The tree writes page tables with the copy
    engine ([uvm_mmu_use_cpu] is false: page tables are in system memory, or the flat
    mapping of vidmem is ready).  Each push is the list of its commands; the flags that
    replace the membar of a copy are an argument of the function that pushes it.

    Locks and trackers are not modelled: what waiting for the tracker of the tree and
    beginning a push return are arguments.  The remapping of 512MB pages ([map_remap])
    is not modelled; it does nothing for other page sizes. *)

From S2P Require Import Prelude UvmBits UvmCommon UvmMmuHal UvmMmuHalCorrect UvmPush UvmHostTlb UvmTlbBatch UvmPteBatch.
Local Open Scope Z_scope.
Local Open Scope cword_scope.

(** ** Data *)

Record uvm_page_directory_t := PageDir {
  pd_host_parent : option Z;
  pd_index_in_parent : Z;
  pd_phys_alloc : uvm_mmu_page_table_alloc_t;
  pd_size : Z;
  pd_ref_count : Z;
  pd_depth : Z;
  pd_entries : list (option Z);
}.

Record uvm_page_table_range_t := PtRange {
  pr_table : Z;
  pr_start_index : Z;
  pr_entry_count : Z;
  pr_page_size : Z;
}.

Section directory_setters.
Implicit Types (d : uvm_page_directory_t).
Definition set_parent p i d := PageDir p i (pd_phys_alloc d) (pd_size d) (pd_ref_count d) (pd_depth d) (pd_entries d).
Definition set_ref_count n d := PageDir (pd_host_parent d) (pd_index_in_parent d) (pd_phys_alloc d) (pd_size d) n (pd_depth d) (pd_entries d).
Definition set_entries l d := PageDir (pd_host_parent d) (pd_index_in_parent d) (pd_phys_alloc d) (pd_size d) (pd_ref_count d) (pd_depth d) l.
End directory_setters.

(** [pt_allocs] are the coming answers of the allocations of a directory and its table;
    [pt_pushes] are the pushes that the tree has made. *)
Record page_tree := PageTree {
  pt_dirs : gmap Z uvm_page_directory_t;
  pt_next : Z;
  pt_allocs : list (option uvm_mmu_page_table_alloc_t);
  pt_pushes : list cmds;
}.

Definition with_dirs x t := PageTree x (pt_next t) (pt_allocs t) (pt_pushes t).
Definition with_next_dir x t := PageTree (pt_dirs t) x (pt_allocs t) (pt_pushes t).
Definition with_allocs x t := PageTree (pt_dirs t) (pt_next t) x (pt_pushes t).
Definition with_pushes x t := PageTree (pt_dirs t) (pt_next t) (pt_allocs t) x.

Definition T := M page_tree.

Definition must {A} (o : option A) : T A := of_option AssertFail o.
Definition load_dir (p : Z) : T uvm_page_directory_t := t <- get ;; of_option UB (pt_dirs t !! p).
Definition store_dir (p : Z) (d : uvm_page_directory_t) : T unit := modify (fun t => with_dirs (<[p := d]> (pt_dirs t)) t).
Definition update_dir (p : Z) (f : uvm_page_directory_t -> uvm_page_directory_t) : T unit := d <- load_dir p ;; store_dir p (f d).
Definition submit (push : cmds) : T unit := modify (fun t => with_pushes (pt_pushes t ++ [push]) t).

(** [phys_mem_deallocate] and [uvm_kvfree] *)
Definition free_dir (p : Z) : T unit := load_dir p ;;; modify (fun t => with_dirs (delete p (pt_dirs t)) t).

(** What the code uses of the GPU and the tree: [ge_tree_wait] and [ge_begin] are what
    waiting for the tracker and beginning a push return, [ge_can_address] is
    [uvm_gpu_can_address], which depends on the CPU, [ge_coherent] whether membars may
    not be downgraded. *)
Record gpu_env := GpuEnv {
  ge_arch : arch;
  ge_ats : bool;
  ge_debug : bool;
  ge_tlb : tlb_tree;
  ge_root : Z;
  ge_tree_wait : NV_STATUS;
  ge_begin : NV_STATUS;
  ge_can_address : Z -> Z -> bool;
  ge_coherent : bool;
}.

Definition MAX_OPERATION_DEPTH : Z := 5.

Section tree.
Context (ge : gpu_env).
Let hal : uvm_mmu_mode_hal_t := hal_of (ge_ats ge) (ge_arch ge).

(** ** Entries *)

Definition entry_index_from_vaddr (vaddr addr_bit_shift bits : Z) : Z :=
  u32 (Z.land (Z.shiftr vaddr addr_bit_shift) (u64 (u64 (Z.shiftl 1 bits) - 1))).

Definition index_to_entry (entry_index depth page_size : Z) : option Z :=
  n ← entries_per_index hal depth; o ← entry_offset hal depth page_size; Some (u32 (n * entry_index + o)).

Definition uvm_mmu_pte_size (page_size : Z) : option Z := entry_size hal (page_table_depth hal page_size).

Definition dir_addr (d : uvm_page_directory_t) : uvm_gpu_phys_address_t :=
  PhysAddr (pa_address (pd_phys_alloc d)) (pa_aperture (pd_phys_alloc d)).

Definition uvm_page_table_range_entry_address (range : uvm_page_table_range_t) (entry_index : Z)
  : T uvm_gpu_phys_address_t :=
  entry_size <- must (uvm_mmu_pte_size (pr_page_size range)) ;;
  dir <- load_dir (pr_table range) ;;
  guard_or AssertFail (entry_index <? pr_entry_count range) ;;;
  mret' (PhysAddr (u64 (pa_address (pd_phys_alloc dir) + (pr_start_index range + entry_index) * entry_size))
           (pa_aperture (pd_phys_alloc dir))).

(** ** Writing directory entries *)

(** The commands that write one entry of a directory: a memset, or inline data and a
    copy, with the membar of the last command. *)
Definition pde_fill_gpu (depth : Z) (directory : uvm_mmu_page_table_alloc_t) (start_index : Z)
    (phys_allocs : list (option uvm_mmu_page_table_alloc_t)) (membar : uvm_membar_t) (push : cmds) : option cmds :=
  size ← entry_size hal depth;
  UVM_ASSERT (size <=? 16) ;;
  pde_data ← make_pde hal phys_allocs depth;
  let addr := PhysAddr (u64 (pa_address directory + start_index * size)) (pa_aperture directory) in
  if size =? 8 then
    w ← head pde_data; Some (push ++ [CeMemset8 addr w 8; MembarCmd membar])
  else
    Some (push ++ [InlineData pde_data; CeMemcopy addr (length push) 16; MembarCmd membar]).

(** The tables that the entry of a directory points to. *)
Fixpoint children (entries : list (option Z)) (force_clear : bool) (idxs : list Z) : T (list (option uvm_mmu_page_table_alloc_t)) :=
  match idxs with
  | [] => mret' []
  | i :: idxs' =>
      entry <- of_option UB (nthZ entries i) ;;
      c <- (match entry, force_clear with
            | Some p, false => d <- load_dir p ;; mret' (Some (pd_phys_alloc d))
            | _, _ => mret' None
            end) ;;
      cs <- children entries force_clear idxs' ;;
      mret' (c :: cs)
  end.

Definition pde_write (dir entry_index : Z) (force_clear : bool) (membar : uvm_membar_t) (push : cmds) : T cmds :=
  d <- load_dir dir ;;
  n <- must (entries_per_index hal (pd_depth d)) ;;
  phys_allocs <- children (pd_entries d) force_clear (up (n * entry_index) (n * entry_index + n)) ;;
  must (pde_fill_gpu (pd_depth d) (pd_phys_alloc d) entry_index phys_allocs membar push).

Definition uvm_page_tree_write_pde (single : uvm_page_table_range_t) (membar : uvm_membar_t) (push : cmds) : T cmds :=
  guard_or AssertFail (pr_entry_count single =? 1) ;;;
  pde_write (pr_table single) (pr_start_index single) false membar push.

Definition uvm_page_tree_clear_pde (single : uvm_page_table_range_t) (membar : uvm_membar_t) (push : cmds) : T cmds :=
  guard_or AssertFail (pr_entry_count single =? 1) ;;;
  pde_write (pr_table single) (pr_start_index single) true membar push.

(** The new child of a directory: its parent has one more reference. *)
Definition host_pde_write (dir parent index_in_parent : Z) : T Z :=
  update_dir dir (set_parent (Some parent) index_in_parent) ;;;
  update_dir parent (fun d => set_ref_count (u32 (pd_ref_count d + 1)) d) ;;;
  mret' dir.

Definition set_entry (dir i : Z) (c : option Z) : T unit :=
  d <- load_dir dir ;; of_option UB (nthZ (pd_entries d) i) ;;; store_dir dir (set_entries (setZ (pd_entries d) i c) d).

Definition host_pde_clear (dir entry_index page_size : Z) : T unit :=
  d <- load_dir dir ;;
  guard_or AssertFail (0 <? pd_ref_count d) ;;;
  e <- must (index_to_entry entry_index (pd_depth d) page_size) ;;
  set_entry dir e None ;;;
  update_dir dir (fun d => set_ref_count (pd_ref_count d - 1) d).

Definition pde_clear (dir entry_index page_size : Z) (push : cmds) : T cmds :=
  host_pde_clear dir entry_index page_size ;;; pde_write dir entry_index false UVM_MEMBAR_NONE push.

(** ** Allocating directories *)

(** Memory for the object and the table is one answer; in vidmem the allocation may fall
    back to system memory. *)
Definition allocate_directory (page_size depth : Z) : T (option Z) :=
  phys_alloc_size <- must (allocation_size hal depth page_size) ;;
  entry_count <- (if depth =? page_table_depth hal UVM_PAGE_SIZE_AGNOSTIC then mret' 0
                  else n <- must (entries_per_index hal depth) ;;
                       bits <- must (index_bits hal depth page_size) ;;
                       mret' (Z.shiftl n bits)) ;;
  t <- get ;;
  match pt_allocs t with
  | Some a :: rest =>
      let p := pt_next t in
      modify (fun t => with_next_dir (p + 1) (with_allocs rest t)) ;;;
      store_dir p (PageDir None 0 a phys_alloc_size 0 depth (replicate (Z.to_nat entry_count) None)) ;;;
      mret' (Some p)
  | None :: rest => modify (with_allocs rest) ;;; mret' None
  | [] => mret' None
  end.

(** The commands that clear a new table. *)
Definition phys_mem_init (page_size : Z) (d : uvm_page_directory_t) : option push_cmd :=
  clear_bits ← (if pd_depth d =? page_table_depth hal page_size then Some 0
                else
                  n ← entries_per_index hal (pd_depth d);
                  pde ← make_pde hal (replicate (Z.to_nat n) None) (pd_depth d);
                  w ← head pde;
                  size ← entry_size hal (pd_depth d);
                  UVM_ASSERT ((size =? 8) || bool_decide (nth_error pde 1 = Some w)) ;; Some w);
  Some (CeMemset8 (dir_addr d) clear_bits (pd_size d)).

(** A debug build fills the table of smaller pages with a pattern. *)
Definition poison_ptes (pte_dir parent page_size : Z) : T NV_STATUS :=
  d <- load_dir pte_dir ;;
  par <- load_dir parent ;;
  guard_or AssertFail (pd_depth d =? page_table_depth hal page_size) ;;;
  if decide (ge_begin ge = NV_OK) then
    poison <- must (poisoned_pte hal) ;;
    let local := aperture_eqb (pa_aperture (pd_phys_alloc d)) UVM_APERTURE_VID && aperture_eqb (pa_aperture (pd_phys_alloc par)) UVM_APERTURE_VID in
    submit [CeMemset8 (dir_addr d) poison (pd_size d); MembarCmd (if local then UVM_MEMBAR_GPU else UVM_MEMBAR_SYS)] ;;;
    mret' NV_OK
  else mret' (ge_begin ge).

(** The table of smaller pages below a 2MB entry.  Its entries are not initialized: the
    caller has to. *)
Definition uvm_page_tree_alloc_table (page_size : Z) (single : uvm_page_table_range_t)
  : T (NV_STATUS * option uvm_page_table_range_t) :=
  guard_or AssertFail (pr_entry_count single =? 1) ;;;
  table <- load_dir (pr_table single) ;;
  entry <- must (index_to_entry (pr_start_index single) (pd_depth table) page_size) ;;
  dir <- allocate_directory page_size (pd_depth table + 1) ;;
  match dir with
  | None => mret' (NV_ERR_NO_MEMORY, None)
  | Some dir =>
      status <- (if ge_debug ge then poison_ptes dir (pr_table single) page_size else mret' NV_OK) ;;
      let status := if decide (status = NV_OK) then ge_tree_wait ge else status in
      if decide (status = NV_OK) then
        bits <- must (index_bits hal (pd_depth table + 1) page_size) ;;
        let entry_count := Z.shiftl 1 bits in
        table <- load_dir (pr_table single) ;;
        child <- of_option UB (nthZ (pd_entries table) entry) ;;
        c <- (match child with
              | None => set_entry (pr_table single) entry (Some dir) ;;; host_pde_write dir (pr_table single) (pr_start_index single)
              | Some c => mret' c
              end) ;;
        update_dir c (fun d => set_ref_count (u32 (pd_ref_count d + entry_count)) d) ;;;
        when (match child with Some _ => true | None => false end) (free_dir dir) ;;;
        mret' (NV_OK, Some (PtRange c 0 entry_count page_size))
      else free_dir dir ;;; mret' (status, None)
  end.

(** ** Getting PTEs *)

Definition page_table_range_init (page_size dir start_index end_index : Z) : T uvm_page_table_range_t :=
  let entry_count := u32 (1 + end_index - start_index) in
  update_dir dir (fun d => set_ref_count (u32 (pd_ref_count d + entry_count)) d) ;;;
  mret' (PtRange dir start_index entry_count page_size).

Fixpoint clear_all (dirs_used : list Z) (page_size : Z) : T unit :=
  match dirs_used with
  | [] => mret' tt
  | p :: ps =>
      d <- load_dir p ;;
      parent <- of_option UB (pd_host_parent d) ;;
      host_pde_clear parent (pd_index_in_parent d) page_size ;;;
      clear_all ps page_size
  end.

(** The loop of [try_get_ptes]: down from [dir], with the directories of [dir_cache] where
    there is none.  [inl] is the depth at which a directory is missing; what was linked
    is then undone. *)
Fixpoint get_ptes_walk (fuel : nat) (page_size start size : Z) (dir_cache : list (option Z))
    (dir addr_bit_shift invalidate_depth : Z) (dirs_used : list Z)
  : T (Z + uvm_page_table_range_t * Z * list Z) :=
  match fuel with
  | O => fail OutOfFuel
  | S fuel' =>
      d <- load_dir dir ;;
      bits <- must (index_bits hal (pd_depth d) page_size) ;;
      let addr_bit_shift := addr_bit_shift - bits in
      let start_index := entry_index_from_vaddr start addr_bit_shift bits in
      let end_index := entry_index_from_vaddr (u64 (start + size - 1)) addr_bit_shift bits in
      guard_or AssertFail ((start_index <=? end_index) && (end_index <? Z.shiftl 1 bits)) ;;;
      if pd_depth d =? page_table_depth hal page_size then
        range <- page_table_range_init page_size dir start_index end_index ;;
        mret' (inr (range, invalidate_depth, dirs_used))
      else
        guard_or AssertFail (start_index =? end_index) ;;;
        e <- must (index_to_entry start_index (pd_depth d) page_size) ;;
        entry <- of_option UB (nthZ (pd_entries d) e) ;;
        match entry with
        | Some c => get_ptes_walk fuel' page_size start size dir_cache c addr_bit_shift invalidate_depth dirs_used
        | None =>
            cached <- of_option UB (nthZ dir_cache (pd_depth d)) ;;
            match cached with
            | None => clear_all dirs_used page_size ;;; mret' (inl (pd_depth d))
            | Some c =>
                host_pde_write c dir start_index ;;;
                set_entry dir e (Some c) ;;;
                get_ptes_walk fuel' page_size start size dir_cache c addr_bit_shift
                  (if invalidate_depth =? -1 then pd_depth d else invalidate_depth) (dirs_used ++ [c])
            end
        end
  end.

Fixpoint free_unused_directories (dirs_used : list Z) (dir_cache : list (option Z)) : T unit :=
  match dir_cache with
  | [] => mret' tt
  | c :: cs =>
      (match c with
       | Some p => when (negb (bool_decide (p ∈ dirs_used))) (free_dir p)
       | None => mret' tt
       end) ;;;
      free_unused_directories dirs_used cs
  end.

Definition sys_if (b : bool) : uvm_membar_t := if b then UVM_MEMBAR_SYS else UVM_MEMBAR_GPU.
Definition in_sys (d : uvm_page_directory_t) : bool := aperture_eqb (pa_aperture (pd_phys_alloc d)) UVM_APERTURE_SYS.

(** Clearing the new tables.  The fills are pipelined, as every fill and copy of [push_cmd] is. *)
Fixpoint init_dirs (page_size : Z) (dirs_used : list Z) (push : cmds) (sys : bool) : T (cmds * bool) :=
  match dirs_used with
  | [] => mret' (push, sys)
  | p :: ps =>
      d <- load_dir p ;; c <- must (phys_mem_init page_size d) ;;
      init_dirs page_size ps (push ++ [c]) (sys || in_sys d)
  end.

(** Writing the entries of their parents, also pipelined: only the waits with a membar of
    [write_gpu_state_gpu] order the writes. *)
Fixpoint link_dirs (dirs : list Z) (push : cmds) (sys : bool) : T (cmds * bool) :=
  match dirs with
  | [] => mret' (push, sys)
  | p :: ps =>
      d <- load_dir p ;;
      parent <- of_option UB (pd_host_parent d) ;;
      push <- pde_write parent (pd_index_in_parent d) false UVM_MEMBAR_NONE push ;;
      par <- load_dir parent ;;
      link_dirs ps push (sys || in_sys par)
  end.

Definition write_gpu_state_gpu (page_size invalidate_depth : Z) (dirs_used : list Z) : T NV_STATUS :=
  match dirs_used with
  | [] => mret' NV_OK
  | _ =>
      if decide (ge_begin ge = NV_OK) then
        r <- init_dirs page_size dirs_used [] false ;;
        let push := fst r ++ [WaitForIdle; MembarCmd (sys_if (snd r))] in
        r <- link_dirs (reverse dirs_used) push false ;;
        guard_or AssertFail (0 <=? invalidate_depth) ;;;
        words <- must (host_tlb_invalidate_all (ge_tlb ge) [] (tree_pdb (ge_tlb ge)) invalidate_depth UVM_MEMBAR_NONE) ;;
        submit (fst r ++ [WaitForIdle; MembarCmd (sys_if (snd r)); HostMethods words]) ;;;
        mret' NV_OK
      else mret' (ge_begin ge)
  end.

(** The result has a range unless the status is NV_ERR_MORE_PROCESSING_REQUIRED, which
    comes with a depth. *)
Definition try_get_ptes (page_size start size : Z) (dir_cache : list (option Z))
  : T (Z + NV_STATUS * uvm_page_table_range_t) :=
  guard_or AssertFail (is_power_of_2 page_size && negb (Z.land page_size (page_sizes hal) =? 0)) ;;;
  guard_or AssertFail ((start mod page_size =? 0) && (size mod page_size =? 0)) ;;;
  guard_or AssertFail (ge_can_address ge start size) ;;;
  r <- get_ptes_walk (Z.to_nat MAX_OPERATION_DEPTH) page_size start size dir_cache (ge_root ge) (num_va_bits hal) (-1) [] ;;
  match r with
  | inl depth => mret' (inl depth)
  | inr (range, invalidate_depth, dirs_used) =>
      free_unused_directories dirs_used dir_cache ;;;
      status <- write_gpu_state_gpu page_size invalidate_depth dirs_used ;;
      mret' (inr (status, range))
  end.

(** Every turn adds a directory to the cache. *)
Fixpoint get_ptes_retry (fuel : nat) (page_size start size : Z) (dir_cache : list (option Z))
  : T (NV_STATUS * option uvm_page_table_range_t) :=
  match fuel with
  | O => fail OutOfFuel
  | S fuel' =>
      r <- try_get_ptes page_size start size dir_cache ;;
      match r with
      | inr (status, range) => mret' (status, Some range)
      | inl cur_depth =>
          dir <- allocate_directory page_size (cur_depth + 1) ;;
          match dir with
          | None => free_unused_directories [] dir_cache ;;; mret' (NV_ERR_NO_MEMORY, None)
          | Some p => get_ptes_retry fuel' page_size start size (setZ dir_cache cur_depth (Some p))
          end
      end
  end.

Definition uvm_page_tree_get_ptes_async (page_size start size : Z) : T (NV_STATUS * option uvm_page_table_range_t) :=
  get_ptes_retry (Z.to_nat MAX_OPERATION_DEPTH + 1) page_size start size (replicate (Z.to_nat MAX_OPERATION_DEPTH) None).

Definition uvm_page_tree_get_ptes (page_size start size : Z) : T (NV_STATUS * option uvm_page_table_range_t) :=
  r <- uvm_page_tree_get_ptes_async page_size start size ;;
  if decide (fst r = NV_OK) then mret' (ge_tree_wait ge, snd r) else mret' r.

(** ** Putting PTEs *)

Definition uvm_hal_downgrade_membar_type (is_local_vidmem : bool) : uvm_membar_t :=
  if is_local_vidmem && negb (ge_coherent ge) then UVM_MEMBAR_GPU else UVM_MEMBAR_SYS.

(** The state of the loop of [uvm_page_tree_put_ptes_async]. *)
Record put_state := PutState {
  ps_push : cmds;
  ps_free_queue : list Z;
  ps_invalidate_depth : Z;
  ps_after_clears : uvm_membar_t;
  ps_after_invalidate : uvm_membar_t;
}.

(** Up from [dir] while directories have no references; [None] when no push could be
    begun. *)
Fixpoint put_ptes_loop (fuel : nat) (range : uvm_page_table_range_t) (dir : Z) (st : put_state) : T (option put_state) :=
  match fuel with
  | O => fail OutOfFuel
  | S fuel' =>
      d <- load_dir dir ;;
      match pd_host_parent d with
      | Some parent =>
          if pd_ref_count d =? 0 then
            if bool_decide (ps_free_queue st = []) && negb (bool_decide (ge_begin ge = NV_OK)) then
              update_dir dir (fun d => set_ref_count (u32 (pd_ref_count d + pr_entry_count range)) d) ;;; mret' None
            else
              push <- pde_clear parent (pd_index_in_parent d) (pr_page_size range) (ps_push st) ;;
              par <- load_dir parent ;;
              let this_membar := uvm_hal_downgrade_membar_type (aperture_eqb (pa_aperture (pd_phys_alloc d)) UVM_APERTURE_VID) in
              guard_or AssertFail (Z.of_nat (length (ps_free_queue st)) <? page_table_depth hal (pr_page_size range)) ;;;
              put_ptes_loop fuel' range parent
                (PutState push (ps_free_queue st ++ [dir]) (pd_depth par)
                   (if in_sys par then UVM_MEMBAR_SYS else ps_after_clears st)
                   (uvm_membar_max (ps_after_invalidate st) this_membar))
          else mret' (Some st)
      | None => mret' (Some st)
      end
  end.

Fixpoint free_dirs (dirs : list Z) : T unit :=
  match dirs with
  | [] => mret' tt
  | p :: ps => free_dir p ;;; free_dirs ps
  end.

Definition uvm_page_tree_put_ptes_async (range : uvm_page_table_range_t) : T unit :=
  guard_or AssertFail (page_table_depth hal (pr_page_size range) <=? MAX_OPERATION_DEPTH) ;;;
  d <- load_dir (pr_table range) ;;
  guard_or AssertFail (pr_entry_count range <=? pd_ref_count d) ;;;
  store_dir (pr_table range) (set_ref_count (pd_ref_count d - pr_entry_count range) d) ;;;
  r <- put_ptes_loop (Z.to_nat MAX_OPERATION_DEPTH + 1) range (pr_table range) (PutState [] [] 0 UVM_MEMBAR_GPU UVM_MEMBAR_GPU) ;;
  match r with
  | Some st =>
      if bool_decide (ps_free_queue st = []) then mret' tt
      else
        words <- must (host_tlb_invalidate_all (ge_tlb ge) [] (tree_pdb (ge_tlb ge)) (ps_invalidate_depth st) (ps_after_invalidate st)) ;;
        submit (ps_push st ++ [WaitForIdle; MembarCmd (ps_after_clears st); HostMethods words]) ;;;
        free_dirs (ps_free_queue st)
  | None => mret' tt
  end.

(** What waiting for the tracker of the tree returns is ignored. *)
Definition uvm_page_tree_put_ptes (range : uvm_page_table_range_t) : T unit := uvm_page_tree_put_ptes_async range.

(** ** Parts of a range *)

Definition uvm_page_table_range_get_upper (existing : uvm_page_table_range_t) (num_upper_pages : Z) : T uvm_page_table_range_t :=
  let upper_start_index := u32 (pr_start_index existing + (pr_entry_count existing - num_upper_pages)) in
  let upper_end_index := u32 (upper_start_index + num_upper_pages - 1) in
  guard_or AssertFail (negb (num_upper_pages =? 0)) ;;;
  guard_or AssertFail (num_upper_pages <=? pr_entry_count existing) ;;;
  page_table_range_init (pr_page_size existing) (pr_table existing) upper_start_index upper_end_index.

(** The range that is left. *)
Definition uvm_page_table_range_shrink (range : uvm_page_table_range_t) (new_page_count : Z) : T uvm_page_table_range_t :=
  guard_or AssertFail (new_page_count <=? pr_entry_count range) ;;;
  if 0 <? new_page_count then
    d <- load_dir (pr_table range) ;;
    guard_or AssertFail (pr_entry_count range <=? pd_ref_count d) ;;;
    store_dir (pr_table range) (set_ref_count (pd_ref_count d - (pr_entry_count range - new_page_count)) d) ;;;
    mret' (PtRange (pr_table range) (pr_start_index range) new_page_count (pr_page_size range))
  else uvm_page_tree_put_ptes range ;;; mret' range.

(** On failure the assertion reads a range that was not written. *)
Definition uvm_page_tree_get_entry (page_size start : Z) : T (NV_STATUS * option uvm_page_table_range_t) :=
  r <- uvm_page_tree_get_ptes page_size start page_size ;;
  single <- of_option UB (snd r) ;;
  guard_or AssertFail (pr_entry_count single =? 1) ;;;
  mret' r.
End tree.
