(* ===== verification/UvmPageTreeWalk.v ===== *)
(** Getting the 2MB entry of an address from the page tree, on the architectures whose
    tables have 2MB entries: with memory for the missing directories the retry loop ends
    with the entry found by descending the tree from its root, and the tree keeps all it
    had. *)

From S2P Require Import Prelude UvmBits UvmCommon UvmMmuHal UvmMmuHalCorrect UvmPush UvmHostTlb UvmTlbBatch UvmPteBatch UvmVaBlockCorrect UvmPageTree.
Local Open Scope Z_scope.
Local Open Scope cword_scope.

(** ** The levels of the tree above the 2MB entries *)

Definition big_arch (a : arch) : bool := match a with AMaxwell64 | AMaxwell128 => false | _ => true end.

(** The depth of the 2MB entries. *)
Definition depth_2m (ats : bool) (a : arch) : Z := page_table_depth (hal_of ats a) UVM_PAGE_SIZE_2M.

Definition lvl_bits (h : uvm_mmu_mode_hal_t) (k : Z) : Z := default 0 (index_bits h k UVM_PAGE_SIZE_2M).
Definition lvl_shift (h : uvm_mmu_mode_hal_t) (k : Z) : Z := num_va_bits h - foldr Z.add 0 (lvl_bits h <$> up 0 (k + 1)).
Definition lvl_index (h : uvm_mmu_mode_hal_t) (S k : Z) : Z := S / 2 ^ lvl_shift h k mod 2 ^ lvl_bits h k.
Definition lvl_entries (h : uvm_mmu_mode_hal_t) (d2 k : Z) : Z := (if k =? d2 then 2 else 1) * 2 ^ lvl_bits h k.

(** A level of directories with one child for each index. *)
Record upper_level (h : uvm_mmu_mode_hal_t) (k : Z) : Prop := {
  ul_bits : index_bits h k UVM_PAGE_SIZE_2M = Some (lvl_bits h k);
  ul_range : 0 <= lvl_bits h k <= 9;
  ul_shift : 21 <= lvl_shift h k <= 57;
  ul_per_index : entries_per_index h k = Some 1;
  ul_offset : entry_offset h k UVM_PAGE_SIZE_2M = Some 0;
  ul_size : entry_size h k = Some 8;
  ul_step : lvl_shift h (k - 1) - lvl_bits h k = lvl_shift h k;
}.

Record tree_geometry (h : uvm_mmu_mode_hal_t) (d2 : Z) : Prop := {
  tg_depth : page_table_depth h UVM_PAGE_SIZE_2M = d2;
  tg_range : 0 <= d2 <= 4;
  tg_upper : forall k, 0 <= k < d2 -> upper_level h k;
  tg_bits : index_bits h d2 UVM_PAGE_SIZE_2M = Some (lvl_bits h d2);
  tg_bits_range : 0 <= lvl_bits h d2 <= 8;
  tg_per_index : entries_per_index h d2 = Some 2;
  tg_entry_size : entry_size h d2 = Some 16;
  tg_shift : lvl_shift h d2 = 21;
  tg_last : lvl_shift h (d2 - 1) - lvl_bits h d2 = 21;
  tg_start : lvl_shift h (-1) = num_va_bits h;
  tg_agnostic : d2 < page_table_depth h UVM_PAGE_SIZE_AGNOSTIC;
  tg_alloc : forall k, 0 <= k <= d2 -> allocation_size h k UVM_PAGE_SIZE_2M = Some 4096;
  tg_sizes : negb (Z.land UVM_PAGE_SIZE_2M (page_sizes h) =? 0) = true;
}.

Lemma upper_level_at h d2 :
  forallb (fun k => bool_decide (index_bits h k UVM_PAGE_SIZE_2M = Some (lvl_bits h k)) && (0 <=? lvl_bits h k) && (lvl_bits h k <=? 9) &&
    (21 <=? lvl_shift h k) && (lvl_shift h k <=? 57) && bool_decide (entries_per_index h k = Some 1) && bool_decide (entry_offset h k UVM_PAGE_SIZE_2M = Some 0) &&
    bool_decide (entry_size h k = Some 8) && (lvl_shift h (k - 1) - lvl_bits h k =? lvl_shift h k)) (up 0 d2) = true ->
  forall k, 0 <= k < d2 -> upper_level h k.
Proof.
  intros H k Hk. rewrite forallb_forall in H. specialize (H k). rewrite <- list_elem_of_In, elem_of_up in H. specialize (H ltac:(lia)).
  rewrite !andb_true_iff, !bool_decide_eq_true, !Z.leb_le, Z.eqb_eq in H. split; try tauto; lia.
Qed.

Lemma hal_tree ats a : big_arch a = true -> tree_geometry (hal_of ats a) (depth_2m ats a).
Proof.
  intros Ha. split; [done|..|by destruct ats, a].
  - destruct ats, a; by vm_compute.
  - apply upper_level_at. destruct ats, a; by vm_compute.
  - destruct ats, a; try done; by vm_compute.
  - destruct ats, a; try done; by vm_compute.
  - destruct ats, a; try done; by vm_compute.
  - destruct ats, a; try done; by vm_compute.
  - destruct ats, a; try done; by vm_compute.
  - destruct ats, a; try done; by vm_compute.
  - destruct ats, a; by vm_compute.
  - destruct ats, a; by vm_compute.
  - intros k Hk.
    assert (H : forallb (fun k => bool_decide (allocation_size (hal_of ats a) k UVM_PAGE_SIZE_2M = Some 4096)) (up 0 (depth_2m ats a + 1)) = true)
      by (destruct ats, a; by vm_compute).
    rewrite forallb_forall in H. eapply bool_decide_eq_true, H, list_elem_of_In, elem_of_up. lia.
Qed.

(** ** Rules of the tree *)

Section rules.
Implicit Types (F : fault -> page_tree -> Prop) (t : page_tree).

Lemma wp_load_dir p d (Q : _ -> page_tree -> Prop) F t : pt_dirs t !! p = Some d -> Q d t -> wp (load_dir p) Q F t.
Proof. intros Hd HQ. apply wp_bind, wp_get. by eapply wp_of_option. Qed.

Lemma wp_update_dir p d f (Q : _ -> page_tree -> Prop) F t :
  pt_dirs t !! p = Some d -> Q tt (with_dirs (<[p := f d]> (pt_dirs t)) t) -> wp (update_dir p f) Q F t.
Proof. intros Hd HQ. apply wp_bind. eapply wp_load_dir; [done|]. by apply wp_modify. Qed.

Lemma wp_must {A} (o : option A) a (Q : A -> page_tree -> Prop) F t : o = Some a -> Q a t -> wp (must o) Q F t.
Proof. intros. by eapply wp_of_option. Qed.

Lemma wp_set_entry p d i x c (Q : _ -> page_tree -> Prop) F t :
  pt_dirs t !! p = Some d -> nthZ (pd_entries d) i = Some x ->
  Q tt (with_dirs (<[p := set_entries (setZ (pd_entries d) i c) d]> (pt_dirs t)) t) -> wp (set_entry p i c) Q F t.
Proof. intros Hd Hi HQ. apply wp_bind. eapply wp_load_dir; [done|]. apply wp_bind. eapply wp_of_option; [done|]. by apply wp_modify. Qed.

Lemma with_dirs_id t : with_dirs (pt_dirs t) t = t.
Proof. by destruct t. Qed.
Lemma with_dirs_twice D D' t : with_dirs D' (with_dirs D t) = with_dirs D' t.
Proof. done. Qed.
End rules.

(** ** The entries of an address *)

Section address.
Context (h : uvm_mmu_mode_hal_t) (d2 : Z) (Hh : tree_geometry h d2).
Context (va : Z) (Hal : va mod 2097152 = 0) (H0 : 0 <= va) (Htop : va + 2097152 <= 2 ^ 63).

Lemma index_at x shift bits :
  0 <= bits <= 9 -> 0 <= shift -> entry_index_from_vaddr x shift bits = x / 2 ^ shift mod 2 ^ bits.
Proof using.
  intros Hb Hs. unfold entry_index_from_vaddr. rewrite Z.shiftr_div_pow2, Z.shiftl_1_l by lia.
  assert (0 < 2 ^ bits <= 512) by (split; [lia|]; change 512 with (2 ^ 9); apply Z.pow_le_mono_r; lia).
  rewrite (u64_small (2 ^ bits)) by (unfold is_u64; lia). rewrite u64_small by (unfold is_u64; lia).
  replace (2 ^ bits - 1) with (Z.ones bits) by (rewrite Z.ones_equiv; lia). rewrite Z.land_ones by lia.
  apply u32_small. pose proof (Z.mod_pos_bound (x / 2 ^ shift) (2 ^ bits)). unfold is_u32. lia.
Qed.

(** The last byte of the 2MB has the indices of the first. *)
Lemma last_byte shift : 21 <= shift -> (va + 2097151) / 2 ^ shift = va / 2 ^ shift.
Proof using Hal.
  intros Hs. replace (2 ^ shift) with (2097152 * 2 ^ (shift - 21)) by (change 2097152 with (2 ^ 21); rewrite <- Z.pow_add_r by lia; f_equal; lia).
  rewrite <- !Z.div_div by lia. f_equal. div_lia.
Qed.

Lemma level k : 0 <= k <= d2 -> index_bits h k UVM_PAGE_SIZE_2M = Some (lvl_bits h k) /\ 0 <= lvl_bits h k <= 9 /\
  21 <= lvl_shift h k /\ lvl_shift h (k - 1) - lvl_bits h k = lvl_shift h k.
Proof using Hh.
  intros Hk. destruct (decide (k = d2)) as [->|Hne].
  - rewrite (tg_last _ _ Hh), (tg_shift _ _ Hh), (tg_bits _ _ Hh). pose proof (tg_bits_range _ _ Hh). repeat split; lia.
  - destruct (tg_upper _ _ Hh k ltac:(lia)) as [? ? ? ? ? ? ?]. repeat split; try done; lia.
Qed.

Let idx : Z -> Z := lvl_index h va.

Lemma idx_range k : 0 <= k <= d2 -> 0 <= idx k < 2 ^ lvl_bits h k /\ 2 ^ lvl_bits h k <= 512.
Proof using Hh.
  intros Hk. destruct (level k Hk) as (_ & Hb & _). split; [apply Z.mod_pos_bound; lia|]. change 512 with (2 ^ 9). apply Z.pow_le_mono_r; lia.
Qed.

Lemma indices k : 0 <= k <= d2 ->
  entry_index_from_vaddr va (lvl_shift h k) (lvl_bits h k) = idx k /\
  entry_index_from_vaddr (u64 (va + UVM_PAGE_SIZE_2M - 1)) (lvl_shift h k) (lvl_bits h k) = idx k.
Proof using Hh Hal H0 Htop.
  intros Hk. destruct (level k Hk) as (_ & Hb & Hs & _). change UVM_PAGE_SIZE_2M with 2097152. rewrite !index_at by lia.
  rewrite u64_small by (unfold is_u64; lia). replace (va + 2097152 - 1) with (va + 2097151) by lia. by rewrite last_byte by lia.
Qed.

Lemma entry_at ge k : hal_of (ge_ats ge) (ge_arch ge) = h -> 0 <= k < d2 -> index_to_entry ge (idx k) k UVM_PAGE_SIZE_2M = Some (idx k).
Proof using Hh.
  intros Hge Hk. destruct (tg_upper _ _ Hh k Hk) as [? ? ? Hn Ho ? ?]. unfold index_to_entry. rewrite Hge, Hn, Ho. cbn [mbind option_bind]. f_equal.
  destruct (idx_range k); [lia|]. rewrite u32_small; unfold is_u32; lia.
Qed.
End address.

(** ** Linking a chain of new directories *)

(** Directories that differ at most in their place in the tree. *)
Definition same_dir (d d' : uvm_page_directory_t) : Prop := exists p i, d' = set_parent p i d.
Definition same_dirs (D D' : gmap Z uvm_page_directory_t) : Prop := forall q, option_Forall2 same_dir (D !! q) (D' !! q).

#[export] Instance same_dir_refl : Reflexive same_dir.
Proof. intros d. exists (pd_host_parent d), (pd_index_in_parent d). by destruct d. Qed.
#[export] Instance same_dir_trans : Transitive same_dir.
Proof. intros d1 d2 d3 (p & i & ->) (p' & i' & ->). by exists p', i'. Qed.
#[export] Instance same_dirs_refl : Reflexive same_dirs.
Proof. intros D q. by destruct (D !! q); constructor. Qed.
#[export] Instance same_dirs_trans : Transitive same_dirs.
Proof.
  intros D1 D2 D3 H12 H23 q. specialize (H12 q). specialize (H23 q). revert H23.
  destruct H12 as [d d' H|]; intros H'; inversion H'; subst; constructor. by etransitivity.
Qed.

Lemma same_dirs_insert D D' q d d' : same_dirs D D' -> same_dir d d' -> same_dirs (<[q := d]> D) (<[q := d']> D').
Proof.
  intros H Hd q'. rewrite !lookup_insert. destruct (decide (q = q')); [by constructor|apply H].
Qed.

Lemma same_dirs_parent D q d p i : D !! q = Some d -> same_dirs D (<[q := set_parent p i d]> D).
Proof. intros Hd. rewrite <- (insert_id D q d Hd) at 1. apply same_dirs_insert; [done|by eexists _, _]. Qed.

Lemma same_dirs_lookup D D' q d : same_dirs D D' -> D !! q = Some d -> exists d', D' !! q = Some d' /\ same_dir d d'.
Proof. intros H Hd. specialize (H q). rewrite Hd in H. inversion H; subst. by eexists. Qed.

(** The parent after its entry [i] points to the new child [c]. *)
Definition linked (d : uvm_page_directory_t) (i c : Z) : uvm_page_directory_t :=
  set_entries (setZ (pd_entries d) i (Some c)) (set_ref_count (u32 (pd_ref_count d + 1)) d).

Definition link1 (D : gmap Z uvm_page_directory_t) (p i c : Z) : gmap Z uvm_page_directory_t :=
  match D !! p, D !! c with
  | Some d, Some e => <[p := linked d i c]> (<[c := set_parent (Some p) i e]> D)
  | _, _ => D
  end.

Lemma last_cons (c : Z) cs p : List.last (c :: cs) p = List.last cs c.
Proof. destruct cs as [|x cs]; [done|]. revert x. induction cs as [|y cs IH]; intros x; [done|]. apply IH. Qed.

Lemma last_elem (cs : list Z) p : List.last cs p ∈ p :: cs.
Proof. revert p. induction cs as [|c cs IH]; intros p; [set_solver|]. rewrite last_cons. specialize (IH c). set_solver. Qed.

Section chain.
Context (h : uvm_mmu_mode_hal_t) (d2 : Z) (idx : Z -> Z).

(** [p], at depth [k], gets the child [c] of [cs], which gets the next one, and so on. *)
Fixpoint link (D : gmap Z uvm_page_directory_t) (p k : Z) (cs : list Z) : gmap Z uvm_page_directory_t :=
  match cs with
  | [] => D
  | c :: cs' => link (link1 D p (idx k) c) c (k + 1) cs'
  end.

(** A directory that can get a child. *)
Record linkable (k : Z) (d : uvm_page_directory_t) : Prop := {
  lk_depth : pd_depth d = k;
  lk_range : 0 <= k < d2;
  lk_refs : 0 <= pd_ref_count d < 2 ^ 32 - 1;
  lk_entry : nthZ (pd_entries d) (idx k) = Some None;
}.

Fixpoint chain (D : gmap Z uvm_page_directory_t) (p k : Z) (cs : list Z) : Prop :=
  match cs with
  | [] => True
  | c :: cs' => (exists d, D !! p = Some d /\ linkable k d) /\ p ∉ cs /\ is_Some (D !! c) /\ chain D c (k + 1) cs'
  end.

Lemma linkable_same k d d' : same_dir d d' -> linkable k d -> linkable k d'.
Proof using. intros (p & i & ->) [? ? ? ?]. by split. Qed.

Lemma chain_ext D D' p k cs :
  (forall q, q ∈ p :: cs -> option_Forall2 same_dir (D !! q) (D' !! q)) -> chain D p k cs -> chain D' p k cs.
Proof using.
  revert p k. induction cs as [|c cs IH]; intros p k Hext; [done|]. intros ((d & Hd & Hl) & Hp & [e He] & Hc). cbn [chain].
  repeat split; [|done| |].
  - pose proof (Hext p ltac:(set_solver)) as H. rewrite Hd in H. inversion H as [? d' Hs|]; subst. exists d'. split; [done|]. by eapply linkable_same.
  - pose proof (Hext c ltac:(set_solver)) as H. rewrite He in H. by inversion H.
  - apply IH; [|done]. intros q Hq. apply Hext. set_solver.
Qed.

Lemma chain_same D D' p k cs : same_dirs D D' -> chain D p k cs -> chain D' p k cs.
Proof using. intros H. apply chain_ext. intros. apply H. Qed.

Lemma link1_eq D p i c d e : D !! p = Some d -> D !! c = Some e -> link1 D p i c = <[p := linked d i c]> (<[c := set_parent (Some p) i e]> D).
Proof using. intros Hd He. unfold link1. by rewrite Hd, He. Qed.

Lemma link1_ne D p i c q : q <> p -> q <> c -> link1 D p i c !! q = D !! q.
Proof using. intros. unfold link1. destruct (D !! p), (D !! c); try done. by rewrite !lookup_insert_ne. Qed.

Lemma link_ne D p k cs q : q ∉ p :: cs -> link D p k cs !! q = D !! q.
Proof using.
  revert D p k. induction cs as [|c cs IH]; intros D p k Hq; [done|]. cbn [link]. rewrite IH by set_solver. apply link1_ne; set_solver.
Qed.

(** After the first link the rest of the chain is as it was. *)
Lemma chain_link1 D p k c cs : chain D p k (c :: cs) -> chain (link1 D p (idx k) c) c (k + 1) cs.
Proof using.
  intros ((d & Hd & Hl) & Hp & [e He] & Hc). rewrite (link1_eq _ _ _ _ d e) by done. eapply chain_ext, Hc. intros q Hq.
  rewrite (lookup_insert_ne _ p) by set_solver. rewrite lookup_insert. destruct (decide (c = q)) as [<-|]; [|apply same_dirs_refl].
  rewrite He. constructor. by eexists _, _.
Qed.

Lemma link_insert D p k cs q d : q ∉ p :: cs -> link (<[q := d]> D) p k cs = (<[q := d]> (link D p k cs)).
Proof using.
  revert D p k. induction cs as [|c cs IH]; intros D p k Hq; [done|]. cbn [link]. rewrite <- IH by set_solver. f_equal. unfold link1.
  rewrite !lookup_insert_ne by set_solver. destruct (D !! p), (D !! c); try done. rewrite (insert_insert_ne _ c q) by set_solver.
  by rewrite (insert_insert_ne _ p q) by set_solver.
Qed.

Lemma link_head D p k c cs d : D !! p = Some d -> chain D p k (c :: cs) -> link D p k (c :: cs) !! p = Some (linked d (idx k) c).
Proof using.
  intros Hd (_ & Hp & [e He] & _). cbn [link]. rewrite link_ne by done. rewrite (link1_eq _ _ _ _ d e) by done. by rewrite lookup_insert_eq.
Qed.

(** The top of a chain keeps its place in the tree. *)
Lemma link_top D p k cs d : D !! p = Some d -> chain D p k cs ->
  exists d', link D p k cs !! p = Some d' /\ pd_host_parent d' = pd_host_parent d /\ pd_index_in_parent d' = pd_index_in_parent d /\
    pd_phys_alloc d' = pd_phys_alloc d /\ pd_size d' = pd_size d /\ pd_depth d' = pd_depth d.
Proof using.
  intros Hd Hc. destruct cs as [|c cs]; [by exists d|]. exists (linked d (idx k) c). split; [by apply link_head|done].
Qed.

Lemma setZ_back {A} (l : list A) i x y : nthZ l i = Some x -> setZ (setZ l i y) i x = l.
Proof using.
  intros H. rewrite <- (setZ_same l i x H) at 2. unfold setZ. destruct (0 <=? i); [|done]. by rewrite list_insert_insert_eq.
Qed.

(** The last directory of a chain gets a parent and no child. *)
Lemma link_last D p k cs e : chain D p k cs -> D !! List.last cs p = Some e ->
  exists e', link D p k cs !! List.last cs p = Some e' /\ same_dir e e'.
Proof using.
  revert D p k e. induction cs as [|c cs IH]; intros D p k e Hc He; [by exists e|]. rewrite last_cons in He |- *. cbn [link].
  pose proof (chain_link1 _ _ _ _ _ Hc) as Hc1. destruct Hc as ((d & Hd & _) & Hp & [e0 He0] & _). pose proof (last_elem cs c) as Hlast.
  assert (exists e1, link1 D p (idx k) c !! List.last cs c = Some e1 /\ same_dir e e1) as (e1 & He1 & Hs1).
  { rewrite (link1_eq _ _ _ _ d e0), lookup_insert_ne by (done || set_solver). rewrite lookup_insert. destruct (decide (c = List.last cs c)) as [E|E].
    - rewrite <- E in He. simplify_eq. eexists. split; [done|]. by eexists _, _.
    - by exists e. }
  destruct (IH _ _ _ _ Hc1 He1) as (e' & He' & Hs'). exists e'. split; [done|]. by etransitivity.
Qed.

(** What a link of the chain leaves: the child knows its place, the parent has it as entry. *)
Lemma link_facts D p k cs i c par : chain D p k cs -> cs !! i = Some c -> (p :: cs) !! i = Some par ->
  (exists e0 e, D !! c = Some e0 /\ link D p k cs !! c = Some e /\ pd_host_parent e = Some par /\ pd_index_in_parent e = idx (k + Z.of_nat i) /\
     pd_phys_alloc e = pd_phys_alloc e0 /\ pd_size e = pd_size e0 /\ pd_depth e = pd_depth e0) /\
  (exists d0 d, D !! par = Some d0 /\ link D p k cs !! par = Some d /\ linkable (k + Z.of_nat i) d0 /\ same_dir (linked d0 (idx (k + Z.of_nat i)) c) d /\
     (i = 0%nat -> d = linked d0 (idx k) c)).
Proof using.
  revert D p k i par. induction cs as [|c1 cs IH]; intros D p k i par Hc Hi Hpar; [done|]. pose proof Hc as ((d & Hd & Hl) & Hp & [e He] & Hc').
  pose proof (chain_link1 _ _ _ _ _ Hc) as Hc1. assert (He1 : link1 D p (idx k) c1 !! c1 = Some (set_parent (Some p) (idx k) e)).
  { rewrite (link1_eq _ _ _ _ d e) by done. rewrite lookup_insert_ne by set_solver. by rewrite lookup_insert_eq. }
  destruct i as [|i].
  - cbn in Hi, Hpar. simplify_eq. rewrite Z.add_0_r. split.
    + destruct (link_top _ c (k + 1) cs _ He1 Hc1) as (e' & He' & E1 & E2 & E3 & E4 & E5). exists e, e'. split; [done|]. split; [done|]. by rewrite E1, E2, E3, E4, E5.
    + exists d, (linked d (idx k) c). split; [done|]. split; [by apply link_head|]. split; [done|]. split; [done|]. done.
  - cbn [lookup list_lookup] in Hi. change ((c1 :: cs) !! i = Some par) in Hpar.
    replace (k + Z.of_nat (S i)) with (k + 1 + Z.of_nat i) by lia. cbn [link].
    destruct (IH (link1 D p (idx k) c1) c1 (k + 1) i par Hc1 Hi Hpar) as [(e0 & e1 & A1 & A2 & A3) (d0 & d1 & B1 & B2 & B3 & B4 & _)].
    assert (c ∈ cs) by (by eapply list_elem_of_lookup_2). assert (Hcc : c1 ∉ cs) by (clear -Hc' ; destruct cs; [set_solver|apply Hc']). split.
    + exists e0, e1. split; [|done]. rewrite link1_ne in A1 by set_solver. done.
    + assert (par ∈ c1 :: cs) by (by eapply list_elem_of_lookup_2). destruct (decide (par = c1)) as [->|Hne].
      * rewrite He1 in B1. simplify_eq. exists e, d1. split; [done|]. split; [done|]. split; [|split; [|done]].
        -- destruct B3. by split.
        -- destruct B4 as (pp & ii & ->). by exists pp, ii.
      * rewrite link1_ne in B1 by set_solver. by exists d0, d1.
Qed.

Context (ge : gpu_env) (Hentry : forall k, 0 <= k < d2 -> index_to_entry ge (idx k) k UVM_PAGE_SIZE_2M = Some (idx k)).

(** Clearing one entry of a parent undoes the link. *)
Lemma wp_host_pde_clear p k c d (Q : _ -> page_tree -> Prop) F t :
  linkable k d -> pt_dirs t !! p = Some (linked d (idx k) c) -> Q tt (with_dirs (<[p := d]> (pt_dirs t)) t) ->
  wp (host_pde_clear ge p (idx k) UVM_PAGE_SIZE_2M) Q F t.
Proof using Hentry.
  intros [L1 L2 L3 L4] Hp HQ. apply wp_bind. eapply wp_load_dir; [done|]. cbn [linked set_entries set_ref_count pd_ref_count pd_depth].
  rewrite u32_small by (unfold is_u32; lia). apply wp_bind, wp_guard; [apply Z.ltb_lt; lia|]. apply wp_bind. rewrite L1. eapply wp_must; [by apply Hentry|].
  apply wp_bind. destruct (nthZ_is_Some (setZ (pd_entries d) (idx k) (Some c)) (idx k)) as (x & Hx); [rewrite length_setZ; by eapply nthZ_lt|].
  eapply wp_set_entry; [done|exact Hx|]. eapply wp_update_dir; [cbn; by rewrite lookup_insert_eq|]. cbn [pt_dirs with_dirs]. rewrite insert_insert_eq.
  unfold linked, set_entries, set_ref_count in *. cbn in *. rewrite u32_small by (unfold is_u32; lia). rewrite setZ_back by done.
  replace (pd_ref_count d + 1 - 1) with (pd_ref_count d) by lia. by destruct d.
Qed.

Lemma wp_clear_all cs (Q : _ -> page_tree -> Prop) F t : forall D p k, chain D p k cs ->
  (forall D', same_dirs D D' -> (forall q, q ∉ cs -> D' !! q = D !! q) -> Q tt (with_dirs D' t)) ->
  wp (clear_all ge cs UVM_PAGE_SIZE_2M) Q F (with_dirs (link D p k cs) t).
Proof using Hentry.
  induction cs as [|c cs IH]; intros D p k Hc HQ; [by apply wp_ret, HQ|]. pose proof Hc as ((d & Hd & Hl) & Hp & [e He] & Hc').
  pose proof (chain_link1 _ _ _ _ _ Hc) as Hc1. assert (He1 : link1 D p (idx k) c !! c = Some (set_parent (Some p) (idx k) e)).
  { rewrite (link1_eq _ _ _ _ d e) by done. rewrite lookup_insert_ne by set_solver. by rewrite lookup_insert_eq. }
  destruct (link_top _ c (k + 1) cs _ He1 Hc1) as (e' & He' & Epar & Eidx & _). cbn [clear_all].
  apply wp_bind. eapply wp_load_dir; [exact He'|]. apply wp_bind. eapply wp_of_option; [by rewrite Epar|]. rewrite Eidx. cbn [set_parent pd_index_in_parent].
  apply wp_bind. eapply wp_host_pde_clear; [done|by eapply link_head|]. cbn [with_dirs pt_dirs]. rewrite with_dirs_twice. cbn [link].
  rewrite <- link_insert by done. rewrite (link1_eq _ _ _ _ d e) by done. rewrite insert_insert_eq, (insert_insert_ne D p c), (insert_id D p d) by (done || set_solver).
  pose proof (same_dirs_parent D c e (Some p) (idx k) He) as Hs. apply IH; [by eapply chain_same|]. intros D' HD' Hold. apply HQ; [by etransitivity|].
  intros q Hq. rewrite Hold by set_solver. rewrite lookup_insert_ne; [done|set_solver].
Qed.
End chain.

(** ** The walk *)

Section walk.
Context (ge : gpu_env) (Harch : big_arch (ge_arch ge) = true).
Context (va : Z) (Hal : va mod 2097152 = 0) (H0 : 0 <= va) (Htop : va + 2097152 <= 2 ^ 63).
Let h : uvm_mmu_mode_hal_t := hal_of (ge_ats ge) (ge_arch ge).
Let d2 : Z := depth_2m (ge_ats ge) (ge_arch ge).
Let idx : Z -> Z := lvl_index h va.
Let Hh : tree_geometry h d2 := hal_tree (ge_ats ge) (ge_arch ge) Harch.
Context (F : fault -> page_tree -> Prop).

(** [q] is [n] levels below [p], which is at depth [k]. *)
Fixpoint path (D : gmap Z uvm_page_directory_t) (p k : Z) (n : nat) (q : Z) : Prop :=
  match n with
  | O => p = q
  | S n' => exists d c, D !! p = Some d /\ pd_depth d = k /\ 0 <= k < d2 /\ nthZ (pd_entries d) (idx k) = Some (Some c) /\ path D c (k + 1) n' q
  end.

Lemma path_same D D' p k n q : same_dirs D D' -> path D p k n q -> path D' p k n q.
Proof using.
  intros Hs. revert p k. induction n as [|n IH]; intros p k; [done|]. intros (d & c & Hd & Hk & Hr & He & Hp).
  destruct (same_dirs_lookup _ _ _ _ Hs Hd) as (d' & Hd' & (par & i & ->)). exists (set_parent par i d), c. repeat split; try done; [lia|lia|]. by apply IH.
Qed.

Lemma hal_entry k : 0 <= k < d2 -> index_to_entry ge (idx k) k UVM_PAGE_SIZE_2M = Some (idx k).
Proof using Harch. by apply (entry_at h d2 Hh va). Qed.

Section cache.
Context (cache : list (option Z)).
Notation walk fuel p shift inv used := (get_ptes_walk ge fuel UVM_PAGE_SIZE_2M va UVM_PAGE_SIZE_2M cache p shift inv used).

Lemma wp_walk_indices fuel p d k inv used (Q : _ -> page_tree -> Prop) t :
  pt_dirs t !! p = Some d -> pd_depth d = k -> 0 <= k <= d2 ->
  wp (if k =? d2 then
        range <- page_table_range_init UVM_PAGE_SIZE_2M p (idx k) (idx k) ;; mret' (inr (range, inv, used))
      else
        guard_or AssertFail (idx k =? idx k) ;;;
        e <- must (index_to_entry ge (idx k) k UVM_PAGE_SIZE_2M) ;;
        entry <- of_option UB (nthZ (pd_entries d) e) ;;
        match entry with
        | Some c => walk fuel c (lvl_shift h k) inv used
        | None =>
            cached <- of_option UB (nthZ cache k) ;;
            match cached with
            | None => clear_all ge used UVM_PAGE_SIZE_2M ;;; mret' (inl k)
            | Some c =>
                host_pde_write c p (idx k) ;;; set_entry p e (Some c) ;;;
                walk fuel c (lvl_shift h k) (if inv =? -1 then k else inv) (used ++ [c])
            end
        end) Q F t ->
  wp (walk (S fuel) p (lvl_shift h (k - 1)) inv used) Q F t.
Proof using Harch Hal H0 Htop.
  intros Hd Hk Hr HQ. destruct (level h d2 Hh k Hr) as (Hb & Hb9 & Hs & Hst). destruct (indices h d2 Hh va Hal H0 Htop k Hr) as [Hi1 Hi2].
  destruct (idx_range h d2 Hh va k Hr) as [Hir Hp]. cbn [get_ptes_walk]. apply wp_bind. eapply wp_load_dir; [done|]. rewrite Hk.
  apply wp_bind. eapply wp_must; [done|]. rewrite Hst, Hi1, Hi2. apply wp_bind, wp_guard.
  { rewrite Z.shiftl_1_l. apply andb_true_iff. split; [apply Z.leb_le|apply Z.ltb_lt]; lia. }
  exact HQ.
Qed.

Lemma wp_walk_path n p k q fuel inv used (Q : _ -> page_tree -> Prop) t :
  path (pt_dirs t) p k n q -> wp (walk fuel q (lvl_shift h (k + Z.of_nat n - 1)) inv used) Q F t ->
  wp (walk (n + fuel)%nat p (lvl_shift h (k - 1)) inv used) Q F t.
Proof using Harch Hal H0 Htop.
  revert p k. induction n as [|n IH]; intros p k.
  - intros -> HQ. by replace (k + Z.of_nat 0 - 1) with (k - 1) in HQ by lia.
  - intros (d & c & Hd & Hk & Hr & He & Hp) HQ. eapply wp_walk_indices; [done|done|lia|]. rewrite (proj2 (Z.eqb_neq k d2)) by lia.
    apply wp_bind, wp_guard; [apply Z.eqb_refl|]. apply wp_bind. eapply wp_must; [by apply hal_entry|]. apply wp_bind. eapply wp_of_option; [done|].
    replace (lvl_shift h k) with (lvl_shift h (k + 1 - 1)) by (f_equal; lia). apply IH; [done|]. by replace (k + 1 + Z.of_nat n - 1) with (k + Z.of_nat (S n) - 1) by lia.
Qed.

(** The depth of the first directory that gets a child. *)
Definition inv_depth (inv k : Z) (cs : list Z) : Z := match cs with [] => inv | _ => if inv =? -1 then k else inv end.

Lemma wp_walk_chain cs fuel t (Q : _ -> page_tree -> Prop) : forall D p k inv used,
  chain d2 idx D p k cs -> (forall i c, cs !! i = Some c -> nthZ cache (k + Z.of_nat i) = Some (Some c)) ->
  wp (walk fuel (List.last cs p) (lvl_shift h (k + Z.of_nat (length cs) - 1)) (inv_depth inv k cs) (used ++ cs)) Q F (with_dirs (link idx D p k cs) t) ->
  wp (walk (length cs + fuel)%nat p (lvl_shift h (k - 1)) inv used) Q F (with_dirs D t).
Proof using Harch Hal H0 Htop.
  induction cs as [|c cs IH]; intros D p k inv used Hc Hcache HQ.
  - rewrite app_nil_r in HQ. cbn [length List.last link inv_depth Nat.add] in HQ |- *. by replace (k + Z.of_nat 0 - 1) with (k - 1) in HQ by lia.
  - pose proof Hc as ((d & Hd & [Hk Hr Href Hent]) & Hp & [e He] & _). eapply wp_walk_indices; [done|done|lia|].
    rewrite (proj2 (Z.eqb_neq k d2)) by lia. apply wp_bind, wp_guard; [apply Z.eqb_refl|]. apply wp_bind. eapply wp_must; [by apply hal_entry|].
    apply wp_bind. eapply wp_of_option; [done|]. apply wp_bind. eapply wp_of_option.
    { specialize (Hcache 0%nat c eq_refl). by replace (k + Z.of_nat 0) with k in Hcache by lia. }
    assert (Hne : c <> p) by set_solver.
    apply wp_bind, wp_bind. eapply wp_update_dir; [done|]. apply wp_bind. eapply wp_update_dir; [cbn; by rewrite lookup_insert_ne|]. apply wp_ret.
    apply wp_bind. eapply wp_set_entry; [cbn; by rewrite lookup_insert_eq|done|]. cbn [pt_dirs with_dirs]. rewrite insert_insert_eq, !with_dirs_twice.
    pose proof (chain_link1 d2 idx _ _ _ _ _ Hc) as Hc1. rewrite (link1_eq _ _ _ _ d e) in Hc1 by done.
    replace (lvl_shift h k) with (lvl_shift h (k + 1 - 1)) by (f_equal; lia). apply IH; [done| |].
    { intros i c' Hi. specialize (Hcache (S i) c' Hi). by replace (k + 1 + Z.of_nat i) with (k + Z.of_nat (S i)) by lia. }
    cbn [link] in HQ. rewrite (link1_eq _ _ _ _ d e) in HQ by done. rewrite <- app_assoc. cbn [app].
    replace (k + 1 + Z.of_nat (length cs) - 1) with (k + Z.of_nat (length (c :: cs)) - 1) by (cbn [length]; lia).
    rewrite last_cons in HQ.
    replace (inv_depth (if inv =? -1 then k else inv) (k + 1) cs) with (inv_depth inv k (c :: cs)); [exact HQ|].
    cbn [inv_depth]. destruct cs; [done|]. cbn [inv_depth]. destruct (Z.eqb_spec inv (-1)); [by rewrite (proj2 (Z.eqb_neq k (-1))) by lia|].
    by rewrite (proj2 (Z.eqb_neq inv (-1))).
Qed.
End cache.
End walk.
