(* ===== verification/UvmPageTreeGet.v ===== *)
(** The retry loop of [uvm_page_tree_get_ptes]: each turn that finds a directory missing
    undoes its links and adds one directory to the cache, so that the last turn links the
    whole chain and gets the 2MB entry. *)

From S2P Require Import Prelude UvmBits UvmCommon UvmMmuHal UvmMmuHalCorrect UvmPush UvmHostTlb UvmTlbBatch UvmPteBatch UvmVaBlockCorrect UvmPageTree UvmPageTreeWalk.
Local Open Scope Z_scope.
Local Open Scope cword_scope.

(** ** New directories *)

Section fresh.
Context (h : uvm_mmu_mode_hal_t) (d2 : Z).

Definition fresh_dir (a : uvm_mmu_page_table_alloc_t) (k : Z) : uvm_page_directory_t :=
  PageDir None 0 a 4096 0 k (replicate (Z.to_nat (lvl_entries h d2 k)) None).

(** The directories made from the allocations [as_], below depth [k]. *)
Fixpoint added (D : gmap Z uvm_page_directory_t) (nx k : Z) (as_ : list uvm_mmu_page_table_alloc_t) : gmap Z uvm_page_directory_t :=
  match as_ with
  | [] => D
  | a :: as' => added (<[nx := fresh_dir a (k + 1)]> D) (nx + 1) (k + 1) as'
  end.

Lemma added_snoc D nx k as_ a :
  added D nx k (as_ ++ [a]) = <[nx + Z.of_nat (length as_) := fresh_dir a (k + Z.of_nat (length as_) + 1)]> (added D nx k as_).
Proof using.
  revert D nx k. induction as_ as [|b as_ IH]; intros D nx k; cbn [added app length].
  - by rewrite !Z.add_0_r.
  - rewrite IH. by replace (nx + 1 + Z.of_nat (length as_)) with (nx + Z.of_nat (S (length as_))) by lia;
      replace (k + 1 + Z.of_nat (length as_) + 1) with (k + Z.of_nat (S (length as_)) + 1) by lia.
Qed.

Lemma added_old D nx k as_ q : ~ (nx <= q < nx + Z.of_nat (length as_)) -> added D nx k as_ !! q = D !! q.
Proof using.
  revert D nx k. induction as_ as [|b as_ IH]; intros D nx k Hq; [done|]. cbn [added length] in *. rewrite IH by lia. apply lookup_insert_ne. lia.
Qed.

Lemma added_new D nx k as_ i a : as_ !! i = Some a -> added D nx k as_ !! (nx + Z.of_nat i) = Some (fresh_dir a (k + Z.of_nat i + 1)).
Proof using.
  revert D nx k i. induction as_ as [|b as_ IH]; intros D nx k i Hi; [done|]. cbn [added]. destruct i as [|i].
  - cbn in Hi. simplify_eq. rewrite added_old by lia. rewrite !Z.add_0_r. by rewrite lookup_insert_eq.
  - specialize (IH (<[nx := fresh_dir b (k + 1)]> D) (nx + 1) (k + 1) i Hi).
    by replace (nx + 1 + Z.of_nat i) with (nx + Z.of_nat (S i)) in IH by lia; replace (k + 1 + Z.of_nat i + 1) with (k + Z.of_nat (S i) + 1) in IH by lia.
Qed.

Context (Hh : tree_geometry h d2) (va : Z).
Let idx : Z -> Z := lvl_index h va.

Lemma fresh_linkable a k : 0 <= k < d2 -> linkable d2 idx k (fresh_dir a k).
Proof using Hh.
  intros Hk. destruct (idx_range h d2 Hh va k) as [Hi _]; [lia|]. split; [done|lia|cbn; lia|]. cbn [fresh_dir pd_entries]. unfold nthZ.
  rewrite (proj2 (Z.leb_le _ _)) by apply Hi. apply lookup_replicate_2. unfold lvl_entries. rewrite (proj2 (Z.eqb_neq k d2)) by lia. unfold idx. lia.
Qed.

Lemma added_chain as_ : forall D p d nx k,
  D !! p = Some d -> (as_ <> [] -> linkable d2 idx k d) -> p < nx -> 0 <= k -> k + Z.of_nat (length as_) <= d2 ->
  chain d2 idx (added D nx k as_) p k (seqZ nx (Z.of_nat (length as_))).
Proof using Hh.
  induction as_ as [|a as_ IH]; intros D p d nx k Hd Hl Hp Hk0 Hk; [done|]. cbn [length] in *. rewrite seqZ_cons by lia. cbn [chain added].
  replace (Z.pred (Z.of_nat (S (length as_)))) with (Z.of_nat (length as_)) by lia. replace (Z.succ nx) with (nx + 1) by lia.
  split; [|split; [|split]].
  - exists d. split; [|by apply Hl]. rewrite added_old by lia. by rewrite lookup_insert_ne by lia.
  - rewrite elem_of_cons, elem_of_seqZ. lia.
  - rewrite added_old by lia. rewrite lookup_insert_eq. by eexists.
  - eapply IH; [by rewrite lookup_insert_eq| |lia|lia|lia]. intros Hne. apply fresh_linkable. destruct as_; [done|]. cbn [length] in Hk. lia.
Qed.

(** The directory at the end of the chain. *)
Lemma added_last as_ D p d nx k : D !! p = Some d -> p < nx ->
  added D nx k as_ !! List.last (seqZ nx (Z.of_nat (length as_))) p =
    Some (match last as_ with Some a => fresh_dir a (k + Z.of_nat (length as_)) | None => d end).
Proof using.
  intros Hd Hp. destruct as_ as [|a as_ _] using rev_ind; [done|]. rewrite last_snoc, length_app. cbn [length].
  replace (Z.of_nat (length as_ + 1)) with (Z.of_nat (length as_) + 1) by lia. rewrite seqZ_app by lia.
  rewrite (seqZ_cons (nx + Z.of_nat (length as_)) 1) by lia. rewrite (seqZ_nil _ (Z.pred 1)) by lia. rewrite List.last_last.
  rewrite added_snoc, lookup_insert_eq. do 2 f_equal. lia.
Qed.
End fresh.

(** The number of entries of a new directory. *)
Lemma wp_directory_entries ge k (Q : _ -> page_tree -> Prop) F t :
  big_arch (ge_arch ge) = true -> 0 <= k <= depth_2m (ge_ats ge) (ge_arch ge) ->
  Q (lvl_entries (hal_of (ge_ats ge) (ge_arch ge)) (depth_2m (ge_ats ge) (ge_arch ge)) k) t ->
  wp (if k =? page_table_depth (hal_of (ge_ats ge) (ge_arch ge)) UVM_PAGE_SIZE_AGNOSTIC then mret' 0
      else n <- must (entries_per_index (hal_of (ge_ats ge) (ge_arch ge)) k) ;;
           bits <- must (index_bits (hal_of (ge_ats ge) (ge_arch ge)) k UVM_PAGE_SIZE_2M) ;; mret' (Z.shiftl n bits)) Q F t.
Proof.
  intros Ha Hk HQ. pose proof (hal_tree (ge_ats ge) (ge_arch ge) Ha) as Hh. destruct (level _ _ Hh k Hk) as (Hb & Hb9 & _).
  pose proof (tg_agnostic _ _ Hh). rewrite (proj2 (Z.eqb_neq _ _)) by lia.
  assert (Hn : entries_per_index (hal_of (ge_ats ge) (ge_arch ge)) k = Some (if k =? depth_2m (ge_ats ge) (ge_arch ge) then 2 else 1)).
  { destruct (Z.eqb_spec k (depth_2m (ge_ats ge) (ge_arch ge))) as [->|]; [apply Hh|]. apply (tg_upper _ _ Hh). lia. }
  apply wp_bind. eapply wp_must; [exact Hn|]. apply wp_bind. eapply wp_must; [exact Hb|]. apply wp_ret. by rewrite Z.shiftl_mul_pow2 by lia.
Qed.

Lemma wp_allocate_directory ge k a rest (Q : _ -> page_tree -> Prop) F t :
  big_arch (ge_arch ge) = true -> 0 <= k <= depth_2m (ge_ats ge) (ge_arch ge) -> pt_allocs t = Some a :: rest ->
  Q (Some (pt_next t)) (PageTree (<[pt_next t := fresh_dir (hal_of (ge_ats ge) (ge_arch ge)) (depth_2m (ge_ats ge) (ge_arch ge)) a k]> (pt_dirs t))
    (pt_next t + 1) rest (pt_pushes t)) ->
  wp (allocate_directory ge UVM_PAGE_SIZE_2M k) Q F t.
Proof.
  intros Ha Hk Hal HQ. pose proof (hal_tree (ge_ats ge) (ge_arch ge) Ha) as Hh.
  apply wp_bind. eapply wp_must; [by apply Hh|]. apply wp_bind. eapply wp_directory_entries; [done|done|].
  apply wp_bind, wp_get. rewrite Hal. apply wp_bind, wp_modify. apply wp_bind, wp_modify. by apply wp_ret.
Qed.

Lemma wp_allocate_fails ge k rest (Q : _ -> page_tree -> Prop) F t :
  big_arch (ge_arch ge) = true -> 0 <= k <= depth_2m (ge_ats ge) (ge_arch ge) -> pt_allocs t = None :: rest ->
  Q None (with_allocs rest t) -> wp (allocate_directory ge UVM_PAGE_SIZE_2M k) Q F t.
Proof.
  intros Ha Hk Hal HQ. pose proof (hal_tree (ge_ats ge) (ge_arch ge) Ha) as Hh.
  apply wp_bind. eapply wp_must; [by apply Hh|]. apply wp_bind. eapply wp_directory_entries; [done|done|].
  apply wp_bind, wp_get. rewrite Hal. by apply wp_bind, wp_modify, wp_ret.
Qed.

(** ** The turns of the loop *)

Section turns.
Context (ge : gpu_env) (Harch : big_arch (ge_arch ge) = true).
Context (va : Z) (Hal : va mod 2097152 = 0) (H0 : 0 <= va) (Htop : va + 2097152 <= 2 ^ 63) (Hcan : ge_can_address ge va UVM_PAGE_SIZE_2M = true).
Let h : uvm_mmu_mode_hal_t := hal_of (ge_ats ge) (ge_arch ge).
Let d2 : Z := depth_2m (ge_ats ge) (ge_arch ge).
Let idx : Z -> Z := lvl_index h va.
Let Hh : tree_geometry h d2 := hal_tree (ge_ats ge) (ge_arch ge) Harch.
Context (F : fault -> page_tree -> Prop).

(** The tree has the first [n] levels of the path of the address, down to [p]. *)
Record descends (D : gmap Z uvm_page_directory_t) (nx : Z) (n : nat) (p : Z) (d : uvm_page_directory_t) : Prop := {
  ds_path : path ge va D (ge_root ge) 0 n p;
  ds_dir : D !! p = Some d;
  ds_depth : pd_depth d = Z.of_nat n;
  ds_range : Z.of_nat n <= d2;
  ds_missing : Z.of_nat n < d2 -> linkable d2 idx (Z.of_nat n) d;
  ds_refs : 0 <= pd_ref_count d < 2 ^ 32 - 1;
  ds_keys : forall q e, D !! q = Some e -> q < nx;
}.

Context (D0 : gmap Z uvm_page_directory_t) (nx : Z) (n : nat) (p : Z) (d : uvm_page_directory_t) (Hd : descends D0 nx n p d).

(** After some turns: the directories of [as_] have been made and are in the cache. *)
Record cached (as_ : list uvm_mmu_page_table_alloc_t) (t : page_tree) (cache : list (option Z)) : Prop := {
  ca_dirs : same_dirs (added h d2 D0 nx (Z.of_nat n) as_) (pt_dirs t);
  ca_old : forall q, q < nx -> pt_dirs t !! q = D0 !! q;
  ca_next : pt_next t = nx + Z.of_nat (length as_);
  ca_length : length cache = 5%nat;
  ca_cache : forall i, 0 <= i < 5 -> nthZ cache i =
    Some (if (Z.of_nat n <=? i) && (i <? Z.of_nat n + Z.of_nat (length as_)) then Some (nx + (i - Z.of_nat n)) else None);
}.

Definition news (as_ : list uvm_mmu_page_table_alloc_t) : list Z := seqZ nx (Z.of_nat (length as_)).

Lemma path_added as_ q k m : path ge va D0 q k m p -> path ge va (added h d2 D0 nx (Z.of_nat n) as_) q k m p.
Proof using Hd.
  revert q k. induction m as [|m IH]; intros q k; [done|]. intros (e & c & He & Hk & Hr & Hc & Hp). exists e, c. split; [|repeat split; try done; [lia|lia|by apply IH]].
  rewrite added_old; [done|]. pose proof (ds_keys _ _ _ _ _ Hd _ _ He). lia.
Qed.

Lemma cached_chain as_ t cache :
  cached as_ t cache -> Z.of_nat n + Z.of_nat (length as_) <= d2 -> chain d2 idx (pt_dirs t) p (Z.of_nat n) (news as_).
Proof using Hd Harch.
  intros Hc Hlen. eapply chain_same; [apply Hc|]. eapply (added_chain h d2 Hh va); [apply Hd| |eapply ds_keys; apply Hd|lia|done].
  intros Hne. apply Hd. destruct as_; [done|]. cbn [length] in Hlen. lia.
Qed.

Lemma length_news as_ : length (news as_) = length as_.
Proof using. unfold news. rewrite length_seqZ. apply Nat2Z.id. Qed.

Lemma wp_walk_turn as_ t cache fuel (Q : _ -> page_tree -> Prop) :
  cached as_ t cache -> Z.of_nat n + Z.of_nat (length as_) <= d2 -> (n + (length as_ + fuel) = 5)%nat ->
  wp (get_ptes_walk ge fuel UVM_PAGE_SIZE_2M va UVM_PAGE_SIZE_2M cache (List.last (news as_) p)
        (lvl_shift h (Z.of_nat n + Z.of_nat (length as_) - 1)) (inv_depth (-1) (Z.of_nat n) (news as_)) (news as_)) Q F
     (with_dirs (link idx (pt_dirs t) p (Z.of_nat n) (news as_)) t) ->
  wp (get_ptes_walk ge (Z.to_nat MAX_OPERATION_DEPTH) UVM_PAGE_SIZE_2M va UVM_PAGE_SIZE_2M cache (ge_root ge) (num_va_bits h) (-1) []) Q F t.
Proof using Hd Harch Hal H0 Htop.
  intros Hc Hlen Hfuel HQ. change (Z.to_nat MAX_OPERATION_DEPTH) with 5%nat. rewrite <- Hfuel, <- (tg_start _ _ Hh).
  replace (-1) with (0 - 1) at 1 by lia. eapply (wp_walk_path ge Harch va Hal H0 Htop F).
  { eapply path_same; [apply Hc|]. apply path_added, Hd. }
  replace (0 + Z.of_nat n - 1) with (Z.of_nat n - 1) by lia. rewrite <- (with_dirs_id t), <- (length_news as_).
  apply (wp_walk_chain ge Harch va Hal H0 Htop F); [by eapply cached_chain| |by rewrite length_news].
  intros i c Hi. unfold news in Hi. apply lookup_seqZ in Hi as [-> Hi]. pose proof (tg_range _ _ Hh). rewrite (ca_cache _ _ _ Hc) by lia.
  rewrite (proj2 (Z.leb_le _ _)), (proj2 (Z.ltb_lt _ _)) by lia. cbn [andb]. do 2 f_equal. lia.
Qed.

(** The directory at the end of the chain, before it has a place in the tree. *)
Definition end_dir (as_ : list uvm_mmu_page_table_alloc_t) : uvm_page_directory_t :=
  match last as_ with Some a => fresh_dir h d2 a (Z.of_nat n + Z.of_nat (length as_)) | None => d end.

Lemma chain_end as_ t cache :
  cached as_ t cache -> Z.of_nat n + Z.of_nat (length as_) <= d2 ->
  exists e, link idx (pt_dirs t) p (Z.of_nat n) (news as_) !! List.last (news as_) p = Some e /\ same_dir (end_dir as_) e.
Proof using Hd Harch.
  intros Hc Hlen. pose proof (added_last h d2 as_ D0 p d nx (Z.of_nat n) (ds_dir _ _ _ _ _ Hd) (ds_keys _ _ _ _ _ Hd _ _ (ds_dir _ _ _ _ _ Hd))) as Hl.
  destruct (same_dirs_lookup _ _ _ _ (ca_dirs _ _ _ Hc) Hl) as (e & He & Hs).
  destruct (link_last d2 idx _ _ _ _ e (cached_chain _ _ _ Hc Hlen) He) as (e' & He' & Hs'). exists e'. split; [done|]. by etransitivity.
Qed.

Lemma end_linkable as_ : Z.of_nat n + Z.of_nat (length as_) < d2 -> linkable d2 idx (Z.of_nat n + Z.of_nat (length as_)) (end_dir as_).
Proof using Hd Harch.
  intros Hlen. unfold end_dir. destruct (last as_) as [a|] eqn:E; [apply (fresh_linkable h d2 Hh); lia|]. apply last_None in E as ->. cbn [length] in *.
  rewrite Z.add_0_r in *. by apply Hd.
Qed.

(** A turn that finds a directory missing leaves the tree as it was. *)
Lemma wp_turn_missing as_ t cache (Q : _ -> page_tree -> Prop) :
  cached as_ t cache -> Z.of_nat n + Z.of_nat (length as_) < d2 ->
  (forall D', same_dirs (pt_dirs t) D' -> (forall q, q < nx -> D' !! q = pt_dirs t !! q) -> Q (inl (Z.of_nat n + Z.of_nat (length as_))) (with_dirs D' t)) ->
  wp (try_get_ptes ge UVM_PAGE_SIZE_2M va UVM_PAGE_SIZE_2M cache) Q F t.
Proof using Hd Harch Hal H0 Htop Hcan.
  intros Hc Hlen HQ. pose proof (tg_range _ _ Hh) as Hr. apply wp_bind, wp_guard; [apply andb_true_iff; split; [done|apply (tg_sizes _ _ Hh)]|].
  apply wp_bind, wp_guard; [apply andb_true_iff; split; [by apply Z.eqb_eq|done]|]. apply wp_bind, wp_guard; [done|]. apply wp_bind.
  eapply (wp_walk_turn as_ t cache (5 - n - length as_)); [done|lia|lia|].
  destruct (chain_end as_ t cache Hc ltac:(lia)) as (e & He & Hs). destruct (linkable_same d2 idx _ _ _ Hs (end_linkable as_ Hlen)) as [L1 L2 L3 L4].
  replace (5 - n - length as_)%nat with (S (4 - n - length as_)) by lia. eapply (wp_walk_indices ge Harch va Hal H0 Htop F); [done|done|lia|].
  fold idx. rewrite (proj2 (Z.eqb_neq _ _)) by (fold d2; lia). apply wp_bind, wp_guard; [apply Z.eqb_refl|].
  apply wp_bind. eapply wp_must; [by apply (hal_entry ge Harch va)|]. apply wp_bind. eapply wp_of_option; [done|]. apply wp_bind. eapply wp_of_option.
  { rewrite (ca_cache _ _ _ Hc) by lia. rewrite (proj2 (Z.ltb_ge (_ + _) (_ + _))) by lia. by rewrite andb_false_r. }
  apply wp_bind. eapply (wp_clear_all d2 idx ge (hal_entry ge Harch va)); [by eapply cached_chain; [|lia]|]. intros D' HD' Hold.
  apply wp_ret, wp_ret. apply HQ; [done|]. intros q Hq. apply Hold. unfold news. rewrite elem_of_seqZ. lia.
Qed.
End turns.
