(* ===== verification/UvmPageTreePush.v ===== *)
(** What getting PTEs pushes: new directories are cleared, then the entries of their
    parents are written from the bottom up, then the TLB is invalidated.  In memory the
    tree changes in one step, with the entry of the first parent. *)

From S2P Require Import Prelude UvmBits UvmCommon UvmMmuHal UvmMmuHalCorrect UvmPush UvmHostTlb UvmTlbBatch UvmPteBatch UvmVaBlockCorrect UvmPageTree UvmPageTreeWalk UvmPageTreeGet.
Local Open Scope Z_scope.
Local Open Scope cword_scope.

Lemma child_bits_le a ap : ap = UVM_APERTURE_SYS \/ ap = UVM_APERTURE_VID -> child_bits a ap <= 58.
Proof. intros [-> | ->]; by destruct a. Qed.

(** [ps] are the directories of [as_]. *)
Definition made (D : gmap Z uvm_page_directory_t) (k : Z) (ps : list Z) (as_ : list uvm_mmu_page_table_alloc_t) : Prop :=
  length ps = length as_ /\
  forall i c a, ps !! i = Some c -> as_ !! i = Some a ->
    exists e, D !! c = Some e /\ pd_phys_alloc e = a /\ pd_size e = 4096 /\ pd_depth e = k + Z.of_nat i.

Lemma made_cons D k p ps a as_ : made D k (p :: ps) (a :: as_) ->
  (exists e, D !! p = Some e /\ pd_phys_alloc e = a /\ pd_size e = 4096 /\ pd_depth e = k) /\ made D (k + 1) ps as_.
Proof.
  intros [Hl H]. split.
  - destruct (H 0%nat p a eq_refl eq_refl) as (e & He & E1 & E2 & E3). exists e. by rewrite E3, Z.add_0_r.
  - split; [by injection Hl|]. intros i c b Hc Hb. destruct (H (S i) c b Hc Hb) as (e & He & E1 & E2 & E3). exists e. repeat split; try done. lia.
Qed.

(** A fill of system memory. *)
Definition writes_sys (c : push_cmd) : bool :=
  match c with CeMemset8 dst _ _ => aperture_eqb (phys_aperture dst) UVM_APERTURE_SYS | _ => false end.

Lemma up_one k : up k (k + 1) = [k].
Proof. rewrite <- up_snoc by lia. unfold up. by rewrite Z.sub_diag, seqZ_nil. Qed.

Section push.
Context (ge : gpu_env) (Harch : big_arch (ge_arch ge) = true).
Let h : uvm_mmu_mode_hal_t := hal_of (ge_ats ge) (ge_arch ge).
Let d2 : Z := depth_2m (ge_ats ge) (ge_arch ge).
Let Hh : tree_geometry h d2 := hal_tree (ge_ats ge) (ge_arch ge) Harch.

(** ** The words of entries *)

(** An entry of a directory above the 2MB entries. *)
Definition pde_word (k : Z) (c : option uvm_mmu_page_table_alloc_t) : Z := default 0 (make_pde h [c] k ≫= head).
Definition clear_word (k : Z) : Z := if k =? d2 then 0 else pde_word k None.

Lemma pde_word_spec k c : 0 <= k < d2 -> child_ok (ge_arch ge) 12 c ->
  make_pde h [c] k = Some [pde_word k c] /\ decode_pde (ge_arch ge) k [pde_word k c] = Some [c].
Proof using Harch.
  intros Hk Hc. destruct (tg_upper _ _ Hh k Hk) as [_ _ _ Hn _ Hs _].
  destruct (make_pde_reads (ge_ats ge) (ge_arch ge) k [c]) as (e & He & Hd & Hl); [|done|done|].
  { split; [lia|]. assert (d2 <= page_table_depth h UVM_PAGE_SIZE_4K) by (unfold d2, h; clear -Harch; destruct (ge_ats ge), (ge_arch ge); done). unfold h in *. lia. }
  fold h in He, Hl. rewrite Hs in Hl. assert (exists w, e = [w]) as (w & ->).
  { destruct e as [|w [|]]; [done|by exists w|]. injection Hl as Hl. cbn [length] in Hl. lia. }
  unfold pde_word. rewrite He. done.
Qed.

Definition table_addr (a : uvm_mmu_page_table_alloc_t) (off : Z) : uvm_gpu_phys_address_t := PhysAddr (pa_address a + off) (pa_aperture a).

(** A table of 4KB that directory entries can point to. *)
Definition table_ok (a : uvm_mmu_page_table_alloc_t) : Prop := child_ok (ge_arch ge) 12 (Some a).

Lemma table_ok_bounds a : table_ok a -> 0 <= pa_address a /\ pa_address a + 4096 < 2 ^ 64.
Proof using.
  intros (Hap & Hr & _). split; [lia|]. assert (2 ^ child_bits (ge_arch ge) (pa_aperture a) <= 2 ^ 58); [|lia].
  apply Z.pow_le_mono_r; [lia|]. by apply child_bits_le.
Qed.

(** ** The commands *)

Section commands.
Context (idx : Z -> Z) (Hidx : forall k, 0 <= k < d2 -> 0 <= idx k < 512).

(** Clearing the tables of [as_], the first of them at depth [k]. *)
Fixpoint init_cmds (k : Z) (as_ : list uvm_mmu_page_table_alloc_t) : cmds :=
  match as_ with
  | [] => []
  | a :: as' => CeMemset8 (table_addr a 0) (clear_word k) 4096 :: init_cmds (k + 1) as'
  end.

(** The entry of the parent, at depth [k], of each table of [as_]. *)
Definition link_cmds (par : uvm_mmu_page_table_alloc_t) (k : Z) (a : uvm_mmu_page_table_alloc_t) : cmds :=
  [CeMemset8 (table_addr par (idx k * 8)) (pde_word k (Some a)) 8; MembarCmd UVM_MEMBAR_NONE].
Fixpoint links (par : uvm_mmu_page_table_alloc_t) (k : Z) (as_ : list uvm_mmu_page_table_alloc_t) : list cmds :=
  match as_ with
  | [] => []
  | a :: as' => link_cmds par k a :: links a (k + 1) as'
  end.

Lemma wp_init_dirs ps as_ k push sys (Q : _ -> page_tree -> Prop) F t :
  made (pt_dirs t) k ps as_ -> 0 <= k -> k + Z.of_nat (length as_) <= d2 + 1 ->
  Q (push ++ init_cmds k as_, sys || existsb writes_sys (init_cmds k as_)) t -> wp (init_dirs ge UVM_PAGE_SIZE_2M ps push sys) Q F t.
Proof using Harch.
  revert as_ k push sys. induction ps as [|p ps IH]; intros as_ k push sys Hm Hk0 Hk HQ.
  - destruct as_; [|by destruct Hm]. apply wp_ret. cbn [init_cmds existsb] in HQ. by rewrite app_nil_r, orb_false_r in HQ.
  - destruct as_ as [|a as_]; [by destruct Hm|]. destruct (made_cons _ _ _ _ _ _ Hm) as [(e & He & Ea & Es & Ek) Hm']. cbn [init_dirs length] in *.
    apply wp_bind. eapply wp_load_dir; [done|]. apply wp_bind.
    eapply (wp_must _ (CeMemset8 (table_addr a 0) (clear_word k) 4096)).
    { unfold phys_mem_init. fold h. rewrite Ek, Es, (tg_depth _ _ Hh). unfold dir_addr, table_addr, clear_word. rewrite Ea, Z.add_0_r.
      destruct (Z.eqb_spec k d2); [done|]. destruct (pde_word_spec k None) as [Hw _]; [lia|done|]. destruct (tg_upper _ _ Hh k) as [_ _ _ Hn _ Hs _]; [lia|].
      rewrite Hn. cbn [mbind option_bind]. change (replicate (Z.to_nat 1) None) with [@None uvm_mmu_page_table_alloc_t]. rewrite Hw, Hs. done. }
    eapply IH; [done|lia|lia|]. cbn [init_cmds existsb] in HQ. rewrite <- app_assoc, <- orb_assoc. unfold in_sys. by rewrite Ea.
Qed.

(** The place of a directory in the tree, with the commands that write its entry. *)
Definition placed (D : gmap Z uvm_page_directory_t) (c : Z) (q : cmds) : Prop :=
  exists e par d k a, D !! c = Some e /\ pd_phys_alloc e = a /\ pd_host_parent e = Some par /\ pd_index_in_parent e = idx k /\
    D !! par = Some d /\ pd_depth d = k /\ 0 <= k < d2 /\ nthZ (pd_entries d) (idx k) = Some (Some c) /\
    table_ok a /\ table_ok (pd_phys_alloc d) /\ q = link_cmds (pd_phys_alloc d) k a.

Lemma wp_link_dirs ps qs push sys (Q : _ -> page_tree -> Prop) F t :
  Forall2 (placed (pt_dirs t)) ps qs -> Q (push ++ concat qs, sys || existsb writes_sys (concat qs)) t -> wp (link_dirs ge ps push sys) Q F t.
Proof using Harch Hidx.
  intros Hp. revert push sys. induction Hp as [|c q ps qs Hc Hp IH]; intros push sys HQ.
  - apply wp_ret. cbn [concat existsb] in HQ. by rewrite app_nil_r, orb_false_r in HQ.
  - destruct Hc as (e & par & d & k & a & He & Ea & Epar & Ei & Hd & Hk & Hr & Hent & Ha & Hda & ->). cbn [link_dirs].
    destruct (tg_upper _ _ Hh k Hr) as [_ _ _ Hn _ Hs _]. pose proof (Hidx k Hr) as Hi. destruct (pde_word_spec k (Some a) Hr Ha) as [Hw _].
    destruct (table_ok_bounds _ Hda) as [Hb1 Hb2].
    apply wp_bind. eapply wp_load_dir; [done|]. apply wp_bind. eapply wp_of_option; [done|]. rewrite Ei.
    apply wp_bind. apply wp_bind. eapply wp_load_dir; [done|]. rewrite Hk. apply wp_bind. eapply wp_must; [exact Hn|]. rewrite Z.mul_1_l, up_one.
    apply wp_bind. cbn [children]. apply wp_bind. eapply wp_of_option; [done|]. apply wp_bind, wp_bind. eapply wp_load_dir; [done|]. apply wp_ret.
    apply wp_bind, wp_ret, wp_ret. rewrite Ea. eapply wp_must.
    { unfold pde_fill_gpu. fold h. rewrite Hs. cbn [mbind option_bind]. change (8 <=? 16) with true. cbn [UVM_ASSERT mbind option_bind]. rewrite Hw.
      cbn [mbind option_bind head hd_error]. rewrite u64_small by (unfold is_u64; lia). change (8 =? 8) with true. reflexivity. }
    apply wp_bind. eapply wp_load_dir; [done|]. apply IH. cbn [concat] in HQ. rewrite existsb_app in HQ. cbn [link_cmds existsb writes_sys table_addr phys_aperture] in HQ.
    rewrite !orb_false_r in HQ. by rewrite <- app_assoc, <- orb_assoc.
Qed.

(** ** The push *)

Context (num : Z) (pdb : uvm_gpu_phys_address_t) (Hpdb : pdb_ok pdb) (Hnum : 0 <= num) (Hroom : room [] (num + 2)).
Context (Htlb : tlb_tree_of (ge_arch ge) (ge_ats ge) num pdb = Some (ge_tlb ge)) (Hbegin : ge_begin ge = NV_OK).

(** The tables of [as_] below the directory at [par], which is at depth [k]. *)
Definition push_of (par : uvm_mmu_page_table_alloc_t) (k : Z) (as_ : list uvm_mmu_page_table_alloc_t) (push : cmds) : Prop :=
  exists b b' words ops, push = init_cmds (k + 1) as_ ++ [WaitForIdle; MembarCmd b] ++ concat (reverse (links par k as_)) ++ [WaitForIdle; MembarCmd b'; HostMethods words] /\
    host_ops C06F (ranged_arch (ge_arch ge)) words = Some ops /\
    Forall (invalidates pdb (root_level (ge_arch ge) - k) false) ops /\
    (forall va, 0 <= va < 2 ^ 64 -> Exists (reaches va) ops) /\
    b = sys_if (existsb writes_sys (init_cmds (k + 1) as_)) /\ b' = sys_if (existsb writes_sys (concat (reverse (links par k as_)))).

Lemma tlb_words k : 0 <= k < d2 ->
  exists words ops, host_tlb_invalidate_all (ge_tlb ge) [] (tree_pdb (ge_tlb ge)) k UVM_MEMBAR_NONE = Some words /\
    host_ops C06F (ranged_arch (ge_arch ge)) words = Some ops /\ Forall (invalidates pdb (root_level (ge_arch ge) - k) false) ops /\
    forall va, 0 <= va < 2 ^ 64 -> Exists (reaches va) ops.
Proof using Harch Hpdb Hnum Hroom Htlb.
  intros Hk. pose proof (tlb_host_arch _ _ _ _ _ Hpdb Hnum Htlb) as Hth.
  assert (Hd : d2 <= root_level (ge_arch ge)) by (unfold d2; clear -Harch; destruct (ge_ats ge), (ge_arch ge); by vm_compute).
  assert (Hp : tree_pdb (ge_tlb ge) = pdb) by (clear -Htlb; destruct (ge_arch ge); [done|done|by injection Htlb as <-..]).
  pose proof (@th_all _ _ _ _ _ Hth k UVM_MEMBAR_NONE 0 (2 ^ 64) 1 ltac:(lia)) as Hall.
  destruct (Hall [] [] (num + 2)) as (words & ops & Hw & _ & Ho & (invs & -> & Hi & Hx)); [done|done|lia|].
  rewrite Hp in *. exists words, invs. cbn [membar_ops app] in Ho. rewrite app_nil_r in Ho. repeat split; try done.
  intros va Hva. apply Hx; [done|apply Z.divide_1_l].
Qed.

Lemma wp_write_gpu_state ps par as_ k (Q : _ -> page_tree -> Prop) F t :
  as_ <> [] -> made (pt_dirs t) (k + 1) ps as_ -> Forall2 (placed (pt_dirs t)) ps (links par k as_) -> 0 <= k -> k + Z.of_nat (length as_) <= d2 ->
  (forall push, push_of par k as_ push -> Q NV_OK (with_pushes (pt_pushes t ++ [push]) t)) ->
  wp (write_gpu_state_gpu ge UVM_PAGE_SIZE_2M k ps) Q F t.
Proof using Harch Hidx Hpdb Hnum Hroom Htlb Hbegin.
  intros Hne Hm Hp Hk0 Hk HQ. destruct ps as [|c ps]; [destruct as_; [done|by destruct Hm]|]. cbn [write_gpu_state_gpu]. rewrite decide_True by done.
  apply wp_bind. eapply wp_init_dirs; [done|lia|lia|]. cbn [fst snd]. apply wp_bind. eapply wp_link_dirs; [by apply Forall2_reverse|]. cbn [fst snd].
  apply wp_bind, wp_guard; [by apply Z.leb_le|]. destruct (tlb_words k) as (words & ops & Hw & Ho & Hi & Hx); [destruct as_; [done|cbn [length] in Hk; lia]|].
  apply wp_bind. eapply wp_must; [exact Hw|]. apply wp_bind, wp_modify, wp_ret. apply HQ. eexists _, _, words, ops.
  split; [|done]. cbn [app orb]. by rewrite <- !app_assoc.
Qed.
End commands.
End push.
