(* ===== verification/UvmPageTreeTurns.v ===== *)
(** The last turn of the retry loop of [uvm_page_tree_get_ptes], which links the new
    directories and pushes the writes of their entries, and the whole loop, when there is
    memory for the missing directories and when there is not. *)

From S2P Require Import Prelude UvmBits UvmCommon UvmMmuHal UvmMmuHalCorrect UvmPush UvmHostTlb UvmTlbBatch UvmPteBatch UvmVaBlockCorrect UvmPageTree UvmPageTreeWalk UvmPageTreeGet UvmPageTreePush.
Local Open Scope Z_scope.
Local Open Scope cword_scope.

(** ** Freeing the cache *)

Definition freed (cache : list (option Z)) (D : gmap Z uvm_page_directory_t) : gmap Z uvm_page_directory_t :=
  foldl (fun D c => match c with Some q => delete q D | None => D end) D cache.

Lemma freed_lookup cache D q : freed cache D !! q = if decide (Some q ∈ cache) then None else D !! q.
Proof.
  revert D. induction cache as [|c cache IH]; intros D; [by rewrite decide_False by set_solver|]. unfold freed in *. cbn [foldl]. rewrite IH.
  destruct (decide (Some q ∈ cache)) as [Hq|Hq]; [by rewrite decide_True by set_solver|]. destruct c as [c|].
  - destruct (decide (c = q)) as [->|Hne]; [by rewrite lookup_delete_eq, decide_True by set_solver|].
    rewrite lookup_delete_ne by done. rewrite decide_False; [done|]. intros [E|E]%elem_of_cons; [by injection E as ->|done].
  - rewrite decide_False; [done|]. by intros [E|E]%elem_of_cons.
Qed.

Lemma wp_free_all cache (Q : _ -> page_tree -> Prop) F : forall t,
  (forall i j q, cache !! i = Some (Some q) -> cache !! j = Some (Some q) -> i = j) ->
  (forall q, Some q ∈ cache -> is_Some (pt_dirs t !! q)) -> Q tt (with_dirs (freed cache (pt_dirs t)) t) -> wp (free_unused_directories [] cache) Q F t.
Proof.
  induction cache as [|c cache IH]; intros t Hn Hin HQ; [by rewrite <- (with_dirs_id t)|]. cbn [free_unused_directories]. apply wp_bind.
  assert (Hn' : forall i j q, cache !! i = Some (Some q) -> cache !! j = Some (Some q) -> i = j).
  { intros i j q Hi Hj. by specialize (Hn (S i) (S j) q Hi Hj) as [= ->]. }
  destruct c as [q|].
  - destruct (Hin q ltac:(set_solver)) as (x & Hx). cbn [when negb bool_decide decide]. apply wp_when; [|by rewrite bool_decide_false by set_solver].
    intros _. apply wp_bind. eapply wp_load_dir; [done|]. apply wp_modify. apply IH; [done| |done]. intros q' Hq'. cbn [with_dirs pt_dirs].
    rewrite lookup_delete_ne; [apply Hin; set_solver|]. intros <-. apply list_elem_of_lookup in Hq' as (j & Hj). by specialize (Hn 0%nat (S j) q eq_refl Hj).
  - apply wp_ret. apply IH; [done|intros; apply Hin; set_solver|done].
Qed.

(** ** The last turn *)

Section last_turn.
Context (ge : gpu_env) (Harch : big_arch (ge_arch ge) = true).
Context (va : Z) (Hal : va mod 2097152 = 0) (H0 : 0 <= va) (Htop : va + 2097152 <= 2 ^ 63) (Hcan : ge_can_address ge va UVM_PAGE_SIZE_2M = true).
Context (num : Z) (pdb : uvm_gpu_phys_address_t) (Hpdb : pdb_ok pdb) (Hnum : 0 <= num) (Hroom : room [] (num + 2)).
Context (Htlb : tlb_tree_of (ge_arch ge) (ge_ats ge) num pdb = Some (ge_tlb ge)) (Hbegin : ge_begin ge = NV_OK).
Let h : uvm_mmu_mode_hal_t := hal_of (ge_ats ge) (ge_arch ge).
Let d2 : Z := depth_2m (ge_ats ge) (ge_arch ge).
Let idx : Z -> Z := lvl_index h va.
Let Hh : tree_geometry h d2 := hal_tree (ge_ats ge) (ge_arch ge) Harch.
Context (F : fault -> page_tree -> Prop).
Context (D0 : gmap Z uvm_page_directory_t) (nx : Z) (n : nat) (p : Z) (d : uvm_page_directory_t) (Hd : descends ge va D0 nx n p d).
Context (Hpa : table_ok ge (pd_phys_alloc d)).

Lemma wp_free_unused used cache (Q : _ -> page_tree -> Prop) t :
  Forall (fun c => match c with Some q => q ∈ used | None => True end) cache -> Q tt t -> wp (free_unused_directories used cache) Q F t.
Proof using.
  intros Hc HQ. induction Hc as [|c cs Hc Hcs IH]; [done|]. cbn [free_unused_directories]. apply wp_bind. destruct c as [q|]; [|by apply wp_ret].
  apply wp_when; [|done]. rewrite bool_decide_true by done. done.
Qed.

(** The commands pushed for the tables of [as_]. *)
Definition pushed (as_ : list uvm_mmu_page_table_alloc_t) (l : list cmds) : Prop :=
  match as_ with [] => l = [] | _ => exists push, l = [push] /\ push_of ge idx pdb (pd_phys_alloc d) (Z.of_nat n) as_ push end.

(** The tree after the last turn, from the state [t] before it. *)
Definition end_ptr (as_ : list uvm_mmu_page_table_alloc_t) : Z := List.last (news nx as_) p.
Record got (as_ : list uvm_mmu_page_table_alloc_t) (t t' : page_tree) : Prop := {
  got_dirs : exists e, link idx (pt_dirs t) p (Z.of_nat n) (news nx as_) !! end_ptr as_ = Some e /\ same_dir (end_dir ge n d as_) e /\
    pt_dirs t' = <[end_ptr as_ := set_ref_count (pd_ref_count e + 1) e]> (link idx (pt_dirs t) p (Z.of_nat n) (news nx as_));
  got_next : pt_next t' = pt_next t;
  got_allocs : pt_allocs t' = pt_allocs t;
  got_pushes : exists l, pt_pushes t' = pt_pushes t ++ l /\ pushed as_ l;
}.

Lemma same_ref e e' : same_dir e e' -> pd_ref_count e' = pd_ref_count e /\ pd_depth e' = pd_depth e /\ pd_phys_alloc e' = pd_phys_alloc e /\
  pd_size e' = pd_size e /\ pd_entries e' = pd_entries e.
Proof using. by intros (? & ? & ->). Qed.

Lemma end_refs as_ : 0 <= pd_ref_count (end_dir ge n d as_) < 2 ^ 32 - 1.
Proof using Hd. unfold end_dir. destruct (last as_); [cbn; lia|apply (ds_refs _ _ _ _ _ _ _ Hd)]. Qed.

Lemma end_depth as_ : pd_depth (end_dir ge n d as_) = Z.of_nat n + Z.of_nat (length as_).
Proof using Hd. unfold end_dir. destruct (last as_) eqn:E; [done|]. apply last_None in E as ->. rewrite (ds_depth _ _ _ _ _ _ _ Hd). cbn. lia. Qed.

Lemma idx_small k : 0 <= k < d2 -> 0 <= idx k < 512.
Proof using Harch. intros Hk. destruct (idx_range h d2 Hh va k) as [? ?]; [lia|]. unfold idx. lia. Qed.

Lemma links_lookup par k as_ i q : links ge idx par k as_ !! i = Some q ->
  exists a pa, as_ !! i = Some a /\ (par :: as_) !! i = Some pa /\ q = link_cmds ge idx pa (k + Z.of_nat i) a.
Proof using.
  revert par k i. induction as_ as [|a as_ IH]; intros par k i Hq; [done|]. destruct i as [|i].
  - cbn in Hq. simplify_eq. exists a, par. by rewrite Z.add_0_r.
  - destruct (IH a (k + 1) i Hq) as (a' & pa & Ha & Hpa' & ->). exists a', pa. split; [done|]. split; [done|]. f_equal. lia.
Qed.

Lemma length_links par k as_ : length (links ge idx par k as_) = length as_.
Proof using. revert par k. induction as_ as [|a as_ IH]; intros par k; [done|]. cbn. by rewrite IH. Qed.

Section end_state.
Context (as_ : list uvm_mmu_page_table_alloc_t) (t : page_tree) (cache : list (option Z)) (Hc : cached ge D0 nx n as_ t cache).
Context (Hlen : Z.of_nat n + Z.of_nat (length as_) = d2) (Hok : Forall (table_ok ge) as_).

Lemma cached_new i c a : news nx as_ !! i = Some c -> as_ !! i = Some a ->
  exists e, pt_dirs t !! c = Some e /\ same_dir (fresh_dir h d2 a (Z.of_nat n + Z.of_nat i + 1)) e.
Proof using Hc.
  intros Hi Ha. apply lookup_seqZ in Hi as [-> _]. eapply same_dirs_lookup; [apply Hc|]. by apply added_new.
Qed.

Lemma cached_top : pt_dirs t !! p = Some d.
Proof using Hc Hd. rewrite (ca_old _ _ _ _ _ _ _ Hc) by (eapply ds_keys; apply Hd). apply Hd. Qed.

(** The parent of the [i]-th new directory, in the state before the links. *)
Lemma cached_parent i par pa : (p :: news nx as_) !! i = Some par -> (pd_phys_alloc d :: as_) !! i = Some pa ->
  forall e, pt_dirs t !! par = Some e -> pd_phys_alloc e = pa /\ (i <> 0%nat -> pd_depth e = Z.of_nat n + Z.of_nat i /\ pd_entries e = replicate (Z.to_nat (lvl_entries h d2 (pd_depth e))) None).
Proof using Hc Hd.
  intros Hpar Hpa' e He. destruct i as [|i]; cbn [lookup list_lookup] in Hpar, Hpa'.
  - injection Hpar as <-. injection Hpa' as <-. rewrite cached_top in He. by injection He as <-.
  - destruct (cached_new i par pa Hpar Hpa') as (e' & He' & Hs). simplify_eq. destruct (same_ref _ _ Hs) as (_ & E2 & E3 & _ & E5).
    cbn in *. split; [done|]. rewrite E5, E2. split; [lia|done].
Qed.

Let L : gmap Z uvm_page_directory_t := link idx (pt_dirs t) p (Z.of_nat n) (news nx as_).
Context (e : uvm_page_directory_t) (He : L !! end_ptr as_ = Some e).
Let D2 : gmap Z uvm_page_directory_t := <[end_ptr as_ := set_ref_count (pd_ref_count e + 1) e]> L.

Lemma end_lookup x y : L !! x = Some y -> exists r, D2 !! x = Some (set_ref_count r y).
Proof using He.
  intros Hx. unfold D2. rewrite lookup_insert. destruct (decide (end_ptr as_ = x)) as [<-|].
  - rewrite He in Hx. simplify_eq. by eexists.
  - exists (pd_ref_count y). rewrite Hx. by destruct y.
Qed.

Lemma end_facts i c a pa : news nx as_ !! i = Some c -> as_ !! i = Some a -> (pd_phys_alloc d :: as_) !! i = Some pa ->
  exists x par y, D2 !! c = Some x /\ pd_phys_alloc x = a /\ pd_size x = 4096 /\ pd_depth x = Z.of_nat n + Z.of_nat i + 1 /\
    pd_host_parent x = Some par /\ pd_index_in_parent x = idx (Z.of_nat n + Z.of_nat i) /\
    D2 !! par = Some y /\ pd_phys_alloc y = pa /\ pd_depth y = Z.of_nat n + Z.of_nat i /\ 0 <= pd_depth y < d2 /\
    nthZ (pd_entries y) (idx (Z.of_nat n + Z.of_nat i)) = Some (Some c).
Proof using Harch Hc Hd Hlen He.
  intros Hi Ha Hpa'. assert (exists par, (p :: news nx as_) !! i = Some par) as (par & Hpar).
  { apply lookup_lt_is_Some. apply lookup_lt_Some in Hi. cbn [length]. lia. }
  destruct (link_facts d2 idx _ _ _ _ i c par (cached_chain ge Harch va D0 nx n p d Hd _ _ _ Hc ltac:(fold d2; lia)) Hi Hpar)
    as [(e0 & e1 & A1 & A2 & A3 & A4 & A5 & A6 & A7) (y0 & y & B1 & B2 & B3 & B4 & _)].
  destruct (end_lookup c e1 A2) as (r & A2'). destruct (end_lookup par y B2) as (r' & B2'). destruct (cached_new i c a Hi Ha) as (e0' & A1' & Hs). assert (e0' = e0) as -> by congruence.
  destruct (same_ref _ _ Hs) as (_ & S2 & S3 & S4 & _). destruct (same_ref _ _ B4) as (_ & T2 & T3 & _ & T5). destruct (cached_parent i par pa Hpar Hpa' _ B1) as [Ep _].
  destruct B3 as [K1 K2 K3 K4]. exists (set_ref_count r e1), par, (set_ref_count r' y). cbn [set_ref_count pd_phys_alloc pd_size pd_depth pd_host_parent pd_index_in_parent pd_entries].
  split; [done|]. split; [by rewrite A5, S3|]. split; [by rewrite A6, S4|]. split; [by rewrite A7, S2|]. split; [done|]. split; [done|].
  split; [done|]. split; [by rewrite T3|]. split; [by rewrite T2|]. split; [rewrite T2; cbn; lia|]. rewrite T5. apply nthZ_setZ_eq. by eapply nthZ_lt.
Qed.

Lemma end_made : made D2 (Z.of_nat n + 1) (news nx as_) as_.
Proof using Harch Hc Hd Hlen He.
  split; [apply length_news|]. intros i c a Hi Ha. destruct ((pd_phys_alloc d :: as_) !! i) as [pa|] eqn:Hpa'.
  - destruct (end_facts i c a pa Hi Ha Hpa') as (x & _ & _ & X1 & X2 & X3 & X4 & _). exists x. repeat split; try done. lia.
  - apply lookup_ge_None in Hpa'. apply lookup_lt_Some in Ha. cbn [length] in Hpa'. lia.
Qed.

Lemma end_placed : Forall2 (placed ge idx D2) (news nx as_) (links ge idx (pd_phys_alloc d) (Z.of_nat n) as_).
Proof using Harch Hc Hd Hlen He Hok Hpa.
  apply Forall2_same_length_lookup. split; [by rewrite length_news, length_links|]. intros i c q Hi Hq.
  destruct (links_lookup _ _ _ _ _ Hq) as (a & pa & Ha & Hpa' & ->). destruct (end_facts i c a pa Hi Ha Hpa') as (x & par & y & X1 & X2 & X3 & X4 & X5 & X6 & Y1 & Y2 & Y3 & Y4 & Y5).
  assert (Hall : Forall (table_ok ge) (pd_phys_alloc d :: as_)) by (by constructor). rewrite Forall_lookup in Hok, Hall.
  exists x, par, y, (Z.of_nat n + Z.of_nat i), a. rewrite Y2. rewrite Y3 in Y4. do 9 (split; [by eauto|]). split; [by eapply Hall|done].
Qed.
End end_state.

(** The last turn links the directories and gets the entry. *)
Lemma wp_turn_last as_ t cache (Q : _ -> page_tree -> Prop) :
  cached ge D0 nx n as_ t cache -> Z.of_nat n + Z.of_nat (length as_) = d2 -> Forall (table_ok ge) as_ ->
  (forall t', got as_ t t' -> Q (inr (NV_OK, PtRange (end_ptr as_) (idx d2) 1 UVM_PAGE_SIZE_2M)) t') ->
  wp (try_get_ptes ge UVM_PAGE_SIZE_2M va UVM_PAGE_SIZE_2M cache) Q F t.
Proof using All.
  intros Hc Hlen Hok HQ. pose proof (tg_range _ _ Hh) as Hr. apply wp_bind, wp_guard; [apply andb_true_iff; split; [done|apply (tg_sizes _ _ Hh)]|].
  apply wp_bind, wp_guard; [apply andb_true_iff; split; [by apply Z.eqb_eq|done]|]. apply wp_bind, wp_guard; [done|]. apply wp_bind.
  eapply (wp_walk_turn ge Harch va Hal H0 Htop F D0 nx n p d Hd as_ t cache (5 - n - length as_)); [done|fold d2; lia|lia|].
  destruct (chain_end ge Harch va D0 nx n p d Hd as_ t cache Hc ltac:(fold d2; lia)) as (e & He & Hs). destruct (same_ref _ _ Hs) as (Er & Ek & _).
  pose proof (end_refs as_) as Hrefs. rewrite end_depth in Ek. rewrite <- Er in Hrefs. replace (5 - n - length as_)%nat with (S (4 - n - length as_)) by lia.
  eapply (wp_walk_indices ge Harch va Hal H0 Htop F); [exact He|done|lia|]. rewrite Hlen. fold d2. rewrite Z.eqb_refl. apply wp_bind. unfold page_table_range_init.
  replace (u32 (1 + lvl_index (hal_of (ge_ats ge) (ge_arch ge)) va d2 - lvl_index (hal_of (ge_ats ge) (ge_arch ge)) va d2)) with 1
    by (rewrite Z.add_simpl_r; done).
  apply wp_bind. eapply wp_update_dir; [exact He|]. cbn [pt_dirs with_dirs]. rewrite with_dirs_twice, u32_small by (unfold is_u32; lia). apply wp_ret, wp_ret.
  apply wp_bind, wp_free_unused.
  { apply Forall_forall. intros c (i & Hi)%list_elem_of_lookup. destruct c as [c|]; [|done]. pose proof (lookup_lt_Some _ _ _ Hi) as Hi'.
    rewrite (ca_length _ _ _ _ _ _ _ Hc) in Hi'. pose proof (ca_cache _ _ _ _ _ _ _ Hc (Z.of_nat i) ltac:(lia)) as E. unfold nthZ in E.
    rewrite (proj2 (Z.leb_le 0 (Z.of_nat i))), Nat2Z.id, Hi in E by lia.
    destruct (Z.leb_spec (Z.of_nat n) (Z.of_nat i)), (Z.ltb_spec (Z.of_nat i) (Z.of_nat n + Z.of_nat (length as_))); cbn [andb] in E; try done.
    injection E as ->. unfold news. apply elem_of_seqZ. lia. }
  apply wp_bind. destruct as_ as [|a as_].
  - apply wp_ret, wp_ret. apply HQ. split; try done; [by exists e|exists []; split; [by rewrite app_nil_r|done]].
  - remember (a :: as_) as al eqn:Eal. replace (inv_depth (-1) (Z.of_nat n) (news nx al)) with (Z.of_nat n).
    2: { pose proof (length_news nx al) as Hl. subst al. by destruct (news nx (a :: as_)). }
    eapply (wp_write_gpu_state ge Harch idx idx_small num pdb Hpdb Hnum Hroom Htlb Hbegin _ (pd_phys_alloc d) al); [by subst al| | |lia|fold d2; lia|].
    + by eapply end_made.
    + by eapply end_placed.
    + intros push Hpush. apply wp_ret. apply HQ. split; try done; [by exists e|]. exists [push]. split; [done|]. subst al. by exists push.
Qed.

(** A turn adds a directory to the cache. *)
Lemma cached_step as_ t cache D' a rest ps :
  cached ge D0 nx n as_ t cache -> Z.of_nat n + Z.of_nat (length as_) < d2 -> same_dirs (pt_dirs t) D' -> (forall q, q < nx -> D' !! q = pt_dirs t !! q) ->
  cached ge D0 nx n (as_ ++ [a]) (PageTree (<[pt_next t := fresh_dir h d2 a (Z.of_nat n + Z.of_nat (length as_) + 1)]> D') (pt_next t + 1) rest ps)
    (setZ cache (Z.of_nat n + Z.of_nat (length as_)) (Some (pt_next t))).
Proof using Harch.
  intros Hc Hlen HD' Hold. pose proof (ca_next _ _ _ _ _ _ _ Hc) as Hnx. pose proof (tg_range _ _ Hh) as Hr. split; cbn [pt_dirs pt_next].
  - rewrite added_snoc, Hnx. apply same_dirs_insert; [|done]. etransitivity; [apply Hc|done].
  - intros q Hq. rewrite lookup_insert_ne by lia. rewrite Hold by done. by apply (ca_old _ _ _ _ _ _ _ Hc).
  - rewrite length_app. cbn [length]. lia.
  - rewrite length_setZ. apply Hc.
  - intros i Hi. rewrite length_app. cbn [length]. destruct (decide (i = Z.of_nat n + Z.of_nat (length as_))) as [->|Hne].
    + rewrite nthZ_setZ_eq by (rewrite (ca_length _ _ _ _ _ _ _ Hc); lia). rewrite (proj2 (Z.leb_le _ _)), (proj2 (Z.ltb_lt _ _)) by lia.
      cbn [andb]. do 2 f_equal. lia.
    + rewrite nthZ_setZ_ne, (ca_cache _ _ _ _ _ _ _ Hc) by lia.
      replace (i <? Z.of_nat n + Z.of_nat (length as_ + 1)) with (i <? Z.of_nat n + Z.of_nat (length as_)); [done|].
      destruct (Z.ltb_spec i (Z.of_nat n + Z.of_nat (length as_))), (Z.ltb_spec i (Z.of_nat n + Z.of_nat (length as_ + 1))); lia || done.
Qed.

(** The loop: a turn for each allocation of [rem], then the last one. *)
Lemma wp_get_ptes_retry rem rest (Q : _ -> page_tree -> Prop) : forall fuel as_ t cache,
  cached ge D0 nx n as_ t cache -> Z.of_nat n + Z.of_nat (length as_) + Z.of_nat (length rem) = d2 -> Forall (table_ok ge) (as_ ++ rem) ->
  (length rem < fuel)%nat -> pt_allocs t = (Some <$> rem) ++ rest ->
  (forall t1 t' cache', cached ge D0 nx n (as_ ++ rem) t1 cache' -> pt_allocs t1 = rest -> pt_pushes t1 = pt_pushes t -> got (as_ ++ rem) t1 t' ->
     Q (NV_OK, Some (PtRange (end_ptr (as_ ++ rem)) (idx d2) 1 UVM_PAGE_SIZE_2M)) t') ->
  wp (get_ptes_retry ge fuel UVM_PAGE_SIZE_2M va UVM_PAGE_SIZE_2M cache) Q F t.
Proof using All.
  induction rem as [|a rem IH]; intros fuel as_ t cache Hc Hlen Hok Hfuel Hall HQ; (destruct fuel as [|fuel]; [cbn in Hfuel; lia|]); cbn [get_ptes_retry length] in *.
  - rewrite app_nil_r in *. apply wp_bind. eapply wp_turn_last; [done|lia|done|]. intros t' Hg. apply wp_ret. by eapply HQ.
  - apply wp_bind. eapply (wp_turn_missing ge Harch va Hal H0 Htop Hcan F D0 nx n p d Hd); [done|fold d2; lia|]. intros D' HD' Hold. apply wp_bind.
    eapply (wp_allocate_directory ge _ a ((Some <$> rem) ++ rest)); [done|fold d2; lia|done|]. cbn [with_dirs pt_next pt_dirs pt_pushes].
    pose proof (ca_next _ _ _ _ _ _ _ Hc) as Hnx. eapply (IH fuel (as_ ++ [a])); cbn [pt_allocs pt_pushes]; [|rewrite length_app; cbn [length]; lia|by rewrite <- app_assoc|lia|done|].
    + eapply cached_step; [done|lia|done|done].
    + rewrite <- app_assoc. cbn [app]. exact HQ.
Qed.

(** ** Out of memory *)

Lemma cached_distinct as_ t cache i j q : cached ge D0 nx n as_ t cache -> cache !! i = Some (Some q) -> cache !! j = Some (Some q) -> i = j.
Proof using.
  intros Hc. assert (Hx : forall i, cache !! i = Some (Some q) -> q = nx + (Z.of_nat i - Z.of_nat n)).
  { intros k Hk. pose proof (lookup_lt_Some _ _ _ Hk) as Hlt. rewrite (ca_length _ _ _ _ _ _ _ Hc) in Hlt.
    pose proof (ca_cache _ _ _ _ _ _ _ Hc (Z.of_nat k) ltac:(lia)) as E. unfold nthZ in E. rewrite (proj2 (Z.leb_le 0 (Z.of_nat k))), Nat2Z.id, Hk in E by lia.
    destruct (_ && _); [by injection E|done]. }
  intros Hi%Hx Hj%Hx. lia.
Qed.

(** The cache holds the new directories. *)
Lemma cached_news as_ t cache q : cached ge D0 nx n as_ t cache -> Z.of_nat n + Z.of_nat (length as_) <= 5 ->
  Some q ∈ cache <-> nx <= q < nx + Z.of_nat (length as_).
Proof using.
  intros Hc Hlen. split.
  - intros (k & Hk)%list_elem_of_lookup. pose proof (lookup_lt_Some _ _ _ Hk) as Hlt. rewrite (ca_length _ _ _ _ _ _ _ Hc) in Hlt.
    pose proof (ca_cache _ _ _ _ _ _ _ Hc (Z.of_nat k) ltac:(lia)) as E. unfold nthZ in E. rewrite (proj2 (Z.leb_le 0 (Z.of_nat k))), Nat2Z.id, Hk in E by lia.
    destruct (Z.leb_spec (Z.of_nat n) (Z.of_nat k)), (Z.ltb_spec (Z.of_nat k) (Z.of_nat n + Z.of_nat (length as_))); cbn [andb] in E; try done.
    injection E as ->. lia.
  - intros Hq. pose proof (ca_cache _ _ _ _ _ _ _ Hc (q - nx + Z.of_nat n) ltac:(lia)) as E.
    rewrite (proj2 (Z.leb_le _ _)), (proj2 (Z.ltb_lt _ _)) in E by lia. cbn [andb] in E. replace (nx + (q - nx + Z.of_nat n - Z.of_nat n)) with q in E by lia.
    by eapply nthZ_elem.
Qed.

(** When an allocation fails the directories of the cache are freed: the tree is as before. *)
Lemma wp_get_ptes_no_memory rem rest (Q : _ -> page_tree -> Prop) : forall fuel as_ t cache,
  cached ge D0 nx n as_ t cache -> Z.of_nat n + Z.of_nat (length as_) + Z.of_nat (length rem) < d2 -> (length rem < fuel)%nat ->
  pt_allocs t = (Some <$> rem) ++ None :: rest ->
  (forall nx', nx <= nx' -> Q (NV_ERR_NO_MEMORY, None) (PageTree D0 nx' rest (pt_pushes t))) ->
  wp (get_ptes_retry ge fuel UVM_PAGE_SIZE_2M va UVM_PAGE_SIZE_2M cache) Q F t.
Proof using Harch Hal H0 Htop Hcan Hd.
  induction rem as [|a rem IH]; intros fuel as_ t cache Hc Hlen Hfuel Hall HQ; (destruct fuel as [|fuel]; [cbn in Hfuel; lia|]); cbn [get_ptes_retry length] in *.
  - pose proof (tg_range _ _ Hh) as Hr. apply wp_bind. eapply (wp_turn_missing ge Harch va Hal H0 Htop Hcan F D0 nx n p d Hd); [done|fold d2; lia|]. intros D' HD' Hold.
    apply wp_bind. eapply wp_allocate_fails; [done|fold d2; lia|exact Hall|]. apply wp_bind. apply wp_free_all.
    + intros i j q. by eapply cached_distinct.
    + intros q Hq. cbn [with_dirs with_allocs pt_dirs]. apply (cached_news _ _ _ _ Hc) in Hq; [|lia].
      destruct (lookup_lt_is_Some_2 as_ (Z.to_nat (q - nx))) as (a & Ha); [lia|].
      pose proof (added_new h d2 D0 nx (Z.of_nat n) as_ _ a Ha) as Hnew. rewrite Z2Nat.id in Hnew by lia. replace (nx + (q - nx)) with q in Hnew by lia.
      destruct (same_dirs_lookup _ _ _ _ (ca_dirs _ _ _ _ _ _ _ Hc) Hnew) as (x & Hx & _). destruct (same_dirs_lookup _ _ _ _ HD' Hx) as (y & Hy & _). by eexists.
    + apply wp_ret. cbn [with_dirs with_allocs pt_dirs pt_pushes pt_next].
      replace (freed cache D') with D0; [apply (HQ (pt_next t)); rewrite (ca_next _ _ _ _ _ _ _ Hc); lia|]. apply map_eq. intros q. rewrite freed_lookup.
      destruct (decide _) as [Hq|Hq]; rewrite (cached_news _ _ _ _ Hc) in Hq by lia.
      * destruct (D0 !! q) eqn:E; [|done]. pose proof (ds_keys _ _ _ _ _ _ _ Hd _ _ E). lia.
      * destruct (decide (q < nx)) as [Hlt|Hge]; [rewrite Hold by done; by rewrite (ca_old _ _ _ _ _ _ _ Hc)|].
        pose proof (added_old h d2 D0 nx (Z.of_nat n) as_ q Hq) as Ho. pose proof (ca_dirs _ _ _ _ _ _ _ Hc q) as H1. pose proof (HD' q) as H2.
        assert (E : D0 !! q = None) by (destruct (D0 !! q) eqn:E; [pose proof (ds_keys _ _ _ _ _ _ _ Hd _ _ E); lia|done]).
        fold h d2 in H1. rewrite Ho, E in H1. rewrite E. destruct (pt_dirs t !! q); [by inversion H1|]. by destruct (D' !! q); [inversion H2|].
  - apply wp_bind. eapply (wp_turn_missing ge Harch va Hal H0 Htop Hcan F D0 nx n p d Hd); [done|fold d2; lia|]. intros D' HD' Hold. apply wp_bind.
    eapply (wp_allocate_directory ge _ a ((Some <$> rem) ++ None :: rest)); [done|fold d2; lia|done|]. cbn [with_dirs pt_next pt_dirs pt_pushes].
    eapply (IH fuel (as_ ++ [a])); cbn [pt_allocs pt_pushes]; [eapply cached_step; [done|lia|done|done]|rewrite length_app; cbn [length]; lia|lia|done|done].
Qed.
End last_turn.
