(* ===== verification/UvmPageTreeInv.v ===== *)
(** The invariant of the page tree: directories have the entries of their level, a
    directory above the 2MB entries counts its children, and children know their place.
    Getting a 2MB entry keeps it. *)

From S2P Require Import Prelude UvmBits UvmCommon UvmMmuHal UvmMmuHalCorrect UvmPush UvmHostTlb UvmTlbBatch UvmPteBatch UvmVaBlockCorrect UvmPageTree UvmPageTreeWalk UvmPageTreeGet UvmPageTreePush UvmPageTreeTurns.
Local Open Scope Z_scope.

(** ** The invariant *)

Definition n_children (l : list (option Z)) : Z := Z.of_nat (length (omap id l)).

Lemma n_children_set l i c : nthZ l i = Some None -> n_children (setZ l i (Some c)) = n_children l + 1.
Proof.
  intros Hi. unfold nthZ in Hi. unfold n_children, setZ. destruct (0 <=? i); [|done]. rewrite insert_take_drop by (by eapply lookup_lt_Some).
  rewrite <- (take_drop_middle l _ _ Hi) at 3. rewrite !omap_app, !length_app. cbn. lia.
Qed.

Lemma n_children_none n : n_children (replicate n None) = 0.
Proof. unfold n_children. by induction n. Qed.

Lemma n_children_le l : 0 <= n_children l <= Z.of_nat (length l).
Proof. unfold n_children. induction l as [|[c|] l IH]; cbn in *; lia. Qed.

Section inv.
Context (ge : gpu_env).
Let h : uvm_mmu_mode_hal_t := hal_of (ge_ats ge) (ge_arch ge).
Let d2 : Z := depth_2m (ge_ats ge) (ge_arch ge).

(** One directory; [bound] is a bound of the references of tables. *)
Record dir_inv (D : gmap Z uvm_page_directory_t) (bound p : Z) (d : uvm_page_directory_t) : Prop := {
  di_depth : 0 <= pd_depth d;
  di_length : pd_depth d <= d2 -> Z.of_nat (length (pd_entries d)) = lvl_entries h d2 (pd_depth d);
  di_table : pd_depth d <= d2 -> table_ok ge (pd_phys_alloc d) /\ pd_size d = 4096;
  di_children : pd_depth d < d2 -> pd_ref_count d = n_children (pd_entries d);
  di_refs : d2 <= pd_depth d -> 0 <= pd_ref_count d <= bound;
  di_child : forall i c, pd_depth d < d2 -> nthZ (pd_entries d) i = Some (Some c) ->
    exists e, D !! c = Some e /\ pd_depth e = pd_depth d + 1 /\ pd_host_parent e = Some p /\ pd_index_in_parent e = i;
}.

Record tree_inv (bound : Z) (t : page_tree) : Prop := {
  ti_root : exists d, pt_dirs t !! ge_root ge = Some d /\ pd_depth d = 0;
  ti_keys : forall p d, pt_dirs t !! p = Some d -> p < pt_next t;
  ti_dirs : forall p d, pt_dirs t !! p = Some d -> dir_inv (pt_dirs t) bound p d;
}.
End inv.

(** ** The path of an address *)

Section descent.
Context (ge : gpu_env) (Harch : big_arch (ge_arch ge) = true) (va : Z).
Let h : uvm_mmu_mode_hal_t := hal_of (ge_ats ge) (ge_arch ge).
Let d2 : Z := depth_2m (ge_ats ge) (ge_arch ge).
Let idx : Z -> Z := lvl_index h va.
Let Hh : tree_geometry h d2 := hal_tree (ge_ats ge) (ge_arch ge) Harch.
Context (bound : Z) (Hbound : bound < 2 ^ 32 - 1) (t : page_tree) (Ht : tree_inv ge bound t).

Lemma path_snoc D p k n q d c : path ge va D p k n q -> D !! q = Some d -> pd_depth d = k + Z.of_nat n -> 0 <= k -> k + Z.of_nat n < d2 ->
  nthZ (pd_entries d) (idx (k + Z.of_nat n)) = Some (Some c) -> path ge va D p k (S n) c.
Proof using.
  revert p k. induction n as [|n IH]; intros p k Hp Hd Hk Hk0 Hr Hc.
  - cbn in Hp. subst q. rewrite Z.add_0_r in *. exists d, c. do 4 (split; [done|]). done.
  - destruct Hp as (d' & c' & A1 & A2 & A3 & A4 & A5). exists d', c'. do 4 (split; [done|]).
    apply IH; [done|done|lia|lia|lia|]. by replace (k + 1 + Z.of_nat n) with (k + Z.of_nat (S n)) by lia.
Qed.

(** An upper directory has an entry at the index of the address and few references. *)
Lemma dir_entry p d : pt_dirs t !! p = Some d -> 0 <= pd_depth d < d2 ->
  exists o, nthZ (pd_entries d) (idx (pd_depth d)) = Some o.
Proof using Harch Ht.
  intros Hp Hr. apply nthZ_is_Some. pose proof (di_length _ _ _ _ _ (ti_dirs _ _ _ Ht _ _ Hp) ltac:(lia)) as ->.
  destruct (idx_range h d2 Hh va (pd_depth d)) as [Hi _]; [lia|]. unfold lvl_entries. rewrite (proj2 (Z.eqb_neq _ _)) by (fold d2; lia). fold idx in Hi |- *. fold h. lia.
Qed.

Lemma dir_refs p d : pt_dirs t !! p = Some d -> pd_depth d <= d2 -> 0 <= pd_ref_count d < 2 ^ 32 - 1.
Proof using Harch Ht Hbound.
  intros Hp Hr. destruct (ti_dirs _ _ _ Ht _ _ Hp) as [Hd Hl _ Hc Hb _]. fold d2 in Hl, Hc, Hb. fold h in Hl.
  destruct (decide (pd_depth d = d2)) as [E|Hne]; [specialize (Hb ltac:(lia)); lia|]. rewrite Hc by lia. pose proof (n_children_le (pd_entries d)) as Hn.
  rewrite Hl in Hn by lia. destruct (idx_range h d2 Hh 0 (pd_depth d)) as [_ Hi]; [lia|]. unfold lvl_entries in Hn. rewrite (proj2 (Z.eqb_neq _ _)) in Hn by lia. lia.
Qed.

Lemma descent_from m n p d :
  path ge va (pt_dirs t) (ge_root ge) 0 n p -> pt_dirs t !! p = Some d -> pd_depth d = Z.of_nat n -> Z.of_nat n + Z.of_nat m = d2 ->
  exists n' p' d', descends ge va (pt_dirs t) (pt_next t) n' p' d'.
Proof using Harch Ht Hbound.
  revert n p d. induction m as [|m IH]; intros n p d Hp Hd Hk Hm.
  - exists n, p, d. split; try done; [fold d2; lia|fold d2; lia|eapply dir_refs; [done|lia]|apply Ht].
  - destruct (dir_entry p d Hd) as ([c|] & Hc); [lia| |].
    + destruct (di_child _ _ _ _ _ (ti_dirs _ _ _ Ht _ _ Hd) _ _ ltac:(fold d2; lia) Hc) as (e & He & Hek & _).
      eapply (IH (S n) c e); [|done|lia|lia]. rewrite Hk in Hc. eapply path_snoc; [done|done|lia|lia|lia|done].
    + exists n, p, d. rewrite Hk in Hc. split; try done; [fold d2; lia| |eapply dir_refs; [done|lia]|apply Ht].
      intros _. split; [done|fold d2; lia|eapply dir_refs; [done|lia]|done].
Qed.

Lemma descent : exists n p d, descends ge va (pt_dirs t) (pt_next t) n p d.
Proof using Harch Ht Hbound.
  destruct (ti_root _ _ _ Ht) as (d & Hd & Hk). pose proof (tg_range _ _ Hh). apply (descent_from (Z.to_nat d2) 0 (ge_root ge) d); [done|done|done|lia].
Qed.
End descent.

(** ** The tree after the last turn *)

Lemma end_ptr_news nx p as_ : as_ <> [] -> end_ptr nx p as_ = nx + Z.of_nat (length as_) - 1.
Proof.
  intros Hne. unfold end_ptr, news. destruct (length as_) as [|l] eqn:E; [by destruct as_|].
  replace (Z.of_nat (S l)) with (Z.of_nat l + 1) by lia. rewrite seqZ_app, (seqZ_cons _ 1), (seqZ_nil _ (Z.pred 1)), List.last_last by lia. lia.
Qed.

Lemma news_lookup nx as_ i : (i < length as_)%nat -> news nx as_ !! i = Some (nx + Z.of_nat i).
Proof. intros Hi. apply lookup_seqZ. lia. Qed.

Section after.
Context (ge : gpu_env) (Harch : big_arch (ge_arch ge) = true) (va : Z).
Let h : uvm_mmu_mode_hal_t := hal_of (ge_ats ge) (ge_arch ge).
Let d2 : Z := depth_2m (ge_ats ge) (ge_arch ge).
Let idx : Z -> Z := lvl_index h va.
Let Hh : tree_geometry h d2 := hal_tree (ge_ats ge) (ge_arch ge) Harch.
Context (D0 : gmap Z uvm_page_directory_t) (nx : Z) (n : nat) (p : Z) (d : uvm_page_directory_t) (Hd : descends ge va D0 nx n p d).
Context (as_ : list uvm_mmu_page_table_alloc_t) (t : page_tree) (cache : list (option Z)) (Hc : cached ge D0 nx n as_ t cache).
Context (Hlen : Z.of_nat n + Z.of_nat (length as_) = d2).
Context (pdb : uvm_gpu_phys_address_t) (t' : page_tree) (Hgot : got ge va pdb nx n p d as_ t t').

(** A new directory. *)
Record new_dir (i : nat) (a : uvm_mmu_page_table_alloc_t) (y : uvm_page_directory_t) : Prop := {
  nd_parent : exists par, (p :: news nx as_) !! i = Some par /\ pd_host_parent y = Some par;
  nd_index : pd_index_in_parent y = idx (Z.of_nat n + Z.of_nat i);
  nd_alloc : pd_phys_alloc y = a;
  nd_size : pd_size y = 4096;
  nd_depth : pd_depth y = Z.of_nat n + Z.of_nat i + 1;
  nd_refs : pd_ref_count y = 1;
  nd_entries : pd_entries y =
    let none := replicate (Z.to_nat (lvl_entries h d2 (Z.of_nat n + Z.of_nat i + 1))) None in
    if bool_decide (S i < length as_)%nat then setZ none (idx (Z.of_nat n + Z.of_nat i + 1)) (Some (nx + Z.of_nat i + 1)) else none;
}.

Lemma after_chain : chain d2 idx (pt_dirs t) p (Z.of_nat n) (news nx as_).
Proof using Harch Hc Hd Hlen. eapply cached_chain; [done|done|done|fold d2; lia]. Qed.

Lemma after_new i a : as_ !! i = Some a -> exists y, pt_dirs t' !! (nx + Z.of_nat i) = Some y /\ new_dir i a y.
Proof using Harch Hc Hd Hlen Hgot.
  intros Ha. pose proof (lookup_lt_Some _ _ _ Ha) as Hi. destruct (got_dirs _ _ _ _ _ _ _ _ _ _ Hgot) as (e & He & Hs & ->).
  assert (Hne : as_ <> []) by (intros E; rewrite E in Ha; done). rewrite end_ptr_news in He |- * by done.
  assert (exists par, (p :: news nx as_) !! i = Some par) as (par & Hpar) by (apply lookup_lt_is_Some; cbn [length]; rewrite length_news; lia).
  destruct (link_facts d2 idx _ _ _ _ i _ par after_chain (news_lookup nx as_ i Hi) Hpar) as [(e0 & e1 & A1 & A2 & A3 & A4 & A5 & A6 & A7) _].
  destruct (cached_new ge D0 nx n as_ t cache Hc i _ a (news_lookup nx as_ i Hi) Ha) as (e0' & A1' & Hs0). assert (e0' = e0) as -> by congruence. fold h d2 in Hs0.
  destruct (same_ref _ _ Hs0) as (_ & S2 & S3 & S4 & _). cbn in S2, S3, S4.
  destruct (decide (S i < length as_)%nat) as [Hlt|Hge].
  - rewrite lookup_insert_ne by lia. exists e1. split; [exact A2|].
    destruct (link_facts d2 idx _ _ _ _ (S i) _ (nx + Z.of_nat i) after_chain (news_lookup nx as_ (S i) Hlt) (news_lookup nx as_ i Hi)) as [_ (y0 & y & B1 & B2 & _ & B4 & _)].
    assert (y0 = e0) as -> by congruence. assert (y = e1) as -> by congruence. destruct (same_ref _ _ B4) as (T1 & _ & _ & _ & T5). destruct (same_ref _ _ Hs0) as (R1 & _ & _ & _ & R5).
    split; [by exists par|done|congruence|congruence|congruence| |].
    + rewrite T1. cbn [linked set_entries set_ref_count pd_ref_count]. rewrite R1. done.
    + rewrite T5. cbn [linked set_entries set_ref_count pd_entries]. rewrite R5, bool_decide_true by done. cbn [fresh_dir pd_entries].
      by replace (Z.of_nat n + Z.of_nat (S i)) with (Z.of_nat n + Z.of_nat i + 1) by lia; replace (nx + Z.of_nat (S i)) with (nx + Z.of_nat i + 1) by lia.
  - replace (nx + Z.of_nat (length as_) - 1) with (nx + Z.of_nat i) in * by lia. assert (e = e1) as -> by (unfold idx, h in A2; congruence). rewrite lookup_insert_eq.
    eexists. split; [done|]. assert (Hlast : last as_ = Some a) by (rewrite last_lookup; replace (pred (length as_)) with i by lia; done).
    unfold end_dir in Hs. rewrite Hlast in Hs. destruct (same_ref _ _ Hs) as (R1 & _ & _ & _ & R5).
    split; cbn [set_ref_count pd_host_parent pd_index_in_parent pd_phys_alloc pd_size pd_depth pd_ref_count pd_entries]; [by exists par|done|congruence|congruence|congruence|by rewrite R1|].
    rewrite R5, bool_decide_false by lia. cbn [fresh_dir pd_entries]. fold h d2. by replace (Z.of_nat n + Z.of_nat (length as_)) with (Z.of_nat n + Z.of_nat i + 1) by lia.
Qed.

(** The directory whose entry was missing, or that was found. *)
Definition top_after : uvm_page_directory_t :=
  match as_ with [] => set_ref_count (pd_ref_count d + 1) d | _ => linked d (idx (Z.of_nat n)) nx end.

Lemma after_top : pt_dirs t' !! p = Some top_after.
Proof using Harch Hc Hd Hlen Hgot.
  destruct (got_dirs _ _ _ _ _ _ _ _ _ _ Hgot) as (e & He & Hs & ->). pose proof (cached_top ge va D0 nx n p d Hd as_ t cache Hc) as Hp.
  pose proof after_chain as Hch. pose proof (ds_keys _ _ _ _ _ _ _ Hd _ _ (ds_dir _ _ _ _ _ _ _ Hd)) as Hlt. unfold top_after. destruct as_ as [|a l] eqn:E.
  - change (pt_dirs t !! p = Some e) in He. assert (e = d) as -> by congruence. change (end_ptr nx p []) with p. by rewrite lookup_insert_eq.
  - rewrite end_ptr_news, lookup_insert_ne by (done || cbn [length]; lia). unfold news in *. cbn [length] in *. rewrite seqZ_cons in * by lia.
    eapply (link_head d2 idx); [exact Hp|exact Hch].
Qed.

Lemma after_old x : x < nx -> x <> p -> pt_dirs t' !! x = D0 !! x.
Proof using Hc Hgot.
  intros Hx Hne. destruct (got_dirs _ _ _ _ _ _ _ _ _ _ Hgot) as (e & He & Hs & ->).
  assert (Hn : x ∉ p :: news nx as_) by (rewrite elem_of_cons; unfold news; rewrite elem_of_seqZ; lia).
  rewrite lookup_insert_ne by (intros E; apply Hn; rewrite <- E; apply last_elem). rewrite link_ne by done. by apply (ca_old _ _ _ _ _ _ _ Hc).
Qed.

Lemma after_none x : nx + Z.of_nat (length as_) <= x -> pt_dirs t' !! x = None.
Proof using Hc Hgot Hd.
  intros Hx. destruct (got_dirs _ _ _ _ _ _ _ _ _ _ Hgot) as (e & He & Hs & ->). pose proof (ds_keys _ _ _ _ _ _ _ Hd) as Hk.
  assert (Hlt : p < nx) by (eapply Hk; apply Hd).
  assert (Hn : x ∉ p :: news nx as_) by (rewrite elem_of_cons; unfold news; rewrite elem_of_seqZ; lia).
  rewrite lookup_insert_ne by (intros E; apply Hn; rewrite <- E; apply last_elem). rewrite link_ne by done.
  pose proof (ca_dirs _ _ _ _ _ _ _ Hc x) as Hx'. rewrite added_old in Hx' by lia. destruct (D0 !! x) eqn:E; [specialize (Hk _ _ E); lia|]. by inversion Hx'.
Qed.

(** What an old directory keeps. *)
Record grown_dir (x x' : uvm_page_directory_t) : Prop := {
  gd_parent : pd_host_parent x' = pd_host_parent x;
  gd_index : pd_index_in_parent x' = pd_index_in_parent x;
  gd_alloc : pd_phys_alloc x' = pd_phys_alloc x;
  gd_size : pd_size x' = pd_size x;
  gd_depth : pd_depth x' = pd_depth x;
  gd_entries : forall i c, nthZ (pd_entries x) i = Some (Some c) -> nthZ (pd_entries x') i = Some (Some c);
  gd_tables : d2 <= pd_depth x -> pd_entries x' = pd_entries x;
}.

Lemma top_linkable a l : as_ = a :: l -> linkable d2 idx (Z.of_nat n) d.
Proof using Hd Hlen. intros E. eapply ds_missing; [exact Hd|]. rewrite E in Hlen. cbn [length] in Hlen. fold d2. lia. Qed.

Lemma top_grown : grown_dir d top_after.
Proof using All.
  unfold top_after. pose proof top_linkable as Hl. destruct as_ as [|a l]; [by split|]. destruct (Hl _ _ eq_refl) as [L1 L2 L3 L4].
  split; try done; cbn [linked set_entries set_ref_count pd_entries]; [|lia]. intros i c Hi. rewrite nthZ_setZ_ne; [done|]. congruence.
Qed.

Lemma after_keeps x e : D0 !! x = Some e -> exists e', pt_dirs t' !! x = Some e' /\ grown_dir e e'.
Proof using All.
  intros Hx. destruct (decide (x = p)) as [->|Hne].
  - rewrite (ds_dir _ _ _ _ _ _ _ Hd) in Hx. injection Hx as <-. exists top_after. split; [apply after_top|apply top_grown].
  - exists e. split; [|by split]. rewrite after_old; [done| |done]. by eapply (ds_keys _ _ _ _ _ _ _ Hd).
Qed.

(** The levels below [p]: the [j]-th has the entry of the next one. *)
Lemma after_level j q : (j < length as_)%nat -> (p :: news nx as_) !! j = Some q ->
  exists y, pt_dirs t' !! q = Some y /\ pd_depth y = Z.of_nat n + Z.of_nat j /\ nthZ (pd_entries y) (idx (Z.of_nat n + Z.of_nat j)) = Some (Some (nx + Z.of_nat j)).
Proof using All.
  intros Hj Hq. destruct j as [|j].
  - injection Hq as <-. exists top_after. split; [apply after_top|]. rewrite !Z.add_0_r. unfold top_after. pose proof top_linkable as Hl.
    destruct as_ as [|a l]; [cbn in Hj; lia|]. destruct (Hl _ _ eq_refl) as [L1 L2 L3 L4]. split; [done|]. apply nthZ_setZ_eq. by eapply nthZ_lt.
  - change (news nx as_ !! j = Some q) in Hq. assert (Hj' : (j < length as_)%nat) by lia. pose proof (news_lookup nx as_ j Hj') as Hq'. assert (q = nx + Z.of_nat j) as -> by congruence.
    destruct (lookup_lt_is_Some_2 as_ j Hj') as (a & Ha). destruct (after_new j a Ha) as (y & Hy & [_ _ _ _ Hk _ He]). exists y. split; [done|]. split; [lia|].
    rewrite He, bool_decide_true by done. replace (Z.of_nat n + Z.of_nat (S j)) with (Z.of_nat n + Z.of_nat j + 1) by lia. replace (nx + Z.of_nat (S j)) with (nx + Z.of_nat j + 1) by lia.
    apply nthZ_setZ_eq. destruct (idx_range h d2 Hh va (Z.of_nat n + Z.of_nat j + 1)) as [Hi _]; [lia|]. rewrite length_replicate. unfold lvl_entries.
    rewrite (proj2 (Z.eqb_neq _ _)) by lia. unfold idx. lia.
Qed.

Lemma path_keeps x k m : path ge va D0 x k m p -> path ge va (pt_dirs t') x k m p.
Proof using All.
  revert x k. induction m as [|m IH]; intros x k; [done|]. intros (e & c & A1 & A2 & A3 & A4 & A5). destruct (after_keeps _ _ A1) as (e' & B1 & G).
  exists e', c. split; [done|]. split; [by rewrite (gd_depth _ _ G)|]. split; [done|]. split; [by apply (gd_entries _ _ G)|]. by apply IH.
Qed.

(** The path now leads to the entry. *)
Lemma after_path : path ge va (pt_dirs t') (ge_root ge) 0 (Z.to_nat d2) (end_ptr nx p as_).
Proof using All.
  assert (H : forall j q, (j <= length as_)%nat -> (p :: news nx as_) !! j = Some q -> path ge va (pt_dirs t') (ge_root ge) 0 (n + j) q).
  { induction j as [|j IH]; intros q Hj Hq.
    - injection Hq as <-. rewrite Nat.add_0_r. apply path_keeps, Hd.
    - destruct (lookup_lt_is_Some_2 (p :: news nx as_) j) as (q' & Hq'); [cbn [length]; rewrite length_news; lia|].
      destruct (after_level j q' ltac:(lia) Hq') as (y & Hy & Hk & He). change (news nx as_ !! j = Some q) in Hq.
      pose proof (news_lookup nx as_ j ltac:(lia)) as Hq2. assert (q = nx + Z.of_nat j) as -> by congruence.
      replace (n + S j)%nat with (S (n + j)) by lia. eapply path_snoc; [apply IH; [lia|done]|done|lia|lia|fold d2; lia|].
      by replace (0 + Z.of_nat (n + j)) with (Z.of_nat n + Z.of_nat j) by lia. }
  replace (Z.to_nat d2) with (n + length as_)%nat by lia. apply H; [lia|]. destruct (decide (as_ = [])) as [E|Hne]; [by rewrite E|].
  rewrite end_ptr_news by done. destruct as_ as [|a l]; [done|]. cbn [length lookup list_lookup]. rewrite news_lookup by (cbn [length]; lia). f_equal. lia.
Qed.

Context (bound : Z) (Hb0 : 0 <= bound) (t0 : page_tree) (Ht0 : tree_inv ge bound t0) (HD0 : pt_dirs t0 = D0) (Hnx : pt_next t0 = nx) (Hok : Forall (table_ok ge) as_).

(** Children of old directories keep their place. *)
Lemma after_child x i c k : (exists e, D0 !! c = Some e /\ pd_depth e = k + 1 /\ pd_host_parent e = Some x /\ pd_index_in_parent e = i) ->
  exists e, pt_dirs t' !! c = Some e /\ pd_depth e = k + 1 /\ pd_host_parent e = Some x /\ pd_index_in_parent e = i.
Proof using All.
  intros (e & He & E1 & E2 & E3). destruct (after_keeps c e He) as (e' & He' & [G1 G2 _ _ G5 _ _]). exists e'. by rewrite G1, G2, G5.
Qed.

Lemma inv_of x e : D0 !! x = Some e -> dir_inv ge D0 bound x e.
Proof using Ht0 HD0. rewrite <- HD0. apply Ht0. Qed.

Lemma inv_untouched x y : x < nx -> x <> p -> pt_dirs t' !! x = Some y -> dir_inv ge (pt_dirs t') (bound + 1) x y.
Proof using All.
  intros Hx Hne Hy. rewrite after_old in Hy by done. destruct (inv_of x y Hy) as [I1 I2 I3 I4 I5 I6].
  split; try done; [intros Hk; specialize (I5 Hk); lia|]. intros i c Hk Hi. by apply after_child, I6.
Qed.

Lemma inv_top : dir_inv ge (pt_dirs t') (bound + 1) p top_after.
Proof using All.
  destruct (inv_of p d (ds_dir _ _ _ _ _ _ _ Hd)) as [I1 I2 I3 I4 I5 I6]. pose proof (ds_depth _ _ _ _ _ _ _ Hd) as Hdep. fold h in I2. fold d2 in I2, I3, I4, I5, I6.
  pose proof top_linkable as Hl. pose proof after_child as Hch. pose proof after_new as Hnew. unfold top_after. destruct as_ as [|a l] eqn:E.
  - cbn [length] in Hlen. split; cbn [set_ref_count pd_depth pd_entries pd_phys_alloc pd_size pd_ref_count]; try done; [fold d2; lia|intros Hk; specialize (I5 Hk); lia|fold d2; intros; lia].
  - destruct (Hl _ _ eq_refl) as [L1 L2 L3 L4]. split; cbn [linked set_entries set_ref_count pd_depth pd_entries pd_phys_alloc pd_size pd_ref_count]; try done.
    + by rewrite length_setZ.
    + intros Hk. rewrite n_children_set by done. rewrite <- I4 by done. apply u32_small. unfold is_u32. lia.
    + fold d2. lia.
    + fold d2. intros i c Hk Hi. destruct (decide (i = idx (Z.of_nat n))) as [->|Hne].
      * rewrite nthZ_setZ_eq in Hi by (by eapply nthZ_lt). injection Hi as <-. destruct (Hnew 0%nat a eq_refl) as (y & Hy & [(par & Hpar & Hp) Hix _ _ Hdy _ _]).
        injection Hpar as <-. exists y. rewrite Z.add_0_r in Hy, Hix, Hdy. repeat split; try done. lia.
      * rewrite nthZ_setZ_ne in Hi by done. by apply Hch, I6.
Qed.

Lemma inv_new i a y : as_ !! i = Some a -> pt_dirs t' !! (nx + Z.of_nat i) = Some y -> new_dir i a y -> dir_inv ge (pt_dirs t') (bound + 1) (nx + Z.of_nat i) y.
Proof using All.
  intros Ha Hy [_ _ Ea Es Ek Er Ee]. pose proof (lookup_lt_Some _ _ _ Ha) as Hi. rewrite Forall_lookup in Hok.
  assert (Hl : Z.of_nat (length (pd_entries y)) = lvl_entries h d2 (pd_depth y)).
  { rewrite Ee, Ek. assert (0 <= lvl_entries h d2 (Z.of_nat n + Z.of_nat i + 1)) by (unfold lvl_entries; destruct (_ =? _); lia).
    cbn zeta. destruct (bool_decide _); rewrite ?length_setZ, length_replicate; lia. }
  assert (Hix : Z.of_nat n + Z.of_nat i + 1 < d2 -> 0 <= idx (Z.of_nat n + Z.of_nat i + 1) < lvl_entries h d2 (Z.of_nat n + Z.of_nat i + 1)).
  { intros Hk. destruct (idx_range h d2 Hh va (Z.of_nat n + Z.of_nat i + 1)) as [Hx _]; [lia|]. unfold lvl_entries. rewrite (proj2 (Z.eqb_neq _ _)) by lia. unfold idx. lia. }
  split; fold h d2; try done.
  - lia.
  - intros _. split; [rewrite Ea; by eapply Hok|done].
  - intros Hk. rewrite Er, Ee, bool_decide_true by lia. cbn zeta. rewrite n_children_set, n_children_none; [done|].
    unfold nthZ. rewrite (proj2 (Z.leb_le _ _)) by lia. apply lookup_replicate_2. lia.
  - lia.
  - intros j c Hk Hj. rewrite Ek in Hk. rewrite Ee, bool_decide_true in Hj by lia. cbn zeta in Hj.
    destruct (decide (j = idx (Z.of_nat n + Z.of_nat i + 1))) as [->|Hne].
    + rewrite nthZ_setZ_eq in Hj by (rewrite length_replicate; lia). injection Hj as <-. assert (Hi' : (S i < length as_)%nat) by lia.
      destruct (lookup_lt_is_Some_2 as_ (S i) Hi') as (a' & Ha'). destruct (after_new (S i) a' Ha') as (y' & Hy' & [(par & Hpar & Hp) Hix' _ _ Hdy _ _]).
      replace (nx + Z.of_nat i + 1) with (nx + Z.of_nat (S i)) by lia. change (news nx as_ !! i = Some par) in Hpar. pose proof (news_lookup nx as_ i Hi).
      exists y'. repeat split; [done|lia|congruence|]. rewrite Hix'. f_equal. lia.
    + rewrite nthZ_setZ_ne in Hj by done. unfold nthZ in Hj. destruct (0 <=? j); [|done]. apply lookup_replicate_1 in Hj as [Hj _]. done.
Qed.

Lemma after_inv : tree_inv ge (bound + 1) t'.
Proof using All.
  assert (Hnext : pt_next t' = nx + Z.of_nat (length as_)).
  { rewrite (got_next _ _ _ _ _ _ _ _ _ _ Hgot). apply (ca_next _ _ _ _ _ _ _ Hc). }
  assert (Hlt : p < nx) by (eapply (ds_keys _ _ _ _ _ _ _ Hd), Hd). split.
  - destruct (ti_root _ _ _ Ht0) as (r & Hr & Hk). rewrite HD0 in Hr. destruct (after_keeps _ _ Hr) as (r' & Hr' & G). exists r'. by rewrite (gd_depth _ _ G).
  - intros x y Hx. rewrite Hnext. destruct (Z.lt_ge_cases x (nx + Z.of_nat (length as_))) as [|Hge]; [done|]. by rewrite after_none in Hx by done.
  - intros x y Hx. destruct (decide (x = p)) as [->|Hne]; [rewrite after_top in Hx; injection Hx as <-; apply inv_top|].
    destruct (Z.lt_ge_cases x nx) as [Hxn|Hxn]; [by apply inv_untouched|].
    destruct (Z.lt_ge_cases x (nx + Z.of_nat (length as_))) as [Hx2|Hge]; [|by rewrite after_none in Hx by done].
    destruct (lookup_lt_is_Some_2 as_ (Z.to_nat (x - nx))) as (a & Ha); [lia|]. destruct (after_new _ a Ha) as (y' & Hy' & Hn).
    replace x with (nx + Z.of_nat (Z.to_nat (x - nx))) in Hx |- * by lia. assert (y' = y) as -> by congruence. by eapply inv_new.
Qed.
End after.
