(* ===== verification/UvmPageTreeMemory.v ===== *)
(** The tables in memory: the commands of getting PTEs, and what the MMU finds when it
    walks the tables. *)

From S2P Require Import Prelude UvmBits UvmCommon UvmMmuHal UvmMmuHalCorrect UvmPush UvmHostTlb UvmTlbBatch UvmPteBatch UvmVaBlockCorrect UvmPageTree UvmPageTreeWalk UvmPageTreeGet UvmPageTreePush UvmPageTreeTurns UvmPageTreeInv.
Local Open Scope Z_scope.

(** ** Writing tables *)

Definition in_table (a : uvm_mmu_page_table_alloc_t) (ap : uvm_aperture_t) (y : Z) : Prop :=
  ap = pa_aperture a /\ pa_address a <= y < pa_address a + 4096.

Lemma tables_disjoint ge a b ap y : table_ok ge a -> table_ok ge b -> in_table a ap y -> in_table b ap y -> a = b.
Proof.
  intros (_ & _ & Ha) (_ & _ & Hb) [-> Hy] [E Hy']. change (2 ^ 12) with 4096 in *. destruct a as [ap a], b as [ap' b]. cbn in *. subst ap'. f_equal. div_lia.
Qed.

Lemma mem_fill (m : gpu_mem Z) ap addr w n ap' y :
  mem_block m ap addr (replicate n w) ap' y = if bool_decide (ap' = ap /\ addr <= y < addr + 8 * Z.of_nat n /\ (y - addr) mod 8 = 0) then w else m ap' y.
Proof.
  revert m addr. induction n as [|n IH]; intros m addr; cbn [replicate mem_block].
  - rewrite bool_decide_false; [done|]. lia.
  - rewrite IH. unfold mem_write, PTE_WORD. replace ((y - (addr + 8)) mod 8) with ((y - addr) mod 8) by div_lia. repeat case_bool_decide; try done; exfalso.
    + destruct H as (-> & ? & ?). apply H0. split; [done|]. split; [lia|done].
    + destruct H0 as (-> & ->). apply H1. split; [done|]. rewrite Z.sub_diag. split; [lia|done].
    + destruct H1 as (-> & ? & ?). destruct (decide (y = addr)) as [->|]; [by apply H0|]. apply H. split; [done|]. split; [div_lia|done].
Qed.

(** Commands that write nothing but tables of [as_]. *)
Definition cmd_in (as_ : list uvm_mmu_page_table_alloc_t) (c : push_cmd) : Prop :=
  match c with
  | CeMemset8 dst _ size => size mod 8 = 0 /\ 0 <= size /\
      exists a, a ∈ as_ /\ phys_aperture dst = pa_aperture a /\ pa_address a <= phys_address dst /\ phys_address dst + size <= pa_address a + 4096
  | CeMemcopy _ _ _ => False
  | _ => True
  end.

Lemma memset_run P dst w size (m : gpu_mem Z) : size mod 8 = 0 -> 0 <= size ->
  exists m', run_cmd P (CeMemset8 dst w size) m = Some m' /\
    forall ap y, m' ap y = if bool_decide (ap = phys_aperture dst /\ phys_address dst <= y < phys_address dst + size /\ (y - phys_address dst) mod 8 = 0) then w else m ap y.
Proof.
  intros Hs H0. cbn [run_cmd]. unfold PTE_WORD. rewrite (proj2 (Z.eqb_eq _ _) Hs). eexists. split; [done|]. intros ap y. rewrite mem_fill.
  replace (8 * Z.of_nat (Z.to_nat (size / 8))) with size by div_lia. done.
Qed.

Lemma run_in as_ P q (m : gpu_mem Z) : Forall (cmd_in as_) q ->
  exists m', run_cmds P q m = Some m' /\ forall ap y, (forall a, a ∈ as_ -> ~ in_table a ap y) -> m' ap y = m ap y.
Proof.
  intros Hq. revert m. induction Hq as [|c q Hc Hq IH]; intros m; [by exists m|]. cbn [run_cmds].
  assert (exists m1, run_cmd P c m = Some m1 /\ forall ap y, (forall a, a ∈ as_ -> ~ in_table a ap y) -> m1 ap y = m ap y) as (m1 & -> & H1).
  { destruct c as [ws|dst src size|dst w size| |mb|words]; try (by exists m). destruct Hc as (Hs & H0 & a & Ha & E1 & E2 & E3).
    destruct (memset_run P dst w size m Hs H0) as (m1 & Hm1 & Hx). exists m1. split; [done|]. intros ap y Hy. rewrite Hx, bool_decide_false; [done|].
    intros (-> & Hr & _). apply (Hy a Ha). split; [done|lia]. }
  cbn [mbind option_bind]. destruct (IH m1) as (m' & Hm' & H'). exists m'. split; [done|]. intros ap y Hy. by rewrite H', H1.
Qed.

Section commands.
Context (ge : gpu_env).

Lemma init_in k as_ : Forall (cmd_in as_) (init_cmds ge k as_).
Proof using.
  assert (H : forall l k, l ⊆ as_ -> Forall (cmd_in as_) (init_cmds ge k l)); [|by apply H].
  intros l. induction l as [|a l IH]; intros k' Hl; [done|]. cbn [init_cmds]. constructor; [|apply IH; set_solver]. cbn. split; [done|]. split; [done|].
  exists a. split; [set_solver|]. split; [done|lia].
Qed.

(** The new tables are cleared. *)
Lemma init_run P as_ k (m : gpu_mem Z) : Forall (table_ok ge) as_ -> NoDup as_ ->
  exists m', run_cmds P (init_cmds ge k as_) m = Some m' /\
    (forall i a j, as_ !! i = Some a -> 0 <= j < 512 -> m' (pa_aperture a) (pa_address a + j * 8) = clear_word ge (k + Z.of_nat i)) /\
    (forall ap y, (forall a, a ∈ as_ -> ~ in_table a ap y) -> m' ap y = m ap y).
Proof using.
  revert k m. induction as_ as [|a as_ IH]; intros k m Hok Hnd; [by exists m|]. apply Forall_cons in Hok as [Ha Hok]. apply NoDup_cons in Hnd as [Hn Hnd].
  cbn [init_cmds run_cmds]. destruct (memset_run P (table_addr a 0) (clear_word ge k) 4096 m eq_refl ltac:(lia)) as (m1 & -> & H1). cbn [mbind option_bind].
  cbn [table_addr phys_aperture phys_address] in H1. rewrite Z.add_0_r in H1. destruct (IH (k + 1) m1 Hok Hnd) as (m' & Hm' & Hin & Hout). exists m'. split; [done|]. split.
  - intros i b j Hi Hj. destruct i as [|i].
    + cbn in Hi. injection Hi as <-. rewrite Hout.
      * rewrite H1, bool_decide_true; [by rewrite Z.add_0_r|]. split; [done|]. split; [lia|]. replace (pa_address a + j * 8 - pa_address a) with (j * 8) by lia. apply Z_mod_mult.
      * intros b Hb Hy. apply Hn. rewrite Forall_forall in Hok.
        rewrite (tables_disjoint ge a b (pa_aperture a) (pa_address a + j * 8) Ha (Hok _ Hb)); [done| |done]. split; [done|lia].
    + rewrite (Hin i b j Hi Hj). f_equal. lia.
  - intros ap y Hy. rewrite Hout by (intros b Hb; apply Hy; set_solver). rewrite H1, bool_decide_false; [done|]. intros (-> & Hr & _).
    apply (Hy a ltac:(set_solver)). by split.
Qed.

Context (idx : Z -> Z).

Lemma links_in par k as_ : (forall j, k <= j < k + Z.of_nat (length as_) -> 0 <= idx j < 512) -> Forall (cmd_in (par :: as_)) (concat (reverse (links ge idx par k as_))).
Proof using.
  intros Hidx. apply Forall_concat, Forall_reverse. revert par k Hidx.
  assert (H : forall l par k S0, (forall j, k <= j < k + Z.of_nat (length l) -> 0 <= idx j < 512) -> par :: l ⊆ S0 -> Forall (Forall (cmd_in S0)) (links ge idx par k l)).
  { induction l as [|a l IH]; intros par k S0 Hidx HS; [done|]. cbn [links length] in *. constructor; [|apply IH; [intros j Hj; apply Hidx; lia|set_solver]].
    constructor; [|by constructor]. cbn. split; [done|]. split; [done|]. exists par. split; [set_solver|]. specialize (Hidx k ltac:(lia)). split; [done|lia]. }
  intros par k Hidx. by apply H.
Qed.

(** The entries of the parents are written. *)
Lemma links_run P as_ : forall par k (m : gpu_mem Z), (forall j, k <= j < k + Z.of_nat (length as_) -> 0 <= idx j < 512) ->
  Forall (table_ok ge) (par :: as_) -> NoDup (par :: as_) ->
  exists m', run_cmds P (concat (reverse (links ge idx par k as_))) m = Some m' /\
    (forall i a pa, as_ !! i = Some a -> (par :: as_) !! i = Some pa ->
       m' (pa_aperture pa) (pa_address pa + idx (k + Z.of_nat i) * 8) = pde_word ge (k + Z.of_nat i) (Some a)) /\
    (forall ap y, (forall i a pa, as_ !! i = Some a -> (par :: as_) !! i = Some pa -> ~ (ap = pa_aperture pa /\ y = pa_address pa + idx (k + Z.of_nat i) * 8)) -> m' ap y = m ap y).
Proof using.
  induction as_ as [|a as_ IH]; intros par k m Hidx Hok Hnd; [by exists m|]. apply Forall_cons in Hok as [Hp Hok]. apply NoDup_cons in Hnd as [Hn Hnd].
  cbn [links length] in *. rewrite reverse_cons, concat_app, run_cmds_app. cbn [concat]. rewrite app_nil_r.
  destruct (IH a (k + 1) m) as (m1 & -> & Hin & Hout); [intros j Hj; apply Hidx; lia|done|done|]. cbn [mbind option_bind link_cmds run_cmds].
  destruct (memset_run P (table_addr par (idx k * 8)) (pde_word ge k (Some a)) 8 m1 eq_refl ltac:(lia)) as (m' & -> & Hm). cbn [mbind option_bind run_cmd].
  cbn [table_addr phys_aperture phys_address] in Hm. pose proof (Hidx k ltac:(lia)) as Hk.
  assert (Hw : forall ap y, m' ap y = if bool_decide (ap = pa_aperture par /\ y = pa_address par + idx k * 8) then pde_word ge k (Some a) else m1 ap y).
  { intros ap y. rewrite Hm. assert (Hiff : (ap = pa_aperture par /\ pa_address par + idx k * 8 <= y < pa_address par + idx k * 8 + 8 /\ (y - (pa_address par + idx k * 8)) mod 8 = 0) <->
      (ap = pa_aperture par /\ y = pa_address par + idx k * 8)).
    { split; [intros (-> & H1 & H2); split; [done|]; div_lia|intros (-> & ->); rewrite Z.sub_diag; split; [done|]; split; [lia|done]]. }
    by rewrite (bool_decide_ext _ _ Hiff). }
  exists m'. split; [done|]. split.
  - intros i b pa Hi Hpa. rewrite Hw. destruct i as [|i].
    + cbn in Hi, Hpa. simplify_eq. rewrite Z.add_0_r. by rewrite bool_decide_true.
    + change ((a :: as_) !! i = Some pa) in Hpa. pose proof (lookup_lt_Some _ _ _ Hi) as Hlt. cbn [length] in Hlt.
      replace (k + Z.of_nat (S i)) with (k + 1 + Z.of_nat i) by lia. rewrite bool_decide_false; [by apply Hin|]. intros [E1 E2]. apply Hn.
      rewrite (tables_disjoint ge par pa (pa_aperture par) (pa_address par + idx k * 8)); [by eapply list_elem_of_lookup_2|done|by eapply Forall_lookup_1|split; [done|lia]|].
      split; [done|]. rewrite <- E2. specialize (Hidx (k + 1 + Z.of_nat i) ltac:(lia)). lia.
  - intros ap y Hy. rewrite Hw, bool_decide_false.
    + apply Hout. intros i b pa Hi Hpa. specialize (Hy (S i) b pa Hi Hpa). by replace (k + 1 + Z.of_nat i) with (k + Z.of_nat (S i)) by lia.
    + specialize (Hy 0%nat a par eq_refl eq_refl). by rewrite Z.add_0_r in Hy.
Qed.
End commands.

(** ** The tree in memory *)

Section mirror.
Context (ge : gpu_env).
Let h : uvm_mmu_mode_hal_t := hal_of (ge_ats ge) (ge_arch ge).
Let d2 : Z := depth_2m (ge_ats ge) (ge_arch ge).

Definition child_alloc (D : gmap Z uvm_page_directory_t) (o : option Z) : option uvm_mmu_page_table_alloc_t :=
  c ← o; e ← D !! c; Some (pd_phys_alloc e).

(** The tables above the 2MB entries hold what the directories say. *)
Definition mirrors (m : gpu_mem Z) (D : gmap Z uvm_page_directory_t) : Prop :=
  forall x e i o, D !! x = Some e -> pd_depth e < d2 -> nthZ (pd_entries e) i = Some o ->
    m (pa_aperture (pd_phys_alloc e)) (pa_address (pd_phys_alloc e) + i * 8) = pde_word ge (pd_depth e) (child_alloc D o).

(** The MMU goes down [n] levels from the table [a] at depth [k]. *)
Fixpoint mmu_walk (m : gpu_mem Z) (va : Z) (a : uvm_mmu_page_table_alloc_t) (k : Z) (n : nat) : option uvm_mmu_page_table_alloc_t :=
  match n with
  | O => Some a
  | S n' => children ← decode_pde (ge_arch ge) k [m (pa_aperture a) (pa_address a + lvl_index h va k * 8)];
            c ← mjoin (head children); mmu_walk m va c (k + 1) n'
  end.

(** It finds the directory that is on the path of the address. *)
Lemma mmu_walk_path m va bound t n : big_arch (ge_arch ge) = true -> tree_inv ge bound t -> mirrors m (pt_dirs t) -> forall p d k q,
  path ge va (pt_dirs t) p k n q -> pt_dirs t !! p = Some d ->
  exists e, pt_dirs t !! q = Some e /\ mmu_walk m va (pd_phys_alloc d) k n = Some (pd_phys_alloc e).
Proof using.
  intros Ha Ht Hm. induction n as [|n IH]; intros p d k q Hp Hd; [cbn in Hp; subst q; by exists d|].
  destruct Hp as (d' & c & A1 & A2 & A3 & A4 & A5). assert (d' = d) as -> by congruence.
  destruct (di_child _ _ _ _ _ (ti_dirs _ _ _ Ht _ _ Hd) _ _ ltac:(lia) A4) as (e & He & Ek & _).
  assert (Hok : table_ok ge (pd_phys_alloc e)) by (apply (di_table _ _ _ _ _ (ti_dirs _ _ _ Ht _ _ He)); lia).
  pose proof (Hm p d _ _ Hd ltac:(fold d2 in A3; lia) A4) as E. fold h in E. cbn [mmu_walk]. rewrite E, A2. cbn [child_alloc mbind option_bind]. rewrite He. cbn [mbind option_bind].
  destruct (pde_word_spec ge Ha k (Some (pd_phys_alloc e)) A3 Hok) as [_ ->]. cbn [mbind option_bind head hd_error mjoin option_join]. by eapply IH.
Qed.
End mirror.

(** New tables are apart from each other and from the tables of the tree. *)
Record tables_apart (ge : gpu_env) (D : gmap Z uvm_page_directory_t) (tables : list uvm_mmu_page_table_alloc_t) : Prop := {
  ta_nodup : NoDup tables;
  ta_new : forall x e, D !! x = Some e -> pd_depth e <= depth_2m (ge_ats ge) (ge_arch ge) -> pd_phys_alloc e ∉ tables;
  ta_old : forall x y e e', D !! x = Some e -> D !! y = Some e' -> pd_depth e <= depth_2m (ge_ats ge) (ge_arch ge) ->
    pd_depth e' <= depth_2m (ge_ats ge) (ge_arch ge) -> pd_phys_alloc e = pd_phys_alloc e' -> x = y;
}.

Section after.
Context (ge : gpu_env) (Harch : big_arch (ge_arch ge) = true) (va : Z).
Let h : uvm_mmu_mode_hal_t := hal_of (ge_ats ge) (ge_arch ge).
Let d2 : Z := depth_2m (ge_ats ge) (ge_arch ge).
Let idx : Z -> Z := lvl_index h va.
Let Hh : tree_geometry h d2 := hal_tree (ge_ats ge) (ge_arch ge) Harch.
Context (bound : Z) (t0 : page_tree) (Ht0 : tree_inv ge bound t0).
Let D0 : gmap Z uvm_page_directory_t := pt_dirs t0.
Let nx : Z := pt_next t0.
Context (n : nat) (p : Z) (d : uvm_page_directory_t) (Hd : descends ge va D0 nx n p d).
Context (as_ : list uvm_mmu_page_table_alloc_t) (t : page_tree) (cache : list (option Z)) (Hc : cached ge D0 nx n as_ t cache).
Context (Hlen : Z.of_nat n + Z.of_nat (length as_) = d2) (Hok : Forall (table_ok ge) as_) (Hap : tables_apart ge D0 as_).
Context (pdb : uvm_gpu_phys_address_t) (t' : page_tree) (Hgot : got ge va pdb nx n p d as_ t t').

Lemma old_ok x e : D0 !! x = Some e -> pd_depth e <= d2 -> table_ok ge (pd_phys_alloc e).
Proof using Ht0. intros Hx Hk. by apply (di_table _ _ _ _ _ (ti_dirs _ _ _ Ht0 _ _ Hx)). Qed.

(** The word of an entry of an old directory is in no new table. *)
Lemma old_apart x e i o a : D0 !! x = Some e -> pd_depth e < d2 -> nthZ (pd_entries e) i = Some o -> a ∈ as_ ->
  ~ in_table a (pa_aperture (pd_phys_alloc e)) (pa_address (pd_phys_alloc e) + i * 8).
Proof using All.
  intros Hx Hk Hi Ha Hin. apply (ta_new _ _ _ Hap x e Hx); [fold d2; lia|]. rewrite Forall_forall in Hok.
  assert (E : pd_phys_alloc e = a); [|by rewrite E]. eapply tables_disjoint; [eapply old_ok; [done|lia]|by apply Hok| |exact Hin]. split; [done|].
  apply nthZ_lt in Hi. rewrite (di_length _ _ _ _ _ (ti_dirs _ _ _ Ht0 _ _ Hx)) in Hi by (fold d2; lia). fold h d2 in Hi.
  pose proof (di_depth _ _ _ _ _ (ti_dirs _ _ _ Ht0 _ _ Hx)). destruct (idx_range h d2 Hh 0 (pd_depth e)) as [_ Hb]; [lia|].
  unfold lvl_entries in Hi. rewrite (proj2 (Z.eqb_neq _ _)) in Hi by lia. lia.
Qed.

(** Writes to new tables leave the old tree. *)
Lemma mirrors_old (m m' : gpu_mem Z) : mirrors ge m D0 -> (forall ap y, (forall a, a ∈ as_ -> ~ in_table a ap y) -> m' ap y = m ap y) -> mirrors ge m' D0.
Proof using All. intros Hm Hw x e i o Hx Hk Hi. rewrite Hw; [exact (Hm x e i o Hx Hk Hi)|]. intros a Ha. by eapply old_apart. Qed.

Lemma child_kept e i o : (exists x, D0 !! x = Some e) -> pd_depth e < d2 -> nthZ (pd_entries e) i = Some o -> child_alloc (pt_dirs t') o = child_alloc D0 o.
Proof using All.
  intros (x & Hx) Hk Hi. destruct o as [c|]; [|done]. destruct (di_child _ _ _ _ _ (ti_dirs _ _ _ Ht0 _ _ Hx) _ _ Hk Hi) as (y & Hy & _). fold D0 in Hy.
  destruct (after_keeps ge Harch va D0 nx n p d Hd as_ t cache Hc Hlen pdb t' Hgot c y Hy) as (y' & Hy' & G). cbn [child_alloc mbind option_bind].
  rewrite Hy, Hy'. cbn [mbind option_bind]. by rewrite (gd_alloc _ _ _ G).
Qed.

Lemma small_index j : Z.of_nat n <= j < d2 -> 0 <= idx j < 512.
Proof using All. intros Hj. destruct (idx_range h d2 Hh va j) as [? ?]; [lia|]. unfold idx. lia. Qed.

Lemma top_apart : as_ <> [] -> NoDup (pd_phys_alloc d :: as_) /\ Forall (table_ok ge) (pd_phys_alloc d :: as_).
Proof using All.
  intros _. pose proof (ds_dir _ _ _ _ _ _ _ Hd) as Hp. pose proof (ds_depth _ _ _ _ _ _ _ Hd) as Hk. pose proof (ds_range _ _ _ _ _ _ _ Hd) as Hr. fold d2 in Hr. split.
  - constructor; [|apply Hap]. apply (ta_new _ _ _ Hap p d Hp). fold d2. lia.
  - constructor; [|done]. apply (old_ok p d Hp). lia.
Qed.

(** Memory [m1] holds the cleared new tables, [m2] also the entries of the chain. *)
Section written.
Context (m0 m1 m2 : gpu_mem Z) (Hm0 : mirrors ge m0 D0) (Hne : as_ <> []).
Context (Hclear : forall i a j, as_ !! i = Some a -> 0 <= j < 512 -> m1 (pa_aperture a) (pa_address a + j * 8) = clear_word ge (Z.of_nat n + 1 + Z.of_nat i)).
Context (Hrest1 : forall ap y, (forall a, a ∈ as_ -> ~ in_table a ap y) -> m1 ap y = m0 ap y).
Context (Hlink : forall i a pa, as_ !! i = Some a -> (pd_phys_alloc d :: as_) !! i = Some pa ->
  m2 (pa_aperture pa) (pa_address pa + idx (Z.of_nat n + Z.of_nat i) * 8) = pde_word ge (Z.of_nat n + Z.of_nat i) (Some a)).
Context (Hrest2 : forall ap y, (forall i a pa, as_ !! i = Some a -> (pd_phys_alloc d :: as_) !! i = Some pa ->
  ~ (ap = pa_aperture pa /\ y = pa_address pa + idx (Z.of_nat n + Z.of_nat i) * 8)) -> m2 ap y = m1 ap y).

(** The entry of a new table is written if it is the one of the next table. *)
Lemma new_word i a j : as_ !! i = Some a -> 0 <= j < 512 -> (S i < length as_)%nat -> j <> idx (Z.of_nat n + Z.of_nat i + 1) ->
  m2 (pa_aperture a) (pa_address a + j * 8) = clear_word ge (Z.of_nat n + Z.of_nat i + 1).
Proof using All.
  intros Hi Hj Hlt Hne'. rewrite Hrest2; [rewrite (Hclear i a j Hi Hj); f_equal; lia|]. intros i' a' pa Hi' Hpa [E1 E2]. destruct (top_apart Hne) as [Hnd Hall].
  pose proof (lookup_lt_Some _ _ _ Hi') as Hlt'. pose proof (small_index (Z.of_nat n + Z.of_nat i') ltac:(lia)) as Hs.
  assert (Ea : a = pa).
  { eapply (tables_disjoint ge a pa (pa_aperture a) (pa_address a + j * 8)); [exact (Forall_lookup_1 _ _ _ _ Hok Hi)|exact (Forall_lookup_1 _ _ _ _ Hall Hpa)|split; [done|lia]|]. split; [done|lia]. }
  subst pa. assert (i' = S i) as -> by (eapply NoDup_lookup; [exact Hnd|exact Hpa|done]). apply Hne'.
  replace (Z.of_nat n + Z.of_nat i + 1) with (Z.of_nat n + Z.of_nat (S i)) by lia. lia.
Qed.

(** The words of old entries are kept, but for the one that points to the first new table. *)
Lemma old_word x e i o : D0 !! x = Some e -> pd_depth e < d2 -> nthZ (pd_entries e) i = Some o -> ~ (x = p /\ i = idx (Z.of_nat n)) ->
  m2 (pa_aperture (pd_phys_alloc e)) (pa_address (pd_phys_alloc e) + i * 8) = pde_word ge (pd_depth e) (child_alloc (pt_dirs t') o).
Proof using All.
  intros Hx Hk Hi Hne'. rewrite (child_kept e i o) by (done || by exists x). rewrite Hrest2, Hrest1; [exact (Hm0 x e i o Hx Hk Hi)|intros a Ha; by eapply old_apart|].
  intros j a pa Hj Hpa [E1 E2]. pose proof (lookup_lt_Some _ _ _ Hj) as Hlt. pose proof (small_index (Z.of_nat n + Z.of_nat j) ltac:(lia)) as Hs.
  destruct j as [|j].
  - cbn in Hpa. injection Hpa as <-. apply Hne'. rewrite Z.add_0_r in E2, Hs. pose proof (ds_dir _ _ _ _ _ _ _ Hd) as Hp. pose proof (ds_depth _ _ _ _ _ _ _ Hd) as Hkd.
    apply nthZ_lt in Hi. rewrite (di_length _ _ _ _ _ (ti_dirs _ _ _ Ht0 _ _ Hx)) in Hi by (fold d2; lia). fold h d2 in Hi.
    pose proof (di_depth _ _ _ _ _ (ti_dirs _ _ _ Ht0 _ _ Hx)) as Hk0. destruct (idx_range h d2 Hh 0 (pd_depth e)) as [_ Hb]; [lia|].
    unfold lvl_entries in Hi. rewrite (proj2 (Z.eqb_neq _ _)) in Hi by lia.
    assert (Ea : pd_phys_alloc e = pd_phys_alloc d).
    { eapply (tables_disjoint ge _ _ (pa_aperture (pd_phys_alloc e)) (pa_address (pd_phys_alloc e) + i * 8)); [apply (old_ok x); [done|lia]|apply (old_ok p); [done|lia]|split; [done|lia]|split; [done|lia]]. }
    split; [|rewrite Ea in E2; lia]. eapply (ta_old _ _ _ Hap); [exact Hx|exact Hp|fold d2; lia|fold d2; lia|done].
  - eapply (old_apart x e i o pa Hx Hk Hi); [by eapply list_elem_of_lookup_2|]. rewrite E2. split; [done|lia].
Qed.

Lemma mirrors_new : mirrors ge m2 (pt_dirs t').
Proof using All.
  pose proof (after_keeps ge Harch va D0 nx n p d Hd as_ t cache Hc Hlen pdb t' Hgot) as Hkeep. pose proof (ds_keys _ _ _ _ _ _ _ Hd) as Hkeys.
  pose proof (ds_dir _ _ _ _ _ _ _ Hd) as Hp. pose proof (after_new ge Harch va D0 nx n p d Hd as_ t cache Hc Hlen pdb t' Hgot) as Hnew.
  assert (Halloc : forall i a, as_ !! i = Some a -> child_alloc (pt_dirs t') (Some (nx + Z.of_nat i)) = Some a).
  { intros i a Hi. destruct (Hnew i a Hi) as (y & Hy & Hn). cbn [child_alloc mbind option_bind]. rewrite Hy. cbn [mbind option_bind]. by rewrite (nd_alloc _ _ _ _ _ _ _ _ _ Hn). }
  intros x e i o Hx Hk Hi. fold d2 in Hk. destruct (decide (x = p)) as [->|Hxp].
  - pose proof (after_top ge Harch va D0 nx n p d Hd as_ t cache Hc Hlen pdb t' Hgot) as Htop. rewrite Htop in Hx. injection Hx as <-.
    assert (Htl : top_after ge va nx n d as_ = linked d (idx (Z.of_nat n)) nx) by (unfold top_after; clear -Hne; by destruct as_).
    assert (exists a, as_ !! 0%nat = Some a) as (a & Ha) by (clear -Hne; destruct as_; [done|by eexists]). rewrite Htl in *.
    cbn [linked set_entries set_ref_count pd_entries pd_depth pd_phys_alloc] in Hk, Hi |- *.
    destruct (decide (i = idx (Z.of_nat n))) as [->|Hni].
    + rewrite nthZ_setZ_eq in Hi; [|apply nthZ_lt in Hi; by rewrite length_setZ in Hi]. injection Hi as <-. pose proof (Hlink 0%nat a _ Ha eq_refl) as Hw. rewrite Z.add_0_r in Hw.
      rewrite Hw. specialize (Halloc 0%nat a Ha). rewrite Z.add_0_r in Halloc. rewrite Halloc. by rewrite (ds_depth _ _ _ _ _ _ _ Hd).
    + rewrite nthZ_setZ_ne in Hi by done. eapply old_word; [done|done|done|]. by intros [_ ?].
  - destruct (Z.lt_ge_cases x nx) as [Hxn|Hxn].
    + rewrite (after_old ge va D0 nx n p d as_ t cache Hc pdb t' Hgot) in Hx by done. eapply old_word; [done|done|done|]. by intros [? _].
    + destruct (Z.lt_ge_cases x (nx + Z.of_nat (length as_))) as [Hx2|Hge]; [|by rewrite (after_none ge va D0 nx n p d Hd as_ t cache Hc pdb t' Hgot) in Hx].
      destruct (lookup_lt_is_Some_2 as_ (Z.to_nat (x - nx))) as (a & Ha); [lia|]. destruct (Hnew _ a Ha) as (y & Hy & Hn).
      set (k := Z.to_nat (x - nx)) in *. assert (Ex : x = nx + Z.of_nat k) by lia. assert (y = e) as -> by congruence. destruct Hn as [_ _ Ea _ Ek _ Ee]. rewrite Ea, Ek in *.
      assert (Hlt : (S k < length as_)%nat) by lia. fold h d2 idx in Ee. rewrite Ee, bool_decide_true in Hi by done. cbn zeta in Hi.
      pose proof (small_index (Z.of_nat n + Z.of_nat k + 1) ltac:(lia)) as Hs. destruct (idx_range h d2 Hh va (Z.of_nat n + Z.of_nat k + 1)) as [Hir Hib]; [lia|].
      assert (Hle : lvl_entries h d2 (Z.of_nat n + Z.of_nat k + 1) = 2 ^ lvl_bits h (Z.of_nat n + Z.of_nat k + 1)).
      { unfold lvl_entries. rewrite (proj2 (Z.eqb_neq _ _)) by lia. lia. }
      destruct (decide (i = idx (Z.of_nat n + Z.of_nat k + 1))) as [->|Hni].
      * rewrite nthZ_setZ_eq in Hi by (rewrite length_replicate; unfold idx in *; lia). injection Hi as <-.
        destruct (lookup_lt_is_Some_2 as_ (S k) Hlt) as (b & Hb). pose proof (Hlink (S k) b a Hb Ha) as Hw. specialize (Halloc (S k) b Hb).
        replace (Z.of_nat n + Z.of_nat (S k)) with (Z.of_nat n + Z.of_nat k + 1) in Hw by lia. replace (nx + Z.of_nat k + 1) with (nx + Z.of_nat (S k)) by lia.
        by rewrite Hw, Halloc.
      * rewrite nthZ_setZ_ne in Hi by done. pose proof (nthZ_lt _ _ _ Hi) as Hir2. rewrite length_replicate in Hir2.
        unfold nthZ in Hi. destruct (0 <=? i); [|done]. apply lookup_replicate_1 in Hi as [-> _].
        rewrite (new_word k a i) by (done || lia). unfold clear_word. rewrite (proj2 (Z.eqb_neq _ _)) by (fold d2; lia). done.
Qed.

(** A new table of 2MB entries is empty. *)
Lemma new_table_zero i a : as_ !! i = Some a -> S i = length as_ -> forall j, 0 <= j < 512 -> m2 (pa_aperture a) (pa_address a + j * 8) = 0.
Proof using All.
  intros Hi Hl j Hj. rewrite Hrest2.
  - rewrite (Hclear i a j Hi Hj). unfold clear_word. rewrite (proj2 (Z.eqb_eq _ _)) by (fold d2; lia). done.
  - intros i' a' pa Hi' Hpa [E1 E2]. destruct (top_apart Hne) as [Hnd Hall]. pose proof (lookup_lt_Some _ _ _ Hi') as Hlt'.
    pose proof (small_index (Z.of_nat n + Z.of_nat i') ltac:(lia)) as Hs. assert (Ea : a = pa).
    { eapply (tables_disjoint ge a pa (pa_aperture a) (pa_address a + j * 8)); [exact (Forall_lookup_1 _ _ _ _ Hok Hi)|exact (Forall_lookup_1 _ _ _ _ Hall Hpa)|split; [done|lia]|]. split; [done|lia]. }
    subst pa. assert (i' = S i) as -> by (eapply NoDup_lookup; [exact Hnd|exact Hpa|done]). lia.
Qed.
End written.

(** The commands in order. *)
Lemma push_after push : as_ <> [] -> push_of ge idx pdb (pd_phys_alloc d) (Z.of_nat n) as_ push -> forall m0, mirrors ge m0 D0 ->
  exists m, run_push push m0 = Some m /\ mirrors ge m (pt_dirs t').
Proof using All.
  intros Hne (b & b' & words & ops & Epush & _) m0 Hm0. destruct (top_apart Hne) as [Hnd Hall].
  destruct (init_run ge push as_ (Z.of_nat n + 1) m0 Hok (ta_nodup _ _ _ Hap)) as (m1 & E1 & C1 & R1).
  destruct (links_run ge idx push as_ (pd_phys_alloc d) (Z.of_nat n) m1) as (m2 & E2 & C2 & R2); [intros j Hj; apply small_index; lia|done|done|].
  exists m2. split; [|by eapply mirrors_new]. unfold run_push. rewrite Epush at 2. rewrite run_cmds_app, E1. cbn [mbind option_bind].
  rewrite run_cmds_app. cbn [run_cmds run_cmd mbind option_bind]. by rewrite run_cmds_app, E2.
Qed.

(** When nothing is missing the memory need not change. *)
Lemma mirrors_found (m : gpu_mem Z) : as_ = [] -> mirrors ge m D0 -> mirrors ge m (pt_dirs t').
Proof using All.
  intros E Hm x e i o Hx Hk Hi. fold d2 in Hk. destruct (decide (x = p)) as [->|Hxp].
  - pose proof (after_top ge Harch va D0 nx n p d Hd as_ t cache Hc Hlen pdb t' Hgot) as Htop. rewrite Htop in Hx. injection Hx as <-.
    assert (Et : top_after ge va nx n d as_ = set_ref_count (pd_ref_count d + 1) d) by (by rewrite E). rewrite Et in *. cbn [set_ref_count pd_depth pd_entries pd_phys_alloc] in *.
    rewrite (child_kept d i o) by (done || (exists p; apply Hd)). exact (Hm p d i o (ds_dir _ _ _ _ _ _ _ Hd) Hk Hi).
  - destruct (Z.lt_ge_cases x nx) as [Hxn|Hxn].
    + rewrite (after_old ge va D0 nx n p d as_ t cache Hc pdb t' Hgot) in Hx by done. rewrite (child_kept e i o) by (done || by exists x). exact (Hm x e i o Hx Hk Hi).
    + rewrite (after_none ge va D0 nx n p d Hd as_ t cache Hc pdb t' Hgot) in Hx; [done|]. rewrite E. cbn [length]. lia.
Qed.

(** A directory is an old one or one of the new ones. *)
Lemma after_origin x e : pt_dirs t' !! x = Some e ->
  (exists d0, D0 !! x = Some d0 /\ pd_phys_alloc e = pd_phys_alloc d0 /\ pd_depth e = pd_depth d0) \/
  (exists i, as_ !! i = Some (pd_phys_alloc e) /\ x = nx + Z.of_nat i).
Proof using All.
  intros Hx. destruct (Z.lt_ge_cases x nx) as [Hxn|Hxn].
  - left. destruct (D0 !! x) as [d0|] eqn:E.
    + destruct (after_keeps ge Harch va D0 nx n p d Hd as_ t cache Hc Hlen pdb t' Hgot x d0 E) as (e' & He' & G). assert (e' = e) as -> by congruence.
      exists d0. split; [done|]. split; [apply G|apply G].
    + destruct (decide (x = p)) as [->|Hne]; [pose proof (ds_dir _ _ _ _ _ _ _ Hd); congruence|].
      rewrite (after_old ge va D0 nx n p d as_ t cache Hc pdb t' Hgot) in Hx by done. congruence.
  - right. destruct (Z.lt_ge_cases x (nx + Z.of_nat (length as_))) as [Hx2|Hge]; [|by rewrite (after_none ge va D0 nx n p d Hd as_ t cache Hc pdb t' Hgot) in Hx].
    destruct (lookup_lt_is_Some_2 as_ (Z.to_nat (x - nx))) as (a & Ha); [lia|].
    destruct (after_new ge Harch va D0 nx n p d Hd as_ t cache Hc Hlen pdb t' Hgot _ a Ha) as (y & Hy & Hn). exists (Z.to_nat (x - nx)).
    assert (Ex : x = nx + Z.of_nat (Z.to_nat (x - nx))) by lia. rewrite <- Ex in Hy. assert (y = e) as -> by congruence. by rewrite (nd_alloc _ _ _ _ _ _ _ _ _ Hn).
Qed.

(** The tables that are left are apart from the tree. *)
Lemma after_apart tables j : as_ = take j tables -> tables_apart ge D0 tables -> tables_apart ge (pt_dirs t') (drop j tables).
Proof using All.
  intros E [A1 A2 A3]. rewrite <- (take_drop j tables) in A1. apply NoDup_app in A1 as (N1 & N2 & N3).
  assert (Hin : forall i a, as_ !! i = Some a -> a ∈ take j tables) by (intros i a Hi; rewrite <- E; by eapply list_elem_of_lookup_2).
  assert (Hsub : forall a, a ∈ take j tables \/ a ∈ drop j tables -> a ∈ tables) by (intros a Ha; rewrite <- (take_drop j tables); by apply elem_of_app).
  split; [done| |].
  - intros x e Hx Hk Hdrop. destruct (after_origin x e Hx) as [(d0 & H1 & H2 & H3)|(i & Hi & _)].
    + apply (A2 x d0 H1); [congruence|]. apply Hsub. right. by rewrite <- H2.
    + exact (N2 _ (Hin _ _ Hi) Hdrop).
  - intros x y e e' Hx Hy Hk Hk' Eq. destruct (after_origin x e Hx) as [(d0 & H1 & H2 & H3)|(i & Hi & ->)], (after_origin y e' Hy) as [(d1 & G1 & G2 & G3)|(i' & Hi' & ->)].
    + apply (A3 x y d0 d1 H1 G1); congruence.
    + exfalso. apply (A2 x d0 H1); [congruence|]. apply Hsub. left. rewrite <- H2, Eq. by eapply Hin.
    + exfalso. apply (A2 y d1 G1); [congruence|]. apply Hsub. left. rewrite <- G2, <- Eq. by eapply Hin.
    + rewrite E in Hi, Hi'. rewrite <- Eq in Hi'. do 2 f_equal. eapply NoDup_lookup; [exact N1|done|done].
Qed.
End after.
