(* ===== verification/UvmPageTreeCorrect.v ===== *)
(** Correctness of getting the 2MB entry of an address from the page tree.  With memory
    for the directories that are missing, [uvm_page_tree_get_ptes] returns the entry found by
    descending the tree and keeps all that the tree had and its invariant.  Without, the
    tree is as it was. *)

From S2P Require Import Prelude UvmBits UvmCommon UvmMmuHal UvmMmuHalCorrect UvmPush UvmHostTlb UvmTlbBatch UvmPteBatch UvmVaBlockCorrect UvmPageTree UvmPageTreeWalk UvmPageTreeGet UvmPageTreePush UvmPageTreeTurns UvmPageTreeInv UvmPageTreeMemory.
Local Open Scope Z_scope.

(** A GPU that works, and a 2MB address. *)
Record tree_env (ge : gpu_env) (num : Z) (pdb : uvm_gpu_phys_address_t) (va : Z) : Prop := {
  te_arch : big_arch (ge_arch ge) = true;
  te_aligned : va mod 2097152 = 0;
  te_range : 0 <= va /\ va + 2097152 <= 2 ^ 63;
  te_can_address : ge_can_address ge va UVM_PAGE_SIZE_2M = true;
  te_pdb : pdb_ok pdb;
  te_num : 0 <= num /\ room [] (num + 2);
  te_tlb : tlb_tree_of (ge_arch ge) (ge_ats ge) num pdb = Some (ge_tlb ge);
  te_begin : ge_begin ge = NV_OK;
  te_wait : ge_tree_wait ge = NV_OK;
}.

(** The next allocations give tables, enough for every level. *)
Definition tables_for (ge : gpu_env) (t : page_tree) (tables : list uvm_mmu_page_table_alloc_t) : Prop :=
  (exists rest, pt_allocs t = (Some <$> tables) ++ rest) /\ depth_2m (ge_ats ge) (ge_arch ge) <= Z.of_nat (length tables) /\ Forall (table_ok ge) tables.

Section get_ptes.
Context (ge : gpu_env) (num : Z) (pdb : uvm_gpu_phys_address_t) (va : Z) (Henv : tree_env ge num pdb va).
Let h : uvm_mmu_mode_hal_t := hal_of (ge_ats ge) (ge_arch ge).
Let d2 : Z := depth_2m (ge_ats ge) (ge_arch ge).

Lemma cached_start n t : cached ge (pt_dirs t) (pt_next t) n [] t (replicate 5 None).
Proof using.
  split; cbn [added length]; try done; [lia|]. intros i Hi. unfold nthZ. rewrite (proj2 (Z.leb_le 0 i)) by lia. rewrite lookup_replicate_2 by lia.
  destruct (Z.leb_spec (Z.of_nat n) i), (Z.ltb_spec i (Z.of_nat n + Z.of_nat 0)); try done. lia.
Qed.

(** What getting the entry makes of the tree. *)
Lemma get_ptes_run bound t tables :
  tree_inv ge bound t -> 0 <= bound < 2 ^ 32 - 1 -> tables_for ge t tables ->
  exists n p d as_ t1 cache t', descends ge va (pt_dirs t) (pt_next t) n p d /\ table_ok ge (pd_phys_alloc d) /\
    as_ = take (Z.to_nat d2 - n) tables /\ Z.of_nat n + Z.of_nat (length as_) = d2 /\ Forall (table_ok ge) as_ /\
    cached ge (pt_dirs t) (pt_next t) n as_ t1 cache /\ got ge va pdb (pt_next t) n p d as_ t1 t' /\ pt_pushes t1 = pt_pushes t /\
    (exists rest, pt_allocs t' = (Some <$> drop (Z.to_nat d2 - n) tables) ++ rest) /\
    uvm_page_tree_get_ptes ge UVM_PAGE_SIZE_2M va UVM_PAGE_SIZE_2M t =
      Ok (NV_OK, Some (PtRange (end_ptr (pt_next t) p as_) (lvl_index h va d2) 1 UVM_PAGE_SIZE_2M)) t'.
Proof using Henv.
  intros Ht Hb ((rest & Hall) & Hlen & Hok). destruct Henv as [E1 E2 [E3 E3'] E4 E5 [E6 E6'] E7 E8 E9].
  destruct (descent ge E1 va bound ltac:(lia) t Ht) as (n & p & d & Hd). pose proof (ds_range _ _ _ _ _ _ _ Hd) as Hn. fold d2 in Hn, Hlen.
  assert (Hpa : table_ok ge (pd_phys_alloc d)).
  { apply (di_table _ _ _ _ _ (ti_dirs _ _ _ Ht _ _ (ds_dir _ _ _ _ _ _ _ Hd))). rewrite (ds_depth _ _ _ _ _ _ _ Hd). done. }
  assert (Hlen' : Z.of_nat n + Z.of_nat (length (take (Z.to_nat d2 - n) tables)) = d2) by (rewrite length_take; lia).
  assert (Hok' : Forall (table_ok ge) (take (Z.to_nat d2 - n) tables)) by (by apply Forall_take).
  assert (Hwp : wp (uvm_page_tree_get_ptes_async ge UVM_PAGE_SIZE_2M va UVM_PAGE_SIZE_2M)
    (fun r t' => exists t1 cache, pt_allocs t1 = (Some <$> drop (Z.to_nat d2 - n) tables) ++ rest /\ cached ge (pt_dirs t) (pt_next t) n (take (Z.to_nat d2 - n) tables) t1 cache /\ pt_pushes t1 = pt_pushes t /\
       got ge va pdb (pt_next t) n p d (take (Z.to_nat d2 - n) tables) t1 t' /\
       r = (NV_OK, Some (PtRange (end_ptr (pt_next t) p (take (Z.to_nat d2 - n) tables)) (lvl_index h va d2) 1 UVM_PAGE_SIZE_2M))) (fun _ _ => False) t).
  { eapply (wp_get_ptes_retry ge E1 va E2 E3 E3' E4 num pdb E5 E6 E6' E7 E8 _ (pt_dirs t) (pt_next t) n p d Hd Hpa (take (Z.to_nat d2 - n) tables)
      ((Some <$> drop (Z.to_nat d2 - n) tables) ++ rest) _ _ []); [apply cached_start|cbn [length]; fold d2; lia|done| | |].
    - pose proof (tg_range _ _ (hal_tree (ge_ats ge) (ge_arch ge) E1)). fold d2 in H. change (Z.to_nat MAX_OPERATION_DEPTH + 1)%nat with 6%nat. lia.
    - rewrite Hall, app_assoc, <- fmap_app, take_drop. done.
    - intros t1 t' cache' A1 A0 A2 A3. by exists t1, cache'. }
  unfold wp in Hwp. destruct (uvm_page_tree_get_ptes_async _ _ _ _ t) as [r t'|] eqn:Er; [|done]. destruct Hwp as (t1 & cache & A0 & A1 & A2 & A3 & ->).
  exists n, p, d, (take (Z.to_nat d2 - n) tables), t1, cache, t'. do 8 (split; [done|]). split; [exists rest; by rewrite (got_allocs _ _ _ _ _ _ _ _ _ _ A3)|]. unfold uvm_page_tree_get_ptes, mbind'. rewrite Er. cbn [fst snd].
  by rewrite decide_True, E9.
Qed.
End get_ptes.

Lemma path_prefix ge va D p k n m q : path ge va D p k n q -> (m <= n)%nat -> exists q', path ge va D p k m q'.
Proof.
  revert p k n. induction m as [|m IH]; intros p k n Hp Hm; [by exists p|]. destruct n as [|n]; [lia|]. destruct Hp as (d & c & A1 & A2 & A3 & A4 & A5).
  destruct (IH c (k + 1) n A5 ltac:(lia)) as (q' & Hq'). exists q', d, c. done.
Qed.

Fixpoint run_pushes (l : list cmds) (m : gpu_mem Z) : option (gpu_mem Z) :=
  match l with
  | [] => Some m
  | push :: l' => m ← run_push push m; run_pushes l' m
  end.

Lemma tables_apart_take ge D tables k : tables_apart ge D tables -> tables_apart ge D (take k tables).
Proof.
  intros [A1 A2 A3]. split; [| |done].
  - rewrite <- (take_drop k tables) in A1. by apply NoDup_app in A1 as [? _].
  - intros x e Hx Hk Hin. apply (A2 x e Hx Hk). rewrite <- (take_drop k tables). apply elem_of_app. by left.
Qed.

(** ** What the page tree promises its clients *)

(** The 2MB entry of the address is in the table [q] of the tree [t']: the entry that the
    tree had, or one of a new table, which has no children.  [tables] is the memory for
    tables, the tree takes at most one table for each level. *)
Record entry_ready (ge : gpu_env) (va bound : Z) (t : page_tree) (tables : list uvm_mmu_page_table_alloc_t) (q : Z) (t' : page_tree) : Prop := {
  er_run : uvm_page_tree_get_ptes ge UVM_PAGE_SIZE_2M va UVM_PAGE_SIZE_2M t =
    Ok (NV_OK, Some (PtRange q (lvl_index (hal_of (ge_ats ge) (ge_arch ge)) va (depth_2m (ge_ats ge) (ge_arch ge))) 1 UVM_PAGE_SIZE_2M)) t';
  er_inv : tree_inv ge (bound + 1) t';
  er_path : path ge va (pt_dirs t') (ge_root ge) 0 (Z.to_nat (depth_2m (ge_ats ge) (ge_arch ge))) q;
  er_dir : exists e, pt_dirs t' !! q = Some e /\ pd_depth e = depth_2m (ge_ats ge) (ge_arch ge) /\
    ((exists d, pt_dirs t !! q = Some d /\ path ge va (pt_dirs t) (ge_root ge) 0 (Z.to_nat (depth_2m (ge_ats ge) (ge_arch ge))) q /\ pd_entries e = pd_entries d) \/
     exists l, pd_entries e = replicate l None);
  er_allocs : exists j rest, Z.of_nat j <= depth_2m (ge_ats ge) (ge_arch ge) /\ pt_allocs t' = (Some <$> drop j tables) ++ rest /\ tables_apart ge (pt_dirs t') (drop j tables);
  er_root : forall d, pt_dirs t !! ge_root ge = Some d -> exists d', pt_dirs t' !! ge_root ge = Some d' /\ pd_phys_alloc d' = pd_phys_alloc d;
  er_memory : exists new, pt_pushes t' = pt_pushes t ++ new /\
    forall m0, mirrors ge m0 (pt_dirs t) -> exists m, run_pushes new m0 = Some m /\ mirrors ge m (pt_dirs t');
}.

Lemma get_ptes_ready ge num pdb va bound t tables :
  tree_env ge num pdb va -> tree_inv ge bound t -> 0 <= bound < 2 ^ 32 - 1 -> tables_for ge t tables -> tables_apart ge (pt_dirs t) tables ->
  exists q t', entry_ready ge va bound t tables q t'.
Proof.
  intros Henv Ht Hb Htab Hap. destruct (get_ptes_run ge num pdb va Henv bound t tables Ht Hb Htab) as (n & p & d & as_ & t1 & cache & t' & Hd & Hpa & Eas & Hlen & Hok & Hc & Hgot & Hps & (rest & Hall) & Hrun).
  pose proof (te_arch _ _ _ _ Henv) as Ha. assert (Hap' : tables_apart ge (pt_dirs t) as_) by (rewrite Eas; by apply tables_apart_take).
  pose proof (tg_range _ _ (hal_tree (ge_ats ge) (ge_arch ge) Ha)) as Hr. exists (end_ptr (pt_next t) p as_), t'. split.
  - exact Hrun.
  - eapply (after_inv ge Ha va (pt_dirs t) (pt_next t) n p d Hd as_ t1 cache Hc Hlen pdb t' Hgot bound ltac:(lia) t Ht); done.
  - exact (after_path ge Ha va _ _ n p d Hd as_ t1 cache Hc Hlen pdb t' Hgot).
  - destruct (decide (as_ = [])) as [E|Hne].
    + pose proof (after_top ge Ha va _ _ n p d Hd as_ t1 cache Hc Hlen pdb t' Hgot) as Htop. rewrite E in *. change (end_ptr (pt_next t) p []) with p.
      cbn [length] in Hlen. rewrite Z.add_0_r in Hlen. eexists. split; [exact Htop|]. cbn [top_after set_ref_count pd_depth pd_entries]. rewrite (ds_depth _ _ _ _ _ _ _ Hd). split; [done|].
      left. exists d. split; [apply Hd|]. split; [|done]. rewrite <- Hlen, Nat2Z.id. apply Hd.
    + rewrite end_ptr_news by done. destruct (last as_) as [a|] eqn:El; [|by apply last_None in El]. rewrite last_lookup in El.
      destruct (after_new ge Ha va _ _ n p d Hd as_ t1 cache Hc Hlen pdb t' Hgot _ a El) as (y & Hy & Hn). exists y. assert (0 < length as_)%nat by (destruct as_; [done|cbn; lia]).
      replace (pt_next t + Z.of_nat (length as_) - 1) with (pt_next t + Z.of_nat (pred (length as_))) by lia. split; [done|].
      rewrite (nd_depth _ _ _ _ _ _ _ _ _ Hn), (nd_entries _ _ _ _ _ _ _ _ _ Hn), bool_decide_false by lia. split; [lia|]. right. by eexists.
  - exists (Z.to_nat (depth_2m (ge_ats ge) (ge_arch ge)) - n)%nat, rest. split; [lia|]. split; [done|].
    by eapply (after_apart ge Ha va bound t Ht n p d Hd as_ t1 cache Hc Hlen Hok Hap' pdb t' Hgot).
  - intros r Hroot. destruct (after_keeps ge Ha va _ _ n p d Hd as_ t1 cache Hc Hlen pdb t' Hgot _ r Hroot) as (r' & Hr' & G). exists r'. split; [done|apply G].
  - destruct (got_pushes _ _ _ _ _ _ _ _ _ _ Hgot) as (new & Enew & Hnew). rewrite Hps in Enew. exists new. split; [done|]. intros m0 Hm0. destruct (decide (as_ = [])) as [E|Hne].
    + assert (Enil : new = []) by (by rewrite E in Hnew). rewrite Enil. exists m0. split; [done|].
      by eapply (mirrors_found ge Ha va bound t Ht n p d Hd as_ t1 cache Hc Hlen Hok Hap' pdb t' Hgot).
    + assert (exists push, new = [push] /\ push_of ge (lvl_index (hal_of (ge_ats ge) (ge_arch ge)) va) pdb (pd_phys_alloc d) (Z.of_nat n) as_ push) as (push & -> & Hpush).
      { clear -Hnew Hne. destruct as_; [done|exact Hnew]. }
      destruct (push_after ge Ha va bound t Ht n p d Hd as_ t1 cache Hc Hlen Hok Hap' pdb t' Hgot push Hne Hpush m0 Hm0) as (m & Hm & Hmir).
      exists m. split; [cbn [run_pushes]; by rewrite Hm|done].
Qed.

(** ** The theorems *)

(** C19. Getting the 2MB entry of an address from the page tree, with memory for the directories
    that are missing, succeeds: the range returned is the entry of the address in a
    table that is now found by descending the tree from its root, and has one more
    reference.  All that the tree had is kept, entries of directories are only added, and
    the invariant of the tree holds again: every directory above the 2MB entries counts
    its children, which know their place.  Directories are missing at any number of levels,
    and the retry loop ends within its fuel. *)
Theorem get_ptes_correct ge num pdb va bound t tables :
  tree_env ge num pdb va -> tree_inv ge bound t -> 0 <= bound < 2 ^ 32 - 1 -> tables_for ge t tables ->
  let d2 := depth_2m (ge_ats ge) (ge_arch ge) in
  exists q e t', uvm_page_tree_get_ptes ge UVM_PAGE_SIZE_2M va UVM_PAGE_SIZE_2M t =
      Ok (NV_OK, Some (PtRange q (lvl_index (hal_of (ge_ats ge) (ge_arch ge)) va d2) 1 UVM_PAGE_SIZE_2M)) t' /\
    path ge va (pt_dirs t') (ge_root ge) 0 (Z.to_nat d2) q /\
    pt_dirs t' !! q = Some e /\ pd_ref_count e = default 0 (pd_ref_count <$> pt_dirs t !! q) + 1 /\
    tree_inv ge (bound + 1) t' /\
    (forall x d, pt_dirs t !! x = Some d -> exists d', pt_dirs t' !! x = Some d' /\ grown_dir ge d d').
Proof.
  intros Henv Ht Hb Htab d2. destruct (get_ptes_run ge num pdb va Henv bound t tables Ht Hb Htab) as (n & p & d & as_ & t1 & cache & t' & Hd & Hpa & Eas & Hlen & Hok & Hc & Hgot & _ & _ & Hrun).
  pose proof (te_arch _ _ _ _ Henv) as Ha.
  exists (end_ptr (pt_next t) p as_). pose proof (after_path ge Ha va _ _ n p d Hd as_ t1 cache Hc Hlen pdb t' Hgot) as Hpath.
  assert (exists e, pt_dirs t' !! end_ptr (pt_next t) p as_ = Some e /\ pd_ref_count e = default 0 (pd_ref_count <$> pt_dirs t !! end_ptr (pt_next t) p as_) + 1) as (e & He & Er).
  { destruct (decide (as_ = [])) as [E|Hne].
    - pose proof (after_top ge Ha va _ _ n p d Hd as_ t1 cache Hc Hlen pdb t' Hgot) as Htop. rewrite E in *. change (end_ptr (pt_next t) p []) with p.
      eexists. split; [exact Htop|]. by rewrite (ds_dir _ _ _ _ _ _ _ Hd).
    - rewrite end_ptr_news by done. destruct (last as_) as [a|] eqn:El; [|by apply last_None in El]. rewrite last_lookup in El.
      destruct (after_new ge Ha va _ _ n p d Hd as_ t1 cache Hc Hlen pdb t' Hgot _ a El) as (y & Hy & Hn). exists y. assert (0 < length as_)%nat by (destruct as_; [done|cbn; lia]).
      replace (pt_next t + Z.of_nat (length as_) - 1) with (pt_next t + Z.of_nat (pred (length as_))) by lia. split; [done|]. rewrite (nd_refs _ _ _ _ _ _ _ _ _ Hn).
      destruct (pt_dirs t !! _) eqn:E; [|done]. pose proof (ti_keys _ _ _ Ht _ _ E). lia. }
  exists e, t'. do 4 (split; [done|]). split.
  - eapply (after_inv ge Ha va (pt_dirs t) (pt_next t) n p d Hd as_ t1 cache Hc Hlen pdb t' Hgot bound ltac:(lia) t Ht); done.
  - intros x y Hx. by eapply (after_keeps ge Ha va (pt_dirs t) (pt_next t) n p d Hd as_ t1 cache Hc Hlen pdb t' Hgot).
Qed.

(** C21. When the memory for a directory that is missing cannot be allocated, getting PTEs fails
    and leaves the tree as it was: what earlier turns linked is undone and the directories
    they made are freed. *)
Theorem get_ptes_no_memory ge num pdb va bound t tables rest :
  tree_env ge num pdb va -> tree_inv ge bound t -> 0 <= bound < 2 ^ 32 - 1 -> pt_allocs t = (Some <$> tables) ++ None :: rest ->
  (forall q, ~ path ge va (pt_dirs t) (ge_root ge) 0 (Z.to_nat (depth_2m (ge_ats ge) (ge_arch ge)) - length tables) q) ->
  exists next, uvm_page_tree_get_ptes ge UVM_PAGE_SIZE_2M va UVM_PAGE_SIZE_2M t = Ok (NV_ERR_NO_MEMORY, None) (PageTree (pt_dirs t) next rest (pt_pushes t)).
Proof.
  intros Henv Ht Hb Hall Hmiss. destruct Henv as [E1 E2 [E3 E3'] E4 E5 [E6 E6'] E7 E8 E9].
  destruct (descent ge E1 va bound ltac:(lia) t Ht) as (n & p & d & Hd). pose proof (tg_range _ _ (hal_tree (ge_ats ge) (ge_arch ge) E1)) as Hr.
  assert (Hn : Z.of_nat n + Z.of_nat (length tables) < depth_2m (ge_ats ge) (ge_arch ge)).
  { destruct (decide (Z.to_nat (depth_2m (ge_ats ge) (ge_arch ge)) - length tables <= n)%nat) as [Hle|]; [|lia].
    destruct (path_prefix _ _ _ _ _ _ _ _ (ds_path _ _ _ _ _ _ _ Hd) Hle) as (q & Hq). by destruct (Hmiss q). }
  assert (Hwp : wp (uvm_page_tree_get_ptes_async ge UVM_PAGE_SIZE_2M va UVM_PAGE_SIZE_2M)
    (fun r t' => r = (NV_ERR_NO_MEMORY, None) /\ exists next, t' = PageTree (pt_dirs t) next rest (pt_pushes t)) (fun _ _ => False) t).
  { eapply (wp_get_ptes_no_memory ge E1 va E2 E3 E3' E4 _ (pt_dirs t) (pt_next t) n p d Hd tables rest _ _ []); [apply cached_start|cbn [length]; lia| |done|].
    - change (Z.to_nat MAX_OPERATION_DEPTH + 1)%nat with 6%nat. lia.
    - intros next _. split; [done|by exists next]. }
  unfold wp in Hwp. destruct (uvm_page_tree_get_ptes_async _ _ _ _ t) as [r t'|] eqn:Er; [|done]. destruct Hwp as (-> & next & ->). exists next.
  unfold uvm_page_tree_get_ptes, mbind'. by rewrite Er.
Qed.

(** ** An example *)

(** A page tree of one empty root directory, and the memory of four tables. *)
Definition demo_root : uvm_page_directory_t := PageDir None 0 (PtAlloc UVM_APERTURE_VID 65536) 4096 0 0 (replicate 4 None).
Definition demo_page_tree : page_tree :=
  PageTree {[1000 := demo_root]} 1001
    [Some (PtAlloc UVM_APERTURE_VID 131072); Some (PtAlloc UVM_APERTURE_VID 135168);
     Some (PtAlloc UVM_APERTURE_VID 1048576); Some (PtAlloc UVM_APERTURE_VID 2097152)] [].
Definition demo_dirs : list uvm_mmu_page_table_alloc_t :=
  [PtAlloc UVM_APERTURE_VID 131072; PtAlloc UVM_APERTURE_VID 135168; PtAlloc UVM_APERTURE_VID 1048576].

Definition demo_pdb : uvm_gpu_phys_address_t := PhysAddr 65536 UVM_APERTURE_VID.
Definition demo_tlb : tlb_tree :=
  TlbTree demo_pdb (page_table_depth (hal_of false AAmpere)) tlb_props_ampere
    (uvm_hal_ampere_host_tlb_invalidate_all 0) (uvm_hal_ampere_host_tlb_invalidate_va 0).
Definition demo_gpu (debug : bool) : gpu_env :=
  GpuEnv AAmpere false debug demo_tlb 1000 NV_OK NV_OK (fun addr size => addr + size <=? 2 ^ 47) false.

Lemma demo_env : tree_env (demo_gpu false) 0 demo_pdb (2 ^ 30).
Proof. split; try done. split; [by left|done]. Qed.

Lemma demo_inv t : pt_dirs t = {[1000 := demo_root]} -> 1000 < pt_next t -> tree_inv (demo_gpu false) 0 t.
Proof.
  intros Hd Hn. split.
  - exists demo_root. by rewrite Hd.
  - intros p d Hp. rewrite Hd in Hp. by apply lookup_singleton_Some in Hp as [<- _].
  - intros p d Hp. rewrite Hd in Hp. apply lookup_singleton_Some in Hp as [<- <-]. split; try done.
    + intros _. split; [|done]. split; [by right|done].
    + intros i c _ Hi. unfold nthZ in Hi. destruct (0 <=? i); [|done]. by apply lookup_replicate_1 in Hi as [? _].
Qed.

Lemma demo_tables_for : tables_for (demo_gpu false) demo_page_tree demo_dirs.
Proof.
  split; [by exists [Some (PtAlloc UVM_APERTURE_VID 2097152)]|]. split; [done|]. repeat constructor; by right || done.
Qed.

Lemma demo_apart : tables_apart (demo_gpu false) (pt_dirs demo_page_tree) demo_dirs.
Proof.
  change (pt_dirs demo_page_tree) with ({[1000 := demo_root]} : gmap Z uvm_page_directory_t). split.
  - apply NoDup_ListNoDup. repeat constructor; cbn; intuition discriminate.
  - intros x e Hx _. apply lookup_singleton_Some in Hx as [<- <-]. intros H%list_elem_of_In. cbn in H. intuition discriminate.
  - intros x y e e' Hx Hy _ _ _. apply lookup_singleton_Some in Hx as [<- _]. by apply lookup_singleton_Some in Hy as [<- _].
Qed.

Lemma get_ptes_correct_witness :
  exists q e t', uvm_page_tree_get_ptes (demo_gpu false) UVM_PAGE_SIZE_2M (2 ^ 30) UVM_PAGE_SIZE_2M demo_page_tree =
      Ok (NV_OK, Some (PtRange q (lvl_index (hal_of false AAmpere) (2 ^ 30) 3) 1 UVM_PAGE_SIZE_2M)) t' /\
    path (demo_gpu false) (2 ^ 30) (pt_dirs t') 1000 0 3 q /\ pt_dirs t' !! q = Some e /\
    pd_ref_count e = default 0 (pd_ref_count <$> pt_dirs demo_page_tree !! q) + 1 /\ tree_inv (demo_gpu false) (0 + 1) t' /\
    (forall x d, pt_dirs demo_page_tree !! x = Some d -> exists d', pt_dirs t' !! x = Some d' /\ grown_dir (demo_gpu false) d d').
Proof.
  exact (get_ptes_correct (demo_gpu false) 0 demo_pdb (2 ^ 30) 0 demo_page_tree demo_dirs demo_env (demo_inv demo_page_tree eq_refl eq_refl)
    (conj (Z.le_refl 0) eq_refl) demo_tables_for).
Defined.

(** The memory of one table only. *)
Definition demo_short : page_tree := PageTree {[1000 := demo_root]} 1001 [Some (PtAlloc UVM_APERTURE_VID 131072); None] [].

Lemma get_ptes_no_memory_witness :
  exists next, uvm_page_tree_get_ptes (demo_gpu false) UVM_PAGE_SIZE_2M (2 ^ 30) UVM_PAGE_SIZE_2M demo_short =
    Ok (NV_ERR_NO_MEMORY, None) (PageTree {[1000 := demo_root]} next [] []).
Proof.
  apply (get_ptes_no_memory (demo_gpu false) 0 demo_pdb (2 ^ 30) 0 demo_short [PtAlloc UVM_APERTURE_VID 131072] [] demo_env (demo_inv demo_short eq_refl eq_refl)
    (conj (Z.le_refl 0) eq_refl) eq_refl).
  intros q (d & c & Hd & _ & _ & Hc & _). change (({[1000 := demo_root]} : gmap Z uvm_page_directory_t) !! 1000 = Some d) in Hd. apply lookup_singleton_Some in Hd as [_ <-]. vm_compute in Hc. discriminate.
Defined.
