(* ===== verification/UvmPageTreeAtomic.v ===== *)
(** The push of getting PTEs on a copy engine that writes in any order: while it runs, the
    MMU finds at every address what it found before or what it finds after, or faults, but
    never a table that is not ready. *)

From S2P Require Import Prelude UvmBits UvmCommon UvmMmuHal UvmMmuHalCorrect UvmPush UvmHostTlb UvmTlbBatch UvmPteBatch UvmCopyEngine UvmVaBlockCorrect UvmPageTree UvmPageTreeWalk UvmPageTreeGet UvmPageTreePush UvmPageTreeTurns UvmPageTreeInv UvmPageTreeMemory UvmPageTreeCorrect.
Local Open Scope Z_scope.

(** ** The words of the commands *)

Lemma elem_of_fill ap addr v n ap' y w :
  WordWrite ap' y w ∈ word_writes ap addr (replicate n v) <-> ap' = ap /\ w = v /\ exists j, 0 <= j < Z.of_nat n /\ y = addr + j * 8.
Proof.
  revert addr. induction n as [|n IH]; intros addr; cbn [replicate word_writes].
  - split; [by intros ?%not_elem_of_nil|]. intros (_ & _ & j & Hj & _). lia.
  - rewrite elem_of_cons, IH. unfold PTE_WORD. split.
    + intros [[= -> -> ->]|(-> & -> & j & Hj & ->)]; (split; [done|]; split; [done|]); [exists 0; lia|exists (j + 1); lia].
    + intros (-> & -> & j & Hj & ->). destruct (decide (j = 0)) as [->|]; [left; f_equal; lia|]. right. split; [done|]. split; [done|]. exists (j - 1). lia.
Qed.

Section words.
Context (ge : gpu_env) (idx : Z -> Z) (P : cmds).

Lemma elem_of_init as_ k ap y w : WordWrite ap y w ∈ writes P (init_cmds ge k as_) <->
  exists i a j, as_ !! i = Some a /\ 0 <= j < 512 /\ ap = pa_aperture a /\ y = pa_address a + j * 8 /\ w = clear_word ge (k + Z.of_nat i).
Proof using.
  revert k. induction as_ as [|a as_ IH]; intros k; cbn [init_cmds].
  - split; [by intros ?%not_elem_of_nil|]. by intros (i & a & j & Hi & _).
  - unfold writes. cbn [mbind list_bind]. fold (writes P (init_cmds ge (k + 1) as_)). rewrite elem_of_app, IH. cbn [cmd_writes table_addr phys_aperture phys_address].
    change (Z.to_nat (4096 / PTE_WORD)) with 512%nat. rewrite elem_of_fill, Z.add_0_r. split.
    + intros [(-> & -> & j & Hj & ->)|(i & b & j & Hi & Hj & -> & -> & ->)].
      * exists 0%nat, a, j. rewrite Z.add_0_r. done.
      * exists (S i), b, j. do 4 (split; [done|]). f_equal. lia.
    + intros ([|i] & b & j & Hi & Hj & -> & -> & ->); cbn in Hi; [injection Hi as <-|].
      * left. rewrite Z.add_0_r. split; [done|]. split; [done|]. by exists j.
      * right. exists i, b, j. do 4 (split; [done|]). f_equal. lia.
Qed.

Lemma elem_of_links as_ par k ap y w : WordWrite ap y w ∈ writes P (concat (reverse (links ge idx par k as_))) <->
  exists i a pa, as_ !! i = Some a /\ (par :: as_) !! i = Some pa /\ ap = pa_aperture pa /\ y = pa_address pa + idx (k + Z.of_nat i) * 8 /\ w = pde_word ge (k + Z.of_nat i) (Some a).
Proof using.
  revert par k. induction as_ as [|a as_ IH]; intros par k; cbn [links].
  - split; [by intros ?%not_elem_of_nil|]. by intros (i & a & j & Hi & _).
  - rewrite reverse_cons, concat_app, writes_app, elem_of_app, IH. cbn [concat app]. unfold writes, link_cmds. cbn [mbind list_bind app cmd_writes table_addr phys_aperture phys_address].
    rewrite app_nil_r. change (Z.to_nat (8 / PTE_WORD)) with 1%nat. rewrite elem_of_fill. split.
    + intros [(i & b & pa & Hi & Hpa & -> & -> & ->)|(-> & -> & j & Hj & ->)].
      * exists (S i), b, pa. by replace (k + Z.of_nat (S i)) with (k + 1 + Z.of_nat i) by lia.
      * exists 0%nat, a, par. rewrite Z.add_0_r. do 3 (split; [done|]). split; [lia|done].
    + intros ([|i] & b & pa & Hi & Hpa & -> & -> & ->); cbn in Hi.
      * right. cbn in Hpa. simplify_eq. rewrite Z.add_0_r. split; [done|]. split; [done|]. exists 0. lia.
      * left. exists i, b, pa. by replace (k + Z.of_nat (S i)) with (k + 1 + Z.of_nat i) by lia.
Qed.

(** The membar after the commands is wide enough. *)
Lemma sys_covers (q : cmds) :
  Forall (fun c => match c with CeMemset8 dst _ _ => phys_aperture dst = UVM_APERTURE_SYS \/ phys_aperture dst = UVM_APERTURE_VID | CeMemcopy _ _ _ => False | _ => True end) q ->
  Forall (fun w => membar_covers (sys_if (existsb writes_sys q)) (ww_aperture w) = true) (writes P q).
Proof using.
  intros Hq. destruct (existsb writes_sys q) eqn:E; [by apply Forall_forall|]. cbn [sys_if membar_covers].
  apply Forall_bind. rewrite Forall_forall in Hq |- *. intros c Hc. specialize (Hq c Hc). apply Forall_forall. intros [ap y w] Hw.
  destruct c as [ws|dst src size|dst v size| |mb|words]; cbn [cmd_writes] in Hw; try by apply not_elem_of_nil in Hw; done. 1: done.
  apply elem_of_fill in Hw as (-> & _). cbn [ww_aperture]. destruct Hq as [Hq|Hq]; rewrite Hq; [|done].
  assert (existsb writes_sys q = true); [|congruence]. apply existsb_exists. exists (CeMemset8 dst v size). split; [by apply list_elem_of_In|]. cbn. by rewrite Hq.
Qed.
End words.

(** The entry without a child is the same word at every level above the 2MB entries. *)
Lemma pde_none ge k : big_arch (ge_arch ge) = true -> 0 <= k < depth_2m (ge_ats ge) (ge_arch ge) -> pde_word ge k None = pde_word ge 0 None.
Proof.
  intros Ha Hk. assert (Hd : depth_2m (ge_ats ge) (ge_arch ge) <= 4) by (clear -Ha; destruct (ge_ats ge), (ge_arch ge); done).
  assert (H : k = 0 \/ k = 1 \/ k = 2 \/ k = 3) by lia. clear Hd. unfold pde_word. revert Hk. destruct H as [-> |[-> |[-> | ->]]]; clear -Ha; destruct (ge_ats ge), (ge_arch ge); done.
Qed.

(** ** Walks *)

Section walk.
Context (ge : gpu_env) (Harch : big_arch (ge_arch ge) = true) (va : Z).
Let h : uvm_mmu_mode_hal_t := hal_of (ge_ats ge) (ge_arch ge).
Let d2 : Z := depth_2m (ge_ats ge) (ge_arch ge).

(** The word of an entry of a directory. *)
Definition entry_word (m : gpu_mem Z) (e : uvm_page_directory_t) (i : Z) : Z := m (pa_aperture (pd_phys_alloc e)) (pa_address (pd_phys_alloc e) + i * 8).

(** What the MMU finds with [m], which holds a part of the tree, it finds with [m'] if [m']
    agrees on that part. *)
Lemma walk_le (m m' : gpu_mem Z) bound t : tree_inv ge bound t ->
  (forall x e i o, pt_dirs t !! x = Some e -> pd_depth e < d2 -> nthZ (pd_entries e) i = Some o ->
     (entry_word m e i = pde_word ge (pd_depth e) (child_alloc (pt_dirs t) o) /\ (o <> None -> entry_word m' e i = entry_word m e i)) \/
     entry_word m e i = pde_word ge (pd_depth e) None) ->
  forall n x e a, pt_dirs t !! x = Some e -> pd_depth e + Z.of_nat n <= d2 ->
    mmu_walk ge m va (pd_phys_alloc e) (pd_depth e) n = Some a ->
    mmu_walk ge m' va (pd_phys_alloc e) (pd_depth e) n = Some a /\ exists y d, pt_dirs t !! y = Some d /\ pd_depth d <= d2 /\ pd_phys_alloc d = a.
Proof using Harch.
  intros Ht Hw n. induction n as [|n IH]; intros x e a Hx Hn.
  - cbn [mmu_walk]. intros [= <-]. split; [done|]. exists x, e. split; [done|]. split; [lia|done].
  - pose proof (di_depth _ _ _ _ _ (ti_dirs _ _ _ Ht _ _ Hx)) as H0. assert (Hk : 0 <= pd_depth e < d2) by lia.
    destruct (dir_entry ge Harch va bound t Ht x e Hx Hk) as (o & Ho). fold h in Ho. cbn [mmu_walk]. fold h.
    destruct (pde_word_spec ge Harch (pd_depth e) None Hk I) as [_ Hnone]. pose proof (Hw x e _ o Hx ltac:(lia) Ho) as Hwo. unfold entry_word in Hwo.
    destruct Hwo as [[Ew Ew']|Ew]; [|rewrite Ew, Hnone; done]. destruct o as [c|]; [|cbn [child_alloc mbind option_bind] in Ew; rewrite Ew, Hnone; done].
    rewrite Ew' by done. rewrite Ew. destruct (di_child _ _ _ _ _ (ti_dirs _ _ _ Ht _ _ Hx) _ _ ltac:(fold d2; lia) Ho) as (y & Hy & Ek & _).
    assert (Hok : table_ok ge (pd_phys_alloc y)) by (apply (di_table _ _ _ _ _ (ti_dirs _ _ _ Ht _ _ Hy)); fold d2; lia).
    cbn [child_alloc mbind option_bind]. rewrite Hy. cbn [mbind option_bind]. destruct (pde_word_spec ge Harch (pd_depth e) (Some (pd_phys_alloc y)) Hk Hok) as [_ ->].
    cbn [mbind option_bind head hd_error mjoin option_join]. rewrite <- Ek. intros Hwalk. eapply IH; [exact Hy|lia|exact Hwalk].
Qed.

(** From the root. *)
Lemma walk_root (m m' : gpu_mem Z) bound t : tree_inv ge bound t ->
  (forall x e i o, pt_dirs t !! x = Some e -> pd_depth e < d2 -> nthZ (pd_entries e) i = Some o ->
     (entry_word m e i = pde_word ge (pd_depth e) (child_alloc (pt_dirs t) o) /\ (o <> None -> entry_word m' e i = entry_word m e i)) \/
     entry_word m e i = pde_word ge (pd_depth e) None) ->
  forall n r a, pt_dirs t !! ge_root ge = Some r -> pd_depth r = 0 -> Z.of_nat n <= d2 -> mmu_walk ge m va (pd_phys_alloc r) 0 n = Some a ->
    mmu_walk ge m' va (pd_phys_alloc r) 0 n = Some a /\ exists y d, pt_dirs t !! y = Some d /\ pd_depth d <= d2 /\ pd_phys_alloc d = a.
Proof using Harch. intros Ht Hw n r a Hr Hr0 Hn. rewrite <- Hr0. apply (walk_le m m' bound t Ht Hw n _ r a Hr). lia. Qed.
End walk.

(** ** The push *)

Section push.
Context (ge : gpu_env) (Harch : big_arch (ge_arch ge) = true) (va : Z).
Let h : uvm_mmu_mode_hal_t := hal_of (ge_ats ge) (ge_arch ge).
Let d2 : Z := depth_2m (ge_ats ge) (ge_arch ge).
Let idx : Z -> Z := lvl_index h va.
Let Hh : tree_geometry h d2 := hal_tree (ge_ats ge) (ge_arch ge) Harch.
Context (bound : Z) (t0 : page_tree) (Ht0 : tree_inv ge bound t0).
Let D0 : gmap Z uvm_page_directory_t := pt_dirs t0.
Let nx : Z := pt_next t0.
Context (n : nat) (p : Z) (d : uvm_page_directory_t) (Hd : descends ge va D0 nx n p d).
Context (as_ : list uvm_mmu_page_table_alloc_t) (t : page_tree) (cache : list (option Z)) (Hc : cached ge D0 nx n as_ t cache).
Context (Hlen : Z.of_nat n + Z.of_nat (length as_) = d2) (Hok : Forall (table_ok ge) as_) (Hap : tables_apart ge D0 as_).
Context (pdb : uvm_gpu_phys_address_t) (t' : page_tree) (Hgot : got ge va pdb nx n p d as_ t t').
Context (Hne : as_ <> []) (m0 : gpu_mem Z) (Hm0 : mirrors ge m0 D0).
Let A : cmds := init_cmds ge (Z.of_nat n + 1) as_.
Let B : cmds := concat (reverse (links ge idx (pd_phys_alloc d) (Z.of_nat n) as_)).
Context (P : cmds).

(** The address of an entry that is written. *)
Definition link_at (ap : uvm_aperture_t) (y : Z) : Prop :=
  exists i a pa, as_ !! i = Some a /\ (pd_phys_alloc d :: as_) !! i = Some pa /\ ap = pa_aperture pa /\ y = pa_address pa + idx (Z.of_nat n + Z.of_nat i) * 8.

Lemma index_small j : Z.of_nat n <= j < d2 -> 0 <= idx j < 512.
Proof using All. apply (small_index ge Harch va bound t0 Ht0 n p d Hd as_ t cache Hc Hlen Hok Hap pdb t' Hgot). Qed.

Lemma chain_apart : NoDup (pd_phys_alloc d :: as_) /\ Forall (table_ok ge) (pd_phys_alloc d :: as_).
Proof using All. exact (top_apart ge Harch va bound t0 Ht0 n p d Hd as_ t cache Hc Hlen Hok Hap pdb t' Hgot Hne). Qed.

(** Two tables of the chain that share a word are the same. *)
Lemma same_table i j a b y y' : (pd_phys_alloc d :: as_) !! i = Some a -> (pd_phys_alloc d :: as_) !! j = Some b -> pa_aperture a = pa_aperture b ->
  pa_address a + y * 8 = pa_address b + y' * 8 -> 0 <= y < 512 -> 0 <= y' < 512 -> i = j /\ y = y'.
Proof using All.
  intros Hi Hj E1 E2 Hy Hy'. destruct chain_apart as [Hnd Hall]. assert (E : a = b).
  { eapply (tables_disjoint ge a b (pa_aperture a) (pa_address a + y * 8)); [exact (Forall_lookup_1 _ _ _ _ Hall Hi)|exact (Forall_lookup_1 _ _ _ _ Hall Hj)|split; [done|lia]|split; [done|lia]]. }
  subst b. split; [by eapply NoDup_lookup|lia].
Qed.

Lemma init_unmixed : unmixed (writes P A).
Proof using All.
  intros ap y w w' (i & a & j & Hi & Hj & -> & -> & ->)%elem_of_init (i' & a' & j' & Hi' & Hj' & E1 & E2 & ->)%elem_of_init.
  destruct (same_table (S i) (S i') a a' j j') as [E _]; [done..|]. by injection E as ->.
Qed.

Lemma links_unmixed : unmixed (writes P B).
Proof using All.
  intros ap y w w' (i & a & pa & Hi & Hpa & -> & -> & ->)%elem_of_links (i' & a' & pa' & Hi' & Hpa' & E1 & E2 & ->)%elem_of_links.
  pose proof (lookup_lt_Some _ _ _ Hi). pose proof (lookup_lt_Some _ _ _ Hi').
  destruct (same_table i i' pa pa' _ _ Hpa Hpa' E1 E2) as [-> _]; [apply index_small; lia|apply index_small; lia|]. congruence.
Qed.

(** The memory with the cleared tables, and with all entries. *)
Section memory.
Context (m1 : gpu_mem Z) (H1 : applied m0 (writes P A) m1).

Lemma cleared i a j : as_ !! i = Some a -> 0 <= j < 512 -> m1 (pa_aperture a) (pa_address a + j * 8) = clear_word ge (Z.of_nat n + 1 + Z.of_nat i).
Proof using All. intros Hi Hj. apply (ap_done _ _ _ H1), elem_of_init. by exists i, a, j. Qed.

Lemma rest1 ap y : (forall a, a ∈ as_ -> ~ in_table a ap y) -> m1 ap y = m0 ap y.
Proof using All.
  intros Hy. apply (ap_rest _ _ _ H1). intros w (i & a & j & Hi & Hj & -> & -> & _)%elem_of_init. apply (Hy a); [by eapply list_elem_of_lookup_2|]. split; [done|lia].
Qed.

(** The entries that are written had no child. *)
Lemma link_none ap y : link_at ap y -> m1 ap y = pde_word ge 0 None.
Proof using All.
  intros (i & a & pa & Hi & Hpa & -> & ->). pose proof (lookup_lt_Some _ _ _ Hi) as Hlt. pose proof (index_small (Z.of_nat n + Z.of_nat i) ltac:(lia)) as Hs. destruct i as [|i].
  - injection Hpa as <-. rewrite Z.add_0_r in *. pose proof (ds_dir _ _ _ _ _ _ _ Hd) as Hp. pose proof (ds_missing _ _ _ _ _ _ _ Hd ltac:(fold d2; lia)) as [L1 L2 L3 L4].
    fold h idx in L4. rewrite rest1.
    + rewrite (Hm0 p d _ None Hp ltac:(fold d2; lia) L4). cbn [child_alloc mbind option_bind]. rewrite L1. by apply pde_none; [|fold d2; lia].
    + intros b Hb. eapply (old_apart ge Harch va bound t0 Ht0 n p d Hd as_ t cache Hc Hlen Hok Hap pdb t' Hgot p d); [done|fold d2; lia|exact L4|done].
  - change (as_ !! i = Some pa) in Hpa. rewrite (cleared i pa) by done. unfold clear_word. rewrite (proj2 (Z.eqb_neq _ _)) by (fold d2; lia). by apply pde_none; [|fold d2; lia].
Qed.

Context (m2 : gpu_mem Z) (H2 : applied m1 (writes P B) m2).

Lemma linked_word i a pa : as_ !! i = Some a -> (pd_phys_alloc d :: as_) !! i = Some pa ->
  m2 (pa_aperture pa) (pa_address pa + idx (Z.of_nat n + Z.of_nat i) * 8) = pde_word ge (Z.of_nat n + Z.of_nat i) (Some a).
Proof using All. intros Hi Hpa. apply (ap_done _ _ _ H2), elem_of_links. by exists i, a, pa. Qed.

Lemma rest2 ap y : ~ link_at ap y -> m2 ap y = m1 ap y.
Proof using All. intros Hy. apply (ap_rest _ _ _ H2). intros w (i & a & pa & Hi & Hpa & -> & -> & _)%elem_of_links. apply Hy. by exists i, a, pa. Qed.

Lemma rest2' ap y : (forall i a pa, as_ !! i = Some a -> (pd_phys_alloc d :: as_) !! i = Some pa -> ~ (ap = pa_aperture pa /\ y = pa_address pa + idx (Z.of_nat n + Z.of_nat i) * 8)) -> m2 ap y = m1 ap y.
Proof using All. intros Hy. apply rest2. intros (i & a & pa & Hi & Hpa & E1 & E2). by apply (Hy i a pa Hi Hpa). Qed.

Lemma all_written : mirrors ge m2 (pt_dirs t').
Proof using All.
  exact (mirrors_new ge Harch va bound t0 Ht0 n p d Hd as_ t cache Hc Hlen Hok Hap pdb t' Hgot m0 m1 m2 Hm0 Hne cleared rest1 linked_word rest2').
Qed.

Lemma leaf_zero i a : as_ !! i = Some a -> S i = length as_ -> forall j, 0 <= j < 512 -> m2 (pa_aperture a) (pa_address a + j * 8) = 0 /\ ~ link_at (pa_aperture a) (pa_address a + j * 8).
Proof using All.
  intros Hi Hl j Hj. split.
  - exact (new_table_zero ge Harch va bound t0 Ht0 n p d Hd as_ t cache Hc Hlen Hok Hap pdb t' Hgot m0 m1 m2 Hm0 Hne cleared rest1 linked_word rest2' i a Hi Hl j Hj).
  - intros (i' & a' & pa & Hi' & Hpa & E1 & E2). pose proof (lookup_lt_Some _ _ _ Hi'). destruct (same_table (S i) i' a pa _ _ Hi Hpa E1 E2) as [E _]; [done|apply index_small; lia|]. lia.
Qed.
End memory.

Lemma link_dec ap y : link_at ap y \/ ~ link_at ap y.
Proof using All.
  destruct (decide ((ap, y) ∈ (fun w => (ww_aperture w, ww_address w)) <$> writes P B)) as [Hin|Hin]; [left|right].
  - apply list_elem_of_fmap in Hin as ([ap' y' w] & [= -> ->] & (i & a & pa & Hi & Hpa & -> & -> & _)%elem_of_links). by exists i, a, pa.
  - intros (i & a & pa & Hi & Hpa & -> & ->). apply Hin, list_elem_of_fmap. eexists (WordWrite _ _ _). split; [reflexivity|]. apply elem_of_links. by exists i, a, pa.
Qed.

(** All entries can be written. *)
Lemma links_applied m1 : exists m2, applied m1 (writes P B) m2.
Proof using All.
  destruct chain_apart as [Hnd Hall]. destruct (links_run ge idx P as_ (pd_phys_alloc d) (Z.of_nat n) m1) as (m2 & _ & C2 & R2); [intros j Hj; apply index_small; lia|done|done|].
  exists m2. split.
  - intros ap y w (i & a & pa & Hi & Hpa & -> & -> & ->)%elem_of_links. by apply C2.
  - intros ap y Hy. apply R2. intros i a pa Hi Hpa [-> ->]. eapply Hy, elem_of_links. by exists i, a, pa.
Qed.

Lemma init_only a w ap y q : A = q ++ a -> WordWrite ap y w ∈ writes P q -> exists b, b ∈ as_ /\ in_table b ap y.
Proof using All.
  intros E Hin. assert (HA : WordWrite ap y w ∈ writes P A) by (rewrite E, writes_app; apply elem_of_app; by left).
  apply elem_of_init in HA as (i & b & j & Hi & Hj & -> & -> & _). exists b. split; [by eapply list_elem_of_lookup_2|]. split; [done|lia].
Qed.

(** What was found in the first tree is found in the last. *)
Lemma walk_grown (m m' : gpu_mem Z) va' k r a : mirrors ge m D0 -> mirrors ge m' (pt_dirs t') -> D0 !! ge_root ge = Some r -> pd_depth r = 0 -> Z.of_nat k <= d2 ->
  mmu_walk ge m va' (pd_phys_alloc r) 0 k = Some a -> mmu_walk ge m' va' (pd_phys_alloc r) 0 k = Some a.
Proof using All.
  intros Hm Hm' Hr Hr0 Hk Hwalk. eapply (walk_root ge Harch va' m m' bound t0 Ht0); [|exact Hr|exact Hr0|exact Hk|exact Hwalk].
  intros x e i o Hx Hke Hi. left. split; [exact (Hm x e i o Hx Hke Hi)|]. intros Ho. destruct o as [c|]; [|done]. unfold entry_word. rewrite (Hm x e i _ Hx Hke Hi).
  destruct (after_keeps ge Harch va D0 nx n p d Hd as_ t cache Hc Hlen pdb t' Hgot x e Hx) as (e' & He' & [_ _ G3 _ G5 G6 _]).
  pose proof (Hm' x e' i (Some c) He' ltac:(rewrite G5; exact Hke) (G6 _ _ Hi)) as Hw. rewrite G3, G5 in Hw. rewrite Hw. f_equal.
  apply (child_kept ge Harch va bound t0 Ht0 n p d Hd as_ t cache Hc Hlen Hok Hap pdb t' Hgot e i); [by exists x|exact Hke|exact Hi].
Qed.

(** A memory in which the push is under way, or done. *)
Record under_way (m : gpu_mem Z) : Prop := {
  uw_keeps : forall va' k r a, D0 !! ge_root ge = Some r -> pd_depth r = 0 -> Z.of_nat k <= d2 ->
    mmu_walk ge m0 va' (pd_phys_alloc r) 0 k = Some a -> mmu_walk ge m va' (pd_phys_alloc r) 0 k = Some a;
  uw_after : forall m' va' k r a, D0 !! ge_root ge = Some r -> pd_depth r = 0 -> Z.of_nat k <= d2 -> mirrors ge m' (pt_dirs t') ->
    mmu_walk ge m va' (pd_phys_alloc r) 0 k = Some a -> mmu_walk ge m' va' (pd_phys_alloc r) 0 k = Some a;
  uw_zero : forall va' k r i a, D0 !! ge_root ge = Some r -> pd_depth r = 0 -> Z.of_nat k <= d2 -> as_ !! i = Some a -> S i = length as_ ->
    mmu_walk ge m va' (pd_phys_alloc r) 0 k = Some a -> forall j, 0 <= j < 512 -> m (pa_aperture a) (pa_address a + j * 8) = 0;
}.

(** Before the barrier the tree is as it was. *)
Lemma under_way_first A1 A2 ws m : A = A1 ++ A2 -> issued m0 (writes P A1) ws m -> under_way m.
Proof using All.
  intros E [_ _ Hi]. assert (Hm : mirrors ge m D0).
  { eapply (mirrors_old ge Harch va bound t0 Ht0 n p d Hd as_ t cache Hc Hlen Hok Hap pdb t' Hgot m0); [done|]. intros ap y Hy.
    destruct (Hi ap y) as [|Hin]; [done|]. destruct (init_only _ _ _ _ _ E Hin) as (b & Hb & Ht). by destruct (Hy b Hb). }
  assert (Hw : forall (m m' : gpu_mem Z) va' k r a, mirrors ge m D0 -> mirrors ge m' D0 -> D0 !! ge_root ge = Some r -> pd_depth r = 0 -> Z.of_nat k <= d2 ->
    mmu_walk ge m va' (pd_phys_alloc r) 0 k = Some a -> mmu_walk ge m' va' (pd_phys_alloc r) 0 k = Some a /\ exists y e, D0 !! y = Some e /\ pd_depth e <= d2 /\ pd_phys_alloc e = a).
  { intros m1 m' va' k r a Hm1 Hm' Hr Hr0 Hk. eapply (walk_root ge Harch va' m1 m' bound t0 Ht0); [|exact Hr|exact Hr0|exact Hk].
    intros x e i o Hx Hke Ho. left. split; [exact (Hm1 x e i o Hx Hke Ho)|]. intros _. unfold entry_word. by rewrite (Hm' x e i o Hx Hke Ho), (Hm1 x e i o Hx Hke Ho). }
  split.
  - intros va' k r a Hr Hr0 Hk H. exact (proj1 (Hw _ _ _ _ _ _ Hm0 Hm Hr Hr0 Hk H)).
  - intros m' va' k r a Hr Hr0 Hk Hm' H. by eapply walk_grown.
  - intros va' k r i a Hr Hr0 Hk Ha _ H. destruct (Hw _ _ _ _ _ _ Hm Hm Hr Hr0 Hk H) as [_ (y & e & Hy & Hle & Ee)]. destruct (ta_new _ _ _ Hap y e Hy Hle).
    rewrite Ee. by eapply list_elem_of_lookup_2.
Qed.

Context (Hbound : 0 <= bound).
Let Ht' : tree_inv ge (bound + 1) t' := after_inv ge Harch va D0 nx n p d Hd as_ t cache Hc Hlen pdb t' Hgot bound Hbound t0 Ht0 eq_refl eq_refl Hok.

(** After it, every entry holds its new word or none. *)
Lemma under_way_second m1 B1 B2 ws m : B = B1 ++ B2 -> applied m0 (writes P A) m1 -> issued m1 (writes P B1) ws m -> under_way m.
Proof using All.
  intros E H1 [_ _ Hi]. destruct (links_applied m1) as (m2 & H2). pose proof (all_written m1 H1 m2 H2) as Hm2.
  assert (Hword : forall ap y, (m ap y = m2 ap y /\ ~ link_at ap y) \/ (link_at ap y /\ (m ap y = m2 ap y \/ m ap y = pde_word ge 0 None))).
  { intros ap y. destruct (Hi ap y) as [Em|Hin].
    - rewrite Em. destruct (link_dec ap y) as [Hl|Hl]; [|left; split; [symmetry; by apply rest2|done]]. right. split; [done|]. right. by apply link_none.
    - assert (HB : WordWrite ap y (m ap y) ∈ writes P B) by (rewrite E, writes_app; apply elem_of_app; by left). right. split.
      + apply elem_of_links in HB as (i & a & pa & ? & ? & ? & ? & _). by exists i, a, pa.
      + left. symmetry. by apply (ap_done _ _ _ H2). }
  split.
  - intros va' k r a Hr Hr0 Hk H. eapply (walk_root ge Harch va' m0 m bound t0 Ht0); [|exact Hr|exact Hr0|exact Hk|exact H].
    intros x e i o Hx Hke Ho. assert (E0 : m1 (pa_aperture (pd_phys_alloc e)) (pa_address (pd_phys_alloc e) + i * 8) = entry_word m0 e i).
    { apply rest1; [done|]. intros b Hb. by eapply (old_apart ge Harch va bound t0 Ht0 n p d Hd as_ t cache Hc Hlen Hok Hap pdb t' Hgot x e). }
    pose proof (di_depth _ _ _ _ _ (ti_dirs _ _ _ Ht0 _ _ Hx)) as Hke0. destruct (Hword (pa_aperture (pd_phys_alloc e)) (pa_address (pd_phys_alloc e) + i * 8)) as [[Em Hl]|[Hl _]].
    + left. split; [exact (Hm0 x e i o Hx Hke Ho)|]. intros _. unfold entry_word in *. by rewrite Em, (rest2 m1 H1 m2 H2), E0.
    + right. rewrite <- E0, (link_none m1 H1) by done. symmetry. apply pde_none; [done|]. fold d2. lia.
  - intros m' va' k r a Hr Hr0 Hk Hm' H. destruct (after_keeps ge Harch va D0 nx n p d Hd as_ t cache Hc Hlen pdb t' Hgot _ r Hr) as (r' & Hr' & [_ _ G3 _ G5 _ _]).
    rewrite <- G3 in *. eapply (walk_root ge Harch va' m m' (bound + 1) t' Ht'); [|exact Hr'|congruence|exact Hk|exact H].
    intros x e i o Hx Hke Ho. pose proof (di_depth _ _ _ _ _ (ti_dirs _ _ _ Ht' _ _ Hx)) as Hke0.
    assert (Hcase : entry_word m e i = entry_word m2 e i \/ entry_word m e i = pde_word ge 0 None) by (unfold entry_word; destruct (Hword (pa_aperture (pd_phys_alloc e)) (pa_address (pd_phys_alloc e) + i * 8)) as [[? _]|[_ ?]]; [by left|done]).
    destruct Hcase as [Em|Em]; [left|right].
    + unfold entry_word in *. rewrite Em, (Hm2 x e i o Hx Hke Ho). split; [done|]. intros _. apply (Hm' x e i o Hx Hke Ho).
    + rewrite Em. symmetry. apply pde_none; [done|]. fold d2. lia.
  - intros va' k r i a Hr Hr0 Hk Ha Hl _ j Hj. destruct (leaf_zero m1 H1 m2 H2 i a Ha Hl j Hj) as [Hz Hn].
    destruct (Hword (pa_aperture a) (pa_address a + j * 8)) as [[-> _]|[Hl' _]]; [done|]. by destruct Hn.
Qed.

Lemma under_way_end m1 m : applied m0 (writes P A) m1 -> applied m1 (writes P B) m -> under_way m.
Proof using All.
  intros H1 H2. apply (under_way_second m1 B [] [] m); [by rewrite app_nil_r|exact H1|]. split; [set_solver| |].
  - intros ap y w Hw. right. by apply (ap_done _ _ _ H2).
  - intros ap y. destruct (link_dec ap y) as [(i & a & pa & Hi & Hpa & -> & ->)|Hl]; [right|left; by apply (rest2 m1 H1 m H2)].
    rewrite (linked_word m1 H1 m H2 i a pa) by done. apply elem_of_links. by exists i, a, pa.
Qed.

Definition fills_tables (c : push_cmd) : Prop :=
  match c with CeMemset8 dst _ _ => phys_aperture dst = UVM_APERTURE_SYS \/ phys_aperture dst = UVM_APERTURE_VID | MembarCmd _ => True | _ => False end.

Lemma init_fills l k : Forall (table_ok ge) l -> Forall fills_tables (init_cmds ge k l).
Proof using.
  intros Hl. revert k. induction Hl as [|a l (Ha & _) _ IH]; intros k; [done|]. constructor; [|apply IH]. exact Ha.
Qed.

Lemma links_fill l par k : Forall (table_ok ge) (par :: l) -> Forall fills_tables (concat (reverse (links ge idx par k l))).
Proof using.
  intros Hl. apply Forall_concat, Forall_reverse. revert par k Hl. induction l as [|a l IH]; intros par k Hl; [done|]. apply Forall_cons in Hl as [(Ha & _) Hl].
  cbn [links]. constructor; [|by apply IH]. constructor; [exact Ha|]. by constructor.
Qed.

Lemma fills_no_wfi q : Forall fills_tables q -> Forall no_wfi q.
Proof using. intros Hq. eapply Forall_impl; [exact Hq|]. by intros []. Qed.

Lemma fills_covered q : Forall fills_tables q -> Forall (fun w => membar_covers (sys_if (existsb writes_sys q)) (ww_aperture w) = true) (writes P q).
Proof using. intros Hq. apply sys_covers. eapply Forall_impl; [exact Hq|]. by intros []. Qed.

Lemma push_runs g : push_of ge idx pdb (pd_phys_alloc d) (Z.of_nat n) as_ P -> gpu_runs P m0 g ->
  under_way (g_mem g) /\ (g_cmds g = [] -> g_pending g = [] /\ mirrors ge (g_mem g) (pt_dirs t')).
Proof using All.
  intros (b & b' & words & ops & EP & _ & _ & _ & Eb & Eb') Hg. destruct chain_apart as [_ Hall]. pose proof (init_fills as_ (Z.of_nat n + 1) Hok) as HfA. pose proof (links_fill as_ _ (Z.of_nat n) Hall) as HfB.
  pose proof (two_groups_runs P A B b b' words m0 (fills_no_wfi _ HfA) (fills_no_wfi _ HfB) init_unmixed links_unmixed) as Htg.
  rewrite Eb, Eb' in Htg. rewrite Eb, Eb' in EP. specialize (Htg (fills_covered _ HfA) (fills_covered _ HfB) g EP Hg).
  destruct Htg as [A1 A2 ws m E Hi|m1 B1 B2 ws m E H1 Hi|m1 m q Hq H1 H2]; cbn [g_mem g_cmds g_pending].
  - split; [by eapply under_way_first|]. by destruct A2.
  - split; [by eapply under_way_second|]. by destruct B2.
  - split; [by eapply under_way_end|]. intros _. split; [done|]. exact (all_written m1 H1 m H2).
Qed.
End push.

(** ** The theorem *)

(** C20. While the push of getting PTEs runs, on a copy engine that writes the words of its
    commands in any order between two waits with a membar, the tables in memory are safe
    for the MMU at every moment.  At every address it finds the tables that it found before;
    what it finds it also finds when the tree is complete; and when it gets to a new table
    of 2MB entries, that table is empty: no entry is seen before the table that it points
    to is cleared.  When the last command has run no write is pending and the tables
    hold the new tree, in which the MMU finds the table of the address.  The commands in
    order are one such run. *)
Theorem get_ptes_atomic ge num pdb va bound t tables :
  tree_env ge num pdb va -> tree_inv ge bound t -> 0 <= bound < 2 ^ 32 - 1 -> tables_for ge t tables -> tables_apart ge (pt_dirs t) tables ->
  let d2 := depth_2m (ge_ats ge) (ge_arch ge) in
  exists q i e root t' new, uvm_page_tree_get_ptes ge UVM_PAGE_SIZE_2M va UVM_PAGE_SIZE_2M t = Ok (NV_OK, Some (PtRange q i 1 UVM_PAGE_SIZE_2M)) t' /\
    pt_pushes t' = pt_pushes t ++ new /\ pt_dirs t' !! q = Some e /\ pt_dirs t !! ge_root ge = Some root /\
    forall m0, mirrors ge m0 (pt_dirs t) ->
      (forall push g, push ∈ new -> gpu_runs push m0 g ->
         (forall va' k a, Z.of_nat k <= d2 -> mmu_walk ge m0 va' (pd_phys_alloc root) 0 k = Some a -> mmu_walk ge (g_mem g) va' (pd_phys_alloc root) 0 k = Some a) /\
         (forall m' va' k a, Z.of_nat k <= d2 -> mirrors ge m' (pt_dirs t') ->
            mmu_walk ge (g_mem g) va' (pd_phys_alloc root) 0 k = Some a -> mmu_walk ge m' va' (pd_phys_alloc root) 0 k = Some a) /\
         (pt_dirs t !! q = None -> forall va' k, Z.of_nat k <= d2 -> mmu_walk ge (g_mem g) va' (pd_phys_alloc root) 0 k = Some (pd_phys_alloc e) ->
            forall j, 0 <= j < 512 -> g_mem g (pa_aperture (pd_phys_alloc e)) (pa_address (pd_phys_alloc e) + j * 8) = 0) /\
         (g_cmds g = [] -> g_pending g = [] /\ mirrors ge (g_mem g) (pt_dirs t'))) /\
      exists m, run_pushes new m0 = Some m /\ (forall push, push ∈ new -> gpu_runs push m0 (Gpu m [] [])) /\ mirrors ge m (pt_dirs t') /\
        mmu_walk ge m va (pd_phys_alloc root) 0 (Z.to_nat d2) = Some (pd_phys_alloc e).
Proof.
  intros Henv Ht Hb Htab Hap d2. destruct (get_ptes_run ge num pdb va Henv bound t tables Ht Hb Htab) as (n & p & d & as_ & t1 & cache & t' & Hd & Hpa & Eas & Hlen & Hok & Hc & Hgot & Hps & _ & Hrun).
  pose proof (te_arch _ _ _ _ Henv) as Ha. assert (Hap' : tables_apart ge (pt_dirs t) as_) by (rewrite Eas; by apply tables_apart_take).
  assert (Ht' : tree_inv ge (bound + 1) t').
  { eapply (after_inv ge Ha va (pt_dirs t) (pt_next t) n p d Hd as_ t1 cache Hc Hlen pdb t' Hgot bound ltac:(lia) t Ht); done. }
  destruct (got_pushes _ _ _ _ _ _ _ _ _ _ Hgot) as (new & Enew & Hnew). rewrite Hps in Enew. destruct (ti_root _ _ _ Ht) as (root & Hroot & Hr0).
  destruct (after_keeps ge Ha va _ _ n p d Hd as_ t1 cache Hc Hlen pdb t' Hgot _ root Hroot) as (root' & Hroot' & G).
  pose proof (after_path ge Ha va _ _ n p d Hd as_ t1 cache Hc Hlen pdb t' Hgot) as Hpath.
  assert (Hwalk : exists e, pt_dirs t' !! end_ptr (pt_next t) p as_ = Some e /\ forall m, mirrors ge m (pt_dirs t') ->
    mmu_walk ge m va (pd_phys_alloc root) 0 (Z.to_nat d2) = Some (pd_phys_alloc e)).
  { rewrite <- (gd_alloc _ _ _ G). destruct (got_dirs _ _ _ _ _ _ _ _ _ _ Hgot) as (e0 & _ & _ & Edirs).
    assert (He : exists e, pt_dirs t' !! end_ptr (pt_next t) p as_ = Some e) by (rewrite Edirs, lookup_insert_eq; by eexists). destruct He as (e & He). exists e. split; [done|].
    intros m Hm. destruct (mmu_walk_path ge m va (bound + 1) t' _ Ha Ht' Hm _ root' _ _ Hpath Hroot') as (e1 & He1 & Hw). assert (e1 = e) as -> by congruence. exact Hw. }
  destruct Hwalk as (e & He & Hwalk). eexists _, _, e, root, t', new. split; [exact Hrun|]. do 3 (split; [done|]). intros m0 Hm0.
  destruct (decide (as_ = [])) as [E|Hne].
  - assert (Enil : new = []) by (by rewrite E in Hnew). rewrite Enil. split; [by intros ? ? ?%not_elem_of_nil|]. exists m0.
    assert (Hm0' : mirrors ge m0 (pt_dirs t')) by (by eapply (mirrors_found ge Ha va bound t Ht n p d Hd as_ t1 cache Hc Hlen Hok Hap' pdb t' Hgot)).
    split; [done|]. split; [by intros ? ?%not_elem_of_nil|]. split; [done|by apply Hwalk].
  - assert (exists push, new = [push] /\ push_of ge (lvl_index (hal_of (ge_ats ge) (ge_arch ge)) va) pdb (pd_phys_alloc d) (Z.of_nat n) as_ push) as (push & -> & Hpush).
    { clear -Hnew Hne. destruct as_; [done|exact Hnew]. }
    split.
    + intros push' g ->%list_elem_of_singleton Hg.
      destruct (push_runs ge Ha va bound t Ht n p d Hd as_ t1 cache Hc Hlen Hok Hap' pdb t' Hgot Hne m0 Hm0 push ltac:(lia) g Hpush Hg) as [[U1 U2 U3] Hend].
      split; [intros va' k a Hk; by apply U1|]. split; [intros m' va' k a Hk Hm'; by apply U2|]. split; [|done]. intros Hq va' k Hk Hw j Hj.
      assert (0 < length as_)%nat by (destruct as_; [done|cbn; lia]). destruct (lookup_lt_is_Some_2 as_ (pred (length as_))) as (a & Hi); [lia|].
      destruct (after_new ge Ha va _ _ n p d Hd as_ t1 cache Hc Hlen pdb t' Hgot _ a Hi) as (y & Hy & Hn). rewrite end_ptr_news in He by done.
      replace (pt_next t + Z.of_nat (length as_) - 1) with (pt_next t + Z.of_nat (pred (length as_))) in He by lia. assert (y = e) as -> by congruence.
      rewrite (nd_alloc _ _ _ _ _ _ _ _ _ Hn) in *. eapply (U3 va' k root (pred (length as_)) a); [done|done|done|done|lia|done|done].
    + destruct (push_after ge Ha va bound t Ht n p d Hd as_ t1 cache Hc Hlen Hok Hap' pdb t' Hgot push Hne Hpush m0 Hm0) as (m & Hm & Hmir).
      exists m. split; [cbn [run_pushes]; by rewrite Hm|]. split; [intros push' ->%list_elem_of_singleton; by apply run_push_runs|]. split; [done|by apply Hwalk].
Qed.

(** ** An example *)

(** Memory of zeros holds the tree of one empty root. *)
Lemma demo_mirrors : mirrors (demo_gpu false) (fun _ _ => 0) (pt_dirs demo_page_tree).
Proof.
  intros x e i o Hx _ Hi. change (({[1000 := demo_root]} : gmap Z uvm_page_directory_t) !! x = Some e) in Hx. apply lookup_singleton_Some in Hx as [_ <-].
  unfold nthZ in Hi. destruct (0 <=? i); [|done]. apply lookup_replicate_1 in Hi as [-> _]. reflexivity.
Qed.

Lemma get_ptes_atomic_witness :
  exists q i e t' new, uvm_page_tree_get_ptes (demo_gpu false) UVM_PAGE_SIZE_2M (2 ^ 30) UVM_PAGE_SIZE_2M demo_page_tree = Ok (NV_OK, Some (PtRange q i 1 UVM_PAGE_SIZE_2M)) t' /\
    pt_pushes t' = new /\ pt_dirs t' !! q = Some e /\
    (forall push g, push ∈ new -> gpu_runs push (fun _ _ => 0) g ->
       (forall m' va' k a, Z.of_nat k <= 3 -> mirrors (demo_gpu false) m' (pt_dirs t') ->
          mmu_walk (demo_gpu false) (g_mem g) va' (PtAlloc UVM_APERTURE_VID 65536) 0 k = Some a -> mmu_walk (demo_gpu false) m' va' (PtAlloc UVM_APERTURE_VID 65536) 0 k = Some a) /\
       (g_cmds g = [] -> g_pending g = [] /\ mirrors (demo_gpu false) (g_mem g) (pt_dirs t'))) /\
    exists m, run_pushes new (fun _ _ => 0) = Some m /\ mirrors (demo_gpu false) m (pt_dirs t') /\
      mmu_walk (demo_gpu false) m (2 ^ 30) (PtAlloc UVM_APERTURE_VID 65536) 0 3 = Some (pd_phys_alloc e).
Proof.
  destruct (get_ptes_atomic (demo_gpu false) 0 demo_pdb (2 ^ 30) 0 demo_page_tree demo_dirs demo_env (demo_inv demo_page_tree eq_refl eq_refl)
    (conj (Z.le_refl 0) eq_refl) demo_tables_for demo_apart) as (q & i & e & root & t' & new & H1 & H2 & H3 & H4 & H5).
  change (({[1000 := demo_root]} : gmap Z uvm_page_directory_t) !! 1000 = Some root) in H4. apply lookup_singleton_Some in H4 as [_ <-].
  destruct (H5 _ demo_mirrors) as [H6 (m & H7 & _ & H8 & H9)].
  exists q, i, e, t', new. split; [exact H1|]. split; [exact H2|]. split; [exact H3|]. split.
  - intros push g Hp Hg. destruct (H6 push g Hp Hg) as (_ & K2 & _ & K4). split; [exact K2|exact K4].
  - exists m. split; [exact H7|]. split; [exact H8|exact H9].
Defined.
