(* ===== verification/UvmPageTreePut.v ===== *)
(** Putting back the 2MB entry that was got: directories that are not used any more are
    unlinked from the bottom up and freed, so that the tree is as it was before. *)

From S2P Require Import Prelude UvmBits UvmCommon UvmMmuHal UvmMmuHalCorrect UvmPush UvmHostTlb UvmTlbBatch UvmPteBatch UvmVaBlockCorrect UvmPageTree UvmPageTreeWalk UvmPageTreeGet UvmPageTreePush UvmPageTreeTurns UvmPageTreeInv UvmPageTreeMemory UvmPageTreeCorrect.
Local Open Scope Z_scope.
Local Open Scope cword_scope.

(** ** Chains from the bottom *)

Section chain.
Context (d2 : Z) (idx : Z -> Z).

Lemma link_snoc D p k cs c : link idx D p k (cs ++ [c]) = link1 (link idx D p k cs) (List.last cs p) (idx (k + Z.of_nat (length cs))) c.
Proof using.
  revert D p k. induction cs as [|c0 cs IH]; intros D p k; [cbn; by rewrite Z.add_0_r|]. cbn [app link]. rewrite IH, last_cons. cbn [length]. do 2 f_equal. lia.
Qed.

Lemma chain_snoc D p k cs c : chain d2 idx D p k (cs ++ [c]) ->
  chain d2 idx D p k cs /\ (exists d, D !! List.last cs p = Some d /\ linkable d2 idx (k + Z.of_nat (length cs)) d) /\ c ∉ p :: cs /\ is_Some (D !! c).
Proof using.
  revert p k. induction cs as [|c0 cs IH]; intros p k.
  - intros (Hd & Hp & Hc & _). split; [done|]. split; [by rewrite Z.add_0_r|]. split; [|done]. apply not_elem_of_cons. split; [|by apply not_elem_of_nil].
    intros ->. by apply Hp, list_elem_of_here.
  - cbn [app chain]. intros (Hd & Hp & Hc & Hch). destruct (IH c0 (k + 1) Hch) as (I1 & (d & I2 & I2') & I3 & I4). rewrite last_cons. split; [|split; [|split]].
    + split; [done|]. split; [|done]. intros Hin. apply Hp. rewrite app_comm_cons. apply elem_of_app. by left.
    + exists d. split; [done|]. cbn [length]. by replace (k + Z.of_nat (Datatypes.S (length cs))) with (k + 1 + Z.of_nat (length cs)) by lia.
    + apply not_elem_of_cons. split; [|done]. intros ->. apply Hp. rewrite app_comm_cons. apply elem_of_app. right. apply list_elem_of_here.
    + done.
Qed.
End chain.

(** ** The loop *)

Section put.
Context (ge : gpu_env) (Harch : big_arch (ge_arch ge) = true) (Hbegin : ge_begin ge = NV_OK) (va : Z).
Let h : uvm_mmu_mode_hal_t := hal_of (ge_ats ge) (ge_arch ge).
Let d2 : Z := depth_2m (ge_ats ge) (ge_arch ge).
Let idx : Z -> Z := lvl_index h va.
Let Hh : tree_geometry h d2 := hal_tree (ge_ats ge) (ge_arch ge) Harch.
Context (F : fault -> page_tree -> Prop).

(** Clearing the entry of a parent at depth [k]. *)
Definition clear_cmds (par : uvm_mmu_page_table_alloc_t) (k : Z) : cmds :=
  [CeMemset8 (table_addr par (idx k * 8)) (pde_word ge k None) 8; MembarCmd UVM_MEMBAR_NONE].

Lemma wp_pde_clear p k c d push (Q : _ -> page_tree -> Prop) t :
  linkable d2 idx k d -> table_ok ge (pd_phys_alloc d) -> pt_dirs t !! p = Some (linked d (idx k) c) ->
  Q (push ++ clear_cmds (pd_phys_alloc d) k) (with_dirs (<[p := d]> (pt_dirs t)) t) -> wp (pde_clear ge p (idx k) UVM_PAGE_SIZE_2M push) Q F t.
Proof using Harch.
  intros Hl Hok Hp HQ. pose proof Hl as [L1 L2 L3 L4]. destruct (tg_upper _ _ Hh k L2) as [_ _ _ Hn _ Hs _]. destruct (pde_word_spec ge Harch k None L2 I) as [Hw _]. fold h in Hw.
  destruct (idx_range h d2 Hh va k) as [Hi Hi']; [lia|]. fold idx in Hi. destruct (table_ok_bounds ge _ Hok) as [Hb1 Hb2].
  apply wp_bind. eapply (wp_host_pde_clear d2 idx ge (hal_entry ge Harch va)); [exact Hl|exact Hp|].
  apply wp_bind. eapply wp_load_dir; [cbn; by rewrite lookup_insert_eq|]. rewrite L1. apply wp_bind. eapply wp_must; [exact Hn|]. rewrite Z.mul_1_l, up_one.
  apply wp_bind. cbn [children]. apply wp_bind. eapply wp_of_option; [exact L4|]. apply wp_bind, wp_ret, wp_bind, wp_ret, wp_ret. eapply wp_must; [|exact HQ].
  unfold pde_fill_gpu. fold h. rewrite Hs. cbn [mbind option_bind]. change (8 <=? 16) with true. cbn [UVM_ASSERT mbind option_bind]. rewrite Hw.
  cbn [mbind option_bind head hd_error]. rewrite u64_small by (unfold is_u64; lia). reflexivity.
Qed.

(** The entries of the parents of the tables of [as_], from the top. *)
Fixpoint clears (par : uvm_mmu_page_table_alloc_t) (k : Z) (as_ : list uvm_mmu_page_table_alloc_t) : list cmds :=
  match as_ with
  | [] => []
  | a :: as' => clear_cmds par k :: clears a (k + 1) as'
  end.

Lemma clears_snoc par k as_ a : clears par k (as_ ++ [a]) = clears par k as_ ++ [clear_cmds (List.last as_ par) (k + Z.of_nat (length as_))].
Proof using.
  revert par k. induction as_ as [|b as_ IH]; intros par k; [cbn; by rewrite Z.add_0_r|]. cbn [app clears]. rewrite IH. cbn [length].
  replace (k + 1 + Z.of_nat (length as_)) with (k + Z.of_nat (S (length as_))) by lia.
  replace (List.last (b :: as_) par) with (List.last as_ b); [done|]. clear. revert b. induction as_ as [|c as_ IH]; intros b; [done|]. destruct as_; [done|apply IH].
Qed.

(** Directories without references, at the memory [as_]. *)
Definition empty_dirs (D : gmap Z uvm_page_directory_t) (cs : list Z) (as_ : list uvm_mmu_page_table_alloc_t) : Prop :=
  Forall2 (fun c a => exists e, D !! c = Some e /\ pd_phys_alloc e = a /\ pd_ref_count e = 0 /\ table_ok ge a) cs as_.

Lemma empty_last D cs as_ p d : empty_dirs D cs as_ -> D !! p = Some d -> table_ok ge (pd_phys_alloc d) ->
  exists e, D !! List.last cs p = Some e /\ pd_phys_alloc e = List.last as_ (pd_phys_alloc d) /\ table_ok ge (pd_phys_alloc e).
Proof using.
  intros He Hd Hok. destruct cs as [|c cs _] using rev_ind; [apply Forall2_nil_inv_l in He as ->; by exists d|].
  apply Forall2_app_inv_l in He as (as1 & as2 & _ & H2 & ->). apply Forall2_cons_inv_l in H2 as (a & l & (e & E1 & E2 & _ & E4) & H3 & ->).
  apply Forall2_nil_inv_l in H3 as ->. rewrite !List.last_last. exists e. rewrite E2. done.
Qed.

Lemma wp_put_loop range cs (Q : _ -> page_tree -> Prop) : pr_page_size range = UVM_PAGE_SIZE_2M -> forall as_ D p k d fuel st t,
  chain d2 idx D p k cs -> empty_dirs D cs as_ -> D !! p = Some d -> table_ok ge (pd_phys_alloc d) -> pd_host_parent d = None \/ pd_ref_count d <> 0 ->
  (length cs < fuel)%nat -> Z.of_nat (length (ps_free_queue st) + length cs) <= d2 ->
  (forall D' st', same_dirs D D' -> (forall q, q ∉ cs -> D' !! q = D !! q) ->
     ps_push st' = ps_push st ++ concat (reverse (clears (pd_phys_alloc d) k as_)) -> ps_free_queue st' = ps_free_queue st ++ reverse cs ->
     ps_invalidate_depth st' = (if decide (cs = []) then ps_invalidate_depth st else k) -> Q (Some st') (with_dirs D' t)) ->
  wp (put_ptes_loop ge fuel range (List.last cs p) st) Q F (with_dirs (link idx D p k cs) t).
Proof using Harch Hbegin.
  intros Hsize. induction cs as [|c cs IH] using rev_ind; intros as_ D p k d fuel st t Hch Hem Hd Hok Hstop Hfuel Hq HQ; (destruct fuel as [|fuel]; [lia|]).
  - apply Forall2_nil_inv_l in Hem as ->. cbn [put_ptes_loop List.last link]. apply wp_bind. eapply wp_load_dir; [exact Hd|].
    assert (HQ' : Q (Some st) (with_dirs D t)) by (apply HQ; cbn; by rewrite ?app_nil_r).
    destruct (pd_host_parent d) as [par|] eqn:Epar; [|by apply wp_ret]. destruct Hstop as [?|Hr]; [done|]. rewrite (proj2 (Z.eqb_neq _ _) Hr). by apply wp_ret.
  - apply Forall2_app_inv_l in Hem as (as1 & as2 & Hem & H2 & ->). apply Forall2_cons_inv_l in H2 as (a & l & (e & E1 & E2 & E3 & E4) & H3 & ->). apply Forall2_nil_inv_l in H3 as ->.
    destruct (chain_snoc d2 idx D p k cs c Hch) as (Hch' & (dpar0 & Hp0 & Hl0) & Hc & _). destruct (empty_last D cs as1 p d Hem Hd Hok) as (x & Hx & Ex & Hokx).
    assert (x = dpar0) as -> by congruence. destruct (link_last d2 idx D p k cs dpar0 Hch' Hp0) as (dpar & Hpar & Hs). destruct (same_ref _ _ Hs) as (_ & S2 & S3 & _).
    pose proof (linkable_same d2 idx _ _ _ Hs Hl0) as Hl. set (par := List.last cs p) in *. set (i := k + Z.of_nat (length cs)) in *.
    assert (HcL : link idx D p k cs !! c = Some e) by (by rewrite link_ne). assert (Hne : c <> par) by (intros ->; apply Hc, last_elem).
    rewrite link_snoc. fold par i. rewrite (link1_eq _ _ _ _ dpar e) by done. rewrite List.last_last. rewrite length_app in Hfuel, Hq. cbn [length] in Hfuel, Hq.
    cbn [put_ptes_loop]. apply wp_bind. eapply wp_load_dir; [cbn; rewrite lookup_insert_ne, lookup_insert_eq by done; done|]. cbn [set_parent pd_host_parent pd_ref_count pd_index_in_parent].
    rewrite E3. change (0 =? 0) with true. rewrite (bool_decide_true (ge_begin ge = NV_OK)), andb_false_r by done. rewrite Hsize. apply wp_bind.
    eapply wp_pde_clear; [exact Hl|by rewrite S3|cbn; by rewrite lookup_insert_eq|]. cbn [with_dirs pt_dirs]. rewrite insert_insert_eq, (insert_insert_ne _ par c), (insert_id _ par dpar) by done.
    rewrite <- link_insert by done. apply wp_bind. eapply wp_load_dir; [cbn; rewrite link_insert by done; by rewrite lookup_insert_ne|].
    apply wp_bind, wp_guard; [apply Z.ltb_lt; fold h; rewrite (tg_depth _ _ Hh); lia|].
    assert (HDc : same_dirs D (<[c := set_parent (Some par) (idx i) e]> D)) by (by apply same_dirs_parent).
    eapply (IH as1 (<[c := set_parent (Some par) (idx i) e]> D) p k d); [by eapply chain_same| |rewrite lookup_insert_ne by set_solver; done|done|done|lia|cbn; rewrite length_app; cbn; lia|].
    { apply Forall2_same_length_lookup. split; [by eapply Forall2_length|]. intros j c' a' Hj Ha'. destruct (Forall2_lookup_lr _ _ _ _ _ _ Hem Hj Ha') as (e' & G1 & G2). exists e'. split; [|done]. rewrite lookup_insert_ne; [done|].
      intros <-. apply Hc. apply elem_of_cons. right. by eapply list_elem_of_lookup_2. }
    intros D' st' R1 R2 R3 R4 R5. cbn [ps_push ps_free_queue ps_invalidate_depth] in R3, R4, R5. apply HQ.
    + by etransitivity.
    + intros q Hqq. rewrite R2 by set_solver. rewrite lookup_insert_ne; [done|set_solver].
    + rewrite R3, clears_snoc, reverse_app, concat_app, <- app_assoc. cbn. rewrite S3, Ex. f_equal. unfold i. apply Forall2_length in Hem. by rewrite Hem.
    + rewrite R4, reverse_app, <- app_assoc. done.
    + rewrite R5, (decide_False (P := cs ++ [c] = [])) by (by destruct cs). destruct (decide (cs = [])) as [E|]; [|done]. rewrite (lk_depth _ _ _ _ Hl). unfold i. rewrite E. cbn. lia.
Qed.
End put.

Lemma wp_free_dirs l (Q : _ -> page_tree -> Prop) F : forall t, NoDup l -> (forall q, q ∈ l -> is_Some (pt_dirs t !! q)) ->
  (forall D', (forall q, D' !! q = if decide (q ∈ l) then None else pt_dirs t !! q) -> Q tt (with_dirs D' t)) -> wp (free_dirs l) Q F t.
Proof.
  induction l as [|c l IH]; intros t Hnd Hin HQ.
  - apply wp_ret. rewrite <- (with_dirs_id t). apply HQ. intros q. by rewrite decide_False by (by apply not_elem_of_nil).
  - apply NoDup_cons in Hnd as [Hc Hnd]. destruct (Hin c (list_elem_of_here _ _)) as (x & Hx). cbn [free_dirs]. apply wp_bind, wp_bind. eapply wp_load_dir; [done|]. apply wp_modify.
    apply IH; [done| |].
    + intros q Hq. cbn [with_dirs pt_dirs]. rewrite lookup_delete_ne by (intros ->; done). apply Hin. by apply list_elem_of_further.
    + intros D' HD'. apply (HQ D'). intros q. rewrite HD'. cbn [with_dirs pt_dirs]. destruct (decide (q ∈ l)) as [Hq|Hq]; [by rewrite decide_True by (by apply list_elem_of_further)|].
      destruct (decide (q = c)) as [->|Hne]; [by rewrite lookup_delete_eq, decide_True by apply list_elem_of_here|].
      rewrite lookup_delete_ne, decide_False by (done || by intros [?|?]%elem_of_cons). done.
Qed.

(** ** Putting what was got *)

Section roundtrip.
Context (ge : gpu_env) (num : Z) (pdb : uvm_gpu_phys_address_t) (va : Z) (Henv : tree_env ge num pdb va).
Let h : uvm_mmu_mode_hal_t := hal_of (ge_ats ge) (ge_arch ge).
Let d2 : Z := depth_2m (ge_ats ge) (ge_arch ge).
Let idx : Z -> Z := lvl_index h va.
Let Harch : big_arch (ge_arch ge) = true := te_arch _ _ _ _ Henv.
Let Hh : tree_geometry h d2 := hal_tree (ge_ats ge) (ge_arch ge) Harch.
Context (bound : Z) (t0 : page_tree) (Ht0 : tree_inv ge bound t0).
Let D0 : gmap Z uvm_page_directory_t := pt_dirs t0.
Let nx : Z := pt_next t0.
Context (n : nat) (p : Z) (d : uvm_page_directory_t) (Hd : descends ge va D0 nx n p d) (Hpa : table_ok ge (pd_phys_alloc d)).
Context (as_ : list uvm_mmu_page_table_alloc_t) (t : page_tree) (cache : list (option Z)) (Hc : cached ge D0 nx n as_ t cache).
Context (Hlen : Z.of_nat n + Z.of_nat (length as_) = d2) (Hok : Forall (table_ok ge) as_).
Context (t' : page_tree) (Hgot : got ge va pdb nx n p d as_ t t').
Context (Hstop : pd_host_parent d = None \/ pd_ref_count d <> 0).

Lemma tlb_some k membar : 0 <= k < d2 -> exists words, host_tlb_invalidate_all (ge_tlb ge) [] (tree_pdb (ge_tlb ge)) k membar = Some words.
Proof using All.
  intros Hk. pose proof (te_arch _ _ _ _ Henv) as E1. pose proof (te_pdb _ _ _ _ Henv) as E5. destruct (te_num _ _ _ _ Henv) as [E6 E6']. pose proof (te_tlb _ _ _ _ Henv) as E7.
  pose proof (tlb_host_arch _ _ _ _ _ E5 E6 E7) as Hth.
  assert (Hl : d2 <= root_level (ge_arch ge)) by (unfold d2; clear -E1; destruct (ge_ats ge), (ge_arch ge); by vm_compute).
  pose proof (@th_all _ _ _ _ _ Hth k membar 0 (2 ^ 64) 1 ltac:(lia)) as Hall. destruct (Hall [] [] (num + 2)) as (words & _ & Hw & _); [done|done|lia|]. by exists words.
Qed.

Lemma cached_empty : empty_dirs ge (pt_dirs t) (news nx as_) as_.
Proof using All.
  apply Forall2_same_length_lookup. split; [apply length_news|]. intros i c a Hi Ha. destruct (cached_new ge D0 nx n as_ t cache Hc i c a Hi Ha) as (e & He & Hs).
  destruct (same_ref _ _ Hs) as (S1 & _ & S3 & _). exists e. split; [done|]. split; [done|]. split; [done|]. exact (Forall_lookup_1 _ _ _ _ Hok Ha).
Qed.

(** Without the new directories the tree is the one before. *)
Lemma cached_minus D' D'' : same_dirs (pt_dirs t) D' -> (forall q, q ∉ news nx as_ -> D' !! q = pt_dirs t !! q) ->
  (forall q, D'' !! q = if decide (q ∈ reverse (news nx as_)) then None else D' !! q) -> D'' = D0.
Proof using All.
  intros Hs Hold HD. apply map_eq. intros q. rewrite HD. pose proof (ds_keys _ _ _ _ _ _ _ Hd) as Hk. destruct (decide _) as [Hq|Hq]; rewrite elem_of_reverse in Hq.
  - unfold news in Hq. apply elem_of_seqZ in Hq. destruct (D0 !! q) eqn:E; [|done]. specialize (Hk _ _ E). lia.
  - rewrite Hold by done. destruct (decide (q < nx)) as [Hlt|Hge]; [by apply (ca_old _ _ _ _ _ _ _ Hc)|].
    pose proof (ca_dirs _ _ _ _ _ _ _ Hc q) as H1. rewrite added_old in H1 by (unfold news in Hq; rewrite elem_of_seqZ in Hq; lia).
    destruct (D0 !! q) eqn:E; [specialize (Hk _ _ E); lia|]. by inversion H1.
Qed.

(** The push of the put. *)
Definition put_push (new : list cmds) : Prop :=
  match as_ with
  | [] => new = []
  | _ => exists mb words, new = [concat (reverse (clears ge va (pd_phys_alloc d) (Z.of_nat n) as_)) ++ [WaitForIdle; MembarCmd mb; HostMethods words]]
  end.

Lemma put_run F (Q : unit -> page_tree -> Prop) :
  (forall new, put_push new -> Q tt (PageTree D0 (pt_next t') (pt_allocs t') (pt_pushes t' ++ new))) ->
  wp (uvm_page_tree_put_ptes_async ge (PtRange (end_ptr nx p as_) (idx d2) 1 UVM_PAGE_SIZE_2M)) Q F t'.
Proof using All.
  intros HQ. destruct (got_dirs _ _ _ _ _ _ _ _ _ _ Hgot) as (e & He & Hs & Hdirs). pose proof (tg_range _ _ Hh) as Hr. pose proof (end_refs ge va D0 nx n p d Hd as_) as Hrefs.
  destruct (same_ref _ _ Hs) as (S1 & _). rewrite <- S1 in Hrefs.
  apply wp_bind, wp_guard; [cbn [pr_page_size]; apply Z.leb_le; fold h; rewrite (tg_depth _ _ Hh); change MAX_OPERATION_DEPTH with 5; lia|].
  cbn [pr_table pr_entry_count]. apply wp_bind. eapply wp_load_dir; [rewrite Hdirs; by rewrite lookup_insert_eq|]. cbn [set_ref_count pd_ref_count].
  apply wp_bind, wp_guard; [apply Z.leb_le; lia|]. apply wp_bind, wp_modify. rewrite Hdirs, insert_insert_eq.
  replace (set_ref_count (pd_ref_count e + 1 - 1) _) with e by (rewrite Z.add_simpl_r; by destruct e). rewrite insert_id by done. apply wp_bind.
  eapply (wp_put_loop ge Harch (te_begin _ _ _ _ Henv) va F (PtRange (end_ptr nx p as_) (idx d2) 1 UVM_PAGE_SIZE_2M) (news nx as_) _ eq_refl as_ (pt_dirs t) p (Z.of_nat n) d);
    [by eapply cached_chain; [..|fold d2; lia]|exact cached_empty|by eapply cached_top|exact Hpa|exact Hstop|rewrite length_news; change (Z.to_nat MAX_OPERATION_DEPTH + 1)%nat with 6%nat; lia|cbn; rewrite length_news; fold d2; lia|].
  intros D' st' R1 R2 R3 R4 R5. cbn [ps_push ps_free_queue ps_invalidate_depth app] in R3, R4, R5. destruct (decide (as_ = [])) as [E|Hne].
  - assert (Hnil : news nx as_ = []) by (by rewrite E). rewrite Hnil in R4, R2. rewrite R4, bool_decide_true by done. apply wp_ret. assert (ED : D' = D0).
    { apply (cached_minus D' D' R1); rewrite Hnil; [done|]. intros q. by rewrite decide_False by (by apply not_elem_of_nil). }
    specialize (HQ []). rewrite app_nil_r, <- ED in HQ. apply HQ. unfold put_push. by rewrite E.
  - assert (Hnn : news nx as_ <> []) by (intros E; apply Hne, length_zero_iff_nil; rewrite <- (length_news nx as_); by rewrite E).
    rewrite decide_False in R5 by done. rewrite R4, R5. rewrite bool_decide_false by (intros E; apply Hnn; by apply (f_equal reverse) in E; rewrite reverse_involutive in E).
    destruct (tlb_some (Z.of_nat n) (ps_after_invalidate st')) as (words & Hw); [destruct as_; [done|cbn [length] in Hlen; lia]|].
    apply wp_bind. eapply wp_must; [exact Hw|]. apply wp_bind, wp_modify. apply wp_free_dirs.
    + rewrite reverse_Permutation. unfold news. apply NoDup_seqZ.
    + intros q Hq. rewrite elem_of_reverse in Hq. cbn [with_dirs with_pushes pt_dirs]. apply list_elem_of_lookup in Hq as (i & Hi). destruct (Forall2_lookup_l _ _ _ _ _ cached_empty Hi) as (a & _ & e' & He' & _).
      destruct (same_dirs_lookup _ _ _ _ R1 He') as (y & Hy & _). by exists y.
    + intros D'' HD''. cbn [with_dirs with_pushes pt_dirs] in HD''. rewrite (cached_minus D' D'' R1 R2 HD''). rewrite R3. cbn [with_dirs with_pushes pt_next pt_allocs pt_pushes].
      apply HQ. unfold put_push. clear -Hne. destruct as_; [done|]. by eexists _, _.
Qed.

Context (Hap : tables_apart ge D0 as_).

Lemma clears_in par k l : (forall j, k <= j < k + Z.of_nat (length l) -> 0 <= idx j < 512) -> Forall (cmd_in (par :: l)) (concat (reverse (clears ge va par k l))).
Proof using.
  intros Hidx. apply Forall_concat, Forall_reverse.
  assert (H : forall l par k S0, (forall j, k <= j < k + Z.of_nat (length l) -> 0 <= idx j < 512) -> par :: l ⊆ S0 -> Forall (Forall (cmd_in S0)) (clears ge va par k l)); [|by apply H].
  clear. intros l. induction l as [|a l IH]; intros par k S0 Hidx HS; [done|]. cbn [clears length] in *. constructor; [|apply IH; [intros j Hj; apply Hidx; lia|set_solver]].
  constructor; [|by constructor]. cbn. split; [done|]. split; [done|]. exists par. split; [set_solver|]. specialize (Hidx k ltac:(lia)). unfold idx, h in Hidx. split; [done|lia].
Qed.

(** The entry of [p] that is cleared is no other entry of an old directory. *)
Lemma other_entry x e i o : D0 !! x = Some e -> pd_depth e < d2 -> nthZ (pd_entries e) i = Some o -> 0 <= idx (Z.of_nat n) < 512 ->
  pa_aperture (pd_phys_alloc e) = pa_aperture (pd_phys_alloc d) -> pa_address (pd_phys_alloc e) + i * 8 = pa_address (pd_phys_alloc d) + idx (Z.of_nat n) * 8 ->
  x = p /\ i = idx (Z.of_nat n).
Proof using All.
  intros Hx Hk Hi Hs E1 E2. pose proof (ds_dir _ _ _ _ _ _ _ Hd) as Hp. pose proof (ds_depth _ _ _ _ _ _ _ Hd) as Hkd.
  apply nthZ_lt in Hi. pose proof (di_length _ _ _ _ _ (ti_dirs _ _ _ Ht0 _ _ Hx) ltac:(fold d2; lia)) as Hl. rewrite Hl in Hi. fold h d2 in Hi.
  pose proof (di_depth _ _ _ _ _ (ti_dirs _ _ _ Ht0 _ _ Hx)) as Hk0. destruct (idx_range h d2 Hh 0 (pd_depth e)) as [_ Hb]; [lia|].
  unfold lvl_entries in Hi. rewrite (proj2 (Z.eqb_neq _ _)) in Hi by lia.
  assert (Ea : pd_phys_alloc e = pd_phys_alloc d).
  { eapply (tables_disjoint ge _ _ (pa_aperture (pd_phys_alloc e)) (pa_address (pd_phys_alloc e) + i * 8));
      [apply (di_table _ _ _ _ _ (ti_dirs _ _ _ Ht0 _ _ Hx)); fold d2; lia|exact Hpa|split; [done|lia]|split; [done|lia]]. }
  split; [|rewrite Ea in E2; lia]. pose proof (ds_range _ _ _ _ _ _ _ Hd) as Hrd. eapply (ta_old _ _ _ Hap); [exact Hx|exact Hp|fold d2; lia|lia|done].
Qed.

Lemma put_memory new m : put_push new -> mirrors ge m (pt_dirs t') -> exists m', run_pushes new m = Some m' /\ mirrors ge m' D0.
Proof using All.
  intros Hnew Hm. pose proof (after_top ge Harch va D0 nx n p d Hd as_ t cache Hc Hlen pdb t' Hgot) as Htop. pose proof (ds_dir _ _ _ _ _ _ _ Hd) as Hp.
  assert (Hold : forall x e i o, D0 !! x = Some e -> pd_depth e < d2 -> nthZ (pd_entries e) i = Some o -> as_ = [] \/ ~ (x = p /\ i = idx (Z.of_nat n)) ->
    m (pa_aperture (pd_phys_alloc e)) (pa_address (pd_phys_alloc e) + i * 8) = pde_word ge (pd_depth e) (child_alloc D0 o)).
  { intros x e i o Hx Hk Hi Hor. pose proof (child_kept ge Harch va bound t0 Ht0 n p d Hd as_ t cache Hc Hlen Hok Hap pdb t' Hgot e i o (ex_intro _ x Hx) Hk Hi) as Hck. fold D0 in Hck. rewrite <- Hck.
    destruct (decide (x = p)) as [->|Hne].
    - assert (e = d) as -> by congruence. pose proof (Hm p _ i o Htop) as Hw. unfold top_after in Hw. destruct (decide (as_ = [])) as [E|Hne]; [rewrite E in Hw; by apply Hw|].
      destruct Hor as [?|Hni]; [done|]. clear -Hw Hk Hi Hni Hne. destruct as_ as [|a l]; [done|]. cbn [linked set_entries set_ref_count pd_entries pd_depth pd_phys_alloc] in Hw. apply Hw; [done|].
      rewrite nthZ_setZ_ne; [done|]. intros E. apply Hni. done.
    - apply (Hm x e i o); [|done|done]. rewrite (after_old ge va D0 nx n p d as_ t cache Hc pdb t' Hgot); [done| |done]. by eapply (ds_keys _ _ _ _ _ _ _ Hd). }
  destruct (decide (as_ = [])) as [E|Hne].
  - unfold put_push in Hnew. rewrite E in Hnew. subst new. exists m. split; [done|]. intros x e i o Hx Hk Hi. apply (Hold x); try done. by left.
  - assert (exists a l, as_ = a :: l) as (a & l & El) by (clear -Hne; destruct as_; [done|by eexists _, _]).
    assert (exists mb words, new = [(concat (reverse (clears ge va a (Z.of_nat n + 1) l)) ++ clear_cmds ge va (pd_phys_alloc d) (Z.of_nat n)) ++ [WaitForIdle; MembarCmd mb; HostMethods words]]) as (mb & words & ->).
    { unfold put_push in Hnew. rewrite El in Hnew. destruct Hnew as (mb & words & ->). exists mb, words. cbn [clears]. rewrite reverse_cons, concat_app. cbn [concat]. by rewrite app_nil_r. }
    assert (Hsm : forall j, Z.of_nat n <= j < d2 -> 0 <= idx j < 512) by (intros j Hj; destruct (idx_range h d2 Hh va j) as [? ?]; [lia|]; unfold idx; lia).
    assert (Hln : Z.of_nat n + 1 + Z.of_nat (length l) = d2) by (rewrite El in Hlen; cbn [length] in Hlen; lia).
    set (P := (concat (reverse (clears ge va a (Z.of_nat n + 1) l)) ++ clear_cmds ge va (pd_phys_alloc d) (Z.of_nat n)) ++ [WaitForIdle; MembarCmd mb; HostMethods words]).
    destruct (run_in as_ P (concat (reverse (clears ge va a (Z.of_nat n + 1) l))) m) as (m1 & Hm1 & Hout); [rewrite El; apply clears_in; intros j Hj; apply Hsm; lia|].
    destruct (memset_run P (table_addr (pd_phys_alloc d) (idx (Z.of_nat n) * 8)) (pde_word ge (Z.of_nat n) None) 8 m1 eq_refl ltac:(lia)) as (m2 & Hm2 & Hw).
    exists m2. split.
    { cbn [run_pushes]. unfold run_push. fold P. unfold P at 2. rewrite !run_cmds_app, Hm1. cbn [mbind option_bind clear_cmds run_cmds].
      change (lvl_index (hal_of (ge_ats ge) (ge_arch ge)) va (Z.of_nat n)) with (idx (Z.of_nat n)). rewrite Hm2. done. }
    cbn [table_addr phys_aperture phys_address] in Hw. intros x e i o Hx Hk Hi. fold d2 in Hk. rewrite Hw. case_bool_decide as Hcase.
    + destruct Hcase as (C1 & C2 & C3). pose proof (Hsm (Z.of_nat n) ltac:(lia)) as Hs.
      assert (Hoe : table_ok ge (pd_phys_alloc e)) by (apply (di_table _ _ _ _ _ (ti_dirs _ _ _ Ht0 _ _ Hx)); fold d2; lia).
      assert (E2 : pa_address (pd_phys_alloc e) + i * 8 = pa_address (pd_phys_alloc d) + idx (Z.of_nat n) * 8).
      { clear -C2 C3. div_lia. }
      destruct (other_entry x e i o Hx Hk Hi Hs C1 E2) as [-> ->]. assert (e = d) as -> by congruence.
      destruct (ds_missing _ _ _ _ _ _ _ Hd ltac:(fold d2; lia)) as [L1 _ _ L4]. assert (o = None) as -> by (unfold idx, h in Hi; congruence). by rewrite L1.
    + rewrite Hout by (intros b Hb; by eapply (old_apart ge Harch va bound t0 Ht0 n p d Hd as_ t cache Hc Hlen Hok Hap pdb t' Hgot)). apply (Hold x); try done. right. intros [-> ->].
      assert (e = d) as -> by congruence. apply Hcase. split; [done|]. rewrite Z.sub_diag. split; [lia|done].
Qed.
End roundtrip.

(** ** The theorem *)

(** No directory but the root is without references. *)
Definition no_empty (D : gmap Z uvm_page_directory_t) : Prop :=
  map_Forall (fun _ d => pd_host_parent d = None \/ pd_ref_count d <> 0) D.

(** C22. Putting back a 2MB entry that was got restores the page tree: every directory that was
    allocated for the entry is unlinked and freed, from the table up to the first directory
    with other references, and all other directories are as they were before.  The memory
    of the tables follows: when the pushes of both have run, the tables above the 2MB entries hold the
    first tree again, so that no entry points to a table that was freed. *)
Theorem put_get_roundtrip ge num pdb va bound t tables :
  tree_env ge num pdb va -> tree_inv ge bound t -> 0 <= bound < 2 ^ 32 - 1 -> tables_for ge t tables -> tables_apart ge (pt_dirs t) tables -> no_empty (pt_dirs t) ->
  exists range t' t'' new, uvm_page_tree_get_ptes ge UVM_PAGE_SIZE_2M va UVM_PAGE_SIZE_2M t = Ok (NV_OK, Some range) t' /\
    uvm_page_tree_put_ptes ge range t' = Ok tt t'' /\
    pt_dirs t'' = pt_dirs t /\ tree_inv ge bound t'' /\ pt_allocs t'' = pt_allocs t' /\ pt_pushes t'' = pt_pushes t' ++ new /\
    forall m, mirrors ge m (pt_dirs t') -> exists m', run_pushes new m = Some m' /\ mirrors ge m' (pt_dirs t).
Proof.
  intros Henv Ht Hb Htab Hap Hne. destruct (get_ptes_run ge num pdb va Henv bound t tables Ht Hb Htab) as (n & p & d & as_ & t1 & cache & t' & Hd & Hpa & Eas & Hlen & Hok & Hc & Hgot & _ & _ & Hrun).
  assert (Hap' : tables_apart ge (pt_dirs t) as_) by (rewrite Eas; by apply tables_apart_take). pose proof (Hne _ _ (ds_dir _ _ _ _ _ _ _ Hd)) as Hstop.
  assert (Hnext : pt_next t <= pt_next t') by (rewrite (got_next _ _ _ _ _ _ _ _ _ _ Hgot), (ca_next _ _ _ _ _ _ _ Hc); lia).
  pose proof (put_run ge num pdb va Henv bound t Ht n p d Hd Hpa as_ t1 cache Hc Hlen Hok t' Hgot Hstop (fun _ _ => False)
    (fun _ t'' => exists new, t'' = PageTree (pt_dirs t) (pt_next t') (pt_allocs t') (pt_pushes t' ++ new) /\
       forall m, mirrors ge m (pt_dirs t') -> exists m', run_pushes new m = Some m' /\ mirrors ge m' (pt_dirs t))) as Hput.
  unfold wp in Hput. destruct (uvm_page_tree_put_ptes_async _ _ t') as [[] t''|] eqn:Er in Hput.
  - destruct Hput as (new & E & Hmem).
    + intros new Hnew. exists new. split; [done|]. intros m Hm. by eapply (put_memory ge num pdb va Henv bound t Ht n p d Hd Hpa as_ t1 cache Hc Hlen Hok t' Hgot Hstop Hap').
    + eexists _, t', t'', new. split; [exact Hrun|]. split; [exact Er|]. rewrite E. cbn [pt_dirs pt_allocs pt_pushes]. split; [done|]. split; [|done].
      destruct Ht as [T1 T2 T3]. split; cbn [pt_dirs pt_next]; [done| |done]. intros x e Hx. specialize (T2 x e Hx). lia.
  - destruct Hput. intros new Hnew. exists new. split; [done|]. intros m Hm. by eapply (put_memory ge num pdb va Henv bound t Ht n p d Hd Hpa as_ t1 cache Hc Hlen Hok t' Hgot Hstop Hap').
Qed.

Lemma put_get_roundtrip_witness :
  exists range t' t'' new, uvm_page_tree_get_ptes (demo_gpu false) UVM_PAGE_SIZE_2M (2 ^ 30) UVM_PAGE_SIZE_2M demo_page_tree = Ok (NV_OK, Some range) t' /\
    uvm_page_tree_put_ptes (demo_gpu false) range t' = Ok tt t'' /\
    pt_dirs t'' = {[1000 := demo_root]} /\ tree_inv (demo_gpu false) 0 t'' /\ pt_allocs t'' = pt_allocs t' /\ pt_pushes t'' = pt_pushes t' ++ new /\
    forall m, mirrors (demo_gpu false) m (pt_dirs t') -> exists m', run_pushes new m = Some m' /\ mirrors (demo_gpu false) m' {[1000 := demo_root]}.
Proof.
  apply (put_get_roundtrip (demo_gpu false) 0 demo_pdb (2 ^ 30) 0 demo_page_tree demo_dirs demo_env (demo_inv demo_page_tree eq_refl eq_refl)
    (conj (Z.le_refl 0) eq_refl) demo_tables_for demo_apart).
  intros x e Hx. change (({[1000 := demo_root]} : gmap Z uvm_page_directory_t) !! x = Some e) in Hx. apply lookup_singleton_Some in Hx as [_ <-]. by left.
Defined.
