(* ===== verification/UvmMapHandle.v ===== *)
(** Mapping a memory handle into a VA block: the ioctl [uvm_api_map_handle]
    (uvm_va_block.c) down to the page table entries, the TLB invalidates and the page
    directory entry it pushes, on top of the chunk allocator, the range tree, the
    batches and the entry encoders.

    The state has one GPU and one VA space: the physical memory manager, the tree of VA
    ranges with the block array of each, the block objects, the page tree.
    The memory of the blocks is that of the GPU: [resident_id] is always the GPU, and
    there are no CPU pages to map.  Locks are not modelled.

    The big page size is 64KB, the only one that the ioctls use.

    An assertion is an [AssertFail] on a debug build.  On a release build assertions
    are compiled out; those of [ge_debug] below are the ones that the ioctl does not
    keep, the others are checked on both. *)

From S2P Require Import Prelude UvmBits UvmCommon UvmMmuHal UvmMmuHalCorrect UvmRangeTree UvmPush UvmHostTlb UvmTlbBatch UvmPteBatch UvmTracker UvmPmm UvmPmmHandle UvmVaBlock UvmPageTree.
Local Open Scope Z_scope.
Local Open Scope cword_scope.

(** ** Data *)

(** A range without a table is [None].  The page masks have a bit for each 4KB. *)
Record uvm_va_block_gpu_state_t := GpuState {
  gs_chunks : list (option Z);
  gs_range_2m : option uvm_page_table_range_t;
  gs_range_big : option uvm_page_table_range_t;
  gs_range_4k : option uvm_page_table_range_t;
  gs_activated_big : bool;
  gs_activated_4k : bool;
  gs_initialized_big : bool;
  gs_pte_is_2m : bool;
  gs_big_ptes : Z;
  gs_pte_bits_read : Z;
  gs_pte_bits_write : Z;
  gs_pte_bits_atomic : Z;
}.

Section gpu_state_setters.
Implicit Types (g : uvm_va_block_gpu_state_t).
Definition set_chunks x g :=
  GpuState x (gs_range_2m g) (gs_range_big g) (gs_range_4k g) (gs_activated_big g) (gs_activated_4k g)
    (gs_initialized_big g) (gs_pte_is_2m g) (gs_big_ptes g) (gs_pte_bits_read g) (gs_pte_bits_write g) (gs_pte_bits_atomic g).
Definition set_ranges r2m rbig r4k g :=
  GpuState (gs_chunks g) r2m rbig r4k (gs_activated_big g) (gs_activated_4k g)
    (gs_initialized_big g) (gs_pte_is_2m g) (gs_big_ptes g) (gs_pte_bits_read g) (gs_pte_bits_write g) (gs_pte_bits_atomic g).
Definition set_activated big small g :=
  GpuState (gs_chunks g) (gs_range_2m g) (gs_range_big g) (gs_range_4k g) big small
    (gs_initialized_big g) (gs_pte_is_2m g) (gs_big_ptes g) (gs_pte_bits_read g) (gs_pte_bits_write g) (gs_pte_bits_atomic g).
Definition set_initialized_big x g :=
  GpuState (gs_chunks g) (gs_range_2m g) (gs_range_big g) (gs_range_4k g) (gs_activated_big g) (gs_activated_4k g)
    x (gs_pte_is_2m g) (gs_big_ptes g) (gs_pte_bits_read g) (gs_pte_bits_write g) (gs_pte_bits_atomic g).
Definition set_pte_is_2m x g :=
  GpuState (gs_chunks g) (gs_range_2m g) (gs_range_big g) (gs_range_4k g) (gs_activated_big g) (gs_activated_4k g)
    (gs_initialized_big g) x (gs_big_ptes g) (gs_pte_bits_read g) (gs_pte_bits_write g) (gs_pte_bits_atomic g).
Definition set_big_ptes x g :=
  GpuState (gs_chunks g) (gs_range_2m g) (gs_range_big g) (gs_range_4k g) (gs_activated_big g) (gs_activated_4k g)
    (gs_initialized_big g) (gs_pte_is_2m g) x (gs_pte_bits_read g) (gs_pte_bits_write g) (gs_pte_bits_atomic g).
End gpu_state_setters.

Record uvm_va_block_t := VaBlock {
  blk_span : va_span;
  blk_gpu : option uvm_va_block_gpu_state_t;
}.

Record va_state := VaState {
  v_pmm : uvm_pmm_gpu_t;
  v_tree : uvm_range_tree_t;
  v_range_blocks : gmap Z (list (option Z));
  v_blocks : gmap Z uvm_va_block_t;
  v_page_tree : page_tree;
  v_next : Z;
}.

Section va_state_setters.
Implicit Types (v : va_state).
Definition with_pmm x v := VaState x (v_tree v) (v_range_blocks v) (v_blocks v) (v_page_tree v) (v_next v).
Definition with_range_blocks x v := VaState (v_pmm v) (v_tree v) x (v_blocks v) (v_page_tree v) (v_next v).
Definition with_blocks x v := VaState (v_pmm v) (v_tree v) (v_range_blocks v) x (v_page_tree v) (v_next v).
Definition with_page_tree x v := VaState (v_pmm v) (v_tree v) (v_range_blocks v) (v_blocks v) x (v_next v).
Definition with_vnext x v := VaState (v_pmm v) (v_tree v) (v_range_blocks v) (v_blocks v) (v_page_tree v) x.
End va_state_setters.

Definition V := M va_state.

(** An operation of the physical memory manager. *)
Definition in_pmm {A} (m : P A) : V A := fun v =>
  match m (v_pmm v) with
  | Ok a s => Ok a (with_pmm s v)
  | Fault f s => Fault f (with_pmm s v)
  end.

(** An operation of the page tree. *)
Definition in_tree {A} (m : T A) : V A := fun v =>
  match m (v_page_tree v) with
  | Ok a t => Ok a (with_page_tree t v)
  | Fault f t => Fault f (with_page_tree t v)
  end.

Definition assert_some {A} (o : option A) : V A := of_option AssertFail o.

Definition fresh : V Z := fun v => Ok (v_next v) (with_vnext (v_next v + 1) v).

(** [nv_kmem_cache_zalloc], [uvm_kvmalloc_zero] *)
Definition kmalloc_ok : V bool := in_pmm kmem_ok.

Definition load_block (p : Z) : V uvm_va_block_t := v <- get ;; of_option UB (v_blocks v !! p).
Definition store_block (p : Z) (b : uvm_va_block_t) : V unit := modify (fun v => with_blocks (<[p := b]> (v_blocks v)) v).

(** The GPU state of a block, which must be there. *)
Definition gpu_state_of (p : Z) : V uvm_va_block_gpu_state_t := b <- load_block p ;; of_option UB (blk_gpu b).
Definition update_gpu_state (p : Z) (f : uvm_va_block_gpu_state_t -> uvm_va_block_gpu_state_t) : V unit :=
  b <- load_block p ;; g <- of_option UB (blk_gpu b) ;; store_block p (VaBlock (blk_span b) (Some (f g))).

(** ** VA ranges and their blocks (uvm_va_range.c) *)

Definition block_calc_start (node : range) (index : Z) : option Z :=
  range_start ← UVM_VA_BLOCK_ALIGN_DOWN (r_start node);
  let block_start := u64 (range_start + u64 (index * UVM_VA_BLOCK_SIZE)) in
  let start := Z.max (r_start node) block_start in
  UVM_ASSERT (start <? r_end node) ;; Some start.

Definition block_calc_end (node : range) (index : Z) : option Z :=
  start ← block_calc_start node index;
  up ← UVM_VA_BLOCK_ALIGN_UP (u64 (start + 1));
  let block_end := u64 (up - 1) in
  let end_ := Z.min (r_end node) block_end in
  UVM_ASSERT (r_start node <? end_) ;; Some end_.

(** Start and end of the block, and no GPU has state in it; [None] without memory. *)
Definition uvm_va_block_create (node : range) (start end_ : Z) : V (option Z) :=
  let size := u64 (end_ - start + 1) in
  guard_or AssertFail (PAGE_ALIGNED start && PAGE_ALIGNED (u64 (end_ + 1)) && PAGE_ALIGNED size &&
                       (0 <? size) && (size <=? UVM_VA_BLOCK_SIZE)) ;;;
  guard_or AssertFail ((r_start node <=? start) && (end_ <=? r_end node)) ;;;
  s <- assert_some (UVM_VA_BLOCK_ALIGN_DOWN start) ;; e <- assert_some (UVM_VA_BLOCK_ALIGN_DOWN end_) ;;
  guard_or AssertFail (s =? e) ;;;
  ok <- kmalloc_ok ;;
  if ok then p <- fresh ;; store_block p (VaBlock (VaSpan start end_) None) ;;; mret' (Some p)
  else mret' None.

(** The block of the range at an index, made if there is none. *)
Definition uvm_va_range_block_create (va_range index : Z) : V (option Z) :=
  v <- get ;;
  node <- of_option UB (rt_nodes (v_tree v) !! va_range) ;;
  blocks <- of_option UB (v_range_blocks v !! va_range) ;;
  block <- of_option UB (nthZ blocks index) ;;
  match block with
  | Some p => mret' (Some p)
  | None =>
      start <- assert_some (block_calc_start node index) ;;
      end_ <- assert_some (block_calc_end node index) ;;
      block <- uvm_va_block_create node start end_ ;;
      match block with
      | None => mret' None
      | Some p =>
          modify (fun v => with_range_blocks (<[va_range := setZ blocks index (Some p)]> (v_range_blocks v)) v) ;;;
          mret' (Some p)
      end
  end.

Definition uvm_va_space_iter_first (start end_ : Z) : V (option Z) :=
  v <- get ;; assert_some (uvm_range_tree_iter_first (v_tree v) start end_).

(** ** The state of the GPU in a block *)

(** vAttention has made the number of chunks a constant. *)
Definition NUM_CHUNK : nat := 32.
Definition empty_gpu_state : uvm_va_block_gpu_state_t :=
  GpuState (replicate NUM_CHUNK None) None None None false false false false 0 0 0 0.

(** [false] is the NULL of a failed allocation. *)
Definition block_gpu_state_get_alloc (block : Z) : V bool :=
  b <- load_block block ;;
  match blk_gpu b with
  | Some _ => mret' true
  | None =>
      ok <- kmalloc_ok ;;
      if ok then
        ok <- kmalloc_ok ;;
        if ok then store_block block (VaBlock (blk_span b) (Some empty_gpu_state)) ;;; mret' true
        else mret' false
      else mret' false
  end.

Definition block_page_prot_gpu (block page_index : Z) : V uvm_prot_t :=
  b <- load_block block ;;
  match blk_gpu b with
  | None => mret' UVM_PROT_NONE
  | Some g =>
      mret' (if Z.testbit (gs_pte_bits_atomic g) page_index then UVM_PROT_READ_WRITE_ATOMIC
             else if Z.testbit (gs_pte_bits_write g) page_index then UVM_PROT_READ_WRITE
             else if Z.testbit (gs_pte_bits_read g) page_index then UVM_PROT_READ_ONLY
             else UVM_PROT_NONE)
  end.

Section gpu.
Context (ge : gpu_env).
Let hal : uvm_mmu_mode_hal_t := hal_of (ge_ats ge) (ge_arch ge).

(** An assertion that only a debug build checks. *)
Definition debug_assert (b : bool) : V unit := guard_or AssertFail (negb (ge_debug ge) || b).

(** ** Page tables of a block (uvm_va_block.c) *)

Definition block_gpu_supports_2m (span : va_span) : option bool :=
  size ← uvm_va_block_size span;
  if size <? UVM_PAGE_SIZE_2M then Some false
  else UVM_ASSERT (size =? UVM_PAGE_SIZE_2M) ;; Some (negb (Z.land (page_sizes hal) UVM_PAGE_SIZE_2M =? 0)).

Definition range_of (page_size : Z) (g : uvm_va_block_gpu_state_t) : option uvm_page_table_range_t :=
  if page_size =? UVM_PAGE_SIZE_2M then gs_range_2m g
  else if page_size =? UVM_PAGE_SIZE_4K then gs_range_4k g
  else gs_range_big g.

Definition set_range (page_size : Z) (r : uvm_page_table_range_t) (g : uvm_va_block_gpu_state_t) : uvm_va_block_gpu_state_t :=
  if page_size =? UVM_PAGE_SIZE_2M then set_ranges (Some r) (gs_range_big g) (gs_range_4k g) g
  else if page_size =? UVM_PAGE_SIZE_4K then set_ranges (gs_range_2m g) (gs_range_big g) (Some r) g
  else set_ranges (gs_range_2m g) (Some r) (gs_range_4k g) g.

(** One attempt to get the range, with or without eviction. *)
Definition try_pt_range (block page_size : Z) (use_alloc_table : bool) : V (NV_STATUS * option uvm_page_table_range_t) :=
  b <- load_block block ;;
  g <- gpu_state_of block ;;
  start <- assert_some (UVM_ALIGN_UP (vb_start (blk_span b)) page_size) ;;
  e <- assert_some (UVM_ALIGN_DOWN (u64 (vb_end (blk_span b) + 1)) page_size) ;;
  if use_alloc_table then
    single <- of_option UB (gs_range_2m g) ;; in_tree (uvm_page_tree_alloc_table ge page_size single)
  else in_tree (uvm_page_tree_get_ptes ge page_size start (u64 (e - start))).

(** The flags after the range has been allocated. *)
Definition pt_range_allocated (block page_size : Z) (use_alloc_table : bool) (r : uvm_page_table_range_t) : V unit :=
  update_gpu_state block (set_range page_size r) ;;;
  g <- gpu_state_of block ;;
  if page_size =? UVM_PAGE_SIZE_2M then
    guard_or AssertFail (negb (gs_pte_is_2m g)) ;;; update_gpu_state block (set_pte_is_2m true)
  else if page_size =? UVM_PAGE_SIZE_4K then mret' tt
  else if use_alloc_table then guard_or AssertFail (negb (gs_initialized_big g))
  else update_gpu_state block (set_initialized_big true).

Definition block_alloc_pt_range_with_retry (block page_size : Z) : V NV_STATUS :=
  b <- load_block block ;;
  supports_2m <- assert_some (block_gpu_supports_2m (blk_span b)) ;;
  let use_alloc_table := supports_2m && (page_size <? UVM_PAGE_SIZE_2M) in
  r <- try_pt_range block page_size use_alloc_table ;;
  if decide (fst r = NV_OK) then
    r <- of_option UB (snd r) ;; pt_range_allocated block page_size use_alloc_table r ;;; mret' NV_OK
  else if decide (fst r = NV_ERR_NO_MEMORY) then
    r <- try_pt_range block page_size use_alloc_table ;;
    if decide (fst r = NV_OK) then
      r <- of_option UB (snd r) ;; pt_range_allocated block page_size use_alloc_table r ;;;
      mret' NV_ERR_MORE_PROCESSING_REQUIRED
    else mret' (fst r)
  else
    (match snd r with Some r => update_gpu_state block (set_range page_size r) | None => mret' tt end) ;;; mret' (fst r).

(** The loop over the page sizes, from the largest; the first error ends it. *)
Fixpoint alloc_ptes_loop (block : Z) (sizes : list Z) (final_status : NV_STATUS) : V NV_STATUS :=
  match sizes with
  | [] => mret' final_status
  | page_size :: sizes' =>
      g <- gpu_state_of block ;;
      match range_of page_size g with
      | Some _ => alloc_ptes_loop block sizes' final_status
      | None =>
          status <- block_alloc_pt_range_with_retry block page_size ;;
          if decide (status = NV_ERR_MORE_PROCESSING_REQUIRED) then alloc_ptes_loop block sizes' NV_ERR_MORE_PROCESSING_REQUIRED
          else if decide (status = NV_OK) then alloc_ptes_loop block sizes' final_status
          else mret' status
      end
  end.

Definition sizes_rev (mask : Z) : list Z := (fun k => 2 ^ k) <$> List.filter (Z.testbit mask) (down 32 0).

Definition block_alloc_ptes_with_retry (block page_sizes_ : Z) : V NV_STATUS :=
  b <- load_block block ;;
  supports_2m <- assert_some (block_gpu_supports_2m (blk_span b)) ;;
  let page_sizes_ := if supports_2m : bool then Z.lor page_sizes_ UVM_PAGE_SIZE_2M else page_sizes_ in
  guard_or AssertFail (Z.land page_sizes_ (page_sizes hal) =? page_sizes_) ;;;
  alloc_ptes_loop block (sizes_rev page_sizes_) NV_OK.

(** ** Writing big PTEs *)

(** The MMU encoder of the build.  Without assertions only READ_ONLY and
    READ_WRITE_ATOMIC are told apart before Hopper, so that UVM_PROT_NONE gives the
    entry of READ_WRITE; on Hopper it gives PCF_INVALID, which is 0 and also the PCF of
    a cached READ_WRITE_ATOMIC entry. *)
Definition make_pte_of_build (ap : uvm_aperture_t) (address : Z) (prot : uvm_prot_t) (flags : Z) : option Z :=
  let prot := if ge_debug ge then prot
              else match prot, ge_arch ge with
                   | UVM_PROT_NONE, AHopper => UVM_PROT_READ_WRITE_ATOMIC
                   | UVM_PROT_NONE, _ => UVM_PROT_READ_WRITE
                   | p, _ => p
                   end in
  make_pte hal ap address prot flags.

Context (chunk_sizes : Z).

Definition block_gpu_chunk_index (span : va_span) (page_index : Z) : option (Z * Z) :=
  size ← uvm_va_block_size span;
  uvm_va_block_gpu_chunk_index_range (vb_start span) size chunk_sizes page_index.

(** The chunk that backs a page, and the offset of the page in it. *)
Definition block_phys_page_chunk (block page_index : Z) : V (uvm_gpu_chunk_t * Z) :=
  b <- load_block block ;;
  g <- gpu_state_of block ;;
  ix <- assert_some (block_gpu_chunk_index (blk_span b) page_index) ;;
  c <- of_option UB (nthZ (gs_chunks g) (fst ix)) ;;
  c <- of_option UB c ;;
  chunk <- in_pmm (load c) ;;
  r <- assert_some (uvm_va_block_chunk_region (blk_span b) (snd ix) page_index) ;;
  mret' (chunk, (page_index - first r) * PAGE_SIZE).

Definition block_phys_page_address (block page_index : Z) : V uvm_gpu_phys_address_t :=
  c <- block_phys_page_chunk block page_index ;;
  mret' (PhysAddr (u64 (c_address (fst c) + snd c)) UVM_APERTURE_VID).

Definition block_phys_contig_region (block page_index : Z) : V uvm_va_block_region_t :=
  b <- load_block block ;;
  ix <- assert_some (block_gpu_chunk_index (blk_span b) page_index) ;;
  assert_some (uvm_va_block_chunk_region (blk_span b) (snd ix) page_index).

(** The variables of the loop of [block_gpu_pte_write_big]. *)
Record big_write := BigWrite {
  bw_contig_region : uvm_va_block_region_t;
  bw_contig_addr : uvm_gpu_phys_address_t;
  bw_pte_batch : uvm_pte_batch_t;
  bw_tlb_batch : uvm_tlb_batch_t;
}.

Definition write_big_pte (block : Z) (new_prot : uvm_prot_t) (big_page_index : Z) (w : big_write) : V big_write :=
  b <- load_block block ;;
  g <- gpu_state_of block ;;
  pte_size <- assert_some (uvm_mmu_pte_size ge UVM_PAGE_SIZE_64K) ;;
  big_region <- assert_some (uvm_va_block_big_page_region (blk_span b) big_page_index UVM_PAGE_SIZE_64K) ;;
  contig <- (if outer (bw_contig_region w) <=? first big_region then
               r <- block_phys_contig_region block (first big_region) ;;
               a <- block_phys_page_address block (first r) ;;
               mret' (r, a)
             else mret' (bw_contig_region w, bw_contig_addr w)) ;;
  match contig with
  | (contig_region, contig_addr) =>
      let address := u64 (phys_address contig_addr + (first big_region - first contig_region) * PAGE_SIZE) in
      range_big <- of_option UB (gs_range_big g) ;;
      pte_addr <- in_tree (uvm_page_table_range_entry_address ge range_big big_page_index) ;;
      pte_val <- assert_some (make_pte_of_build (phys_aperture contig_addr) address new_prot UVM_MMU_PTE_FLAGS_CACHED) ;;
      pte_batch <- assert_some (uvm_pte_batch_write_pte pte_addr pte_val pte_size (bw_pte_batch w)) ;;
      tlb_batch <- assert_some (uvm_tlb_batch_invalidate (bw_tlb_batch w) (uvm_va_block_region_start (blk_span b) big_region)
                                  UVM_PAGE_SIZE_64K UVM_PAGE_SIZE_64K UVM_MEMBAR_NONE) ;;
      mret' (BigWrite contig_region contig_addr pte_batch tlb_batch)
  end.

Fixpoint write_big_loop (block : Z) (new_prot : uvm_prot_t) (bits : list Z) (w : big_write) : V big_write :=
  match bits with
  | [] => mret' w
  | i :: bits' => w <- write_big_pte block new_prot i w ;; write_big_loop block new_prot bits' w
  end.

(** [for_each_set_bit] over a mask of [n] bits *)
Definition set_bits (mask n : Z) : list Z := List.filter (Z.testbit mask) (up 0 n).

Definition block_gpu_pte_write_big (block : Z) (new_prot : uvm_prot_t) (big_ptes_mask : Z)
    (pte_batch : uvm_pte_batch_t) (tlb_batch : uvm_tlb_batch_t) : V (uvm_pte_batch_t * uvm_tlb_batch_t) :=
  debug_assert (negb (prot_eqb new_prot UVM_PROT_NONE)) ;;;
  w <- write_big_loop block new_prot (set_bits big_ptes_mask MAX_BIG_PAGES_PER_UVM_VA_BLOCK)
         (BigWrite (Region 0 0) (PhysAddr 0 UVM_APERTURE_PEER_0) pte_batch tlb_batch) ;;
  mret' (bw_pte_batch w, bw_tlb_batch w).

(** ** The 2MB entry *)

(** Ending a TLB batch pushes host methods after what is in the push.  While inline
    data is being added to the push nothing else can be pushed. *)
Definition tlb_batch_end_on (tlb_batch : uvm_tlb_batch_t) (tlb_membar : uvm_membar_t) (push : cmds) : option cmds :=
  words ← uvm_tlb_batch_end tlb_batch tlb_membar []; Some (push ++ [HostMethods words]).

Definition tlb_batch_end_in (tlb_batch : uvm_tlb_batch_t) (tlb_membar : uvm_membar_t) (pte_batch : uvm_pte_batch_t)
  : V uvm_pte_batch_t :=
  guard_or UB (negb (pb_inlining pte_batch)) ;;;
  push <- assert_some (tlb_batch_end_on tlb_batch tlb_membar (pb_push pte_batch)) ;;
  mret' (set_push push pte_batch).

Definition block_gpu_pte_clear_2m (block : Z) (pte_batch : uvm_pte_batch_t) (tlb_batch : uvm_tlb_batch_t)
  : V (uvm_pte_batch_t * uvm_tlb_batch_t) :=
  b <- load_block block ;;
  g <- gpu_state_of block ;;
  range_2m <- of_option UB (gs_range_2m g) ;;
  pte_addr <- in_tree (uvm_page_table_range_entry_address ge range_2m 0) ;;
  pte_size <- assert_some (uvm_mmu_pte_size ge UVM_PAGE_SIZE_2M) ;;
  pte_batch <- assert_some (uvm_pte_batch_clear_ptes pte_addr 0 pte_size 1 pte_batch) ;;
  tlb_batch <- assert_some (uvm_tlb_batch_invalidate tlb_batch (vb_start (blk_span b)) UVM_PAGE_SIZE_2M UVM_PAGE_SIZE_2M UVM_MEMBAR_NONE) ;;
  mret' (pte_batch, tlb_batch).

Definition is_some {A} (o : option A) : bool := match o with Some _ => true | None => false end.

Definition block_gpu_needs_to_activate_table (span : va_span) (g : uvm_va_block_gpu_state_t) : option bool :=
  supports_2m ← block_gpu_supports_2m span;
  Some (supports_2m && ((is_some (gs_range_big g) && negb (gs_activated_big g)) ||
                        (is_some (gs_range_4k g) && negb (gs_activated_4k g)))).

(** The membar of the copy is set by a flag of the push; [wait_for_idle] follows. *)
Definition block_gpu_write_pde (block : Z) (push : cmds) (tlb_batch : uvm_tlb_batch_t) : V (cmds * uvm_tlb_batch_t) :=
  b <- load_block block ;;
  g <- gpu_state_of block ;;
  needs <- assert_some (block_gpu_needs_to_activate_table (blk_span b) g) ;;
  debug_assert (gs_pte_is_2m g || needs) ;;;
  debug_assert (is_some (gs_range_big g) || is_some (gs_range_4k g)) ;;;
  range_2m <- of_option UB (gs_range_2m g) ;;
  dir <- in_tree (load_dir (pr_table range_2m)) ;;
  let membar := if aperture_eqb (pa_aperture (pd_phys_alloc dir)) UVM_APERTURE_VID then UVM_MEMBAR_GPU else UVM_MEMBAR_SYS in
  push <- in_tree (uvm_page_tree_write_pde ge range_2m membar push) ;;
  tlb_batch <- assert_some (uvm_tlb_batch_invalidate tlb_batch (vb_start (blk_span b)) UVM_PAGE_SIZE_2M UVM_PAGE_SIZE_2M UVM_MEMBAR_NONE) ;;
  update_gpu_state block (fun g => set_activated (is_some (gs_range_big g) || gs_activated_big g)
                                     (is_some (gs_range_4k g) || gs_activated_4k g) g) ;;;
  mret' (push ++ [WaitForIdle], tlb_batch).

Definition block_gpu_pte_finish_split_2m (block : Z) (pte_batch : uvm_pte_batch_t) (tlb_membar : uvm_membar_t) : V cmds :=
  curr_prot <- block_page_prot_gpu block 0 ;;
  push <- (if prot_eqb curr_prot UVM_PROT_NONE then
             debug_assert (bool_decide (tlb_membar = UVM_MEMBAR_NONE)) ;;;
             assert_some (uvm_pte_batch_end pte_batch)
           else
             c <- block_gpu_pte_clear_2m block pte_batch (uvm_tlb_batch_begin (ge_tlb ge)) ;;
             push <- assert_some (uvm_pte_batch_end (fst c)) ;;
             assert_some (tlb_batch_end_on (snd c) tlb_membar push)) ;;
  r <- block_gpu_write_pde block push (uvm_tlb_batch_begin (ge_tlb ge)) ;;
  assert_some (tlb_batch_end_on (snd r) UVM_MEMBAR_NONE (fst r)).

(** ** The ioctl *)

(** [1 << i] in an int, converted to unsigned long: the sign is extended. *)
Definition int_bit (i : Z) : option Z :=
  if (0 <=? i) && (i <=? 31) then Some (u64 (int32 (Z.shiftl 1 i))) else None.

(** The variables of the loop over the big pages of the handle: the membar of the last
    page, and the mask. *)
Definition map_one_page (va_block gpu_chunk start_address i : Z) (st : uvm_membar_t * Z) : V (uvm_membar_t * Z) :=
  b <- load_block va_block ;;
  page_index_4k <- of_option UB (get_offset_index (vb_start (blk_span b)) (u64 (start_address + i * UVM_PAGE_SIZE_64K)) UVM_PAGE_SIZE_4K) ;;
  page_index_big <- assert_some (uvm_va_block_big_page_index (blk_span b) (page_index_t page_index_4k) UVM_PAGE_SIZE_64K) ;;
  g <- gpu_state_of va_block ;;
  old <- of_option UB (nthZ (gs_chunks g) page_index_big) ;;
  let tlb_membar := if is_some old then UVM_MEMBAR_GPU else UVM_MEMBAR_NONE in
  sub <- in_pmm (get_allocated_chunk gpu_chunk i) ;;
  update_gpu_state va_block (fun g => set_chunks (setZ (gs_chunks g) page_index_big sub) g) ;;;
  bit <- of_option UB (int_bit page_index_big) ;;
  sub <- of_option UB sub ;;
  in_pmm (update sub (set_va_block (Some va_block))) ;;;
  mret' (tlb_membar, Z.lor (snd st) bit).

Fixpoint map_pages (va_block gpu_chunk start_address : Z) (idxs : list Z) (st : uvm_membar_t * Z) : V (uvm_membar_t * Z) :=
  match idxs with
  | [] => mret' st
  | i :: idxs' => st <- map_one_page va_block gpu_chunk start_address i st ;; map_pages va_block gpu_chunk start_address idxs' st
  end.

(** The chunk of a handle, from the table of its root chunk. *)
Definition chunk_of_handle (handle size : Z) : V Z :=
  r <- in_pmm (root_chunk_from_address handle) ;;
  root <- in_pmm (load r) ;;
  handle_index <- of_option UB (get_offset_index (c_address root) handle size) ;;
  chunk <- in_pmm (get_allocated_chunk r handle_index) ;;
  of_option UB chunk.

(** The block of an address: its index is counted from the start of the range. *)
Definition block_of_address (start_address end_address : Z) : V Z :=
  r <- uvm_va_space_iter_first start_address end_address ;;
  va_range <- of_option UB r ;;
  v <- get ;;
  node <- of_option UB (rt_nodes (v_tree v) !! va_range) ;;
  block_index <- of_option UB (get_offset_index (r_start node) start_address UVM_VA_BLOCK_SIZE) ;;
  block <- uvm_va_range_block_create va_range block_index ;;
  of_option UB block.

(** The page table writes of the ioctl, in the order in which they are pushed. *)
Definition push_mapping (va_block : Z) (tlb_membar : uvm_membar_t) (new_big_ptes : Z) : V cmds :=
  new_prot <- block_page_prot_gpu va_block 0 ;;
  w <- block_gpu_pte_write_big va_block new_prot new_big_ptes (uvm_pte_batch_begin []) (uvm_tlb_batch_begin (ge_tlb ge)) ;;
  pte_batch <- tlb_batch_end_in (snd w) tlb_membar (fst w) ;;
  block_gpu_pte_finish_split_2m va_block pte_batch UVM_MEMBAR_NONE.

(** The result is the status and the push; [push_status] is that of [uvm_push_begin].
    A missing membar (no pages) is uninitialized. *)
Definition uvm_api_map_handle (gpu_found : bool) (push_status : NV_STATUS) (address size handle : Z) : V (NV_STATUS * cmds) :=
  let end_address := u64 (address + size - 1) in
  debug_assert (handle_size_ok size) ;;;
  let num_big_pages := size / UVM_PAGE_SIZE_64K in
  va_block <- block_of_address address end_address ;;
  guard_or UB gpu_found ;;;
  gpu_chunk <- chunk_of_handle handle size ;;
  ok <- block_gpu_state_get_alloc va_block ;;
  guard_or UB ok ;;;
  guard_or UB (0 <? num_big_pages) ;;;
  st <- map_pages va_block gpu_chunk address (up 0 num_big_pages) (UVM_MEMBAR_NONE, 0) ;;
  in_pmm (update gpu_chunk (set_va_block (Some va_block))) ;;;
  g <- gpu_state_of va_block ;;
  (if is_some (gs_range_2m g) then mret' tt
   else block_alloc_ptes_with_retry va_block (Z.lor UVM_PAGE_SIZE_2M UVM_PAGE_SIZE_64K) ;;; mret' tt) ;;;
  context_ok <- kmalloc_ok ;;
  guard_or UB context_ok ;;;
  if decide (push_status = NV_OK) then
    push <- push_mapping va_block (fst st) (snd st) ;;
    update_gpu_state va_block (set_pte_is_2m false) ;;;
    update_gpu_state va_block (fun g => set_big_ptes (Z.lor (gs_big_ptes g) (snd st)) g) ;;;
    mret' (NV_OK, push)
  else mret' (push_status, []).
End gpu.
