(* ===== verification/UvmMapPush.v ===== *)
(** The page table writes of [uvm_api_map_handle]: which entries of the big page table
    and which directory entry the push stores, in what order with the TLB invalidates,
    and what the MMU reads afterwards. *)

From stdpp Require Import sorting.
From S2P Require Import Prelude UvmBits UvmCommon UvmMmuHal UvmMmuHalCorrect UvmRangeTree UvmPush UvmHostTlb UvmTlbBatch UvmPteBatch UvmTracker UvmPmm UvmPmmOps UvmPmmHandle UvmVaBlock UvmVaBlockCorrect UvmPageTree UvmPageTreeWalk UvmMapHandle.
Local Open Scope Z_scope.

(** ** Rules of the state *)

Section rules.
Implicit Types (F : fault -> va_state -> Prop) (v : va_state).

Lemma wp_assoc {A B C} (m : V A) (k : A -> V B) (k' : B -> V C) (Q : C -> va_state -> Prop) F v :
  wp (mbind' (mbind' m k) k') Q F v -> wp (mbind' m (fun a => mbind' (k a) k')) Q F v.
Proof. unfold wp, mbind'. by destruct (m v). Qed.

Lemma wp_in_pmm {A} (m : P A) (Q : A -> va_state -> Prop) F v :
  wp m (fun a s => Q a (with_pmm s v)) (fun f s => F f (with_pmm s v)) (v_pmm v) -> wp (in_pmm m) Q F v.
Proof. unfold wp, in_pmm. by destruct (m (v_pmm v)). Qed.

Lemma with_pmm_id v : with_pmm (v_pmm v) v = v.
Proof. by destruct v. Qed.

Lemma wp_pmm_load c ch (Q : _ -> va_state -> Prop) F v : p_heap (v_pmm v) !! c = Some ch -> Q ch v -> wp (in_pmm (load c)) Q F v.
Proof. intros Hc HQ. apply wp_in_pmm. eapply wp_load; [done|]. by rewrite with_pmm_id. Qed.

Lemma wp_assert_some {A} (o : option A) a (Q : A -> va_state -> Prop) F v : o = Some a -> Q a v -> wp (assert_some o) Q F v.
Proof. intros. by eapply wp_of_option. Qed.

Lemma wp_load_block p b (Q : _ -> va_state -> Prop) F v : v_blocks v !! p = Some b -> Q b v -> wp (load_block p) Q F v.
Proof. intros Hb HQ. apply wp_bind, wp_get. by eapply wp_of_option. Qed.

Lemma wp_gpu_state_of p b g (Q : _ -> va_state -> Prop) F v :
  v_blocks v !! p = Some b -> blk_gpu b = Some g -> Q g v -> wp (gpu_state_of p) Q F v.
Proof. intros Hb Hg HQ. apply wp_bind. eapply wp_load_block; [done|]. by eapply wp_of_option. Qed.

Lemma wp_update_gpu_state p b g f (Q : _ -> va_state -> Prop) F v :
  v_blocks v !! p = Some b -> blk_gpu b = Some g ->
  Q tt (with_blocks (<[p := VaBlock (blk_span b) (Some (f g))]> (v_blocks v)) v) -> wp (update_gpu_state p f) Q F v.
Proof.
  intros Hb Hg HQ. apply wp_bind. eapply wp_load_block; [done|]. apply wp_bind. eapply wp_of_option; [done|]. by apply wp_modify.
Qed.

Lemma wp_in_tree {A} (m : T A) (Q : A -> va_state -> Prop) F v :
  wp m (fun a t => Q a (with_page_tree t v)) (fun f t => F f (with_page_tree t v)) (v_page_tree v) -> wp (in_tree m) Q F v.
Proof. unfold wp, in_tree. by destruct (m (v_page_tree v)). Qed.

Lemma with_page_tree_id v : with_page_tree (v_page_tree v) v = v.
Proof. by destruct v. Qed.
End rules.

(** ** The architectures with tables of big pages below a 2MB entry *)

Record big_hal (h : uvm_mmu_mode_hal_t) (d : Z) : Prop := {
  bh_depth : page_table_depth h UVM_PAGE_SIZE_64K = d + 1;
  bh_agnostic : page_table_depth h UVM_PAGE_SIZE_AGNOSTIC = d + 1;
  bh_range : 0 <= d < page_table_depth h UVM_PAGE_SIZE_4K;
  bh_size_2m : entry_size h d = Some 16;
  bh_size_big : entry_size h (d + 1) = Some 8;
  bh_per_index : entries_per_index h d = Some 2;
  bh_offset : entry_offset h d UVM_PAGE_SIZE_64K = Some 0;
  bh_bits : index_bits h (d + 1) UVM_PAGE_SIZE_64K = Some 5;
  bh_alloc : is_Some (allocation_size h (d + 1) UVM_PAGE_SIZE_64K);
  bh_2m : negb (Z.land (page_sizes h) UVM_PAGE_SIZE_2M =? 0) = true;
  bh_sizes : Z.land 2162688 (page_sizes h) = 2162688;
}.

Lemma hal_big ats a : big_arch a = true -> big_hal (hal_of ats a) (depth_2m ats a).
Proof. intros Ha. split; destruct ats, a; try done; by vm_compute || by eexists. Qed.

(** ** A block of 2MB *)

Definition block_span (S : Z) : va_span := VaSpan S (S + 2097151).

Section full_block.
Context (S : Z) (Hal : S mod 2097152 = 0) (H0 : 0 <= S) (Htop : S + 2097152 <= 2 ^ 63).

Lemma full_range : range_in_block S 2097152.
Proof using Hal H0 Htop. unfold range_in_block. change (2 ^ 21) with 2097152. repeat split; try done; div_lia. Qed.

Lemma full_range_span : range_in_block (vb_start (block_span S)) (vb_end (block_span S) - vb_start (block_span S) + 1).
Proof using Hal H0 Htop. cbn [block_span vb_start vb_end]. replace (S + 2097151 - S + 1) with 2097152 by lia. apply full_range. Qed.

Lemma full_size : uvm_va_block_size (block_span S) = Some 2097152.
Proof using. unfold uvm_va_block_size. cbn [block_span vb_start vb_end]. replace (S + 2097151 - S + 1) with 2097152 by lia. reflexivity. Qed.

Lemma full_round_up : round_up S 65536 = S.
Proof using Hal. unfold round_up. div_lia. Qed.

Lemma full_big_region i : 0 <= i < 32 -> uvm_va_block_big_page_region (block_span S) i UVM_PAGE_SIZE_64K = Some (Region (16 * i) (16 * i + 16)).
Proof using Hal H0 Htop.
  intros Hi. rewrite (big_page_region_spec (block_span S) UVM_PAGE_SIZE_64K (or_introl eq_refl) full_range_span i);
    cbn [block_span vb_start vb_end]; change UVM_PAGE_SIZE_64K with 65536; rewrite ?full_round_up; [|lia|lia].
  replace ((S + i * 65536 - S) / 4096) with (16 * i) by div_lia. replace ((S + (i + 1) * 65536 - S) / 4096) with (16 * i + 16) by div_lia. done.
Qed.

Lemma full_big_index page : 0 <= page < 512 -> uvm_va_block_big_page_index (block_span S) page UVM_PAGE_SIZE_64K = Some (page / 16).
Proof using Hal H0 Htop.
  intros Hp. destruct (big_page_index_in (block_span S) UVM_PAGE_SIZE_64K (or_introl eq_refl) full_range_span page) as (E & _);
    cbn [block_span vb_start vb_end] in *; change UVM_PAGE_SIZE_64K with 65536 in *; [lia|div_lia|div_lia|].
  rewrite E, full_round_up. f_equal. div_lia.
Qed.

Lemma full_cpu_page_address page : 0 <= page < 512 -> uvm_va_block_cpu_page_address (block_span S) page = Some (S + 4096 * page).
Proof using H0 Htop.
  intros Hp. unfold uvm_va_block_cpu_page_address, uvm_va_block_num_cpu_pages. rewrite full_size. cbn [mbind option_bind].
  change (2097152 / PAGE_SIZE) with 512. unfold UVM_ASSERT. rewrite (proj2 (Z.ltb_lt _ _)) by lia. cbn [mbind option_bind].
  change PAGE_SIZE with 4096. cbn [block_span vb_start]. by rewrite u64_small by (unfold is_u64; lia).
Qed.

Lemma full_chunk_region page : 0 <= page < 512 ->
  uvm_va_block_chunk_region (block_span S) 65536 page = Some (Region (page / 16 * 16) (page / 16 * 16 + 16)).
Proof using Hal H0 Htop.
  intros Hp. unfold uvm_va_block_chunk_region. rewrite full_cpu_page_address by done. cbn [mbind option_bind].
  rewrite (align_down_const _ 16) by (done || lia). cbn [mbind option_bind block_span vb_start].
  replace ((S + 4096 * page) / 65536 * 65536 - S) with (page / 16 * 65536) by div_lia.
  assert (0 <= page / 16 <= 31) by div_lia. rewrite u64_small by (unfold is_u64; lia). change PAGE_SIZE with 4096.
  replace (page / 16 * 65536 / 4096) with (page / 16 * 16) by div_lia.
  change (65536 / 4096) with 16. rewrite small_page by div_lia. unfold uvm_va_block_region, UVM_ASSERT. rewrite !small_page by div_lia.
  by rewrite (proj2 (Z.leb_le _ _)) by lia.
Qed.

Lemma full_chunk_index a page : 0 <= page < 512 -> block_gpu_chunk_index (arch_chunk_sizes a) (block_span S) page = Some (page / 16, 65536).
Proof using Hal H0 Htop.
  intros Hp. unfold block_gpu_chunk_index. rewrite full_size. cbn [mbind option_bind block_span vb_start].
  destruct (arch_two_sizes a) as [Hf Hm]. rewrite (index_range_closed S 2097152 full_range) by (done || (change (2097152 / 4096) with 512; lia)).
  rewrite (aligned_cover S 2097152 full_range) by (done || div_lia). apply (f_equal (fun i => Some (i, 65536))). div_lia.
Qed.
End full_block.

(** ** The tables of a block *)

(** The table of the big pages of the block and the directory that holds its 2MB entry:
    pointers, the index of the entry, and where the tables are in memory. *)
Record block_tables := BlockTables {
  bt_big_ptr : Z;
  bt_2m_ptr : Z;
  bt_index : Z;
  bt_big : uvm_mmu_page_table_alloc_t;
  bt_small : option uvm_mmu_page_table_alloc_t;
  bt_2m : uvm_mmu_page_table_alloc_t;
}.

(** The addresses of a big PTE and of the 2MB entry, which has two words. *)
Definition big_pte_addr (bt : block_tables) (i : Z) : uvm_gpu_phys_address_t :=
  PhysAddr (pa_address (bt_big bt) + i * 8) (pa_aperture (bt_big bt)).
Definition pde_addr (bt : block_tables) : uvm_gpu_phys_address_t :=
  PhysAddr (pa_address (bt_2m bt) + bt_index bt * 16) (pa_aperture (bt_2m bt)).

Definition in_pde (bt : block_tables) (ap : uvm_aperture_t) (x : Z) : Prop :=
  ap = phys_aperture (pde_addr bt) /\ (x = phys_address (pde_addr bt) \/ x = phys_address (pde_addr bt) + 8).

(** The child at an index of a directory. *)
Definition child_is (v : va_state) (d : uvm_page_directory_t) (k : Z) (c : option uvm_mmu_page_table_alloc_t) : Prop :=
  exists o, nthZ (pd_entries d) k = Some o /\
    match o with
    | None => c = None
    | Some q => exists d', pt_dirs (v_page_tree v) !! q = Some d' /\ c = Some (pd_phys_alloc d')
    end.

Record has_tables (ge : gpu_env) (v : va_state) (g : uvm_va_block_gpu_state_t) (bt : block_tables) : Prop := {
  ht_range_big : gs_range_big g = Some (PtRange (bt_big_ptr bt) 0 32 UVM_PAGE_SIZE_64K);
  ht_range_2m : gs_range_2m g = Some (PtRange (bt_2m_ptr bt) (bt_index bt) 1 UVM_PAGE_SIZE_2M);
  ht_big : exists d, pt_dirs (v_page_tree v) !! bt_big_ptr bt = Some d /\ pd_phys_alloc d = bt_big bt;
  ht_2m : exists d, pt_dirs (v_page_tree v) !! bt_2m_ptr bt = Some d /\ pd_phys_alloc d = bt_2m bt /\
    pd_depth d = depth_2m (ge_ats ge) (ge_arch ge) /\
    child_is v d (2 * bt_index bt) (Some (bt_big bt)) /\ child_is v d (2 * bt_index bt + 1) (bt_small bt);
  ht_children : children_ok (ge_arch ge) [Some (bt_big bt); bt_small bt];
  ht_index : 0 <= bt_index bt;
  ht_big_bounds : 0 <= pa_address (bt_big bt) /\ pa_address (bt_big bt) + 256 < 2 ^ 64;
  ht_2m_bounds : 0 <= pa_address (bt_2m bt) /\ pa_address (bt_2m bt) + bt_index bt * 16 + 16 < 2 ^ 64;
  ht_apart : forall i, 0 <= i < 32 -> ~ in_pde bt (pa_aperture (bt_big bt)) (pa_address (bt_big bt) + i * 8);
}.

(** The chunk at an index backs its big page with the memory at an address that a PTE
    can hold. *)
Definition backs (ge : gpu_env) (v : va_state) (g : uvm_va_block_gpu_state_t) (i x : Z) : Prop :=
  0 <= i < 32 /\
  (exists c ch, nthZ (gs_chunks g) i = Some (Some c) /\ p_heap (v_pmm v) !! c = Some ch /\ c_address ch = x) /\
  0 <= x < 2 ^ address_bits (ge_arch ge) UVM_APERTURE_VID /\ x mod 4096 = 0.

(** The protection of the entries that the ioctl writes, on a release build. *)
Definition mapped_prot (a : arch) : uvm_prot_t := match a with AHopper => UVM_PROT_READ_WRITE_ATOMIC | _ => UVM_PROT_READ_WRITE end.

Definition big_pte (ge : gpu_env) (x : Z) : Z :=
  default 0 (make_pte (hal_of (ge_ats ge) (ge_arch ge)) UVM_APERTURE_VID x (mapped_prot (ge_arch ge)) UVM_MMU_PTE_FLAGS_CACHED).

Lemma big_pte_decodes ge x :
  0 <= x < 2 ^ address_bits (ge_arch ge) UVM_APERTURE_VID -> x mod 4096 = 0 ->
  make_pte (hal_of (ge_ats ge) (ge_arch ge)) UVM_APERTURE_VID x (mapped_prot (ge_arch ge)) UVM_MMU_PTE_FLAGS_CACHED = Some (big_pte ge x) /\
  decode (ge_arch ge) (big_pte ge x) = Some (requested (ge_arch ge) UVM_APERTURE_VID x (mapped_prot (ge_arch ge)) UVM_MMU_PTE_FLAGS_CACHED).
Proof.
  intros Hx Hal. unfold big_pte.
  destruct (make_pte_reads (ge_ats ge) (ge_arch ge) UVM_APERTURE_VID x (mapped_prot (ge_arch ge)) UVM_MMU_PTE_FLAGS_CACHED)
    as (pte & E & _ & D); [done|by destruct (ge_arch ge)|by vm_compute|done|done|]. by rewrite E.
Qed.

Lemma address_bits_small a : address_bits a UVM_APERTURE_VID <= 57.
Proof. by destruct a. Qed.

(** ** Writing the big PTEs *)

Section write_big.
Context (ge : gpu_env) (F : fault -> va_state -> Prop).
Context (Hrel : ge_debug ge = false) (Harch : big_arch (ge_arch ge) = true).
Context (S : Z) (Hal : S mod 2097152 = 0) (H0 : 0 <= S) (Htop : S + 2097152 <= 2 ^ 63).
Context (p : Z) (v : va_state) (g : uvm_va_block_gpu_state_t) (bt : block_tables).
Context (Hblk : v_blocks v !! p = Some (VaBlock (block_span S) (Some g))) (Ht : has_tables ge v g bt).
Let sizes : Z := arch_chunk_sizes (ge_arch ge).

Lemma wp_contig_region i (Q : _ -> va_state -> Prop) :
  0 <= i < 32 -> Q (Region (16 * i) (16 * i + 16)) v -> wp (block_phys_contig_region sizes p (16 * i)) Q F v.
Proof using Hal H0 Htop Hblk.
  intros Hi HQ. apply wp_bind. eapply wp_load_block; [done|]. cbn [blk_span]. apply wp_bind.
  eapply wp_assert_some; [apply full_chunk_index; (done || lia)|]. cbn [snd].
  eapply wp_assert_some; [apply full_chunk_region; (done || lia)|]. by replace (16 * i / 16 * 16) with (16 * i) by div_lia.
Qed.

Lemma wp_page_address i x (Q : _ -> va_state -> Prop) :
  backs ge v g i x -> Q (PhysAddr x UVM_APERTURE_VID) v -> wp (block_phys_page_address sizes p (16 * i)) Q F v.
Proof using Hal H0 Htop Hblk.
  intros (Hi & (c & ch & Hc & Hch & <-) & Hx & _) HQ. pose proof (address_bits_small (ge_arch ge)).
  assert (2 ^ address_bits (ge_arch ge) UVM_APERTURE_VID <= 2 ^ 57) by (apply Z.pow_le_mono_r; lia).
  apply wp_bind. unfold block_phys_page_chunk. apply wp_bind. eapply wp_load_block; [done|].
  apply wp_bind. eapply wp_gpu_state_of; [done|done|]. cbn [blk_span].
  apply wp_bind. eapply wp_assert_some; [apply full_chunk_index; (done || lia)|]. cbn [fst snd].
  replace (16 * i / 16) with i by div_lia. apply wp_bind. eapply wp_of_option; [done|]. apply wp_bind. eapply wp_of_option; [done|].
  apply wp_bind. eapply wp_pmm_load; [done|]. apply wp_bind. eapply wp_assert_some; [apply full_chunk_region; (done || lia)|].
  apply wp_ret. apply wp_ret. cbn [fst snd first]. replace (16 * i / 16 * 16) with (16 * i) by div_lia.
  by rewrite Z.sub_diag, Z.mul_0_l, Z.add_0_r, u64_small by (unfold is_u64; lia).
Qed.

Lemma wp_big_entry_address i (Q : _ -> va_state -> Prop) :
  0 <= i < 32 -> Q (big_pte_addr bt i) v ->
  wp (in_tree (uvm_page_table_range_entry_address ge (PtRange (bt_big_ptr bt) 0 32 UVM_PAGE_SIZE_64K) i)) Q F v.
Proof using Harch Ht.
  intros Hi HQ. destruct (ht_big _ _ _ _ Ht) as (d & Hd & Ed). destruct (ht_big_bounds _ _ _ _ Ht).
  pose proof (hal_big (ge_ats ge) _ Harch) as Hh. apply wp_in_tree, wp_bind. unfold uvm_mmu_pte_size. cbn [pr_page_size].
  eapply wp_of_option; [rewrite (bh_depth _ _ Hh); apply Hh|]. apply wp_bind. eapply wp_load_dir; [done|].
  apply wp_bind, wp_guard; [cbn [pr_entry_count]; apply Z.ltb_lt; lia|]. apply wp_ret. cbn [pr_start_index]. rewrite with_page_tree_id.
  rewrite Ed, Z.add_0_l, u64_small by (unfold is_u64; lia). done.
Qed.

Lemma wp_write_big_pte i x w b' t' (Q : _ -> va_state -> Prop) :
  backs ge v g i x -> outer (bw_contig_region w) <= 16 * i ->
  uvm_pte_batch_write_pte (big_pte_addr bt i) (big_pte ge x) 8 (bw_pte_batch w) = Some b' ->
  uvm_tlb_batch_invalidate (bw_tlb_batch w) (S + i * 65536) UVM_PAGE_SIZE_64K UVM_PAGE_SIZE_64K UVM_MEMBAR_NONE = Some t' ->
  (forall w', outer (bw_contig_region w') = 16 * i + 16 -> bw_pte_batch w' = b' -> bw_tlb_batch w' = t' -> Q w' v) ->
  wp (write_big_pte ge sizes p UVM_PROT_NONE i w) Q F v.
Proof using Hrel Harch Hal H0 Htop Hblk Ht.
  intros Hb Hc Hw Htl HQ. pose proof Hb as (Hi & _ & Hx & _). pose proof (address_bits_small (ge_arch ge)).
  assert (2 ^ address_bits (ge_arch ge) UVM_APERTURE_VID <= 2 ^ 57) by (apply Z.pow_le_mono_r; lia).
  destruct (big_pte_decodes ge x) as [Hpte _]; [apply Hb..|]. pose proof (hal_big (ge_ats ge) _ Harch) as Hh.
  apply wp_bind. eapply wp_load_block; [done|]. apply wp_bind. eapply wp_gpu_state_of; [done|done|]. cbn [blk_span].
  apply wp_bind. unfold uvm_mmu_pte_size. eapply wp_assert_some; [rewrite (bh_depth _ _ Hh); apply Hh|].
  apply wp_bind. eapply wp_assert_some; [apply full_big_region; done|]. cbn [first].
  rewrite (proj2 (Z.leb_le _ _)) by done. apply wp_bind, wp_bind, wp_contig_region; [done|]. cbn [first].
  apply wp_bind. eapply wp_page_address; [done|]. apply wp_ret. cbn [first phys_address phys_aperture].
  apply wp_bind. eapply wp_of_option; [apply Ht|]. apply wp_bind, wp_big_entry_address; [done|].
  rewrite Z.sub_diag, Z.mul_0_l, Z.add_0_r, u64_small by (unfold is_u64; lia).
  apply wp_bind. eapply wp_assert_some; [unfold make_pte_of_build; rewrite Hrel; unfold mapped_prot in Hpte; by destruct (ge_arch ge)|].
  apply wp_bind. eapply wp_assert_some; [done|]. apply wp_bind. eapply wp_assert_some.
  { unfold uvm_va_block_region_start. cbn [block_span vb_start first]. replace (S + 16 * i * PAGE_SIZE) with (S + i * 65536) by (unfold PAGE_SIZE; lia).
    rewrite u64_small by (unfold is_u64; lia). done. }
  apply wp_ret. by apply HQ.
Qed.
End write_big.

(** ** The requests of the loop *)

Definition big_ops (ge : gpu_env) (bt : block_tables) (x : Z -> Z) (L : list Z) : list pte_op :=
  (fun i => WritePte (big_pte_addr bt i) (big_pte ge (x i)) 8) <$> L.
Definition big_requests (S : Z) (L : list Z) : list request :=
  (fun i => Request (S + i * 65536) UVM_PAGE_SIZE_64K UVM_PAGE_SIZE_64K UVM_MEMBAR_NONE) <$> L.

Section write_loop.
Context (ge : gpu_env) (F : fault -> va_state -> Prop).
Context (Hrel : ge_debug ge = false) (Harch : big_arch (ge_arch ge) = true).
Context (S : Z) (Hal : S mod 2097152 = 0) (H0 : 0 <= S) (Htop : S + 2097152 <= 2 ^ 63).
Context (p : Z) (v : va_state) (g : uvm_va_block_gpu_state_t) (bt : block_tables) (x : Z -> Z).
Context (Hblk : v_blocks v !! p = Some (VaBlock (block_span S) (Some g))) (Ht : has_tables ge v g bt).

Lemma wp_write_big_loop L w b' t' (Q : _ -> va_state -> Prop) :
  Forall (fun i => backs ge v g i (x i)) L -> StronglySorted Z.lt L -> Forall (fun i => outer (bw_contig_region w) <= 16 * i) L ->
  do_ops (big_ops ge bt x L) (bw_pte_batch w) = Some b' -> queue (bw_tlb_batch w) (big_requests S L) = Some t' ->
  (forall w', bw_pte_batch w' = b' -> bw_tlb_batch w' = t' -> Q w' v) ->
  wp (write_big_loop ge (arch_chunk_sizes (ge_arch ge)) p UVM_PROT_NONE L w) Q F v.
Proof using Hrel Harch Hal H0 Htop Hblk Ht.
  intros Hb Hs. revert w Hb. induction Hs as [|i L _ IH Hlt]; intros w Hb Hc Hw Hq HQ; cbn [write_big_loop].
  { cbn in Hw, Hq. injection Hw as Hw. injection Hq as Hq. apply wp_ret. by apply HQ. }
  apply Forall_cons in Hb as [Hi Hb]. apply Forall_cons in Hc as [Hci _]. unfold big_ops in *. unfold big_requests in *.
  rewrite fmap_cons in Hw. rewrite fmap_cons in Hq.
  cbn [do_ops do_op queue rq_start rq_size rq_page_sizes rq_membar] in Hw, Hq.
  destruct (uvm_pte_batch_write_pte _ _ _ _) as [b1|] eqn:E1; [|done]. destruct (uvm_tlb_batch_invalidate _ _ _ _ _) as [t1|] eqn:E2; [|done].
  cbn [mbind option_bind] in Hw, Hq. apply wp_bind.
  eapply (wp_write_big_pte ge F Hrel Harch S Hal H0 Htop p v g bt Hblk Ht); [done|done|done|done|].
  intros w1 Hc1 <- <-. apply IH; [done| |done|done|done].
  eapply Forall_impl; [exact Hlt|]. intros j Hj. cbn beta in Hj |- *. lia.
Qed.
End write_loop.

(** What the entries hold after the requests. *)
Lemma spec_big_ops ge bt x L a :
  NoDup L ->
  (forall i, i ∈ L -> spec_ops a (big_ops ge bt x L) (pa_aperture (bt_big bt)) (pa_address (bt_big bt) + i * 8) = Some (big_pte ge (x i))) /\
  (forall ap y, ~ (ap = pa_aperture (bt_big bt) /\ exists i, i ∈ L /\ y = pa_address (bt_big bt) + i * 8) ->
     spec_ops a (big_ops ge bt x L) ap y = a ap y).
Proof.
  intros Hn. revert a. induction Hn as [|j L Hj _ IH]; intros a; [split; [by intros i ?%not_elem_of_nil|done]|].
  unfold big_ops, spec_ops in *. rewrite fmap_cons. cbn [foldl].
  set (a1 := spec_op a _). specialize (IH a1) as [IH1 IH2].
  assert (Ha1 : forall ap y, a1 ap y = if bool_decide (ap = pa_aperture (bt_big bt) /\ y = pa_address (bt_big bt) + j * 8) then Some (big_pte ge (x j)) else a ap y) by done.
  split.
  - intros i [->|Hi]%elem_of_cons; [|by apply IH1]. rewrite IH2; [by rewrite Ha1, bool_decide_true|].
    intros (_ & k & Hk & E). assert (k = j) by lia. by subst.
  - intros ap y Hy. rewrite IH2, Ha1, bool_decide_false; [done| |].
    + intros [-> ->]. apply Hy. split; [done|]. exists j. split; [by left|done].
    + intros (-> & k & Hk & ->). apply Hy. split; [done|]. exists k. split; [by right|done].
Qed.

Lemma big_ops_ok ge v g bt x L :
  has_tables ge v g bt -> Forall (fun i => backs ge v g i (x i)) L -> Forall op_ok (big_ops ge bt x L).
Proof.
  intros Ht Hb. destruct (ht_big_bounds _ _ _ _ Ht). unfold big_ops. apply Forall_fmap. eapply Forall_impl; [exact Hb|].
  intros i (Hi & _). cbn. unfold span_ok, size_ok. cbn [big_pte_addr phys_address]. lia.
Qed.

Lemma size_64k_supported ats a : big_arch a = true ->
  forall k, 0 <= k -> Z.testbit UVM_PAGE_SIZE_64K k = true -> Z.testbit (page_sizes (hal_of ats a)) k = true.
Proof.
  intros Ha k Hk Hb. assert (k = 16) as ->; [|by destruct ats, a].
  change UVM_PAGE_SIZE_64K with (2 ^ 16) in Hb. rewrite Z.pow2_bits_eqb in Hb by done. by apply Z.eqb_eq in Hb.
Qed.

Lemma big_requests_ok ats a S L :
  big_arch a = true -> S mod 2097152 = 0 -> 0 <= S -> S + 2097152 <= 2 ^ 63 -> Forall (fun i => 0 <= i < 32) L ->
  Forall (request_ok (page_sizes (hal_of ats a))) (big_requests S L) /\ pages_sum (big_requests S L) = Z.of_nat (length L).
Proof.
  intros Ha Hal H0 Htop HL. unfold big_requests. split.
  - apply Forall_fmap. eapply Forall_impl; [exact HL|]. intros i Hi. cbn beta in Hi. split; [done|]. split; [by apply size_64k_supported|].
    exists 65536. split; [reflexivity|]. cbn [rq_start rq_size]. change UVM_PAGE_SIZE_64K with 65536.
    assert (0 <= S + i * 65536 /\ (S + i * 65536) mod 65536 = 0) by div_lia. split; [by exists 16|done|done|lia].
  - clear HL. induction L as [|i L IH]; [done|]. rewrite fmap_cons. cbn [pages_sum foldr length]. fold (pages_sum ((fun i => Request (S + i * 65536) UVM_PAGE_SIZE_64K UVM_PAGE_SIZE_64K UVM_MEMBAR_NONE) <$> L)).
    rewrite IH. change (rq_pages (Request (S + i * 65536) UVM_PAGE_SIZE_64K UVM_PAGE_SIZE_64K UVM_MEMBAR_NONE)) with 1. lia.
Qed.

(** ** Writing the directory entry *)

Lemma up_cons lo hi : lo < hi -> up lo hi = lo :: up (lo + 1) hi.
Proof. intros H. unfold up. rewrite seqZ_cons by lia. do 2 f_equal; lia. Qed.

Lemma up_two k : up k (k + 2) = [k; k + 1].
Proof. rewrite !up_cons by lia. unfold up. by rewrite seqZ_nil by lia. Qed.

(** What the 2MB entry holds. *)
Definition pde_words (ge : gpu_env) (bt : block_tables) : list Z :=
  default [] (make_pde (hal_of (ge_ats ge) (ge_arch ge)) [Some (bt_big bt); bt_small bt] (depth_2m (ge_ats ge) (ge_arch ge))).

Lemma pde_words_reads ge v g bt :
  big_arch (ge_arch ge) = true -> has_tables ge v g bt ->
  make_pde (hal_of (ge_ats ge) (ge_arch ge)) [Some (bt_big bt); bt_small bt] (depth_2m (ge_ats ge) (ge_arch ge)) = Some (pde_words ge bt) /\
  decode_pde (ge_arch ge) (depth_2m (ge_ats ge) (ge_arch ge)) (pde_words ge bt) = Some [Some (bt_big bt); bt_small bt] /\
  exists w1 w2, pde_words ge bt = [w1; w2].
Proof.
  intros Ha Ht. pose proof (hal_big (ge_ats ge) _ Ha) as Hh. unfold pde_words.
  destruct (make_pde_reads (ge_ats ge) (ge_arch ge) (depth_2m (ge_ats ge) (ge_arch ge)) [Some (bt_big bt); bt_small bt])
    as (e & -> & Hd & Hs); [apply Hh|rewrite (bh_per_index _ _ Hh); done|apply Ht|]. cbn [default].
  rewrite (bh_size_2m _ _ Hh) in Hs. destruct e as [|w1 [|w2 [|w3 e]]]; [done|done|by eauto|]. injection Hs as Hs. cbn [length] in Hs. lia.
Qed.

(** The block after its tables have been activated. *)
Definition activated_state (g : uvm_va_block_gpu_state_t) : uvm_va_block_gpu_state_t :=
  set_activated (is_some (gs_range_big g) || gs_activated_big g) (is_some (gs_range_4k g) || gs_activated_4k g) g.
Definition with_activated (p S : Z) (g : uvm_va_block_gpu_state_t) (v : va_state) : va_state :=
  with_blocks (<[p := VaBlock (block_span S) (Some (activated_state g))]> (v_blocks v)) v.

Section write_pde.
Context (ge : gpu_env) (F : fault -> va_state -> Prop).
Context (Hrel : ge_debug ge = false) (Harch : big_arch (ge_arch ge) = true) (S : Z).
Context (p : Z) (v : va_state) (g : uvm_va_block_gpu_state_t) (bt : block_tables).
Context (Hblk : v_blocks v !! p = Some (VaBlock (block_span S) (Some g))) (Ht : has_tables ge v g bt).

Lemma wp_children (Q : _ -> page_tree -> Prop) FT d :
  child_is v d (2 * bt_index bt) (Some (bt_big bt)) -> child_is v d (2 * bt_index bt + 1) (bt_small bt) ->
  Q [Some (bt_big bt); bt_small bt] (v_page_tree v) ->
  wp (children (pd_entries d) false [2 * bt_index bt; 2 * bt_index bt + 1]) Q FT (v_page_tree v).
Proof using.
  intros (o & Ho & Hb) (o' & Ho' & Hs) HQ. destruct o as [q|]; [|done]. destruct Hb as (d1 & Hd1 & E). injection E as E. cbn [children].
  apply wp_bind. eapply wp_of_option; [done|]. apply wp_bind, wp_bind. eapply wp_load_dir; [done|]. apply wp_ret.
  apply wp_bind, wp_bind. eapply wp_of_option; [done|]. apply wp_bind. rewrite E in HQ. destruct o' as [q'|].
  - destruct Hs as (d2 & Hd2 & E2). apply wp_bind. eapply wp_load_dir; [done|]. apply wp_ret, wp_bind, wp_ret, wp_ret, wp_ret. by rewrite <- E2.
  - apply wp_ret, wp_bind, wp_ret, wp_ret, wp_ret. by rewrite <- Hs.
Qed.

Lemma wp_page_tree_write_pde membar push (Q : _ -> va_state -> Prop) :
  Q (push ++ [InlineData (pde_words ge bt); CeMemcopy (pde_addr bt) (length push) 16; MembarCmd membar]) v ->
  wp (in_tree (uvm_page_tree_write_pde ge (PtRange (bt_2m_ptr bt) (bt_index bt) 1 UVM_PAGE_SIZE_2M) membar push)) Q F v.
Proof using Harch Ht.
  intros HQ. pose proof (hal_big (ge_ats ge) _ Harch) as Hh. destruct (ht_2m _ _ _ _ Ht) as (d & Hd & Ep & Edep & Hc & Hc').
  destruct (pde_words_reads ge v g bt Harch Ht) as (Hm & _ & _). destruct (ht_2m_bounds _ _ _ _ Ht). pose proof (ht_index _ _ _ _ Ht).
  apply wp_in_tree, wp_bind, wp_guard; [done|]. apply wp_bind. eapply wp_load_dir; [done|]. cbn [pr_start_index].
  apply wp_bind. rewrite Edep. eapply wp_of_option; [apply Hh|]. apply wp_bind. rewrite up_two. eapply wp_children; [done|done|].
  eapply wp_of_option; [|by rewrite with_page_tree_id]. unfold pde_fill_gpu. rewrite (bh_size_2m _ _ Hh). cbn [mbind option_bind].
  change (16 <=? 16) with true. cbn [UVM_ASSERT mbind option_bind]. rewrite Hm, Ep. cbn [mbind option_bind]. change (16 =? 8) with false.
  cbn [option_bind]. by rewrite u64_small by (unfold is_u64; lia).
Qed.

Lemma wp_write_pde push tlb (Q : _ -> va_state -> Prop) :
  uvm_tlb_batch_invalidate (uvm_tlb_batch_begin (ge_tlb ge)) S UVM_PAGE_SIZE_2M UVM_PAGE_SIZE_2M UVM_MEMBAR_NONE = Some tlb ->
  (forall membar,
    Q (push ++ [InlineData (pde_words ge bt); CeMemcopy (pde_addr bt) (length push) 16; MembarCmd membar; WaitForIdle], tlb) (with_activated p S g v)) ->
  wp (block_gpu_write_pde ge p push (uvm_tlb_batch_begin (ge_tlb ge))) Q F v.
Proof using Hrel Harch Hblk Ht.
  intros Htl HQ. pose proof (hal_big (ge_ats ge) _ Harch) as Hh. destruct (ht_2m _ _ _ _ Ht) as (d & Hd & Ep & _).
  apply wp_bind. eapply wp_load_block; [done|]. apply wp_bind. eapply wp_gpu_state_of; [done|done|]. cbn [blk_span].
  apply wp_bind. eapply wp_assert_some.
  { unfold block_gpu_needs_to_activate_table, block_gpu_supports_2m. rewrite full_size. cbn [mbind option_bind].
    change (2097152 <? UVM_PAGE_SIZE_2M) with false. change (2097152 =? UVM_PAGE_SIZE_2M) with true. cbn [UVM_ASSERT mbind option_bind]. done. }
  apply wp_bind, wp_guard; [by rewrite Hrel|]. apply wp_bind, wp_guard; [by rewrite Hrel|]. apply wp_bind. eapply wp_of_option; [apply Ht|].
  apply wp_bind, wp_in_tree. eapply wp_load_dir; [done|]. rewrite with_page_tree_id. apply wp_bind, wp_page_tree_write_pde. apply wp_bind.
  eapply wp_assert_some; [done|]. apply wp_bind. eapply wp_update_gpu_state; [done|done|]. apply wp_ret. rewrite <- app_assoc. apply HQ.
Qed.
End write_pde.

(** ** The push *)

(** The translation of an address of the block: the MMU reads the 2MB entry, then the
    entry of the big page table that it points to. *)
Definition translate_big (ge : gpu_env) (m : gpu_mem Z) (pde : uvm_gpu_phys_address_t) (va : Z) : option translation :=
  tables ← decode_pde (ge_arch ge) (depth_2m (ge_ats ge) (ge_arch ge))
    [m (phys_aperture pde) (phys_address pde); m (phys_aperture pde) (phys_address pde + 8)];
  big ← mjoin (head tables);
  decode (ge_arch ge) (m (pa_aperture big) (pa_address big + va / 65536 mod 32 * 8)).

Definition in_big (bt : block_tables) (L : list Z) (ap : uvm_aperture_t) (y : Z) : Prop :=
  ap = pa_aperture (bt_big bt) /\ exists i, i ∈ L /\ y = pa_address (bt_big bt) + i * 8.

(** The operations drop the cached 2MB entry of the block at [S]: an invalidate drops the
    entries of its level and of the levels below it, and its level is that of the 2MB entry.
    Where invalidates take a range, one of that level reaches every address of the block, so
    that all its translations go; on Pascal it is sent for the first address of the
    block. *)
Definition block_dropped (ge : gpu_env) (pdb : uvm_gpu_phys_address_t) (S : Z) (ops : list host_op) : Prop :=
  let level := root_level (ge_arch ge) - page_table_depth (hal_of (ge_ats ge) (ge_arch ge)) UVM_PAGE_SIZE_2M in
  Exists (drops pdb S 21 level) ops /\
  (ranged_arch (ge_arch ge) = true ->
   forall va, S <= va < S + UVM_PAGE_SIZE_2M -> Exists (fun op => reaches va op /\ invalidates pdb level false op) ops).

(** The push maps the big pages of [L] at the addresses [x] and keeps all other words of
    memory; its last commands drop the cached 2MB entry of the block. *)
Record mapping_pushed (ge : gpu_env) (pdb : uvm_gpu_phys_address_t) (S : Z) (bt : block_tables) (x : Z -> Z) (L : list Z)
    (m0 : gpu_mem Z) (push : cmds) : Prop := {
  mp_memory : exists m, run_push push m0 = Some m /\
    (forall i, i ∈ L -> m (pa_aperture (bt_big bt)) (pa_address (bt_big bt) + i * 8) = big_pte ge (x i)) /\
    [m (phys_aperture (pde_addr bt)) (phys_address (pde_addr bt)); m (phys_aperture (pde_addr bt)) (phys_address (pde_addr bt) + 8)] =
      pde_words ge bt /\
    (forall ap y, ~ in_pde bt ap y -> ~ in_big bt L ap y -> m ap y = m0 ap y);
  mp_tlb : exists pre words ops, push = pre ++ [WaitForIdle; HostMethods words] /\
    host_ops C06F (ranged_arch (ge_arch ge)) words = Some ops /\
    block_dropped ge pdb S ops;
}.

(** The memory after the PTE writes [q] and the directory entry. *)
Lemma run_pde ge v g bt x L m0 q words membar :
  big_arch (ge_arch ge) = true -> has_tables ge v g bt -> Forall (fun i => 0 <= i < 32) L -> NoDup L ->
  (exists m, run_push q m0 = Some m /\ refines (spec_ops (specified m0) (big_ops ge bt x L)) m) ->
  exists m, run_push ((q ++ [InlineData (pde_words ge bt); CeMemcopy (pde_addr bt) (length q) 16; MembarCmd membar; WaitForIdle]) ++ [HostMethods words]) m0 = Some m /\
    (forall i, i ∈ L -> m (pa_aperture (bt_big bt)) (pa_address (bt_big bt) + i * 8) = big_pte ge (x i)) /\
    [m (phys_aperture (pde_addr bt)) (phys_address (pde_addr bt)); m (phys_aperture (pde_addr bt)) (phys_address (pde_addr bt) + 8)] =
      pde_words ge bt /\
    (forall ap y, ~ in_pde bt ap y -> ~ in_big bt L ap y -> m ap y = m0 ap y).
Proof.
  intros Ha Ht HL Hn (m1 & Hr & Href). destruct (pde_words_reads ge v g bt Ha Ht) as (_ & _ & w1 & w2 & Ew).
  destruct (spec_big_ops ge bt x L (specified m0) Hn) as [Hb Ho]. pose proof (ht_apart _ _ _ _ Ht) as Hap. unfold in_pde in Hap.
  exists (mem_block m1 (phys_aperture (pde_addr bt)) (phys_address (pde_addr bt)) [w1; w2]).
  assert (Hm : forall ap y, ~ in_pde bt ap y -> mem_block m1 (phys_aperture (pde_addr bt)) (phys_address (pde_addr bt)) [w1; w2] ap y = m1 ap y).
  { intros ap y Hy. unfold in_pde in Hy. cbn [mem_block]. unfold mem_write, PTE_WORD. rewrite !bool_decide_false by tauto. done. }
  split; [|split; [|split]].
  - rewrite <- app_assoc. eapply run_push_app; [exact Hr|]. cbn [run_cmds run_cmd app mbind option_bind].
    replace (_ !! length q) with (Some (InlineData (pde_words ge bt))) by (symmetry; by apply list_lookup_middle). by rewrite Ew.
  - intros i Hi. rewrite Hm; [by apply Href, Hb|]. apply Hap. by rewrite Forall_forall in HL; apply HL.
  - rewrite Ew. cbn [mem_block]. unfold mem_write, PTE_WORD. rewrite bool_decide_false by (intros [_ ?]; lia). by rewrite !bool_decide_true.
  - intros ap y Hy Hy'. rewrite Hm by done. apply Href. by rewrite Ho.
Qed.

Lemma seqZ_sorted m len : StronglySorted Z.lt (seqZ m len).
Proof.
  destruct (Z.le_gt_cases 0 len) as [H|H]; [|by rewrite seqZ_nil by lia; constructor].
  revert m. pattern len. apply natlike_ind; [by constructor| |done]. intros n Hn IH m. rewrite seqZ_cons, Z.pred_succ by lia.
  apply StronglySorted_cons. split; [|apply IH]. apply Forall_forall. intros y Hy%elem_of_seqZ. lia.
Qed.

Lemma filter_sorted f (l : list Z) : StronglySorted Z.lt l -> StronglySorted Z.lt (List.filter f l).
Proof.
  induction 1 as [|y l _ IH Hy]; [by constructor|]. cbn [List.filter]. destruct (f y); [|done]. apply StronglySorted_cons. split; [|done].
  rewrite Forall_forall in Hy |- *. intros z [Hz _]%list_elem_of_In%filter_In. by apply Hy, list_elem_of_In.
Qed.

Lemma set_bits_sorted mask n : StronglySorted Z.lt (set_bits mask n).
Proof. apply filter_sorted, seqZ_sorted. Qed.

Lemma sorted_nodup (l : list Z) : StronglySorted Z.lt l -> NoDup l.
Proof.
  induction 1 as [|y l _ IH Hy]; constructor; [|done]. intros Hin. rewrite Forall_forall in Hy. specialize (Hy y Hin). lia.
Qed.

(** No page of the block is mapped by a 2MB or 4KB entry. *)
Definition unmapped_prot (g : uvm_va_block_gpu_state_t) : Prop :=
  Z.testbit (gs_pte_bits_atomic g) 0 = false /\ Z.testbit (gs_pte_bits_write g) 0 = false /\ Z.testbit (gs_pte_bits_read g) 0 = false.

Lemma last_two (q : cmds) c1 c2 c3 c4 c5 : (q ++ [c1; c2; c3; c4]) ++ [c5] = (q ++ [c1; c2; c3]) ++ [c4; c5].
Proof. by rewrite <- !app_assoc. Qed.

Section push.
Context (ge : gpu_env) (F : fault -> va_state -> Prop).
Context (Hrel : ge_debug ge = false) (Harch : big_arch (ge_arch ge) = true).
Context (num : Z) (pdb : uvm_gpu_phys_address_t) (Hpdb : pdb_ok pdb) (Hnum : 0 <= num) (Hroom : room [] (32 + 4 * (num + 1))).
Context (Htlb : tlb_tree_of (ge_arch ge) (ge_ats ge) num pdb = Some (ge_tlb ge)).
Context (S : Z) (Hal : S mod 2097152 = 0) (H0 : 0 <= S) (Htop : S + 2097152 <= 2 ^ 63).

Lemma room_batch : room [] (max_pages_or_ranges (tree_props (ge_tlb ge)) + 4 * (num + 1)).
Proof using Harch Hroom Htlb.
  assert (max_pages_or_ranges (tree_props (ge_tlb ge)) <= 32) by (destruct (ge_arch ge); [done|done|by injection Htlb as <-..]).
  unfold room in *. lia.
Qed.

(** The TLB batch of the PTEs can be ended. *)
Lemma big_tlb_batch L tlb_membar :
  Forall (fun i => 0 <= i < 32) L -> (length L <= 4)%nat ->
  exists t words, queue (uvm_tlb_batch_begin (ge_tlb ge)) (big_requests S L) = Some t /\ uvm_tlb_batch_end t tlb_membar [] = Some words.
Proof using Harch Hpdb Hnum Hroom Htlb Hal H0 Htop.
  intros HL Hlen. destruct (big_requests_ok (ge_ats ge) (ge_arch ge) S L) as [Hok Hsum]; [done..|].
  destruct (tlb_batch_spec (ge_arch ge) (ge_ats ge) num pdb (ge_tlb ge) (big_requests S L) tlb_membar [] [])
    as (t & words & new & E1 & E2 & _); [done|done|done|done|lia|done|apply room_batch|]. by exists t, words.
Qed.

(** The TLB batch of the 2MB entry. *)
Lemma pde_tlb_batch :
  exists t words ops,
    uvm_tlb_batch_invalidate (uvm_tlb_batch_begin (ge_tlb ge)) S UVM_PAGE_SIZE_2M UVM_PAGE_SIZE_2M UVM_MEMBAR_NONE = Some t /\
    uvm_tlb_batch_end t UVM_MEMBAR_NONE [] = Some words /\ host_ops C06F (ranged_arch (ge_arch ge)) words = Some ops /\
    block_dropped ge pdb S ops.
Proof using Harch Hpdb Hnum Hroom Htlb Hal H0 Htop.
  destruct (ranged_arch (ge_arch ge)) eqn:Hr.
  - destruct (tlb_block_spec (ge_arch ge) (ge_ats ge) num pdb (ge_tlb ge) S UVM_MEMBAR_NONE) as (t & words & invs & E1 & E2 & Ho & Hi & Hx);
      [done|done|done|done|done|done|change UVM_PAGE_SIZE_2M with 2097152; lia|unfold room in *; lia|].
    exists t, words, (invs ++ membar_ops num UVM_MEMBAR_NONE). split; [done|]. split; [done|]. split; [done|].
    assert (Hev : forall va, S <= va < S + UVM_PAGE_SIZE_2M -> exists op, op ∈ invs /\ reaches va op /\
      invalidates pdb (root_level (ge_arch ge) - page_table_depth (hal_of (ge_ats ge) (ge_arch ge)) UVM_PAGE_SIZE_2M) false op).
    { intros va Hva. pose proof (Hx va Hva) as (op & Hop & Hre)%Exists_exists. rewrite Forall_forall in Hi. eauto. }
    split.
    + destruct (Hev S) as (op & Hop & Hre & Hv); [change UVM_PAGE_SIZE_2M with 2097152; lia|]. apply Exists_app. left. apply Exists_exists. exists op. split; [done|].
      eexists _, false. split; [exact Hv|]. split; [lia|]. exists S. split; [lia|done].
    + intros _ va Hva. destruct (Hev va Hva) as (op & Hop & Hre). apply Exists_app. left. apply Exists_exists. by exists op.
  - destruct (tlb_batch_spec (ge_arch ge) (ge_ats ge) num pdb (ge_tlb ge) [Request S UVM_PAGE_SIZE_2M UVM_PAGE_SIZE_2M UVM_MEMBAR_NONE] UVM_MEMBAR_NONE [] [])
      as (t & words & new & E1 & E2 & Ho & (invs & -> & _ & Hd)); [done|done|done| |by vm_compute|done|apply room_batch|].
    { constructor; [|constructor]. split; [done|]. split.
      - cbn [rq_page_sizes]. intros k Hk Hb. change UVM_PAGE_SIZE_2M with (2 ^ 21) in Hb. rewrite Z.pow2_bits_eqb in Hb by done.
        apply Z.eqb_eq in Hb as <-. clear -Harch. by destruct (ge_ats ge), (ge_arch ge).
      - exists UVM_PAGE_SIZE_2M. split; [reflexivity|]. cbn [rq_start rq_size]. change UVM_PAGE_SIZE_2M with 2097152.
        split; [by exists 21|done|done|lia]. }
    cbn [queue rq_start rq_size rq_page_sizes rq_membar] in E1. destruct (uvm_tlb_batch_invalidate _ _ _ _ _) as [t1|]; [|done].
    injection E1 as ->. rewrite Hr in Ho. cbn [app] in Ho. eexists t, words, _. split; [done|]. split; [done|]. split; [exact Ho|]. split; [|by rewrite Hr].
    apply Exists_app. left. rewrite Forall_singleton in Hd.
    assert (Htree : tree_pdb (ge_tlb ge) = pdb /\ tree_page_table_depth (ge_tlb ge) = page_table_depth (hal_of (ge_ats ge) (ge_arch ge))) by (clear -Htlb; destruct (ge_arch ge); try done; by injection Htlb as <-).
    destruct Htree as [<- <-]. apply (Hd S 21); [done|done| |cbn; change UVM_PAGE_SIZE_2M with 2097152; lia|cbn; lia]. apply Z.mod_divide; [done|exact Hal].
Qed.

Context (p : Z) (v : va_state) (g : uvm_va_block_gpu_state_t) (bt : block_tables) (x : Z -> Z).
Context (Hblk : v_blocks v !! p = Some (VaBlock (block_span S) (Some g))) (Ht : has_tables ge v g bt).
Context (Hprot : unmapped_prot g) (m0 : gpu_mem Z).

(** The big PTEs, with the invalidates that come before them in the push. *)
Lemma wp_write_big L mask tlb_membar (Q : _ -> va_state -> Prop) :
  set_bits mask 32 = L -> Forall (fun i => backs ge v g i (x i)) L -> (length L <= 4)%nat ->
  (forall b, batch_inv m0 b (spec_ops (specified m0) (big_ops ge bt x L)) -> Q b v) ->
  wp (mbind' (block_gpu_pte_write_big ge (arch_chunk_sizes (ge_arch ge)) p UVM_PROT_NONE mask (uvm_pte_batch_begin []) (uvm_tlb_batch_begin (ge_tlb ge)))
        (fun w => tlb_batch_end_in (snd w) tlb_membar (fst w))) Q F v.
Proof using All.
  intros HL Hb Hlen HQ. destruct (do_ops_spec m0 _ _ _ (begin_inv [] m0 m0 eq_refl) (big_ops_ok ge v g bt x L Ht Hb)) as (b' & Eb & Hinv & _).
  destruct (big_tlb_batch L tlb_membar) as (t & words & Et & Ew); [|done|].
  { eapply Forall_impl; [exact Hb|]. by intros i (Hi & _). }
  pose proof (set_bits_sorted mask 32) as Hs. rewrite HL in Hs.
  assert (Hni : pb_inlining b' = false).
  { refine (do_ops_queued _ _ _ 0 _ Eb eq_refl _ _); [by apply Forall_fmap, Forall_forall|done|]. unfold big_ops. rewrite length_fmap. change UVM_PTE_BATCH_MAX_PTES with 4. lia. }
  apply wp_bind, wp_bind, wp_guard; [by rewrite Hrel|]. apply wp_bind. change MAX_BIG_PAGES_PER_UVM_VA_BLOCK with 32. rewrite HL.
  eapply (wp_write_big_loop ge F Hrel Harch S Hal H0 Htop p v g bt x Hblk Ht L _ b' t); [done|done| |done|done|].
  { eapply Forall_impl; [exact Hb|]. intros i (Hi & _). cbn [outer bw_contig_region]. lia. }
  intros w <- <-. apply wp_ret. cbn [fst snd]. apply wp_bind, wp_guard; [by rewrite Hni|]. apply wp_bind. eapply wp_assert_some.
  { unfold tlb_batch_end_on. by rewrite Ew. }
  apply wp_ret. apply HQ. by apply host_methods_inv.
Qed.

Lemma wp_page_prot (Q : _ -> va_state -> Prop) : Q UVM_PROT_NONE v -> wp (block_page_prot_gpu p 0) Q F v.
Proof using Hblk Hprot.
  intros HQ. apply wp_bind. eapply wp_load_block; [done|]. cbn [blk_gpu]. apply wp_ret. by destruct Hprot as (-> & -> & ->).
Qed.

Lemma wp_push_mapping L mask tlb_membar (Q : _ -> va_state -> Prop) :
  set_bits mask 32 = L -> Forall (fun i => backs ge v g i (x i)) L -> (length L <= 4)%nat ->
  (forall push, mapping_pushed ge pdb S bt x L m0 push -> Q push (with_activated p S g v)) ->
  wp (push_mapping ge (arch_chunk_sizes (ge_arch ge)) p tlb_membar mask) Q F v.
Proof using All.
  intros HL Hb Hlen HQ. destruct pde_tlb_batch as (t & words & ops & Et & Ew & Ho & Hr).
  apply wp_bind, wp_page_prot. apply wp_assoc. apply wp_bind. eapply wp_write_big; [done|done|done|]. intros b Hinv.
  destruct (end_spec m0 b _ Hinv) as (body & m & Ee & Hrun & Href). apply wp_bind, wp_page_prot. cbn [prot_eqb].
  apply wp_bind, wp_bind, wp_guard; [by rewrite Hrel|]. eapply wp_assert_some; [done|]. apply wp_bind.
  eapply (wp_write_pde ge F Hrel Harch S p v g bt Hblk Ht); [done|]. intros membar. cbn [fst snd].
  eapply wp_assert_some; [unfold tlb_batch_end_on; by rewrite Ew|]. apply HQ. split.
  - eapply (run_pde ge v g); [done|done| |by rewrite <- HL; apply sorted_nodup, set_bits_sorted|by exists m].
    eapply Forall_impl; [exact Hb|]. by intros i (Hi & _).
  - eexists _, words, ops. split; [apply last_two|done].
Qed.
End push.
