(* ===== verification/UvmMapHandleCorrect.v ===== *)
(** Correctness of the ioctl [uvm_api_map_handle] on a release build: it finds or makes
    the block of the address, enters the chunks of the handle in it, makes its page
    tables when it has none, and pushes the commands that map the pages. *)

From stdpp Require Import sorting.
From S2P Require Import Prelude UvmBits UvmCommon UvmMmuHal UvmMmuHalCorrect UvmRangeTree UvmPush UvmHostTlb UvmTlbBatch UvmPteBatch UvmTracker UvmPmm UvmPmmTree UvmPmmInv UvmPmmOps UvmPmmLeaf UvmPmmMerge UvmPmmFree UvmPmmSplit UvmPmmAlloc UvmPmmRoot UvmPmmCorrect UvmPmmHandle UvmPmmKeep UvmPmmIoctl UvmPmmHandleCorrect UvmVaBlock UvmVaBlockCorrect UvmPageTree UvmPageTreeWalk UvmPageTreeCorrect UvmMapHandle UvmMapPush.
Local Open Scope Z_scope.

(** ** What the ioctl may change in the physical memory manager *)

(** The chunks differ at most in their VA block, and memory has been allocated. *)
Definition remapped (s s' : uvm_pmm_gpu_t) : Prop :=
  (exists k h, s' = with_kmem k (with_heap h s)) /\
  forall q, option_Forall2 (fun d d' => exists b, d' = set_va_block b d) (p_heap s !! q) (p_heap s' !! q).

#[export] Instance remapped_refl : Reflexive remapped.
Proof.
  intros s. split; [exists (p_kmem s), (p_heap s); by destruct s|]. intros q. destruct (p_heap s !! q) as [d|]; constructor.
  exists (c_va_block d). by destruct d.
Qed.

#[export] Instance remapped_trans : Transitive remapped.
Proof.
  intros s1 s2 s3 [E1 H1] [E2 H2]. split; [destruct E1 as (? & ? & ->), E2 as (k & h & ->); by exists k, h|].
  intros q. specialize (H1 q). specialize (H2 q). revert H2. destruct H1 as [d d' (b & ->)|]; intros H2; inversion H2 as [? ? (b' & ->)|]; constructor. by exists b'.
Qed.

Lemma remapped_lookup s s' q d : remapped s s' -> p_heap s !! q = Some d -> exists b, p_heap s' !! q = Some (set_va_block b d).
Proof. intros [_ H] Hd. specialize (H q). rewrite Hd in H. inversion H as [? ? (b & ->)|]; subst. by exists b. Qed.

Lemma remapped_set s q d b : p_heap s !! q = Some d -> remapped s (put (<[q := set_va_block b d]> (p_heap s)) (p_lists s) s).
Proof.
  intros Hd. split; [exists (p_kmem s), (<[q := set_va_block b d]> (p_heap s)); by destruct s|]. intros j. cbn. rewrite lookup_insert.
  destruct (decide (q = j)) as [<-|]; [rewrite Hd; constructor; by exists b|]. apply (remapped_refl s).
Qed.

(** Memory for [n] allocations. *)
Definition memory_for (n : nat) (v : va_state) : Prop := exists rest, p_kmem (v_pmm v) = replicate n true ++ rest.

Lemma memory_for_le n n' v : (n' <= n)%nat -> memory_for n v -> memory_for n' v.
Proof.
  intros Hn (rest & E). exists (replicate (n - n') true ++ rest). rewrite E, app_assoc, <- replicate_add. repeat f_equal. lia.
Qed.

Lemma wp_kmalloc n (Q : bool -> va_state -> Prop) F v :
  memory_for (S n) v ->
  (forall s, remapped (v_pmm v) s -> memory_for n (with_pmm s v) -> Q true (with_pmm s v)) -> wp kmalloc_ok Q F v.
Proof.
  intros (rest & E) HQ. apply wp_in_pmm. unfold wp, kmem_ok. rewrite E. cbn [replicate app]. apply HQ; [|by exists rest].
  split; [exists (replicate n true ++ rest), (p_heap (v_pmm v)); by destruct (v_pmm v)|]. apply (remapped_refl (v_pmm v)).
Qed.

(** ** The block of an address *)

Lemma iter_first_hit t r s e :
  range_tree_inv t -> r ∈ rt_head t -> n_start t r <= s <= n_end t r -> s <= e -> uvm_range_tree_iter_first t s e = Some (Some r).
Proof.
  intros Hinv Hr Hs Hse. destruct (iter_first_spec t s e Hinv Hse) as (o & -> & Hf). do 2 f_equal.
  destruct Hf as [A y B Hl HA Hy1 Hy2|A B Hl HA HB]; rewrite Hl in Hr; rewrite Forall_forall in HA.
  - destruct (inv_split t A y B Hinv Hl) as (_ & _ & _ & _ & HB). rewrite Forall_forall in HB.
    apply elem_of_app in Hr as [Hr|[->|Hr]%elem_of_cons]; [|done|].
    + specialize (HA r Hr). cbn in HA. lia.
    + specialize (HB r Hr). cbn in HB. lia.
  - rewrite Forall_forall in HB. apply elem_of_app in Hr as [Hr|Hr].
    + specialize (HA r Hr). cbn in HA. lia.
    + specialize (HB r Hr). cbn in HB. lia.
Qed.

(** A range whose start is the start of a block. *)
Record range_at (v : va_state) (r : Z) (node : range) : Prop := {
  ra_tree : range_tree_inv (v_tree v);
  ra_head : r ∈ rt_head (v_tree v);
  ra_node : rt_nodes (v_tree v) !! r = Some node;
  ra_start : 0 <= r_start node /\ r_start node mod 2097152 = 0;
  ra_end : r_end node < 2 ^ 63;
}.

Lemma page_aligned x : x mod 4096 = 0 -> IS_ALIGNED x PAGE_SIZE = true.
Proof. apply (IS_ALIGNED_spec x 12). done. Qed.

Section block.
Context (v : va_state) (r : Z) (node : range) (Hr : range_at v r node).
Context (k : Z) (Hk : 0 <= k).
Let S : Z := r_start node + k * 2097152.
Context (Hend : S + 2097151 <= r_end node).

Lemma block_aligned : S mod 2097152 = 0 /\ 0 <= S /\ S + 2097152 <= 2 ^ 63.
Proof using Hr Hk Hend. destruct (ra_start _ _ _ Hr). pose proof (ra_end _ _ _ Hr). unfold S in *. split; [|lia]. div_lia. Qed.

Lemma block_calc : block_calc_start node k = Some S /\ block_calc_end node k = Some (S + 2097151).
Proof using Hr Hk Hend.
  destruct (ra_start _ _ _ Hr) as [H0 Hm]. pose proof (ra_end _ _ _ Hr) as He.
  assert (Hs : block_calc_start node k = Some S).
  { unfold block_calc_start, UVM_VA_BLOCK_ALIGN_DOWN. rewrite (align_down_const _ 21) by (done || lia). cbn [mbind option_bind].
    change UVM_VA_BLOCK_SIZE with 2097152. unfold S in *.
    replace (r_start node / 2097152 * 2097152) with (r_start node) by div_lia. rewrite (u64_small (k * 2097152)) by (unfold is_u64; lia).
    rewrite u64_small by (unfold is_u64; lia). rewrite Z.max_r by lia. unfold UVM_ASSERT. by rewrite (proj2 (Z.ltb_lt _ _)) by lia. }
  split; [done|]. unfold block_calc_end. rewrite Hs. cbn [mbind option_bind]. destruct block_aligned as (Ha & Hb & Hc).
  assert (r_start node <= S) by (unfold S; lia). clearbody S. unfold UVM_VA_BLOCK_ALIGN_UP. rewrite u64_small by (unfold is_u64; lia). rewrite (align_up_const _ 21) by (done || lia).
  cbn [mbind option_bind]. change UVM_VA_BLOCK_SIZE with 2097152. unfold round_up. replace ((S + 1 + 2097152 - 1) / 2097152 * 2097152) with (S + 2097152) by div_lia.
  rewrite u64_small by (unfold is_u64; lia). rewrite Z.min_r by lia. unfold UVM_ASSERT. rewrite (proj2 (Z.ltb_lt _ _)) by lia. cbn [mbind option_bind]. f_equal. lia.
Qed.

(** The block at the index, as it is or will be: [og] is its GPU state. *)
Definition slot_ok (blocks : list (option Z)) (og : option uvm_va_block_gpu_state_t) : Prop :=
  exists ob, nthZ blocks k = Some ob /\
    match ob with
    | Some p => v_blocks v !! p = Some (VaBlock (block_span S) og)
    | None => og = None
    end.

Record entered_block (blocks : list (option Z)) (og : option uvm_va_block_gpu_state_t) (p : Z) (v' : va_state) : Prop := {
  eb_pmm : remapped (v_pmm v) (v_pmm v');
  eb_tree : v_tree v' = v_tree v;
  eb_range : v_range_blocks v' = <[r := setZ blocks k (Some p)]> (v_range_blocks v);
  eb_block : v_blocks v' = <[p := VaBlock (block_span S) og]> (v_blocks v);
  eb_page_tree : v_page_tree v' = v_page_tree v;
}.

Context (F : fault -> va_state -> Prop).

Lemma wp_va_block_create n (Q : _ -> va_state -> Prop) :
  memory_for (Datatypes.S n) v ->
  (forall s, remapped (v_pmm v) s -> memory_for n (with_pmm s v) ->
     Q (Some (v_next v)) (with_blocks (<[v_next v := VaBlock (block_span S) None]> (v_blocks v)) (with_vnext (v_next v + 1) (with_pmm s v)))) ->
  wp (uvm_va_block_create node S (S + 2097151)) Q F v.
Proof using Hr Hk Hend.
  intros Hmem HQ. destruct block_aligned as (Ha & Hb & Hc). pose proof (ra_start _ _ _ Hr) as [Hs0 _].
  assert (Hs : r_start node <= S) by (unfold S; lia). clearbody S. unfold uvm_va_block_create.
  replace (S + 2097151 - S + 1) with 2097152 by lia. replace (S + 2097151 + 1) with (S + 2097152) by lia.
  apply wp_bind, wp_guard.
  { rewrite (u64_small (S + 2097152)) by (unfold is_u64; lia). unfold PAGE_ALIGNED. rewrite !page_aligned by div_lia. reflexivity. }
  apply wp_bind, wp_guard; [by rewrite !(proj2 (Z.leb_le _ _)) by lia|].
  unfold UVM_VA_BLOCK_ALIGN_DOWN. change UVM_VA_BLOCK_SIZE with 2097152.
  apply wp_bind. eapply wp_assert_some; [by rewrite (align_down_const _ 21) by (done || lia)|].
  apply wp_bind. eapply wp_assert_some; [by rewrite (align_down_const _ 21) by (done || lia)|].
  apply wp_bind, wp_guard; [apply Z.eqb_eq; div_lia|]. apply wp_bind. eapply wp_kmalloc; [done|]. intros s Hs' Hm. cbn [mbind'].
  by apply HQ.
Qed.

Lemma wp_range_block n blocks og (Q : _ -> va_state -> Prop) :
  memory_for (Datatypes.S n) v -> v_range_blocks v !! r = Some blocks -> slot_ok blocks og ->
  (forall p v', entered_block blocks og p v' -> memory_for n v' -> Q (Some p) v') ->
  wp (uvm_va_range_block_create r k) Q F v.
Proof using Hr Hk Hend.
  intros Hmem Hbl (ob & Hob & Hslot) HQ. apply wp_bind, wp_get. apply wp_bind. eapply wp_of_option; [apply Hr|].
  apply wp_bind. eapply wp_of_option; [done|]. apply wp_bind. eapply wp_of_option; [done|]. destruct ob as [p|].
  - apply wp_ret. apply HQ; [|by eapply memory_for_le; [|done]; lia]. split; try done.
    + rewrite setZ_same, insert_id by done. done.
    + by rewrite insert_id.
  - subst og. destruct block_calc as [-> ->]. apply wp_bind. eapply wp_assert_some; [done|]. apply wp_bind. eapply wp_assert_some; [done|].
    apply wp_bind. eapply wp_va_block_create; [done|]. intros s Hs Hm. apply wp_bind, wp_modify, wp_ret. apply HQ; [|done].
    by split.
Qed.

(** The address is in the block. *)
Lemma wp_block_of_address n blocks og address e (Q : _ -> va_state -> Prop) :
  memory_for (Datatypes.S n) v -> v_range_blocks v !! r = Some blocks -> slot_ok blocks og -> S <= address < S + 2097152 -> address <= e ->
  (forall p v', entered_block blocks og p v' -> memory_for n v' -> Q p v') ->
  wp (block_of_address address e) Q F v.
Proof using Hr Hk Hend.
  intros Hmem Hbl Hslot Haddr He HQ. destruct block_aligned as (Ha & Hb & Hc). destruct Hr as [R1 R2 R3 [R4 R4'] R5].
  assert (Hn : n_start (v_tree v) r = r_start node /\ n_end (v_tree v) r = r_end node) by (unfold n_start, n_end, node_at; by rewrite R3).
  destruct Hn as [Hn1 Hn2]. assert (HS : S = r_start node + k * 2097152) by done.
  apply wp_bind. apply wp_bind, wp_get. eapply wp_assert_some; [apply (iter_first_hit _ r); [done|done|lia|done]|].
  apply wp_bind. eapply wp_of_option; [done|]. apply wp_bind, wp_get. apply wp_bind. eapply wp_of_option; [done|].
  apply wp_bind. eapply wp_of_option; [unfold get_offset_index; change UVM_VA_BLOCK_SIZE with 2097152; done|].
  rewrite u64_small by (unfold is_u64; lia). replace ((address - r_start node) / 2097152) with k by (clearbody S; div_lia).
  apply wp_bind. eapply wp_range_block; [done|done|done|]. intros p v' Hent Hm. eapply wp_of_option; [done|]. by apply HQ.
Qed.
End block.

(** ** The chunks of a handle *)

(** The handle [a] of [n] big pages: the table of the root chunk has its chunk, whose
    table has a chunk for each page. *)
Record handle_of (s : uvm_pmm_gpu_t) (a n c : Z) (sub : Z -> Z) : Prop := {
  hd_addr : 0 <= a <= p_max_allocatable_address s /\ p_max_allocatable_address s < 2 ^ 64;
  hd_root : exists rc, p_heap s !! (a / 2097152) = Some rc /\ c_address rc = a / 2097152 * 2097152 /\
    nthZ (c_allocated_chunks rc) (a mod 2097152 / (n * 65536)) = Some (Some c);
  hd_chunk : exists cc, p_heap s !! c = Some cc /\
    forall j, 0 <= j < n -> nthZ (c_allocated_chunks cc) j = Some (Some (sub j));
  hd_sub : forall j, 0 <= j < n -> exists d, p_heap s !! sub j = Some d /\ c_address d = a + j * 65536;
}.

Lemma handle_of_remapped s s' a n c sub : remapped s s' -> handle_of s a n c sub -> handle_of s' a n c sub.
Proof.
  intros Hre [H1 (rc & Hr & Ha & Ht) (cc & Hc & Hj) Hs].
  split.
  - destruct Hre as [(k & h & ->) _]. done.
  - destruct (remapped_lookup s s' _ _ Hre Hr) as (b & ->). by eexists.
  - destruct (remapped_lookup s s' _ _ Hre Hc) as (b & ->). by eexists.
  - intros j Hj0. destruct (Hs j Hj0) as (d & Hd & E). destruct (remapped_lookup s s' _ _ Hre Hd) as (b & ->). by eexists.
Qed.

Lemma wp_chunk_of_handle a n c sub (Q : Z -> va_state -> Prop) F v :
  0 < n -> handle_of (v_pmm v) a n c sub -> Q c v -> wp (chunk_of_handle a (n * 65536)) Q F v.
Proof.
  intros Hn [[H1 H1'] (rc & Hr & Ha & Ht) _ _] HQ. change UVM_CHUNK_SIZE_MAX with 2097152 in *.
  apply wp_bind, wp_in_pmm. apply wp_bind, wp_get. change UVM_CHUNK_SIZE_MAX with 2097152. apply wp_bind. eapply wp_load; [done|].
  apply wp_bind, wp_assert; [apply Z.leb_le; lia|]. apply wp_bind. eapply wp_of_option; [apply (align_down_const a 21); [done|lia|done]|].
  apply wp_bind, wp_assert; [by apply Z.eqb_eq|]. apply wp_ret. rewrite with_pmm_id. apply wp_bind. eapply wp_pmm_load; [done|].
  apply wp_bind. eapply wp_of_option; [unfold get_offset_index; rewrite (proj2 (Z.eqb_neq _ _)) by lia; done|].
  rewrite Ha. replace (a - a / 2097152 * 2097152) with (a mod 2097152) by (rewrite Z.mod_eq by done; lia).
  pose proof (Z.mod_pos_bound a 2097152 ltac:(lia)). rewrite u64_small by (unfold is_u64; lia). apply wp_bind, wp_in_pmm.
  apply wp_bind. eapply wp_load; [done|]. eapply wp_of_option; [done|]. rewrite with_pmm_id. by eapply wp_of_option.
Qed.

(** ** Entering the chunks in the block *)

Lemma int_bit_spec i : 0 <= i < 32 -> exists b, int_bit i = Some b /\ forall k, 0 <= k < 32 -> Z.testbit b k = (k =? i).
Proof.
  intros Hi. unfold int_bit. rewrite (proj2 (Z.leb_le 0 i)), (proj2 (Z.leb_le i 31)) by lia. eexists. split; [done|]. intros k Hk.
  assert (H : forallb (fun i => forallb (fun k => bool_decide (Z.testbit (u64 (int32 (Z.shiftl 1 i))) k = (k =? i))) (up 0 32)) (up 0 32) = true) by by vm_compute.
  rewrite forallb_forall in H. specialize (H i). rewrite forallb_forall in H. eapply bool_decide_eq_true, H; apply list_elem_of_In, elem_of_up; lia.
Qed.

Definition state_with (v : va_state) (s : uvm_pmm_gpu_t) (p S : Z) (g : uvm_va_block_gpu_state_t) : va_state :=
  with_pmm s (with_blocks (<[p := VaBlock (block_span S) (Some g)]> (v_blocks v)) v).

Lemma wp_map_one_page F S p c sub a n i0 j g st (Q : _ -> va_state -> Prop) v :
  S mod 2097152 = 0 -> 0 <= S -> S + 2097152 <= 2 ^ 63 ->
  v_blocks v !! p = Some (VaBlock (block_span S) (Some g)) -> length (gs_chunks g) = 32%nat ->
  handle_of (v_pmm v) a n c sub -> 0 <= j < n -> 0 <= i0 -> i0 + n <= 32 ->
  (forall mb b s, remapped (v_pmm v) s -> p_kmem s = p_kmem (v_pmm v) -> int_bit (i0 + j) = Some b ->
     Q (mb, Z.lor (snd st) b) (state_with v s p S (set_chunks (setZ (gs_chunks g) (i0 + j) (Some (sub j))) g))) ->
  wp (map_one_page p c (S + i0 * 65536) j st) Q F v.
Proof.
  intros Hal H0 Htop Hb Hlen Hh Hj Hi0 Hn HQ. destruct Hh as [_ _ (cc & Hc & Htab) Hsub]. destruct (Hsub j Hj) as (d & Hd & _).
  apply wp_bind. eapply wp_load_block; [done|]. apply wp_bind. change UVM_PAGE_SIZE_64K with 65536.
  eapply wp_of_option; [reflexivity|]. cbn [blk_span block_span vb_start]. rewrite (u64_small (S + _ + _)) by (unfold is_u64; lia).
  change UVM_PAGE_SIZE_4K with 4096. replace (S + i0 * 65536 + j * 65536 - S) with ((i0 + j) * 65536) by lia.
  rewrite u64_small by (unfold is_u64; lia). replace ((i0 + j) * 65536 / 4096) with (16 * (i0 + j)) by div_lia.
  apply wp_bind. rewrite small_page by lia. eapply wp_assert_some; [apply (full_big_index S Hal H0 Htop); lia|].
  replace (16 * (i0 + j) / 16) with (i0 + j) by div_lia. apply wp_bind. eapply wp_gpu_state_of; [done|done|].
  destruct (nthZ_is_Some (gs_chunks g) (i0 + j)) as (old & Hold); [rewrite Hlen; lia|]. apply wp_bind. eapply wp_of_option; [done|].
  apply wp_bind, wp_in_pmm. apply wp_bind. eapply wp_load; [done|]. eapply wp_of_option; [by apply Htab|]. rewrite with_pmm_id.
  apply wp_bind. eapply wp_update_gpu_state; [done|done|]. destruct (int_bit_spec (i0 + j)) as (b & Eb & _); [lia|].
  apply wp_bind. eapply wp_of_option; [done|]. apply wp_bind. eapply wp_of_option; [done|]. apply wp_bind, wp_in_pmm. eapply wp_update; [done|].
  apply wp_ret. apply HQ; [|done|done]. by apply remapped_set.
Qed.

(** The chunks of the first [j] pages have been entered; [mask] is the mask of their
    big pages. *)
Record pages_entered (v : va_state) (p S : Z) (g : uvm_va_block_gpu_state_t) (sub : Z -> Z) (i0 j mask : Z)
    (s : uvm_pmm_gpu_t) (g' : uvm_va_block_gpu_state_t) : Prop := {
  pe_pmm : remapped (v_pmm v) s;
  pe_kmem : p_kmem s = p_kmem (v_pmm v);
  pe_state : g' = set_chunks (gs_chunks g') g;
  pe_length : length (gs_chunks g') = 32%nat;
  pe_chunks : forall k, nthZ (gs_chunks g') k = if (i0 <=? k) && (k <? i0 + j) then Some (Some (sub (k - i0))) else nthZ (gs_chunks g) k;
  pe_mask : forall k, 0 <= k < 32 -> Z.testbit mask k = (i0 <=? k) && (k <? i0 + j);
}.

Lemma state_with_twice v s p S g s' g' : state_with (state_with v s p S g) s' p S g' = state_with v s' p S g'.
Proof. unfold state_with, with_pmm, with_blocks. cbn. by rewrite insert_insert_eq. Qed.

Lemma state_with_id v p S g : v_blocks v !! p = Some (VaBlock (block_span S) (Some g)) -> state_with v (v_pmm v) p S g = v.
Proof. intros H. unfold state_with, with_pmm, with_blocks. cbn. rewrite insert_id by done. by destruct v. Qed.

Section map_pages.
Context (F : fault -> va_state -> Prop) (S : Z) (Hal : S mod 2097152 = 0) (H0 : 0 <= S) (Htop : S + 2097152 <= 2 ^ 63).
Context (v : va_state) (p : Z) (g : uvm_va_block_gpu_state_t).
Context (a n c : Z) (sub : Z -> Z) (Hh : handle_of (v_pmm v) a n c sub) (i0 : Z) (Hi0 : 0 <= i0) (Hn : i0 + n <= 32).

Lemma pages_entered_step j mask s g' b s' :
  0 <= j < n -> int_bit (i0 + j) = Some b -> remapped s s' -> p_kmem s' = p_kmem s -> pages_entered v p S g sub i0 j mask s g' ->
  pages_entered v p S g sub i0 (j + 1) (Z.lor mask b) s' (set_chunks (setZ (gs_chunks g') (i0 + j) (Some (sub j))) g').
Proof using Hi0 Hn.
  intros Hj Eb Hs Hk [E1 E2 E3 E4 E5 E6]. split.
  - by etransitivity.
  - congruence.
  - rewrite E3. done.
  - cbn. by rewrite length_setZ.
  - intros k. cbn [gs_chunks set_chunks]. destruct (decide (k = i0 + j)) as [->|Hne].
    + rewrite nthZ_setZ_eq by (rewrite E4; lia). rewrite (proj2 (Z.leb_le _ _)), (proj2 (Z.ltb_lt _ _)) by lia. cbn [andb]. do 3 f_equal. lia.
    + rewrite nthZ_setZ_ne, E5 by done. replace (k <? i0 + (j + 1)) with (k <? i0 + j); [done|].
      destruct (Z.ltb_spec k (i0 + j)), (Z.ltb_spec k (i0 + (j + 1))); lia || done.
  - intros k Hk0. destruct (int_bit_spec (i0 + j)) as (b' & Eb' & Hb'); [lia|]. assert (b' = b) as -> by congruence.
    rewrite Z.lor_spec, E6, Hb' by done. destruct (Z.leb_spec i0 k), (Z.ltb_spec k (i0 + j)), (Z.eqb_spec k (i0 + j)), (Z.ltb_spec k (i0 + (j + 1))); lia || done.
Qed.

Lemma wp_map_pages_from m (Q : _ -> va_state -> Prop) : forall j mb mask s g',
  0 <= j -> j + Z.of_nat m = n -> pages_entered v p S g sub i0 j mask s g' ->
  (forall mb mask s g', pages_entered v p S g sub i0 n mask s g' -> Q (mb, mask) (state_with v s p S g')) ->
  wp (map_pages p c (S + i0 * 65536) (up j n) (mb, mask)) Q F (state_with v s p S g').
Proof using All.
  induction m as [|m IH]; intros j mb mask s g' Hj Hjn He HQ.
  - replace j with n in * by lia. unfold up. rewrite Z.sub_diag. apply wp_ret. by apply HQ.
  - rewrite up_cons by lia. cbn [map_pages]. apply wp_bind.
    eapply (wp_map_one_page F S p c sub a n i0 j g'); try done; [by cbn; rewrite lookup_insert_eq|apply He|eapply handle_of_remapped, Hh; apply He|lia|].
    intros mb' b s' Hs' Hk Eb. rewrite state_with_twice. apply IH; [lia|lia| |done]. by eapply pages_entered_step; try done; lia.
Qed.

Lemma wp_map_pages (Q : _ -> va_state -> Prop) :
  0 <= n -> v_blocks v !! p = Some (VaBlock (block_span S) (Some g)) -> length (gs_chunks g) = 32%nat ->
  (forall mb mask s g', pages_entered v p S g sub i0 n mask s g' -> Q (mb, mask) (state_with v s p S g')) ->
  wp (map_pages p c (S + i0 * 65536) (up 0 n) (UVM_MEMBAR_NONE, 0)) Q F v.
Proof using All.
  intros Hn0 Hb Hlen HQ. rewrite <- (state_with_id v p S g) at 1 by done. apply (wp_map_pages_from (Z.to_nat n)); [lia|lia| |done].
  split; try done; [by destruct g|intros k..].
  - destruct (Z.leb_spec i0 k), (Z.ltb_spec k (i0 + 0)); cbn [andb]; lia || done.
  - intros Hk. rewrite Z.bits_0. destruct (Z.leb_spec i0 k), (Z.ltb_spec k (i0 + 0)); cbn [andb]; lia || done.
Qed.
End map_pages.

(** ** Making the page tables *)

Definition with_gpu (v : va_state) (p S : Z) (g : uvm_va_block_gpu_state_t) : va_state :=
  with_blocks (<[p := VaBlock (block_span S) (Some g)]> (v_blocks v)) v.

Section with_gpu.
Context (F : fault -> va_state -> Prop) (v : va_state) (p S : Z) (g : uvm_va_block_gpu_state_t).

Lemma wp_gpu_block (Q : _ -> va_state -> Prop) : Q (VaBlock (block_span S) (Some g)) (with_gpu v p S g) -> wp (load_block p) Q F (with_gpu v p S g).
Proof using. apply wp_load_block. cbn. by rewrite lookup_insert_eq. Qed.

Lemma wp_gpu_state (Q : _ -> va_state -> Prop) : Q g (with_gpu v p S g) -> wp (gpu_state_of p) Q F (with_gpu v p S g).
Proof using. eapply wp_gpu_state_of; [cbn; by rewrite lookup_insert_eq|done]. Qed.

Lemma wp_gpu_update f (Q : _ -> va_state -> Prop) : Q tt (with_gpu v p S (f g)) -> wp (update_gpu_state p f) Q F (with_gpu v p S g).
Proof using.
  intros HQ. eapply wp_update_gpu_state; [cbn; by rewrite lookup_insert_eq|done|]. unfold with_gpu, with_blocks in *. cbn. by rewrite insert_insert_eq.
Qed.
End with_gpu.

(** The memory of a table of big pages. *)
Record new_big (ge : gpu_env) (t : page_tree) (bt : block_tables) : Prop := {
  nb_ptr : bt_2m_ptr bt < pt_next t;
  nb_alloc : head (pt_allocs t) = Some (Some (bt_big bt));
  nb_wait : ge_tree_wait ge = NV_OK;
  nb_index : 0 <= bt_index bt < 2 ^ 30;
}.

(** What the page tree gives for a block that has no tables: the 2MB entry, with no
    tables below it, and then the memory of a table of big pages. *)
Record new_tables (ge : gpu_env) (v : va_state) (S : Z) (bt : block_tables) : Prop := {
  nt_get : exists t d,
    uvm_page_tree_get_ptes ge UVM_PAGE_SIZE_2M S UVM_PAGE_SIZE_2M (v_page_tree v) =
      Ok (NV_OK, Some (PtRange (bt_2m_ptr bt) (bt_index bt) 1 UVM_PAGE_SIZE_2M)) t /\
    pt_dirs t !! bt_2m_ptr bt = Some d /\ pd_phys_alloc d = bt_2m bt /\ pd_depth d = depth_2m (ge_ats ge) (ge_arch ge) /\
    nthZ (pd_entries d) (2 * bt_index bt) = Some None /\ nthZ (pd_entries d) (2 * bt_index bt + 1) = Some None /\
    new_big ge t bt;
  nt_small : bt_small bt = None;
  nt_children : children_ok (ge_arch ge) [Some (bt_big bt); None];
  nt_big_bounds : 0 <= pa_address (bt_big bt) /\ pa_address (bt_big bt) + 256 < 2 ^ 64;
  nt_2m_bounds : 0 <= pa_address (bt_2m bt) /\ pa_address (bt_2m bt) + bt_index bt * 16 + 16 < 2 ^ 64;
  nt_apart : forall i, 0 <= i < 32 -> ~ in_pde bt (pa_aperture (bt_big bt)) (pa_address (bt_big bt) + i * 8);
}.

(** The pushes of the page tree after it has been asked for the 2MB entry. *)
Definition get_pushes (ge : gpu_env) (S : Z) (t : page_tree) : list cmds :=
  match uvm_page_tree_get_ptes ge UVM_PAGE_SIZE_2M S UVM_PAGE_SIZE_2M t with Ok _ t' | Fault _ t' => pt_pushes t' end.

Definition no_tables (g : uvm_va_block_gpu_state_t) : Prop :=
  gs_range_2m g = None /\ gs_range_big g = None /\ gs_pte_is_2m g = false /\ gs_initialized_big g = false.

Definition set_big_ptr (q : Z) (bt : block_tables) : block_tables :=
  BlockTables q (bt_2m_ptr bt) (bt_index bt) (bt_big bt) (bt_small bt) (bt_2m bt).

Section make_tables.
Context (ge : gpu_env) (F : fault -> va_state -> Prop) (Harch : big_arch (ge_arch ge) = true).
Context (S : Z) (Hal : S mod 2097152 = 0) (H0 : 0 <= S) (Htop : S + 2097152 <= 2 ^ 63) (p : Z) (bt : block_tables).
Let range_2m : uvm_page_table_range_t := PtRange (bt_2m_ptr bt) (bt_index bt) 1 UVM_PAGE_SIZE_2M.

Lemma supports_2m : block_gpu_supports_2m ge (block_span S) = Some true.
Proof using Harch.
  unfold block_gpu_supports_2m. rewrite full_size. cbn [mbind option_bind]. change (2097152 <? UVM_PAGE_SIZE_2M) with false.
  change (2097152 =? UVM_PAGE_SIZE_2M) with true. cbn [UVM_ASSERT]. by rewrite (bh_2m _ _ (hal_big (ge_ats ge) _ Harch)).
Qed.


Lemma wp_alloc_2m g v (Q : _ -> va_state -> Prop) :
  new_tables ge v S bt -> no_tables g ->
  (forall t d, pt_dirs t !! bt_2m_ptr bt = Some d -> pd_phys_alloc d = bt_2m bt -> pd_depth d = depth_2m (ge_ats ge) (ge_arch ge) ->
     nthZ (pd_entries d) (2 * bt_index bt) = Some None -> nthZ (pd_entries d) (2 * bt_index bt + 1) = Some None -> new_big ge t bt ->
     pt_pushes t = get_pushes ge S (v_page_tree v) -> Q NV_OK (with_gpu (with_page_tree t v) p S (set_pte_is_2m true (set_ranges (Some range_2m) (gs_range_big g) (gs_range_4k g) g)))) ->
  wp (block_alloc_pt_range_with_retry ge p UVM_PAGE_SIZE_2M) Q F (with_gpu v p S g).
Proof using Harch Hal H0 Htop.
  intros Hnt (Hg1 & Hg2 & Hg3 & _) HQ. destruct (nt_get _ _ _ _ Hnt) as (t & d & Eget & D1 & D2 & D3 & D4 & D5 & D6).
  apply wp_bind, wp_gpu_block. cbn [blk_span]. apply wp_bind. eapply wp_assert_some; [apply supports_2m|]. change (true && (UVM_PAGE_SIZE_2M <? UVM_PAGE_SIZE_2M)) with false.
  apply wp_bind. apply wp_bind, wp_gpu_block. apply wp_bind, wp_gpu_state. cbn [blk_span block_span vb_start vb_end].
  apply wp_bind. eapply wp_assert_some; [apply (align_up_const S 21); [done|lia|done]|].
  replace (S + 2097151 + 1) with (S + 2097152) by lia. rewrite u64_small by (unfold is_u64; lia).
  apply wp_bind. eapply wp_assert_some; [apply (align_down_const _ 21); [done|lia|done]|].
  replace (round_up S UVM_PAGE_SIZE_2M) with S by (change UVM_PAGE_SIZE_2M with 2097152; unfold round_up; div_lia).
  replace ((S + 2097152) / UVM_PAGE_SIZE_2M * UVM_PAGE_SIZE_2M) with (S + 2097152) by (change UVM_PAGE_SIZE_2M with 2097152; div_lia).
  replace (S + 2097152 - S) with UVM_PAGE_SIZE_2M by (change UVM_PAGE_SIZE_2M with 2097152; lia). change (u64 UVM_PAGE_SIZE_2M) with UVM_PAGE_SIZE_2M.
  apply wp_in_tree. unfold wp. cbn [v_page_tree with_gpu with_blocks]. rewrite Eget. cbn [fst snd].
  rewrite decide_True by done. apply (wp_bind (of_option UB _)). eapply wp_of_option; [done|].
  change (with_page_tree t (with_gpu v p S g)) with (with_gpu (with_page_tree t v) p S g).
  apply wp_bind, wp_bind, wp_gpu_update. apply wp_bind, wp_gpu_state. change (UVM_PAGE_SIZE_2M =? UVM_PAGE_SIZE_2M) with true.
  apply wp_bind, wp_guard; [cbn; by rewrite Hg3|]. apply wp_gpu_update, wp_ret. apply (HQ t d); try done. unfold get_pushes. by rewrite Eget.
Qed.

(** The table of big pages: its pointer is fresh, the entry of the directory points to it. *)
Definition with_big (d : uvm_page_directory_t) (q : Z) : uvm_page_directory_t :=
  set_ref_count (u32 (pd_ref_count d + 1)) (set_entries (setZ (pd_entries d) (2 * bt_index bt) (Some q)) d).

(** The tree after the table has been linked; the references of the table and its size do
    not matter below. *)
Record big_linked (t : page_tree) (d : uvm_page_directory_t) (t' : page_tree) : Prop := {
  bl_big : exists db, pt_dirs t' !! pt_next t = Some db /\ pd_phys_alloc db = bt_big bt;
  bl_2m : pt_dirs t' !! bt_2m_ptr bt = Some (with_big d (pt_next t));
  bl_pushes : pt_pushes t' = pt_pushes t;
}.

Lemma wp_page_tree_alloc_table d t FT (Q : _ -> page_tree -> Prop) :
  ge_debug ge = false -> new_big ge t bt -> pt_dirs t !! bt_2m_ptr bt = Some d -> pd_depth d = depth_2m (ge_ats ge) (ge_arch ge) ->
  nthZ (pd_entries d) (2 * bt_index bt) = Some None ->
  (forall t', big_linked t d t' -> Q (NV_OK, Some (PtRange (pt_next t) 0 32 UVM_PAGE_SIZE_64K)) t') ->
  wp (uvm_page_tree_alloc_table ge UVM_PAGE_SIZE_64K range_2m) Q FT t.
Proof using Harch.
  intros Hrel [Hptr Ha Hw Hix] Hd Edep Hent HQ. pose proof (hal_big (ge_ats ge) _ Harch) as Hh.
  destruct (pt_allocs t) as [|o rest] eqn:El; [done|]. injection Ha as ->.
  apply wp_bind, wp_guard; [done|]. apply wp_bind. eapply wp_load_dir; [done|]. apply wp_bind. eapply wp_of_option.
  { unfold index_to_entry. rewrite Edep, (bh_per_index _ _ Hh). cbn [mbind option_bind]. by rewrite (bh_offset _ _ Hh). }
  cbn [pr_start_index range_2m]. rewrite Z.add_0_r, u32_small by (unfold is_u32; lia). apply wp_bind.
  destruct (bh_alloc _ _ Hh) as (size & Esize). apply wp_bind. eapply wp_of_option; [by rewrite Edep|]. apply wp_bind.
  rewrite Edep, (bh_agnostic _ _ Hh), Z.eqb_refl. apply wp_ret. apply wp_bind, wp_get. rewrite El.
  apply wp_bind, wp_modify, wp_bind, wp_modify, wp_ret. rewrite Hrel. apply wp_bind, wp_ret. rewrite decide_True by done.
  assert (Hne : pt_next t <> bt_2m_ptr bt) by lia.
  apply wp_bind. eapply wp_of_option; [apply Hh|]. apply wp_bind. eapply wp_load_dir; [cbn; by rewrite lookup_insert_ne|].
  apply wp_bind. eapply wp_of_option; [done|]. apply wp_bind, wp_bind. unfold set_entry.
  apply wp_bind. eapply wp_load_dir; [cbn; by rewrite lookup_insert_ne|]. apply wp_bind. eapply wp_of_option; [done|]. apply wp_modify.
  apply wp_bind, wp_bind. eapply wp_load_dir; [cbn; rewrite lookup_insert_ne, lookup_insert_eq by done; done|]. apply wp_modify.
  apply wp_bind, wp_bind. eapply wp_load_dir; [cbn; rewrite lookup_insert_ne, lookup_insert_eq by done; done|]. apply wp_modify. apply wp_ret.
  apply wp_bind, wp_bind. eapply wp_load_dir; [cbn; rewrite lookup_insert_ne, lookup_insert_eq by done; done|]. apply wp_modify.
  apply wp_bind, wp_ret, wp_ret. apply HQ. split.
  - eexists. split; [cbn; by rewrite lookup_insert_eq|done].
  - cbn. by rewrite lookup_insert_ne, lookup_insert_eq.
  - done.
Qed.

Lemma wp_alloc_big d g v (Q : _ -> va_state -> Prop) :
  ge_debug ge = false -> new_big ge (v_page_tree v) bt -> pt_dirs (v_page_tree v) !! bt_2m_ptr bt = Some d -> pd_depth d = depth_2m (ge_ats ge) (ge_arch ge) ->
  nthZ (pd_entries d) (2 * bt_index bt) = Some None -> gs_range_2m g = Some range_2m -> gs_initialized_big g = false ->
  (forall t', big_linked (v_page_tree v) d t' ->
     Q NV_OK (with_gpu (with_page_tree t' v) p S
       (set_ranges (gs_range_2m g) (Some (PtRange (pt_next (v_page_tree v)) 0 32 UVM_PAGE_SIZE_64K)) (gs_range_4k g) g))) ->
  wp (block_alloc_pt_range_with_retry ge p UVM_PAGE_SIZE_64K) Q F (with_gpu v p S g).
Proof using Harch Hal H0 Htop.
  intros Hrel Hnt Hd Edep Hent Hg1 Hg2 HQ.
  apply wp_bind, wp_gpu_block. cbn [blk_span]. apply wp_bind. eapply wp_assert_some; [apply supports_2m|]. change (true && (UVM_PAGE_SIZE_64K <? UVM_PAGE_SIZE_2M)) with true.
  apply wp_bind. apply wp_bind, wp_gpu_block. apply wp_bind, wp_gpu_state. cbn [blk_span block_span vb_start vb_end].
  apply wp_bind. eapply wp_assert_some; [apply (align_up_const S 16); [done|lia|done]|].
  replace (S + 2097151 + 1) with (S + 2097152) by lia. rewrite u64_small by (unfold is_u64; lia).
  apply wp_bind. eapply wp_assert_some; [apply (align_down_const _ 16); [done|lia|done]|].
  apply wp_bind. eapply wp_of_option; [done|]. apply wp_in_tree. eapply (wp_page_tree_alloc_table d); [done|done|exact Hd|done|done|].
  intros t' Hl. cbn [fst snd]. rewrite decide_True by done. apply wp_bind. eapply wp_of_option; [done|].
  change (with_page_tree t' (with_gpu v p S g)) with (with_gpu (with_page_tree t' v) p S g).
  apply wp_bind, wp_bind, wp_gpu_update. apply wp_bind, wp_gpu_state. change (UVM_PAGE_SIZE_64K =? UVM_PAGE_SIZE_2M) with false.
  change (UVM_PAGE_SIZE_64K =? UVM_PAGE_SIZE_4K) with false. apply wp_guard; [change (negb (gs_initialized_big g) = true); by rewrite Hg2|]. apply wp_ret. by apply HQ.
Qed.

(** The tables of the block after they have been made. *)
Record tables_made (v : va_state) (g : uvm_va_block_gpu_state_t) (v' : va_state) (g' : uvm_va_block_gpu_state_t) (bt' : block_tables) : Prop := {
  tm_pmm : remapped (v_pmm v) (v_pmm v');
  tm_tree : v_tree v' = v_tree v;
  tm_range : v_range_blocks v' = v_range_blocks v;
  tm_blocks : v_blocks v' = <[p := VaBlock (block_span S) (Some g')]> (v_blocks v);
  tm_tables : has_tables ge v' g' bt';
  tm_bt : exists q, bt' = set_big_ptr q bt;
  tm_chunks : gs_chunks g' = gs_chunks g;
  tm_prot : gs_pte_bits_atomic g' = gs_pte_bits_atomic g /\ gs_pte_bits_write g' = gs_pte_bits_write g /\ gs_pte_bits_read g' = gs_pte_bits_read g;
  tm_big : gs_big_ptes g' = gs_big_ptes g;
  tm_pushes : pt_pushes (v_page_tree v') = get_pushes ge S (v_page_tree v);
}.

Lemma tables_made_intro v g t t' d :
  new_tables ge v S bt -> new_big ge t bt -> pd_phys_alloc d = bt_2m bt -> pd_depth d = depth_2m (ge_ats ge) (ge_arch ge) ->
  nthZ (pd_entries d) (2 * bt_index bt) = Some None -> nthZ (pd_entries d) (2 * bt_index bt + 1) = Some None -> big_linked t d t' ->
  pt_pushes t = get_pushes ge S (v_page_tree v) ->
  let g' := set_ranges (Some range_2m) (Some (PtRange (pt_next t) 0 32 UVM_PAGE_SIZE_64K)) (gs_range_4k g)
              (set_pte_is_2m true (set_ranges (Some range_2m) (gs_range_big g) (gs_range_4k g) g)) in
  tables_made v g (with_gpu (with_page_tree t' v) p S g') g' (set_big_ptr (pt_next t) bt).
Proof using.
  intros Hnt [_ _ _ N4] D2 D3 D4 D5 [(db & L1 & L2) L3 L4] Hps g'. destruct Hnt as [_ N5 N6 N7 N8 N9]. split; try done; [|by exists (pt_next t)|cbn; congruence].
  pose proof (nthZ_lt _ _ _ D4) as Hlt. split; try done.
  - by exists db.
  - eexists. split; [exact L3|]. split; [done|]. split; [done|]. cbn [bt_index set_big_ptr bt_small bt_big]. split.
    + exists (Some (pt_next t)). split; [cbn; by rewrite nthZ_setZ_eq|]. exists db. by rewrite L2.
    + exists None. split; [cbn; rewrite nthZ_setZ_ne by lia; done|done].
  - cbn [bt_small bt_big set_big_ptr]. by rewrite N5.
  - cbn. lia.
Qed.

Lemma wp_alloc_tables g v (Q : _ -> va_state -> Prop) :
  ge_debug ge = false -> new_tables ge v S bt -> no_tables g ->
  (forall v' g' bt', tables_made v g v' g' bt' -> v_pmm v' = v_pmm v -> Q NV_OK v') ->
  wp (block_alloc_ptes_with_retry ge p (Z.lor UVM_PAGE_SIZE_2M UVM_PAGE_SIZE_64K)) Q F (with_gpu v p S g).
Proof using Harch Hal H0 Htop.
  intros Hrel Hnt Hg HQ. pose proof (hal_big (ge_ats ge) _ Harch) as Hh. apply wp_bind, wp_gpu_block. cbn [blk_span].
  apply wp_bind. eapply wp_assert_some; [apply supports_2m|]. change (Z.lor (Z.lor UVM_PAGE_SIZE_2M UVM_PAGE_SIZE_64K) UVM_PAGE_SIZE_2M) with 2162688.
  apply wp_bind, wp_guard; [by rewrite (bh_sizes _ _ Hh)|]. change (sizes_rev 2162688) with [UVM_PAGE_SIZE_2M; UVM_PAGE_SIZE_64K].
  cbn [alloc_ptes_loop]. apply wp_bind, wp_gpu_state. change (range_of UVM_PAGE_SIZE_2M g) with (gs_range_2m g). pose proof Hg as (Hg1 & Hg2 & Hg3 & Hg4). rewrite Hg1.
  apply wp_bind, wp_alloc_2m; [done|done|]. intros t d D1 D2 D3 D4 D5 D6 D7. rewrite decide_False, decide_True by done.
  apply wp_bind, wp_gpu_state. unfold range_of. change (UVM_PAGE_SIZE_64K =? UVM_PAGE_SIZE_2M) with false. change (UVM_PAGE_SIZE_64K =? UVM_PAGE_SIZE_4K) with false.
  cbn [gs_range_big set_pte_is_2m set_ranges]. rewrite Hg2. apply wp_bind.
  eapply (wp_alloc_big d); [done|exact D6|done|done|done|done|done|].
  intros t' Hl. rewrite decide_False, decide_True by done. apply wp_ret.
  pose proof (tables_made_intro v g t t' d Hnt D6 D2 D3 D4 D5 Hl D7) as Ht. cbv zeta in Ht. rewrite Hg2 in Ht. exact (HQ _ _ _ Ht eq_refl).
Qed.
End make_tables.

(** ** The ioctl *)

Lemma has_tables_keep ge v v' g g' bt :
  v_page_tree v' = v_page_tree v -> gs_range_big g' = gs_range_big g -> gs_range_2m g' = gs_range_2m g -> has_tables ge v g bt -> has_tables ge v' g' bt.
Proof.
  intros Ed Eb E2 [T1 T2 T3 T4 T5 T6 T7 T8 T9]. split; try done; [congruence|congruence|by rewrite Ed|].
  destruct T4 as (d & H1 & H2 & H3 & H4 & H5). exists d. unfold child_is in *. by rewrite Ed.
Qed.

#[local] Instance lt_antisymm : AntiSymm (=) Z.lt.
Proof. intros x y. lia. Qed.

Lemma set_bits_mask i0 n mask :
  0 <= i0 -> 0 <= n -> i0 + n <= 32 -> (forall k, 0 <= k < 32 -> Z.testbit mask k = (i0 <=? k) && (k <? i0 + n)) -> set_bits mask 32 = up i0 (i0 + n).
Proof.
  intros H0 Hn H32 Hm. apply (StronglySorted_unique Z.lt); [apply set_bits_sorted|apply seqZ_sorted|].
  apply NoDup_Permutation; [apply sorted_nodup, set_bits_sorted|apply sorted_nodup, seqZ_sorted|]. intros k. unfold set_bits.
  rewrite list_elem_of_In, filter_In, <- list_elem_of_In, !elem_of_up. split.
  - intros [Hk Hb]. rewrite Hm in Hb by done. apply andb_true_iff in Hb as [H1%Z.leb_le H2%Z.ltb_lt]. lia.
  - intros Hk. split; [lia|]. rewrite Hm by lia. apply andb_true_iff. split; [apply Z.leb_le|apply Z.ltb_lt]; lia.
Qed.

(** The pushes of the page tree after the ioctl, which asks for the entry of a block that
    has none. *)
Definition pushes_after (ge : gpu_env) (S : Z) (o : option uvm_page_table_range_t) (t : page_tree) : list cmds :=
  if is_some o then pt_pushes t else get_pushes ge S t.

(** What the ioctl needs: a release build on a GPU with big pages below 2MB entries, the
    block [k] of a range, and a handle of [n] big pages at the physical address [a], to map at the big page [i0]
    of the block. *)
Record can_map (ge : gpu_env) (num : Z) (pdb : uvm_gpu_phys_address_t) (v : va_state) (r : Z) (node : range) (blocks : list (option Z))
    (k : Z) (og : option uvm_va_block_gpu_state_t) (a n i0 : Z) (bt : block_tables) : Prop := {
  cm_release : ge_debug ge = false;
  cm_arch : big_arch (ge_arch ge) = true;
  cm_tlb : tlb_tree_of (ge_arch ge) (ge_ats ge) num pdb = Some (ge_tlb ge);
  cm_pdb : pdb_ok pdb /\ 0 <= num /\ room [] (32 + 4 * (num + 1));
  cm_range : range_at v r node;
  cm_index : 0 <= k /\ r_start node + k * 2097152 + 2097151 <= r_end node;
  cm_blocks : v_range_blocks v !! r = Some blocks;
  cm_slot : slot_ok v node k blocks og;
  cm_pages : 1 <= n <= 4 /\ 0 <= i0 /\ i0 + n <= 32;
  cm_phys : a mod 4096 = 0 /\ a + n * 65536 <= 2 ^ address_bits (ge_arch ge) UVM_APERTURE_VID;
  cm_memory : memory_for 4 v;
  cm_gpu : match og with
    | Some g => length (gs_chunks g) = 32%nat /\ unmapped_prot g /\
        (has_tables ge v g bt \/ no_tables g /\ new_tables ge v (r_start node + k * 2097152) bt)
    | None => new_tables ge v (r_start node + k * 2097152) bt
    end;
}.

(** The state after the ioctl: the block is entered in the range, the chunks in the
    block, and its tables are active. *)
Record handle_mapped (ge : gpu_env) (v : va_state) (r k S : Z) (og : option uvm_va_block_gpu_state_t) (n : Z) (sub : Z -> Z) (i0 : Z) (bt : block_tables) (p : Z) (v' : va_state) : Prop := {
  hm_slot : exists blocks, v_range_blocks v' !! r = Some blocks /\ nthZ blocks k = Some (Some p);
  hm_block : exists g q, v_blocks v' !! p = Some (VaBlock (block_span S) (Some g)) /\ has_tables ge v' g (set_big_ptr q bt) /\
    length (gs_chunks g) = 32%nat /\ unmapped_prot g /\ gs_activated_big g = true /\ gs_pte_is_2m g = false /\
    forall j, 0 <= j < n -> nthZ (gs_chunks g) (i0 + j) = Some (Some (sub j)) /\ Z.testbit (gs_big_ptes g) (i0 + j) = true;
  hm_others : forall q, q <> p -> v_blocks v' !! q = v_blocks v !! q;
  hm_pmm : remapped (v_pmm v) (v_pmm v');
  hm_tree : v_tree v' = v_tree v;
  hm_pushes : pt_pushes (v_page_tree v') = pushes_after ge S (og ≫= gs_range_2m) (v_page_tree v);
}.

Definition page_of (a i0 i : Z) : Z := a + (i - i0) * 65536.

Section ioctl.
Context (ge : gpu_env) (F : fault -> va_state -> Prop) (num : Z) (pdb : uvm_gpu_phys_address_t) (v : va_state) (r : Z) (node : range) (blocks : list (option Z)).
Context (k : Z) (og : option uvm_va_block_gpu_state_t) (a n c : Z) (sub : Z -> Z) (i0 : Z) (bt : block_tables).
Context (Hcan : can_map ge num pdb v r node blocks k og a n i0 bt) (Hhandle : handle_of (v_pmm v) a n c sub) (m0 : gpu_mem Z).
Let S : Z := r_start node + k * 2097152.

Lemma block_bounds : S mod 2097152 = 0 /\ 0 <= S /\ S + 2097152 <= 2 ^ 63.
Proof using Hcan. destruct Hcan as [_ _ _ _ Hr [Hk Hend] _ _ _ _ _ _]. by apply (block_aligned v r node Hr k Hk Hend). Qed.

(** The tables: those of the block, or new ones. *)
Lemma wp_tables_phase p g v1 m (Q : _ -> va_state -> Prop) :
  (has_tables ge v1 g bt \/ no_tables g /\ new_tables ge v1 S bt) -> memory_for m v1 ->
  (forall v' g' q, v_blocks v' = <[p := VaBlock (block_span S) (Some g')]> (v_blocks v1) -> remapped (v_pmm v1) (v_pmm v') ->
     v_tree v' = v_tree v1 -> v_range_blocks v' = v_range_blocks v1 -> has_tables ge v' g' (set_big_ptr q bt) -> gs_chunks g' = gs_chunks g ->
     gs_big_ptes g' = gs_big_ptes g -> (unmapped_prot g -> unmapped_prot g') -> memory_for m v' ->
     pt_pushes (v_page_tree v') = pushes_after ge S (gs_range_2m g) (v_page_tree v1) -> Q tt v') ->
  wp (if is_some (gs_range_2m g) then mret' tt
      else mbind' (block_alloc_ptes_with_retry ge p (Z.lor UVM_PAGE_SIZE_2M UVM_PAGE_SIZE_64K)) (fun _ => mret' tt)) Q F (with_gpu v1 p S g).
Proof using Hcan.
  intros Htab Hmem HQ. destruct block_bounds as (Hal & H0 & Htop).
  destruct Htab as [Ht|[Hno Hnew]].
  - rewrite (ht_range_2m _ _ _ _ Ht). apply wp_ret. apply (HQ _ g (bt_big_ptr bt)); try done.
    + eapply has_tables_keep; [| | |by destruct bt]; done.
    + by rewrite (ht_range_2m _ _ _ _ Ht).
  - rewrite (proj1 Hno). apply wp_bind.
    eapply (wp_alloc_tables ge F ltac:(by destruct Hcan) S Hal H0 Htop p bt); [by destruct Hcan|done|done|].
    intros v' g' bt' [T1 T2 T3 T4 T5 (q & ->) T7 (T8 & T9 & T10) T11 T12] Hm. apply wp_ret. apply (HQ v' g' q); try done.
    + unfold unmapped_prot. by rewrite T8, T9, T10.
    + unfold memory_for. by rewrite Hm.
    + by rewrite (proj1 Hno).
Qed.

(** The push, from a block with its chunks and tables. *)
Lemma wp_push_phase p g v1 q mb mask m (Q : _ -> va_state -> Prop) :
  v_blocks v1 !! p = Some (VaBlock (block_span S) (Some g)) -> has_tables ge v1 g (set_big_ptr q bt) -> unmapped_prot g -> memory_for (Datatypes.S m) v1 ->
  (forall j, 0 <= j < n -> nthZ (gs_chunks g) (i0 + j) = Some (Some (sub j))) -> handle_of (v_pmm v1) a n c sub ->
  (forall j, 0 <= j < 32 -> Z.testbit mask j = (i0 <=? j) && (j <? i0 + n)) ->
  (forall s push, remapped (v_pmm v1) s -> mapping_pushed ge pdb S bt (page_of a i0) (up i0 (i0 + n)) m0 push ->
     Q (NV_OK, push) (state_with v1 s p S (set_big_ptes (Z.lor (gs_big_ptes g) mask) (set_pte_is_2m false (activated_state g))))) ->
  wp (mbind' kmalloc_ok (fun ok => mbind' (guard_or UB ok) (fun _ =>
        if decide (NV_OK = NV_OK) then
          mbind' (push_mapping ge (arch_chunk_sizes (ge_arch ge)) p mb mask) (fun push =>
          mbind' (update_gpu_state p (set_pte_is_2m false)) (fun _ =>
          mbind' (update_gpu_state p (fun g => set_big_ptes (Z.lor (gs_big_ptes g) mask) g)) (fun _ => mret' (NV_OK, push))))
        else mret' (NV_OK, [])))) Q F v1.
Proof using Hcan.
  intros Hb Ht Hp Hmem Hch Hh Hmask HQ. destruct block_bounds as (Hal & H0 & Htop).
  destruct Hcan as [C1 C2 C3 (C4 & C5 & C6) _ _ _ _ (C7 & C8 & C9) (C10 & C11) _ _].
  apply wp_bind. eapply wp_kmalloc; [done|]. intros s Hs _. apply wp_bind, wp_guard; [done|]. rewrite decide_True by done. apply wp_bind.
  eapply (wp_push_mapping ge F C1 C2 num pdb C4 C5 C6 C3 S Hal H0 Htop p (with_pmm s v1) g (set_big_ptr q bt) (page_of a i0) Hb) with (L := up i0 (i0 + n)) (m0 := m0);
    [by eapply has_tables_keep; [..|exact Ht]|done|by apply set_bits_mask; [lia..|]|..].
  - apply Forall_forall. intros i Hi%elem_of_up. pose proof (handle_of_remapped _ _ _ _ _ _ Hs Hh) as [[Ha _] _ _ Hsub].
    unfold page_of. assert (0 <= i - i0 < n) as Hj by lia. destruct (Hsub (i - i0) Hj) as (d & Hd & Ed). specialize (Hch (i - i0) Hj).
    replace (i0 + (i - i0)) with i in Hch by lia. split; [lia|]. split; [by exists (sub (i - i0)), d|]. split; [lia|].
    rewrite Z.add_mod, C10, Z.add_0_l, Z.mod_mod by lia. replace ((i - i0) * 65536) with ((i - i0) * 16 * 4096) by lia. by apply Z.mod_mul.
  - unfold up. rewrite length_seqZ. lia.
  - intros push Hpush. change (with_activated p S g (with_pmm s v1)) with (with_gpu (with_pmm s v1) p S (activated_state g)).
    apply wp_bind, wp_gpu_update. apply wp_bind, wp_gpu_update. apply wp_ret. apply (HQ s push Hs). destruct Hpush; by split.
Qed.

(** The GPU state of the block, and the choice of its tables. *)
Definition tables_ready (v1 : va_state) (g : uvm_va_block_gpu_state_t) : Prop := has_tables ge v1 g bt \/ no_tables g /\ new_tables ge v1 S bt.

Lemma tables_ready_keep v1 v2 g g' :
  v_page_tree v2 = v_page_tree v1 -> g' = set_chunks (gs_chunks g') g ->
  tables_ready v1 g -> tables_ready v2 g'.
Proof using.
  intros Ed -> [Ht|[Hno Hnew]]; [left; by eapply has_tables_keep; [..|exact Ht]|right]. split; [exact Hno|].
  destruct Hnew as [N1 N3 N4 N5 N6 N7]. split; try done. by rewrite Ed.
Qed.

Lemma wp_gpu_state_alloc p v1 m (Q : _ -> va_state -> Prop) :
  v_blocks v1 !! p = Some (VaBlock (block_span S) og) -> memory_for (2 + m) v1 ->
  (forall s, remapped (v_pmm v1) s -> memory_for m (with_pmm s v1) -> Q true (with_gpu (with_pmm s v1) p S (default empty_gpu_state og))) ->
  wp (block_gpu_state_get_alloc p) Q F v1.
Proof using Hcan.
  intros Hb Hmem HQ. apply wp_bind. eapply wp_load_block; [done|]. cbn [blk_gpu blk_span]. destruct og as [g|].
  - apply wp_ret. specialize (HQ (v_pmm v1) (remapped_refl _)). unfold with_gpu, with_blocks in HQ. cbn [default v_blocks with_pmm] in HQ.
    rewrite insert_id in HQ by done. destruct v1. apply HQ. eapply memory_for_le; [|exact Hmem]. lia.
  - apply wp_bind. eapply wp_kmalloc; [exact Hmem|]. intros s1 Hs1 Hm1. apply wp_bind. eapply wp_kmalloc; [exact Hm1|]. intros s2 Hs2 Hm2.
    apply wp_bind, wp_modify, wp_ret. apply HQ; [by etransitivity|exact Hm2].
Qed.

(** The first half: the block has the chunks. *)
Lemma wp_enter_phase {A} v1 p m (K : uvm_membar_t * Z -> V A) (Q : A -> va_state -> Prop) :
  entered_block v r node k blocks og p v1 -> memory_for (2 + m) v1 ->
  (forall mb mask s g, remapped (v_pmm v) s -> tables_ready (with_pmm s v1) g -> memory_for m (with_pmm s v1) -> length (gs_chunks g) = 32%nat -> unmapped_prot g ->
     (forall j, 0 <= j < n -> nthZ (gs_chunks g) (i0 + j) = Some (Some (sub j))) ->
     (forall j, 0 <= j < 32 -> Z.testbit mask j = (i0 <=? j) && (j <? i0 + n)) ->
     gs_range_2m g = og ≫= gs_range_2m -> v_page_tree v1 = v_page_tree v -> wp (K (mb, mask)) Q F (with_gpu (with_pmm s v1) p S g)) ->
  wp (mbind' (block_gpu_state_get_alloc p) (fun ok => mbind' (guard_or UB ok) (fun _ => mbind' (guard_or UB (0 <? n)) (fun _ =>
        mbind' (map_pages p c (S + i0 * 65536) (up 0 n) (UVM_MEMBAR_NONE, 0)) (fun st =>
        mbind' (in_pmm (update c (set_va_block (Some p)))) (fun _ => K st)))))) Q F v1.
Proof using Hcan Hhandle.
  intros [E1 E2 E3 E4 E5] Hmem HQ. destruct block_bounds as (Hal & H0 & Htop).
  pose proof Hhandle as Hh. pose proof Hcan as [_ _ _ _ _ _ _ _ (C8 & C9 & C9') _ _ C11]. fold S in C11, E4.
  assert (Hg : tables_ready v (default empty_gpu_state og) /\ length (gs_chunks (default empty_gpu_state og)) = 32%nat /\ unmapped_prot (default empty_gpu_state og)).
  { destruct og as [g|]; [by destruct C11 as (? & ? & ?)|]. split; [by right|done]. }
  destruct Hg as (Hg1 & Hg2 & Hg3). apply wp_bind. eapply (wp_gpu_state_alloc p v1 m); [by rewrite E4, lookup_insert_eq|done|]. intros s Hs Hm.
  apply wp_bind, wp_guard; [done|]. apply wp_bind, wp_guard; [apply Z.ltb_lt; lia|]. apply wp_bind.
  assert (Hrs : remapped (v_pmm v) s) by by etransitivity. set (g0 := default empty_gpu_state og) in *.
  assert (Hog : gs_range_2m g0 = og ≫= gs_range_2m) by by destruct og. clearbody g0.
  eapply (wp_map_pages F S Hal H0 Htop _ p g0 a n c sub); [exact (handle_of_remapped _ _ _ _ _ _ Hrs Hh)|done|done|lia|cbn; by rewrite lookup_insert_eq|done|].
  intros mb mask s' g' [P1 P2 P3 P4 P5 P6]. pose proof (handle_of_remapped _ _ _ _ _ _ P1 (handle_of_remapped _ _ _ _ _ _ Hrs Hh)) as [_ _ (cc & Hc & _) _].
  apply wp_bind, wp_in_pmm. eapply wp_update; [exact Hc|].
  match goal with |- wp _ _ _ (with_pmm ?s2 _) => set (s3 := s2) end. unfold state_with. change (v_pmm (with_gpu (with_pmm s v1) p S g0)) with s in P1, P2.
  assert (Hs3 : remapped s' s3) by by apply (remapped_set s' c cc).
  assert (Hfin : wp (K (mb, mask)) Q F (with_gpu (with_pmm s3 v1) p S g')).
  { apply HQ; [by repeat (etransitivity; [eassumption|])|eapply tables_ready_keep; [..|exact Hg1]; done| |done| | |done|by rewrite P3|done].
    - destruct Hm as (rest & Er). exists rest. cbn in Er |- *. by rewrite P2.
    - rewrite P3. exact Hg3.
    - intros j Hj. rewrite P5, (proj2 (Z.leb_le _ _)), (proj2 (Z.ltb_lt _ _)) by lia. cbn [andb]. do 3 f_equal. lia. }
  unfold with_gpu, with_blocks, with_pmm in Hfin |- *. cbn in Hfin |- *. by rewrite insert_insert_eq.
Qed.

(** The block with the chunks and the tables, before the push: the state [v2] with the
    block [p] in the GPU state [g]. *)
Record ready_to_push (p q mask : Z) (v2 : va_state) (g : uvm_va_block_gpu_state_t) : Prop := {
  rp_slot : exists bl, v_range_blocks v2 !! r = Some bl /\ nthZ bl k = Some (Some p);
  rp_block : v_blocks v2 !! p = Some (VaBlock (block_span S) (Some g));
  rp_others : forall j, j <> p -> v_blocks v2 !! j = v_blocks v !! j;
  rp_pmm : remapped (v_pmm v) (v_pmm v2);
  rp_tree : v_tree v2 = v_tree v;
  rp_tables : has_tables ge v2 g (set_big_ptr q bt);
  rp_length : length (gs_chunks g) = 32%nat;
  rp_prot : unmapped_prot g;
  rp_chunks : forall j, 0 <= j < n -> nthZ (gs_chunks g) (i0 + j) = Some (Some (sub j));
  rp_mask : forall j, 0 <= j < 32 -> Z.testbit mask j = (i0 <=? j) && (j <? i0 + n);
  rp_memory : memory_for 1 v2;
  rp_pushes : pt_pushes (v_page_tree v2) = pushes_after ge S (og ≫= gs_range_2m) (v_page_tree v);
}.

Lemma wp_map_prefix push_status (Q : _ -> va_state -> Prop) :
  (forall p q mb mask v2 g, ready_to_push p q mask v2 g ->
     wp (mbind' kmalloc_ok (fun ok => mbind' (guard_or UB ok) (fun _ =>
        if decide (push_status = NV_OK) then
          mbind' (push_mapping ge (arch_chunk_sizes (ge_arch ge)) p mb mask) (fun push =>
          mbind' (update_gpu_state p (set_pte_is_2m false)) (fun _ =>
          mbind' (update_gpu_state p (fun g => set_big_ptes (Z.lor (gs_big_ptes g) mask) g)) (fun _ => mret' (NV_OK, push))))
        else mret' (push_status, [])))) Q F v2) ->
  wp (uvm_api_map_handle ge (arch_chunk_sizes (ge_arch ge)) true push_status (S + i0 * 65536) (n * 65536) a) Q F v.
Proof using Hcan Hhandle.
  intros HQ. destruct block_bounds as (Hal & H0 & Htop). pose proof Hhandle as C7. pose proof Hcan as [C1 C2 _ _ C3 [C4 C4'] C5 C6 (C8 & C9 & C9') _ C10 C11].
  apply wp_bind, wp_guard; [by rewrite C1|]. rewrite (u64_small (S + _ + _ - 1)) by (unfold is_u64; lia).
  replace (n * 65536 / UVM_PAGE_SIZE_64K) with n by (change UVM_PAGE_SIZE_64K with 65536; by rewrite Z.div_mul).
  apply wp_bind. eapply (wp_block_of_address v r node C3 k C4 C4' F 3 blocks og); [done|done|done|fold S; lia|lia|]. intros p v1 He Hm1.
  apply wp_bind, wp_guard; [done|]. apply wp_bind. eapply wp_chunk_of_handle; [lia|by eapply handle_of_remapped, C7; apply He|].
  eapply (wp_enter_phase v1 p 1 _ _ He Hm1). intros mb mask s g Hs Ht Hm Hlen Hp Hch Hmask Hog Hpt. apply wp_bind, wp_gpu_state.
  apply wp_bind. eapply (wp_tables_phase p g _ 1); [exact Ht|exact Hm|]. intros v2 g2 q T1 T2 T3 T4 T5 T6 T7 T8 Hm2 T9.
  apply (HQ p q mb mask v2 g2). destruct He as [E1 E2 E3 E4 _]. split; try done.
  - exists (setZ blocks k (Some p)). split; [rewrite T4; cbn; by rewrite E3, lookup_insert_eq|]. rewrite nthZ_setZ_eq; [done|].
    destruct C6 as (ob & Hob & _). by eapply nthZ_lt.
  - by rewrite T1, lookup_insert_eq.
  - intros j Hj. rewrite T1, lookup_insert_ne by done. cbn. by rewrite E4, lookup_insert_ne.
  - by etransitivity.
  - by rewrite T3.
  - by rewrite T6.
  - by apply T8.
  - by rewrite T6.
  - by rewrite T9, <- Hog, <- Hpt.
Qed.

Lemma wp_map_handle (Q : _ -> va_state -> Prop) :
  (forall p v' push, handle_mapped ge v r k S og n sub i0 bt p v' -> mapping_pushed ge pdb S bt (page_of a i0) (up i0 (i0 + n)) m0 push -> Q (NV_OK, push) v') ->
  wp (uvm_api_map_handle ge (arch_chunk_sizes (ge_arch ge)) true NV_OK (S + i0 * 65536) (n * 65536) a) Q F v.
Proof using Hcan Hhandle.
  intros HQ. apply wp_map_prefix. intros p q mb mask v2 g [P1 P2 P3 P4 P5 P6 P7 P8 P9 P10 P11 P12]. destruct Hcan as [_ _ _ _ _ _ _ _ (C8 & C9 & C9') _ _ _].
  eapply (wp_push_phase p g v2 q); [done|done|done|done|done|by eapply handle_of_remapped|done|].
  intros s2 push Hs2 Hpush. apply (HQ p); [|done]. split; [done| | |by etransitivity|done|exact P12].
  - eexists _, q. split; [cbn; by rewrite lookup_insert_eq|]. split; [by eapply has_tables_keep; [..|exact P6]|].
    split; [done|]. split; [done|]. split; [cbn; by rewrite (ht_range_big _ _ _ _ P6)|]. split; [done|].
    intros j Hj. split; [by apply P9|]. cbn. rewrite Z.lor_spec, P10 by lia.
    rewrite (proj2 (Z.leb_le _ _)), (proj2 (Z.ltb_lt _ _)) by lia. apply orb_true_r.
  - intros j Hj. cbn. rewrite lookup_insert_ne by done. by apply P3.
Qed.

(** Without a push the chunks stay in the block. *)
Lemma wp_map_push_error push_status (Q : _ -> va_state -> Prop) :
  push_status <> NV_OK ->
  (forall p q mask v2 v' g, ready_to_push p q mask v2 g -> v_blocks v' = v_blocks v2 -> remapped (v_pmm v) (v_pmm v') -> Q (push_status, []) v') ->
  wp (uvm_api_map_handle ge (arch_chunk_sizes (ge_arch ge)) true push_status (S + i0 * 65536) (n * 65536) a) Q F v.
Proof using Hcan Hhandle.
  intros Hst HQ. apply wp_map_prefix. intros p q mb mask v2 g Hr. apply wp_bind. eapply wp_kmalloc; [apply Hr|]. intros s Hs _.
  apply wp_bind, wp_guard; [done|]. rewrite decide_False by done. apply wp_ret. apply (HQ p q mask v2 _ g); [done|done|]. etransitivity; [apply Hr|done].
Qed.
End ioctl.

(** ** What the MMU reads *)

(** From the memory [m0] to [m]: the [n] big pages from [i0] of the block are translated
    to the memory at [a]; the other pages have the entries that the table had; nothing
    else is written. *)
Record maps_pages (ge : gpu_env) (S : Z) (bt : block_tables) (a n i0 : Z) (m0 m : gpu_mem Z) : Prop := {
  mg_mapped : forall i off, 0 <= i < n -> 0 <= off < 65536 ->
    translate_big ge m (pde_addr bt) (S + (i0 + i) * 65536 + off) =
    Some (requested (ge_arch ge) UVM_APERTURE_VID (a + i * 65536) (mapped_prot (ge_arch ge)) UVM_MMU_PTE_FLAGS_CACHED);
  mg_other : forall j off, 0 <= j < 32 -> 0 <= off < 65536 -> ~ i0 <= j < i0 + n ->
    translate_big ge m (pde_addr bt) (S + j * 65536 + off) =
    decode (ge_arch ge) (m0 (pa_aperture (bt_big bt)) (pa_address (bt_big bt) + j * 8));
  mg_rest : forall ap y, ~ in_pde bt ap y -> ~ in_big bt (up i0 (i0 + n)) ap y -> m ap y = m0 ap y;
}.

Section reads.
Context (ge : gpu_env) (v : va_state) (g : uvm_va_block_gpu_state_t) (bt : block_tables).
Context (Harch : big_arch (ge_arch ge) = true) (Ht : has_tables ge v g bt).

Lemma translate_pde m va :
  [m (phys_aperture (pde_addr bt)) (phys_address (pde_addr bt)); m (phys_aperture (pde_addr bt)) (phys_address (pde_addr bt) + 8)] = pde_words ge bt ->
  translate_big ge m (pde_addr bt) va = decode (ge_arch ge) (m (pa_aperture (bt_big bt)) (pa_address (bt_big bt) + va / 65536 mod 32 * 8)).
Proof using Harch Ht. intros E. unfold translate_big. rewrite E. by destruct (pde_words_reads ge v g bt Harch Ht) as (_ & -> & _). Qed.

Lemma mapping_reads pdb S a n i0 m0 push :
  mapping_pushed ge pdb S bt (page_of a i0) (up i0 (i0 + n)) m0 push ->
  S mod 2097152 = 0 -> 0 <= S -> 0 <= i0 -> i0 + n <= 32 -> 0 <= a -> a mod 4096 = 0 -> a + n * 65536 <= 2 ^ address_bits (ge_arch ge) UVM_APERTURE_VID ->
  exists m, run_push push m0 = Some m /\ maps_pages ge S bt a n i0 m0 m.
Proof using Harch Ht.
  intros [(m & Hrun & Hbig & Hpde & Hrest) _] Hal H0 Hi0 Hn Ha Ham Hab. exists m. split; [done|].
  assert (Hix : forall j off, 0 <= j < 32 -> 0 <= off < 65536 -> (S + j * 65536 + off) / 65536 mod 32 = j).
  { clear -Hal H0. intros j off Hj Hoff. div_lia. }
  split; [| |done].
  - intros i off Hi Hoff. rewrite translate_pde, Hix by (done || lia). rewrite Hbig by (apply elem_of_up; lia).
    unfold page_of. replace (i0 + i - i0) with i by lia. apply big_pte_decodes; [lia|].
    replace (a + i * 65536) with (a + i * 16 * 4096) by lia. by rewrite Z_mod_plus_full.
  - intros j off Hj Hoff Hout. rewrite translate_pde, Hix by (done || lia). f_equal. apply Hrest; [by apply Ht|].
    intros (_ & i & Hi%elem_of_up & E). lia.
Qed.
End reads.

(** ** Correctness *)

Section correct.
Context (ge : gpu_env) (num : Z) (pdb : uvm_gpu_phys_address_t) (v : va_state) (r : Z) (node : range) (blocks : list (option Z)).
Context (k : Z) (og : option uvm_va_block_gpu_state_t) (a n c : Z) (sub : Z -> Z) (i0 : Z) (bt : block_tables).
Let S : Z := r_start node + k * 2097152.
Definition map_handle (address : Z) : V (NV_STATUS * cmds) := uvm_api_map_handle ge (arch_chunk_sizes (ge_arch ge)) true NV_OK address (n * 65536) a.

(** The ioctl does not fault; its push is the same for all memories. *)
Lemma map_handle_spec :
  can_map ge num pdb v r node blocks k og a n i0 bt -> handle_of (v_pmm v) a n c sub ->
  exists push p v', map_handle (S + i0 * 65536) v = Ok (NV_OK, push) v' /\
    handle_mapped ge v r k S og n sub i0 bt p v' /\ forall m0, mapping_pushed ge pdb S bt (page_of a i0) (up i0 (i0 + n)) m0 push.
Proof using.
  intros Hcan Hh.
  assert (Hwp : forall m0, wp (map_handle (S + i0 * 65536)) (fun res v' => fst res = NV_OK /\ (exists p, handle_mapped ge v r k S og n sub i0 bt p v') /\
    mapping_pushed ge pdb S bt (page_of a i0) (up i0 (i0 + n)) m0 (snd res)) (fun _ _ => False) v).
  { intros m0. eapply (wp_map_handle ge _ num pdb v r node blocks k og a n c sub i0 bt Hcan Hh m0). intros p v' push Hm Hp. split; [done|]. split; [by exists p|done]. }
  unfold wp in Hwp. destruct (map_handle (S + i0 * 65536) v) as [[st push] v'|]; [|by destruct (Hwp (fun _ _ => 0))]. cbn [fst snd] in Hwp.
  destruct (Hwp (fun _ _ => 0)) as (-> & (p & Hp) & _). exists push, p, v'. split; [done|]. split; [done|]. intros m0. apply Hwp.
Qed.

Lemma map_handle_maps :
  can_map ge num pdb v r node blocks k og a n i0 bt -> handle_of (v_pmm v) a n c sub ->
  exists push p v', map_handle (S + i0 * 65536) v = Ok (NV_OK, push) v' /\
    handle_mapped ge v r k S og n sub i0 bt p v' /\
    forall m0, exists m, run_push push m0 = Some m /\ maps_pages ge S bt a n i0 m0 m.
Proof using.
  intros Hcan Hh. destruct (map_handle_spec Hcan Hh) as (push & p & v' & E & Hm & Hp). exists push, p, v'. split; [done|]. split; [done|]. intros m0.
  destruct (block_bounds ge num pdb v r node blocks k og a n i0 bt Hcan) as (Hal & H0 & _). destruct (hm_block _ _ _ _ _ _ _ _ _ _ _ _ Hm) as (g & q & _ & Ht & _).
  destruct Hcan as [C1 C2 _ _ _ _ _ _ (C8 & C9 & C9') (C10 & C11) _ _].
  destruct (mapping_reads ge v' g (set_big_ptr q bt) C2 Ht pdb S a n i0 m0 push) as (m & Hrun & [R1 R2 R3]); try done.
  - destruct (Hp m0); by split.
  - apply Hh.
  - exists m. split; [done|]. by split.
Qed.
End correct.

(** A handle of 64KB that the handle ioctls gave out. *)
Lemma recorded_handle s hs a p : handles_ok s hs -> hs !! a = Some p -> handle_of s a 1 p (fun _ => p) /\ a mod 4096 = 0.
Proof.
  intros Hs Ha. pose proof (hk_ok _ _ Hs) as Hok. destruct (hk_recorded _ _ Hs a p Ha) as (rc & d & Hrec). pose proof Hrec as [R1 R2 R3 R4 R5 R6 R7].
  apply live_lookup in R3 as [Hd _]. destruct (handle_root s p d Hok Hd R5) as (rc' & Hr & _ & Hra & _ & _ & _ & Hb & _); [unfold pma_owned; by rewrite R4|].
  rewrite R6 in *. change (2 ^ ROOT) with 2097152 in *. assert (rc' = rc) as -> by congruence. split.
  - split.
    + split; [done|]. pose proof (eo_max _ (po_env _ _ Hok)). assert (UVM_GPU_MAX_PHYS_MEM < 2 ^ 64) by done. lia.
    + exists rc. split; [done|]. split; [done|]. exact R2.
    + exists d. split; [done|]. intros j Hj. by replace j with 0 by lia.
    + intros j Hj. exists d. split; [done|]. rewrite R6. lia.
  - pose proof (recorded_aligned s a p rc d Hok Hrec) as Hm. change (2 ^ HANDLE) with 65536 in Hm. div_lia.
Qed.

(** C17. Mapping a handle of up to four big pages (64KB to 256KB) at a big page of a block,
    on a release build and on every architecture from Pascal to Hopper, in a VA range that
    starts at a 2MB boundary, when the allocations of the ioctl (the block, its GPU state
    and its page tables) find memory and the push can be begun: the ioctl returns NV_OK
    without a fault, whether or not the block, its GPU state and its page tables
    existed before.  The block is entered in its range and the chunks of the handle in the
    block, other blocks are kept, and the physical memory manager changes only in the VA
    block of chunks.  Run on any memory, the commands pushed leave a memory in which the
    MMU, reading the 2MB entry and the big PTE, translates every address of the mapped
    pages to the memory of the handle, writable and cached; every other page of the block
    has the entry that the table held before, and no other word is written. *)
Theorem map_handle_correct ge num pdb v r node blocks k og a n c sub i0 bt :
  can_map ge num pdb v r node blocks k og a n i0 bt -> handle_of (v_pmm v) a n c sub ->
  let S := r_start node + k * 2097152 in
  exists push p v',
    uvm_api_map_handle ge (arch_chunk_sizes (ge_arch ge)) true NV_OK (S + i0 * 65536) (n * 65536) a v = Ok (NV_OK, push) v' /\
    handle_mapped ge v r k S og n sub i0 bt p v' /\
    forall m0, exists m, run_push push m0 = Some m /\ maps_pages ge S bt a n i0 m0 m.
Proof. apply map_handle_maps. Qed.

(** C24. A map drops the cached 2MB entry of its block from the TLB, on every architecture
    from Pascal to Hopper: the push ends with a wait for idle, after all writes of page
    table entries, followed by host methods that invalidate, for the page directory base
    of the GPU VA space, at the level of the 2MB entry, with all levels below it.  Where
    invalidates take a range (from Volta on), an invalidate of that level reaches every
    address of the block, so that no stale translation of the block survives the map; on
    Pascal it is sent for the first address of the block. *)
Theorem map_handle_invalidates ge num pdb v r node blocks k og a n c sub i0 bt :
  can_map ge num pdb v r node blocks k og a n i0 bt -> handle_of (v_pmm v) a n c sub ->
  let S := r_start node + k * 2097152 in
  let level := root_level (ge_arch ge) - page_table_depth (hal_of (ge_ats ge) (ge_arch ge)) UVM_PAGE_SIZE_2M in
  exists pre words ops v',
    uvm_api_map_handle ge (arch_chunk_sizes (ge_arch ge)) true NV_OK (S + i0 * 65536) (n * 65536) a v =
      Ok (NV_OK, pre ++ [WaitForIdle; HostMethods words]) v' /\
    host_ops C06F (ranged_arch (ge_arch ge)) words = Some ops /\
    Exists (drops pdb S 21 level) ops /\
    (ranged_arch (ge_arch ge) = true -> forall va, S <= va < S + 2097152 -> Exists (fun op => reaches va op /\ invalidates pdb level false op) ops).
Proof.
  intros Hcan Hh S level. destruct (map_handle_spec ge num pdb v r node blocks k og a n c sub i0 bt Hcan Hh) as (push & p & v' & E & _ & Hp).
  destruct (mp_tlb _ _ _ _ _ _ _ _ (Hp (fun _ _ => 0))) as (pre & words & ops & -> & Ho & Hx1 & Hx2). exists pre, words, ops, v'.
  split; [exact E|]. split; [done|]. split; [exact Hx1|exact Hx2].
Qed.

(** When the push cannot be begun the ioctl returns that status and pushes nothing,
    but it does not undo what it has done: the chunks of the handle stay entered in the
    block, in place of what was there, although no entry maps them. *)
Theorem map_handle_push_error ge num pdb v r node blocks k og a n c sub i0 bt push_status :
  can_map ge num pdb v r node blocks k og a n i0 bt -> handle_of (v_pmm v) a n c sub -> push_status <> NV_OK ->
  let S := r_start node + k * 2097152 in
  exists p g v',
    uvm_api_map_handle ge (arch_chunk_sizes (ge_arch ge)) true push_status (S + i0 * 65536) (n * 65536) a v = Ok (push_status, []) v' /\
    v_blocks v' !! p = Some (VaBlock (block_span S) (Some g)) /\ remapped (v_pmm v) (v_pmm v') /\
    (forall j, 0 <= j < n -> nthZ (gs_chunks g) (i0 + j) = Some (Some (sub j))) /\
    forall j, j <> p -> v_blocks v' !! j = v_blocks v !! j.
Proof.
  intros Hcan Hh Hst S.
  assert (Hwp : wp (uvm_api_map_handle ge (arch_chunk_sizes (ge_arch ge)) true push_status (S + i0 * 65536) (n * 65536) a)
    (fun res v' => res = (push_status, []) /\ exists p g, v_blocks v' !! p = Some (VaBlock (block_span S) (Some g)) /\ remapped (v_pmm v) (v_pmm v') /\
      (forall j, 0 <= j < n -> nthZ (gs_chunks g) (i0 + j) = Some (Some (sub j))) /\ forall j, j <> p -> v_blocks v' !! j = v_blocks v !! j) (fun _ _ => False) v).
  { eapply (wp_map_push_error ge _ num pdb v r node blocks k og a n c sub i0 bt Hcan Hh); [done|]. intros p q mask v2 v' g [P1 P2 P3 P4 P5 P6 P7 P8 P9 P10 P11 P12] Eb Hre.
    split; [done|]. exists p, g. by rewrite Eb. }
  unfold wp in Hwp. destruct (uvm_api_map_handle _ _ _ _ _ _ _ v) as [res v'|]; [|done]. destruct Hwp as (-> & p & g & H). by exists p, g, v'.
Qed.

(** C23. Getting and mapping compose: where the conditions of a map hold (a release build,
    a VA range that starts at a 2MB boundary, memory for the allocations of the map), every
    handle of 64KB that user space got from the handle ioctl and has not freed can be mapped,
    also after any number of maps (which leave
    the memory manager as it was up to the VA blocks of chunks), and a map keeps this
    so; the chunk entered in the block is in use, of 64KB, and at the physical address
    that the MMU translates the page to. *)
Theorem handles_can_be_mapped gp pma gpu_of gpu s H ge num pdb v r node blocks k og a i0 bt :
  PmaLaw gp pma -> ioctl_reachable gp pma gpu_of gpu s H -> a ∈ H -> remapped s (v_pmm v) ->
  can_map ge num pdb v r node blocks k og a 1 i0 bt ->
  let S := r_start node + k * 2097152 in
  exists push c d p v',
    uvm_api_map_handle ge (arch_chunk_sizes (ge_arch ge)) true NV_OK (S + i0 * 65536) 65536 a v = Ok (NV_OK, push) v' /\
    handle_mapped ge v r k S og 1 (fun _ => c) i0 bt p v' /\ remapped s (v_pmm v') /\
    live (p_heap s) !! c = Some d /\ c_address d = a /\ 2 ^ c_log2_size d = 65536 /\
    forall m0, exists m, run_push push m0 = Some m /\ maps_pages ge S bt a 1 i0 m0 m.
Proof.
  intros Hpma Hreach Ha Hre Hcan S. destruct (ioctl_reachable_simulates gp pma gpu_of gpu s H Hreach) as (hs & <- & Hs).
  apply elem_of_dom in Ha as [c Hc]. destruct (recorded_handle s hs a c Hs Hc) as [Hh _].
  destruct (map_handle_maps ge num pdb v r node blocks k og a 1 c (fun _ => c) i0 bt Hcan (handle_of_remapped _ _ _ _ _ _ Hre Hh)) as (push & p & v' & E & Hm & Hp).
  destruct (hk_recorded _ _ Hs a c Hc) as (rc & d & [_ _ R3 _ R5 R6 _]). exists push, c, d, p, v'. split; [exact E|]. split; [done|].
  split; [etransitivity; [exact Hre|apply Hm]|]. split; [done|]. split; [done|]. by rewrite R5.
Qed.

(** ** An example *)

(** A range of two blocks, neither of which exists, and one handle of 64KB. *)
Definition demo_node : range := Range (2 ^ 30) (2 ^ 30 + 2 ^ 22 - 1).
Definition demo_va : va_state :=
  VaState demo_h1 (RangeTree {[5 := demo_node]} (Node Leaf 5 Leaf) [5]) {[5 := [None; None]]} ∅ demo_page_tree 2000.
Definition demo_tables : block_tables :=
  BlockTables 0 1003 0 (PtAlloc UVM_APERTURE_VID 2097152) None (PtAlloc UVM_APERTURE_VID 1048576).

Lemma demo_can_map : can_map (demo_gpu false) 0 demo_pdb demo_va 5 demo_node [None; None] 0 None 0 1 3 demo_tables.
Proof.
  split; try done.
  - split; [split; [by left|done]|done].
  - split; try done; [|by left]. split; [done|by apply NoDup_singleton|]. split; [repeat constructor|]. constructor; [by vm_compute|constructor].
  - by exists None.
  - eexists (drop 4 (p_kmem demo_h1)). by vm_compute.
  - split; try done.
    + eexists _, _. split; [vm_compute; reflexivity|]. split; [vm_compute; reflexivity|]. split_and!; done.
    + split; [|done]. split; [by right|by vm_compute].
    + intros i Hi [_ H]. cbn in H. lia.
Qed.

Lemma demo_remapped : remapped demo_h1 (v_pmm demo_va).
Proof. apply (remapped_refl demo_h1). Qed.

Lemma demo_handle : handle_of demo_h1 0 1 14 (fun _ => 14).
Proof.
  split.
  - by vm_compute.
  - eexists. split; [vm_compute; reflexivity|]. by vm_compute.
  - eexists. split; [vm_compute; reflexivity|]. intros j Hj. by replace j with 0 by lia.
  - intros j Hj. eexists. split; [vm_compute; reflexivity|]. cbn [c_address]. lia.
Qed.

Lemma map_handle_correct_witness :
  exists push p v',
    uvm_api_map_handle (demo_gpu false) (arch_chunk_sizes AAmpere) true NV_OK (2 ^ 30 + 0 * 2097152 + 3 * 65536) (1 * 65536) 0 demo_va = Ok (NV_OK, push) v' /\
    handle_mapped (demo_gpu false) demo_va 5 0 (2 ^ 30 + 0 * 2097152) None 1 (fun _ => 14) 3 demo_tables p v' /\
    forall m0, exists m, run_push push m0 = Some m /\ maps_pages (demo_gpu false) (2 ^ 30 + 0 * 2097152) demo_tables 0 1 3 m0 m.
Proof. exact (map_handle_correct (demo_gpu false) 0 demo_pdb demo_va 5 demo_node [None; None] 0 None 0 1 14 (fun _ => 14) 3 demo_tables demo_can_map demo_handle). Defined.

Lemma map_handle_invalidates_witness :
  exists pre words ops v',
    uvm_api_map_handle (demo_gpu false) (arch_chunk_sizes AAmpere) true NV_OK (2 ^ 30 + 0 * 2097152 + 3 * 65536) (1 * 65536) 0 demo_va =
      Ok (NV_OK, pre ++ [WaitForIdle; HostMethods words]) v' /\
    host_ops C06F true words = Some ops /\ Exists (drops demo_pdb (2 ^ 30 + 0 * 2097152) 21 2) ops /\
    (true = true -> forall va, 2 ^ 30 + 0 * 2097152 <= va < 2 ^ 30 + 0 * 2097152 + 2097152 ->
       Exists (fun op => reaches va op /\ invalidates demo_pdb 2 false op) ops).
Proof.
  exact (map_handle_invalidates (demo_gpu false) 0 demo_pdb demo_va 5 demo_node [None; None] 0 None 0 1 14 (fun _ => 14) 3 demo_tables demo_can_map demo_handle).
Defined.

Lemma map_handle_push_error_witness :
  exists p g v',
    uvm_api_map_handle (demo_gpu false) (arch_chunk_sizes AAmpere) true NV_ERR_NO_MEMORY (2 ^ 30 + 0 * 2097152 + 3 * 65536) (1 * 65536) 0 demo_va = Ok (NV_ERR_NO_MEMORY, []) v' /\
    v_blocks v' !! p = Some (VaBlock (block_span (2 ^ 30 + 0 * 2097152)) (Some g)) /\ remapped demo_h1 (v_pmm v') /\
    (forall j, 0 <= j < 1 -> nthZ (gs_chunks g) (3 + j) = Some (Some 14)) /\ forall j, j <> p -> v_blocks v' !! j = v_blocks demo_va !! j.
Proof.
  apply (map_handle_push_error (demo_gpu false) 0 demo_pdb demo_va 5 demo_node [None; None] 0 None 0 1 14 (fun _ => 14) 3 demo_tables NV_ERR_NO_MEMORY demo_can_map demo_handle).
  discriminate.
Defined.

Lemma handles_can_be_mapped_witness :
  exists push c d p v',
    uvm_api_map_handle (demo_gpu false) (arch_chunk_sizes AAmpere) true NV_OK (2 ^ 30 + 0 * 2097152 + 3 * 65536) 65536 0 demo_va = Ok (NV_OK, push) v' /\
    handle_mapped (demo_gpu false) demo_va 5 0 (2 ^ 30 + 0 * 2097152) None 1 (fun _ => c) 3 demo_tables p v' /\ remapped demo_h1 (v_pmm v') /\
    live (p_heap demo_h1) !! c = Some d /\ c_address d = 0 /\ 2 ^ c_log2_size d = 65536 /\
    forall m0, exists m, run_push push m0 = Some m /\ maps_pages (demo_gpu false) (2 ^ 30 + 0 * 2097152) demo_tables 0 1 3 m0 m.
Proof.
  apply (handles_can_be_mapped demo_props first_fit_pma demo_gpu_of 0 demo_h1 {[0]} (demo_gpu false) 0 demo_pdb demo_va 5 demo_node [None; None] 0 None 0 3 demo_tables
    demo_law demo_ioctl_one); [by apply elem_of_singleton|exact demo_remapped|exact demo_can_map].
Defined.

(** The push of the example.  The invalidate of the 64KB page comes before the write of
    its PTE, which is still queued then. *)
Example map_handle_push :
  match uvm_api_map_handle (demo_gpu false) (arch_chunk_sizes AAmpere) true NV_OK (2 ^ 30 + 3 * 65536) 65536 0 demo_va with
  | Ok (st, [HostMethods w1; CeMemset8 dst _ 8; WaitForIdle; MembarCmd _; InlineData _; CeMemcopy pde _ 16; MembarCmd _; WaitForIdle; HostMethods w2]) _ =>
      st = NV_OK /\ dst = PhysAddr (2097152 + 3 * 8) UVM_APERTURE_VID /\ pde = PhysAddr 1048576 UVM_APERTURE_VID /\
      host_ops C06F true w1 = Some [TlbInvalidate (Some (2 ^ 30 + 3 * 65536, 16)) demo_pdb 1 false] /\
      host_ops C06F true w2 = Some [TlbInvalidate (Some (2 ^ 30, 21)) demo_pdb 2 false]
  | _ => False
  end.
Proof. by vm_compute. Qed.

(** A debug build stops at the first map: the protection of page 0 is UVM_PROT_NONE. *)
Example map_handle_debug_asserts :
  match uvm_api_map_handle (demo_gpu true) (arch_chunk_sizes AAmpere) true NV_OK (2 ^ 30 + 3 * 65536) 65536 0 demo_va with
  | Fault AssertFail _ => True
  | _ => False
  end.
Proof. by vm_compute. Qed.

(** The table of big pages is not initialized before it is made active: a page that was
    never mapped is translated by whatever the memory of the table held. *)
Example first_map_exposes_old_entries :
  match uvm_api_map_handle (demo_gpu false) (arch_chunk_sizes AAmpere) true NV_OK (2 ^ 30 + 3 * 65536) 65536 0 demo_va with
  | Ok (_, push) _ =>
      (m ← run_push push (fun _ _ => big_pte (demo_gpu false) (7 * 2 ^ 20));
       t_address <$> translate_big (demo_gpu false) m (pde_addr demo_tables) (2 ^ 30 + 9 * 65536)) = Some (7 * 2 ^ 20)
  | _ => False
  end.
Proof. by vm_compute. Qed.
