(* ===== verification/UvmMapTree.v ===== *)
(** The first map of a block, from the page tree on: the tree gives the 2MB entry with the
    directories above it, and when the pushes of the tree and of the ioctl have run, the
    MMU translates the addresses of the pages from the root directory. *)

From stdpp Require Import sorting.
From S2P Require Import Prelude UvmBits UvmCommon UvmMmuHal UvmMmuHalCorrect UvmRangeTree UvmPush UvmHostTlb UvmTlbBatch UvmPteBatch UvmTracker UvmPmm UvmPmmTree UvmPmmInv UvmPmmOps UvmPmmLeaf UvmPmmMerge UvmPmmFree UvmPmmSplit UvmPmmAlloc UvmPmmRoot UvmPmmCorrect UvmPmmHandle UvmPmmKeep UvmPmmIoctl UvmPmmHandleCorrect UvmVaBlock UvmVaBlockCorrect UvmPageTree UvmPageTreeWalk UvmPageTreePush UvmPageTreeInv UvmPageTreeMemory UvmPageTreeCorrect UvmMapHandle UvmMapPush UvmMapHandleCorrect.
Local Open Scope Z_scope.

(** ** The tables of a new block *)

Section tables.
Context (ge : gpu_env) (num : Z) (pdb : uvm_gpu_phys_address_t) (S bound : Z) (tables : list uvm_mmu_page_table_alloc_t).
Let h : uvm_mmu_mode_hal_t := hal_of (ge_ats ge) (ge_arch ge).
Let d2 : Z := depth_2m (ge_ats ge) (ge_arch ge).

(** The tree can give a 2MB entry that is not in use and memory for the table below. *)
Record tree_ready (t : page_tree) : Prop := {
  tr_inv : tree_inv ge bound t;
  tr_bound : 0 <= bound < 2 ^ 32 - 1;
  tr_tables : tables_for ge t tables;
  tr_one_more : d2 < Z.of_nat (length tables);
  tr_apart : tables_apart ge (pt_dirs t) tables;
  tr_unused : forall q e, path ge S (pt_dirs t) (ge_root ge) 0 (Z.to_nat d2) q -> pt_dirs t !! q = Some e ->
    nthZ (pd_entries e) (2 * lvl_index h S d2) = Some None /\ nthZ (pd_entries e) (2 * lvl_index h S d2 + 1) = Some None;
}.

Context (Henv : tree_env ge num pdb S).

Lemma child_ok_big a : table_ok ge a -> child_ok (ge_arch ge) 8 (Some a).
Proof using.
  intros (H1 & H2 & H3). split; [done|]. split; [done|]. change (2 ^ 12) with 4096 in H3. change (2 ^ 8) with 256. clear -H3. div_lia.
Qed.

Lemma index_2m : 0 <= lvl_index h S d2 < 256 /\ lvl_entries h d2 d2 <= 512 /\ 2 * lvl_index h S d2 + 1 < lvl_entries h d2 d2.
Proof using Henv.
  pose proof (hal_tree (ge_ats ge) (ge_arch ge) (te_arch _ _ _ _ Henv)) as Hh. fold h in Hh. fold d2 in Hh. pose proof (tg_bits_range _ _ Hh) as Hb.
  assert (0 < 2 ^ lvl_bits h d2 <= 256) by (split; [lia|]; change 256 with (2 ^ 8); apply Z.pow_le_mono_r; lia).
  pose proof (Z.mod_pos_bound (S / 2 ^ lvl_shift h d2) (2 ^ lvl_bits h d2) ltac:(lia)). unfold lvl_index, lvl_entries. rewrite Z.eqb_refl. lia.
Qed.

(** The tables of the block: the table of 2MB entries [q] and the next memory. *)
Lemma tables_of_tree v : tree_ready (v_page_tree v) ->
  exists q e t' big, entry_ready ge S bound (v_page_tree v) tables q t' /\ pt_dirs t' !! q = Some e /\ tables_apart ge (pt_dirs t') [big] /\
    table_ok ge big /\ table_ok ge (pd_phys_alloc e) /\ pd_depth e = d2 /\ new_tables ge v S (BlockTables 0 q (lvl_index h S d2) big None (pd_phys_alloc e)).
Proof using Henv.
  intros [R1 R2 R3 R4 R5 R6]. destruct (get_ptes_ready ge num pdb S bound (v_page_tree v) tables Henv R1 R2 R3 R5) as (q & t' & Hready).
  pose proof Hready as [E1 E2 E3 (e & He & Hk & Hent) (j & rest & Hj & Hall & Hap) _ _]. fold d2 in Hk, Hj, Hent, E1. fold h in E1. destruct index_2m as (Hi & Hle & Hlt).
  destruct (lookup_lt_is_Some_2 tables j) as (big & Hbig); [lia|]. pose proof (drop_S _ _ _ Hbig) as Hdrop.
  assert (Hokb : table_ok ge big) by (destruct R3 as (_ & _ & Hok); exact (Forall_lookup_1 _ _ _ _ Hok Hbig)).
  assert (Hoke : table_ok ge (pd_phys_alloc e)) by (apply (di_table _ _ _ _ _ (ti_dirs _ _ _ E2 _ _ He)); fold d2; lia).
  assert (Hap1 : tables_apart ge (pt_dirs t') [big]).
  { rewrite Hdrop in Hap. apply (tables_apart_take ge _ (big :: drop (Datatypes.S j) tables) 1) in Hap. exact Hap. }
  assert (Hents : nthZ (pd_entries e) (2 * lvl_index h S d2) = Some None /\ nthZ (pd_entries e) (2 * lvl_index h S d2 + 1) = Some None).
  { destruct Hent as [(d & Hd & Hp & ->)|(l & El)]; [by eapply R6|].
    assert (Hl : Z.of_nat l = lvl_entries h d2 d2).
    { pose proof (di_length _ _ _ _ _ (ti_dirs _ _ _ E2 _ _ He)) as Hl. fold h d2 in Hl. rewrite Hk, El, length_replicate in Hl. apply Hl. lia. }
    rewrite El. unfold nthZ. rewrite !(proj2 (Z.leb_le 0 _)) by lia. split; apply lookup_replicate_2; lia. }
  assert (Hne : pd_phys_alloc e <> big).
  { intros Eq. apply (ta_new _ _ _ Hap1 q e He); [fold d2; lia|]. by apply list_elem_of_singleton. }
  destruct (table_ok_bounds ge _ Hokb), (table_ok_bounds ge _ Hoke). pose proof (ti_keys _ _ _ E2 _ _ He) as Hkey.
  exists q, e, t', big. do 6 (split; [done|]). split; cbn [bt_small bt_big bt_2m bt_index bt_2m_ptr]; try done; [| |lia|lia|].
  - exists t', e. split; [exact E1|]. split; [done|]. split; [done|]. split; [done|]. split; [apply Hents|]. split; [apply Hents|].
    split; cbn [bt_small bt_big bt_2m bt_index bt_2m_ptr]; [done|by rewrite Hall, Hdrop|apply Henv|lia].
  - unfold children_ok. split; [|done]. pose proof (te_arch _ _ _ _ Henv) as Ha. pose proof (child_ok_big big Hokb) as H8. by destruct (ge_arch ge).
  - intros i Hi' [Hap2 Hy]. apply Hne. unfold pde_addr in Hap2, Hy. cbn [phys_aperture phys_address bt_2m bt_index] in Hap2, Hy.
    eapply (tables_disjoint ge _ _ (pa_aperture big) (pa_address big + i * 8)); [done|done| |split; [done|lia]]. split; [done|]. destruct Hy; lia.
Qed.
End tables.

(** ** The translation from the root *)

(** The MMU goes down from the root to the table of 2MB entries and reads the entry of the
    address there. *)
Definition mmu_translate (ge : gpu_env) (m : gpu_mem Z) (root : uvm_mmu_page_table_alloc_t) (va : Z) : option translation :=
  let d2 := depth_2m (ge_ats ge) (ge_arch ge) in
  table ← mmu_walk ge m va root 0 (Z.to_nat d2);
  translate_big ge m (PhysAddr (pa_address table + lvl_index (hal_of (ge_ats ge) (ge_arch ge)) va d2 * 16) (pa_aperture table)) va.

Section translation.
Context (ge : gpu_env) (Harch : big_arch (ge_arch ge) = true) (S : Z) (Hal : S mod 2097152 = 0).
Let h : uvm_mmu_mode_hal_t := hal_of (ge_ats ge) (ge_arch ge).
Let d2 : Z := depth_2m (ge_ats ge) (ge_arch ge).

(** The addresses of a block have the same entries down to the 2MB entry. *)
Lemma block_index x k : 0 <= x < 2097152 -> 0 <= k <= d2 -> lvl_index h (S + x) k = lvl_index h S k.
Proof using Harch Hal.
  intros Hx Hk. destruct (level h d2 (hal_tree _ _ Harch) k Hk) as (_ & _ & Hs & _). unfold lvl_index. f_equal.
  replace (2 ^ lvl_shift h k) with (2097152 * 2 ^ (lvl_shift h k - 21)) by (change 2097152 with (2 ^ 21); rewrite <- Z.pow_add_r by lia; f_equal; lia).
  rewrite <- !Z.div_div by lia. f_equal. clear -Hal Hx. div_lia.
Qed.

Lemma block_walk m x : 0 <= x < 2097152 -> forall n a k, 0 <= k -> k + Z.of_nat n <= d2 -> mmu_walk ge m (S + x) a k n = mmu_walk ge m S a k n.
Proof using Harch Hal.
  intros Hx n. induction n as [|n IH]; intros a k Hk Hn; [done|]. cbn [mmu_walk]. fold h. rewrite (block_index x k Hx ltac:(lia)).
  destruct (decode_pde _ _ _) as [cs|]; [|done]. cbn [mbind option_bind]. destruct (mjoin (head cs)) as [c|]; [|done]. cbn [mbind option_bind]. apply IH; lia.
Qed.

(** Writing entries of a 2MB table and of a table below it leaves the directories. *)
Lemma mirrors_map bound t q e big bt a n i0 m m' :
  tree_inv ge bound t -> pt_dirs t !! q = Some e -> pd_depth e = d2 -> tables_apart ge (pt_dirs t) [big] -> table_ok ge big -> table_ok ge (pd_phys_alloc e) ->
  bt_2m bt = pd_phys_alloc e -> bt_big bt = big -> 0 <= bt_index bt < 256 -> 0 <= i0 -> i0 + n <= 32 ->
  maps_pages ge S bt a n i0 m m' -> mirrors ge m (pt_dirs t) -> mirrors ge m' (pt_dirs t).
Proof using Harch Hal.
  intros Ht He Hk Hap Hb Hoke E1 E2 Hi Hi0 Hn Hmap Hm x d i o Hx Hkd Ho.
  assert (Hokd : table_ok ge (pd_phys_alloc d)) by (apply (di_table _ _ _ _ _ (ti_dirs _ _ _ Ht _ _ Hx)); lia).
  assert (Hin : in_table (pd_phys_alloc d) (pa_aperture (pd_phys_alloc d)) (pa_address (pd_phys_alloc d) + i * 8)).
  { split; [done|]. apply nthZ_lt in Ho. pose proof (di_length _ _ _ _ _ (ti_dirs _ _ _ Ht _ _ Hx) ltac:(lia)) as Hl. rewrite Hl in Ho. fold h d2 in Ho, Hkd.
    pose proof (di_depth _ _ _ _ _ (ti_dirs _ _ _ Ht _ _ Hx)). destruct (idx_range h d2 (hal_tree _ _ Harch) 0 (pd_depth d)) as [_ Hb9]; [lia|].
    unfold lvl_entries in Ho. rewrite (proj2 (Z.eqb_neq _ _)) in Ho by lia. lia. }
  rewrite (mg_rest _ _ _ _ _ _ _ _ Hmap); [exact (Hm x d i o Hx Hkd Ho)| |].
  - intros [Hap' Hy]. unfold pde_addr in Hap', Hy. cbn [phys_aperture phys_address] in Hap', Hy. rewrite E1 in Hap', Hy.
    assert (Eq : pd_phys_alloc d = pd_phys_alloc e).
    { eapply (tables_disjoint ge _ _ _ _ Hokd Hoke Hin). split; [done|]. destruct Hy; lia. }
    pose proof (ta_old _ _ _ Hap x q d e Hx He ltac:(lia) ltac:(fold d2; lia) Eq) as ->. assert (d = e) as -> by congruence. fold d2 in Hkd. lia.
  - intros [Hap' (j & Hj%elem_of_up & Hy)]. rewrite E2 in Hap', Hy. apply (ta_new _ _ _ Hap x d Hx ltac:(lia)). apply list_elem_of_singleton.
    eapply (tables_disjoint ge _ _ _ _ Hokd Hb Hin). split; [done|lia].
Qed.
End translation.

Lemma run_pushes_app l l' m : run_pushes (l ++ l') m = (m ← run_pushes l m; run_pushes l' m).
Proof. revert m. induction l as [|p l IH]; intros m; [done|]. cbn [run_pushes app]. destruct (run_push p m); [apply IH|done]. Qed.

(** What the first map of the block [k] of a range needs. *)
Record first_map (ge : gpu_env) (num : Z) (pdb : uvm_gpu_phys_address_t) (v : va_state) (r : Z) (node : range) (blocks : list (option Z))
    (k a n i0 bound : Z) (tables : list uvm_mmu_page_table_alloc_t) : Prop := {
  fm_release : ge_debug ge = false;
  fm_env : tree_env ge num pdb (r_start node + k * 2097152);
  fm_room : room [] (32 + 4 * (num + 1));
  fm_range : range_at v r node;
  fm_index : 0 <= k /\ r_start node + k * 2097152 + 2097151 <= r_end node;
  fm_blocks : v_range_blocks v !! r = Some blocks;
  fm_slot : slot_ok v node k blocks None;
  fm_pages : 1 <= n <= 4 /\ 0 <= i0 /\ i0 + n <= 32;
  fm_phys : a mod 4096 = 0 /\ a + n * 65536 <= 2 ^ address_bits (ge_arch ge) UVM_APERTURE_VID;
  fm_memory : memory_for 4 v;
  fm_tree : tree_ready ge (r_start node + k * 2097152) bound tables (v_page_tree v);
}.

(** C18. The first map of a block, end to end: given the invariant of the page tree, memory for
    the tables and a 2MB entry that is not in use, the ioctl returns NV_OK, and when the
    pushes that the page tree made and the push of the ioctl have run on a memory that
    holds the tables of the tree, the MMU, going down from the root directory through
    memory, translates every address of the mapped pages to the memory of the handle. *)
Theorem first_map_translates ge num pdb v r node blocks k a n c sub i0 bound tables :
  first_map ge num pdb v r node blocks k a n i0 bound tables -> handle_of (v_pmm v) a n c sub ->
  let S := r_start node + k * 2097152 in
  exists push bt p v' new root,
    uvm_api_map_handle ge (arch_chunk_sizes (ge_arch ge)) true NV_OK (S + i0 * 65536) (n * 65536) a v = Ok (NV_OK, push) v' /\
    handle_mapped ge v r k S None n sub i0 bt p v' /\
    pt_pushes (v_page_tree v') = pt_pushes (v_page_tree v) ++ new /\ pt_dirs (v_page_tree v) !! ge_root ge = Some root /\
    forall m0, mirrors ge m0 (pt_dirs (v_page_tree v)) -> exists m, run_pushes (new ++ [push]) m0 = Some m /\
      forall i off, 0 <= i < n -> 0 <= off < 65536 ->
        mmu_translate ge m (pd_phys_alloc root) (S + (i0 + i) * 65536 + off) =
        Some (requested (ge_arch ge) UVM_APERTURE_VID (a + i * 65536) (mapped_prot (ge_arch ge)) UVM_MMU_PTE_FLAGS_CACHED).
Proof.
  intros [F1 F2 F3 F4 F5 F6 F7 (F8 & F8' & F8'') F9 F10 F11] Hh S. fold S in F2, F11. pose proof (te_arch _ _ _ _ F2) as Harch. pose proof (te_aligned _ _ _ _ F2) as Hal.
  destruct (tables_of_tree ge num pdb S bound tables F2 v F11) as (q & e & t' & big & Hready & He & Hap & Hokb & Hoke & Hk & Hnew). destruct (index_2m ge num pdb S F2) as (Hix & _ & _).
  set (bt := BlockTables 0 q (lvl_index (hal_of (ge_ats ge) (ge_arch ge)) S (depth_2m (ge_ats ge) (ge_arch ge))) big None (pd_phys_alloc e)) in *.
  assert (Hcan : can_map ge num pdb v r node blocks k None a n i0 bt) by (split; try done; [apply F2|split; [apply F2|]; split; [apply F2|done]]).
  destruct (map_handle_maps ge num pdb v r node blocks k None a n c sub i0 bt Hcan Hh) as (push & p & v' & E & Hm & Hmaps). fold S in E, Hm, Hmaps.
  pose proof Hready as [R1 R2 R3 _ _ R6 (new & Rnew & Rmem)]. destruct (ti_root _ _ _ (tr_inv _ _ _ _ _ F11)) as (root & Hroot & _). destruct (R6 root Hroot) as (root' & Hroot' & Ealloc).
  exists push, bt, p, v', new, root. split; [exact E|]. split; [done|]. split.
  { rewrite (hm_pushes _ _ _ _ _ _ _ _ _ _ _ _ Hm). unfold pushes_after, get_pushes. cbn [is_some mbind option_bind]. by rewrite R1. }
  split; [done|]. intros m0 Hm0. destruct (Rmem m0 Hm0) as (m1 & Hrun1 & Hmir1). destruct (Hmaps m1) as (m & Hrun & Hmap).
  exists m. split; [rewrite run_pushes_app, Hrun1; cbn [mbind option_bind run_pushes]; by rewrite Hrun|]. intros i off Hi Hoff.
  assert (Hmir : mirrors ge m (pt_dirs t')) by (eapply (mirrors_map ge Harch S Hal (bound + 1) t' q e big bt a n i0 m1 m); done).
  unfold mmu_translate. replace (S + (i0 + i) * 65536 + off) with (S + ((i0 + i) * 65536 + off)) by lia.
  pose proof (tg_range _ _ (hal_tree (ge_ats ge) (ge_arch ge) Harch)) as Hr. rewrite (block_walk ge Harch S Hal) by lia. rewrite (block_index ge Harch S Hal) by lia.
  destruct (mmu_walk_path ge m S (bound + 1) t' _ Harch R2 Hmir _ root' _ _ R3 Hroot') as (e' & He' & Hw). assert (e' = e) as -> by congruence.
  rewrite <- Ealloc, Hw. cbn [mbind option_bind]. replace (S + ((i0 + i) * 65536 + off)) with (S + (i0 + i) * 65536 + off) by lia.
  exact (mg_mapped _ _ _ _ _ _ _ _ Hmap i off Hi Hoff).
Qed.

(** ** An example *)

Definition demo_memory : list uvm_mmu_page_table_alloc_t := demo_dirs ++ [PtAlloc UVM_APERTURE_VID 2097152].

Lemma demo_tree_ready : tree_ready (demo_gpu false) (2 ^ 30 + 0 * 2097152) 0 demo_memory demo_page_tree.
Proof.
  split; [by apply demo_inv|done| |done| |].
  - split; [by exists []|]. split; [done|]. repeat constructor; by right || done.
  - change (pt_dirs demo_page_tree) with ({[1000 := demo_root]} : gmap Z uvm_page_directory_t). split.
    + apply NoDup_ListNoDup. repeat constructor; cbn; intuition discriminate.
    + intros x e Hx _. apply lookup_singleton_Some in Hx as [<- <-]. intros H%list_elem_of_In. cbn in H. intuition discriminate.
    + intros x y e e' Hx Hy _ _ _. apply lookup_singleton_Some in Hx as [<- _]. by apply lookup_singleton_Some in Hy as [<- _].
  - intros q e (d & c & Hd & _ & _ & Hc & _) _. change (({[1000 := demo_root]} : gmap Z uvm_page_directory_t) !! 1000 = Some d) in Hd.
    apply lookup_singleton_Some in Hd as [_ <-]. vm_compute in Hc. discriminate.
Qed.

Lemma demo_first_map : first_map (demo_gpu false) 0 demo_pdb demo_va 5 demo_node [None; None] 0 0 1 3 0 demo_memory.
Proof. destruct demo_can_map. split; try done; [exact demo_env|exact demo_tree_ready]. Qed.

Lemma first_map_translates_witness :
  exists push bt p v' new root,
    uvm_api_map_handle (demo_gpu false) (arch_chunk_sizes AAmpere) true NV_OK (2 ^ 30 + 0 * 2097152 + 3 * 65536) (1 * 65536) 0 demo_va = Ok (NV_OK, push) v' /\
    handle_mapped (demo_gpu false) demo_va 5 0 (2 ^ 30 + 0 * 2097152) None 1 (fun _ => 14) 3 bt p v' /\
    pt_pushes (v_page_tree v') = [] ++ new /\ pt_dirs demo_page_tree !! 1000 = Some root /\
    forall m0, mirrors (demo_gpu false) m0 (pt_dirs demo_page_tree) -> exists m, run_pushes (new ++ [push]) m0 = Some m /\
      forall i off, 0 <= i < 1 -> 0 <= off < 65536 ->
        mmu_translate (demo_gpu false) m (pd_phys_alloc root) (2 ^ 30 + 0 * 2097152 + (3 + i) * 65536 + off) =
        Some (requested AAmpere UVM_APERTURE_VID (0 + i * 65536) (mapped_prot AAmpere) UVM_MMU_PTE_FLAGS_CACHED).
Proof.
  exact (first_map_translates (demo_gpu false) 0 demo_pdb demo_va 5 demo_node [None; None] 0 0 1 14 (fun _ => 14) 3 0 demo_memory demo_first_map demo_handle).
Defined.
